(* ===== verification/_CoqProject ===== *)
-Q . S2P
Prelude.v
Text.v
Diagnostic.v
Json.v
Model.v
Command.v
Vote.v
Mutation.v
Projection.v
Settings.v
Random.v
Store.v
Directory.v
Ticket.v
Connections.v
Bytes.v
Budget.v
Turn.v
Routing.v
ProviderRequest.v
RoomStore.v
Authority.v
Requests.v
Observation.v
Attachments.v
VoteStore.v
Execution.v
Scheduler.v
Completion.v
Calm.v
Messages.v
Reservations.v
Launch.v
Stop.v
Pause.v
Interrupt.v
Lifecycle.v
Create.v
Reconcile.v
TurnRecovery.v
Custody.v
Muting.v
Cleanup.v
Agents.v
System.v
Selection.v
Server.v
LifecycleRuntime.v
RecoveryRuntime.v
LifecycleServer.v
TurnRuntime.v
TurnServer.v
Startup.v
