(* ===== verification/Prelude.v ===== *)
(** * AgentsAssemble: a verification of its Rust core

    AgentsAssemble runs rooms in which people and AI agents talk. A room is a
    log of events in an SQLite store; an agent is a participant with a durable
    session, driven by a provider process that takes one turn at a time. This
    library models the part of the program that decides what may happen: the
    domain rules (src/crates/agentsassemble-domain), the transactions of the
    store (src/crates/agentsassemble-persistence) and the in-memory admission
    stores of the server (src/crates/agentsassemble-server).

    ** The parts and how they interact

    A person's command arrives with a principal and a request identifier. It is
    admitted once (Messages.v: [existing_command], [admit_non_lifecycle_command]
    of command_admission.rs) and charged to the principal and the room
    (Budget.v). A message is parsed (Command.v, Vote.v, Random.v, Mutation.v),
    stored, and routed (Scheduler.v: [route_message]) into the queues of the
    agents (Turn.v: [enqueue]); then turns are assigned
    ([assign_available_pending]), which begins a turn of a session, makes an
    execution row (Execution.v) and an observation of the room (Observation.v).
    The provider's start, requests (Requests.v) and interrupts (Execution.v) are
    fenced by that row. A turn ends with a message, a vote, a decline, a
    failure, an interrupt or the loss of its task (Completion.v), which ends the
    execution, clears the session's turn and assigns the floor again. What a
    viewer sees of the log is a projection (Projection.v).

    An agent is created, started, stopped, paused and added back by commands of an
    operator. A command that affects a provider runtime reserves its request
    (Reservations.v), marks its session with an intent (Launch.v, Stop.v,
    Create.v), authorizes the effect outside the store, and is answered or refused
    when the effect is known. What stays unknown is observed later, by the same
    server or the next one: the runtime of a session is gone, adopted or uncertain,
    and the request is answered, refused or prepared again (Reconcile.v), the turn
    that ran is ended or given out again (TurnRecovery.v), and the removal of the
    agent is finished, by the server or on the report of the attendee that runs it
    (Cleanup.v). Lifecycle.v is the machine they all implement, Agents.v their
    histories.

    ** The files

    - Prelude: strings as lists of code points, [tx] (a result with the store's
      errors), list, option and map lemmas, tactics and hint databases.
    - Text, Diagnostic, Json, Model, Command, Vote, Mutation, Projection, Settings, Random,
      ProviderRequest: the domain crate, one file per source file or group of
      them (text.rs, diagnostic.rs, canonical_json.rs, model.rs, command.rs,
      vote.rs, message_mutations.rs, projection.rs, room_settings.rs, room_turn.rs,
      provider_request.rs). Commands are parsed from JSON [value]s as serde_json
      gives them.
    - Store, Directory: a transaction against the tables of the room directory
      (room_directory.rs).
    - Ticket, Connections: the credential store (ticket.rs and its modules),
      connection leases and lifecycle guards (connection_admission.rs,
      lifecycle_command_tracker.rs). Each operation runs under a mutex, so a
      history is a sequence of operations.
    - Bytes, Budget: the sliding window of a principal
      (principal_mutation_admission.rs) and the clock minute of a room
      (room_write_budget.rs).
    - Turn: what the turn machinery does to one session, as pure functions and
      as the step relation [turn_step] (turn_queue.rs, turn_authority.rs).
    - RoomStore: the tables of a room ([RoomStore], a record of finite maps from
      primary keys), the monad [rtx] of transactions and the row operations
      (room_turn_support.rs, agent_session_rows.rs, participant_rows.rs).
    - Routing, Scheduler: mentions, queues, and who speaks next.
    - Authority, Requests: who may act; the requests of a provider to its
      agent's owner.
    - Observation, Attachments: what a turn is shown; attachments bound to
      messages.
    - VoteStore: the tables of polls and ballots (room_votes.rs).
    - Execution: the custody of a provider turn and its interrupt effect.
    - Completion, Messages: the transactions that end a turn, and the commands
      of people on messages.
    - Reservations, Launch, Stop, Pause: the lifecycle of agents
      (agent_lifecycle*.rs, agent_launch_events.rs, agent_start_failure.rs,
      agent_readd.rs, agent_stop_lifecycle.rs, room_runtime_cleanup.rs,
      agent_pause.rs). Interrupt: an operator interrupts an agent or mutes a
      participant (agent_interrupt.rs, participant_mute.rs).
      [lifecycle_command_reservations] is the table
      [st_reservations] of [LifecycleRow]s, [room_runtime_cleanup] the set
      [st_cleanups].
    - Lifecycle: the machine those transactions implement ([view_step] on a
      [LifecycleView]: a step rests on a command, on the absence of a runtime, or on
      an observation that lets a start be tried again) and the proof that each does.
    - Create, Reconcile, TurnRecovery, Cleanup: the creation of agents
      (agent_creation_records.rs, agent_sessions.rs, agent_create_start.rs), the
      reconciliation of runtimes (agent_reconciliation*.rs), the recovery of turns
      (provider_turn_reconciliation.rs) and the end of removals
      (attendee_cleanup.rs, attendee_stop.rs, room_runtime_cleanup.rs), each with
      the proof that it follows the machine. A candidate is compared with the store
      by its session and its token, as the code does.
    - Agents: the histories of all of them ([lifecycle_step], [absence_step],
      [history_step]).
    - Calm, System: what the floor's transactions leave alone, and their
      composition over any history.
    - Selection: what is selected for a new agent (agentsassemble-provider:
      selection*.rs, registration.rs, profile.rs, custom_api.rs, remote_https.rs).
    - Server: programs of the server, as trees of transactions and of calls to what
      is outside the store ([prog]); a server as any number of them, interleaved,
      lost and started again ([server_run]); and a calculus for one of them while the
      others run ([wp], over a [Protocol] they all keep).
    - LifecycleRuntime, RecoveryRuntime: the programs of lifecycle commands
      (room_agent_lifecycle_runtime.rs, agent_create_runtime.rs,
      room_command_execution.rs) and of the recovery of runtimes
      (runtime_reconciliation*.rs, room_runtime_cleanup.rs). LifecycleServer: that they
      keep the protocol of Agents.v.
    - Custody: the transactions of turns as histories of the operations of
      Execution.v, and what each reaches. Muting: the same of the commands of
      Interrupt.v, and what the room may rely on after them. TurnRuntime: the programs
      that run, commit, interrupt and reconcile turns (provider_turn.rs,
      provider_turn_interrupt_runtime.rs, provider_turn_reconciliation_runtime.rs, the
      two commands of room_command_dispatch.rs that interrupt). TurnServer: that they
      keep the protocol of Custody.v. Startup: that the pages of the reconciliation at
      startup end.

    ** State, errors, time, randomness

    A Rust struct is a record whose projections carry a prefix; an enum is an
    inductive type. A transaction is a function from the store to a result with
    the next store: an error discards what was written. Unix and chrono instants
    are integers of nanoseconds or seconds as in the code; machine integers
    carry their bounds ([saturating_add], [checked] operations, i64 conversions)
    where the code checks or saturates. UUIDs and sampling seeds are drawn from
    a supply ([Entropy]) in the order the code draws them, and a theorem that
    needs them to differ says so. Operations that read the clock several times
    read it once here.

    ** What the theorems show

    - System: over any history of the floor a message queued for an agent leaves
      the queue once, in order, and only with the answer of the agent or because it
      was deleted, and never comes back; a room that stays in ordered conversation
      never has two turns at once. Stored sessions stay well formed.
    - Agents: the lifecycle transactions refine their machine; an effect is
      authorized once, or again when its runtime was observed, a stop only once; a
      session serves one request at a time, a stop is answered only when the end of
      its runtime is known, a settled request has no effect, a resumed pause leaves
      no trace; and two failures of a launch that the code does not handle: one that
      leaves a turn neither running nor over, and one whose message is not recorded.
    - LifecycleServer: however those programs interleave, fail and are lost, the
      provider is asked to start a runtime once for an operation, and once more each
      time that operation was observed again; a success that is reported is stored.
    - TurnServer: however turns, interrupts, messages and reconciliations interleave,
      panic, fail and are lost, the input of a turn is sent to its provider at most
      once; the provider forgets a turn only when the store says that it ended, and
      is asked to interrupt one only when the store says so; a success that is
      reported is stored; a turn interrupted before its start is never sent.
    - Muting: a muted agent neither starts nor ends a turn, and the turn it had never
      ends in the ordinary way; a turn is interrupted once, for one cause.
    - Selection: what is selected is what the catalog offers; which addresses of a
      custom endpoint are accepted and can never be launched.
    - Scheduler: the ordered floor is given to the session whose message waits
      longest, and an assignment that commits does not leave it idle; in ambient
      rooms every agent that may begin a turn does.
    - Execution: the operations refine an automaton of (execution, interrupt)
      phases; starts and ends happen at most once, and so do the dispatches of an
      interrupt but for those of a recovery; an interrupted turn never publishes.
    - Messages, VoteStore: exact retries in an active room replay, reuse of an
      identifier is refused, deletion erases, attachments are sent once; tallies count
      ballots, a closed vote is final.
    - Requests, ProviderRequest: one request at a time, claimed once, final when
      closed; secrets are not stored, but for the keyed fingerprint of an answer; the
      loop that fails waiting requests ends.
    - Ticket, Connections, Budget: credentials are spent by presenting them,
      stay within their bounds and open sockets only for their session; leases
      are counted exactly; budgets hold over every window.
    - Projection, Json, Vote, Settings, Routing, Directory, Random, Text: secrecy
      of ballots and of owner-only events, injectivity of the hashed encoding,
      round trips, validation, and the behaviours listed as findings.

    ** Bounds and fuel

    Recursion is structural except for the interpreter that runs examples ([run_prog]
    of Server.v, whose fuel counts steps) the loop of
    [fail_provider_requests_before_admission], whose fuel bounds its batches:
    [fail_requests_terminates] shows that one more than the number of waiting
    requests is enough; and the loop of [reconcile_startup_pages], whose fuel counts
    its pages: [startup_pages_end] shows that one page of 64 more than the rows of
    custody it can meet fill is enough, and that more of them change nothing. Loops of the code that end with their input (parsers,
    queues, scans of rows) are structural on it.

    ** Parameters of the model

    Third-party behaviour is a type class argument: the Unicode general
    categories and case mappings, SHA-256 (of texts and of bytes) and HMAC,
    chrono's printing and range, the uuid crate, serde_json's text of values and its
    reading of stored JSON columns ([JsonText], [RequestSerde], [SessionSerde]), the
    persona library ([PersonaLibrary], [PersonaSummaries]), the matches of the regular
    expressions that redact diagnostics ([RegexCrate]), the reading of URLs and the
    networks that are global ([UrlCrate]), the file system ([Filesystem]), name-based
    UUIDs ([UuidNames]), and the revalidation of a companion's parent session
    ([AttendeeParent]). Laws a theorem relies on
    are hypotheses of it, and its witness instantiates the parameter with a
    concrete function.

    ** Not modelled

    How a provider answers: the calls of Server.v ([Outside]) return anything. The
    message search index; the columns [created_at] and [updated_at] of
    execution rows; HTTP, WebSocket and process handling; image and archive
    formats; migrations and file permissions; the desktop shell and the
    frontend. Of the store: human sessions, operator pairing, invites and
    connector admission; the handoff of a runtime restart; room preferences,
    deletion and profiles. The check of an agent's workspace and executable on the
    file system is an argument of its creation.
    System.v covers such operations by its step [FsOther], under the condition
    that they leave the queues and turn fields of sessions alone, and Agents.v
    by [LsOther], under the condition that they leave the intents and the
    reservations alone. A start of an idle session is an instance of [FsOther];
    one of a session whose turn runs is not, as [failed_start_strands_turn]
    shows. *)

From Stdlib Require Export ZArith NArith Lia ZifyBool ZifyNat ZifyN.
From Stdlib Require Import String Ascii.
From stdpp Require Import strings pretty.
From stdpp Require Export base tactics option gmap sets decidable numbers list.

#[global] Open Scope Z_scope.

(** ** Results: Rust's [Result<A, E>] *)

Inductive result (E A : Type) : Type :=
| Ok (a : A)
| Err (e : E).
Arguments Ok {E A} a.
Arguments Err {E A} e.

#[global] Instance result_ret E : MRet (result E) := fun A a => Ok a.
#[global] Instance result_bind E : MBind (result E) :=
  fun A B f m => match m with Ok a => f a | Err e => Err e end.
#[global] Instance result_fmap E : FMap (result E) :=
  fun A B f m => match m with Ok a => Ok (f a) | Err e => Err e end.
#[global] Instance result_eq_dec E A `{EqDecision E, EqDecision A} : EqDecision (result E A).
Proof. solve_decision. Defined.

(** [Option::ok_or] *)
Definition ok_or {E A} (o : option A) (e : E) : result E A :=
  match o with Some a => Ok a | None => Err e end.

(** A guard with an early return: [if !(b) { return Err(e); }] *)
Definition require {E} (b : bool) (e : E) : result E unit :=
  if b then Ok tt else Err e.

(** [if b { return Err(e); }] *)
Definition reject_if {E} (b : bool) (e : E) : result E unit :=
  if b then Err e else Ok tt.

Definition is_ok {E A} (r : result E A) : bool :=
  match r with Ok _ => true | Err _ => false end.

(** [Result::ok] *)
Definition result_ok {E A} (r : result E A) : option A :=
  match r with Ok a => Some a | Err _ => None end.

(** [Result::map_err] *)
Definition map_err {E F A} (f : E -> F) (r : result E A) : result F A :=
  match r with Ok a => Ok a | Err e => Err (f e) end.

(** Collecting an iterator of results, stopping at the first error. *)
Fixpoint traverse {E A B} (f : A -> result E B) (l : list A) : result E (list B) :=
  match l with
  | [] => Ok []
  | a :: l' => b ← f a; bs ← traverse f l'; mret (b :: bs)
  end.

Lemma bind_Ok {E A B} (m : result E A) (f : A -> result E B) b :
  (m ≫= f) = Ok b <-> exists a, m = Ok a /\ f a = Ok b.
Proof.
  destruct m as [a|e]; simpl; split.
  - intros H. by exists a.
  - intros (x & [= ->] & H). exact H.
  - discriminate.
  - intros (x & [=] & _).
Qed.

Lemma bind_Err {E A B} (m : result E A) (f : A -> result E B) e :
  (m ≫= f) = Err e <-> m = Err e \/ exists a, m = Ok a /\ f a = Err e.
Proof.
  destruct m as [a|e']; simpl; split.
  - intros H. right. by exists a.
  - intros [[=]|(x & [= ->] & H)]. exact H.
  - intros [= ->]. by left.
  - intros [[= ->]|(x & [=] & _)]. done.
Qed.

Lemma fmap_Ok {E A B} (f : A -> B) (m : result E A) b :
  (f <$> m) = Ok b <-> exists a, m = Ok a /\ f a = b.
Proof.
  destruct m as [a|e]; simpl; split.
  - intros [= <-]. by exists a.
  - intros (x & [= ->] & <-). done.
  - discriminate.
  - intros (x & [=] & _).
Qed.

Lemma ok_or_Ok {E A} (o : option A) (e : E) a : ok_or o e = Ok a <-> o = Some a.
Proof. destruct o; simpl; split; congruence. Qed.

Lemma ok_or_Err {E A} (o : option A) (e e' : E) : ok_or o e = Err e' <-> o = None /\ e = e'.
Proof. destruct o; simpl; split; intuition congruence. Qed.

Lemma require_Ok {E} b (e : E) u : require b e = Ok u <-> b = true.
Proof. destruct b, u; simpl; split; congruence. Qed.

Lemma require_Err {E} b (e e' : E) : require b e = Err e' <-> b = false /\ e = e'.
Proof. destruct b; simpl; split; intuition congruence. Qed.

Lemma reject_if_Ok {E} b (e : E) u : reject_if b e = Ok u <-> b = false.
Proof. destruct b, u; simpl; split; congruence. Qed.

Lemma reject_if_Err {E} b (e e' : E) : reject_if b e = Err e' <-> b = true /\ e = e'.
Proof. destruct b; simpl; split; intuition congruence. Qed.

Lemma traverse_Ok_Forall2 {E A B} (f : A -> result E B) l bs :
  traverse f l = Ok bs <-> Forall2 (fun a b => f a = Ok b) l bs.
Proof.
  revert bs. induction l as [|a l IH]; intros bs; simpl.
  - split; [intros [= <-]; constructor | intros H; by inversion H].
  - rewrite bind_Ok. split.
    + intros (b & Hb & (bs' & Hbs & Hret)%bind_Ok). injection Hret as <-.
      constructor; [done | by apply IH].
    + intros H. inversion H as [|? b ? bs' Hb Hbs]; subst.
      exists b; split; [done|]. apply bind_Ok. exists bs'. by rewrite IH.
Qed.

(** ** Automation

    [res_inv] decomposes every hypothesis that says a chain of result binds
    returned a given value, into the facts about its steps. *)

Ltac res_inv_step :=
  match goal with
  | H : (_ ≫= _) = Ok _ |- _ => apply bind_Ok in H; destruct H as (? & ? & H)
  | H : (_ <$> _) = Ok _ |- _ => apply fmap_Ok in H; destruct H as (? & H & ?)
  | H : Ok _ = Ok _ |- _ => injection H as H
  | H : mret _ = Ok _ |- _ => injection H as H
  | H : Err _ = Ok _ |- _ => discriminate H
  | H : Ok _ = Err _ |- _ => discriminate H
  | H : Err _ = Err _ |- _ => injection H as H
  | H : ok_or _ _ = Ok _ |- _ => apply ok_or_Ok in H
  | H : require _ _ = Ok _ |- _ => apply require_Ok in H
  | H : reject_if _ _ = Ok _ |- _ => apply reject_if_Ok in H
  | H : traverse _ _ = Ok _ |- _ => apply traverse_Ok_Forall2 in H
  end.
Ltac res_inv := repeat (res_inv_step; subst).

(** [bool_to_prop] turns the boolean guards of the code into propositions. *)
Lemma bool_decide_eq_false_not (P : Prop) `{Decision P} : bool_decide P = false <-> ~ P.
Proof. apply bool_decide_eq_false. Qed.

Ltac bool_to_prop :=
  repeat match goal with
  | H : (_ && _)%bool = true |- _ => apply andb_true_iff in H; destruct H
  | H : (_ || _)%bool = false |- _ => apply orb_false_iff in H; destruct H
  | H : negb _ = true |- _ => apply negb_true_iff in H
  | H : negb _ = false |- _ => apply negb_false_iff in H
  | H : bool_decide _ = true |- _ => apply bool_decide_eq_true in H
  | H : bool_decide _ = false |- _ => apply bool_decide_eq_false_not in H
  end.

(** ** Characters and strings

    A Rust [char] is a Unicode scalar value and a [String] the list of its
    characters; [u] embeds the ASCII literals of the code. *)

Abbreviation char := N (only parsing).
Abbreviation str := (list N) (only parsing).

Fixpoint u (s : string) : str :=
  match s with
  | EmptyString => []
  | String a s' => N_of_ascii a :: u s'
  end.
Arguments u : simpl never.

Definition str_eqb (a b : str) : bool := bool_decide (a = b).
(** [str::is_empty] *)
Definition str_empty (s : str) : bool := match s with [] => true | _ => false end.

(** [String::len]: the number of bytes of the UTF-8 encoding. *)
Definition char_len (c : char) : nat :=
  if (c <? 128)%N then 1%nat else if (c <? 2048)%N then 2%nat
  else if (c <? 65536)%N then 3%nat else 4%nat.
Definition byte_len (s : str) : nat := sum_list_with char_len s.

Lemma char_len_pos c : (1 <= char_len c <= 4)%nat.
Proof. unfold char_len. repeat case_match; lia. Qed.

Lemma byte_len_app a b : byte_len (a ++ b) = (byte_len a + byte_len b)%nat.
Proof. unfold byte_len. induction a; simpl; lia. Qed.

Lemma byte_len_ge_length s : (length s <= byte_len s)%nat.
Proof.
  unfold byte_len. induction s as [|c s IH]; simpl; [lia|].
  pose proof (char_len_pos c). lia.
Qed.

(** Decimal printing of the integers the code formats into messages. *)
Definition show_N (n : N) : str := u (pretty n).
Definition show_nat (n : nat) : str := show_N (N.of_nat n).
Definition show_Z (n : Z) : str :=
  if n <? 0 then 45%N :: show_N (Z.to_N (- n)) else show_N (Z.to_N n).

(** ** Generic list lemmas *)

Section lists.
Context {A : Type}.
Implicit Types (l : list A) (p : A -> bool).

(** [str::trim_start_matches] *)
Fixpoint trim_start p l : list A :=
  match l with
  | [] => []
  | a :: l' => if p a then trim_start p l' else l
  end.

(** [str::trim_end_matches] *)
Definition trim_end p l : list A := reverse (trim_start p (reverse l)).

(** [str::trim_matches] *)
Definition trim_matches p l : list A := trim_end p (trim_start p l).

Lemma trim_start_suffix p l : exists k, l = k ++ trim_start p l /\ Forall (fun a => p a = true) k.
Proof.
  induction l as [|a l (k & Hk & Hp)]; simpl; [by exists []|].
  destruct (p a) eqn:Ha; [|by exists []].
  exists (a :: k). split; [simpl; by f_equal | by constructor].
Qed.

Lemma trim_end_prefix p l : exists k, l = trim_end p l ++ k /\ Forall (fun a => p a = true) k.
Proof.
  destruct (trim_start_suffix p (reverse l)) as (k & Hk & Hp).
  exists (reverse k). unfold trim_end.
  rewrite <- reverse_app, <- Hk, reverse_involutive.
  split; [done|]. by apply Forall_reverse.
Qed.

Lemma trim_matches_infix p l : exists a b, l = a ++ trim_matches p l ++ b.
Proof.
  destruct (trim_start_suffix p l) as (a & Ha & _).
  destruct (trim_end_prefix p (trim_start p l)) as (b & Hb & _).
  exists a, b. unfold trim_matches. by rewrite <- Hb.
Qed.

Lemma trim_matches_length p l : (length (trim_matches p l) <= length l)%nat.
Proof.
  destruct (trim_matches_infix p l) as (a & b & H).
  rewrite H at 2. rewrite !length_app. lia.
Qed.

Lemma Forall_trim_matches (P : A -> Prop) p l : Forall P l -> Forall P (trim_matches p l).
Proof.
  destruct (trim_matches_infix p l) as (a & b & H). intros HP.
  rewrite H in HP. apply Forall_app in HP as [_ HP]. by apply Forall_app in HP as [HP _].
Qed.

(** The ends of a list: its first and its last element, when they exist,
    are not stripped by [p]. *)
Definition trimmed p l : Prop :=
  (forall a, head l = Some a -> p a = false) /\ (forall a, last l = Some a -> p a = false).

Lemma trim_start_head p l a : head (trim_start p l) = Some a -> p a = false.
Proof.
  induction l as [|b l IH]; simpl; [done|]. destruct (p b) eqn:Hb; [done|].
  simpl. by intros [= <-].
Qed.

Lemma trim_end_last p l a : last (trim_end p l) = Some a -> p a = false.
Proof.
  unfold trim_end. rewrite last_reverse. apply trim_start_head.
Qed.

Lemma trim_matches_trimmed p l : trimmed p (trim_matches p l).
Proof.
  split; intros a Ha.
  - unfold trim_matches in Ha.
    destruct (trim_end_prefix p (trim_start p l)) as (k & Hk & _).
    apply (trim_start_head p l). rewrite Hk.
    destruct (trim_end p (trim_start p l)); [done|]. exact Ha.
  - by apply (trim_end_last p (trim_start p l)).
Qed.

Lemma trim_start_id p l : (forall a, head l = Some a -> p a = false) -> trim_start p l = l.
Proof. destruct l as [|a l]; simpl; [done|]. intros H. by rewrite (H a). Qed.

Lemma trim_end_id p l : (forall a, last l = Some a -> p a = false) -> trim_end p l = l.
Proof.
  intros H. unfold trim_end. rewrite trim_start_id; [apply reverse_involutive|].
  intros a. rewrite head_reverse. apply H.
Qed.

Lemma trim_matches_id p l : trimmed p l -> trim_matches p l = l.
Proof.
  intros [Hh Hl]. unfold trim_matches. rewrite trim_start_id by done. by apply trim_end_id.
Qed.

Lemma trim_matches_id_iff p l : trim_matches p l = l <-> trimmed p l.
Proof.
  split; [|apply trim_matches_id]. intros H. rewrite <- H. apply trim_matches_trimmed.
Qed.

Lemma head_take (n : nat) l : (0 < n)%nat -> head (take n l) = head l.
Proof. destruct n, l; simpl; done || lia. Qed.
End lists.

Lemma Forall_mp {A} (P Q : A -> Prop) l : Forall (fun a => P a -> Q a) l -> Forall P l -> Forall Q l.
Proof. induction 1; intros HP; inversion HP; subst; constructor; auto. Qed.

Lemma map_inj_In {A B} (f : A -> B) :
  (forall a b, f a = f b -> a = b) -> forall l l', map f l = map f l' -> l = l'.
Proof.
  intros Hf l. induction l as [|a l IH]; intros [|b l'] H; try discriminate H; [done|].
  simpl in H. injection H as Hab Hl. f_equal; auto.
Qed.

(** [Iterator::any] and [Iterator::all] *)
Definition any {A} (p : A -> bool) (l : list A) : bool := existsb p l.
Definition all {A} (p : A -> bool) (l : list A) : bool := forallb p l.

Lemma any_false_Forall {A} (p : A -> bool) l : any p l = false <-> Forall (fun a => p a = false) l.
Proof.
  unfold any. induction l as [|a l IH]; simpl; [by split|].
  rewrite orb_false_iff, IH, Forall_cons. done.
Qed.

Lemma all_true_Forall {A} (p : A -> bool) l : all p l = true <-> Forall (fun a => p a = true) l.
Proof.
  unfold all. induction l as [|a l IH]; simpl; [by split|].
  rewrite andb_true_iff, IH, Forall_cons. done.
Qed.

Lemma any_true_Exists {A} (p : A -> bool) l : any p l = true <-> Exists (fun a => p a = true) l.
Proof.
  unfold any. induction l as [|a l IH]; simpl.
  - split; [done | by intros H%Exists_nil].
  - rewrite orb_true_iff, IH, Exists_cons. done.
Qed.

(** [list::contains] *)
Definition contains {A} `{EqDecision A} (l : list A) (a : A) : bool := bool_decide (a ∈ l).

Lemma str_eqb_true a b : str_eqb a b = true <-> a = b.
Proof. apply bool_decide_eq_true. Qed.
Lemma contains_true {A} `{EqDecision A} (l : list A) a : contains l a = true <-> a ∈ l.
Proof. apply bool_decide_eq_true. Qed.
Lemma contains_false {A} `{EqDecision A} (l : list A) a : contains l a = false <-> a ∉ l.
Proof. apply bool_decide_eq_false. Qed.
Lemma any_true {A} (p : A -> bool) l : any p l = true <-> exists a, a ∈ l /\ p a = true.
Proof. by rewrite any_true_Exists, Exists_exists. Qed.
Lemma all_true {A} (p : A -> bool) l : all p l = true <-> forall a, a ∈ l -> p a = true.
Proof. by rewrite all_true_Forall, Forall_forall. Qed.

(** ** The lemmas that automate the common cases *)

Create HintDb aa discriminated.
#[export] Hint Resolve trim_matches_trimmed trim_matches_length Forall_trim_matches : aa.
#[export] Hint Resolve byte_len_ge_length : aa.

(** ** Record update

    [r <| f := v |>] is [r] with the field [f] set to [v]: Rust's assignment to
    a field of a [mut] binding. A record opts in with the eta expansion of its
    constructor; the setter of a field is found from it. *)

Class EtaRecord (R : Type) : Type := eta_record : R -> R.
Class FieldSetter {R T : Type} (proj : R -> T) : Type := set_field : (T -> T) -> R -> R.
#[global] Arguments set_field {R T} proj {FieldSetter} / _ _.

Ltac derive_setter :=
  lazymatch goal with
  | |- @FieldSetter ?R ?T ?proj =>
      let e := eval hnf in (@eta_record R _) in
      let e := eval pattern proj in e in
      lazymatch e with
      | ?build _ =>
          let body := constr:(fun (f : T -> T) => build (fun r => f (proj r))) in
          let body := eval cbv beta in body in
          exact body
      end
  end.
#[global] Hint Extern 0 (FieldSetter _) => derive_setter : typeclass_instances.

Notation "r <| f := v |>" := (set_field f (fun _ => v) r)
  (at level 1, left associativity, format "r  <| f  :=  v |>").

(** ** Maps keyed by literals

    [lit_ne] tells two literal keys apart; [map_lit] evaluates a lookup of a
    literal key through insertions and deletions of literal keys. *)

(** Decides a closed proposition by evaluation. *)
Ltac decide_now := apply (bool_decide_unpack _); vm_compute; exact I.
Ltac lit_ne := decide_now.

Ltac map_lit :=
  repeat first
    [ rewrite lookup_insert_eq | rewrite lookup_insert_ne by lit_ne
    | rewrite lookup_delete_eq | rewrite lookup_delete_ne by lit_ne
    | rewrite lookup_empty
    | rewrite lookup_singleton_eq | rewrite lookup_singleton_ne by lit_ne ].

(** Filters that keep everything, or nothing. *)

Lemma filter_all {A} (P : A -> Prop) `{forall a, Decision (P a)} l : Forall P l -> filter P l = l.
Proof. induction 1 as [|a l Ha _ IH]; [done|]. rewrite filter_cons_True by done. by rewrite IH. Qed.
Lemma filter_none {A} (P : A -> Prop) `{forall a, Decision (P a)} l : Forall (fun a => ~ P a) l -> filter P l = [].
Proof. induction 1 as [|a l Ha _ IH]; [done|]. by rewrite filter_cons_False. Qed.
Lemma filter_same_on {A} (P Q : A -> Prop) `{!forall a, Decision (P a)} `{!forall a, Decision (Q a)} (l : list A) :
  (forall a, a ∈ l -> (P a <-> Q a)) -> filter P l = filter Q l.
Proof.
  induction l as [|a l IH]; intros Hpq; [done|]. rewrite !filter_cons, IH by (intros b Hb; apply Hpq, elem_of_cons; by right).
  destruct (Hpq a) as [Hp Hq]; [apply elem_of_cons; by left|]. repeat case_decide; tauto || done.
Qed.
