(* ===== verification/Text.v ===== *)
(** * Text normalisation (agentsassemble-domain/src/text.rs)

    The functions every text field of a command passes through before it is
    stored: single-line labels, identifiers, messages, and the visibility test
    that decides whether a text is empty. *)

From Stdlib Require Import String.
From S2P Require Import Prelude.

(** ** Rust's character predicates *)

(** [char::is_whitespace]: the Unicode property White_Space. *)
Definition is_whitespace (c : char) : bool :=
  ((9 <=? c) && (c <=? 13) || (c =? 32) || (c =? 133) || (c =? 160) || (c =? 5760)
   || (8192 <=? c) && (c <=? 8202) || (c =? 8232) || (c =? 8233) || (c =? 8239)
   || (c =? 8287) || (c =? 12288))%N%bool.

(** [char::is_control]: the general category Cc. *)
Definition is_control (c : char) : bool :=
  ((c <=? 31) || (127 <=? c) && (c <=? 159))%N%bool.

Definition is_ascii_digit (c : char) : bool := ((48 <=? c) && (c <=? 57))%N%bool.
Definition is_ascii_lower (c : char) : bool := ((97 <=? c) && (c <=? 122))%N%bool.
Definition is_ascii_upper (c : char) : bool := ((65 <=? c) && (c <=? 90))%N%bool.
Definition is_ascii_alphanumeric (c : char) : bool :=
  is_ascii_digit c || is_ascii_lower c || is_ascii_upper c.
(** A lower-case hexadecimal digit, as [matches!(b, b'0'..=b'9' | b'a'..=b'f')]. *)
Definition is_lower_hex (c : char) : bool :=
  is_ascii_digit c || ((97 <=? c) && (c <=? 102))%N%bool.

(** [str::to_ascii_lowercase] *)
Definition ascii_lower (c : char) : char := if is_ascii_upper c then (c + 32)%N else c.
Definition to_ascii_lowercase (s : str) : str := map ascii_lower s.

(** [str::trim] *)
Definition trim (s : str) : str := trim_matches is_whitespace s.

(** [str::starts_with] with a string pattern *)
Definition starts_with (s p : str) : bool := bool_decide (p `prefix_of` s).
(** [str::strip_prefix] *)
Definition strip_prefix (s p : str) : option str :=
  if bool_decide (take (length p) s = p) then Some (drop (length p) s) else None.

(** [str::split_whitespace], collected *)
Fixpoint split_words (acc : str) (s : str) : list str :=
  match s with
  | [] => match acc with [] => [] | _ => [reverse acc] end
  | c :: s' =>
      if is_whitespace c
      then match acc with [] => split_words [] s' | _ => reverse acc :: split_words [] s' end
      else split_words (c :: acc) s'
  end.
Definition split_whitespace (s : str) : list str := split_words [] s.

(** [slice::join] *)
Fixpoint join (sep : str) (l : list str) : str :=
  match l with
  | [] => []
  | [w] => w
  | w :: l' => w ++ sep ++ join sep l'
  end.

(** [str::parse] of the unsigned and signed integers: an optional sign, at least
    one ASCII digit and nothing else, within the bounds of the type. *)
Definition digit_value (c : char) : N := (c - 48)%N.
Definition digits_value (s : str) : N :=
  fold_left (fun acc c => (10 * acc + digit_value c)%N) s 0%N.
Definition parse_digits (s : str) : option N :=
  match s with
  | [] => None
  | _ => if all is_ascii_digit s then Some (digits_value s) else None
  end.
Definition parse_unsigned (max : N) (s : str) : option N :=
  let digits := match s with c :: s' => if (c =? 43)%N then s' else s | [] => s end in
  match parse_digits digits with
  | Some n => if (n <=? max)%N then Some n else None
  | None => None
  end.
Definition parse_signed (min max : Z) (s : str) : option Z :=
  let parsed :=
    match s with
    | c :: s' =>
        if (c =? 45)%N then (n ← parse_digits s'; Some (- Z.of_N n))
        else if (c =? 43)%N then (n ← parse_digits s'; Some (Z.of_N n))
        else (n ← parse_digits s; Some (Z.of_N n))
    | [] => None
    end in
  match parsed with
  | Some z => if (min <=? z) && (z <=? max) then Some z else None
  | None => None
  end.

(** ** The operations of text.rs *)

Definition MAX_MESSAGE_CHARACTERS : nat := Z.to_nat 12000.
Definition MAX_TEXT_CHAT_CHARACTERS : nat := Z.to_nat 2000.

Definition NUL : char := 0%N.
Definition TAB : char := 9%N.
Definition LF : char := 10%N.
Definition CR : char := 13%N.
Definition SPACE : char := 32%N.

(** [value.replace(p, " ")] for a character pattern *)
Definition replace_chars (p : char -> bool) (s : str) : str :=
  map (fun c => if p c then SPACE else c) s.

Definition clean_single_line (value : str) (limit : nat) : str :=
  take limit (join [SPACE]
    (split_whitespace (replace_chars (fun c => contains [CR; LF; TAB] c) value))).

Definition is_python_whitespace (c : char) : bool :=
  is_whitespace c || ((28 <=? c) && (c <=? 31))%N%bool.

Definition clean_trimmed_crlf_text (value : str) (limit : nat) : str :=
  trim_matches is_python_whitespace
    (take limit (trim_matches is_python_whitespace
      (replace_chars (fun c => contains [CR; LF] c) value))).

Definition clean_identifier (value : str) (limit : nat) : str :=
  clean_trimmed_crlf_text value limit.

(** [value.replace("\r\n", "\n")] *)
Fixpoint replace_crlf (s : str) : str :=
  match s with
  | [] => []
  | c :: s' =>
      match s' with
      | d :: s'' =>
          if ((c =? CR) && (d =? LF))%N%bool then LF :: replace_crlf s'' else c :: replace_crlf s'
      | [] => [c]
      end
  end.

Definition clean_message (value : str) (limit : nat) : str :=
  take limit (trim
    (map (fun c => if (c =? CR)%N then LF else c)
      (replace_crlf (filter (fun c => c ≠ NUL) value)))).

(** The crate unicode-general-category is not part of the repository; the code
    tells apart two of its categories. *)
Inductive GeneralCategory : Type := Control | Format | OtherCategory.

Class UnicodeGeneralCategory : Type := get_general_category : char -> GeneralCategory.

Definition has_visible_text `{UnicodeGeneralCategory} (value : str) : bool :=
  any (fun c => negb (is_whitespace c) &&
    match get_general_category c with
    | Control | Format => false
    | OtherCategory => true
    end) value.

(** The table of the ASCII range, the category every such table agrees on:
    concrete inputs are evaluated with it. *)
Definition ascii_general_category : UnicodeGeneralCategory :=
  fun c => if is_control c then Control else OtherCategory.

(** ** The shape of cleaned text *)

Lemma is_python_whitespace_of_whitespace c : is_whitespace c = true -> is_python_whitespace c = true.
Proof. unfold is_python_whitespace. by intros ->. Qed.

Lemma replace_chars_length p s : length (replace_chars p s) = length s.
Proof. apply length_map. Qed.

Lemma replace_chars_none p s :
  p SPACE = false -> Forall (fun c => p c = false) (replace_chars p s).
Proof.
  intros Hs. unfold replace_chars. induction s as [|c s IH]; simpl; constructor; [|done].
  by destruct (p c) eqn:Hc.
Qed.

Lemma replace_chars_id p s : Forall (fun c => p c = false) s -> replace_chars p s = s.
Proof.
  unfold replace_chars. induction 1 as [|c s Hc _ IH]; simpl; [done|]. by rewrite Hc, IH.
Qed.

Lemma trim_matches_take_length {A} (p : A -> bool) n (l : list A) :
  (length (trim_matches p (take n l)) <= n)%nat.
Proof. pose proof (trim_matches_length p (take n l)). rewrite length_take in *. lia. Qed.

Lemma clean_identifier_length s limit : (length (clean_identifier s limit) <= limit)%nat.
Proof. apply trim_matches_take_length. Qed.

Lemma clean_identifier_no_line_break s limit :
  Forall (fun c => contains [CR; LF] c = false) (clean_identifier s limit).
Proof.
  unfold clean_identifier, clean_trimmed_crlf_text.
  apply Forall_trim_matches, Forall_take, Forall_trim_matches, replace_chars_none. done.
Qed.

Lemma clean_identifier_trimmed s limit :
  trimmed is_python_whitespace (clean_identifier s limit).
Proof. apply trim_matches_trimmed. Qed.

(** The values [clean_identifier] leaves unchanged are exactly those within the
    limit, trimmed, and free of line breaks: the canonical identifiers. *)
Lemma clean_identifier_fixpoint s limit :
  clean_identifier s limit = s <->
  (length s <= limit)%nat /\ trimmed is_python_whitespace s /\
  Forall (fun c => contains [CR; LF] c = false) s.
Proof.
  split.
  - intros H. rewrite <- H. split_and!.
    + apply clean_identifier_length.
    + apply clean_identifier_trimmed.
    + apply clean_identifier_no_line_break.
  - intros (Hl & Ht & Hf). unfold clean_identifier, clean_trimmed_crlf_text.
    rewrite replace_chars_id by done. rewrite (trim_matches_id _ s) by done.
    rewrite take_ge by done. by apply trim_matches_id.
Qed.

(** ** Messages *)

Lemma replace_crlf_cons2 c d s :
  replace_crlf (c :: d :: s) =
  if ((c =? CR)%N && (d =? LF)%N)%bool then LF :: replace_crlf s else c :: replace_crlf (d :: s).
Proof. done. Qed.

Lemma replace_crlf_length s : (length (replace_crlf s) <= length s)%nat.
Proof.
  assert (forall n s, (length s <= n)%nat -> (length (replace_crlf s) <= length s)%nat) as H.
  { clear s. induction n as [|n IH]; intros s Hs; destruct s as [|c [|d s]]; simpl in *; try lia.
    case_match; simpl.
    - pose proof (IH s ltac:(lia)). lia.
    - pose proof (IH (d :: s) ltac:(simpl; lia)). simpl in *. lia. }
  by apply (H (length s)).
Qed.

Lemma replace_crlf_Forall (P : char -> Prop) s : P LF -> Forall P s -> Forall P (replace_crlf s).
Proof.
  intros HLF.
  assert (forall n s, (length s <= n)%nat -> Forall P s -> Forall P (replace_crlf s)) as H.
  { clear s. induction n as [|n IH]; intros s Hs Hf; destruct s as [|c [|d s]]; simpl in *;
      try lia; auto.
    inversion Hf as [|? ? Hc Hf']; subst. inversion Hf' as [|? ? Hd Hf'']; subst.
    case_match; constructor; auto; [apply IH|apply (IH (d :: s))]; simpl; auto; lia. }
  apply (H (length s)). lia.
Qed.

Lemma replace_crlf_id s : Forall (fun c => c ≠ CR) s -> replace_crlf s = s.
Proof.
  induction 1 as [|c s Hc Hs IH]; [done|]. destruct s as [|d s]; [done|].
  rewrite replace_crlf_cons2, (proj2 (N.eqb_neq c CR)), andb_false_l by done.
  by rewrite IH.
Qed.

Definition no_cr_nul (c : char) : Prop := c ≠ CR /\ c ≠ NUL.

Lemma clean_message_length s limit : (length (clean_message s limit) <= limit)%nat.
Proof. unfold clean_message. rewrite length_take. lia. Qed.

Lemma clean_message_no_cr_nul s limit : Forall no_cr_nul (clean_message s limit).
Proof.
  unfold clean_message. apply Forall_take. unfold trim. apply Forall_trim_matches.
  apply Forall_fmap. 
  assert (Forall (fun c => c ≠ NUL) (replace_crlf (filter (fun c => c ≠ NUL) s))) as H.
  { apply replace_crlf_Forall; [done|]. apply Forall_forall. intros c.
    intros Hc. by apply list_elem_of_filter in Hc as []. }
  eapply Forall_impl; [exact H|]. intros c Hc. unfold no_cr_nul; simpl.
  destruct (c =? CR)%N eqn:E; [done|]. by apply N.eqb_neq in E.
Qed.

Lemma clean_message_head s limit c : head (clean_message s limit) = Some c -> is_whitespace c = false.
Proof.
  unfold clean_message, trim. destruct limit; [done|]. rewrite head_take by lia.
  apply trim_matches_trimmed.
Qed.

(** A text without NUL and carriage returns that is trimmed and within the
    limit is left unchanged. *)
Lemma clean_message_id s limit :
  Forall no_cr_nul s -> trimmed is_whitespace s -> (length s <= limit)%nat ->
  clean_message s limit = s.
Proof.
  intros Hf Ht Hl. unfold clean_message.
  assert (filter (fun c => c ≠ NUL) s = s) as ->.
  { clear Ht Hl. induction Hf as [|c s [_ Hc] _ IH]; [done|].
    rewrite filter_cons_True by done. by rewrite IH. }
  rewrite replace_crlf_id by (eapply Forall_impl; [exact Hf|]; by intros c []).
  assert (map (fun c => if (c =? CR)%N then LF else c) s = s) as ->.
  { clear Ht Hl. induction Hf as [|c s [Hc _] _ IH]; [done|]. simpl.
    by rewrite IH, (proj2 (N.eqb_neq c CR)). }
  unfold trim. rewrite trim_matches_id by done. by apply take_ge.
Qed.

Lemma clean_message_fixpoint s limit :
  clean_message s limit = s <->
  Forall no_cr_nul s /\ trimmed is_whitespace s /\ (length s <= limit)%nat.
Proof.
  split.
  - intros H. split_and!.
    + rewrite <- H. apply clean_message_no_cr_nul.
    + apply trim_matches_id_iff. unfold clean_message in H.
      set (t := trim _) in H.
      assert (length t <= limit \/ length t > limit)%nat as [Hl|Hl] by lia.
      * rewrite take_ge in H by done. rewrite <- H. apply trim_matches_id, trim_matches_trimmed.
      * exfalso. assert (length s <= limit)%nat as Hs by (rewrite <- H, length_take; lia).
        assert (length t <= length s)%nat; [|lia]. subst t. unfold trim.
        etransitivity; [apply trim_matches_length|]. rewrite length_map.
        etransitivity; [apply replace_crlf_length|]. apply length_filter.
    + rewrite <- H. apply clean_message_length.
  - intros (? & ? & ?). by apply clean_message_id.
Qed.

(** ** Theorems *)

(** Canonical identifiers are stable: cleaning twice is cleaning once. *)
Theorem clean_identifier_idempotent s limit :
  clean_identifier (clean_identifier s limit) limit = clean_identifier s limit.
Proof.
  apply clean_identifier_fixpoint. split_and!.
  - apply clean_identifier_length.
  - apply clean_identifier_trimmed.
  - apply clean_identifier_no_line_break.
Qed.

(** The message cleaner trims before it truncates, so it is stable exactly when
    the truncated text does not end in white space. *)

(** the message cleaner trims before it truncates, so cleaning twice is cleaning once
    exactly when the truncated text does not end in white space. *)
Theorem clean_message_idempotent_iff s limit :
  clean_message (clean_message s limit) limit = clean_message s limit <->
  forall c, last (clean_message s limit) = Some c -> is_whitespace c = false.
Proof.
  rewrite clean_message_fixpoint. split; [by intros (_ & [_ H] & _)|].
  intros H. split_and!.
  - apply clean_message_no_cr_nul.
  - split; [apply clean_message_head | done].
  - apply clean_message_length.
Qed.

(** ** Single lines: words separated by single spaces *)

Definition is_word (w : str) : Prop := w ≠ [] /\ Forall (fun c => is_whitespace c = false) w.

Lemma split_words_words acc s :
  Forall (fun c => is_whitespace c = false) acc -> Forall is_word (split_words acc s).
Proof.
  revert acc. induction s as [|c s IH]; intros acc Hacc; simpl.
  - destruct acc as [|a acc]; [constructor|]. apply Forall_singleton. split.
    + rewrite reverse_cons. by destruct (reverse acc).
    + by apply Forall_reverse.
  - destruct (is_whitespace c) eqn:Hc; [|by apply IH; constructor].
    destruct acc as [|a acc]; [by apply IH|]. constructor; [|by apply IH]. split.
    + rewrite reverse_cons. by destruct (reverse acc).
    + by apply Forall_reverse.
Qed.

Lemma split_words_run acc w s :
  Forall (fun c => is_whitespace c = false) w ->
  split_words acc (w ++ s) = split_words (reverse w ++ acc) s.
Proof.
  intros Hw. revert acc. induction Hw as [|c w Hc Hw IH]; intros acc; [done|].
  simpl. by rewrite Hc, IH, reverse_cons, <- app_assoc.
Qed.

Lemma split_join ws : Forall is_word ws -> split_whitespace (join [SPACE] ws) = ws.
Proof.
  unfold split_whitespace. induction 1 as [|w ws [Hne Hw] Hws IH]; [done|].
  assert (split_words (reverse w ++ []) [] = [w]) as Hend.
  { rewrite app_nil_r. simpl. destruct (reverse w) eqn:E; [|by rewrite <- E, reverse_involutive].
    apply (f_equal reverse) in E. rewrite reverse_involutive in E. by subst. }
  destruct ws as [|w' ws].
  - simpl. by rewrite <- (app_nil_r w) at 1; rewrite split_words_run.
  - change (join [SPACE] (w :: w' :: ws)) with (w ++ [SPACE] ++ join [SPACE] (w' :: ws)).
    rewrite split_words_run by done. rewrite app_nil_r.
    change ([SPACE] ++ join [SPACE] (w' :: ws)) with (SPACE :: join [SPACE] (w' :: ws)).
    cbn [split_words]. change (is_whitespace SPACE) with true. cbv iota. rewrite IH.
    destruct (reverse w) eqn:E; [|by rewrite <- E, reverse_involutive].
    apply (f_equal reverse) in E. rewrite reverse_involutive in E. by subst.
Qed.

Lemma join_length_cons sep w ws :
  length (join sep (w :: ws)) =
  (length w + match ws with [] => 0 | _ => length sep + length (join sep ws) end)%nat.
Proof. destruct ws; simpl; [lia|]. by rewrite !length_app. Qed.

Lemma split_words_length acc s :
  (length (join [SPACE] (split_words acc s)) <= length acc + length s)%nat.
Proof.
  revert acc. induction s as [|c s IH]; intros acc; simpl.
  - destruct acc; simpl; [lia|]. rewrite length_reverse. simpl. lia.
  - destruct (is_whitespace c).
    + destruct acc as [|a acc]; [specialize (IH []); simpl in IH; lia|].
      rewrite join_length_cons, length_reverse. specialize (IH []). simpl in *.
      destruct (split_words [] s); simpl in *; lia.
    + specialize (IH (c :: acc)). simpl in IH. lia.
Qed.

Lemma join_no_break ws :
  Forall is_word ws -> Forall (fun c => contains [CR; LF; TAB] c = false) (join [SPACE] ws).
Proof.
  assert (forall w, is_word w -> Forall (fun c => contains [CR; LF; TAB] c = false) w) as Hw.
  { intros w [_ Hw]. eapply Forall_impl; [exact Hw|]. intros c Hc. unfold contains.
    apply bool_decide_eq_false. intros Hin. repeat (apply elem_of_cons in Hin as [->|Hin]; [done|]).
    by apply not_elem_of_nil in Hin. }
  induction 1 as [|w ws Hword Hws IH]; [constructor|].
  destruct ws as [|w' ws]; [by apply Hw|].
  change (join [SPACE] (w :: w' :: ws)) with (w ++ SPACE :: join [SPACE] (w' :: ws)).
  apply Forall_app. split; [by apply Hw | by constructor].
Qed.

Lemma clean_single_line_join ws limit :
  Forall is_word ws -> (length (join [SPACE] ws) <= limit)%nat ->
  clean_single_line (join [SPACE] ws) limit = join [SPACE] ws.
Proof.
  intros Hws Hl. unfold clean_single_line. rewrite replace_chars_id by (by apply join_no_break).
  rewrite split_join by done. by apply take_ge.
Qed.

Lemma clean_single_line_length s limit : (length (clean_single_line s limit) <= limit)%nat.
Proof. unfold clean_single_line. rewrite length_take. lia. Qed.

(** The texts the cleaner leaves unchanged are the single lines within the limit. *)
Lemma clean_single_line_fixpoint s limit :
  clean_single_line s limit = s <->
  (length s <= limit)%nat /\ exists ws, Forall is_word ws /\ s = join [SPACE] ws.
Proof.
  split.
  - intros H. split; [rewrite <- H; apply clean_single_line_length|].
    unfold clean_single_line in H. set (ws := split_whitespace _) in H.
    assert (Forall is_word ws) as Hws by (apply split_words_words; constructor).
    exists ws. split; [done|]. rewrite take_ge in H; [done|].
    assert (length (join [SPACE] ws) <= length s)%nat as Hl.
    { unfold ws, split_whitespace. etransitivity; [apply split_words_length|].
      rewrite replace_chars_length. simpl. lia. }
    assert (length s <= limit)%nat as Hs by (rewrite <- H, length_take; lia). lia.
  - intros (Hl & ws & Hws & ->). by apply clean_single_line_join.
Qed.

(** Cleaning a text within the limit gives a stable text. *)
Lemma clean_single_line_stable s limit :
  (length s <= limit)%nat ->
  clean_single_line (clean_single_line s limit) limit = clean_single_line s limit.
Proof.
  intros Hs. apply clean_single_line_fixpoint. split; [apply clean_single_line_length|].
  unfold clean_single_line. set (ws := split_whitespace _).
  assert (Forall is_word ws) as Hws by (apply split_words_words; constructor).
  exists ws. split; [done|]. apply take_ge. unfold ws, split_whitespace.
  etransitivity; [apply split_words_length|]. rewrite replace_chars_length. simpl. lia.
Qed.

(** Single-line cleaning truncates last too; a second pass always settles it. *)
Theorem clean_single_line_twice s limit :
  let once := clean_single_line s limit in
  let twice := clean_single_line once limit in
  clean_single_line twice limit = twice /\ (length once <= limit)%nat /\
  ((length s <= limit)%nat -> twice = once).
Proof.
  intros once twice. split_and!.
  - apply clean_single_line_stable, clean_single_line_length.
  - apply clean_single_line_length.
  - apply clean_single_line_stable.
Qed.
