(* ===== verification/Diagnostic.v ===== *)
(** * Redaction of diagnostics (agentsassemble-domain/src/diagnostic.rs)

    Text of a provider that is about to become durable loses its credentials and
    local paths and is cut to its tail. The matches of a regular expression are
    those of the regex crate, a parameter; what is done with them is the code's. *)

From Stdlib Require Import String.
From S2P Require Import Prelude Text.

(** The expressions of the file, by the name of the function that compiles them. *)
Inductive DiagnosticRegex : Type :=
| SensitiveHttpHeader | PemPrivateKey | JwtValue | BearerValue | SensitiveAssignment | SensitiveOption
| BasicAuthOption | UrlUserinfo | SecretPrefix | WindowsPath | HomePath | UnixPath.

(** A match: where it starts and ends, in characters, and its named groups. *)
Record Captures : Type := MkCaptures {
  cp_start : nat;
  cp_end : nat;
  cp_name : string -> option str
}.

(** [captures_iter], the successive matches of an expression, and the bounds of
    the match [find_at] finds at or after an offset. *)
Class RegexCrate : Type := {
  captures_iter : DiagnosticRegex -> str -> list Captures;
  find_at : DiagnosticRegex -> str -> nat -> option (nat * nat)
}.

Definition group (c : Captures) (name : string) : str := default [] (cp_name c name).

(** [Regex::replace_all] with a function of the match: the text between matches is kept. *)
Fixpoint splice (text : str) (cursor : nat) (replacement : Captures -> str) (matches : list Captures) : str :=
  match matches with
  | [] => drop cursor text
  | c :: matches =>
      take (cp_start c - cursor) (drop cursor text) ++ replacement c ++ splice text (cp_end c) replacement matches
  end.

(** [str::match_indices]: the offsets of a pattern, which does not overlap itself. *)
Fixpoint match_indices (offset : nat) (text pattern : str) : list nat :=
  match text with
  | [] => []
  | _ :: rest =>
      (if starts_with text pattern then [offset] else []) ++ match_indices (S offset) rest pattern
  end.

Section diagnostic.
Context `{RegexCrate}.

Definition replace_all (matcher : DiagnosticRegex) (replacement : Captures -> str) (text : str) : str :=
  splice text 0 replacement (captures_iter matcher text).

Definition replace_preserving (text : str) (matcher : DiagnosticRegex) (replacement : string) : str :=
  replace_all matcher (fun captures => group captures "prefix" ++ u replacement ++ group captures "suffix") text.

Definition is_jwt_boundary (value : option char) : bool :=
  match value with
  | None => true
  | Some character => negb (is_ascii_alphanumeric character || (character =? 95)%N || (character =? 45)%N)
  end.

Fixpoint redact_jwt_loop (text : str) (candidates : list nat) (cursor : nat) (redacted : str) : str :=
  match candidates with
  | [] => redacted ++ drop cursor text
  | candidate_start :: candidates =>
      if (candidate_start <? cursor)%nat
         || negb (is_jwt_boundary (last (take candidate_start text)))
      then redact_jwt_loop text candidates cursor redacted
      else
        match find_at JwtValue text candidate_start with
        | Some (start, stop) =>
            if (start =? candidate_start)%nat && is_jwt_boundary (head (drop stop text))
            then redact_jwt_loop text candidates stop
                   (redacted ++ take (candidate_start - cursor) (drop cursor text) ++ u "[redacted JWT]")
            else redact_jwt_loop text candidates cursor redacted
        | None => redact_jwt_loop text candidates cursor redacted
        end
  end.
Definition redact_jwt_values (text : str) : str := redact_jwt_loop text (match_indices 0 text (u "eyJ")) 0 [].

Definition tail_chars (text : str) (limit : nat) : str :=
  let count := length text in
  if (count <=? limit)%nat then text else drop (count - limit) text.

(** The passes between the two cuts. *)
Definition redact_credentials (text : str) : str :=
  let text := replace_all BearerValue (fun _ => u "Bearer [redacted]") text in
  let text := replace_preserving text SensitiveAssignment "[redacted]" in
  let text := replace_all SensitiveOption (fun _ => u "[redacted]") text in
  let text := replace_preserving text BasicAuthOption "-u [redacted]" in
  let text := replace_all UrlUserinfo (fun c => group c "scheme" ++ u "[redacted]@") text in
  let text := replace_all SecretPrefix (fun _ => u "[redacted]") text in
  let text := replace_preserving text WindowsPath "[local path]" in
  let text := replace_preserving text HomePath "[local path]" in
  replace_preserving text UnixPath "[local path]".

Definition redact_persisted_diagnostic_text (value : str) (limit : nat) : str :=
  let bounded_limit := Nat.max limit 1 in
  let text := trim (filter (fun c => c <> NUL) value) in
  match text with
  | [] => text
  | _ =>
      let text := replace_all PemPrivateKey (fun _ => u "[redacted private key]") text in
      let text := replace_all SensitiveHttpHeader (fun c => group c "prefix" ++ group c "name" ++ u ": [redacted]") text in
      let text := redact_jwt_values text in
      let text := tail_chars text (Nat.max (bounded_limit * 2) (Z.to_nat 32000)) in
      let text := redact_credentials text in
      trim (tail_chars text bounded_limit)
  end.

Lemma tail_chars_length text limit : (length (tail_chars text limit) <= limit)%nat.
Proof. unfold tail_chars. case_match; bool_to_prop; [lia|]. rewrite length_drop. lia. Qed.

Lemma redact_length value limit :
  (length (redact_persisted_diagnostic_text value limit) <= Nat.max limit 1)%nat.
Proof.
  unfold redact_persisted_diagnostic_text. case_match eqn:E; [simpl; lia|]. unfold trim.
  etrans; [apply trim_matches_length|apply tail_chars_length].
Qed.

Lemma redact_trimmed value limit : trimmed is_whitespace (redact_persisted_diagnostic_text value limit).
Proof.
  unfold redact_persisted_diagnostic_text. case_match eqn:E; [|apply trim_matches_trimmed].
  rewrite <- E. apply trim_matches_trimmed.
Qed.
End diagnostic.

(** Text in which nothing matches is only cut. *)
Definition no_matches : RegexCrate := {| captures_iter := fun _ _ => []; find_at := fun _ _ _ => None |}.

(** The matches of [unix_path]: a slash at the start or after one of the
    characters listed, up to the next character that ends a path. *)
Definition path_prefix (c : char) : bool := is_whitespace c || contains (u "'`=(" ++ [34%N]) c.
Definition path_char (c : char) : bool := negb (is_whitespace c || contains (u "'`|;&<>" ++ [34%N]) c).
Fixpoint span_length (p : char -> bool) (s : str) : nat :=
  match s with c :: s => if p c then S (span_length p s) else 0%nat | [] => 0%nat end.
Definition path_at (offset : nat) (s : str) : option (nat * str) :=
  match s with
  | 47%N :: rest =>
      let n := match rest with 47%N :: _ => 0%nat | _ => span_length path_char rest end in
      Some ((offset + 1 + n)%nat, rest)
  | _ => None
  end.
Definition path_match (start stop : nat) (prefix : str) : Captures :=
  MkCaptures start stop (fun name => if bool_decide (name = "prefix"%string) then Some prefix else None).
Fixpoint unix_paths (fuel : nat) (offset : nat) (s : str) : list Captures :=
  match fuel, s with
  | S fuel, c :: rest =>
      match (if (offset =? 0)%nat then path_at offset s else None) with
      | Some (stop, _) => path_match offset stop [] :: unix_paths fuel stop (drop (stop - offset) s)
      | None =>
          match (if path_prefix c then path_at (S offset) rest else None) with
          | Some (stop, _) => path_match offset stop [c] :: unix_paths fuel stop (drop (stop - offset) s)
          | None => unix_paths fuel (S offset) rest
          end
      end
  | _, _ => []
  end.
Definition only_unix_paths : RegexCrate :=
  {| captures_iter := fun r text => match r with UnixPath => unix_paths (S (length text)) 0 text | _ => [] end;
     find_at := fun _ _ _ => None |}.
