(* ===== verification/Json.v ===== *)
(** * JSON values and their canonical encoding
    (serde_json's [Value] as the code uses it, agentsassemble-domain/src/canonical_json.rs)

    Every command payload is a [value]; the canonical encoding is what the
    stored request hash of a command is computed from. *)

From Stdlib Require Import String Ascii.
From stdpp Require Import pretty strings sorting.
From S2P Require Import Prelude Text.

#[local] Set Warnings "-register-all".

(** ** Values *)

(** [serde_json::Number]: a non-negative integer, a negative integer, or a
    float, of which the code only ever uses the text it prints as. *)
Inductive number : Type :=
| PosInt (n : N)
| NegInt (n : Z)
| Float (repr : str).

Inductive value : Type :=
| VNull
| VBool (b : bool)
| VNumber (n : number)
| VString (s : str)
| VArray (l : list value)
| VObject (m : list (str * value)).

Abbreviation object := (list (str * value)) (only parsing).

Section value_ind.
Variable P : value -> Prop.
Hypothesis HNull : P VNull.
Hypothesis HBool : forall b, P (VBool b).
Hypothesis HNumber : forall n, P (VNumber n).
Hypothesis HString : forall s, P (VString s).
Hypothesis HArray : forall l, Forall P l -> P (VArray l).
Hypothesis HObject : forall m, Forall (fun e => P e.2) m -> P (VObject m).

(** Induction on values through the arrays and objects they contain. *)
Fixpoint value_nested_ind (v : value) : P v :=
  match v with
  | VNull => HNull
  | VBool b => HBool b
  | VNumber n => HNumber n
  | VString s => HString s
  | VArray l => HArray l ((fix go l : Forall P l :=
      match l with
      | [] => Forall_nil_2 P
      | v :: l' => Forall_cons_2 P v l' (value_nested_ind v) (go l')
      end) l)
  | VObject m => HObject m ((fix go m : Forall (fun e => P e.2) m :=
      match m with
      | [] => Forall_nil_2 _
      | e :: m' => Forall_cons_2 (fun e => P e.2) e m' (value_nested_ind e.2) (go m')
      end) m)
  end.
End value_ind.

#[global] Instance number_eq_dec : EqDecision number.
Proof. solve_decision. Defined.

#[global] Instance value_eq_dec : EqDecision value.
Proof.
  refine (fix go v w : Decision (v = w) :=
    let _ : EqDecision value := go in
    match v, w with
    | VNull, VNull => left _
    | VBool b, VBool c => cast_if (decide (b = c))
    | VNumber b, VNumber c => cast_if (decide (b = c))
    | VString b, VString c => cast_if (decide (b = c))
    | VArray b, VArray c => cast_if (decide (b = c))
    | VObject b, VObject c => cast_if (decide (b = c))
    | _, _ => right _
    end); abstract congruence.
Defined.

(** ** Accessors *)

Definition as_object (v : value) : option object :=
  match v with VObject m => Some m | _ => None end.
Definition as_array (v : value) : option (list value) :=
  match v with VArray l => Some l | _ => None end.
Definition as_str (v : value) : option str :=
  match v with VString s => Some s | _ => None end.
Definition as_bool (v : value) : option bool :=
  match v with VBool b => Some b | _ => None end.

Definition u64_max : N := 18446744073709551615.
Definition i64_max : Z := 9223372036854775807.
Definition i64_min : Z := -9223372036854775808.

(** [Number::as_u64] and [Number::as_i64] *)
Definition num_as_u64 (n : number) : option N :=
  match n with PosInt n => Some n | _ => None end.
Definition num_as_i64 (n : number) : option Z :=
  match n with
  | PosInt n => if Z.of_N n <=? i64_max then Some (Z.of_N n) else None
  | NegInt z => Some z
  | Float _ => None
  end.
Definition as_u64 (v : value) : option N :=
  match v with VNumber n => num_as_u64 n | _ => None end.
Definition as_i64 (v : value) : option Z :=
  match v with VNumber n => num_as_i64 n | _ => None end.

(** [Map::get], [contains_key], [keys], [len] *)
Fixpoint get (m : object) (k : str) : option value :=
  match m with
  | [] => None
  | (k', v) :: m' => if decide (k = k') then Some v else get m' k
  end.
Definition keys (m : object) : list str := map fst m.
Definition contains_key (m : object) (k : str) : bool := contains (keys m) k.
(** [Map::insert]: a present key keeps its place and takes the new value. *)
Fixpoint obj_insert (m : object) (k : str) (v : value) : object :=
  match m with
  | [] => [(k, v)]
  | (k', v') :: m' => if decide (k = k') then (k, v) :: m' else (k', v') :: obj_insert m' k v
  end.
Definition obj_remove (m : object) (k : str) : object := filter (fun e => e.1 ≠ k) m.

(** The [json!] forms the code writes. *)
Definition VInt (z : Z) : value := VNumber (if z <? 0 then NegInt z else PosInt (Z.to_N z)).
Definition VStrings (l : list str) : value := VArray (map VString l).

Lemma get_Some_in_keys m k v : get m k = Some v -> k ∈ keys m.
Proof.
  unfold keys. induction m as [|[k' v'] m IH]; simpl; [done|]. case_decide; subst.
  - intros _. by left.
  - intros Hg. right. auto.
Qed.

Lemma get_None_iff m k : get m k = None <-> k ∉ keys m.
Proof.
  unfold keys. induction m as [|[k' v'] m IH]; simpl.
  - split; [intros _ Hin; inversion Hin | done].
  - rewrite not_elem_of_cons. case_decide as Hk; subst; [split; [done | by intros []]|].
    rewrite IH. tauto.
Qed.

Lemma get_obj_insert m k k' v :
  get (obj_insert m k v) k' = if decide (k' = k) then Some v else get m k'.
Proof.
  induction m as [|[k0 v0] m IH]; simpl; [repeat case_decide; congruence|].
  repeat (case_decide; simpl; subst; try congruence).
Qed.

Lemma get_In m k v : get m k = Some v -> (k, v) ∈ m.
Proof.
  induction m as [|[k' v'] m IH]; simpl; [done|]. case_decide; subst.
  - intros [= ->]. left.
  - intros Hg. right. auto.
Qed.

(** Evaluates the lookup of a literal key in a literal object. *)
Ltac eval_get :=
  repeat match goal with
  | |- context [get ?o ?k] =>
      let r := eval lazy -[VStrings VInt] in (get o k) in
      progress change (get o k) with r
  end.

(** ** Well-formed values: what serde_json can hold *)

(** The characters a printed number is made of. *)
Definition is_number_char (c : char) : bool :=
  is_ascii_digit c || contains [43; 45; 46; 101]%N c.
(** The characters only a float's text has: [.] and [e]. *)
Definition is_float_mark (c : char) : bool := contains [46; 101]%N c.

Definition number_wf (n : number) : Prop :=
  match n with
  | PosInt n => (n <= u64_max)%N
  | NegInt z => i64_min <= z < 0
  | Float r => Forall (fun c => is_number_char c = true) r /\
      Exists (fun c => is_float_mark c = true) r
  end.

Inductive value_wf : value -> Prop :=
| wf_null : value_wf VNull
| wf_bool b : value_wf (VBool b)
| wf_number n : number_wf n -> value_wf (VNumber n)
| wf_string s : value_wf (VString s)
| wf_array l : Forall value_wf l -> value_wf (VArray l)
| wf_object m : NoDup (keys m) -> Forall (fun e => value_wf e.2) m -> value_wf (VObject m).

(** Proves that a literal value is well formed, but for the bounds of its numbers. *)
Ltac json_wf :=
  repeat match goal with
  | |- value_wf (VNumber _) => apply wf_number
  | |- value_wf (VObject _) => apply wf_object; [decide_now |]
  | |- value_wf (VArray _) => apply wf_array
  | |- value_wf ?v => let w := eval hnf in v in progress change (value_wf w)
  | |- value_wf _ => constructor
  | |- Forall _ [] => constructor
  | |- Forall _ (_ :: _) => constructor
  end.

(** ** canonical_json.rs *)

Definition DQUOTE : char := 34%N.
Definition BACKSLASH : char := 92%N.
Definition hex_digit (n : N) : char := if (n <? 10)%N then (48 + n)%N else (87 + n)%N.

(** The escape of one character in [encode_string]. *)
Definition escape_char (c : char) : str :=
  if decide (c = DQUOTE) then [BACKSLASH; DQUOTE]
  else if decide (c = BACKSLASH) then [BACKSLASH; BACKSLASH]
  else if decide (c = 8)%N then [BACKSLASH; 98]%N
  else if decide (c = 12)%N then [BACKSLASH; 102]%N
  else if decide (c = LF) then [BACKSLASH; 110]%N
  else if decide (c = CR) then [BACKSLASH; 114]%N
  else if decide (c = TAB) then [BACKSLASH; 116]%N
  else if (c <=? 31)%N
    then [BACKSLASH; 117; 48; 48; hex_digit (c / 16); hex_digit (c mod 16)]%N
  else [c].

Definition encode_string (s : str) : str :=
  DQUOTE :: (s ≫= escape_char) ++ [DQUOTE].
Arguments encode_string : simpl never.

Definition number_to_string (n : number) : str :=
  match n with
  | PosInt n => show_N n
  | NegInt z => show_Z z
  | Float r => r
  end.

(** Rust orders strings by their UTF-8 bytes, which is the order of their
    characters. *)
Fixpoint str_leb (a b : str) : bool :=
  match a, b with
  | [], _ => true
  | _ :: _, [] => false
  | x :: a', y :: b' => if (x =? y)%N then str_leb a' b' else (x <? y)%N
  end.
Definition key_le {A} (a b : str * A) : Prop := str_leb a.1 b.1 = true.
#[global] Instance key_le_dec {A} : RelDecision (@key_le A).
Proof. intros a b. apply (decide (str_leb a.1 b.1 = true)). Defined.

(** [entries.sort_unstable_by_key(|(key, _)| *key)] *)
Definition sort_by_key {A} (l : list (str * A)) : list (str * A) := merge_sort key_le l.

Definition COMMA : str := [44%N].
Definition COLON : str := [58%N].

Definition encode_entry (e : str * str) : str := encode_string e.1 ++ COLON ++ e.2.

Fixpoint encode (v : value) : str :=
  match v with
  | VNull => u "null"
  | VBool b => if b then u "true" else u "false"
  | VNumber n => number_to_string n
  | VString s => encode_string s
  | VArray l => [91%N] ++ join COMMA (map encode l) ++ [93%N]
  | VObject m =>
      [123%N] ++ join COMMA (map encode_entry
        (sort_by_key (map (fun e => (e.1, encode e.2)) m))) ++ [125%N]
  end.

(** Two values are the same JSON value when they agree after sorting the keys
    of every object. *)
Fixpoint normalize (v : value) : value :=
  match v with
  | VArray l => VArray (map normalize l)
  | VObject m => VObject (sort_by_key (map (fun e => (e.1, normalize e.2)) m))
  | _ => v
  end.

(** The encoding of a value whose objects are already in key order. *)
Fixpoint plain (v : value) : str :=
  match v with
  | VNull => u "null"
  | VBool b => if b then u "true" else u "false"
  | VNumber n => number_to_string n
  | VString s => encode_string s
  | VArray l => [91%N] ++ join COMMA (map plain l) ++ [93%N]
  | VObject m =>
      [123%N] ++ join COMMA (map encode_entry (map (fun e => (e.1, plain e.2)) m)) ++ [125%N]
  end.

(** ** Sorting by key *)

Lemma str_leb_refl a : str_leb a a = true.
Proof. induction a as [|x a IH]; simpl; [done|]. by rewrite N.eqb_refl. Qed.

Lemma str_leb_total a b : str_leb a b = true \/ str_leb b a = true.
Proof.
  revert b. induction a as [|x a IH]; intros [|y b]; simpl; auto.
  rewrite (N.eqb_sym y x). destruct (x =? y)%N eqn:E; [apply IH|].
  apply N.eqb_neq in E. rewrite !N.ltb_lt. lia.
Qed.

Lemma str_leb_trans a b c : str_leb a b = true -> str_leb b c = true -> str_leb a c = true.
Proof.
  revert b c. induction a as [|x a IH]; intros [|y b] [|z c]; simpl; try done.
  destruct (N.eqb_spec x y), (N.eqb_spec y z), (N.eqb_spec x z);
    rewrite ?N.ltb_lt; subst; try lia; eauto.
Qed.

Lemma str_leb_antisym a b : str_leb a b = true -> str_leb b a = true -> a = b.
Proof.
  revert b. induction a as [|x a IH]; intros [|y b]; simpl; try done.
  destruct (N.eqb_spec x y), (N.eqb_spec y x); rewrite ?N.ltb_lt; subst; try lia; try done.
  intros. f_equal. auto.
Qed.

#[global] Instance key_le_trans {A} : Transitive (@key_le A).
Proof. intros [k v] [k' v'] [k'' v'']. apply str_leb_trans. Qed.
#[global] Instance key_le_total {A} : Total (@key_le A).
Proof. intros [k v] [k' v']. apply str_leb_total. Qed.

Lemma list_merge_map {A B} (f : A -> B) (l1 l2 : list (str * A)) :
  list_merge key_le (map (fun e => (e.1, f e.2)) l1) (map (fun e => (e.1, f e.2)) l2) =
  map (fun e => (e.1, f e.2)) (list_merge key_le l1 l2).
Proof.
  revert l2. induction l1 as [|[k1 v1] l1 IH1]; intros l2.
  { by destruct l2. }
  induction l2 as [|[k2 v2] l2 IH2]; [done|].
  cbn [map list_merge fst snd].
  destruct (decide (key_le (k1, f v1) (k2, f v2))) as [Hk|Hk],
    (decide (key_le (k1, v1) (k2, v2))) as [Hk'|Hk'].
  - cbn [map fst snd]. by rewrite <- IH1.
  - by destruct Hk'.
  - by destruct Hk.
  - cbn [map fst snd]. f_equal. exact IH2.
Qed.

Definition stack_map {A B} (f : A -> B) (st : list (option (list (str * A)))) :
    list (option (list (str * B))) :=
  map (option_map (map (fun e => (e.1, f e.2)))) st.

Lemma merge_list_to_stack_map {A B} (f : A -> B) st l :
  merge_list_to_stack key_le (stack_map f st) (map (fun e => (e.1, f e.2)) l) =
  stack_map f (merge_list_to_stack key_le st l).
Proof.
  revert l. induction st as [|[l'|] st IH]; intros l; simpl; try done.
  by rewrite list_merge_map, IH.
Qed.

Lemma merge_stack_map {A B} (f : A -> B) st :
  merge_stack key_le (stack_map f st) = map (fun e => (e.1, f e.2)) (merge_stack key_le st).
Proof.
  induction st as [|[l'|] st IH]; simpl; try done. by rewrite IH, list_merge_map.
Qed.

Lemma sort_by_key_map {A B} (f : A -> B) (m : list (str * A)) :
  sort_by_key (map (fun e => (e.1, f e.2)) m) = map (fun e => (e.1, f e.2)) (sort_by_key m).
Proof.
  unfold sort_by_key, merge_sort.
  change (@nil (option (list (str * B)))) with (stack_map f []).
  generalize (@nil (option (list (str * A)))) as st.
  induction m as [|[k v] m IH]; intros st; simpl; [apply merge_stack_map|].
  rewrite <- IH. f_equal. by rewrite <- merge_list_to_stack_map.
Qed.

Lemma sort_by_key_perm {A} (m : list (str * A)) : sort_by_key m ≡ₚ m.
Proof. apply merge_sort_Permutation. Qed.

Lemma sort_by_key_unique {A} (m m' : list (str * A)) :
  NoDup (map fst m) -> m ≡ₚ m' -> sort_by_key m = sort_by_key m'.
Proof.
  intros Hnd Hp. apply (StronglySorted_unique_strong key_le).
  - intros [k v] [k' v'] H1 H2 Hle Hle'.
    rewrite sort_by_key_perm in H1. rewrite sort_by_key_perm, <- Hp in H2.
    assert (k = k') as -> by (by apply str_leb_antisym).
    f_equal. clear Hp Hle Hle'. induction m as [|[k0 v0] m IH]; [by apply not_elem_of_nil in H1|].
    simpl in Hnd. apply NoDup_cons in Hnd as [Hni Hnd].
    assert (forall w, (k0, w) ∉ m) as Hno.
    { intros w Hw. apply Hni. apply list_elem_of_fmap. by exists (k0, w). }
    apply elem_of_cons in H1 as [H1|H1]; apply elem_of_cons in H2 as [H2|H2]; simplify_eq;
      solve [done | by destruct (Hno v) | by destruct (Hno v') | by apply IH].
  - apply StronglySorted_merge_sort; apply _.
  - apply StronglySorted_merge_sort; apply _.
  - by rewrite !sort_by_key_perm.
Qed.

Lemma encode_plain v : encode v = plain (normalize v).
Proof.
  induction v as [| | | |l IH|m IH] using value_nested_ind; try done.
  - simpl. do 2 f_equal. rewrite map_map. f_equal. by apply map_ext_Forall.
  - simpl. rewrite <- sort_by_key_map, map_map. simpl.
    do 3 f_equal. f_equal. f_equal. apply map_ext_Forall.
    eapply Forall_impl; [exact IH|]. intros [k v] Hv; simpl in *. by rewrite Hv.
Qed.

(** ** The canonical encoding is unambiguous *)

(** What can follow a value inside an array or an object, or the end. *)
Definition delimited (r : str) : Prop :=
  match r with [] => True | c :: _ => c ∈ [44; 93; 125]%N end.

(** [f] can be read back on the values [P] admits: its end is determined by
    the delimiter that follows. *)
Definition unambiguous {A} (P : A -> Prop) (f : A -> str) (a : A) : Prop :=
  forall b r1 r2, P b -> delimited r1 -> delimited r2 -> f a ++ r1 = f b ++ r2 -> a = b /\ r1 = r2.

Lemma app_span_unique {A} (p : A -> bool) (a b r1 r2 : list A) :
  Forall (fun c => p c = true) a -> Forall (fun c => p c = true) b ->
  (forall c, head r1 = Some c -> p c = false) -> (forall c, head r2 = Some c -> p c = false) ->
  a ++ r1 = b ++ r2 -> a = b /\ r1 = r2.
Proof.
  intros Ha Hb H1 H2. revert b Hb. induction Ha as [|x a Hx Ha IH]; intros [|y b] Hb Heq; simpl in *.
  - done.
  - inversion Hb; subst. specialize (H1 y eq_refl). congruence.
  - subst. specialize (H2 x eq_refl). congruence.
  - injection Heq as -> Heq. inversion Hb; subst. by destruct (IH b) as [-> ->].
Qed.

Definition unescape_char (s : str) : option (char * str) :=
  match s with
  | c :: s' =>
      if negb (c =? BACKSLASH)%N then Some (c, s') else
      match s' with
      | d :: s'' =>
          if (d =? DQUOTE)%N then Some (DQUOTE, s'')
          else if (d =? BACKSLASH)%N then Some (BACKSLASH, s'')
          else if (d =? 98)%N then Some (8%N, s'')
          else if (d =? 102)%N then Some (12%N, s'')
          else if (d =? 110)%N then Some (LF, s'')
          else if (d =? 114)%N then Some (CR, s'')
          else if (d =? 116)%N then Some (TAB, s'')
          else match s'' with
               | _ :: _ :: h :: l :: r =>
                   let digit x := if (x <? 58)%N then (x - 48)%N else (x - 87)%N in
                   Some ((16 * digit h + digit l)%N, r)
               | _ => None
               end
      | [] => None
      end
  | [] => None
  end.

Lemma unescape_escape c r : unescape_char (escape_char c ++ r) = Some (c, r).
Proof.
  assert (c <= 31 \/ 31 < c)%N as [Hc|Hc] by lia.
  - destruct c as [|p]; [done|]. do 5 (destruct p as [p|p|]; try done); lia.
  - unfold escape_char.
    repeat (case_decide; [subst; done|]). rewrite (proj2 (N.leb_gt c 31)) by done.
    simpl. by rewrite (proj2 (N.eqb_neq c BACKSLASH)).
Qed.

Lemma escape_char_head c : exists d r, escape_char c = d :: r /\ d ≠ DQUOTE.
Proof. unfold escape_char. repeat case_decide; repeat case_match; eauto. Qed.

Lemma escape_chars_unique s t r1 r2 :
  (s ≫= escape_char) ++ DQUOTE :: r1 = (t ≫= escape_char) ++ DQUOTE :: r2 -> s = t /\ r1 = r2.
Proof.
  revert t. induction s as [|c s IH]; intros [|d t]; csimpl; intros H.
  - by injection H.
  - destruct (escape_char_head d) as (x & r & Hd & Hx). rewrite Hd in H. simpl in H.
    injection H as H _. congruence.
  - destruct (escape_char_head c) as (x & r & Hd & Hx). rewrite Hd in H. simpl in H.
    injection H as H _. congruence.
  - rewrite <- !app_assoc in H. apply (f_equal unescape_char) in H.
    rewrite !unescape_escape in H. injection H as -> H.
    by destruct (IH t H) as [-> ->].
Qed.

Lemma encode_string_unique s t r1 r2 :
  encode_string s ++ r1 = encode_string t ++ r2 -> s = t /\ r1 = r2.
Proof.
  unfold encode_string. simpl. intros [= H]. rewrite <- !app_assoc in H.
  by apply escape_chars_unique.
Qed.

(** Integers print as digits, floats carry a mark no integer has. *)
Lemma show_N_digits n : Forall (fun c => is_ascii_digit c = true) (show_N n).
Proof.
  unfold show_N. assert (forall s, Forall (fun c => is_ascii_digit c = true) (u s) ->
    Forall (fun c => is_ascii_digit c = true) (u (pretty_N_go n s))) as Hgo.
  { induction n as [n IH] using (well_founded_induction N.lt_wf_0); intros s Hs.
    destruct (decide (n = 0)%N) as [->|Hn]; [by rewrite pretty_N_go_0|].
    rewrite pretty_N_go_step by lia. apply IH.
    { apply N.div_lt; lia. }
    unfold u; fold u. constructor; [|done].
    unfold pretty_N_char. assert (n `mod` 10 < 10)%N as Hm by (by apply N.mod_lt).
    destruct (n `mod` 10)%N as [|p]; [done|].
    do 4 (destruct p as [p|p|]; try done); lia. }
  unfold pretty, pretty_N. case_decide; [by repeat constructor|]. apply Hgo. constructor.
Qed.

Lemma u_inj a b : u a = u b -> a = b.
Proof.
  revert b. induction a as [|x a IH]; intros [|y b]; unfold u; fold u; try done.
  intros [= Hxy Hab]. f_equal; [|by apply IH].
  by rewrite <- (ascii_N_embedding x), Hxy, ascii_N_embedding.
Qed.

Lemma show_N_inj m n : show_N m = show_N n -> m = n.
Proof. unfold show_N. intros H%u_inj. by apply (inj pretty). Qed.

Lemma pretty_N_go_nonempty n : forall s, s ≠ EmptyString -> pretty_N_go n s ≠ EmptyString.
Proof.
  induction n as [n IH] using (well_founded_induction N.lt_wf_0); intros s Hs.
  destruct (decide (n = 0)%N) as [->|Hn]; [by rewrite pretty_N_go_0|].
  rewrite pretty_N_go_step by lia. apply IH; [apply N.div_lt; lia | done].
Qed.

Lemma show_N_nonempty n : show_N n ≠ [].
Proof.
  unfold show_N. intros H. change [] with (u EmptyString) in H. apply u_inj in H.
  unfold pretty, pretty_N in H. case_decide as Hn; [done|].
  rewrite pretty_N_go_step in H by lia. by apply pretty_N_go_nonempty in H.
Qed.

Definition MINUS : char := 45%N.

Lemma show_Z_neg z : z < 0 -> show_Z z = MINUS :: show_N (Z.to_N (- z)).
Proof. intros H. unfold show_Z. by rewrite (proj2 (Z.ltb_lt z 0)). Qed.

Lemma is_ascii_digit_number_char c : is_ascii_digit c = true -> is_number_char c = true.
Proof. unfold is_number_char. by intros ->. Qed.

Lemma is_ascii_digit_no_mark c : is_ascii_digit c = true -> is_float_mark c = false.
Proof.
  unfold is_ascii_digit, is_float_mark, contains. intros H. apply bool_decide_eq_false.
  rewrite !elem_of_cons, elem_of_nil. by intros [->|[->|[]]].
Qed.

(** The text of an integer: an optional minus sign and digits. *)
Lemma number_text n : number_wf n ->
  Forall (fun c => is_number_char c = true) (number_to_string n) /\ number_to_string n ≠ [].
Proof.
  destruct n as [n|z|r]; simpl; intros Hwf.
  - split; [|apply show_N_nonempty]. eapply Forall_impl; [apply show_N_digits|].
    apply is_ascii_digit_number_char.
  - rewrite show_Z_neg by lia. split; [|done]. constructor; [done|].
    eapply Forall_impl; [apply show_N_digits|]. apply is_ascii_digit_number_char.
  - destruct Hwf as [Hf He]. split; [done|]. intros ->. by inversion He.
Qed.

Lemma digits_no_mark l :
  Forall (fun c => is_ascii_digit c = true) l -> ~ Exists (fun c => is_float_mark c = true) l.
Proof.
  intros Hl He. apply Exists_exists in He as (c & Hc & Hm).
  rewrite Forall_forall in Hl. apply Hl, is_ascii_digit_no_mark in Hc. congruence.
Qed.

Lemma integer_no_mark n :
  (forall r, n ≠ Float r) -> number_wf n ->
  ~ Exists (fun c => is_float_mark c = true) (number_to_string n).
Proof.
  destruct n as [n|z|r]; simpl; intros Hn Hwf; [| |by destruct (Hn r)].
  - apply digits_no_mark, show_N_digits.
  - rewrite show_Z_neg by lia. intros He. apply Exists_cons in He as [He|He]; [done|].
    by apply digits_no_mark in He; [|apply show_N_digits].
Qed.

Lemma number_to_string_inj m n :
  number_wf m -> number_wf n -> number_to_string m = number_to_string n -> m = n.
Proof.
  intros Hm Hn H.
  assert (forall z k, z < 0 -> show_Z z ≠ show_N k) as Hsign.
  { intros z k Hz Heq. rewrite show_Z_neg in Heq by done.
    pose proof (show_N_digits k) as Hd. rewrite <- Heq in Hd. by inversion Hd. }
  destruct m as [m|y|r], n as [n|z|r']; simpl in H.
  - by apply show_N_inj in H as ->.
  - destruct Hn. by destruct (Hsign z m).
  - exfalso. apply (integer_no_mark (PosInt m)); [done..|]. simpl. rewrite H. apply Hn.
  - destruct Hm. by destruct (Hsign y n).
  - simpl in *. rewrite !show_Z_neg in H by lia. injection H as H. apply show_N_inj in H.
    f_equal. lia.
  - exfalso. apply (integer_no_mark (NegInt y)); [done..|]. simpl. rewrite H. apply Hn.
  - exfalso. apply (integer_no_mark (PosInt n)); [done..|]. simpl. rewrite <- H. apply Hm.
  - exfalso. apply (integer_no_mark (NegInt z)); [done..|]. simpl. rewrite <- H. apply Hm.
  - by subst.
Qed.

Lemma delimited_not_number r c : delimited r -> head r = Some c -> is_number_char c = false.
Proof.
  destruct r as [|d r]; simpl; [done|]. intros Hd [= ->].
  rewrite !elem_of_cons, elem_of_nil in Hd. by destruct Hd as [->|[->|[->|[]]]].
Qed.

Lemma number_unambiguous n : number_wf n -> unambiguous number_wf number_to_string n.
Proof.
  intros Hn m r1 r2 Hm H1 H2 H.
  apply (app_span_unique is_number_char) in H as [H ->].
  - split; [|done]. by apply number_to_string_inj.
  - by apply number_text.
  - by apply number_text.
  - intros c. by apply delimited_not_number.
  - intros c. by apply delimited_not_number.
Qed.

(** Which kind of value an encoding starts is visible in its first character. *)
Inductive kind : Type := KNull | KTrue | KFalse | KNumber | KString | KArray | KObject.

Definition kind_of (v : value) : kind :=
  match v with
  | VNull => KNull
  | VBool b => if b then KTrue else KFalse
  | VNumber _ => KNumber
  | VString _ => KString
  | VArray _ => KArray
  | VObject _ => KObject
  end.

Definition kind_of_head (c : char) : option kind :=
  if (c =? 110)%N then Some KNull else if (c =? 116)%N then Some KTrue
  else if (c =? 102)%N then Some KFalse else if (c =? 34)%N then Some KString
  else if (c =? 91)%N then Some KArray else if (c =? 123)%N then Some KObject
  else if is_number_char c then Some KNumber else None.

Lemma plain_head v : value_wf v -> exists c r, plain v = c :: r /\ kind_of_head c = Some (kind_of v).
Proof.
  destruct v as [|[]|n|s|l|m]; intros Hwf; try (by eexists _, _).
  inversion Hwf as [| |? Hn| | |]; subst. destruct (number_text n Hn) as [Hf Hne].
  simpl. destruct (number_to_string n) as [|c r]; [done|]. exists c, r. split; [done|].
  inversion Hf as [|? ? Hc _]; subst. unfold kind_of_head. rewrite Hc.
  unfold is_number_char, is_ascii_digit, contains in Hc.
  apply orb_true_iff in Hc as [Hc|Hc].
  - repeat (case_match; [lia|]). done.
  - apply bool_decide_eq_true in Hc. rewrite !elem_of_cons, elem_of_nil in Hc.
    by destruct Hc as [->|[->|[->|[->|[]]]]].
Qed.

Lemma plain_kind v w r1 r2 :
  value_wf v -> value_wf w -> plain v ++ r1 = plain w ++ r2 -> kind_of v = kind_of w.
Proof.
  intros Hv Hw H. destruct (plain_head v Hv) as (c & r & Ev & Hc).
  destruct (plain_head w Hw) as (d & s & Ew & Hd). rewrite Ev, Ew in H. simpl in H.
  injection H as -> _. congruence.
Qed.

Lemma join_cons sep w l : join sep (w :: l) = w ++ match l with [] => [] | _ => sep ++ join sep l end.
Proof. destruct l; simpl; [by rewrite app_nil_r | done]. Qed.

Lemma comma_not_close : 44%N ∉ [93; 125]%N.
Proof. by apply (bool_decide_unpack (44%N ∉ [93; 125]%N)). Qed.

(** A comma-separated list closed by [close] is read back entry by entry. *)
Lemma join_unambiguous {A} (P : A -> Prop) (f : A -> str) (close : char) (l l' : list A) r1 r2 :
  close ∈ [93; 125]%N ->
  Forall (unambiguous P f) l -> Forall P l -> Forall P l' ->
  (forall a, P a -> forall c, head (f a) = Some c -> ~ delimited [c]) ->
  (forall a, P a -> f a ≠ []) ->
  join COMMA (map f l) ++ close :: r1 = join COMMA (map f l') ++ close :: r2 ->
  l = l' /\ r1 = r2.
Proof.
  intros Hclose Hl HPl HPl' Hhead Hne.
  assert (delimited [close]) as Hdc.
  { simpl. apply elem_of_cons. by right. }
  assert (forall a r r', P a -> f a ++ r ≠ close :: r') as Hstart.
  { intros a r r' Ha H. specialize (Hhead a Ha). specialize (Hne a Ha).
    destruct (f a) as [|c s]; [done|]. injection H as -> _. by apply (Hhead close). }
  revert l' HPl'. induction Hl as [|a l Ha Hl IH]; intros [|b l'] HPl' H.
  - simpl in H. by injection H.
  - exfalso. apply Forall_cons in HPl' as [Hb _]. cbn [map] in H. rewrite join_cons, <- app_assoc in H.
    symmetry in H. by apply Hstart in H.
  - exfalso. apply Forall_cons in HPl as [Hpa _]. cbn [map] in H. rewrite join_cons, <- app_assoc in H.
    by apply Hstart in H.
  - apply Forall_cons in HPl as [Hpa HPl]. apply Forall_cons in HPl' as [Hpb HPl'].
    cbn [map] in H. rewrite !join_cons, <- !app_assoc in H.
    apply Ha in H as [-> H]; [|done|destruct l; [exact Hdc | left]|destruct l'; [exact Hdc | left]].
    destruct l as [|a2 l], l' as [|b2 l']; simpl in H.
    + by injection H.
    + injection H as H _. subst. by apply comma_not_close in Hclose.
    + injection H as H _. subst. by apply comma_not_close in Hclose.
    + injection H as H. by destruct (IH HPl (b2 :: l') HPl' H) as [[= -> ->] ->].
Qed.

Definition plain_entry (e : str * value) : str := encode_entry (e.1, plain e.2).

Lemma plain_not_delimited v c : value_wf v -> head (plain v) = Some c -> ~ delimited [c].
Proof.
  intros Hv Hc. destruct (plain_head v Hv) as (d & r & E & Hk). rewrite E in Hc.
  injection Hc as ->. simpl. rewrite !elem_of_cons, elem_of_nil.
  intros [->|[->|[->|[]]]]; discriminate.
Qed.

Lemma plain_nonempty v : value_wf v -> plain v ≠ [].
Proof. intros Hv E. destruct (plain_head v Hv) as (d & r & E' & _). congruence. Qed.

Lemma plain_entry_unambiguous e :
  unambiguous value_wf plain e.2 -> unambiguous (fun e => value_wf e.2) plain_entry e.
Proof.
  intros He [k w] r1 r2 Hw H1 H2 H. destruct e as [k' v].
  cbn [fst snd] in He, Hw.
  unfold plain_entry, encode_entry in H. cbn [fst snd] in H.
  rewrite <- 2!(app_assoc (encode_string _) (COLON ++ _)) in H.
  apply encode_string_unique in H as [-> H]. simpl in H. injection H as H.
  by apply He in H as [-> ->].
Qed.

Lemma plain_unambiguous v : value_wf v -> unambiguous value_wf plain v.
Proof.
  intros Hv. induction v as [|b|n|s|l IH|m IH] using value_nested_ind;
    intros w r1 r2 Hw H1 H2 H; pose proof (plain_kind _ _ _ _ Hv Hw H) as Hk;
    destruct w as [|b'|n'|s'|l'|m']; try discriminate Hk; try (destruct b; discriminate Hk);
    try (destruct b'; discriminate Hk).
  - simpl in H. by simplify_list_eq.
  - destruct b, b'; simpl in Hk, H; try discriminate; by simplify_list_eq.
  - inversion Hv; inversion Hw; subst. simpl in H.
    by apply number_unambiguous in H as [-> ->].
  - simpl in H. by apply encode_string_unique in H as [-> ->].
  - inversion Hv as [| | | |? Hl|]; inversion Hw as [| | | |? Hl'|]; subst.
    simpl in H. injection H as H. rewrite <- !app_assoc in H.
    apply (join_unambiguous value_wf) in H as [-> ->]; auto using plain_nonempty.
    + by apply elem_of_cons; left.
    + by apply (Forall_mp value_wf).
    + intros a Ha c. by apply plain_not_delimited.
  - inversion Hv as [| | | | |? _ Hm]; inversion Hw as [| | | | |? _ Hm']; subst.
    simpl in H. injection H as H. rewrite <- !app_assoc, !map_map in H.
    apply (join_unambiguous (fun e => value_wf e.2) plain_entry) in H as [-> ->]; try done.
    + apply elem_of_cons. right. by apply elem_of_cons; left.
    + apply Forall_forall. intros e He. apply plain_entry_unambiguous.
      rewrite Forall_forall in IH, Hm. auto.
    + intros [k v] _ c [= <-]. simpl. by rewrite !elem_of_cons, elem_of_nil; intros [|[|[]]].
Qed.

Lemma keys_sort_map (f : value -> value) m :
  keys (sort_by_key (map (fun e => (e.1, f e.2)) m)) ≡ₚ keys m.
Proof.
  unfold keys. rewrite sort_by_key_perm, map_map. simpl. done.
Qed.

Lemma normalize_wf v : value_wf v -> value_wf (normalize v).
Proof.
  induction v as [|b|n|s|l IH|m IH] using value_nested_ind; intros Hv; try done; simpl.
  - inversion Hv as [| | | |? Hl|]; subst. constructor. apply Forall_fmap.
    by apply (Forall_mp value_wf).
  - inversion Hv as [| | | | |? Hn Hm]; subst. constructor; [by rewrite keys_sort_map|].
    rewrite sort_by_key_perm. apply Forall_fmap.
    by apply (Forall_mp (fun e => value_wf e.2)).
Qed.

Lemma encode_normalize_iff v w :
  value_wf v -> value_wf w -> (encode v = encode w <-> normalize v = normalize w).
Proof.
  intros Hv Hw. rewrite !encode_plain. split; [|by intros ->]. intros H.
  apply normalize_wf in Hv, Hw.
  apply (plain_unambiguous _ Hv (normalize w) [] []); auto; [done..|]. by rewrite !app_nil_r.
Qed.

(** Lookups see through the normalisation of an object. *)
Lemma get_NoDup_iff m k v : NoDup (keys m) -> (get m k = Some v <-> (k, v) ∈ m).
Proof.
  intros Hnd. split; [apply get_In|].
  induction m as [|[k' v'] m IH]; [intros Hin; by apply not_elem_of_nil in Hin|].
  unfold keys in *. simpl in *. apply NoDup_cons in Hnd as [Hni Hnd].
  intros [H|H]%elem_of_cons.
  - injection H as -> ->. by rewrite decide_True.
  - rewrite decide_False; [by apply IH|]. intros ->. apply Hni.
    apply list_elem_of_fmap. by exists (k', v).
Qed.

Lemma get_perm m m' k : NoDup (keys m) -> m ≡ₚ m' -> get m k = get m' k.
Proof.
  intros Hnd Hp. assert (NoDup (keys m')) as Hnd'.
  { unfold keys in *. by rewrite <- Hp. }
  apply option_eq. intros v. rewrite !get_NoDup_iff by done. by rewrite Hp.
Qed.

Lemma get_map (f : value -> value) m k :
  get (map (fun e => (e.1, f e.2)) m) k = f <$> get m k.
Proof. induction m as [|[k' v] m IH]; simpl; [done|]. by case_decide. Qed.

Lemma normalize_object_get m m' k :
  NoDup (keys m) -> NoDup (keys m') ->
  normalize (VObject m) = normalize (VObject m') ->
  normalize <$> get m k = normalize <$> get m' k.
Proof.
  intros Hm Hm' H. injection H as H. rewrite <- !get_map.
  rewrite (get_perm _ (sort_by_key (map (fun e => (e.1, normalize e.2)) m)) k).
  - rewrite H. symmetry. apply get_perm.
    + unfold keys in *. by rewrite map_map.
    + by rewrite sort_by_key_perm.
  - unfold keys in *. by rewrite map_map.
  - by rewrite sort_by_key_perm.
Qed.

(** ** Theorems *)

(** Canonical encoding decides equality of JSON values: two values have the
    same encoding exactly when they are the same up to the order of keys. *)

(** C38: the canonical encoding, which the request hash is taken of, is equal for two JSON
    values exactly when the values are the same up to the order of object keys. *)
Theorem encode_injective v w :
  value_wf v -> value_wf w -> (encode v = encode w <-> normalize v = normalize w).
Proof. apply encode_normalize_iff. Qed.

(** Reordering the keys of an object changes neither its encoding nor its hash. *)
Theorem encode_key_order m m' :
  NoDup (keys m) -> m ≡ₚ m' -> encode (VObject m) = encode (VObject m').
Proof.
  intros Hn Hp. rewrite !encode_plain. simpl. do 3 f_equal. f_equal. f_equal.
  apply sort_by_key_unique.
  - rewrite map_map. exact Hn.
  - by rewrite Hp.
Qed.

(** ** Concrete inputs *)

Lemma encode_injective_witness :
  encode (VObject [(u "b", VInt 2); (u "a", VString [LF])]) =
  encode (VObject [(u "a", VString [LF]); (u "b", VInt 2)]) <->
  normalize (VObject [(u "b", VInt 2); (u "a", VString [LF])]) =
  normalize (VObject [(u "a", VString [LF]); (u "b", VInt 2)]).
Proof.
  apply encode_injective; json_wf; by vm_compute.
Defined.

(** The unit test of canonical_json.rs, character by character. *)
Example encode_example :
  encode (VObject [(u "b", VInt 2); (u "a", VString (u "line" ++ [LF]))]) =
  [123; 34; 97; 34; 58; 34; 108; 105; 110; 101; 92; 110; 34; 44; 34; 98; 34; 58; 50; 125]%N.
Proof. by vm_compute. Qed.

Lemma encode_key_order_witness :
  encode (VObject [(u "b", VInt 2); (u "a", VNull)]) =
  encode (VObject [(u "a", VNull); (u "b", VInt 2)]).
Proof.
  apply encode_key_order; [decide_now | apply Permutation_swap].
Defined.
