(* ===== verification/Model.v ===== *)
(** * The data model (agentsassemble-domain/src/model.rs, agent_session_state.rs,
    agent_session_initial.rs, room_turn.rs)

    Rooms, participants, principals with their capabilities, the durable room
    event, and the durable Agent Session. A field [x] of a struct is the
    projection [<prefix>_x] of its record. *)

From Stdlib Require Import String.
From S2P Require Import Prelude Text Json.

(** An instant of [chrono::DateTime<Utc>]: nanoseconds since the epoch. *)
Abbreviation instant := Z (only parsing).
Definition seconds (n : Z) : Z := n * 1000000000.

(** The text forms of an instant, by the chrono crate: [to_rfc3339], the form
    serde writes, and [parse_from_rfc3339]. *)
Class Chrono : Type := {
  to_rfc3339 : instant -> str;
  datetime_json : instant -> str;
  parse_rfc3339 : str -> option instant
}.

(** ** command.rs: the rejection of a command *)

Record CommandRejection : Type := MkRejection { rej_code : str; rej_message : str }.
Definition reject (code message : string) : CommandRejection := MkRejection (u code) (u message).

(** ** Rooms and participants *)

Inductive RoomStatus : Type := RoomActive | RoomClosed | RoomArchived.

Record Room : Type := MkRoom {
  rm_room_id : str;
  rm_room_uid : str;
  rm_label : str;
  rm_status : RoomStatus;
  rm_created_at : instant;
  rm_updated_at : instant
}.
#[global] Instance eta_Room : EtaRecord Room :=
  fun r => MkRoom (rm_room_id r) (rm_room_uid r) (rm_label r) (rm_status r) (rm_created_at r)
    (rm_updated_at r).

(** [Room::new]: the identity is drawn by the caller. *)
Definition new_room (room_uid room_id label : str) (now : instant) : Room :=
  {| rm_room_id := room_id; rm_room_uid := room_uid; rm_label := label;
     rm_status := RoomActive; rm_created_at := now; rm_updated_at := now |}.

Inductive ParticipantStatus : Type := Joined | Left_ | Kicked | Exported | Detached.
Inductive ParticipantRole : Type := Human | Director | Implementer | Reviewer | AgentRole.

#[global] Instance RoomStatus_eq_dec : EqDecision RoomStatus.
Proof. solve_decision. Defined.
#[global] Instance ParticipantStatus_eq_dec : EqDecision ParticipantStatus.
Proof. solve_decision. Defined.
#[global] Instance ParticipantRole_eq_dec : EqDecision ParticipantRole.
Proof. solve_decision. Defined.

Record Participant : Type := MkParticipant {
  pt_room_id : str;
  pt_participant_id : str;
  pt_display_name : str;
  pt_avatar_image_url : str;
  pt_participant_type : str;
  pt_status : ParticipantStatus;
  pt_role : ParticipantRole;
  pt_owner_id : str;
  pt_muted : bool;
  pt_created_at : instant;
  pt_updated_at : instant
}.
#[global] Instance eta_Participant : EtaRecord Participant :=
  fun r => MkParticipant (pt_room_id r) (pt_participant_id r) (pt_display_name r)
    (pt_avatar_image_url r) (pt_participant_type r) (pt_status r) (pt_role r) (pt_owner_id r)
    (pt_muted r) (pt_created_at r) (pt_updated_at r).

Definition detach_runtime (p : Participant) (now : instant) : Participant :=
  match pt_status p with
  | Joined | Detached => p <| pt_status := Detached |> <| pt_updated_at := now |>
  | _ => p
  end.

(** ** Principals and capabilities *)

Inductive ClientKind : Type := Browser | RoomConnector | AgentBridge.
Inductive InviteScope : Type := ReadWrite | ReadOnly.

#[global] Instance ClientKind_eq_dec : EqDecision ClientKind.
Proof. solve_decision. Defined.
#[global] Instance InviteScope_eq_dec : EqDecision InviteScope.
Proof. solve_decision. Defined.

Record CapabilitySet : Type := MkCapabilitySet {
  cap_room_history : bool;
  cap_room_vote_summary : bool;
  cap_room_random : bool;
  cap_message_send : bool;
  cap_message_modify : bool;
  cap_room_manage : bool;
  cap_participant_leave : bool;
  cap_participant_mute : bool;
  cap_agent_control : bool;
  cap_bridge_publish : bool
}.
#[global] Instance eta_CapabilitySet : EtaRecord CapabilitySet :=
  fun r => MkCapabilitySet (cap_room_history r) (cap_room_vote_summary r) (cap_room_random r)
    (cap_message_send r) (cap_message_modify r) (cap_room_manage r) (cap_participant_leave r)
    (cap_participant_mute r) (cap_agent_control r) (cap_bridge_publish r).

Definition capabilities_for_principal (client_kind : ClientKind) (invite_scope : InviteScope)
    (is_operator : bool) : CapabilitySet :=
  let bridge := bool_decide (client_kind = AgentBridge) in
  let writable := bool_decide (invite_scope = ReadWrite) in
  {| cap_room_history := negb bridge;
     cap_room_vote_summary := negb bridge;
     cap_room_random := writable && negb bridge;
     cap_message_send := writable && negb bridge;
     cap_message_modify := writable && negb bridge;
     cap_room_manage := is_operator;
     cap_participant_leave := negb bridge;
     cap_participant_mute := is_operator;
     cap_agent_control := is_operator;
     cap_bridge_publish := bridge && writable |}.

Definition local_operator_capabilities (client_kind : ClientKind) (invite_scope : InviteScope) :
    CapabilitySet :=
  capabilities_for_principal client_kind invite_scope true.

Record AuthenticatedPrincipal : Type := MkPrincipal {
  pr_principal_id : str;
  pr_participant_id : str;
  pr_display_name : str;
  pr_room_id : str;
  pr_client_kind : ClientKind;
  pr_invite_scope : InviteScope;
  pr_is_operator : bool;
  pr_capabilities : CapabilitySet
}.
#[global] Instance eta_AuthenticatedPrincipal : EtaRecord AuthenticatedPrincipal :=
  fun r => MkPrincipal (pr_principal_id r) (pr_participant_id r) (pr_display_name r)
    (pr_room_id r) (pr_client_kind r) (pr_invite_scope r) (pr_is_operator r) (pr_capabilities r).

(** ** Room events *)

Record Actor : Type := MkActor { ac_participant_id : str; ac_participant_type : str }.

Record RoomEvent : Type := MkRoomEvent {
  ev_v : Z;
  ev_id : str;
  ev_seq : Z;
  ev_created_at : instant;
  ev_room_id : str;
  ev_event_type : str;
  ev_actor : Actor;
  ev_participant_id : option str;
  ev_participant_type : option str;
  ev_actor_id : option str;
  ev_actor_type : option str;
  ev_display_name : option str;
  ev_content : option str;
  ev_message_kind : option str;
  ev_extra : gmap str value
}.
#[global] Instance eta_RoomEvent : EtaRecord RoomEvent :=
  fun r => MkRoomEvent (ev_v r) (ev_id r) (ev_seq r) (ev_created_at r) (ev_room_id r)
    (ev_event_type r) (ev_actor r) (ev_participant_id r) (ev_participant_type r) (ev_actor_id r)
    (ev_actor_type r) (ev_display_name r) (ev_content r) (ev_message_kind r) (ev_extra r).

Definition is_current_lobby_message (e : RoomEvent) : bool :=
  bool_decide (ev_event_type e = u "message_final") &&
  negb (bool_decide (ev_extra e !! u "message_deleted" = Some (VBool true))).

(** ** Agent Sessions *)

Inductive AgentSessionStatus : Type :=
| SessionAvailable | SessionAttached | SessionUnavailable | SessionDetached | SessionError.
Inductive AgentRuntimeStatus : Type :=
| RuntimeStopped | RuntimeStarting | RuntimeIdle | RuntimeBusy | RuntimePaused
| RuntimeStopping | RuntimeDisconnected | RuntimeRecovering | RuntimeError.
Inductive AgentTurnPhase : Type := PhaseNone | PhaseThinking | PhaseStreaming.
Inductive AgentLifecycleAction : Type := ActionNone | ActionStart | ActionStop.
Inductive AgentLifecycleIntentStatus : Type :=
| IntentNone | IntentPrepared | IntentEffectInflight | IntentUnconfirmed | IntentEffectApplied.
Inductive PersonaAssetKind : Type := PersonaCardAsset | PersonaModuleAsset.
Inductive RoomInputDeliveryKind : Type := OrderedObservation | AmbientObservation.

#[global] Instance AgentSessionStatus_eq_dec : EqDecision AgentSessionStatus.
Proof. solve_decision. Defined.
#[global] Instance AgentRuntimeStatus_eq_dec : EqDecision AgentRuntimeStatus.
Proof. solve_decision. Defined.
#[global] Instance AgentTurnPhase_eq_dec : EqDecision AgentTurnPhase.
Proof. solve_decision. Defined.
#[global] Instance AgentLifecycleAction_eq_dec : EqDecision AgentLifecycleAction.
Proof. solve_decision. Defined.
#[global] Instance AgentLifecycleIntentStatus_eq_dec : EqDecision AgentLifecycleIntentStatus.
Proof. solve_decision. Defined.
#[global] Instance RoomInputDeliveryKind_eq_dec : EqDecision RoomInputDeliveryKind.
Proof. solve_decision. Defined.

Definition phase_is_none (p : AgentTurnPhase) : bool :=
  match p with PhaseNone => true | _ => false end.
Definition action_as_str (a : AgentLifecycleAction) : str :=
  match a with ActionNone => [] | ActionStart => u "start" | ActionStop => u "stop" end.
Definition action_is_none (a : AgentLifecycleAction) : bool :=
  match a with ActionNone => true | _ => false end.
Definition intent_is_none (s : AgentLifecycleIntentStatus) : bool :=
  match s with IntentNone => true | _ => false end.

Record QueuedRoomInput : Type := MkQueuedRoomInput {
  qi_event_id : str;
  qi_delivery_kind : RoomInputDeliveryKind
}.
#[global] Instance QueuedRoomInput_eq_dec : EqDecision QueuedRoomInput.
Proof. solve_decision. Defined.

Record PersonaAssetSummary : Type := MkPersonaAssetSummary {
  pa_id : str;
  pa_display_name : str;
  pa_asset_kind : PersonaAssetKind;
  pa_source_kind : str;
  pa_lorebook_count : N;
  pa_asset_count : N;
  pa_ignored_feature_count : N;
  pa_tag_count : N;
  pa_thumbnail_url : str
}.
#[global] Instance eta_PersonaAssetSummary : EtaRecord PersonaAssetSummary :=
  fun r => MkPersonaAssetSummary (pa_id r) (pa_display_name r) (pa_asset_kind r)
    (pa_source_kind r) (pa_lorebook_count r) (pa_asset_count r) (pa_ignored_feature_count r)
    (pa_tag_count r) (pa_thumbnail_url r).

Record AgentSession : Type := MkAgentSession {
  s_avatar_image_url : str;
  s_room_id : str;
  s_session_id : str;
  s_participant_id : str;
  s_display_name : str;
  s_status : AgentSessionStatus;
  s_runtime_status : AgentRuntimeStatus;
  s_enabled : bool;
  s_provider_kind : str;
  s_runtime_kind : str;
  s_connection_kind : str;
  s_external_owned : bool;
  s_external_retained_interrupt : option bool;
  s_process_ownership : str;
  s_model : str;
  s_reasoning_effort : str;
  s_service_tier : str;
  s_variant : str;
  s_execution_harness : str;
  s_permission_mode : str;
  s_max_output_tokens : N;
  s_catalog_revision : str;
  s_persona_card_id : str;
  s_persona_card : option PersonaAssetSummary;
  s_transport : str;
  s_last_seen_event_id : str;
  s_last_seen_seq : Z;
  s_last_provider_sync_event_id : str;
  s_last_provider_sync_seq : Z;
  s_bootstrap_cutoff_seq : Z;
  s_turn_count : N;
  s_active_turn_id : str;
  s_turn_phase : AgentTurnPhase;
  s_last_error : str;
  s_last_error_code : str;
  s_recovery_required : bool;
  s_provider_session_active : bool;
  s_provider_session_reused : bool;
  s_created_at : instant;
  s_updated_at : instant
}.
#[global] Instance eta_AgentSession : EtaRecord AgentSession :=
  fun r => MkAgentSession (s_avatar_image_url r) (s_room_id r) (s_session_id r)
    (s_participant_id r) (s_display_name r) (s_status r) (s_runtime_status r) (s_enabled r)
    (s_provider_kind r) (s_runtime_kind r) (s_connection_kind r) (s_external_owned r)
    (s_external_retained_interrupt r) (s_process_ownership r) (s_model r) (s_reasoning_effort r)
    (s_service_tier r) (s_variant r) (s_execution_harness r) (s_permission_mode r)
    (s_max_output_tokens r) (s_catalog_revision r) (s_persona_card_id r) (s_persona_card r)
    (s_transport r) (s_last_seen_event_id r) (s_last_seen_seq r)
    (s_last_provider_sync_event_id r) (s_last_provider_sync_seq r) (s_bootstrap_cutoff_seq r)
    (s_turn_count r) (s_active_turn_id r) (s_turn_phase r) (s_last_error r)
    (s_last_error_code r) (s_recovery_required r) (s_provider_session_active r)
    (s_provider_session_reused r) (s_created_at r) (s_updated_at r).

Record DurableAgentSession : Type := MkDurableAgentSession {
  d_public : AgentSession;
  d_executable : str;
  d_executable_identity : str;
  d_workspace : str;
  d_workspace_identity : str;
  d_provider_endpoint : str;
  d_runtime_profile_key : str;
  d_runtime_profile_version : N;
  d_provider_session_id : str;
  d_runtime_handle_id : str;
  d_runtime_owner_id : str;
  d_runtime_lease_token : str;
  d_turn_generation : N;
  d_schedule_requested : bool;
  d_pending_inputs : list QueuedRoomInput;
  d_inflight_inputs : list QueuedRoomInput;
  d_active_source_event_id : str;
  d_input_up_to_event_id : str;
  d_input_up_to_seq : Z;
  d_lifecycle_intent_action : AgentLifecycleAction;
  d_lifecycle_intent_id : str;
  d_lifecycle_intent_status : AgentLifecycleIntentStatus
}.
#[global] Instance eta_DurableAgentSession : EtaRecord DurableAgentSession :=
  fun r => MkDurableAgentSession (d_public r) (d_executable r) (d_executable_identity r)
    (d_workspace r) (d_workspace_identity r) (d_provider_endpoint r) (d_runtime_profile_key r)
    (d_runtime_profile_version r) (d_provider_session_id r) (d_runtime_handle_id r)
    (d_runtime_owner_id r) (d_runtime_lease_token r) (d_turn_generation r)
    (d_schedule_requested r) (d_pending_inputs r) (d_inflight_inputs r)
    (d_active_source_event_id r) (d_input_up_to_event_id r) (d_input_up_to_seq r)
    (d_lifecycle_intent_action r) (d_lifecycle_intent_id r) (d_lifecycle_intent_status r).

(** The selection check of [DurableAgentSession]'s deserializer. *)
Definition persona_is_valid (s : AgentSession) : bool :=
  match s_persona_card_id s, s_persona_card s with
  | [], None => true
  | (_ :: _) as id, Some summary => bool_decide (id = pa_id summary)
  | _, _ => false
  end.

Record AgentSessionDraft : Type := MkAgentSessionDraft {
  dr_agent_id : str;
  dr_display_name : str;
  dr_provider_kind : str;
  dr_runtime_kind : str;
  dr_connection_kind : str;
  dr_executable : str;
  dr_executable_identity : str;
  dr_workspace : str;
  dr_workspace_identity : str;
  dr_provider_endpoint : str;
  dr_model : str;
  dr_reasoning_effort : str;
  dr_service_tier : str;
  dr_variant : str;
  dr_execution_harness : str;
  dr_permission_mode : str;
  dr_max_output_tokens : N;
  dr_catalog_revision : str;
  dr_persona_card_id : str;
  dr_runtime_profile_key : str;
  dr_transport : str
}.
#[global] Instance eta_AgentSessionDraft : EtaRecord AgentSessionDraft :=
  fun r => MkAgentSessionDraft (dr_agent_id r) (dr_display_name r) (dr_provider_kind r)
    (dr_runtime_kind r) (dr_connection_kind r) (dr_executable r) (dr_executable_identity r)
    (dr_workspace r) (dr_workspace_identity r) (dr_provider_endpoint r) (dr_model r)
    (dr_reasoning_effort r) (dr_service_tier r) (dr_variant r) (dr_execution_harness r)
    (dr_permission_mode r) (dr_max_output_tokens r) (dr_catalog_revision r)
    (dr_persona_card_id r) (dr_runtime_profile_key r) (dr_transport r).

Definition CURRENT_RUNTIME_PROFILE_VERSION : N := 5.

Inductive AgentRuntimeCustody : Type := CustodyServer | CustodyExternal.

(** [DurableAgentSession::without_runtime] *)
Definition without_runtime (public : AgentSession) : DurableAgentSession :=
  {|
    d_public := public;
    d_executable := [];
    d_executable_identity := [];
    d_workspace := [];
    d_workspace_identity := [];
    d_provider_endpoint := [];
    d_runtime_profile_key := [];
    d_runtime_profile_version := CURRENT_RUNTIME_PROFILE_VERSION;
    d_provider_session_id := [];
    d_runtime_handle_id := [];
    d_runtime_owner_id := [];
    d_runtime_lease_token := [];
    d_turn_generation := 0%N;
    d_schedule_requested := false;
    d_pending_inputs := [];
    d_inflight_inputs := [];
    d_active_source_event_id := [];
    d_input_up_to_event_id := [];
    d_input_up_to_seq := 0;
    d_lifecycle_intent_action := ActionNone;
    d_lifecycle_intent_id := [];
    d_lifecycle_intent_status := IntentNone
  |}.

(** [AgentSessionDraft::initial_session] *)
Definition initial_session (draft : AgentSessionDraft) (room_id : str)
    (custody : AgentRuntimeCustody) (now : instant) : DurableAgentSession :=
  let public := {|
    s_avatar_image_url := [];
    s_room_id := room_id;
    s_session_id := dr_agent_id draft;
    s_participant_id := dr_agent_id draft;
    s_display_name := dr_display_name draft;
    s_status := SessionAvailable;
    s_runtime_status := RuntimeStopped;
    s_enabled := false;
    s_provider_kind := dr_provider_kind draft;
    s_runtime_kind := dr_runtime_kind draft;
    s_connection_kind := dr_connection_kind draft;
    s_external_owned := match custody with CustodyExternal => true | CustodyServer => false end;
    s_external_retained_interrupt := None;
    s_process_ownership := match custody with CustodyServer => u "server" | CustodyExternal => u "external" end;
    s_model := dr_model draft;
    s_reasoning_effort := dr_reasoning_effort draft;
    s_service_tier := dr_service_tier draft;
    s_variant := dr_variant draft;
    s_execution_harness := dr_execution_harness draft;
    s_permission_mode := dr_permission_mode draft;
    s_max_output_tokens := dr_max_output_tokens draft;
    s_catalog_revision := dr_catalog_revision draft;
    s_persona_card_id := dr_persona_card_id draft;
    s_persona_card := None;
    s_transport := dr_transport draft;
    s_last_seen_event_id := [];
    s_last_seen_seq := 0;
    s_last_provider_sync_event_id := [];
    s_last_provider_sync_seq := 0;
    s_bootstrap_cutoff_seq := 0;
    s_turn_count := 0%N;
    s_active_turn_id := [];
    s_turn_phase := PhaseNone;
    s_last_error := [];
    s_last_error_code := [];
    s_recovery_required := false;
    s_provider_session_active := false;
    s_provider_session_reused := false;
    s_created_at := now;
    s_updated_at := now
  |} in
  (without_runtime public)
    <| d_executable := dr_executable draft |>
    <| d_executable_identity := dr_executable_identity draft |>
    <| d_workspace := dr_workspace draft |>
    <| d_workspace_identity := dr_workspace_identity draft |>
    <| d_provider_endpoint := dr_provider_endpoint draft |>
    <| d_runtime_profile_key := dr_runtime_profile_key draft |>.
