(* ===== verification/Command.v ===== *)
(** * Commands on the room lobby, its channels and the side chat
    (agentsassemble-domain/src/command.rs, message_attachments.rs,
    message_pins.rs, room_history.rs, channel_messages.rs, side_chat.rs)

    The parsing of untrusted payloads into normalised commands, the write
    authority of a principal, and the durable event a command becomes. *)

From Stdlib Require Import String.
From stdpp Require Import gmap.
From S2P Require Import Prelude Text Json Model.

Abbreviation res := (result CommandRejection) (only parsing).

(** [format!] of a text into a rejection's message *)
Definition reject_str (code : string) (message : str) : CommandRejection :=
  MkRejection (u code) message.

(** ** message_attachments.rs *)

Definition MESSAGE_ATTACHMENT_ID_PREFIX : str := u "ma_".
Definition MESSAGE_ATTACHMENT_ID_HEX_LENGTH : nat := 32.
Definition MAX_MESSAGE_ATTACHMENTS_PER_EVENT : nat := 8.
Definition MAX_MESSAGE_ATTACHMENT_FILENAME_CHARACTERS : nat := 120.

Definition is_message_attachment_id (attachment_id : str) : bool :=
  match strip_prefix attachment_id MESSAGE_ATTACHMENT_ID_PREFIX with
  | None => false
  | Some hex =>
      bool_decide (byte_len hex = MESSAGE_ATTACHMENT_ID_HEX_LENGTH) && all is_lower_hex hex
  end.

(** [normalized.rsplit('/').next()]: what follows the last slash *)
Fixpoint after_last_slash (acc s : str) : str :=
  match s with
  | [] => acc
  | c :: s' => if (c =? 47)%N then after_last_slash [] s' else after_last_slash (acc ++ [c]) s'
  end.

Definition canonical_message_attachment_filename (value : str) : str :=
  let normalized := map (fun c => if (c =? 92)%N then 47%N else c) value in
  let name := after_last_slash [] normalized in
  let kept := filter (fun c => is_control c = false /\ c ∉ [47; 92]%N) name in
  let truncated := take MAX_MESSAGE_ATTACHMENT_FILENAME_CHARACTERS (trim kept) in
  let name := trim truncated in
  if bool_decide (name = []) || contains [u "."; u ".."] name
  then u "attachment.bin" else name.

(** ** message_pins.rs *)

Definition MAX_CHANNEL_MESSAGE_PINS : Z := 64.
Definition MAX_MESSAGE_EVENT_ID_BYTES : nat := 128.

Definition is_message_event_id (value : str) : bool :=
  negb (bool_decide (value = [])) &&
  bool_decide (byte_len value <= MAX_MESSAGE_EVENT_ID_BYTES)%nat &&
  negb (contains value NUL).

(** ** text.rs: the room identifier *)

Definition validate_room_id (value : str) : res str :=
  let room_id := clean_identifier value 128 in
  reject_if (bool_decide (room_id = []) || contains [u "."; u ".."] room_id ||
             any (contains [47; 92]%N) room_id)
    (reject "bad_request" "room_id is required.");;
  mret room_id.

(** ** command.rs: [message.send] *)

Record MessageSend : Type := MkMessageSend { ms_content : str; ms_attachment_ids : list str }.

(** The loop of [parse_attachment_ids]: [seen] holds the identifiers met so far. *)
Fixpoint parse_attachment_id_list (seen : list str) (values : list value) : res (list str) :=
  match values with
  | [] => Ok []
  | v :: values' =>
      attachment_id ← ok_or (as_str v)
        (reject "bad_request" "attachment_ids entries must be strings.");
      require (is_message_attachment_id attachment_id)
        (reject "bad_request" "Message attachment id is invalid.");;
      reject_if (contains seen attachment_id)
        (reject "bad_request" "Message attachment ids must be distinct.");;
      rest ← parse_attachment_id_list (attachment_id :: seen) values';
      mret (attachment_id :: rest)
  end.

Definition parse_attachment_ids (value : option value) : res (list str) :=
  match value with
  | None => Ok []
  | Some value =>
      values ← ok_or (as_array value) (reject "bad_request" "attachment_ids must be an array.");
      reject_if (bool_decide (MAX_MESSAGE_ATTACHMENTS_PER_EVENT < length values)%nat)
        (reject_str "bad_request"
          (u "At most " ++ show_nat MAX_MESSAGE_ATTACHMENTS_PER_EVENT ++ u " attachments are allowed."));;
      parse_attachment_id_list [] values
  end.

Definition payload_object (payload : value) : res object :=
  ok_or (as_object payload) (reject "bad_request" "payload must be an object.").

(** The sha2 crate: the hexadecimal SHA-256 digest of a text's UTF-8 bytes. *)
Class Sha256 : Type := sha256_hex : str -> str.

Definition canonical_payload_hash `{Sha256} (payload : value) : str :=
  sha256_hex (encode payload).

Section message_send.
Context `{UnicodeGeneralCategory}.

Definition message_send_from_payload (payload : value) : res MessageSend :=
  object ← payload_object payload;
  reject_if (negb (contains_key object (u "content")) ||
             any (fun key => negb (contains [u "content"; u "attachment_ids"] key)) (keys object))
    (reject "bad_request"
      "message.send accepts exactly content and optional attachment_ids fields.");;
  raw ← ok_or (get object (u "content") ≫= as_str)
    (reject "bad_request" "message.send content must be a string.");
  let content := clean_message raw MAX_MESSAGE_CHARACTERS in
  attachment_ids ← parse_attachment_ids (get object (u "attachment_ids"));
  reject_if (negb (has_visible_text content) && bool_decide (attachment_ids = []))
    (reject "empty" "Message content or an attachment is required.");;
  mret {| ms_content := content; ms_attachment_ids := attachment_ids |}.
End message_send.

(** ** command.rs: write authority and the durable message event *)

Definition require_active_write_participant (principal : AuthenticatedPrincipal)
    (participant : Participant) : res unit :=
  reject_if (negb (bool_decide (pr_room_id principal = pt_room_id participant)) ||
             negb (bool_decide (pr_participant_id principal = pt_participant_id participant)) ||
             negb (bool_decide (pt_status participant = Joined)))
    (reject "session_revoked" "This room session has ended.");;
  reject_if (pt_muted participant) (reject "muted" "This participant is muted.").

Definition require_message_write_authority (principal : AuthenticatedPrincipal)
    (participant : Participant) : res unit :=
  reject_if (bool_decide (pr_client_kind principal = AgentBridge) ||
             negb (cap_message_send (pr_capabilities principal)))
    (reject "permission_denied" "This room session cannot send messages.");;
  require_active_write_participant principal participant.

(** The new event's identity [Uuid::new_v4()] is the argument [id]. *)
Definition prepare_authorized_participant_message_event (id : str) (participant : Participant)
    (sequence : Z) (now : instant) (content : str) (message_kind : str)
    (extra : gmap str value) : res RoomEvent :=
  reject_if (sequence <=? 0)
    (reject "invalid_state" "Room event sequence must be positive.");;
  let participant_type := pt_participant_type participant in
  let participant_id := pt_participant_id participant in
  mret {|
    ev_v := 1;
    ev_id := id;
    ev_seq := sequence;
    ev_created_at := now;
    ev_room_id := pt_room_id participant;
    ev_event_type := u "message_final";
    ev_actor := MkActor participant_id participant_type;
    ev_participant_id := Some participant_id;
    ev_participant_type := Some participant_type;
    ev_actor_id := Some participant_id;
    ev_actor_type := Some participant_type;
    ev_display_name := Some (pt_display_name participant);
    ev_content := Some content;
    ev_message_kind := Some message_kind;
    ev_extra := extra
  |}.

Definition prepare_participant_message_event (id : str) (principal : AuthenticatedPrincipal)
    (participant : Participant) (sequence : Z) (now : instant) (content : str)
    (message_kind : str) (extra : gmap str value) : res RoomEvent :=
  require_message_write_authority principal participant;;
  prepare_authorized_participant_message_event id participant sequence now content
    message_kind extra.

Definition prepare_message_event (id : str) (principal : AuthenticatedPrincipal)
    (participant : Participant) (command : MessageSend) (sequence : Z) (now : instant) :
    res RoomEvent :=
  prepare_participant_message_event id principal participant sequence now
    (ms_content command) (u "message") ∅.

(** ** room_history.rs *)

Definition ROOM_HISTORY_MAX_EVENTS : Z := 200.

Record RoomHistoryRequest : Type := MkRoomHistoryRequest { rh_before_seq : Z; rh_limit : Z }.

Definition integer_field (value : option value) (field : string) : res (option Z) :=
  match value with
  | None => Ok None
  | Some value =>
      n ← ok_or (as_i64 value)
        (reject_str "bad_request" (u "room.history " ++ u field ++ u " must be an integer."));
      mret (Some n)
  end.

Definition clamp (lo hi n : Z) : Z := Z.max lo (Z.min hi n).

Definition room_history_from_payload (payload : value) : res RoomHistoryRequest :=
  object ← payload_object payload;
  reject_if (any (fun key => negb (contains [u "before_seq"; u "limit"] key)) (keys object))
    (reject "bad_request" "room.history accepts only before_seq and limit fields.");;
  before_seq ← integer_field (get object (u "before_seq")) "before_seq";
  limit ← integer_field (get object (u "limit")) "limit";
  mret {| rh_before_seq := Z.max 0 (default 0 before_seq);
          rh_limit := clamp 1 ROOM_HISTORY_MAX_EVENTS (default ROOM_HISTORY_MAX_EVENTS limit) |}.

(** ** channel_messages.rs *)

Definition CHANNEL_HISTORY_PAGE_SIZE : Z := 80.
Definition CHANNEL_MESSAGE_EVENT_TYPE : str := u "channel_message_final".

(** room_settings.rs: [is_custom_channel_id], the pattern [^c[0-9a-f]{12}$] *)
Definition is_custom_channel_id (value : str) : bool :=
  match value with
  | c :: hex => (c =? 99)%N && bool_decide (length hex = 12%nat) && all is_lower_hex hex
  | [] => false
  end.

Record ChannelHistoryRequest : Type := MkChannelHistoryRequest {
  ch_channel_id : str;
  ch_page : RoomHistoryRequest
}.

Definition channel_history_from_payload (payload : value) : res ChannelHistoryRequest :=
  fields ← ok_or (as_object payload)
    (reject "bad_request" "Channel history payload must be an object.");
  channel_id ← ok_or
    (value ← get fields (u "channel_id"); id ← as_str value;
     if is_custom_channel_id id then Some id else None)
    (reject "bad_request" "Channel id is invalid.");
  let fields := obj_remove fields (u "channel_id") in
  let fields :=
    if contains_key fields (u "limit") then fields
    else obj_insert fields (u "limit") (VInt CHANNEL_HISTORY_PAGE_SIZE) in
  page ← room_history_from_payload (VObject fields);
  mret {| ch_channel_id := channel_id; ch_page := page |}.

Record ChannelMessageSend : Type := MkChannelMessageSend {
  cm_channel_id : str;
  cm_content : str
}.

(** serde's derived deserializer of a struct that denies unknown fields: an
    object with exactly the fields, or an array with one element per field. *)
Definition struct_fields (names : list str) (v : value) : option (list value) :=
  match v with
  | VObject m =>
      if all (contains names) (keys m) then mapM (get m) names else None
  | VArray l => if bool_decide (length l = length names) then Some l else None
  | _ => None
  end.

Section channel_messages.
Context `{UnicodeGeneralCategory}.

Definition deserialize_channel_message (payload : value) : option ChannelMessageSend :=
  fields ← struct_fields [u "channel_id"; u "content"] payload;
  match fields with
  | [VString channel_id; VString content] => Some (MkChannelMessageSend channel_id content)
  | _ => None
  end.

Definition channel_message_from_payload (payload : value) : res ChannelMessageSend :=
  command ← ok_or (deserialize_channel_message payload)
    (reject "bad_request" "Channel messages require channel_id and content.");
  require (is_custom_channel_id (cm_channel_id command))
    (reject "bad_request" "Channel id is invalid.");;
  let content := clean_message (cm_content command) MAX_TEXT_CHAT_CHARACTERS in
  require (has_visible_text content)
    (reject "empty" "Channel message text is required.");;
  mret {| cm_channel_id := cm_channel_id command; cm_content := content |}.

Definition prepare_channel_message_event (id : str) (principal : AuthenticatedPrincipal)
    (participant : Participant) (command : ChannelMessageSend) (sequence : Z) (now : instant) :
    res RoomEvent :=
  event ← prepare_participant_message_event id principal participant sequence now
    (cm_content command) (u "message")
    {[ u "channel_id" := VString (cm_channel_id command) ]};
  mret (event <| ev_event_type := CHANNEL_MESSAGE_EVENT_TYPE |>).
End channel_messages.

(** ** side_chat.rs *)

Definition SIDE_CHAT_MAX_MESSAGES : nat := 200.
Definition SIDE_CHAT_TTL_SECONDS : Z := 24 * 60 * 60.

(** The uuid crate: a [Uuid] is its canonical text. *)
Class UuidCrate : Type := parse_uuid : str -> option str.

Record SideChatSend : Type := MkSideChatSend {
  sc_generation : str;
  sc_after_seq : Z;
  sc_content : str
}.

Section side_chat.
Context `{UnicodeGeneralCategory, UuidCrate}.

Definition deserialize_side_chat (payload : value) : option SideChatSend :=
  fields ← struct_fields [u "generation"; u "after_seq"; u "content"] payload;
  match fields with
  | [VString generation; after_seq; VString content] =>
      generation ← parse_uuid generation;
      after_seq ← as_i64 after_seq;
      Some (MkSideChatSend generation after_seq content)
  | _ => None
  end.

Definition side_chat_from_payload (payload : value) : res SideChatSend :=
  request ← ok_or (deserialize_side_chat payload)
    (reject "bad_request" "Side chat requires generation, after_seq and content.");
  reject_if (sc_after_seq request <? 0)
    (reject "bad_request" "Side chat cursor is invalid.");;
  let content := clean_message (sc_content request) MAX_TEXT_CHAT_CHARACTERS in
  require (has_visible_text content) (reject "empty" "Side chat text is required.");;
  mret {| sc_generation := sc_generation request;
          sc_after_seq := sc_after_seq request; sc_content := content |}.
End side_chat.

(** ** Facts shared by the clients *)

Lemma parse_attachment_id_list_ok seen values ids :
  parse_attachment_id_list seen values = Ok ids ->
  values = map VString ids /\ NoDup ids /\ Forall (fun i => is_message_attachment_id i = true) ids /\
  Forall (fun i => i ∉ seen) ids.
Proof.
  revert seen ids. induction values as [|v values IH]; intros seen ids H; simpl in H.
  - injection H as <-. split_and!; constructor.
  - res_inv. destruct v; try discriminate. simplify_eq/=.
    match goal with H : parse_attachment_id_list _ _ = Ok _ |- _ =>
      apply IH in H as (-> & Hnd & Hids & Hseen) end.
    unfold contains in *. bool_to_prop.
    split_and!; [done| | |].
    + constructor; [|done]. intros Hin. rewrite Forall_forall in Hseen.
      apply (Hseen _ Hin). by left.
    + by constructor.
    + constructor; [done|]. eapply Forall_impl; [exact Hseen|].
      intros i Hi Hin. apply Hi. by right.
Qed.

Lemma parse_attachment_id_list_complete seen ids :
  NoDup ids -> Forall (fun i => is_message_attachment_id i = true) ids ->
  Forall (fun i => i ∉ seen) ids ->
  parse_attachment_id_list seen (map VString ids) = Ok ids.
Proof.
  intros Hnd. revert seen. induction Hnd as [|i ids Hi Hnd IH]; intros seen Hids Hseen; [done|].
  apply Forall_cons in Hids as [Hv Hids]. apply Forall_cons in Hseen as [Hs Hseen].
  simpl. rewrite Hv. unfold contains. rewrite bool_decide_eq_false_2 by done. simpl.
  rewrite IH; [done..|]. apply Forall_forall. intros j Hj [->|Hj']%elem_of_cons; [done|].
  rewrite Forall_forall in Hseen. by apply (Hseen j).
Qed.

(** The attachment lists a command may carry. *)
Definition attachment_ids_ok (ids : list str) : Prop :=
  (length ids <= MAX_MESSAGE_ATTACHMENTS_PER_EVENT)%nat /\ NoDup ids /\
  Forall (fun i => is_message_attachment_id i = true) ids.

Lemma parse_attachment_ids_ok o ids : parse_attachment_ids o = Ok ids -> attachment_ids_ok ids.
Proof.
  destruct o as [v|]; simpl; intros H.
  - res_inv. bool_to_prop. apply parse_attachment_id_list_ok in H as (-> & Hnd & Hids & _).
    rewrite length_map in *. split_and!; [lia|done|done].
  - injection H as <-. split_and!; [simpl; lia|constructor|constructor].
Qed.

Lemma parse_attachment_ids_complete ids :
  attachment_ids_ok ids -> parse_attachment_ids (Some (VStrings ids)) = Ok ids.
Proof.
  intros (Hl & Hnd & Hids). unfold parse_attachment_ids, VStrings. simpl.
  rewrite length_map, bool_decide_eq_false_2 by lia. simpl.
  apply parse_attachment_id_list_complete; [done..|]. apply Forall_forall. set_solver.
Qed.

(** The visible text of a message is never empty. *)
Lemma has_visible_text_nonempty `{UnicodeGeneralCategory} s : has_visible_text s = true -> s ≠ [].
Proof. by intros Hs ->. Qed.
