(* ===== verification/Vote.v ===== *)
(** * Votes (agentsassemble-domain/src/vote.rs)

    The four vote commands, their exact payloads, the resolution of a ballot
    against a poll's options, and the durable vote event. *)

From Stdlib Require Import String.
From stdpp Require Import gmap.
From S2P Require Import Prelude Text Json Model Command.

(** The caseless crate: default Unicode case folding. *)
Class Caseless : Type := default_case_fold_str : str -> str.

Definition MIN_VOTE_DURATION_SECONDS : N := 30.
Definition MAX_VOTE_DURATION_SECONDS : N := 86400.
Definition VOTE_QUESTION_CHARACTER_LIMIT : nat := 300.
Definition VOTE_OPTION_CHARACTER_LIMIT : nat := 100.
Definition MIN_VOTE_OPTIONS : nat := 2.
Definition MAX_VOTE_OPTIONS : nat := 10.
Definition MAX_VOTE_BALLOTS_PER_POLL : N := 192.

Definition usize_max : N := u64_max.
Definition u32_max : N := 4294967295.

Record VoteCreate : Type := MkVoteCreate {
  vc_question : str;
  vc_options : list str;
  vc_duration_seconds : N;
  vc_attachment_ids : list str
}.
Record VoteCast : Type := MkVoteCast { vk_vote_id : str; vk_choice : str }.
Record VoteReference : Type := MkVoteReference { vr_vote_id : str }.

Inductive VoteCommand : Type :=
| Create (create : VoteCreate)
| Cast (cast : VoteCast)
| Withdraw (reference : VoteReference)
| Close (reference : VoteReference).

Record VoteSummary : Type := MkVoteSummary {
  vs_vote_id : str;
  vs_question : str;
  vs_options : list str;
  vs_vote_duration_seconds : N;
  vs_vote_deadline_at : str;
  vs_created_by : str;
  vs_created_at : str;
  vs_tallies : gmap str N;
  vs_own_choice : str;
  vs_total_votes : N;
  vs_closed : bool;
  vs_closed_at : str;
  vs_close_reason : str
}.

#[global] Instance VoteCreate_eq_dec : EqDecision VoteCreate.
Proof. solve_decision. Defined.

(** ** Identifiers and shapes *)

Definition validate_vote_id (value : str) : res str :=
  let canonical := clean_identifier value 128 in
  reject_if (negb (bool_decide (canonical = value)) || negb (is_message_event_id canonical))
    (reject "invalid_vote" "vote_id is invalid.");;
  mret canonical.

Definition parse_vote_id (value : option value) : res str :=
  value ← ok_or (value ≫= as_str) (reject "invalid_vote" "vote_id must be a string.");
  validate_vote_id value.

Definition require_exact_keys (object : object) (required optional : list str) (kind : string) :
    res unit :=
  reject_if (any (fun key => negb (contains_key object key)) required ||
             any (fun key => negb (contains required key) && negb (contains optional key))
               (keys object))
    (reject_str "bad_request" (u "message.send " ++ u kind ++ u " payload has an invalid shape.")).

Definition invalid_vote_duration : CommandRejection :=
  reject_str "invalid_vote_duration"
    (u "vote_duration_seconds must be 0 or between " ++ show_N MIN_VOTE_DURATION_SECONDS ++
     u " and " ++ show_N MAX_VOTE_DURATION_SECONDS ++ u ".").

Definition duration_ok (n : N) : bool :=
  (n =? 0)%N || ((MIN_VOTE_DURATION_SECONDS <=? n) && (n <=? MAX_VOTE_DURATION_SECONDS))%N.

Definition parse_duration (value : option value) : res N :=
  match value with
  | None => Ok 0%N
  | Some (VNumber n) =>
      ok_or
        (n ← num_as_u64 n;
         if (n <=? u32_max)%N then (if duration_ok n then Some n else None) else None)
        invalid_vote_duration
  | Some _ => Err invalid_vote_duration
  end.

Definition parse_reference (object : object) (kind : string) : res VoteReference :=
  require_exact_keys object [u "kind"; u "vote_id"] [] kind;;
  vote_id ← parse_vote_id (get object (u "vote_id"));
  mret (MkVoteReference vote_id).

Definition vote_reference_from_summary_payload (payload : value) : res VoteReference :=
  object ← payload_object payload;
  reject_if (negb (bool_decide (length object = 1%nat)) || negb (contains_key object (u "vote_id")))
    (reject "bad_request" "room.vote.summary accepts exactly vote_id.");;
  vote_id ← parse_vote_id (get object (u "vote_id"));
  mret (MkVoteReference vote_id).

Definition message_kind (command : VoteCommand) : str :=
  match command with
  | Create _ => u "vote"
  | Cast _ => u "vote_cast"
  | Withdraw _ => u "vote_withdraw"
  | Close _ => u "vote_close"
  end.

Definition vote_to_payload (command : VoteCommand) : value :=
  let payload :=
    match command with
    | Create create => [
        (u "vote_question", VString (vc_question create));
        (u "vote_options", VStrings (vc_options create));
        (u "vote_duration_seconds", VNumber (PosInt (vc_duration_seconds create)));
        (u "attachment_ids", VStrings (vc_attachment_ids create))]
    | Cast cast => [
        (u "vote_id", VString (vk_vote_id cast));
        (u "vote_choice", VString (vk_choice cast))]
    | Withdraw reference | Close reference => [(u "vote_id", VString (vr_vote_id reference))]
    end in
  VObject (obj_insert payload (u "kind") (VString (message_kind command))).

Definition vote_deadline_at (now : instant) (duration_seconds : N) : option instant :=
  if (0 <? duration_seconds)%N then Some (now + seconds (Z.of_N duration_seconds)) else None.

Definition require_vote_write_authority (principal : AuthenticatedPrincipal)
    (participant : Participant) : res unit :=
  let allowed :=
    match pr_client_kind principal with
    | Browser | RoomConnector => cap_message_send (pr_capabilities principal)
    | AgentBridge => cap_bridge_publish (pr_capabilities principal)
    end in
  require allowed (reject "permission_denied" "This room session cannot publish votes.");;
  require_active_write_participant principal participant.

Section vote.
Context `{UnicodeGeneralCategory, Caseless, Chrono}.

(** [and_then(Value::as_str).map(clean_message).filter(has_visible_text)] *)
Definition visible_message (value : option value) (limit : nat) : option str :=
  text ← value ≫= as_str;
  let text := clean_message text limit in
  if has_visible_text text then Some text else None.

(** The loop over [vote_options]: [seen] are the folded texts kept so far and
    [options] the options themselves. *)
Fixpoint parse_options (seen options : list str) (values : list value) : res (list str) :=
  match values with
  | [] => Ok options
  | v :: values' =>
      v ← ok_or (as_str v) (reject "invalid_vote" "Every vote option must be text.");
      let option := clean_message v VOTE_OPTION_CHARACTER_LIMIT in
      if negb (has_visible_text option) || contains seen (default_case_fold_str option)
      then parse_options seen options values'
      else
        let options := options ++ [option] in
        if bool_decide (MAX_VOTE_OPTIONS < length options)%nat
        then Err (reject_str "invalid_vote"
               (u "A vote supports at most " ++ show_nat MAX_VOTE_OPTIONS ++ u " options."))
        else parse_options (default_case_fold_str option :: seen) options values'
  end.

Definition parse_create (object : object) : res VoteCreate :=
  require_exact_keys object [u "kind"; u "vote_question"; u "vote_options"]
    [u "vote_duration_seconds"; u "attachment_ids"] "vote";;
  question ← ok_or (visible_message (get object (u "vote_question")) VOTE_QUESTION_CHARACTER_LIMIT)
    (reject "invalid_vote" "vote_question is required.");
  values ← ok_or (get object (u "vote_options") ≫= as_array)
    (reject "invalid_vote" "vote_options must be an array.");
  options ← parse_options [] [] values;
  reject_if (bool_decide (length options < MIN_VOTE_OPTIONS)%nat)
    (reject "invalid_vote" "A vote requires at least two distinct options.");;
  duration_seconds ← parse_duration (get object (u "vote_duration_seconds"));
  attachment_ids ← parse_attachment_ids (get object (u "attachment_ids"));
  mret {| vc_question := question; vc_options := options;
          vc_duration_seconds := duration_seconds; vc_attachment_ids := attachment_ids |}.

Definition parse_cast (object : object) : res VoteCast :=
  require_exact_keys object [u "kind"; u "vote_id"; u "vote_choice"] [] "vote_cast";;
  vote_id ← parse_vote_id (get object (u "vote_id"));
  choice ← ok_or (visible_message (get object (u "vote_choice")) 200)
    (reject "invalid_vote_choice" "vote_choice is required.");
  mret (MkVoteCast vote_id choice).

Definition vote_from_payload (payload : value) : res VoteCommand :=
  object ← payload_object payload;
  kind ← ok_or (get object (u "kind") ≫= as_str)
    (reject "bad_request" "A canonical vote kind is required.");
  if decide (kind = u "vote") then Create <$> parse_create object
  else if decide (kind = u "vote_cast") then Cast <$> parse_cast object
  else if decide (kind = u "vote_withdraw") then Withdraw <$> parse_reference object "vote_withdraw"
  else if decide (kind = u "vote_close") then Close <$> parse_reference object "vote_close"
  else Err (reject "invalid_message_kind" "Room message kind is unsupported.").

Definition resolve_vote_choice (choice : str) (options : list str) : option str :=
  let choice := clean_message choice 200 in
  if negb (has_visible_text choice) then None else
  let folded := default_case_fold_str choice in
  match List.find (fun option => str_eqb (default_case_fold_str option) folded) options with
  | Some option => Some option
  | None =>
      index ← parse_unsigned usize_max choice;
      if (index =? 0)%N then None else options !! N.to_nat (index - 1)
  end.

Definition prepare_vote_event (id : str) (principal : AuthenticatedPrincipal)
    (participant : Participant) (command : VoteCommand) (sequence : Z) (now : instant) :
    res RoomEvent :=
  require_vote_write_authority principal participant;;
  let extra : gmap str value :=
    match command with
    | Create create =>
        <[u "vote_question" := VString (vc_question create)]>
        (<[u "vote_options" := VStrings (vc_options create)]>
        (<[u "vote_duration_seconds" := VNumber (PosInt (vc_duration_seconds create))]>
        (<[u "vote_deadline_at" := VString (default []
           (to_rfc3339 <$> vote_deadline_at now (vc_duration_seconds create)))]> ∅)))
    | Cast cast =>
        <[u "vote_id" := VString (vk_vote_id cast)]>
        (<[u "vote_choice" := VString (vk_choice cast)]> ∅)
    | Withdraw reference | Close reference =>
        <[u "vote_id" := VString (vr_vote_id reference)]> ∅
    end in
  prepare_authorized_participant_message_event id participant sequence now []
    (message_kind command) extra.

(** ** Canonical vote commands *)

Definition canonical_text (limit : nat) (s : str) : Prop :=
  clean_message s limit = s /\ has_visible_text s = true.

Definition vote_create_ok (c : VoteCreate) : Prop :=
  canonical_text VOTE_QUESTION_CHARACTER_LIMIT (vc_question c) /\
  Forall (canonical_text VOTE_OPTION_CHARACTER_LIMIT) (vc_options c) /\
  NoDup (map default_case_fold_str (vc_options c)) /\
  (MIN_VOTE_OPTIONS <= length (vc_options c) <= MAX_VOTE_OPTIONS)%nat /\
  duration_ok (vc_duration_seconds c) = true /\
  attachment_ids_ok (vc_attachment_ids c).

Definition vote_id_ok (id : str) : Prop :=
  clean_identifier id 128 = id /\ is_message_event_id id = true.

Definition vote_command_ok (c : VoteCommand) : Prop :=
  match c with
  | Create c => vote_create_ok c
  | Cast c => vote_id_ok (vk_vote_id c) /\ canonical_text 200 (vk_choice c)
  | Withdraw r | Close r => vote_id_ok (vr_vote_id r)
  end.

(** What the parser guarantees of a poll it accepts. *)
Definition poll_bounds (c : VoteCreate) : Prop :=
  has_visible_text (vc_question c) = true /\
  (length (vc_question c) <= VOTE_QUESTION_CHARACTER_LIMIT)%nat /\
  Forall (fun o => has_visible_text o = true /\
    (length o <= VOTE_OPTION_CHARACTER_LIMIT)%nat) (vc_options c) /\
  NoDup (map default_case_fold_str (vc_options c)) /\
  (MIN_VOTE_OPTIONS <= length (vc_options c) <= MAX_VOTE_OPTIONS)%nat /\
  duration_ok (vc_duration_seconds c) = true /\
  attachment_ids_ok (vc_attachment_ids c).

(** ** Lemmas *)

Lemma validate_vote_id_ok id id' : validate_vote_id id = Ok id' <-> id' = id /\ vote_id_ok id.
Proof.
  unfold validate_vote_id, vote_id_ok. split.
  - intros Hv. res_inv. bool_to_prop. subst. split_and!; congruence.
  - intros (-> & Hc & Hi). rewrite Hc, Hi, bool_decide_eq_true_2 by done. done.
Qed.

Lemma duration_ok_u32 n : duration_ok n = true -> (n <= u32_max)%N.
Proof.
  unfold duration_ok, MIN_VOTE_DURATION_SECONDS, MAX_VOTE_DURATION_SECONDS, u32_max. lia.
Qed.

Lemma parse_duration_ok o n : parse_duration o = Ok n -> duration_ok n = true.
Proof.
  unfold parse_duration. destruct o as [[]|]; try discriminate.
  - intros Hn%ok_or_Ok. destruct (num_as_u64 n0) as [k|]; simpl in Hn; [|done].
    repeat case_match; congruence.
  - by intros [= <-].
Qed.

Lemma visible_message_Some o limit s :
  visible_message o limit = Some s -> has_visible_text s = true /\ (length s <= limit)%nat.
Proof.
  unfold visible_message. intros H2. apply bind_Some in H2 as (t & _ & Ht).
  simpl in Ht. case_match; [|done]. injection Ht as <-.
  split; [done | apply clean_message_length].
Qed.

Lemma visible_message_canonical limit s :
  canonical_text limit s -> visible_message (Some (VString s)) limit = Some s.
Proof. intros [Hc Hv]. unfold visible_message. simpl. by rewrite Hc, Hv. Qed.

(** Invariant of the loop over the options. *)
Definition options_inv (seen options : list str) : Prop :=
  Forall (fun o => has_visible_text o = true /\ (length o <= VOTE_OPTION_CHARACTER_LIMIT)%nat)
    options /\
  NoDup (map default_case_fold_str options) /\
  (forall f, f ∈ seen <-> f ∈ map default_case_fold_str options) /\
  (length options <= MAX_VOTE_OPTIONS)%nat.

Lemma options_inv_snoc seen options o :
  options_inv seen options ->
  has_visible_text o = true -> (length o <= VOTE_OPTION_CHARACTER_LIMIT)%nat ->
  default_case_fold_str o ∉ seen ->
  (length (options ++ [o]) <= MAX_VOTE_OPTIONS)%nat ->
  options_inv (default_case_fold_str o :: seen) (options ++ [o]).
Proof.
  intros (Hf & Hn & Hs & Hl) Hv Ho Hni Hlen. split_and!; [| | |done].
  - by rewrite Forall_app, Forall_singleton.
  - rewrite map_app. apply NoDup_app. split_and!; [done| |apply NoDup_singleton].
    intros x Hx%Hs Hx'. simpl in Hx'. apply list_elem_of_singleton in Hx'. by subst.
  - intros f. rewrite map_app, elem_of_cons, elem_of_app, Hs. simpl.
    rewrite list_elem_of_singleton. tauto.
Qed.

Lemma parse_options_inv seen options values result :
  options_inv seen options -> parse_options seen options values = Ok result ->
  options_inv (map default_case_fold_str result) result.
Proof.
  revert seen options. induction values as [|v values IH]; intros seen options Hinv Hp; simpl in Hp.
  - injection Hp as <-. destruct Hinv as (Hf & Hn & Hs & Hl). by split_and!.
  - res_inv. case_match eqn:Hskip.
    + by apply (IH seen options).
    + case_match eqn:Hlen; [done|]. unfold contains in *. bool_to_prop.
      apply (IH _ _) in Hp; [done|]. apply options_inv_snoc; try done; [|lia].
      apply clean_message_length.
Qed.

Lemma parse_options_canonical seen options os :
  options_inv seen options ->
  Forall (canonical_text VOTE_OPTION_CHARACTER_LIMIT) os ->
  NoDup (map default_case_fold_str (options ++ os)) ->
  (length (options ++ os) <= MAX_VOTE_OPTIONS)%nat ->
  parse_options seen options (map VString os) = Ok (options ++ os).
Proof.
  revert seen options. induction os as [|o os IH]; intros seen options Hinv Hos Hnd Hlen; simpl.
  - by rewrite app_nil_r.
  - apply Forall_cons in Hos as [[Hc Hv] Hos]. rewrite Hc, Hv. simpl.
    assert (default_case_fold_str o ∉ seen) as Hni.
    { destruct Hinv as (_ & _ & Hs & _). rewrite Hs.
      rewrite map_app in Hnd. apply NoDup_app in Hnd as (_ & Hd & _).
      intros Hin. apply (Hd _ Hin). simpl. by left. }
    unfold contains. rewrite bool_decide_eq_false_2 by done.
    rewrite length_app in Hlen. simpl in Hlen.
    rewrite bool_decide_eq_false_2 by (rewrite length_app; simpl; lia).
    replace (options ++ o :: os) with ((options ++ [o]) ++ os) in * by (by rewrite <- app_assoc).
    apply IH; try done.
    + apply options_inv_snoc; try done; [|rewrite length_app; simpl; lia].
      rewrite <- Hc. apply clean_message_length.
    + rewrite !length_app. simpl. lia.
Qed.

Lemma options_inv_nil : options_inv [] [].
Proof. split_and!; [constructor|constructor|done|simpl; lia]. Qed.

Lemma canonical_text_weaken m n s : (m <= n)%nat -> canonical_text m s -> canonical_text n s.
Proof.
  intros Hmn [Hc Hv]. split; [|done]. apply clean_message_fixpoint in Hc as (? & ? & ?).
  apply clean_message_fixpoint. split_and!; [done..|lia].
Qed.

Lemma require_exact_keys_ok o required optional kind :
  any (fun key => negb (contains_key o key)) required = false ->
  any (fun key => negb (contains required key) && negb (contains optional key)) (keys o) = false ->
  require_exact_keys o required optional kind = Ok tt.
Proof. intros H2 H3. unfold require_exact_keys. by rewrite H2, H3. Qed.

Lemma parse_duration_PosInt d :
  duration_ok d = true -> parse_duration (Some (VNumber (PosInt d))) = Ok d.
Proof.
  intros Hd. pose proof (duration_ok_u32 d Hd) as Hu. apply N.leb_le in Hu.
  unfold parse_duration. simpl. by rewrite Hu, Hd.
Qed.

Lemma parse_vote_id_canonical id : vote_id_ok id -> parse_vote_id (Some (VString id)) = Ok id.
Proof. intros Hid. by apply validate_vote_id_ok. Qed.

Lemma parse_reference_roundtrip r c :
  c = Withdraw r \/ c = Close r -> vote_id_ok (vr_vote_id r) ->
  vote_from_payload (vote_to_payload c) = Ok c.
Proof.
  destruct r as [id]. intros [-> | ->] Hid;
    unfold vote_from_payload, vote_to_payload; cbn -[parse_reference get]; eval_get;
    cbn -[parse_reference get];
    [rewrite 2 decide_False, decide_True by done | rewrite 3 decide_False, decide_True by done];
    unfold parse_reference; rewrite require_exact_keys_ok by done;
    cbn -[get parse_vote_id]; eval_get; by rewrite parse_vote_id_canonical.
Qed.

Lemma parse_create_roundtrip c :
  vote_create_ok c ->
  vote_from_payload (vote_to_payload (Create c)) = Ok (Create c).
Proof.
  destruct c as [q os d ids]. intros (Hq & Hos & Hnd & Hlen & Hd & Hids). cbn in Hq, Hos, Hnd, Hlen, Hd, Hids.
  unfold vote_from_payload, vote_to_payload. cbn -[parse_create get]. eval_get.
  cbn -[parse_create get]. rewrite decide_True by done.
  unfold parse_create. rewrite require_exact_keys_ok by done.
  cbn -[get parse_options parse_attachment_ids visible_message parse_duration]. eval_get.
  rewrite visible_message_canonical by done.
  cbn -[parse_options parse_attachment_ids parse_duration].
  rewrite parse_options_canonical; [|apply options_inv_nil|done..|simpl; lia].
  cbn -[parse_attachment_ids parse_duration]. rewrite bool_decide_eq_false_2 by lia.
  rewrite parse_duration_PosInt by done. cbn -[parse_attachment_ids].
  by rewrite parse_attachment_ids_complete.
Qed.

(** ** Theorems *)

(** every canonical vote command is read back from the payload it encodes to. *)
Theorem vote_payload_roundtrip c :
  vote_command_ok c -> vote_from_payload (vote_to_payload c) = Ok c.
Proof.
  destruct c as [c|[id choice]|[id]|[id]]; simpl; intros Hok.
  - by apply parse_create_roundtrip.
  - destruct Hok as [Hid Hch]. unfold vote_from_payload, vote_to_payload.
    cbn -[parse_cast get]. eval_get. cbn -[parse_cast get].
    rewrite decide_False, decide_True by done. unfold parse_cast.
    rewrite require_exact_keys_ok by done.
    cbn -[get visible_message parse_vote_id]. eval_get.
    rewrite parse_vote_id_canonical by done. cbn -[visible_message].
    by rewrite visible_message_canonical.
  - apply (parse_reference_roundtrip (MkVoteReference id)); [by left | done].
  - apply (parse_reference_roundtrip (MkVoteReference id)); [by right | done].
Qed.

Theorem vote_from_payload_bounds p c :
  vote_from_payload p = Ok (Create c) -> poll_bounds c.
Proof.
  unfold vote_from_payload. intros Hp. res_inv.
  repeat case_match; res_inv; simplify_eq.
  unfold parse_create in *. res_inv. bool_to_prop.
  match goal with Ho : parse_options _ _ _ = Ok _ |- _ =>
    apply parse_options_inv in Ho; [|apply options_inv_nil];
    destruct Ho as (Hf & Hn & _ & Hl) end.
  match goal with Hv : visible_message _ _ = Some _ |- _ =>
    apply visible_message_Some in Hv as [Hv Hlen] end.
  split_and!; simpl; try done; try lia.
  - by eapply parse_duration_ok.
  - by eapply parse_attachment_ids_ok.
Qed.

(** A poll's ballots: every resolved choice is one of its options, and the
    text of an option selects exactly that option. *)
Theorem resolve_vote_choice_spec options :
  (forall choice o, resolve_vote_choice choice options = Some o -> o ∈ options) /\
  (Forall (canonical_text VOTE_OPTION_CHARACTER_LIMIT) options ->
   NoDup (map default_case_fold_str options) ->
   forall o, o ∈ options -> resolve_vote_choice o options = Some o).
Proof.
  split.
  - intros choice o. unfold resolve_vote_choice. case_match; [done|].
    case_match eqn:Hfind.
    + intros [= <-]. apply find_some in Hfind as [Hin _]. by apply list_elem_of_In.
    + intros Hb. apply bind_Some in Hb as (i & _ & Hi). case_match; [done|].
      by eapply list_elem_of_lookup_2.
  - intros Hos Hnd o Ho. unfold resolve_vote_choice.
    rewrite Forall_forall in Hos.
    destruct (canonical_text_weaken VOTE_OPTION_CHARACTER_LIMIT 200 o ltac:(unfold VOTE_OPTION_CHARACTER_LIMIT; lia)
      (Hos o Ho)) as [Hc Hv].
    rewrite Hc, Hv. simpl.
    destruct (List.find _ options) as [o'|] eqn:Hfind.
    + apply find_some in Hfind as [Hin Heq]. apply list_elem_of_In in Hin.
      unfold str_eqb in Heq. bool_to_prop. f_equal.
      clear Hos Hc Hv. induction options as [|x xs IH]; [by apply not_elem_of_nil in Ho|].
      simpl in Hnd. apply NoDup_cons in Hnd as [Hni Hnd].
      assert (forall y, y ∈ xs -> default_case_fold_str y ≠ default_case_fold_str x) as Hx.
      { intros y Hy Hxy. apply Hni. rewrite <- Hxy. by apply list_elem_of_fmap_2. }
      apply elem_of_cons in Ho as [->|Ho]; apply elem_of_cons in Hin as [->|Hin]; auto.
      * by destruct (Hx o' Hin).
      * by destruct (Hx o Ho).
    + exfalso. apply (find_none _ _) with (x := o) in Hfind; [|by apply list_elem_of_In].
      unfold str_eqb in Hfind. by apply bool_decide_eq_false in Hfind.
Qed.
End vote.

(** ** Concrete inputs *)

Definition ascii_case_fold : Caseless := to_ascii_lowercase.

Definition demo_poll : VoteCreate :=
  {| vc_question := u "Ship it?"; vc_options := [u "Yes"; u "No"];
     vc_duration_seconds := 60%N; vc_attachment_ids := [] |}.

Lemma vote_payload_roundtrip_witness :
  @vote_command_ok ascii_general_category ascii_case_fold (Create demo_poll) /\
  @vote_from_payload ascii_general_category ascii_case_fold (vote_to_payload (Create demo_poll)) =
    Ok (Create demo_poll).
Proof.
  assert (@vote_command_ok ascii_general_category ascii_case_fold (Create demo_poll)) as Hok.
  { split; [by vm_compute|]. split; [by repeat constructor|].
    split; [decide_now|].
    split; [simpl; unfold MIN_VOTE_OPTIONS, MAX_VOTE_OPTIONS; lia|]. split; [done|].
    split; [unfold MAX_MESSAGE_ATTACHMENTS_PER_EVENT; simpl; lia | split; constructor]. }
  split; [exact Hok | exact (@vote_payload_roundtrip ascii_general_category ascii_case_fold _ Hok)].
Defined.

Lemma vote_from_payload_bounds_witness : poll_bounds (H0 := ascii_case_fold) (H := ascii_general_category) demo_poll.
Proof.
  apply (@vote_from_payload_bounds ascii_general_category ascii_case_fold
    (vote_to_payload (Create demo_poll))). vm_compute. reflexivity.
Defined.

Lemma resolve_vote_choice_spec_witness :
  @resolve_vote_choice ascii_general_category ascii_case_fold (u "Yes") (vc_options demo_poll) =
    Some (u "Yes").
Proof.
  apply (@resolve_vote_choice_spec ascii_general_category ascii_case_fold (vc_options demo_poll)).
  - by repeat constructor.
  - decide_now.
  - left.
Defined.

(** A ballot may also name an option by its number, in any case by its text. *)
Example resolve_by_number :
  @resolve_vote_choice ascii_general_category ascii_case_fold (u " +2 ") (vc_options demo_poll) =
    Some (u "No") /\
  @resolve_vote_choice ascii_general_category ascii_case_fold (u "YES") (vc_options demo_poll) =
    Some (u "Yes") /\
  @resolve_vote_choice ascii_general_category ascii_case_fold (u "0") (vc_options demo_poll) = None.
Proof. by vm_compute. Qed.
