(* ===== verification/Mutation.v ===== *)
(** * Editing and deleting messages (agentsassemble-domain/src/message_mutations.rs)

    Who may change a stored message, the record the change leaves, and the
    mutation event that announces it. *)

From Stdlib Require Import String.
From stdpp Require Import gmap.
From S2P Require Import Prelude Text Json Model Command.

Record MessageEdit : Type := MkMessageEdit { me_event_id : str; me_content : str }.
Record MessageDelete : Type := MkMessageDelete { md_event_id : str }.
Inductive MutableMessageKind : Type := KindMessage | KindVote.
#[global] Instance MutableMessageKind_eq_dec : EqDecision MutableMessageKind.
Proof. solve_decision. Defined.

(** ** Payloads *)

Definition exact_object (payload : value) (expected_keys : list str) (action : string) : res object :=
  object ← payload_object payload;
  reject_if (negb (bool_decide (length object = length expected_keys)) ||
             any (fun key => negb (contains_key object key)) expected_keys)
    (reject_str "bad_request" (u action ++ u " payload has an invalid shape."));;
  mret object.

Definition exact_event_id (value : option value) : res str :=
  let invalid := reject "bad_request" "event_id must be a valid message identifier." in
  event_id ← ok_or (value ≫= as_str) invalid;
  require (is_message_event_id event_id) invalid;;
  mret event_id.

Definition message_edit_from_payload (payload : value) : res MessageEdit :=
  object ← exact_object payload [u "content"; u "event_id"] "message.edit";
  event_id ← exact_event_id (get object (u "event_id"));
  content ← ok_or (get object (u "content") ≫= as_str)
    (reject "bad_request" "message.edit content must be a string.");
  mret {| me_event_id := event_id; me_content := clean_message content MAX_MESSAGE_CHARACTERS |}.

Definition message_delete_from_payload (payload : value) : res MessageDelete :=
  object ← exact_object payload [u "event_id"] "message.delete";
  event_id ← exact_event_id (get object (u "event_id"));
  mret {| md_event_id := event_id |}.

(** ** Authority *)

Definition require_modify_capability (principal : AuthenticatedPrincipal) : res unit :=
  reject_if (bool_decide (pr_client_kind principal = AgentBridge) ||
             negb (cap_message_modify (pr_capabilities principal)))
    (reject "permission_denied" "This room session cannot modify messages.").

Definition require_canonical_actor (event : RoomEvent) : res unit :=
  let actor := ev_actor event in
  reject_if (bool_decide (ac_participant_id actor = []) ||
             negb (contains [u "human"; u "agent"] (ac_participant_type actor)) ||
             negb (bool_decide (ev_participant_id event = Some (ac_participant_id actor))) ||
             negb (bool_decide (ev_participant_type event = Some (ac_participant_type actor))) ||
             negb (bool_decide (ev_actor_id event = Some (ac_participant_id actor))) ||
             negb (bool_decide (ev_actor_type event = Some (ac_participant_type actor))))
    (reject "invalid_state" "Stored message actor authority is inconsistent.").

Definition mutable_kind (message_kind : option str) : option MutableMessageKind :=
  match message_kind with
  | Some kind =>
      if decide (kind = u "message") then Some KindMessage
      else if decide (kind = u "vote") then Some KindVote else None
  | None => None
  end.

Definition require_mutable_message (event : RoomEvent) : res MutableMessageKind :=
  require (bool_decide (ev_event_type event = u "message_final"))
    (reject "message_not_found" "Message was not found.");;
  reject_if (bool_decide (ev_extra event !! u "message_deleted" = Some (VBool true)))
    (reject "message_deleted" "Message was already deleted.");;
  kind ← ok_or (mutable_kind (ev_message_kind event))
    (reject "unsupported_message_type" "This message type cannot be changed here.");
  require_canonical_actor event;;
  mret kind.

Definition authorize_message_edit (principal : AuthenticatedPrincipal) (event : RoomEvent) :
    res unit :=
  require_modify_capability principal;;
  kind ← require_mutable_message event;
  reject_if (negb (bool_decide (kind = KindMessage)) ||
             negb (bool_decide (ac_participant_type (ev_actor event) = u "human")) ||
             negb (bool_decide (ac_participant_id (ev_actor event) = pr_participant_id principal)))
    (reject "permission_denied" "Only the author can edit this message.").

Definition authorize_message_delete (principal : AuthenticatedPrincipal) (event : RoomEvent)
    (author : Participant) : res MutableMessageKind :=
  require_modify_capability principal;;
  kind ← require_mutable_message event;
  reject_if (negb (bool_decide (pt_room_id author = ev_room_id event)) ||
             negb (bool_decide (pt_participant_id author = ac_participant_id (ev_actor event))) ||
             negb (bool_decide (pt_participant_type author = ac_participant_type (ev_actor event))))
    (reject "invalid_state" "Stored message author authority is inconsistent.");;
  let own_human := bool_decide (pt_participant_type author = u "human") &&
    bool_decide (pt_participant_id author = pr_participant_id principal) in
  let owned_agent := bool_decide (pt_participant_type author = u "agent") &&
    bool_decide (pt_owner_id author = pr_participant_id principal) in
  reject_if (negb (pr_is_operator principal) && negb own_human && negb owned_agent)
    (reject "permission_denied" "You cannot delete this message.");;
  mret kind.

(** ** The stored records and the announcing events *)

Section mutation.
Context `{Chrono}.

Definition prepare_updated_message (target : RoomEvent) (content : str) (edited_at : instant) :
    RoomEvent :=
  target <| ev_content := Some content |>
    <| ev_extra := <[u "edited_at" := VString (datetime_json edited_at)]> (ev_extra target) |>.

Definition prepare_deleted_message (target : RoomEvent) (kind : MutableMessageKind)
    (deleted_at : instant) : RoomEvent :=
  let extra := delete (u "target_agent_id") (ev_extra target) in
  let extra := <[u "attachments" := VArray []]> extra in
  let extra := <[u "message_deleted" := VBool true]> extra in
  let extra := <[u "deleted_at" := VString (datetime_json deleted_at)]> extra in
  let extra :=
    match kind with
    | KindVote =>
        <[u "vote_deadline_at" := VString []]>
        (<[u "vote_duration_seconds" := VNull]>
        (<[u "vote_options" := VArray []]>
        (<[u "vote_question" := VString []]> extra)))
    | KindMessage => extra
    end in
  target <| ev_content := Some [] |> <| ev_extra := extra |>.

Definition mutation_event (id : str) (principal : AuthenticatedPrincipal) (target : RoomEvent)
    (event_type : string) (sequence : Z) (created_at : instant) (content : option str)
    (timestamp_key : string) : RoomEvent :=
  {| ev_v := 1;
     ev_id := id;
     ev_seq := sequence;
     ev_created_at := created_at;
     ev_room_id := ev_room_id target;
     ev_event_type := u event_type;
     ev_actor := MkActor (pr_participant_id principal) (u "human");
     ev_participant_id := Some (pr_participant_id principal);
     ev_participant_type := Some (u "human");
     ev_actor_id := Some (pr_participant_id principal);
     ev_actor_type := Some (u "human");
     ev_display_name := Some (pr_display_name principal);
     ev_content := content;
     ev_message_kind := None;
     ev_extra :=
       <[u timestamp_key := VString (datetime_json created_at)]>
       (<[u "target_seq" := VInt (ev_seq target)]>
       (<[u "target_event_id" := VString (ev_id target)]> ∅)) |}.

Definition prepare_message_updated_event (id : str) (principal : AuthenticatedPrincipal)
    (target : RoomEvent) (content : str) (sequence : Z) (edited_at : instant) : RoomEvent :=
  mutation_event id principal target "message_updated" sequence edited_at (Some content) "edited_at".

Definition prepare_message_deleted_event (id : str) (principal : AuthenticatedPrincipal)
    (target : RoomEvent) (sequence : Z) (deleted_at : instant) : RoomEvent :=
  mutation_event id principal target "message_deleted" sequence deleted_at None "deleted_at".

(** ** The intended policy *)

(** A current lobby message whose four actor fields agree. *)
Definition current_message (event : RoomEvent) (kind : MutableMessageKind) : Prop :=
  is_current_lobby_message event = true /\
  mutable_kind (ev_message_kind event) = Some kind /\
  ac_participant_id (ev_actor event) ≠ [] /\
  ac_participant_type (ev_actor event) ∈ [u "human"; u "agent"] /\
  ev_participant_id event = Some (ac_participant_id (ev_actor event)) /\
  ev_participant_type event = Some (ac_participant_type (ev_actor event)) /\
  ev_actor_id event = Some (ac_participant_id (ev_actor event)) /\
  ev_actor_type event = Some (ac_participant_type (ev_actor event)).

Definition may_modify (principal : AuthenticatedPrincipal) : Prop :=
  pr_client_kind principal ≠ AgentBridge /\ cap_message_modify (pr_capabilities principal) = true.

Definition may_delete (principal : AuthenticatedPrincipal) (author : Participant) : Prop :=
  pr_is_operator principal = true \/
  (pt_participant_type author = u "human" /\ pt_participant_id author = pr_participant_id principal) \/
  (pt_participant_type author = u "agent" /\ pt_owner_id author = pr_participant_id principal).

Definition is_author_of (author : Participant) (event : RoomEvent) : Prop :=
  pt_room_id author = ev_room_id event /\
  pt_participant_id author = ac_participant_id (ev_actor event) /\
  pt_participant_type author = ac_participant_type (ev_actor event).

(** ** Lemmas *)

Lemma require_modify_capability_ok principal w :
  require_modify_capability principal = Ok w <-> may_modify principal.
Proof.
  unfold require_modify_capability, may_modify. rewrite reject_if_Ok, orb_false_iff,
    negb_false_iff, bool_decide_eq_false. done.
Qed.

Lemma require_canonical_actor_ok event w :
  require_canonical_actor event = Ok w <->
  ac_participant_id (ev_actor event) ≠ [] /\
  ac_participant_type (ev_actor event) ∈ [u "human"; u "agent"] /\
  ev_participant_id event = Some (ac_participant_id (ev_actor event)) /\
  ev_participant_type event = Some (ac_participant_type (ev_actor event)) /\
  ev_actor_id event = Some (ac_participant_id (ev_actor event)) /\
  ev_actor_type event = Some (ac_participant_type (ev_actor event)).
Proof.
  unfold require_canonical_actor, contains.
  rewrite reject_if_Ok, !orb_false_iff, !negb_false_iff, !bool_decide_eq_true, bool_decide_eq_false.
  tauto.
Qed.

Lemma require_mutable_message_ok event kind :
  require_mutable_message event = Ok kind <-> current_message event kind.
Proof.
  unfold require_mutable_message, current_message, is_current_lobby_message. split.
  - intros Hm. res_inv. rewrite require_canonical_actor_ok in *.
    split; [|done]. by rewrite andb_true_iff, negb_true_iff.
  - intros (Hc & Hk & Ha). apply andb_true_iff in Hc as [-> Hd%negb_true_iff]. rewrite Hd.
    simpl. rewrite Hk. simpl. by rewrite (proj2 (require_canonical_actor_ok event tt)).
Qed.

(** ** Theorems *)

(** Editing is allowed exactly to the human author of an ordinary message that
    is still current. *)
Theorem authorize_message_edit_iff principal event :
  authorize_message_edit principal event = Ok tt <->
  may_modify principal /\ current_message event KindMessage /\
  ac_participant_type (ev_actor event) = u "human" /\
  ac_participant_id (ev_actor event) = pr_participant_id principal.
Proof.
  unfold authorize_message_edit. split.
  - intros Ha. res_inv. bool_to_prop. subst.
    rewrite require_modify_capability_ok, require_mutable_message_ok in *. done.
  - intros (Hm & Hc & Ht & Hp).
    rewrite (proj2 (require_modify_capability_ok principal tt)) by done. simpl.
    rewrite (proj2 (require_mutable_message_ok event KindMessage)) by done. simpl.
    by rewrite !bool_decide_eq_true_2.
Qed.

(** Deletion is allowed exactly to the operator, the human author, and the owner
    of the agent that wrote the message, of a message still current. *)
Theorem authorize_message_delete_iff principal event author kind :
  authorize_message_delete principal event author = Ok kind <->
  may_modify principal /\ current_message event kind /\ is_author_of author event /\
  may_delete principal author.
Proof.
  unfold authorize_message_delete. split.
  - intros Ha. res_inv. bool_to_prop.
    rewrite require_modify_capability_ok, require_mutable_message_ok in *.
    split_and!; [done|done|by split_and!|]. unfold may_delete.
    match goal with Hd : (negb _ && negb _ && negb _)%bool = false |- _ => revert Hd end.
    destruct (pr_is_operator principal); [by left|]. simpl.
    rewrite !andb_false_iff, !negb_false_iff, !andb_true_iff, !bool_decide_eq_true. tauto.
  - intros (Hm & Hc & (? & ? & ?) & Hd).
    rewrite (proj2 (require_modify_capability_ok principal tt)) by done. simpl.
    rewrite (proj2 (require_mutable_message_ok event kind)) by done. simpl.
    rewrite (bool_decide_eq_true_2 (pt_room_id _ = _)), 
      (bool_decide_eq_true_2 (pt_participant_id _ = ac_participant_id _)),
      (bool_decide_eq_true_2 (pt_participant_type _ = ac_participant_type _)) by done. simpl.
    destruct Hd as [->|[[??]|[??]]]; [done| |].
    + rewrite (bool_decide_eq_true_2 (pt_participant_type _ = u "human")),
        (bool_decide_eq_true_2 (pt_participant_id _ = pr_participant_id _)) by done.
      simpl. by rewrite andb_false_r.
    + rewrite (bool_decide_eq_true_2 (pt_participant_type _ = u "agent")),
        (bool_decide_eq_true_2 (pt_owner_id _ = _)) by done.
      simpl. by rewrite andb_false_r.
Qed.

(** A deleted message keeps its place and its author, has lost its text, its
    attachments and its poll, and can be neither edited nor deleted again. *)
Theorem deleted_message_is_final target kind deleted_at :
  let deleted := prepare_deleted_message target kind deleted_at in
  is_current_lobby_message deleted = false /\
  (forall principal, is_ok (authorize_message_edit principal deleted) = false) /\
  (forall principal author, is_ok (authorize_message_delete principal deleted author) = false) /\
  ev_content deleted = Some [] /\ ev_extra deleted !! u "attachments" = Some (VArray []) /\
  ev_extra deleted !! u "target_agent_id" = None /\
  (kind = KindVote -> ev_extra deleted !! u "vote_question" = Some (VString []) /\
    ev_extra deleted !! u "vote_options" = Some (VArray [])) /\
  (ev_id deleted, ev_seq deleted, ev_room_id deleted, ev_actor deleted, ev_created_at deleted) =
  (ev_id target, ev_seq target, ev_room_id target, ev_actor target, ev_created_at target).
Proof.
  intros deleted.
  assert (ev_extra deleted !! u "message_deleted" = Some (VBool true)) as Hd
    by (destruct kind; subst deleted; simpl; by map_lit).
  assert (is_current_lobby_message deleted = false) as Hc.
  { unfold is_current_lobby_message. rewrite Hd. apply andb_false_r. }
  assert (forall k, ~ current_message deleted k) as Hno by (intros k [Hk _]; congruence).
  split_and!; [done| | | | | | |done].
  - intros principal. destruct (authorize_message_edit principal deleted) as [[]|] eqn:E; [|done].
    apply authorize_message_edit_iff in E as (_ & E & _). by apply Hno in E.
  - intros principal author.
    destruct (authorize_message_delete principal deleted author) as [k|] eqn:E; [|done].
    apply authorize_message_delete_iff in E as (_ & E & _). by apply Hno in E.
  - by destruct kind.
  - destruct kind; subst deleted; simpl; by map_lit.
  - destruct kind; subst deleted; simpl; by map_lit.
  - intros ->. subst deleted; simpl. by map_lit.
Qed.
End mutation.
