(* ===== verification/Projection.v ===== *)
(** * What a principal may see (agentsassemble-domain/src/projection.rs)

    The projection of durable events and command results for one viewer:
    private keys are removed at every depth, ballots lose the identity and the
    choice of their voter, and owner-only events are hidden from others. *)

From Stdlib Require Import String.
From stdpp Require Import gmap.
From S2P Require Import Prelude Text Json Model Command Vote.

#[local] Set Warnings "-register-all".

Definition PRIVATE_PUBLIC_KEYS : list str := [
  u "absolute_path"; u "active_source_event_id"; u "argv"; u "bridge_handle_id"; u "bridge_pid";
  u "command_configured"; u "config_path"; u "credentials"; u "env"; u "executable";
  u "executable_identity"; u "file_path"; u "inflight_event_ids"; u "inflight_inputs";
  u "lifecycle_intent_action"; u "lifecycle_intent_id"; u "lifecycle_intent_status"; u "path";
  u "pending_event_ids"; u "pending_event_observation_kinds"; u "pending_inputs"; u "pid";
  u "provider_endpoint"; u "provider_observation_kind"; u "provider_session_id";
  u "provider_turn_id"; u "reactivation_operation_id"; u "reported_provider_pid";
  u "resolved_executable"; u "room_publication_digest"; u "room_publication_proof";
  u "room_publication_turn_id"; u "runtime_handle_id"; u "runtime_lease_token";
  u "runtime_owner_id"; u "runtime_profile_key"; u "runtime_profile_version"; u "stderr_path";
  u "stderr_tail"; u "stdout_path"; u "terminal_tail"; u "ticket"; u "token"; u "workspace";
  u "workspace_identity"; u "write_budget_stream_bytes"; u "write_budget_stream_commands";
  u "write_budget_turn_id"].

Definition is_private_key (key : str) : bool := contains PRIVATE_PUBLIC_KEYS key.

Fixpoint project_value (v : value) : value :=
  match v with
  | VArray values => VArray (map project_value values)
  | VObject values =>
      VObject ((fix go m :=
        match m with
        | [] => []
        | (key, v) :: m' => if is_private_key key then go m' else (key, project_value v) :: go m'
        end) values)
  | _ => v
  end.

(** [extra.get(key).and_then(Value::as_str)] *)
Definition extra_str (event : RoomEvent) (key : str) : option str := ev_extra event !! key ≫= as_str.

Definition room_event_is_owner_only (event : RoomEvent) : bool :=
  any (fun key => bool_decide (extra_str event key = Some (u "owner")))
    [u "visibility"; u "audience"].

Definition event_is_visible_to (event : RoomEvent) (principal : AuthenticatedPrincipal) : bool :=
  let participant := default [] (ev_participant_id event) in
  let owner := default [] (extra_str event (u "owner_id")) in
  any (fun candidate => negb (bool_decide (candidate = [])) &&
         (bool_decide (candidate = pr_principal_id principal) ||
          bool_decide (candidate = pr_participant_id principal)))
    [participant; owner].

Definition is_private_vote (event : RoomEvent) : bool :=
  match ev_message_kind event with
  | Some kind => contains [u "vote_cast"; u "vote_withdraw"; u "vote_close"] kind
  | None => false
  end.

Definition privacy_minimized_vote_transition (event : RoomEvent) : RoomEvent :=
  if negb (is_private_vote event) then event else
  event <| ev_actor := MkActor [] [] |>
    <| ev_participant_id := None |> <| ev_participant_type := None |>
    <| ev_actor_id := None |> <| ev_actor_type := None |>
    <| ev_display_name := None |> <| ev_content := Some [] |>
    <| ev_extra := filter (fun e => e.1 = u "vote_id") (ev_extra event) |>.

(** The event with its private keys removed, before the visibility check. *)
Definition project_extra (extra : gmap str value) : gmap str value :=
  project_value <$> filter (fun e => is_private_key e.1 = false) extra.

Definition hidden_event (event : RoomEvent) : RoomEvent :=
  {| ev_v := ev_v event; ev_id := ev_id event; ev_seq := ev_seq event;
     ev_created_at := ev_created_at event; ev_room_id := ev_room_id event;
     ev_event_type := u "event_hidden"; ev_actor := MkActor [] [];
     ev_participant_id := None; ev_participant_type := None; ev_actor_id := None;
     ev_actor_type := None; ev_display_name := None; ev_content := None;
     ev_message_kind := None;
     ev_extra := {[ u "visibility" := VString (u "owner") ]} |}.

Definition public_event_for_principal (event : RoomEvent) (principal : AuthenticatedPrincipal) :
    RoomEvent :=
  let projected := event <| ev_extra := project_extra (ev_extra event) |> in
  let projected := privacy_minimized_vote_transition projected in
  if negb (room_event_is_owner_only projected) || event_is_visible_to projected principal
  then
    if room_event_is_owner_only projected
    then projected <| ev_extra :=
           <[u "visibility" := VString (u "owner")]> (delete (u "audience") (ev_extra projected)) |>
    else projected
  else hidden_event projected.

(** ** serde's encoding of an event

    [RoomEvent::deserialize] takes the named fields out of an object and
    collects the others in [extra]; serialization writes the fields that are
    present and then [extra]. *)

Section codec.
Context `{Chrono}.

Definition EVENT_FIELDS : list str := [
  u "v"; u "id"; u "seq"; u "created_at"; u "room_id"; u "type"; u "actor"; u "participant_id";
  u "participant_type"; u "actor_id"; u "actor_type"; u "display_name"; u "content"; u "message_kind"].

Definition get_string (m : object) (key : string) : option str := get m (u key) ≫= as_str.

(** A missing or null [Option<String>] field is [None], any other is a string. *)
Definition get_opt_string (m : object) (key : string) : option (option str) :=
  match get m (u key) with
  | None | Some VNull => Some None
  | Some (VString s) => Some (Some s)
  | Some _ => None
  end.

Definition deserialize_actor (v : value) : option Actor :=
  match v with
  | VObject m =>
      id ← get_string m "participant_id";
      ty ← get_string m "participant_type";
      Some (MkActor id ty)
  | VArray [VString id; VString ty] => Some (MkActor id ty)
  | _ => None
  end.

Definition deserialize_event (v : value) : option RoomEvent :=
  m ← as_object v;
  version ← get m (u "v") ≫= as_u64;
  if (u32_max <? version)%N then None else
  id ← get_string m "id";
  seq ← get m (u "seq") ≫= as_i64;
  created_at ← get_string m "created_at" ≫= parse_rfc3339;
  room_id ← get_string m "room_id";
  event_type ← get_string m "type";
  actor ← get m (u "actor") ≫= deserialize_actor;
  participant_id ← get_opt_string m "participant_id";
  participant_type ← get_opt_string m "participant_type";
  actor_id ← get_opt_string m "actor_id";
  actor_type ← get_opt_string m "actor_type";
  display_name ← get_opt_string m "display_name";
  content ← get_opt_string m "content";
  message_kind ← get_opt_string m "message_kind";
  Some {| ev_v := Z.of_N version; ev_id := id; ev_seq := seq; ev_created_at := created_at;
          ev_room_id := room_id; ev_event_type := event_type; ev_actor := actor;
          ev_participant_id := participant_id; ev_participant_type := participant_type;
          ev_actor_id := actor_id; ev_actor_type := actor_type;
          ev_display_name := display_name; ev_content := content;
          ev_message_kind := message_kind;
          ev_extra := list_to_map (filter (fun e => e.1 ∉ EVENT_FIELDS) m) |}.

Definition opt_field (key : string) (o : option str) : object :=
  match o with Some s => [(u key, VString s)] | None => [] end.

Definition serialize_event (e : RoomEvent) : value :=
  VObject
    ([(u "v", VInt (ev_v e)); (u "id", VString (ev_id e)); (u "seq", VInt (ev_seq e));
      (u "created_at", VString (datetime_json (ev_created_at e)));
      (u "room_id", VString (ev_room_id e)); (u "type", VString (ev_event_type e));
      (u "actor", VObject [
        (u "participant_id", VString (ac_participant_id (ev_actor e)));
        (u "participant_type", VString (ac_participant_type (ev_actor e)))])] ++
     opt_field "participant_id" (ev_participant_id e) ++
     opt_field "participant_type" (ev_participant_type e) ++
     opt_field "actor_id" (ev_actor_id e) ++
     opt_field "actor_type" (ev_actor_type e) ++
     opt_field "display_name" (ev_display_name e) ++
     opt_field "content" (ev_content e) ++
     opt_field "message_kind" (ev_message_kind e) ++
     map_to_list (ev_extra e)).

(** Serializing an event cannot fail: its keys are strings and its values JSON. *)
Fixpoint public_value_for_principal (principal : AuthenticatedPrincipal) (v : value) : value :=
  match deserialize_event v with
  | Some event => serialize_event (public_event_for_principal event principal)
  | None =>
      match v with
      | VArray values => VArray (map (public_value_for_principal principal) values)
      | VObject values =>
          VObject ((fix go m :=
            match m with
            | [] => []
            | (key, v) :: m' =>
                if is_private_key key then go m'
                else (key, public_value_for_principal principal v) :: go m'
            end) values)
      | _ => v
      end
  end.
End codec.

(** ** Facts *)

(** No private key occurs in the value, at any depth. *)
Inductive no_private : value -> Prop :=
| np_null : no_private VNull
| np_bool b : no_private (VBool b)
| np_number n : no_private (VNumber n)
| np_string s : no_private (VString s)
| np_array l : Forall no_private l -> no_private (VArray l)
| np_object m :
    Forall (fun e => is_private_key e.1 = false /\ no_private e.2) m -> no_private (VObject m).

Lemma project_value_no_private v : no_private (project_value v).
Proof.
  induction v as [| | | |l IH|m IH] using value_nested_ind; simpl; constructor.
  - by apply Forall_fmap.
  - induction IH as [|[k v] m Hv _ IHm]; simpl; [constructor|].
    destruct (is_private_key k) eqn:Hk; [done|]. by constructor.
Qed.

Lemma project_value_id v : no_private v -> project_value v = v.
Proof.
  induction v as [| | | |l IH|m IH] using value_nested_ind; intros Hv; try done; simpl; f_equal.
  - inversion Hv as [| | | |? Hl|]; subst. pose proof (Forall_mp _ _ _ IH Hl) as H.
    clear -H. induction H as [|v l Hv _ IHl]; simpl; [done|]. by rewrite Hv, IHl.
  - inversion Hv as [| | | | |? Hm]; subst. clear Hv.
    induction IH as [|[k v] m Hv _ IHm]; [done|]. simpl in *.
    apply Forall_cons in Hm as [[Hk Hnp] Hm]. simpl in *. rewrite Hk, Hv, IHm; done.
Qed.

Lemma project_value_idem v : project_value (project_value v) = project_value v.
Proof. apply project_value_id, project_value_no_private. Qed.

Lemma project_extra_lookup extra k :
  project_extra extra !! k = if is_private_key k then None else project_value <$> extra !! k.
Proof.
  unfold project_extra. rewrite lookup_fmap. destruct (is_private_key k) eqn:Hk.
  - rewrite (proj2 (map_lookup_filter_None _ _ _)); [done|]. right. intros v _ Hp.
    simpl in Hp. congruence.
  - f_equal. apply option_eq. intros v. rewrite map_lookup_filter_Some. simpl. tauto.
Qed.

Lemma project_extra_idem extra : project_extra (project_extra extra) = project_extra extra.
Proof.
  apply map_eq. intros k. rewrite !project_extra_lookup.
  case_match; [done|]. destruct (extra !! k); simpl; [|done]. by rewrite project_value_idem.
Qed.

(** Maps whose keys and values carry nothing private. *)
Definition extra_public (extra : gmap str value) : Prop :=
  forall k v, extra !! k = Some v -> is_private_key k = false /\ no_private v.

Lemma project_extra_public extra : extra_public (project_extra extra).
Proof.
  intros k v. rewrite project_extra_lookup. case_match; [done|]. intros Hv.
  apply fmap_Some in Hv as (w & _ & ->). split; [done | apply project_value_no_private].
Qed.

Lemma project_extra_id extra : extra_public extra -> project_extra extra = extra.
Proof.
  intros Hp. apply map_eq. intros k. rewrite project_extra_lookup.
  destruct (extra !! k) as [v|] eqn:Hk; simpl.
  - destruct (Hp k v Hk) as [-> Hv]. by rewrite project_value_id.
  - by case_match.
Qed.

Lemma filter_vote_id_public extra :
  extra_public extra -> extra_public (filter (fun e => e.1 = u "vote_id") extra).
Proof. intros Hp k v Hk. apply map_lookup_filter_Some in Hk as [Hk _]. by apply Hp. Qed.

Lemma minimized_extra_public event :
  extra_public (ev_extra event) -> extra_public (ev_extra (privacy_minimized_vote_transition event)).
Proof.
  unfold privacy_minimized_vote_transition. case_match; [done|]. apply filter_vote_id_public.
Qed.

Lemma public_event_extra event principal :
  extra_public (ev_extra (public_event_for_principal event principal)).
Proof.
  unfold public_event_for_principal.
  set (p := privacy_minimized_vote_transition _).
  assert (extra_public (ev_extra p)) as Hp by apply minimized_extra_public, project_extra_public.
  case_match; [case_match; [|done]|].
  - simpl. intros k v Hk. apply lookup_insert_Some in Hk as [[<- <-]|[_ Hk]].
    + split; [by vm_compute | constructor].
    + apply lookup_delete_Some in Hk as [_ Hk]. by apply Hp.
  - simpl. intros k v Hk. apply lookup_singleton_Some in Hk as [<- <-].
    split; [by vm_compute | constructor].
Qed.

Lemma Forall_opt_field key o :
  is_private_key (u key) = false ->
  Forall (fun e => is_private_key e.1 = false /\ no_private e.2) (opt_field key o).
Proof. intros Hk. destruct o; repeat constructor; done. Qed.

Lemma serialize_event_no_private `{Chrono} e :
  extra_public (ev_extra e) -> no_private (serialize_event e).
Proof.
  intros He. unfold serialize_event. constructor. rewrite !Forall_app. split_and!;
    try (apply Forall_opt_field; by vm_compute).
  - repeat (constructor; [split; [by vm_compute | repeat constructor; by vm_compute]|]). constructor.
  - apply Forall_forall. intros [k v] Hin%elem_of_map_to_list. by apply He.
Qed.

Lemma is_private_vote_minimized event :
  is_private_vote (privacy_minimized_vote_transition event) = is_private_vote event.
Proof. unfold privacy_minimized_vote_transition. by case_match. Qed.

Lemma minimized_idem event :
  privacy_minimized_vote_transition (privacy_minimized_vote_transition event) =
  privacy_minimized_vote_transition event.
Proof.
  unfold privacy_minimized_vote_transition at 1. rewrite is_private_vote_minimized.
  destruct (is_private_vote event) eqn:Hv; [|done].
  unfold privacy_minimized_vote_transition. rewrite Hv. simpl. f_equal.
  apply map_filter_id. intros k v Hk. by apply map_lookup_filter_Some in Hk as [_ Hk].
Qed.

(** The ballot events keep nothing of their voter. *)
Lemma private_vote_not_owner_only event :
  is_private_vote event = true ->
  room_event_is_owner_only (privacy_minimized_vote_transition event) = false.
Proof.
  intros Hv. unfold privacy_minimized_vote_transition. rewrite Hv. simpl.
  unfold room_event_is_owner_only, extra_str. simpl.
  assert (forall k, k ≠ u "vote_id" ->
    filter (fun e : str * value => e.1 = u "vote_id") (ev_extra event) !! k = None) as Hf.
  { intros k Hk. apply map_lookup_filter_None. right. intros v _ He. by apply Hk. }
  rewrite !Hf by lit_ne. done.
Qed.

Lemma project_extra_self p :
  extra_public (ev_extra p) -> p <| ev_extra := project_extra (ev_extra p) |> = p.
Proof. intros Hp. simpl. rewrite project_extra_id by done. by destruct p. Qed.

Lemma public_hidden_event event principal :
  public_event_for_principal (hidden_event event) principal = hidden_event event.
Proof.
  unfold public_event_for_principal. rewrite project_extra_self; [done|].
  intros k v Hk. simpl in Hk. apply lookup_singleton_Some in Hk as [<- <-].
  split; [by vm_compute | constructor].
Qed.

Lemma public_owner_event p principal :
  extra_public (ev_extra p) -> event_is_visible_to p principal = true ->
  is_private_vote p = false ->
  let owned := p <| ev_extra :=
    <[u "visibility" := VString (u "owner")]> (delete (u "audience") (ev_extra p)) |> in
  public_event_for_principal owned principal = owned.
Proof.
  intros Hp Hv Hpv owned. unfold public_event_for_principal.
  rewrite project_extra_self.
  - assert (privacy_minimized_vote_transition owned = owned) as ->.
    { unfold privacy_minimized_vote_transition. by replace (is_private_vote owned) with false. }
    assert (room_event_is_owner_only owned = true) as ->.
    { unfold room_event_is_owner_only, extra_str. subst owned. simpl. by map_lit. }
    assert (event_is_visible_to owned principal = true) as ->.
    { rewrite <- Hv. unfold event_is_visible_to, extra_str. subst owned. simpl. by map_lit. }
    simpl. subst owned. simpl. f_equal.
    by rewrite delete_insert_ne, delete_delete_eq, insert_insert_eq by lit_ne.
  - intros k v Hk. subst owned. simpl in Hk. apply lookup_insert_Some in Hk as [[<- <-]|[_ Hk]].
    + split; [by vm_compute | constructor].
    + apply lookup_delete_Some in Hk as [_ Hk]. by apply Hp.
Qed.

(** ** Theorems *)

(** A public command result carries no private key at any depth. *)
Theorem public_value_no_private `{Chrono} principal v :
  no_private (public_value_for_principal principal v).
Proof.
  induction v as [| | | |l IH|m IH] using value_nested_ind; simpl;
    try (case_match; [apply serialize_event_no_private, public_event_extra | constructor]); try constructor.
  - by apply Forall_fmap.
  - clear -IH. induction IH as [|[k v] m Hv _ IHm]; simpl; [constructor|].
    destruct (is_private_key k) eqn:Hk; [done|]. by constructor.
Qed.

(** Ballot secrecy: what a principal sees of a cast, withdrawn or closed vote
    depends only on the event's place in the room and the poll it names. *)

(** C37: ballot secrecy: what a principal sees of a cast, withdrawn or closed vote depends
    only on the event's place in the room and the poll it names. *)
Theorem vote_transition_secret e e' principal principal' :
  is_private_vote e = true ->
  (ev_v e, ev_id e, ev_seq e, ev_created_at e, ev_room_id e, ev_event_type e, ev_message_kind e) =
  (ev_v e', ev_id e', ev_seq e', ev_created_at e', ev_room_id e', ev_event_type e', ev_message_kind e') ->
  ev_extra e !! u "vote_id" = ev_extra e' !! u "vote_id" ->
  public_event_for_principal e principal = public_event_for_principal e' principal'.
Proof.
  intros Hv Heq Hid.
  assert (forall x q, is_private_vote x = true ->
    public_event_for_principal x q =
    privacy_minimized_vote_transition (x <| ev_extra := project_extra (ev_extra x) |>)) as Hpub.
  { intros x q Hx. unfold public_event_for_principal.
    by rewrite private_vote_not_owner_only. }
  assert (is_private_vote e' = true) as Hv'.
  { assert (ev_message_kind e = ev_message_kind e') as Hk by congruence.
    unfold is_private_vote in *. by rewrite <- Hk. }
  rewrite !Hpub by done. unfold privacy_minimized_vote_transition.
  assert (is_private_vote (e <| ev_extra := project_extra (ev_extra e) |>) = true) as -> by done.
  assert (is_private_vote (e' <| ev_extra := project_extra (ev_extra e') |>) = true) as -> by done.
  destruct e, e'. simpl in *. simplify_eq. f_equal.
  apply map_eq. intros k. apply option_eq. intros v. rewrite !map_lookup_filter_Some. simpl.
  split; intros [Hk ->]; (split; [|done]); rewrite project_extra_lookup in *; [by rewrite <- Hid | by rewrite Hid].
Qed.

(** An owner-only event reveals only its place in the room to anyone else. *)

(** an owner-only event reveals only its place in the room to anyone else. *)
Theorem owner_only_hidden event principal :
  let projected := privacy_minimized_vote_transition (event <| ev_extra := project_extra (ev_extra event) |>) in
  room_event_is_owner_only projected = true -> event_is_visible_to projected principal = false ->
  public_event_for_principal event principal = hidden_event event.
Proof.
  intros projected Ho Hv. unfold public_event_for_principal. fold projected.
  rewrite Ho, Hv. simpl. unfold hidden_event, projected, privacy_minimized_vote_transition.
  by case_match.
Qed.

(** Projection preserves the room cursor and projecting again changes nothing. *)
Theorem public_event_idempotent event principal :
  let public := public_event_for_principal event principal in
  public_event_for_principal public principal = public /\
  (ev_v public, ev_id public, ev_seq public, ev_created_at public, ev_room_id public) =
  (ev_v event, ev_id event, ev_seq event, ev_created_at event, ev_room_id event).
Proof.
  intros public. split.
  - assert (public = public_event_for_principal event principal) as Hq by done.
    clearbody public. unfold public_event_for_principal in Hq.
    set (p := privacy_minimized_vote_transition _) in Hq.
    assert (extra_public (ev_extra p)) as Hp by apply minimized_extra_public, project_extra_public.
    assert (privacy_minimized_vote_transition p = p) as Hm by apply minimized_idem.
    clearbody p. destruct (room_event_is_owner_only p) eqn:Ho; cbn [negb orb] in Hq.
    + destruct (event_is_visible_to p principal) eqn:Hv; rewrite Hq; [|apply public_hidden_event].
      apply public_owner_event; [done..|].
      destruct (is_private_vote p) eqn:Hpv; [|done].
      rewrite <- Hm, private_vote_not_owner_only in Ho by done. done.
    + rewrite Hq. unfold public_event_for_principal. cbv zeta. rewrite project_extra_self by done.
      by rewrite Hm, Ho.
  - subst public. unfold public_event_for_principal, privacy_minimized_vote_transition.
    repeat case_match; done.
Qed.

(** ** Concrete inputs *)

Definition demo_event (kind : string) (author : str) (extra : gmap str value) : RoomEvent :=
  {| ev_v := 1; ev_id := u "e1"; ev_seq := 7; ev_created_at := 0; ev_room_id := u "lobby";
     ev_event_type := u "message_final"; ev_actor := MkActor author (u "human");
     ev_participant_id := Some author; ev_participant_type := Some (u "human");
     ev_actor_id := Some author; ev_actor_type := Some (u "human");
     ev_display_name := Some author; ev_content := Some (u "hello");
     ev_message_kind := Some (u kind); ev_extra := extra |}.

Definition demo_principal (id : str) : AuthenticatedPrincipal :=
  {| pr_principal_id := id; pr_participant_id := id; pr_display_name := id;
     pr_room_id := u "lobby"; pr_client_kind := Browser; pr_invite_scope := ReadWrite;
     pr_is_operator := false;
     pr_capabilities := capabilities_for_principal Browser ReadWrite false |}.

Definition demo_ballot (author choice : string) : RoomEvent :=
  demo_event "vote_cast" (u author)
    (<[u "vote_id" := VString (u "poll")]> (<[u "vote_choice" := VString (u choice)]> ∅)).

Lemma vote_transition_secret_witness :
  public_event_for_principal (demo_ballot "ann" "Yes") (demo_principal (u "bob")) =
  public_event_for_principal (demo_ballot "bob" "No") (demo_principal (u "ann")).
Proof. apply vote_transition_secret; by vm_compute. Defined.

Definition demo_secret : RoomEvent :=
  demo_event "message" (u "ann") {[ u "visibility" := VString (u "owner") ]}.

Lemma owner_only_hidden_witness :
  public_event_for_principal demo_secret (demo_principal (u "bob")) = hidden_event demo_secret.
Proof. apply owner_only_hidden; by vm_compute. Defined.

(** ** Events read back as they were written *)

(** What the columns of an event can hold; [extra] never shadows a field. *)
Record event_ok (e : RoomEvent) : Prop := MkEventOk {
  eo_v : 0 <= ev_v e <= Z.of_N u32_max;
  eo_seq : - 2 ^ 63 <= ev_seq e <= i64_max;
  eo_extra : forall k, k ∈ EVENT_FIELDS -> ev_extra e !! k = None
}.

Section roundtrip.
Context `{Chrono}.

Lemma get_app (l1 l2 : object) k : get (l1 ++ l2) k = match get l1 k with Some v => Some v | None => get l2 k end.
Proof. induction l1 as [|[k' v] l1 IH]; simpl; [done|]. by case_decide. Qed.
Lemma get_opt_field key o k : get (opt_field key o) k = if decide (k = u key) then VString <$> o else None.
Proof. destruct o; simpl; [done|]. by case_decide. Qed.
Lemma get_map_to_list (m : gmap str value) k : get (map_to_list m) k = m !! k.
Proof.
  assert (NoDup (keys (map_to_list m))) as Hn by apply NoDup_fst_map_to_list.
  destruct (m !! k) as [v|] eqn:E.
  - apply get_NoDup_iff; [done|]. by apply elem_of_map_to_list.
  - apply get_None_iff. intros ([k' v] & -> & Hin)%list_elem_of_fmap. apply elem_of_map_to_list in Hin. simpl in *. congruence.
Qed.

Definition event_fields (e : RoomEvent) : object :=
  [(u "v", VInt (ev_v e)); (u "id", VString (ev_id e)); (u "seq", VInt (ev_seq e));
   (u "created_at", VString (datetime_json (ev_created_at e)));
   (u "room_id", VString (ev_room_id e)); (u "type", VString (ev_event_type e));
   (u "actor", VObject [
     (u "participant_id", VString (ac_participant_id (ev_actor e)));
     (u "participant_type", VString (ac_participant_type (ev_actor e)))])] ++
  opt_field "participant_id" (ev_participant_id e) ++
  opt_field "participant_type" (ev_participant_type e) ++
  opt_field "actor_id" (ev_actor_id e) ++
  opt_field "actor_type" (ev_actor_type e) ++
  opt_field "display_name" (ev_display_name e) ++
  opt_field "content" (ev_content e) ++
  opt_field "message_kind" (ev_message_kind e).

Lemma serialize_event_fields e : serialize_event e = VObject (event_fields e ++ map_to_list (ev_extra e)).
Proof. unfold serialize_event, event_fields. by rewrite <- !app_assoc. Qed.

Lemma event_fields_keys e : Forall (fun f : str * value => f.1 ∈ EVENT_FIELDS) (event_fields e).
Proof.
  unfold event_fields. rewrite !Forall_app. split_and!.
  - repeat (constructor; [by apply (bool_decide_unpack _); vm_compute|]). constructor.
  - destruct (ev_participant_id e); repeat constructor; by apply (bool_decide_unpack _); vm_compute.
  - destruct (ev_participant_type e); repeat constructor; by apply (bool_decide_unpack _); vm_compute.
  - destruct (ev_actor_id e); repeat constructor; by apply (bool_decide_unpack _); vm_compute.
  - destruct (ev_actor_type e); repeat constructor; by apply (bool_decide_unpack _); vm_compute.
  - destruct (ev_display_name e); repeat constructor; by apply (bool_decide_unpack _); vm_compute.
  - destruct (ev_content e); repeat constructor; by apply (bool_decide_unpack _); vm_compute.
  - destruct (ev_message_kind e); repeat constructor; by apply (bool_decide_unpack _); vm_compute.
Qed.

Lemma get_extra e k : event_ok e -> k ∈ EVENT_FIELDS -> get (event_fields e ++ map_to_list (ev_extra e)) k = get (event_fields e) k.
Proof. intros He Hk. rewrite get_app, get_map_to_list, (eo_extra _ He k Hk). by destruct (get _ k). Qed.

Ltac in_fields := apply (bool_decide_unpack _); by vm_compute.

(** One field of a serialized event. *)
Ltac field_of He :=
  rewrite (get_extra _ _ He) by in_fields; unfold event_fields; rewrite !get_app, !get_opt_field;
  repeat match goal with
  | |- context [@decide (u ?a = u ?b) ?d] => first [rewrite (decide_True (P := u a = u b)) by reflexivity | rewrite (decide_False (P := u a = u b)) by lit_ne]
  | |- context [get ?l ?k] => let r := eval lazy -[VInt] in (get l k) in change (get l k) with r
  end; cbn [fmap option_fmap option_map].

Lemma opt_field_back e key (o : option str) :
  get (event_fields e ++ map_to_list (ev_extra e)) (u key) = VString <$> o ->
  get_opt_string (event_fields e ++ map_to_list (ev_extra e)) key = Some o.
Proof. unfold get_opt_string. intros ->. by destruct o. Qed.

Lemma as_i64_VInt z : - 2 ^ 63 <= z <= i64_max -> as_i64 (VInt z) = Some z.
Proof.
  intros Hz. unfold VInt. destruct (z <? 0) eqn:E; simpl; [done|]. rewrite Z2N.id by lia.
  by rewrite (proj2 (Z.leb_le _ _)) by lia.
Qed.

(** An optional field, whatever it is. *)
Ltac opt_of He o := apply opt_field_back; field_of He; by destruct o.

(** A stored event reads back as it was. *)
Lemma event_roundtrip e :
  (forall t, parse_rfc3339 (datetime_json t) = Some t) -> event_ok e -> deserialize_event (serialize_event e) = Some e.
Proof.
  intros Htime He. rewrite serialize_event_fields. unfold deserialize_event. cbn [as_object mbind option_bind].
  set (m := event_fields e ++ map_to_list (ev_extra e)).
  assert (get m (u "v") = Some (VInt (ev_v e))) as -> by (unfold m; by field_of He).
  assert (get_string m "id" = Some (ev_id e)) as -> by (unfold m, get_string; by field_of He).
  assert (get m (u "seq") = Some (VInt (ev_seq e))) as -> by (unfold m; by field_of He).
  assert (get_string m "created_at" = Some (datetime_json (ev_created_at e))) as -> by (unfold m, get_string; by field_of He).
  assert (get_string m "room_id" = Some (ev_room_id e)) as -> by (unfold m, get_string; by field_of He).
  assert (get_string m "type" = Some (ev_event_type e)) as -> by (unfold m, get_string; by field_of He).
  assert (get m (u "actor") ≫= deserialize_actor = Some (ev_actor e)) as ->.
  { unfold m. destruct e as [? ? ? ? ? ? [] ? ? ? ? ? ? ? ?]. field_of He. done. }
  assert (get_opt_string m "participant_id" = Some (ev_participant_id e)) as -> by opt_of He (ev_participant_id e).
  assert (get_opt_string m "participant_type" = Some (ev_participant_type e)) as -> by opt_of He (ev_participant_type e).
  assert (get_opt_string m "actor_id" = Some (ev_actor_id e)) as -> by opt_of He (ev_actor_id e).
  assert (get_opt_string m "actor_type" = Some (ev_actor_type e)) as -> by opt_of He (ev_actor_type e).
  assert (get_opt_string m "display_name" = Some (ev_display_name e)) as -> by opt_of He (ev_display_name e).
  assert (get_opt_string m "content" = Some (ev_content e)) as -> by opt_of He (ev_content e).
  assert (get_opt_string m "message_kind" = Some (ev_message_kind e)) as -> by opt_of He (ev_message_kind e).
  destruct He as [Hv Hs Hx]. cbn [mbind option_bind as_str]. rewrite Htime.
  assert (as_u64 (VInt (ev_v e)) = Some (Z.to_N (ev_v e))) as ->.
  { unfold VInt. rewrite (proj2 (Z.ltb_ge _ _)) by lia. simpl. done. }
  cbn [mbind option_bind]. rewrite (proj2 (N.ltb_ge _ _)) by lia. rewrite as_i64_VInt by done. cbn [mbind option_bind].
  rewrite Z2N.id by lia. unfold m. rewrite filter_app.
  rewrite filter_none, app_nil_l, filter_all, list_to_map_to_list; [by destruct e| |].
  - apply Forall_forall. intros [k v] Hin%elem_of_map_to_list Hk. simpl in *. by rewrite Hx in Hin.
  - eapply Forall_impl; [apply event_fields_keys|]. intros f Hf Hn. by apply Hn.
Qed.
End roundtrip.
