(* ===== verification/Settings.v ===== *)
(** * Room settings (agentsassemble-domain/src/room_settings.rs)

    The settings document of a room: the strict partial update a WebSocket
    command carries, the validation every stored or updated document passes, and
    the revision optimistic updates are guarded by. *)

From Stdlib Require Import String.
From stdpp Require Import gmap.
From S2P Require Import Prelude Text Json Model Command Vote.

(** [char::to_uppercase], whose table is the standard library's. *)
Class CharCase : Type := to_uppercase : char -> str.
Definition ascii_uppercase : CharCase :=
  fun c => [if is_ascii_lower c then (c - 32)%N else c].

Definition ROOM_LABEL_LIMIT : nat := 128.
Definition ROOM_TOPIC_LIMIT : nat := 160.
Definition IMAGE_URL_LIMIT : nat := 240.
Definition CHANNEL_NAME_LIMIT : nat := 60.
Definition MAX_CHANNELS : nat := 50.
Definition ROOM_APPEARANCE_ASSET_PREFIX : str := u "ra_".
Definition ROOM_APPEARANCE_ASSET_HEX_LENGTH : nat := 32.
Definition ROOM_APPEARANCE_REFERENCE_PREFIX : str := u "/api/attachments/".
Definition ROOM_APPEARANCE_REFERENCE_SUFFIX : str := u "?view=1".

Record RoomAppearance : Type := MkRoomAppearance {
  ra_banner_preset : str;
  ra_banner_image_url : str;
  ra_icon_image_url : str;
  ra_icon_label : str;
  ra_invite_scope : str
}.

Record RoomChannel : Type := MkRoomChannel {
  rc_id : str;
  rc_name : str;
  rc_channel_type : str;
  rc_position : N;
  rc_created_at : str
}.

Record RoomSettings : Type := MkRoomSettings {
  rs_label : str;
  rs_topic : str;
  rs_appearance : RoomAppearance;
  rs_conversation_mode : str;
  rs_tool_mode : str;
  rs_ordered_exclude_previous_speaker : bool;
  rs_channels : list RoomChannel
}.

#[global] Instance eta_RoomSettings : EtaRecord RoomSettings :=
  fun r => MkRoomSettings (rs_label r) (rs_topic r) (rs_appearance r) (rs_conversation_mode r)
    (rs_tool_mode r) (rs_ordered_exclude_previous_speaker r) (rs_channels r).

Record PublicRoomSettings : Type := MkPublicRoomSettings {
  ps_settings_revision : str;
  ps_label : str;
  ps_topic : str;
  ps_appearance : RoomAppearance;
  ps_conversation_mode : str;
  ps_tool_mode : str;
  ps_ordered_exclude_previous_speaker : bool;
  ps_channels : list RoomChannel
}.

Record RoomAppearancePatch : Type := MkRoomAppearancePatch {
  rap_banner_preset : option str;
  rap_banner_image_url : option str;
  rap_icon_image_url : option str;
  rap_icon_label : option str;
  rap_invite_scope : option str
}.

Record RoomSettingsPatch : Type := MkRoomSettingsPatch {
  rsp_label : option str;
  rsp_topic : option str;
  rsp_appearance : RoomAppearancePatch;
  rsp_conversation_mode : option str;
  rsp_tool_mode : option str;
  rsp_ordered_exclude_previous_speaker : option bool;
  rsp_channels : option (list RoomChannel)
}.

#[global] Instance RoomAppearance_eq_dec : EqDecision RoomAppearance.
Proof. solve_decision. Defined.
#[global] Instance RoomChannel_eq_dec : EqDecision RoomChannel.
Proof. solve_decision. Defined.
#[global] Instance RoomSettings_eq_dec : EqDecision RoomSettings.
Proof. solve_decision. Defined.

(** [RoomSettingsError] has the fields of a command rejection. *)
Definition bad_request (message : str) : CommandRejection := MkRejection (u "bad_request") message.
Definition unsupported (message : str) : CommandRejection :=
  MkRejection (u "room_setting_unsupported") message.

(** ** Field readers *)

Definition require_known_keys (object : object) (known : list str) (field : string) : res unit :=
  let unknown := List.filter (fun key => negb (contains known key)) (keys object) in
  match unknown with
  | [] => Ok tt
  | _ => Err (bad_request
      (u "Unsupported " ++ u field ++ u " fields: " ++ join (u ", ") unknown ++ u "."))
  end.

Definition required_string (object : object) (field : string) : res str :=
  ok_or
    (s ← get object (u field) ≫= as_str; if bool_decide (s = []) then None else Some s)
    (bad_request (u field ++ u " is required.")).

Definition optional_string (object : object) (field : string) : res (option str) :=
  match get object (u field) with
  | None => Ok None
  | Some value => Some <$> ok_or (as_str value) (bad_request (u field ++ u " must be a string."))
  end.

Definition optional_bool (object : object) (field : string) : res (option bool) :=
  match get object (u field) with
  | None => Ok None
  | Some value => Some <$> ok_or (as_bool value) (bad_request (u field ++ u " must be a boolean."))
  end.

Definition deserialize_channel (v : value) : option RoomChannel :=
  fields ← struct_fields [u "id"; u "name"; u "type"; u "position"; u "created_at"] v;
  match fields with
  | [VString id; VString name; VString channel_type; position; VString created_at] =>
      n ← as_u64 position;
      if (n <=? u32_max)%N then Some (MkRoomChannel id name channel_type n created_at) else None
  | _ => None
  end.

Definition optional_channels (object : object) (field : string) : res (option (list RoomChannel)) :=
  match get object (u field) with
  | None => Ok None
  | Some value =>
      Some <$> ok_or (as_array value ≫= mapM deserialize_channel)
        (bad_request (u field ++ u " is invalid."))
  end.

(** ** Appearance assets *)

Definition is_room_appearance_asset_id (asset_id : str) : bool :=
  match strip_prefix asset_id ROOM_APPEARANCE_ASSET_PREFIX with
  | None => false
  | Some hex =>
      bool_decide (byte_len hex = ROOM_APPEARANCE_ASSET_HEX_LENGTH) && all is_lower_hex hex
  end.

(** [str::strip_suffix] *)
Definition strip_suffix (s p : str) : option str :=
  let n := (length s - length p)%nat in
  if bool_decide (length p <= length s)%nat && bool_decide (drop n s = p)
  then Some (take n s) else None.

Definition room_appearance_asset_id (value : str) : option str :=
  rest ← strip_prefix value ROOM_APPEARANCE_REFERENCE_PREFIX;
  asset_id ← strip_suffix rest ROOM_APPEARANCE_REFERENCE_SUFFIX;
  if is_room_appearance_asset_id asset_id then Some asset_id else None.

(** ** Validation *)

Definition require_canonical_text (value : str) (field : string) (limit : nat) : res unit :=
  require (bool_decide (clean_single_line value limit = value))
    (bad_request (u field ++ u " must be canonical single-line text up to " ++
       show_nat limit ++ u " characters.")).

Definition require_asset_url (value : str) (field : string) : res unit :=
  require_canonical_text value field IMAGE_URL_LIMIT;;
  reject_if (negb (bool_decide (value = [])) && bool_decide (room_appearance_asset_id value = None))
    (bad_request (u field ++ u " must be empty or a canonical room attachment URL.")).

Section settings.
Context `{CharCase, Sha256}.

Definition require_short_label (value : str) : res unit :=
  let clean := take 2 (clean_single_line value 2 ≫= to_uppercase) in
  require (bool_decide (clean = value)) (bad_request (u "icon_label is not canonical.")).

Definition validate_appearance (raw : RoomAppearance) : res RoomAppearance :=
  require_canonical_text (ra_banner_preset raw) "banner_preset" 24;;
  require (contains [u "default"; u "forest"; u "midnight"; u "ember"; u "custom"]
             (ra_banner_preset raw))
    (bad_request (u "Unsupported banner_preset: " ++ ra_banner_preset raw ++ u "."));;
  require_asset_url (ra_banner_image_url raw) "banner_image_url";;
  require_asset_url (ra_icon_image_url raw) "icon_image_url";;
  require_short_label (ra_icon_label raw);;
  require (contains [u "room"; u "read_only"] (ra_invite_scope raw))
    (bad_request (u "Unsupported invite_scope: " ++ ra_invite_scope raw ++ u "."));;
  mret raw.

(** The loop over the channels: [seen] are the identifiers met so far. *)
Fixpoint validate_channels (seen : list str) (position : N) (channels : list RoomChannel) : res unit :=
  match channels with
  | [] => Ok tt
  | channel :: channels' =>
      reject_if (negb (is_custom_channel_id (rc_id channel)) || contains seen (rc_id channel))
        (bad_request (u "Channel ids must be unique canonical ids."));;
      require_canonical_text (rc_name channel) "channel name" CHANNEL_NAME_LIMIT;;
      reject_if (bool_decide (rc_name channel = []) ||
                 negb (contains [u "text"; u "voice"] (rc_channel_type channel)))
        (bad_request (u "Channel name or type is invalid."));;
      require (rc_position channel =? position)%N
        (bad_request (u "Channel positions must be dense and match list order."));;
      require_canonical_text (rc_created_at channel) "channel created_at" 64;;
      validate_channels (rc_id channel :: seen) (position + 1) channels'
  end.

Definition validate_settings (raw : RoomSettings) : res RoomSettings :=
  require_canonical_text (rs_label raw) "label" ROOM_LABEL_LIMIT;;
  require_canonical_text (rs_topic raw) "topic" ROOM_TOPIC_LIMIT;;
  require (contains [u "ordered"; u "ambient"] (rs_conversation_mode raw))
    (bad_request (u "Unsupported conversation_mode: " ++ rs_conversation_mode raw ++ u "."));;
  require (contains [u "chat"; u "tabletop"] (rs_tool_mode raw))
    (bad_request (u "Unsupported tool_mode: " ++ rs_tool_mode raw ++ u "."));;
  reject_if (bool_decide (MAX_CHANNELS < length (rs_channels raw))%nat)
    (bad_request (u "channels cannot contain more than " ++ show_nat MAX_CHANNELS ++ u " entries."));;
  validate_channels [] 0 (rs_channels raw);;
  appearance ← validate_appearance (rs_appearance raw);
  mret {| rs_label := rs_label raw; rs_topic := rs_topic raw; rs_appearance := appearance;
          rs_conversation_mode := rs_conversation_mode raw; rs_tool_mode := rs_tool_mode raw;
          rs_ordered_exclude_previous_speaker := rs_ordered_exclude_previous_speaker raw;
          rs_channels := rs_channels raw |}.

(** ** Defaults and updates *)

Definition settings_defaults (label : str) : RoomSettings :=
  {| rs_label := clean_single_line label ROOM_LABEL_LIMIT;
     rs_topic := [];
     rs_appearance := {|
       ra_banner_preset := u "default"; ra_banner_image_url := []; ra_icon_image_url := [];
       ra_icon_label := []; ra_invite_scope := u "room" |};
     rs_conversation_mode := u "ordered";
     rs_tool_mode := u "chat";
     rs_ordered_exclude_previous_speaker := true;
     rs_channels := [] |}.

Definition appearance_patch_default : RoomAppearancePatch := MkRoomAppearancePatch None None None None None.

Definition appearance_patch_parse (v : value) : res RoomAppearancePatch :=
  object ← ok_or (as_object v) (bad_request (u "appearance must be an object."));
  require_known_keys object
    [u "banner_preset"; u "banner_image_url"; u "icon_image_url"; u "icon_label"; u "invite_scope"]
    "appearance";;
  reject_if (bool_decide (object = [])) (bad_request (u "appearance update must not be empty."));;
  banner_preset ← optional_string object "banner_preset";
  banner_image_url ← optional_string object "banner_image_url";
  icon_image_url ← optional_string object "icon_image_url";
  icon_label ← optional_string object "icon_label";
  invite_scope ← optional_string object "invite_scope";
  mret (MkRoomAppearancePatch banner_preset banner_image_url icon_image_url icon_label invite_scope).

Definition is_none {A} (o : option A) : bool := match o with None => true | Some _ => false end.

Definition appearance_patch_is_empty (p : RoomAppearancePatch) : bool :=
  is_none (rap_banner_preset p) && is_none (rap_banner_image_url p) &&
  is_none (rap_icon_image_url p) && is_none (rap_icon_label p) && is_none (rap_invite_scope p).

Definition appearance_patch_apply (p : RoomAppearancePatch) (current : RoomAppearance) : RoomAppearance :=
  {| ra_banner_preset := default (ra_banner_preset current) (rap_banner_preset p);
     ra_banner_image_url := default (ra_banner_image_url current) (rap_banner_image_url p);
     ra_icon_image_url := default (ra_icon_image_url current) (rap_icon_image_url p);
     ra_icon_label := default (ra_icon_label current) (rap_icon_label p);
     ra_invite_scope := default (ra_invite_scope current) (rap_invite_scope p) |}.

Definition settings_patch_parse (object : object) : res RoomSettingsPatch :=
  label ← optional_string object "label";
  topic ← optional_string object "topic";
  appearance ← match get object (u "appearance") with
               | None => Ok appearance_patch_default
               | Some v => appearance_patch_parse v
               end;
  conversation_mode ← optional_string object "conversation_mode";
  tool_mode ← optional_string object "tool_mode";
  ordered_exclude_previous_speaker ← optional_bool object "ordered_exclude_previous_speaker";
  channels ← optional_channels object "channels";
  mret {| rsp_label := label; rsp_topic := topic; rsp_appearance := appearance;
          rsp_conversation_mode := conversation_mode; rsp_tool_mode := tool_mode;
          rsp_ordered_exclude_previous_speaker := ordered_exclude_previous_speaker;
          rsp_channels := channels |}.

Definition settings_patch_is_empty (p : RoomSettingsPatch) : bool :=
  is_none (rsp_label p) && is_none (rsp_topic p) && appearance_patch_is_empty (rsp_appearance p) &&
  is_none (rsp_conversation_mode p) && is_none (rsp_tool_mode p) &&
  is_none (rsp_ordered_exclude_previous_speaker p) && is_none (rsp_channels p).

Definition settings_patch_require_available (p : RoomSettingsPatch) : res unit :=
  reject_if
    (match rsp_channels p with
     | Some channels => any (fun c => negb (bool_decide (rc_channel_type c = u "text"))) channels
     | None => false
     end)
    (unsupported (u "Voice channels are deferred; only text channels can be configured.")).

Definition settings_patch_next (p : RoomSettingsPatch) (current : RoomSettings) : RoomSettings :=
  {| rs_label := default (rs_label current) (rsp_label p);
     rs_topic := default (rs_topic current) (rsp_topic p);
     rs_appearance := appearance_patch_apply (rsp_appearance p) (rs_appearance current);
     rs_conversation_mode := default (rs_conversation_mode current) (rsp_conversation_mode p);
     rs_tool_mode := default (rs_tool_mode current) (rsp_tool_mode p);
     rs_ordered_exclude_previous_speaker :=
       default (rs_ordered_exclude_previous_speaker current) (rsp_ordered_exclude_previous_speaker p);
     rs_channels := default (rs_channels current) (rsp_channels p) |}.

Definition settings_patch_apply (p : RoomSettingsPatch) (current : RoomSettings) : res RoomSettings :=
  validate_settings (settings_patch_next p current).

Definition SETTINGS_KEYS : list str := [
  u "expected_revision"; u "label"; u "topic"; u "appearance"; u "conversation_mode";
  u "tool_mode"; u "ordered_exclude_previous_speaker"; u "channels"].

Definition strict_update (current : RoomSettings) (payload : value) : res (str * RoomSettings) :=
  object ← ok_or (as_object payload) (bad_request (u "payload must be an object."));
  require_known_keys object SETTINGS_KEYS "room settings";;
  expected_revision ← required_string object "expected_revision";
  reject_if (bool_decide (96 < length expected_revision)%nat ||
             negb (bool_decide (clean_single_line expected_revision 96 = expected_revision)))
    (bad_request (u "expected_revision is not canonical."));;
  patch ← settings_patch_parse object;
  reject_if (settings_patch_is_empty patch)
    (bad_request (u "At least one room-global setting is required."));;
  settings_patch_require_available patch;;
  next ← settings_patch_apply patch current;
  mret (expected_revision, next).

(** ** The public document and its revision *)

(** serde's encoding of the settings, the fields in declaration order. *)
Definition channel_to_value (c : RoomChannel) : value :=
  VObject [(u "id", VString (rc_id c)); (u "name", VString (rc_name c));
           (u "type", VString (rc_channel_type c));
           (u "position", VNumber (PosInt (rc_position c)));
           (u "created_at", VString (rc_created_at c))].

Definition appearance_to_value (a : RoomAppearance) : value :=
  VObject [(u "banner_preset", VString (ra_banner_preset a));
           (u "banner_image_url", VString (ra_banner_image_url a));
           (u "icon_image_url", VString (ra_icon_image_url a));
           (u "icon_label", VString (ra_icon_label a));
           (u "invite_scope", VString (ra_invite_scope a))].

Definition settings_to_value (s : RoomSettings) : value :=
  VObject [(u "label", VString (rs_label s)); (u "topic", VString (rs_topic s));
           (u "appearance", appearance_to_value (rs_appearance s));
           (u "conversation_mode", VString (rs_conversation_mode s));
           (u "tool_mode", VString (rs_tool_mode s));
           (u "ordered_exclude_previous_speaker", VBool (rs_ordered_exclude_previous_speaker s));
           (u "channels", VArray (map channel_to_value (rs_channels s)))].

Definition public_settings (settings : RoomSettings) : PublicRoomSettings :=
  let canonical := encode (settings_to_value settings) in
  {| ps_settings_revision := u "room-settings-v1-" ++ sha256_hex canonical;
     ps_label := rs_label settings;
     ps_topic := rs_topic settings;
     ps_appearance := rs_appearance settings;
     ps_conversation_mode := rs_conversation_mode settings;
     ps_tool_mode := rs_tool_mode settings;
     ps_ordered_exclude_previous_speaker := rs_ordered_exclude_previous_speaker settings;
     ps_channels := rs_channels settings |}.

(** ** The documents validation admits *)

Definition single_line (limit : nat) (s : str) : Prop := clean_single_line s limit = s.

Definition asset_url_ok (url : str) : Prop :=
  single_line IMAGE_URL_LIMIT url /\ (url = [] \/ exists id, room_appearance_asset_id url = Some id).

Definition appearance_ok (a : RoomAppearance) : Prop :=
  ra_banner_preset a ∈ [u "default"; u "forest"; u "midnight"; u "ember"; u "custom"] /\
  asset_url_ok (ra_banner_image_url a) /\ asset_url_ok (ra_icon_image_url a) /\
  take 2 (clean_single_line (ra_icon_label a) 2 ≫= to_uppercase) = ra_icon_label a /\
  ra_invite_scope a ∈ [u "room"; u "read_only"].

Definition channel_ok (c : RoomChannel) : Prop :=
  is_custom_channel_id (rc_id c) = true /\ single_line CHANNEL_NAME_LIMIT (rc_name c) /\
  rc_name c ≠ [] /\ rc_channel_type c ∈ [u "text"; u "voice"] /\ single_line 64 (rc_created_at c).

(** The channel at index [i] of the list has position [first + i]. *)
Definition dense_positions (first : N) (channels : list RoomChannel) : Prop :=
  forall i c, channels !! i = Some c -> rc_position c = (first + N.of_nat i)%N.

Definition channels_ok (first : N) (channels : list RoomChannel) : Prop :=
  Forall channel_ok channels /\ NoDup (map rc_id channels) /\ dense_positions first channels.

Definition settings_ok (s : RoomSettings) : Prop :=
  single_line ROOM_LABEL_LIMIT (rs_label s) /\ single_line ROOM_TOPIC_LIMIT (rs_topic s) /\
  rs_conversation_mode s ∈ [u "ordered"; u "ambient"] /\ rs_tool_mode s ∈ [u "chat"; u "tabletop"] /\
  (length (rs_channels s) <= MAX_CHANNELS)%nat /\ channels_ok 0 (rs_channels s) /\
  appearance_ok (rs_appearance s).

(** ** Lemmas *)

Lemma require_canonical_text_ok value field limit w :
  require_canonical_text value field limit = Ok w <-> single_line limit value.
Proof.
  unfold require_canonical_text, single_line. by rewrite require_Ok, bool_decide_eq_true.
Qed.

Lemma require_asset_url_ok url field w : require_asset_url url field = Ok w <-> asset_url_ok url.
Proof.
  unfold require_asset_url, asset_url_ok. split.
  - intros Hr. res_inv. rewrite require_canonical_text_ok in *. split; [done|].
    destruct url as [|c url]; [by left|]. right.
    destruct (room_appearance_asset_id (c :: url)) as [id|]; [by exists id | done].
  - intros (Hc & Hu). rewrite (proj2 (require_canonical_text_ok _ _ _ tt)) by done.
    destruct w, Hu as [->|[id Hid]]; [done|]. simpl. rewrite Hid. by rewrite andb_false_r.
Qed.

Lemma validate_appearance_ok a a' : validate_appearance a = Ok a' <-> a' = a /\ appearance_ok a.
Proof.
  unfold validate_appearance, appearance_ok, require_short_label, contains. split.
  - intros Hv. res_inv. bool_to_prop. rewrite !require_asset_url_ok in *. by split_and!.
  - intros (-> & Hp & Hb & Hi & Hl & Hs).
    assert (single_line 24 (ra_banner_preset a)) as Hline.
    { repeat (apply elem_of_cons in Hp as [->|Hp]; [by vm_compute|]). by apply not_elem_of_nil in Hp. }
    rewrite (proj2 (require_canonical_text_ok _ _ _ tt)) by done. cbn -[room_appearance_asset_id].
    rewrite bool_decide_eq_true_2 by done. cbn.
    rewrite (proj2 (require_asset_url_ok _ _ tt)) by done. cbn.
    rewrite (proj2 (require_asset_url_ok _ _ tt)) by done. cbn.
    by rewrite !bool_decide_eq_true_2.
Qed.

Lemma dense_positions_cons first c channels :
  dense_positions first (c :: channels) <->
  rc_position c = first /\ dense_positions (first + 1) channels.
Proof.
  unfold dense_positions. split.
  - intros H1. split; [rewrite (H1 0%nat c eq_refl); simpl; lia|].
    intros i d Hi. rewrite (H1 (S i) d Hi). lia.
  - intros [Hc Hd] [|i] d Hi; simpl in Hi; [injection Hi as <-; lia|].
    rewrite (Hd i d Hi). lia.
Qed.

Lemma validate_channels_ok seen first channels :
  validate_channels seen first channels = Ok tt <->
  channels_ok first channels /\ Forall (fun c => rc_id c ∉ seen) channels.
Proof.
  revert seen first. induction channels as [|c channels IH]; intros seen first.
  { split; [|done]. intros _. split; [|constructor]. split_and!; [constructor|constructor|].
    intros i c Hi. by rewrite lookup_nil in Hi. }
  unfold channels_ok. rewrite dense_positions_cons. simpl. rewrite !Forall_cons, NoDup_cons.
  unfold channel_ok. split.
  - intros Hv. res_inv. unfold contains in *. bool_to_prop. rewrite !require_canonical_text_ok in *.
    match goal with H1 : validate_channels _ _ _ = Ok _ |- _ =>
      apply IH in H1 as [(Hf & Hn & Hd) Hs] end.
    rewrite Forall_forall in Hs. split_and!; try done; [|by apply N.eqb_eq|].
    + intros (d & Heq & Hin)%list_elem_of_fmap. apply (Hs d Hin). rewrite Heq. by left.
    + apply Forall_forall. intros d Hin Hd'. apply (Hs d Hin). by right.
  - intros (((( Hid & Hname & Hne & Hty & Hcr) & Hf) & (Hni & Hn) & Hp & Hd) & Hs & Hss).
    unfold contains. rewrite Hid, (bool_decide_eq_false_2 (rc_id c ∈ seen)) by done. simpl.
    rewrite (proj2 (require_canonical_text_ok _ _ _ tt)) by done. simpl.
    rewrite (bool_decide_eq_false_2 (rc_name c = [])), (bool_decide_eq_true_2 (_ ∈ _)) by done.
    simpl. rewrite (proj2 (N.eqb_eq _ _)) by done. simpl.
    rewrite (proj2 (require_canonical_text_ok _ _ _ tt)) by done. simpl.
    apply IH. split; [done|]. rewrite Forall_forall in Hss |- *. intros d Hin [Heq|Hin']%elem_of_cons.
    + apply Hni. apply list_elem_of_fmap. by exists d.
    + by apply (Hss d).
Qed.

Lemma validate_settings_ok s s' : validate_settings s = Ok s' <-> s' = s /\ settings_ok s.
Proof.
  unfold validate_settings, settings_ok, contains. split.
  - intros Hv. res_inv. bool_to_prop. rewrite !require_canonical_text_ok in *.
    match goal with H1 : validate_channels _ _ _ = Ok ?w, H2 : validate_appearance _ = Ok _ |- _ =>
      destruct w; apply validate_channels_ok in H1 as [H1 _];
      apply validate_appearance_ok in H2 as [-> H2] end.
    split_and!; try done; [by destruct s|lia].
  - intros (-> & Hl & Ht & Hm & Htm & Hlen & Hc & Ha).
    rewrite (proj2 (require_canonical_text_ok _ _ _ tt)) by done. simpl.
    rewrite (proj2 (require_canonical_text_ok _ _ _ tt)) by done. simpl.
    rewrite (bool_decide_eq_true_2 (rs_conversation_mode s ∈ _)),
      (bool_decide_eq_true_2 (rs_tool_mode s ∈ _)) by done. simpl.
    rewrite bool_decide_eq_false_2 by lia. simpl.
    rewrite (proj2 (validate_channels_ok _ _ _)).
    + simpl. rewrite (proj2 (validate_appearance_ok _ _)) by done. simpl. by destruct s.
    + split; [done|]. apply Forall_forall. intros c _ Hin. by apply not_elem_of_nil in Hin.
Qed.

Lemma optional_string_absent object field o :
  get object (u field) = None -> optional_string object field = Ok o -> o = None.
Proof. unfold optional_string. intros ->. by intros [= <-]. Qed.

(** A settings document read back from its encoding. *)
Lemma settings_to_value_wf s : settings_ok s -> value_wf (settings_to_value s).
Proof.
  intros (_ & _ & _ & _ & Hlen & (_ & _ & Hd) & _).
  unfold settings_to_value, appearance_to_value. json_wf. apply Forall_fmap, Forall_forall.
  intros c Hc. simpl. apply list_elem_of_lookup_1 in Hc as [i Hi]. pose proof (Hd i c Hi) as Hp.
  apply lookup_lt_Some in Hi. unfold MAX_CHANNELS in Hlen. unfold channel_to_value. json_wf.
  simpl. unfold u64_max. lia.
Qed.

Lemma literal_object_inj m m' k v v' :
  NoDup (keys m) -> NoDup (keys m') -> normalize (VObject m) = normalize (VObject m') ->
  get m k = Some v -> get m' k = Some v' -> normalize v = normalize v'.
Proof.
  intros Hm Hm' Hn Hv Hv'. pose proof (normalize_object_get m m' k Hm Hm' Hn) as H1.
  rewrite Hv, Hv' in H1. by injection H1.
Qed.

(** Reads the field [k] of two literal objects known to be the same. *)
Ltac same_field Heq k :=
  lazymatch type of Heq with
  | normalize (VObject ?m) = normalize (VObject ?m') =>
      let v := eval lazy -[VStrings VInt normalize map appearance_to_value channel_to_value] in (get m (u k)) in
      let v' := eval lazy -[VStrings VInt normalize map appearance_to_value channel_to_value] in (get m' (u k)) in
      lazymatch v with
      | Some ?x =>
          lazymatch v' with
          | Some ?y =>
              let F := fresh "F" in
              assert (normalize x = normalize y) as F
                by (apply (literal_object_inj m m' (u k) x y);
                    [decide_now | decide_now | exact Heq | reflexivity | reflexivity])
          end
      end
  end.

Lemma channel_to_value_inj c c' :
  normalize (channel_to_value c) = normalize (channel_to_value c') -> c = c'.
Proof.
  intros Heq. unfold channel_to_value in Heq.
  same_field Heq "id"%string. same_field Heq "name"%string. same_field Heq "type"%string.
  same_field Heq "position"%string. same_field Heq "created_at"%string.
  destruct c, c'. simpl in *. congruence.
Qed.

Lemma appearance_to_value_inj a a' :
  normalize (appearance_to_value a) = normalize (appearance_to_value a') -> a = a'.
Proof.
  intros Heq. unfold appearance_to_value in Heq.
  same_field Heq "banner_preset"%string. same_field Heq "banner_image_url"%string.
  same_field Heq "icon_image_url"%string. same_field Heq "icon_label"%string.
  same_field Heq "invite_scope"%string.
  destruct a, a'. simpl in *. congruence.
Qed.

Lemma settings_to_value_inj s s' :
  normalize (settings_to_value s) = normalize (settings_to_value s') -> s = s'.
Proof.
  intros Heq. unfold settings_to_value in Heq.
  same_field Heq "label"%string. same_field Heq "topic"%string.
  same_field Heq "appearance"%string. same_field Heq "conversation_mode"%string.
  same_field Heq "tool_mode"%string. same_field Heq "ordered_exclude_previous_speaker"%string.
  same_field Heq "channels"%string.
  apply appearance_to_value_inj in F1.
  assert (rs_channels s = rs_channels s') as Hc.
  { simpl in F5. injection F5 as F5. rewrite !map_map in F5.
    apply (map_inj_In (fun c => normalize (channel_to_value c))); [|done].
    apply channel_to_value_inj. }
  destruct s, s'. simpl in *. congruence.
Qed.

(** What a payload that does not name a field leaves alone. *)
Definition untouched (payload : object) (current next : RoomSettings) : Prop :=
  (get payload (u "label") = None -> rs_label next = rs_label current) /\
  (get payload (u "topic") = None -> rs_topic next = rs_topic current) /\
  (get payload (u "appearance") = None -> rs_appearance next = rs_appearance current) /\
  (get payload (u "conversation_mode") = None ->
     rs_conversation_mode next = rs_conversation_mode current) /\
  (get payload (u "tool_mode") = None -> rs_tool_mode next = rs_tool_mode current) /\
  (get payload (u "ordered_exclude_previous_speaker") = None ->
     rs_ordered_exclude_previous_speaker next = rs_ordered_exclude_previous_speaker current) /\
  (get payload (u "channels") = None -> rs_channels next = rs_channels current).

(** ** Theorems *)

(** Validation admits exactly the well-formed documents and changes none. *)

(** validation admits exactly the well-formed settings documents and changes none. *)
Theorem validate_settings_iff s s' : validate_settings s = Ok s' <-> s' = s /\ settings_ok s.
Proof. apply validate_settings_ok. Qed.

Theorem strict_update_sound current payload revision next :
  strict_update current (VObject payload) = Ok (revision, next) ->
  settings_ok next /\ untouched payload current next /\
  get payload (u "expected_revision") = Some (VString revision) /\ revision ≠ [] /\
  (get payload (u "channels") ≠ None ->
     Forall (fun c => rc_channel_type c = u "text") (rs_channels next)).
Proof.
  unfold strict_update. intros Hu. res_inv.
  match goal with H1 : settings_patch_apply _ _ = Ok _, H2 : settings_patch_require_available _ = Ok _,
    H3 : settings_patch_parse _ = Ok _, H4 : required_string _ _ = Ok _ |- _ =>
    rename H1 into Happ; rename H2 into Hav; rename H3 into Hparse; rename H4 into Hrev end.
  simplify_eq/=. unfold settings_patch_apply in Happ. apply validate_settings_ok in Happ as [-> Hok].
  split; [done|].
  unfold settings_patch_parse in Hparse. res_inv. simpl in *. split_and!.
  - unfold untouched, settings_patch_next. simpl.
    unfold optional_string, optional_bool, optional_channels in *.
    split_and!; intros Hnone;
      lazymatch type of Hnone with ?g = _ =>
        match goal with H1 : match g with _ => _ end = Ok _ |- _ =>
          rewrite Hnone in H1; simplify_eq/= end end; try done.
    unfold appearance_patch_default, appearance_patch_apply. simpl. by destruct (rs_appearance current).
  - clear -Hrev. unfold required_string in Hrev. apply ok_or_Ok in Hrev.
    apply bind_Some in Hrev as (v & Hv & Hs). apply bind_Some in Hv as (w & Hw & Hv).
    case_bool_decide; simplify_eq. destruct w; simpl in Hv; congruence.
  - clear -Hrev. unfold required_string in Hrev. apply ok_or_Ok in Hrev.
    apply bind_Some in Hrev as (v & _ & Hs). by case_bool_decide; simplify_eq.
  - intros Hc. unfold settings_patch_require_available in Hav. simpl in Hav.
    match goal with H1 : optional_channels _ _ = Ok ?o |- _ =>
      destruct o as [cs|]; [|unfold optional_channels in H1; case_match; [|done];
        destruct (as_array _ ≫= _); discriminate] end.
    simpl. res_inv. rewrite any_false_Forall in Hav. eapply Forall_impl; [exact Hav|].
    simpl. intros c Hcc. by bool_to_prop.
Qed.

(** Two valid documents with the same public revision are the same document,
    where SHA-256 does not collide. *)

(** two valid settings documents with the same public revision are the same document,
    where SHA-256 does not collide. *)
Theorem revision_identifies_settings s s' :
  (forall a b, sha256_hex a = sha256_hex b -> a = b) ->
  settings_ok s -> settings_ok s' ->
  ps_settings_revision (public_settings s) = ps_settings_revision (public_settings s') -> s = s'.
Proof.
  intros Hsha Hs Hs' Hr. unfold public_settings in Hr. cbn [ps_settings_revision] in Hr. apply app_inv_head, Hsha in Hr.
  apply settings_to_value_inj. apply encode_normalize_iff; [by apply settings_to_value_wf..|done].
Qed.

(** The defaults of a room are valid exactly when the label, cut to its limit,
    is still a canonical single line. *)
Lemma settings_defaults_ok_iff label :
  settings_ok (settings_defaults label) <->
  single_line ROOM_LABEL_LIMIT (clean_single_line label ROOM_LABEL_LIMIT).
Proof.
  split; [by intros []|]. intros Hl. unfold settings_ok, settings_defaults. simpl.
  split_and!; try done; try lia; try (by vm_compute); try (decide_now); try (by constructor);
    try (by left).
  split_and!; [constructor | constructor |]. intros i c Hi. by rewrite lookup_nil in Hi.
Qed.
End settings.

(** ** Concrete inputs *)

Definition demo_settings : RoomSettings := settings_defaults (u "General").

(** The digest of the demonstration is the text itself, which cannot collide. *)
Definition identity_digest : Sha256 := fun s => s.

Definition demo_settings_payload : object :=
  [(u "expected_revision", VString (u "r1")); (u "topic", VString (u "planning"))].

Lemma demo_settings_ok : @settings_ok ascii_uppercase demo_settings.
Proof. apply settings_defaults_ok_iff. by vm_compute. Qed.

Lemma validate_settings_iff_witness :
  @validate_settings ascii_uppercase demo_settings = Ok demo_settings.
Proof. apply validate_settings_iff. split; [done | apply demo_settings_ok]. Defined.

Lemma strict_update_sound_witness :
  @settings_ok ascii_uppercase (demo_settings <| rs_topic := u "planning" |>).
Proof.
  apply (@strict_update_sound ascii_uppercase demo_settings demo_settings_payload (u "r1")).
  by vm_compute.
Defined.

Lemma revision_identifies_settings_witness : demo_settings = settings_defaults (u " General ").
Proof.
  apply (@revision_identifies_settings ascii_uppercase identity_digest).
  - by intros a b.
  - apply demo_settings_ok.
  - apply settings_defaults_ok_iff. by vm_compute.
  - by vm_compute.
Defined.
