(* ===== verification/Random.v ===== *)
(** * Room randomness (agentsassemble-domain/src/room_turn.rs)

    The strict request for a dice roll or a random choice, shared by people and
    providers: its parser, its canonical notation and its bounds. *)

From Stdlib Require Import String.
From stdpp Require Import pretty strings.
From S2P Require Import Prelude Text Json Model Command Vote.

(** The regex crate's Unicode class [\d]. *)
Class RegexDigit : Type := regex_digit : char -> bool.
Definition ascii_regex_digit : RegexDigit := is_ascii_digit.

Inductive RoomRandomRequest : Type :=
| Roll (notation : str) (count sides : N) (modifier : Z) (reason : str)
| Choose (options : list str) (reason : str).

Inductive RoomRandomResult : Type :=
| RollDice (notation : str) (rolls : list N) (modifier total : Z)
| ChooseRandom (choice : str) (index option_count : nat) (options : list str).

Record RoomRandomError : Type := MkRoomRandomError { rre_message : str }.
Definition rejected (message : string) : RoomRandomError := MkRoomRandomError (u message).
Abbreviation rand A := (result RoomRandomError A) (only parsing).

(** ** The dice notation

    [^\s*(\d{0,3})d(\d{1,4})([+-]\d{1,5})?\s*$] with case ignored. White space,
    digits, [d] and the signs are disjoint, so the match is read from left to
    right. The first group takes part in every match, if only with the empty
    text; the third is absent when there is no sign. *)

Fixpoint span {A} (p : A -> bool) (l : list A) : list A * list A :=
  match l with
  | [] => ([], [])
  | a :: l' => if p a then let '(x, y) := span p l' in (a :: x, y) else ([], l)
  end.

Definition is_sign (c : char) : bool := (c =? 43)%N || (c =? 45)%N.
Definition between (lo hi n : nat) : bool := (lo <=? n)%nat && (n <=? hi)%nat.

Section random.
Context `{UnicodeGeneralCategory, RegexDigit}.

Definition dice_captures (value : str) : option (str * str * option str) :=
  let rest := trim_start is_whitespace value in
  let '(count, rest) := span regex_digit rest in
  if negb (between 0 3 (length count)) then None else
  match rest with
  | c :: rest =>
      if negb ((c =? 100)%N || (c =? 68)%N) then None else
      let '(sides, rest) := span regex_digit rest in
      if negb (between 1 4 (length sides)) then None else
      match rest with
      | s :: rest' =>
          if is_sign s then
            let '(digits, rest'') := span regex_digit rest' in
            if between 1 5 (length digits) && all is_whitespace rest''
            then Some (count, sides, Some (s :: digits)) else None
          else if all is_whitespace rest then Some (count, sides, None) else None
      | [] => Some (count, sides, None)
      end
  | [] => None
  end.

Definition i32_min : Z := -2147483648.
Definition i32_max : Z := 2147483647.

(** [format!("{modifier:+}")] *)
Definition show_signed (z : Z) : str := if z <? 0 then show_Z z else 43%N :: show_Z z.

Definition dice_notation (count sides : N) (modifier : Z) : str :=
  if modifier =? 0 then show_N count ++ u "d" ++ show_N sides
  else show_N count ++ u "d" ++ show_N sides ++ show_signed modifier.

Definition parse_dice (value : str) (reason : str) : rand RoomRandomRequest :=
  captures ← ok_or (dice_captures value)
    (rejected "Dice notation must look like d20, 2d6, or 1d20+3.");
  let '(count, sides, modifier) := captures in
  count ← ok_or (parse_unsigned u32_max count)
    (rejected "A dice roll must use between 1 and 100 dice.");
  sides ← ok_or (parse_unsigned u32_max sides)
    (rejected "Dice must have between 2 and 1000 sides.");
  modifier ← ok_or (parse_signed i32_min i32_max (default (u "0") modifier))
    (rejected "The dice modifier is out of range.");
  require ((1 <=? count) && (count <=? 100))%N
    (rejected "A dice roll must use between 1 and 100 dice.");;
  require ((2 <=? sides) && (sides <=? 1000))%N
    (rejected "Dice must have between 2 and 1000 sides.");;
  require ((-100000 <=? modifier) && (modifier <=? 100000))
    (rejected "The dice modifier is out of range.");;
  mret (Roll (dice_notation count sides modifier) count sides modifier reason).

(** ** The request *)

Definition require_random_keys (object_keys allowed : list str) : rand unit :=
  match List.find (fun key => negb (contains allowed key)) object_keys with
  | Some key => Err (MkRoomRandomError (u "Unknown room randomness field `" ++ key ++ u "`."))
  | None => Ok tt
  end.

Definition random_option (v : value) : rand str :=
  ok_or
    (s ← as_str v;
     let s := clean_single_line s 200 in
     if negb (bool_decide (s = [])) && has_visible_text s then Some s else None)
    (rejected "Random choice requires 2 to 50 non-empty options.").

Definition random_reason (object : object) : rand str :=
  match get object (u "reason") with
  | None => Ok []
  | Some (VString value) => Ok (clean_single_line value 200)
  | Some _ => Err (rejected "Room randomness reason must be text.")
  end.

Definition random_parse (action : str) (payload : value) : rand RoomRandomRequest :=
  object ← ok_or (as_object payload) (rejected "Room randomness payload must be an object.");
  reason ← random_reason object;
  if decide (action = u "room.random.roll") then
    require_random_keys (keys object) [u "notation"; u "reason"];;
    notation ← ok_or (get object (u "notation") ≫= as_str)
      (rejected "Dice notation must be text.");
    parse_dice notation reason
  else if decide (action = u "room.random.choose") then
    require_random_keys (keys object) [u "options"; u "reason"];;
    values ← ok_or (get object (u "options") ≫= as_array)
      (rejected "Random choice requires a list of options.");
    require (between 2 50 (length values))
      (rejected "Random choice requires 2 to 50 non-empty options.");;
    options ← traverse random_option values;
    mret (Choose options reason)
  else Err (rejected "Unsupported room randomness operation.").

Definition random_operation (r : RoomRandomRequest) : str :=
  match r with Roll _ _ _ _ _ => u "roll_dice" | Choose _ _ => u "choose_random" end.

Definition room_action (r : RoomRandomRequest) : str :=
  match r with Roll _ _ _ _ _ => u "room.random.roll" | Choose _ _ => u "room.random.choose" end.

Definition canonical_payload (r : RoomRandomRequest) : value :=
  match r with
  | Roll notation _ _ _ reason =>
      VObject [(u "notation", VString notation); (u "reason", VString reason)]
  | Choose options reason =>
      VObject [(u "options", VStrings options); (u "reason", VString reason)]
  end.

Definition random_request_reason (r : RoomRandomRequest) : str :=
  match r with Roll _ _ _ _ reason | Choose _ reason => reason end.

(** ** The requests that are in canonical form *)

Definition dice_bounds (count sides : N) (modifier : Z) : Prop :=
  (1 <= count <= 100)%N /\ (2 <= sides <= 1000)%N /\ -99999 <= modifier <= 99999.

Definition option_text_ok (s : str) : Prop :=
  clean_single_line s 200 = s /\ s ≠ [] /\ has_visible_text s = true.

Definition random_request_ok (r : RoomRandomRequest) : Prop :=
  clean_single_line (random_request_reason r) 200 = random_request_reason r /\
  match r with
  | Roll notation count sides modifier _ =>
      dice_bounds count sides modifier /\ notation = dice_notation count sides modifier
  | Choose options _ => (2 <= length options <= 50)%nat /\ Forall option_text_ok options
  end.
End random.

(** ** Decimal numbers are read back *)

Lemma digits_value_app a b :
  digits_value (a ++ b) = fold_left (fun acc c => (10 * acc + digit_value c)%N) b (digits_value a).
Proof. unfold digits_value. apply fold_left_app. Qed.

Lemma pretty_N_char_digit n : (n < 10)%N ->
  digit_value (Ascii.N_of_ascii (pretty_N_char n)) = n.
Proof.
  intros Hn. destruct n as [|p]; [done|]. do 4 (destruct p as [p|p|]; try done); lia.
Qed.

Lemma pretty_N_go_digits n : forall s,
  u (pretty_N_go n s) = u (pretty_N_go n EmptyString) ++ u s.
Proof.
  induction n as [n IH] using (well_founded_induction N.lt_wf_0); intros s.
  destruct (decide (n = 0)%N) as [->|Hn]; [by rewrite !pretty_N_go_0|].
  rewrite !(pretty_N_go_step n) by lia. assert (n `div` 10 < n)%N as Hlt by (apply N.div_lt; lia).
  rewrite (IH _ Hlt (String _ s)), (IH _ Hlt (String _ EmptyString)), <- app_assoc. done.
Qed.

Lemma digits_value_pretty_N_go n : digits_value (u (pretty_N_go n EmptyString)) = n.
Proof.
  induction n as [n IH] using (well_founded_induction N.lt_wf_0).
  destruct (decide (n = 0)%N) as [->|Hn]; [by rewrite pretty_N_go_0|].
  rewrite (pretty_N_go_step n) by lia. assert (n `div` 10 < n)%N as Hlt by (apply N.div_lt; lia).
  rewrite pretty_N_go_digits, digits_value_app, (IH _ Hlt).
  unfold u. cbn [fold_left]. rewrite pretty_N_char_digit by (by apply N.mod_lt).
  pose proof (N.div_mod n 10 ltac:(done)). lia.
Qed.

Lemma parse_digits_show n : parse_digits (show_N n) = Some n.
Proof.
  assert (all is_ascii_digit (show_N n) = true) as Hall by (apply all_true_Forall, show_N_digits).
  unfold parse_digits. rewrite Hall. pose proof (show_N_nonempty n) as Hne.
  destruct (show_N n) as [|c s] eqn:E; [done|]. rewrite <- E. f_equal.
  unfold show_N, pretty, pretty_N. case_decide as Hn; [by subst|]. apply digits_value_pretty_N_go.
Qed.

Lemma show_N_head n c s : show_N n = c :: s -> is_ascii_digit c = true.
Proof. intros E. pose proof (show_N_digits n) as Hd. rewrite E in Hd. by inversion Hd. Qed.

Lemma parse_unsigned_show max n : (n <= max)%N -> parse_unsigned max (show_N n) = Some n.
Proof.
  intros Hn. unfold parse_unsigned. destruct (show_N n) as [|c s] eqn:E; [by apply show_N_nonempty in E|].
  assert ((c =? 43)%N = false) as ->.
  { apply show_N_head in E. unfold is_ascii_digit in E. lia. }
  rewrite <- E, parse_digits_show. by rewrite (proj2 (N.leb_le n max)).
Qed.

Lemma parse_signed_show min max z :
  z ≠ 0 -> min <= z <= max -> parse_signed min max (show_signed z) = Some z.
Proof.
  intros Hz Hb. unfold parse_signed, show_signed. destruct (z <? 0) eqn:Hneg.
  - rewrite show_Z_neg by lia. cbn [N.eqb Pos.eqb MINUS].
    rewrite parse_digits_show. cbn. rewrite Z2N.id by lia.
    replace (- - z) with z by lia.
    by rewrite (proj2 (Z.leb_le min z)), (proj2 (Z.leb_le z max)) by lia.
  - unfold show_Z. rewrite Hneg. cbn [N.eqb Pos.eqb].
    rewrite parse_digits_show. cbn. rewrite Z2N.id by lia.
    by rewrite (proj2 (Z.leb_le min z)), (proj2 (Z.leb_le z max)) by lia.
Qed.

Lemma pretty_N_go_length k : forall n, (n < 10 ^ N.of_nat k)%N ->
  (length (u (pretty_N_go n EmptyString)) <= k)%nat.
Proof.
  induction k as [|k IH]; intros n Hn.
  - replace n with 0%N by (simpl in Hn; lia). by rewrite pretty_N_go_0.
  - destruct (decide (n = 0)%N) as [->|Hn0]; [rewrite pretty_N_go_0; simpl; lia|].
    rewrite (pretty_N_go_step n) by lia. rewrite pretty_N_go_digits, length_app.
    assert (n `div` 10 < 10 ^ N.of_nat k)%N as Hd.
    { apply N.Div0.div_lt_upper_bound. rewrite Nat2N.inj_succ, N.pow_succ_r' in Hn. lia. }
    specialize (IH _ Hd). simpl. lia.
Qed.

Lemma show_N_length k n : (0 < k)%nat -> (n < 10 ^ N.of_nat k)%N -> (1 <= length (show_N n) <= k)%nat.
Proof.
  intros Hk Hn. pose proof (show_N_nonempty n) as Hne.
  assert (length (show_N n) <= k)%nat as Hl.
  { unfold show_N, pretty, pretty_N. case_decide; [simpl; lia|]. by apply pretty_N_go_length. }
  destruct (show_N n); simpl in *; [done|lia].
Qed.

Lemma digits_value_bound s :
  Forall (fun c => is_ascii_digit c = true) s -> (digits_value s < 10 ^ N.of_nat (length s))%N.
Proof.
  induction s as [|c s IH] using rev_ind; intros Hs; [done|].
  apply Forall_app in Hs as [Hs Hc]. rewrite Forall_singleton in Hc. specialize (IH Hs).
  rewrite digits_value_app, length_app, Nat.add_1_r, Nat2N.inj_succ, N.pow_succ_r'.
  cbn [fold_left]. unfold digit_value, is_ascii_digit in *. lia.
Qed.

Lemma parse_digits_bound s n :
  parse_digits s = Some n -> (n < 10 ^ N.of_nat (length s))%N.
Proof.
  unfold parse_digits. destruct s as [|c s]; [done|]. case_match eqn:E; [|done].
  intros [= <-]. apply digits_value_bound. by apply all_true_Forall.
Qed.

Lemma parse_signed_bound min max c s z :
  is_sign c = true -> parse_signed min max (c :: s) = Some z ->
  Z.abs z < 10 ^ Z.of_nat (length s).
Proof.
  unfold is_sign, parse_signed. intros Hc Hp.
  assert (exists n, parse_digits s = Some n /\ Z.abs z = Z.of_N n) as (n & Hn & ->).
  { destruct (c =? 45)%N; [|destruct (c =? 43)%N; [|done]];
      (destruct (parse_digits s) as [n|]; [|done]); cbn in Hp; case_match; simplify_eq;
      exists n; split; auto; lia. }
  apply parse_digits_bound in Hn. rewrite <- nat_N_Z, <- (N2Z.inj_pow 10). lia.
Qed.

Lemma span_length {A} (p : A -> bool) l a b : span p l = (a, b) -> l = a ++ b.
Proof.
  revert a b. induction l as [|x l IH]; intros a b; simpl; [by intros [= <- <-]|].
  destruct (p x); [|by intros [= <- <-]].
  destruct (span p l) as [c d]. intros [= <- <-]. simpl. f_equal. by apply IH.
Qed.

Lemma span_app {A} (p : A -> bool) a b :
  Forall (fun x => p x = true) a -> (forall x, head b = Some x -> p x = false) ->
  span p (a ++ b) = (a, b).
Proof.
  intros Ha Hb. induction Ha as [|x a Hx Ha IH]; simpl.
  - destruct b as [|y b]; [done|]. simpl. by rewrite (Hb y).
  - by rewrite Hx, IH.
Qed.

(** ** Theorems *)

Section random_theorems.
Context `{UnicodeGeneralCategory, RegexDigit}.

Lemma dice_captures_sign value c s m :
  dice_captures value = Some (c, s, Some m) ->
  exists x ds, m = x :: ds /\ is_sign x = true /\ (length ds <= 5)%nat.
Proof.
  unfold dice_captures. destruct (span regex_digit _) as [a rest]. case_match; [done|].
  destruct rest as [|d rest]; [done|]. case_match; [done|].
  destruct (span regex_digit rest) as [b rest']. case_match; [done|].
  destruct rest' as [|x rest']; [done|]. destruct (is_sign x) eqn:Hx; [|by case_match].
  destruct (span regex_digit rest') as [ds rest'']. case_match eqn:Hb; [|done].
  intros [= <- <- <-]. exists x, ds. split_and!; [done|done|].
  unfold between in Hb. lia.
Qed.

Lemma captured_modifier_bound value c s m z :
  dice_captures value = Some (c, s, m) ->
  parse_signed i32_min i32_max (default (u "0") m) = Some z -> -99999 <= z <= 99999.
Proof.
  intros Hc Hz. destruct m as [m|]; simpl in Hz.
  - apply dice_captures_sign in Hc as (sg & ds & -> & Hx & Hl).
    apply parse_signed_bound in Hz; [|done].
    assert (10 ^ Z.of_nat (length ds) <= 10 ^ 5) by (apply Z.pow_le_mono_r; lia). lia.
  - vm_compute in Hz. injection Hz as <-. lia.
Qed.

Lemma parse_dice_sound value reason r :
  parse_dice value reason = Ok r ->
  exists count sides modifier, dice_bounds count sides modifier /\
    r = Roll (dice_notation count sides modifier) count sides modifier reason.
Proof.
  unfold parse_dice. intros Hp. apply bind_Ok in Hp as ([[c s] m] & Hc & Hp).
  apply ok_or_Ok in Hc. res_inv. eexists _, _, _. split; [|reflexivity].
  match goal with Hm : parse_signed _ _ _ = Some _ |- _ => rename Hm into Hsigned end.
  pose proof (captured_modifier_bound _ _ _ _ _ Hc Hsigned). unfold dice_bounds. lia.
Qed.

Lemma random_option_Ok v s :
  random_option v = Ok s -> s ≠ [] /\ has_visible_text s = true /\ (length s <= 200)%nat.
Proof.
  unfold random_option. intros Ho. apply ok_or_Ok, bind_Some in Ho as (t & _ & Ht).
  case_match eqn:E; [|done]. injection Ht as <-. bool_to_prop.
  split_and!; [done|done|apply clean_single_line_length].
Qed.

(** What an accepted request is: its action, and the bounds of its fields. *)
Theorem random_parse_sound action payload r :
  random_parse action payload = Ok r ->
  room_action r = action /\ (length (random_request_reason r) <= 200)%nat /\
  match r with
  | Roll notation count sides modifier _ =>
      dice_bounds count sides modifier /\ notation = dice_notation count sides modifier
  | Choose options _ =>
      (2 <= length options <= 50)%nat /\
      Forall (fun s => s ≠ [] /\ has_visible_text s = true /\ (length s <= 200)%nat) options
  end.
Proof.
  unfold random_parse. intros Hp. apply bind_Ok in Hp as (o & _ & Hp).
  apply bind_Ok in Hp as (reason & Hr & Hp).
  assert (length reason <= 200)%nat as Hl.
  { unfold random_reason in Hr. destruct (get o (u "reason")) as [[]|]; try discriminate;
      injection Hr as <-; [apply clean_single_line_length | simpl; lia]. }
  case_decide; subst; [|case_decide; subst; [|done]]; res_inv.
  - apply parse_dice_sound in Hp as (c & s & m & Hb & ->). done.
  - split; [done|]. split; [done|]. simpl. split.
    + unfold between in *.
      match goal with Ht : Forall2 _ _ _ |- _ => apply Forall2_length in Ht end. lia.
    + match goal with Ht : Forall2 _ _ _ |- _ => eapply Forall2_Forall_r; [exact Ht|] end.
      apply Forall_forall. intros v _ s. apply random_option_Ok.
Qed.

(** The canonical form of a request is read back, whatever Unicode digits [\d]
    also admits: within ASCII it is the digits. *)
Hypothesis regex_digit_ascii : forall c, (c < 128)%N -> regex_digit c = is_ascii_digit c.

Lemma show_N_regex n : Forall (fun c => regex_digit c = true) (show_N n).
Proof.
  eapply Forall_impl; [apply show_N_digits|]. intros c Hc. cbv beta in *.
  rewrite regex_digit_ascii; [done|]. unfold is_ascii_digit in Hc. lia.
Qed.

Lemma dice_captures_notation count sides modifier :
  dice_bounds count sides modifier ->
  dice_captures (dice_notation count sides modifier) =
  Some (show_N count, show_N sides, if modifier =? 0 then None else Some (show_signed modifier)).
Proof.
  intros (Hc & Hs & Hm).
  pose proof (show_N_length 3 count ltac:(lia) ltac:(simpl; lia)) as Hlc.
  pose proof (show_N_length 4 sides ltac:(lia) ltac:(simpl; lia)) as Hls.
  assert (forall rest, dice_captures (show_N count ++ u "d" ++ show_N sides ++ rest) =
    dice_captures (show_N count ++ u "d" ++ show_N sides ++ rest)) as _ by done.
  assert (forall rest, trim_start is_whitespace (show_N count ++ rest) = show_N count ++ rest) as Htrim.
  { intros rest. apply trim_start_id. destruct (show_N count) as [|x xs] eqn:E; [simpl in Hlc; lia|].
    simpl. intros y [= <-]. apply show_N_head in E. unfold is_ascii_digit, is_whitespace in *. lia. }
  unfold dice_captures, dice_notation. destruct (modifier =? 0) eqn:Hz.
  - rewrite Htrim, span_app; [|apply show_N_regex|intros x [= <-]; by apply regex_digit_ascii].
    unfold between. rewrite (proj2 (Nat.leb_le 0 _)), (proj2 (Nat.leb_le _ 3)) by lia.
    cbn [andb negb u app Ascii.N_of_ascii].
    change (u "d") with [100%N]. cbn [app N.eqb Pos.eqb orb negb].
    rewrite <- (app_nil_r (show_N sides)) at 1.
    rewrite span_app; [|apply show_N_regex|done].
    rewrite (proj2 (Nat.leb_le 1 _)), (proj2 (Nat.leb_le _ 4)) by lia. done.
  - rewrite Htrim, span_app; [|apply show_N_regex|intros x [= <-]; by apply regex_digit_ascii].
    unfold between. rewrite (proj2 (Nat.leb_le 0 _)), (proj2 (Nat.leb_le _ 3)) by lia.
    change (u "d") with [100%N]. cbn [app N.eqb Pos.eqb andb orb negb].
    assert (exists x, show_signed modifier = x :: show_N (Z.abs_N modifier) /\
      is_sign x = true /\ (x < 128)%N) as (x & -> & Hx & Hx128).
    { unfold show_signed. destruct (modifier <? 0) eqn:Hneg.
      - rewrite show_Z_neg by lia. exists MINUS. split_and!; [do 2 f_equal; lia|done|done].
      - exists 43%N. unfold show_Z. rewrite Hneg. split_and!; [do 2 f_equal; lia|done|done]. }
    rewrite span_app; [|apply show_N_regex|].
    2: { intros y [= <-]. rewrite regex_digit_ascii by done. unfold is_sign, is_ascii_digit in *. lia. }
    rewrite (proj2 (Nat.leb_le 1 _)), (proj2 (Nat.leb_le _ 4)) by lia. cbn [andb negb].
    rewrite Hx. rewrite <- (app_nil_r (show_N (Z.abs_N modifier))) at 1.
    rewrite span_app; [|apply show_N_regex|done].
    pose proof (show_N_length 5 (Z.abs_N modifier) ltac:(lia) ltac:(simpl; lia)) as Hlm.
    by rewrite (proj2 (Nat.leb_le 1 _)), (proj2 (Nat.leb_le _ 5)) by lia.
Qed.

Lemma parse_dice_notation count sides modifier reason :
  dice_bounds count sides modifier ->
  parse_dice (dice_notation count sides modifier) reason =
  Ok (Roll (dice_notation count sides modifier) count sides modifier reason).
Proof.
  intros Hb. pose proof Hb as (Hc & Hs & Hm). unfold parse_dice.
  rewrite dice_captures_notation by done. cbn [ok_or mbind result_bind].
  rewrite !parse_unsigned_show by (unfold u32_max; lia). cbn [ok_or mbind result_bind].
  assert (parse_signed i32_min i32_max
    (default (u "0") (if modifier =? 0 then None else Some (show_signed modifier))) = Some modifier) as ->.
  { destruct (modifier =? 0) eqn:Hz; [apply Z.eqb_eq in Hz; by subst|].
    cbn. apply parse_signed_show; unfold i32_min, i32_max; lia. }
  cbn [ok_or mbind result_bind].
  rewrite !(proj2 (N.leb_le _ _)), !(proj2 (Z.leb_le _ _)) by lia. done.
Qed.

(** every valid request for randomness is read back from its payload. *)
Theorem random_request_roundtrip r :
  random_request_ok r -> random_parse (room_action r) (canonical_payload r) = Ok r.
Proof.
  destruct r as [n c s m reason|os reason]; intros [Hr Hok]; cbn [random_request_reason] in Hr.
  - destruct Hok as [Hb ->]. unfold random_parse, canonical_payload, random_reason.
    cbn -[get dice_notation clean_single_line parse_dice]. eval_get.
    cbn -[get dice_notation clean_single_line parse_dice]. rewrite Hr. rewrite decide_True by done. eval_get.
    cbn -[dice_notation parse_dice]. by apply parse_dice_notation.
  - destruct Hok as [Hl Hos]. unfold random_parse, canonical_payload, random_reason.
    cbn -[get clean_single_line]. eval_get. cbn -[get clean_single_line]. rewrite Hr. rewrite decide_False, decide_True by done. eval_get.
    cbn -[between traverse]. rewrite length_map. unfold between.
    rewrite (proj2 (Nat.leb_le 2 _)), (proj2 (Nat.leb_le _ 50)) by lia. cbn -[traverse].
    assert (traverse random_option (map VString os) = Ok os) as ->; [|done].
    apply traverse_Ok_Forall2. clear Hl. induction Hos as [|o os (Hc & Hne & Hv) Hos IH]; [constructor|].
    simpl. constructor; [|done]. unfold random_option. cbn -[clean_single_line].
    by rewrite Hc, bool_decide_eq_false_2, Hv.
Qed.

(** The shorthand the error message itself recommends, [d20], is refused: the
    first group always takes part in the match, so the default count of one is
    never used and the empty count does not parse. *)

(** the shorthand the error message itself recommends, d20, is refused: the default
    count of one is never used. *)
Theorem dice_shorthand_refused reason :
  parse_dice (u "d20") reason = Err (rejected "A dice roll must use between 1 and 100 dice.") /\
  parse_dice (u "1d20") reason = Ok (Roll (u "1d20") 1 20 0 reason).
Proof.
  split; [|exact (parse_dice_notation 1 20 0 reason ltac:(unfold dice_bounds; lia))].
  assert (dice_captures (u "d20") = Some ([], u "20", None)) as Hc.
  { unfold dice_captures. change (u "d20") with ([] ++ 100%N :: [50; 48]%N).
    change (u "20") with [50; 48]%N. cbn -[span].
    assert (forall l, span regex_digit (100%N :: l) = ([], 100%N :: l)) as ->.
    { intros l. simpl. by rewrite regex_digit_ascii. }
    cbn -[span]. assert (span regex_digit [50; 48]%N = ([50; 48]%N, [])) as ->; [|done].
    simpl. by rewrite !regex_digit_ascii. }
  unfold parse_dice. by rewrite Hc.
Qed.
End random_theorems.

(** ** Concrete inputs *)

Lemma ascii_regex_digit_ascii c : (c < 128)%N -> ascii_regex_digit c = is_ascii_digit c.
Proof. done. Qed.

Lemma random_parse_sound_witness :
  room_action (Roll (u "2d6+3") 2 6 3 (u "initiative")) = u "room.random.roll".
Proof.
  apply (@random_parse_sound ascii_general_category ascii_regex_digit (u "room.random.roll")
    (VObject [(u "notation", VString (u " 2D6+3 ")); (u "reason", VString (u " initiative "))])).
  by vm_compute.
Defined.

Lemma random_request_roundtrip_witness :
  @random_parse ascii_general_category ascii_regex_digit (u "room.random.roll")
    (canonical_payload (Roll (u "2d6+3") 2 6 3 (u "initiative"))) =
  Ok (Roll (u "2d6+3") 2 6 3 (u "initiative")).
Proof.
  apply (@random_request_roundtrip ascii_general_category ascii_regex_digit ascii_regex_digit_ascii
    (Roll (u "2d6+3") 2 6 3 (u "initiative"))).
  split; [by vm_compute|]. split; [unfold dice_bounds; lia | by vm_compute].
Defined.

Lemma dice_shorthand_refused_witness :
  is_ok (@parse_dice ascii_regex_digit (u "d20") []) = false.
Proof.
  by rewrite (proj1 (@dice_shorthand_refused ascii_regex_digit ascii_regex_digit_ascii [])).
Defined.
