(* ===== verification/Store.v ===== *)
(** * The durable store (agentsassemble-persistence/src/sqlite.rs)

    A transaction runs against a store value and either commits its new value
    or fails and leaves the old one: an operation is a function from the store to
    a result that carries the next store. A table is a finite map from its
    primary key; inserting a row whose key is present violates the constraint. *)

From Stdlib Require Import String.
From stdpp Require Import gmap.
From S2P Require Import Prelude Model Command.

(** The failures of the modelled operations. *)
Inductive PersistenceError : Type :=
| Database                                  (* a constraint of the schema *)
| StoredJson                                (* a stored document does not deserialize *)
| RoomMissing
| ParticipantMissing
| CommandConflict
| CommandRejected (code message : str)
| StoredCommandRejected (code message : str)
| CommandUnresolved (code message : str).

#[global] Instance PersistenceError_eq_dec : EqDecision PersistenceError.
Proof. solve_decision. Defined.

Abbreviation tx A := (result PersistenceError A) (only parsing).

Definition rejected_tx (code message : string) : PersistenceError :=
  CommandRejected (u code) (u message).

(** A domain rejection becomes a persistence error with the same code. *)
Definition from_rejection (r : CommandRejection) : PersistenceError :=
  CommandRejected (rej_code r) (rej_message r).

Definition lift_rejection {A} (r : result CommandRejection A) : tx A := map_err from_rejection r.

(** [INSERT INTO t VALUES (key, row)] *)
Definition insert_row {K A} `{Countable K} (key : K) (row : A) (t : gmap K A) : tx (gmap K A) :=
  match t !! key with
  | Some _ => Err Database
  | None => Ok (<[key := row]> t)
  end.

Lemma insert_row_Ok {K A} `{Countable K} (key : K) (row : A) t t' :
  insert_row key row t = Ok t' <-> t !! key = None /\ t' = <[key := row]> t.
Proof. unfold insert_row. destruct (t !! key); split; intuition congruence. Qed.

Lemma insert_row_fresh {K A} `{Countable K} (key : K) (row : A) t :
  t !! key = None -> insert_row key row t = Ok (<[key := row]> t).
Proof. unfold insert_row. by intros ->. Qed.

(** [UPDATE t SET .. WHERE p]: the rows that satisfy [p] are replaced; the code requires that
    exactly one was. *)
Definition matching {K A} `{Countable K} (p : K -> A -> bool) (t : gmap K A) : list (K * A) :=
  filter (fun e : K * A => p e.1 e.2 = true) (map_to_list t).
Definition update_where {K A} `{Countable K} (p : K -> A -> bool) (f : A -> A) (t : gmap K A) : gmap K A :=
  map_imap (fun k a => Some (if p k a then f a else a)) t.
Definition update_one {K A} `{Countable K} (p : K -> A -> bool) (f : A -> A) (e : PersistenceError) (t : gmap K A) :
    tx (gmap K A) :=
  require (bool_decide (length (matching p t) = 1%nat)) e ;; mret (update_where p f t).

Lemma elem_of_matching {K A} `{Countable K} (p : K -> A -> bool) (t : gmap K A) k a :
  (k, a) ∈ matching p t <-> t !! k = Some a /\ p k a = true.
Proof. unfold matching. rewrite list_elem_of_filter, elem_of_map_to_list. simpl. tauto. Qed.

Lemma matching_NoDup {K A} `{Countable K} (p : K -> A -> bool) (t : gmap K A) : NoDup (map fst (matching p t)).
Proof.
  unfold matching. apply (NoDup_fmap_2_strong fst).
  - intros [k a] [k' a'] [_ Ha%elem_of_map_to_list]%list_elem_of_filter [_ Ha'%elem_of_map_to_list]%list_elem_of_filter.
    simpl. intros <-. congruence.
  - apply NoDup_filter, NoDup_map_to_list.
Qed.

(** The row such an update replaces is the only one that satisfies the condition. *)
Lemma update_one_Ok {K A} `{Countable K} (p : K -> A -> bool) f e (t t' : gmap K A) :
  update_one p f e t = Ok t' ->
  exists k a, t !! k = Some a /\ p k a = true /\ t' = <[k := f a]> t /\
    (forall k' a', t !! k' = Some a' -> p k' a' = true -> k' = k).
Proof.
  unfold update_one. intros Hr. res_inv. bool_to_prop.
  destruct (matching p t) as [|[k a] [|? ?]] eqn:E; [done| |done].
  assert (forall k' a', t !! k' = Some a' -> p k' a' = true -> k' = k) as Hu.
  { intros k' a' Hk Hp. assert ((k', a') ∈ matching p t) as Hin by (by apply elem_of_matching).
    rewrite E in Hin. by apply list_elem_of_singleton in Hin as [= -> ->]. }
  assert ((k, a) ∈ matching p t) as [Hk Hp]%elem_of_matching by (rewrite E; by apply list_elem_of_singleton).
  exists k, a. split_and!; try done. apply map_eq. intros k'. unfold update_where. rewrite map_lookup_imap.
  destruct (decide (k' = k)) as [->|Hne].
  - rewrite Hk, lookup_insert_eq. simpl. by rewrite Hp.
  - rewrite lookup_insert_ne by done. destruct (t !! k') as [a'|] eqn:Hk'; simpl; [|done].
    destruct (p k' a') eqn:Hp'; [|done]. by apply Hu in Hp'.
Qed.

Lemma lift_rejection_Ok {A} (r : result CommandRejection A) a :
  lift_rejection r = Ok a <-> r = Ok a.
Proof. destruct r; simpl; split; congruence. Qed.

Ltac tx_inv := repeat (first
  [ res_inv_step
  | match goal with
    | H : insert_row _ _ _ = Ok _ |- _ => apply insert_row_Ok in H; destruct H
    | H : lift_rejection _ = Ok _ |- _ => apply lift_rejection_Ok in H
    end ]; subst).
