(* ===== verification/Directory.v ===== *)
(** * The room directory (agentsassemble-persistence/src/room_directory.rs and the
    label rule of agentsassemble-server/src/room_directory_web.rs)

    Creating a room under the local operator in one transaction, replaying the
    same request, and reading the directory. *)

From Stdlib Require Import String.
From stdpp Require Import gmap sorting.
From S2P Require Import Prelude Text Json Model Command Vote Settings Store.

Definition LOCAL_OPERATOR_USER_ID : str := u "operator-local-user".
Definition LOCAL_OPERATOR_PARTICIPANT_ID : str := u "operator-local".

Record StoredRoomSummary : Type := MkStoredRoomSummary {
  srs_room : Room;
  srs_settings : RoomSettings;
  srs_cleanup_pending : bool;
  srs_deletion_pending : bool
}.

Record RoomCreateCommit : Type := MkRoomCreateCommit {
  rcc_room : Room;
  rcc_settings : RoomSettings;
  rcc_events : list RoomEvent;
  rcc_deduplicated : bool;
  rcc_server_id : str;
  rcc_authority_lineage_id : str
}.
#[global] Instance eta_RoomCreateCommit : EtaRecord RoomCreateCommit :=
  fun r => MkRoomCreateCommit (rcc_room r) (rcc_settings r) (rcc_events r) (rcc_deduplicated r)
    (rcc_server_id r) (rcc_authority_lineage_id r).

(** The part of the operator's profile a membership copies, and the identity of
    the database authority. *)
Record OperatorProfile : Type := MkOperatorProfile { op_display_name : str; op_avatar_image_url : str }.
Record Authority : Type := MkAuthority { au_server_id : str; au_authority_lineage_id : str }.

(** The tables the directory reads and writes. *)
Record DirectoryStore : Type := MkDirectoryStore {
  ds_rooms : gmap str (Room * RoomSettings);
  ds_publication_cursors : gmap str Z;
  ds_participants : gmap (str * str) Participant;
  ds_room_events : gmap (str * Z) RoomEvent;
  ds_create_results : gmap (str * str) (str * RoomCreateCommit);
  ds_runtime_cleanup : gset str;
  ds_delete_pending : gset str;
  ds_profile : OperatorProfile;
  ds_authority : Authority
}.
#[global] Instance eta_DirectoryStore : EtaRecord DirectoryStore :=
  fun r => MkDirectoryStore (ds_rooms r) (ds_publication_cursors r) (ds_participants r)
    (ds_room_events r) (ds_create_results r) (ds_runtime_cleanup r) (ds_delete_pending r)
    (ds_profile r) (ds_authority r).

(** The random identities and the time one creation draws. *)
Record CreationDraw : Type := MkCreationDraw { cd_now : instant; cd_room_uid : str; cd_event_id : str }.

Section directory.
Context `{CharCase, Sha256, UuidCrate}.

(** serde re-validates a settings document each time it is read. *)
Definition load_settings (s : RoomSettings) : tx RoomSettings :=
  map_err (fun _ => StoredJson) (validate_settings s).

Definition invalid_room_state : PersistenceError :=
  rejected_tx "invalid_state" "Stored room authority is invalid.".

Definition room_created_event (id room_id label : str) (now : instant) : RoomEvent :=
  {| ev_v := 1; ev_id := id; ev_seq := 1; ev_created_at := now; ev_room_id := room_id;
     ev_event_type := u "room_created";
     ev_actor := MkActor LOCAL_OPERATOR_PARTICIPANT_ID (u "human");
     ev_participant_id := None; ev_participant_type := None;
     ev_actor_id := Some LOCAL_OPERATOR_PARTICIPANT_ID; ev_actor_type := Some (u "human");
     ev_display_name := None; ev_content := None; ev_message_kind := None;
     ev_extra := {[ u "label" := VString label ]} |}.

(** The deserializer skips the authority fields and validates the settings. *)
Definition load_commit (c : RoomCreateCommit) : tx RoomCreateCommit :=
  settings ← load_settings (rcc_settings c);
  mret (c <| rcc_settings := settings |> <| rcc_server_id := [] |>
          <| rcc_authority_lineage_id := [] |>).

Definition replay_room_creation (st : DirectoryStore) (request_id room_id label payload_hash : str) :
    tx (option RoomCreateCommit) :=
  match ds_create_results st !! (LOCAL_OPERATOR_USER_ID, request_id) with
  | None => Ok None
  | Some (stored_hash, result_json) =>
      reject_if (negb (bool_decide (stored_hash = payload_hash)))
        (rejected_tx "room_create_request_conflict"
          "Room creation request id was reused with a different payload.");;
      stored ← load_commit result_json;
      reject_if (rcc_deduplicated stored ||
                 negb (bool_decide (rm_room_id (rcc_room stored) = room_id)) ||
                 negb (bool_decide (rs_label (rcc_settings stored) = label)))
        invalid_room_state;;
      mret (Some (stored
        <| rcc_deduplicated := true |> <| rcc_events := [] |>
        <| rcc_server_id := au_server_id (ds_authority st) |>
        <| rcc_authority_lineage_id := au_authority_lineage_id (ds_authority st) |>))
  end.

Definition creator_participant (st : DirectoryStore) (room_id : str) (now : instant) : Participant :=
  {| pt_room_id := room_id; pt_participant_id := LOCAL_OPERATOR_PARTICIPANT_ID;
     pt_display_name := op_display_name (ds_profile st);
     pt_avatar_image_url := op_avatar_image_url (ds_profile st);
     pt_participant_type := u "human"; pt_status := Joined; pt_role := Human;
     pt_owner_id := []; pt_muted := false; pt_created_at := now; pt_updated_at := now |}.

Definition create_room_in_transaction (st : DirectoryStore) (draw : CreationDraw)
    (request_id room_id label payload_hash : str) : tx (RoomCreateCommit * DirectoryStore) :=
  replay ← replay_room_creation st request_id room_id label payload_hash;
  match replay with
  | Some replay => Ok (replay, st)
  | None =>
      match ds_rooms st !! room_id with
      | Some (room, settings) =>
          settings ← load_settings settings;
          reject_if (negb (bool_decide (rm_room_id room = room_id)) ||
                     negb (bool_decide (rs_label settings = rm_label room)))
            invalid_room_state;;
          Err (rejected_tx "room_already_exists" "A different request already owns this room id.")
      | None =>
          let now := cd_now draw in
          let room := new_room (cd_room_uid draw) room_id label now in
          let settings := settings_defaults label in
          let event := room_created_event (cd_event_id draw) room_id label now in
          rooms ← insert_row room_id (room, settings) (ds_rooms st);
          cursors ← insert_row room_id 0 (ds_publication_cursors st);
          participants ← insert_row (room_id, LOCAL_OPERATOR_PARTICIPANT_ID)
            (creator_participant st room_id now) (ds_participants st);
          events ← insert_row (room_id, 1) event (ds_room_events st);
          let commit := {|
            rcc_room := room; rcc_settings := settings; rcc_events := [event];
            rcc_deduplicated := false; rcc_server_id := au_server_id (ds_authority st);
            rcc_authority_lineage_id := au_authority_lineage_id (ds_authority st) |} in
          results ← insert_row (LOCAL_OPERATOR_USER_ID, request_id) (payload_hash, commit)
            (ds_create_results st);
          mret (commit, st <| ds_rooms := rooms |> <| ds_publication_cursors := cursors |>
            <| ds_participants := participants |> <| ds_room_events := events |>
            <| ds_create_results := results |>)
      end
  end.

Definition create_payload_hash (room_id label : str) : str :=
  canonical_payload_hash (VObject [(u "room_id", VString room_id); (u "label", VString label)]).

Definition create_room_for_local_operator (st : DirectoryStore) (draw : CreationDraw)
    (request_id room_id label : str) : tx (RoomCreateCommit * DirectoryStore) :=
  reject_if (bool_decide (parse_uuid request_id = None))
    (rejected_tx "room_create_request_invalid" "Room creation request id must be a UUID.");;
  create_room_in_transaction st draw request_id room_id label (create_payload_hash room_id label).

(** room_directory_web.rs: the label of a creation request *)
Definition creation_label (raw_label room_id : str) : str :=
  let label := clean_single_line raw_label 128 in
  if bool_decide (label = []) then room_id else label.

(** Directory order: latest update first, then by identifier. *)
Definition directory_le (a b : StoredRoomSummary) : Prop :=
  rm_updated_at (srs_room b) < rm_updated_at (srs_room a) \/
  (rm_updated_at (srs_room a) = rm_updated_at (srs_room b) /\
   str_leb (rm_room_id (srs_room a)) (rm_room_id (srs_room b)) = true).
#[global] Instance directory_le_dec : RelDecision directory_le.
Proof.
  intros a b. unfold directory_le. apply _.
Defined.

Definition list_room_directory (st : DirectoryStore) (include_archived : bool) :
    tx (list StoredRoomSummary) :=
  rooms ← traverse (fun '(row_room_id, (room, settings)) =>
      settings ← load_settings settings;
      require (bool_decide (rm_room_id room = row_room_id)) invalid_room_state;;
      mret {| srs_room := room; srs_settings := settings;
              srs_cleanup_pending := bool_decide (row_room_id ∈ ds_runtime_cleanup st);
              srs_deletion_pending := bool_decide (row_room_id ∈ ds_delete_pending st) |})
    (map_to_list (ds_rooms st));
  mret (merge_sort directory_le
    (List.filter (fun r => include_archived ||
       negb (bool_decide (rm_status (srs_room r) = RoomArchived))) rooms)).

(** ** Lemmas *)

Lemma load_settings_Ok s s' : load_settings s = Ok s' <-> s' = s /\ settings_ok s.
Proof.
  unfold load_settings. rewrite <- validate_settings_ok.
  destruct (validate_settings s); simpl; split; congruence.
Qed.

(** A fresh creation: its record, and the store it leaves. *)
Lemma create_room_fresh st draw request_id room_id label commit st' :
  create_room_for_local_operator st draw request_id room_id label = Ok (commit, st') ->
  rcc_deduplicated commit = false ->
  ds_create_results st' !! (LOCAL_OPERATOR_USER_ID, request_id) =
    Some (create_payload_hash room_id label, commit) /\
  rcc_room commit = new_room (cd_room_uid draw) room_id label (cd_now draw) /\
  rcc_settings commit = settings_defaults label /\
  ds_authority st' = ds_authority st /\
  parse_uuid request_id ≠ None.
Proof.
  unfold create_room_for_local_operator, create_room_in_transaction. intros Hc Hd.
  tx_inv. bool_to_prop.
  match goal with Hr : replay_room_creation _ _ _ _ _ = Ok ?o |- _ => destruct o as [c|] end.
  - tx_inv. simplify_eq. unfold replay_room_creation in *. case_match; [|done].
    destruct p. tx_inv; by simplify_eq/=.
  - case_match; [destruct p; tx_inv; done|]. tx_inv. simplify_eq/=.
    by rewrite lookup_insert_eq.
Qed.

Lemma replay_after_create st draw request_id room_id label commit st' :
  create_room_for_local_operator st draw request_id room_id label = Ok (commit, st') ->
  rcc_deduplicated commit = false ->
  clean_single_line label ROOM_LABEL_LIMIT = label ->
  forall draw', create_room_for_local_operator st' draw' request_id room_id label =
    Ok (commit <| rcc_deduplicated := true |> <| rcc_events := [] |>
          <| rcc_server_id := au_server_id (ds_authority st) |>
          <| rcc_authority_lineage_id := au_authority_lineage_id (ds_authority st) |>, st').
Proof.
  intros Hc Hd Hl draw'. apply create_room_fresh in Hc as (Hres & Hroom & Hset & Hau & Hu); [|done].
  unfold create_room_for_local_operator. rewrite bool_decide_eq_false_2 by done. simpl.
  unfold create_room_in_transaction, replay_room_creation. rewrite Hres.
  rewrite bool_decide_eq_true_2 by done. simpl. unfold load_commit.
  rewrite (proj2 (load_settings_Ok _ (rcc_settings commit))).
  2: { split; [done|]. rewrite Hset. apply settings_defaults_ok_iff. unfold single_line. by rewrite Hl. }
  simpl. rewrite Hd, Hset, Hroom. simpl. rewrite Hl, !bool_decide_eq_true_2 by done. simpl.
  by rewrite Hau.
Qed.

(** ** Theorems *)

(** An exact replay of a creation returns the same room, without events and
    without touching the store, exactly when the label is a canonical single line. *)

(** C39: an exact replay of a room creation returns the same room, without events and
    without touching the store, exactly when the label is a canonical single line. *)
Theorem create_replay_iff st draw draw' request_id room_id label commit st' :
  create_room_for_local_operator st draw request_id room_id label = Ok (commit, st') ->
  rcc_deduplicated commit = false ->
  (exists replay, create_room_for_local_operator st' draw' request_id room_id label = Ok (replay, st') /\
     rcc_deduplicated replay = true /\ rcc_events replay = [] /\
     rcc_room replay = rcc_room commit /\ rcc_settings replay = rcc_settings commit) <->
  clean_single_line label ROOM_LABEL_LIMIT = label.
Proof.
  intros Hc Hd. split.
  - intros (replay & Hr & Hrd & _).
    apply create_room_fresh in Hc as (Hres & _ & Hset & _); [|done].
    unfold create_room_for_local_operator, create_room_in_transaction, replay_room_creation in Hr.
    rewrite Hres in Hr. rewrite bool_decide_eq_true_2 in Hr by done. tx_inv.
    unfold load_commit in *. tx_inv.
    match goal with Hx : load_settings _ = Ok _ |- _ => apply load_settings_Ok in Hx as [-> _] end.
    simpl in *. bool_to_prop. by rewrite Hset in *.
  - intros Hl. eexists. split; [by eapply replay_after_create|]. done.
Qed.

(** A creation adds one room, its operator membership and its first event, and
    changes nothing else; a failed or replayed one changes nothing at all. *)

(** a creation adds one room, its operator membership and its first event, and changes
    nothing else; a failed or replayed one changes nothing at all. *)
Theorem create_room_frame st draw request_id room_id label commit st' :
  create_room_for_local_operator st draw request_id room_id label = Ok (commit, st') ->
  if rcc_deduplicated commit then st' = st else
  ds_rooms st !! room_id = None /\
  ds_rooms st' = <[room_id := (rcc_room commit, rcc_settings commit)]> (ds_rooms st) /\
  ds_participants st' =
    <[(room_id, LOCAL_OPERATOR_PARTICIPANT_ID) := creator_participant st room_id (cd_now draw)]>
    (ds_participants st) /\
  exists event, rcc_events commit = [event] /\ ev_seq event = 1 /\ ev_room_id event = room_id /\
    ds_room_events st' = <[(room_id, 1) := event]> (ds_room_events st).
Proof.
  unfold create_room_for_local_operator, create_room_in_transaction. intros Hc. tx_inv.
  match goal with Hr : replay_room_creation _ _ _ _ _ = Ok ?o |- _ => destruct o as [c|]; rename Hr into Hrep end.
  - tx_inv. simplify_eq. unfold replay_room_creation in Hrep. case_match; [|done].
    destruct p. tx_inv; by simplify_eq/=.
  - case_match; [destruct p; tx_inv; done|]. tx_inv. simplify_eq/=. eauto 10.
Qed.

End directory.

(** ** Concrete inputs *)

Definition demo_directory : DirectoryStore :=
  {| ds_rooms := ∅; ds_publication_cursors := ∅; ds_participants := ∅; ds_room_events := ∅;
     ds_create_results := ∅; ds_runtime_cleanup := ∅; ds_delete_pending := ∅;
     ds_profile := MkOperatorProfile (u "Operator") [];
     ds_authority := MkAuthority (u "server") (u "lineage") |}.

Definition demo_uuid : UuidCrate := fun s => Some s.
Definition demo_draw : CreationDraw := MkCreationDraw 5 (u "uid") (u "event").

Definition demo_create (st : DirectoryStore) (label : str) : tx (RoomCreateCommit * DirectoryStore) :=
  @create_room_for_local_operator ascii_uppercase identity_digest demo_uuid st demo_draw
    (u "request") (u "lab") label.

Definition demo_created (label : str) : RoomCreateCommit * DirectoryStore :=
  match demo_create demo_directory label with
  | Ok r => r
  | Err _ => (MkRoomCreateCommit (new_room [] [] [] 0) (settings_defaults []) [] true [] [], demo_directory)
  end.

Lemma demo_created_Ok label : is_ok (demo_create demo_directory label) = true ->
  demo_create demo_directory label = Ok ((demo_created label).1, (demo_created label).2).
Proof. unfold demo_created. by destruct (demo_create _ _) as [[]|]. Qed.
Lemma demo_lab_Ok : is_ok (demo_create demo_directory (u "Lab")) = true.
Proof. by vm_compute. Qed.
Lemma demo_my_room_Ok : is_ok (demo_create demo_directory (u "my  room")) = true.
Proof. by vm_compute. Qed.

(** A label with two inner spaces: the room is made, the replay is refused. *)
Lemma create_replay_iff_witness :
  ~ (exists replay, demo_create (demo_created (u "my  room")).2 (u "my  room") =
       Ok (replay, (demo_created (u "my  room")).2) /\ rcc_deduplicated replay = true /\ rcc_events replay = [] /\ rcc_room replay = rcc_room (demo_created (u "my  room")).1 /\ rcc_settings replay = rcc_settings (demo_created (u "my  room")).1).
Proof.
  intros Hr.
  pose proof (proj1 (@create_replay_iff ascii_uppercase identity_digest demo_uuid demo_directory
    demo_draw demo_draw (u "request") (u "lab") (u "my  room") (demo_created (u "my  room")).1
    (demo_created (u "my  room")).2 (demo_created_Ok _ demo_my_room_Ok) ltac:(by vm_compute)) Hr) as Hc.
  by vm_compute in Hc.
Defined.

Lemma create_room_frame_witness :
  ds_rooms demo_directory !! u "lab" = None.
Proof.
  pose proof (@create_room_frame ascii_uppercase identity_digest demo_uuid demo_directory
    demo_draw (u "request") (u "lab") (u "Lab") (demo_created (u "Lab")).1
    (demo_created (u "Lab")).2 (demo_created_Ok _ demo_lab_Ok)) as Hf.
  exact (proj1 Hf).
Defined.

(** The web handler's fallback to the room identifier produces such a label: an
    identifier keeps its inner spaces. *)
Example creation_label_fallback :
  creation_label [] (clean_identifier (u "my  room") 128) = u "my  room" /\ clean_single_line (u "my  room") ROOM_LABEL_LIMIT = u "my room".
Proof. by vm_compute. Qed.
