(* ===== verification/Ticket.v ===== *)
(** * One-use tickets (agentsassemble-server/src/ticket.rs, ticket/human_session.rs,
    ticket/message_attachments.rs, ticket/side_chat.rs)

    The store of short-lived credentials. Every credential authorises one exact
    purpose; presenting it, rightly or wrongly, removes it. The two UUIDs of a
    new ticket, the monotonic clock and the wall clock are inputs. *)

From Stdlib Require Import String.
From stdpp Require Import gmap.
From S2P Require Import Prelude Text Json Model Command Settings.

(** ** What a credential may authorise *)

Record RoomUserIdentity : Type := MkRoomUserIdentity {
  rui_room_id : str; rui_user_id : str; rui_participant_id : str
}.
Record LocalRoomManagerAuthority : Type := MkLocalRoomManagerAuthority {
  lrm_server_id : str;
  lrm_authority_lineage_id : str;
  lrm_room_uid : str;
  lrm_manager : RoomUserIdentity
}.

(** The facts of a durable room session the store reads, of a person or of an
    operator. *)
Record SessionAuthority : Type := MkSessionAuthority {
  sa_principal : AuthenticatedPrincipal;
  sa_session_fingerprint : list N;
  sa_expires_at : instant
}.
Inductive RoomSessionAuthorization : Type :=
| HumanSession (session : SessionAuthority)
| OperatorSession (session : SessionAuthority).

Definition rsa_session (a : RoomSessionAuthorization) : SessionAuthority :=
  match a with HumanSession s | OperatorSession s => s end.
Definition rsa_principal (a : RoomSessionAuthorization) : AuthenticatedPrincipal :=
  sa_principal (rsa_session a).
Definition rsa_session_fingerprint (a : RoomSessionAuthorization) : list N :=
  sa_session_fingerprint (rsa_session a).
Definition rsa_expires_at (a : RoomSessionAuthorization) : instant := sa_expires_at (rsa_session a).

Inductive LocalRoomManagerPurpose : Type :=
| MessagePinsRead | MessagePinsWrite | MessageSearchRead | SideChatRead | HumanInviteCreate
| ConnectorInviteCreate | AttendeeInviteCreate | HumanInviteRevoke | AppearanceUpload
| AgentAvatarUpload (session_id : str)
| PendingPreviewRead (asset_id : str).

Inductive RoomHttpPurpose : Type :=
| PreferencesRead | PreferencesWrite | MessageAttachmentUpload
| BoundMessageAttachmentRead (attachment_id : str)
| BoundAppearanceRead (asset_id : str).

#[global] Instance LocalRoomManagerPurpose_eq_dec : EqDecision LocalRoomManagerPurpose.
Proof. solve_decision. Defined.
#[global] Instance RoomHttpPurpose_eq_dec : EqDecision RoomHttpPurpose.
Proof. solve_decision. Defined.

Record RoomHttpGrant : Type := MkRoomHttpGrant {
  rhg_room_id : str; rhg_principal_id : str; rhg_participant_id : str; rhg_purpose : RoomHttpPurpose
}.
Record LocalRoomManagerGrant : Type := MkLocalRoomManagerGrant {
  lmg_authority : LocalRoomManagerAuthority; lmg_purpose : LocalRoomManagerPurpose
}.

Inductive TicketAuthority : Type :=
| TA_Room (principal : AuthenticatedPrincipal)
| TA_RoomHttp (grant : RoomHttpGrant)
| TA_LocalRoomManager (grant : LocalRoomManagerGrant)
| TA_RoomSessionSocket (authorization : RoomSessionAuthorization)
| TA_SettingsDirectoryRead (principal_id : str)
| TA_ServerOperator (principal_id : str) (issue_sequence : N)
| TA_CentralRegistration (principal_id : str).

Record StoredTicketGrant : Type := MkStoredTicketGrant {
  stg_authority : TicketAuthority;
  stg_expires_at : instant
}.

Record IssuedTicket : Type := MkIssuedTicket { it_ticket : str }.
Record ConsumedTicket : Type := MkConsumedTicket { ct_principal : AuthenticatedPrincipal }.
Record ConsumedServerOperatorTicket : Type := MkConsumedServerOperatorTicket {
  cso_principal_id : str; cso_issue_sequence : N
}.
Record ConsumedCentralRegistrationTicket : Type := MkConsumedCentralRegistrationTicket {
  ccr_principal_id : str
}.
Record ConsumedRoomHttpTicket : Type := MkConsumedRoomHttpTicket {
  crh_room_id : str; crh_principal_id : str; crh_participant_id : str
}.
Record ConsumedLocalRoomManagerTicket : Type := MkConsumedLocalRoomManagerTicket {
  clm_authority : LocalRoomManagerAuthority
}.
Record ConsumedSettingsDirectoryReadTicket : Type := MkConsumedSettingsDirectoryReadTicket {
  csd_principal_id : str
}.
Inductive ConsumedAppearanceReadTicket : Type :=
| AppearancePending (authority : LocalRoomManagerAuthority)
| AppearanceBound (ticket : ConsumedRoomHttpTicket).
Inductive SocketTicketHint : Type := HintLocal | HintRoomSession (room_id : str).
Inductive ConsumedSocketTicket : Type :=
| SocketLocal (ticket : ConsumedTicket)
| SocketRoomSession (authorization : RoomSessionAuthorization).
Record ConsumedProfileTicket : Type := ProfileServerOperator { cp_principal_id : str }.
Inductive ConsumedAttachmentUploadTicket : Type :=
| UploadProfile (profile : ConsumedProfileTicket)
| UploadAppearance (authority : LocalRoomManagerAuthority).

Inductive TicketError : Type := TicketInvalid.

(** ** The store

    An operation returns its result and the store it leaves: a failing one may
    still have dropped expired or misused credentials. *)

Record TicketStore : Type := MkTicketStore {
  ts_grants : gmap str StoredTicketGrant;
  ts_next_server_operator_sequence : N;
  ts_ttl : Z;
  ts_capacity : nat
}.
#[global] Instance eta_TicketStore : EtaRecord TicketStore :=
  fun r => MkTicketStore (ts_grants r) (ts_next_server_operator_sequence r) (ts_ttl r) (ts_capacity r).

Definition ticket_op (A : Type) : Type := TicketStore -> result TicketError A * TicketStore.

Definition ticket_ret {A} (r : result TicketError A) : ticket_op A := fun st => (r, st).
Definition ticket_bind {A B} (m : ticket_op A) (k : A -> ticket_op B) : ticket_op B := fun st =>
  match m st with
  | (Ok a, st') => k a st'
  | (Err e, st') => (Err e, st')
  end.
Definition ticket_map {A B} (f : A -> B) (m : ticket_op A) : ticket_op B :=
  ticket_bind m (fun a => ticket_ret (Ok (f a))).

Definition invalid {A} : ticket_op A := ticket_ret (Err TicketInvalid).

Definition new_ticket_store (ttl : Z) (capacity : nat) : TicketStore :=
  {| ts_grants := ∅; ts_next_server_operator_sequence := 0; ts_ttl := ttl;
     ts_capacity := Nat.max capacity 1 |}.

Definition ttl_seconds (st : TicketStore) : Z := ts_ttl st / seconds 1.

(** [grants.retain(|_, grant| grant.expires_at > now)] *)
Definition live_grants (now : instant) (grants : gmap str StoredTicketGrant) :
    gmap str StoredTicketGrant :=
  filter (fun e => now < stg_expires_at e.2) grants.

(** [draw] is the text of the two UUIDs. *)
Definition insert_grant (draw : str) (authority : TicketAuthority) (expires_at : instant)
    (grants : gmap str StoredTicketGrant) : gmap str StoredTicketGrant :=
  <[draw := MkStoredTicketGrant authority expires_at]> grants.

Definition issue_authority (draw : str) (now : instant) (authority : TicketAuthority) :
    ticket_op IssuedTicket := fun st =>
  let grants := live_grants now (ts_grants st) in
  if bool_decide (ts_capacity st <= size grants)%nat
  then (Err TicketInvalid, st <| ts_grants := grants |>)
  else (Ok (MkIssuedTicket draw),
        st <| ts_grants := insert_grant draw authority (now + ts_ttl st) grants |>).

Definition consume_grant (ticket : str) (now : instant) : ticket_op StoredTicketGrant := fun st =>
  match ts_grants st !! ticket with
  | None => (Err TicketInvalid, st)
  | Some grant =>
      let st := st <| ts_grants := delete ticket (ts_grants st) |> in
      if stg_expires_at grant <=? now then (Err TicketInvalid, st) else (Ok grant, st)
  end.

(** ** Issuing *)

Section issuing.
Variables (draw : str) (now : instant).

Definition issue (principal : AuthenticatedPrincipal) : ticket_op IssuedTicket :=
  issue_authority draw now (TA_Room principal).

Definition is_empty (s : str) : bool := bool_decide (s = []).

Definition issue_server_operator (principal_id : str) : ticket_op IssuedTicket := fun st =>
  if is_empty principal_id then (Err TicketInvalid, st)
  else if (u64_max <=? ts_next_server_operator_sequence st)%N then (Err TicketInvalid, st)
  else
    let issue_sequence := (ts_next_server_operator_sequence st + 1)%N in
    issue_authority draw now (TA_ServerOperator principal_id issue_sequence)
      (st <| ts_next_server_operator_sequence := issue_sequence |>).

Definition issue_central_registration (principal_id : str) : ticket_op IssuedTicket :=
  if is_empty principal_id then invalid
  else issue_authority draw now (TA_CentralRegistration principal_id).

Definition issue_settings_directory_read (principal_id : str) : ticket_op IssuedTicket :=
  if is_empty principal_id then invalid
  else issue_authority draw now (TA_SettingsDirectoryRead principal_id).

Definition issue_room_http (room_id principal_id participant_id : str) (purpose : RoomHttpPurpose) :
    ticket_op IssuedTicket :=
  if is_empty room_id || is_empty principal_id || is_empty participant_id then invalid
  else issue_authority draw now
         (TA_RoomHttp (MkRoomHttpGrant room_id principal_id participant_id purpose)).

Definition issue_preferences_read (room_id principal_id participant_id : str) : ticket_op IssuedTicket :=
  issue_room_http room_id principal_id participant_id PreferencesRead.

Definition issue_preferences_write (room_id principal_id participant_id : str) : ticket_op IssuedTicket :=
  issue_room_http room_id principal_id participant_id PreferencesWrite.

Definition issue_message_attachment_upload (room_id principal_id participant_id : str) :
    ticket_op IssuedTicket :=
  issue_room_http room_id principal_id participant_id MessageAttachmentUpload.

Definition issue_bound_message_attachment_read (room_id principal_id participant_id attachment_id : str) :
    ticket_op IssuedTicket :=
  if negb (is_message_attachment_id attachment_id) then invalid
  else issue_room_http room_id principal_id participant_id (BoundMessageAttachmentRead attachment_id).

Definition issue_bound_appearance_read (room_id principal_id participant_id asset_id : str) :
    ticket_op IssuedTicket :=
  if negb (is_room_appearance_asset_id asset_id) then invalid
  else issue_room_http room_id principal_id participant_id (BoundAppearanceRead asset_id).

Definition issue_local_room_manager (authority : LocalRoomManagerAuthority)
    (purpose : LocalRoomManagerPurpose) : ticket_op IssuedTicket :=
  issue_authority draw now (TA_LocalRoomManager (MkLocalRoomManagerGrant authority purpose)).

Definition issue_message_pins_read (authority : LocalRoomManagerAuthority) : ticket_op IssuedTicket :=
  issue_local_room_manager authority MessagePinsRead.

Definition issue_message_pins_write (authority : LocalRoomManagerAuthority) : ticket_op IssuedTicket :=
  issue_local_room_manager authority MessagePinsWrite.

Definition issue_message_search_read (authority : LocalRoomManagerAuthority) : ticket_op IssuedTicket :=
  issue_local_room_manager authority MessageSearchRead.

Definition issue_side_chat_read (authority : LocalRoomManagerAuthority) : ticket_op IssuedTicket :=
  issue_local_room_manager authority SideChatRead.

Definition issue_attendee_invite_create (authority : LocalRoomManagerAuthority) : ticket_op IssuedTicket :=
  issue_local_room_manager authority AttendeeInviteCreate.

Definition issue_connector_invite_create (authority : LocalRoomManagerAuthority) : ticket_op IssuedTicket :=
  issue_local_room_manager authority ConnectorInviteCreate.

Definition issue_human_invite_create (authority : LocalRoomManagerAuthority) : ticket_op IssuedTicket :=
  issue_local_room_manager authority HumanInviteCreate.

Definition issue_human_invite_revoke (authority : LocalRoomManagerAuthority) : ticket_op IssuedTicket :=
  issue_local_room_manager authority HumanInviteRevoke.

Definition issue_appearance_upload (authority : LocalRoomManagerAuthority) : ticket_op IssuedTicket :=
  issue_local_room_manager authority AppearanceUpload.

Definition issue_agent_avatar_upload (authority : LocalRoomManagerAuthority) (session_id : str) :
    ticket_op IssuedTicket :=
  issue_local_room_manager authority (AgentAvatarUpload session_id).

Definition issue_pending_preview_read (authority : LocalRoomManagerAuthority) (asset_id : str) :
    ticket_op IssuedTicket :=
  if negb (is_room_appearance_asset_id asset_id) then invalid
  else issue_local_room_manager authority (PendingPreviewRead asset_id).
End issuing.

(** ** Public sockets: bounded in all and per session *)

Definition PUBLIC_SOCKET_TICKET_CAPACITY : nat := Z.to_nat 1792.
Definition PUBLIC_SOCKET_TICKETS_PER_SESSION : nat := 8.
Definition LOCAL_PRIVATE_GRANT_RESERVE : nat := Z.to_nat 2304.

Definition public_socket_capacity (st : TicketStore) : nat :=
  Nat.min (ts_capacity st - LOCAL_PRIVATE_GRANT_RESERVE) PUBLIC_SOCKET_TICKET_CAPACITY.

Definition public_grant (g : StoredTicketGrant) : option RoomSessionAuthorization :=
  match stg_authority g with TA_RoomSessionSocket a => Some a | _ => None end.

Definition is_public (g : StoredTicketGrant) : Prop := is_Some (public_grant g).
Definition of_session (fingerprint : list N) (g : StoredTicketGrant) : Prop :=
  rsa_session_fingerprint <$> public_grant g = Some fingerprint.
#[global] Instance is_public_dec g : Decision (is_public g).
Proof. unfold is_public. apply _. Defined.
#[global] Instance of_session_dec fp g : Decision (of_session fp g).
Proof. unfold of_session. apply _. Defined.

(** The counters the [retain] closure accumulates. *)
Definition public_count (grants : gmap str StoredTicketGrant) : nat :=
  size (filter (fun e => is_public e.2) grants).
Definition same_session_count (fingerprint : list N) (grants : gmap str StoredTicketGrant) : nat :=
  size (filter (fun e => of_session fingerprint e.2) grants).

Definition issue_room_session_socket (draw : str) (now utc : instant)
    (authorization : RoomSessionAuthorization) : ticket_op IssuedTicket := fun st =>
  let session_remaining := rsa_expires_at authorization - utc in
  if session_remaining <? 0 then (Err TicketInvalid, st) else
  let grants := live_grants now (ts_grants st) in
  if bool_decide (ts_capacity st <= size grants)%nat ||
     bool_decide (public_socket_capacity st <= public_count grants)%nat ||
     bool_decide (PUBLIC_SOCKET_TICKETS_PER_SESSION <=
       same_session_count (rsa_session_fingerprint authorization) grants)%nat
  then (Err TicketInvalid, st <| ts_grants := grants |>)
  else (Ok (MkIssuedTicket draw),
        st <| ts_grants := insert_grant draw (TA_RoomSessionSocket authorization)
               (now + Z.min (ts_ttl st) session_remaining) grants |>).

Definition socket_ticket_hint (ticket : str) (now : instant) : ticket_op SocketTicketHint := fun st =>
  match ts_grants st !! ticket with
  | None => (Err TicketInvalid, st)
  | Some grant =>
      let removed := st <| ts_grants := delete ticket (ts_grants st) |> in
      if stg_expires_at grant <=? now then (Err TicketInvalid, removed) else
      match stg_authority grant with
      | TA_Room _ => (Ok HintLocal, st)
      | TA_RoomSessionSocket session => (Ok (HintRoomSession (pr_room_id (rsa_principal session))), st)
      | _ => (Err TicketInvalid, removed)
      end
  end.

Definition resolve_room_session_socket_authority (public : RoomSessionAuthorization) (utc : instant) :
    result TicketError RoomSessionAuthorization :=
  if rsa_expires_at public <=? utc then Err TicketInvalid else Ok public.

Definition resolve_room_session_at (grant : StoredTicketGrant) (utc : instant) :
    result TicketError RoomSessionAuthorization :=
  match stg_authority grant with
  | TA_RoomSessionSocket public => resolve_room_session_socket_authority public utc
  | _ => Err TicketInvalid
  end.

(** ** Consuming *)

Definition resolve_local_room_manager_authority (manager : LocalRoomManagerGrant)
    (expected : LocalRoomManagerPurpose) : result TicketError LocalRoomManagerAuthority :=
  if decide (lmg_purpose manager = expected) then Ok (lmg_authority manager) else Err TicketInvalid.

Definition resolve_room_http_authority (room : RoomHttpGrant) (expected : RoomHttpPurpose) :
    result TicketError ConsumedRoomHttpTicket :=
  if decide (rhg_purpose room = expected)
  then Ok (MkConsumedRoomHttpTicket (rhg_room_id room) (rhg_principal_id room) (rhg_participant_id room))
  else Err TicketInvalid.

Definition resolve_attachment_upload_authority (authority : TicketAuthority) :
    result TicketError ConsumedAttachmentUploadTicket :=
  match authority with
  | TA_ServerOperator principal_id _ => Ok (UploadProfile (ProfileServerOperator principal_id))
  | TA_LocalRoomManager manager =>
      UploadAppearance <$> resolve_local_room_manager_authority manager AppearanceUpload
  | _ => Err TicketInvalid
  end.

Section consuming.
Variables (ticket : str) (now : instant).

(** [let grant = self.consume_grant(ticket).await?; resolve(grant)] *)
Definition consume_with {A} (resolve : StoredTicketGrant -> result TicketError A) : ticket_op A :=
  ticket_bind (consume_grant ticket now) (fun grant => ticket_ret (resolve grant)).

Definition consume : ticket_op ConsumedTicket :=
  consume_with (fun grant =>
    match stg_authority grant with
    | TA_Room principal => Ok (MkConsumedTicket principal)
    | _ => Err TicketInvalid
    end).

Definition consume_server_operator : ticket_op ConsumedServerOperatorTicket :=
  consume_with (fun grant =>
    match stg_authority grant with
    | TA_ServerOperator principal_id issue_sequence =>
        Ok (MkConsumedServerOperatorTicket principal_id issue_sequence)
    | _ => Err TicketInvalid
    end).

Definition consume_central_registration : ticket_op ConsumedCentralRegistrationTicket :=
  consume_with (fun grant =>
    match stg_authority grant with
    | TA_CentralRegistration principal_id => Ok (MkConsumedCentralRegistrationTicket principal_id)
    | _ => Err TicketInvalid
    end).

Definition consume_settings_directory_read : ticket_op ConsumedSettingsDirectoryReadTicket :=
  consume_with (fun grant =>
    match stg_authority grant with
    | TA_SettingsDirectoryRead principal_id => Ok (MkConsumedSettingsDirectoryReadTicket principal_id)
    | _ => Err TicketInvalid
    end).

Definition consume_local_room_manager (expected : LocalRoomManagerPurpose) :
    ticket_op ConsumedLocalRoomManagerTicket :=
  consume_with (fun grant =>
    match stg_authority grant with
    | TA_LocalRoomManager manager =>
        MkConsumedLocalRoomManagerTicket <$> resolve_local_room_manager_authority manager expected
    | _ => Err TicketInvalid
    end).

Definition consume_room_http (expected : RoomHttpPurpose) : ticket_op ConsumedRoomHttpTicket :=
  consume_with (fun grant =>
    match stg_authority grant with
    | TA_RoomHttp room => resolve_room_http_authority room expected
    | _ => Err TicketInvalid
    end).

Definition consume_agent_avatar_upload (session_id : str) : ticket_op LocalRoomManagerAuthority :=
  consume_with (fun grant =>
    match stg_authority grant with
    | TA_LocalRoomManager manager =>
        resolve_local_room_manager_authority manager (AgentAvatarUpload session_id)
    | _ => Err TicketInvalid
    end).

Definition consume_preferences_read : ticket_op ConsumedRoomHttpTicket :=
  consume_room_http PreferencesRead.

Definition consume_preferences_write : ticket_op ConsumedRoomHttpTicket :=
  consume_room_http PreferencesWrite.

Definition consume_message_attachment_upload : ticket_op ConsumedRoomHttpTicket :=
  consume_room_http MessageAttachmentUpload.

Definition consume_message_attachment_read (attachment_id : str) : ticket_op ConsumedRoomHttpTicket :=
  consume_room_http (BoundMessageAttachmentRead attachment_id).

Definition consume_message_pins_read : ticket_op LocalRoomManagerAuthority :=
  ticket_map clm_authority (consume_local_room_manager MessagePinsRead).

Definition consume_message_pins_write : ticket_op LocalRoomManagerAuthority :=
  ticket_map clm_authority (consume_local_room_manager MessagePinsWrite).

Definition consume_message_search_read : ticket_op LocalRoomManagerAuthority :=
  ticket_map clm_authority (consume_local_room_manager MessageSearchRead).

Definition consume_side_chat_read : ticket_op LocalRoomManagerAuthority :=
  ticket_map clm_authority (consume_local_room_manager SideChatRead).

Definition consume_attendee_invite_create : ticket_op ConsumedLocalRoomManagerTicket :=
  consume_local_room_manager AttendeeInviteCreate.

Definition consume_connector_invite_create : ticket_op ConsumedLocalRoomManagerTicket :=
  consume_local_room_manager ConnectorInviteCreate.

Definition consume_human_invite_create : ticket_op ConsumedLocalRoomManagerTicket :=
  consume_local_room_manager HumanInviteCreate.

Definition consume_human_invite_revoke : ticket_op ConsumedLocalRoomManagerTicket :=
  consume_local_room_manager HumanInviteRevoke.

Definition consume_appearance_read (asset_id : str) : ticket_op ConsumedAppearanceReadTicket :=
  consume_with (fun grant =>
    match stg_authority grant with
    | TA_LocalRoomManager manager =>
        AppearancePending <$> resolve_local_room_manager_authority manager (PendingPreviewRead asset_id)
    | TA_RoomHttp room =>
        match rhg_purpose room with
        | BoundAppearanceRead expected =>
            if decide (expected = asset_id)
            then AppearanceBound <$> resolve_room_http_authority room (BoundAppearanceRead expected)
            else Err TicketInvalid
        | _ => Err TicketInvalid
        end
    | _ => Err TicketInvalid
    end).

Definition consume_socket (utc : instant) : ticket_op ConsumedSocketTicket :=
  consume_with (fun grant =>
    match stg_authority grant with
    | TA_Room principal => Ok (SocketLocal (MkConsumedTicket principal))
    | TA_RoomSessionSocket public =>
        SocketRoomSession <$> resolve_room_session_socket_authority public utc
    | _ => Err TicketInvalid
    end).

Definition consume_room_session_socket (utc : instant) : ticket_op RoomSessionAuthorization :=
  consume_with (fun grant => resolve_room_session_at grant utc).

Definition consume_profile : ticket_op ConsumedProfileTicket :=
  consume_with (fun grant =>
    upload ← resolve_attachment_upload_authority (stg_authority grant);
    match upload with
    | UploadProfile profile => Ok profile
    | UploadAppearance _ => Err TicketInvalid
    end).

Definition consume_attachment_upload : ticket_op ConsumedAttachmentUploadTicket :=
  consume_with (fun grant => resolve_attachment_upload_authority (stg_authority grant)).
End consuming.

(** ** Histories of the store *)

Inductive ticket_event : Type :=
| EvIssue (draw : str) (now : instant) (authority : TicketAuthority)
| EvIssueOperator (draw : str) (now : instant) (principal_id : str)
| EvIssueSocket (draw : str) (now utc : instant) (authorization : RoomSessionAuthorization)
| EvConsume (ticket : str) (now : instant)
| EvHint (ticket : str) (now : instant).

(** [issue_authority] is only ever given private authorities; public sockets
    have their own operation. *)
Definition event_ok (e : ticket_event) : Prop :=
  match e with
  | EvIssue _ _ a => public_grant (MkStoredTicketGrant a 0) = None
  | _ => True
  end.

Definition ticket_step (st : TicketStore) (e : ticket_event) : TicketStore :=
  match e with
  | EvIssue draw now a => (issue_authority draw now a st).2
  | EvIssueOperator draw now p => (issue_server_operator draw now p st).2
  | EvIssueSocket draw now utc a => (issue_room_session_socket draw now utc a st).2
  | EvConsume t now => (consume_grant t now st).2
  | EvHint t now => (socket_ticket_hint t now st).2
  end.

Definition ticket_run (evs : list ticket_event) (st : TicketStore) : TicketStore :=
  fold_left ticket_step evs st.

(** The credential an event adds to the store, when it succeeds. *)
Definition issued_grant (st : TicketStore) (e : ticket_event) : option (str * StoredTicketGrant) :=
  match e with
  | EvIssue draw now a =>
      if is_ok (issue_authority draw now a st).1
      then Some (draw, MkStoredTicketGrant a (now + ts_ttl st)) else None
  | EvIssueOperator draw now p =>
      if is_ok (issue_server_operator draw now p st).1
      then Some (draw, MkStoredTicketGrant
             (TA_ServerOperator p (ts_next_server_operator_sequence st + 1)) (now + ts_ttl st))
      else None
  | EvIssueSocket draw now utc a =>
      if is_ok (issue_room_session_socket draw now utc a st).1
      then Some (draw, MkStoredTicketGrant (TA_RoomSessionSocket a)
             (now + Z.min (ts_ttl st) (rsa_expires_at a - utc)))
      else None
  | _ => None
  end.

Definition draws (t : str) (e : ticket_event) : Prop :=
  match e with
  | EvIssue d _ _ | EvIssueOperator d _ _ | EvIssueSocket d _ _ _ => d = t
  | _ => False
  end.
Definition consumes (t : str) (e : ticket_event) : Prop :=
  match e with EvConsume d _ => d = t | _ => False end.

(** ** The bounds of the store *)

Definition store_ok (st : TicketStore) : Prop :=
  (size (ts_grants st) <= ts_capacity st)%nat /\
  (public_count (ts_grants st) <= public_socket_capacity st)%nat /\
  forall fp, (same_session_count fp (ts_grants st) <= PUBLIC_SOCKET_TICKETS_PER_SESSION)%nat.

Section counting.
Context {P : str * StoredTicketGrant -> Prop} `{forall e, Decision (P e)}.

Lemma filter_size_subseteq (m m' : gmap str StoredTicketGrant) :
  m ⊆ m' -> (size (filter P m) <= size (filter P m'))%nat.
Proof.
  intros Hm. rewrite <- !size_dom. apply subseteq_size, subseteq_dom.
  by apply map_filter_subseteq_mono.
Qed.

Lemma filter_size_insert (t : str) (g : StoredTicketGrant) (m : gmap str StoredTicketGrant) :
  (size (filter P (<[t := g]> m)) <= S (size (filter P m)))%nat.
Proof.
  destruct (decide (P (t, g))) as [Hp|Hp].
  - rewrite map_filter_insert_True by done.
    destruct (filter P m !! t) eqn:E; [rewrite map_size_insert_Some; [lia|done]|].
    by rewrite map_size_insert_None.
  - rewrite map_filter_insert_False by done.
    pose proof (filter_size_subseteq (delete t m) m (delete_subseteq m t)). lia.
Qed.

Lemma filter_size_insert_False (t : str) (g : StoredTicketGrant) (m : gmap str StoredTicketGrant) :
  ~ P (t, g) -> (size (filter P (<[t := g]> m)) <= size (filter P m))%nat.
Proof.
  intros Hp. rewrite map_filter_insert_False by done.
  apply filter_size_subseteq, delete_subseteq.
Qed.
End counting.

Lemma map_size_insert_le (t : str) (g : StoredTicketGrant) (m : gmap str StoredTicketGrant) :
  (size (<[t := g]> m) <= S (size m))%nat.
Proof. rewrite map_size_insert. case_match; simpl; lia. Qed.

Lemma live_grants_subseteq now m : live_grants now m ⊆ m.
Proof. apply map_filter_subseteq. Qed.

Lemma store_ok_subseteq st st' :
  store_ok st -> ts_grants st' ⊆ ts_grants st -> ts_capacity st' = ts_capacity st -> store_ok st'.
Proof.
  intros (Hs & Hp & Hf) Hsub Hc. unfold store_ok, public_socket_capacity, public_count,
    same_session_count in *. rewrite Hc. split_and!.
  - etransitivity; [|exact Hs]. rewrite <- !size_dom. by apply subseteq_size, subseteq_dom.
  - etransitivity; [|exact Hp]. by apply filter_size_subseteq.
  - intros fp. etransitivity; [|apply (Hf fp)]. by apply filter_size_subseteq.
Qed.

Lemma private_grant_not_counted a expires :
  public_grant (MkStoredTicketGrant a 0) = None ->
  ~ is_public (MkStoredTicketGrant a expires) /\ forall fp, ~ of_session fp (MkStoredTicketGrant a expires).
Proof.
  unfold is_public, of_session, public_grant. simpl. intros ->. split; [by intros []|].
  by intros fp.
Qed.

Lemma issue_authority_ok draw now a st :
  public_grant (MkStoredTicketGrant a 0) = None -> store_ok st ->
  store_ok (issue_authority draw now a st).2.
Proof.
  intros Ha Hst. unfold issue_authority.
  assert (store_ok (st <| ts_grants := live_grants now (ts_grants st) |>)) as Hlive.
  { apply (store_ok_subseteq st); [done|apply live_grants_subseteq|done]. }
  case_bool_decide as Hfull; [done|]. destruct Hlive as (Hs & Hp & Hf).
  destruct (private_grant_not_counted a (now + ts_ttl st) Ha) as [Hnp Hns].
  unfold store_ok, insert_grant, public_count, same_session_count in *. simpl in *. split_and!.
  - pose proof (map_size_insert_le draw (MkStoredTicketGrant a (now + ts_ttl st))
      (live_grants now (ts_grants st))). lia.
  - etransitivity; [|exact Hp]. by apply filter_size_insert_False.
  - intros fp. etransitivity; [|apply (Hf fp)]. apply filter_size_insert_False, Hns.
Qed.

Lemma issue_socket_ok draw now utc a st :
  store_ok st -> store_ok (issue_room_session_socket draw now utc a st).2.
Proof.
  intros Hst. unfold issue_room_session_socket. case_match; [done|].
  assert (store_ok (st <| ts_grants := live_grants now (ts_grants st) |>)) as Hlive.
  { apply (store_ok_subseteq st); [done|apply live_grants_subseteq|done]. }
  case_match eqn:Hfull; [done|]. bool_to_prop. destruct Hlive as (Hs & Hp & Hf).
  unfold store_ok, insert_grant, public_count, same_session_count in *. simpl in *.
  set (g := MkStoredTicketGrant _ _). split_and!.
  - pose proof (map_size_insert_le draw g (live_grants now (ts_grants st))). lia.
  - pose proof (filter_size_insert (P := fun e => is_public e.2) draw g
      (live_grants now (ts_grants st))).
    unfold public_socket_capacity in *. simpl in *. lia.
  - intros fp. destruct (decide (fp = rsa_session_fingerprint a)) as [->|Hfp].
    + pose proof (filter_size_insert (P := fun e => of_session (rsa_session_fingerprint a) e.2) draw g
        (live_grants now (ts_grants st))). lia.
    + etransitivity; [|apply (Hf fp)]. apply filter_size_insert_False. simpl.
      unfold of_session. simpl. intros [=]. congruence.
Qed.

Lemma ticket_step_ok st e : event_ok e -> store_ok st -> store_ok (ticket_step st e).
Proof.
  intros He Hst. destruct e as [d n a|d n p|d n w a|t n|t n]; simpl in *.
  - by apply issue_authority_ok.
  - unfold issue_server_operator. repeat case_match; try done. by apply issue_authority_ok.
  - by apply issue_socket_ok.
  - unfold consume_grant. repeat case_match; try done;
      (eapply store_ok_subseteq; [exact Hst|apply delete_subseteq|done]).
  - unfold socket_ticket_hint. repeat case_match; try done;
      (eapply store_ok_subseteq; [exact Hst|apply delete_subseteq|done]).
Qed.

Lemma ticket_step_capacity st e :
  ts_capacity (ticket_step st e) = ts_capacity st /\ ts_ttl (ticket_step st e) = ts_ttl st.
Proof.
  destruct e; simpl; unfold issue_server_operator, issue_authority, issue_room_session_socket,
    consume_grant, socket_ticket_hint; repeat case_match; done.
Qed.

Lemma ticket_run_ok evs st : Forall event_ok evs -> store_ok st -> store_ok (ticket_run evs st).
Proof.
  intros Hevs. revert st. induction Hevs as [|e evs He Hevs IH]; intros st Hst; [done|].
  simpl. by apply IH, ticket_step_ok.
Qed.

Lemma ticket_run_capacity evs st :
  ts_capacity (ticket_run evs st) = ts_capacity st /\ ts_ttl (ticket_run evs st) = ts_ttl st.
Proof.
  revert st. induction evs as [|e evs IH]; intros st; [done|]. simpl.
  destruct (IH (ticket_step st e)) as [-> ->]. apply ticket_step_capacity.
Qed.

Lemma new_ticket_store_ok ttl capacity : store_ok (new_ticket_store ttl capacity).
Proof.
  unfold store_ok, new_ticket_store, public_count, same_session_count. simpl.
  rewrite map_size_empty. split_and!; [lia| |]; intros; rewrite map_filter_empty, map_size_empty;
    unfold PUBLIC_SOCKET_TICKETS_PER_SESSION; lia.
Qed.

(** What one event does to the credential [t]. *)
Lemma ticket_step_lookup st e t g :
  ts_grants (ticket_step st e) !! t = Some g ->
  issued_grant st e = Some (t, g) \/ (ts_grants st !! t = Some g /\ ~ consumes t e).
Proof.
  assert (forall draw now a x, ts_grants (issue_authority draw now a x).2 !! t = Some g ->
    (is_ok (issue_authority draw now a x).1 = true /\ t = draw /\ g = MkStoredTicketGrant a (now + ts_ttl x))
    \/ ts_grants x !! t = Some g) as Hissue.
  { intros draw now a x. unfold issue_authority. case_bool_decide; simpl.
    - intros Hl%map_lookup_filter_Some. by right; destruct Hl.
    - unfold insert_grant. intros [[<- <-]|[_ Hl]]%lookup_insert_Some; [by left|].
      apply map_lookup_filter_Some in Hl as [Hl _]. by right. }
  destruct e as [d n a|d n p|d n w a|t' n|t' n]; simpl.
  - intros [(-> & -> & ->)|Hl]%Hissue; [by left | by right; split; [|intros []]].
  - unfold issue_server_operator. repeat (case_match; [intros Hl; right; by split; [|intros []]|]).
    intros [(-> & -> & ->)|Hl]%Hissue; [by left | by right; split; [|intros []]].
  - unfold issue_room_session_socket. case_match; [intros Hl; right; by split; [|intros []]|].
    case_match; simpl.
    + intros Hl%map_lookup_filter_Some. right. by destruct Hl; split; [|intros []].
    + unfold insert_grant. intros [[<- <-]|[_ Hl]]%lookup_insert_Some; [by left|].
      apply map_lookup_filter_Some in Hl as [Hl _]. by right; split; [|intros []].
  - unfold consume_grant. destruct (ts_grants st !! t') as [g'|] eqn:E; simpl.
    + intros Hl. assert (delete t' (ts_grants st) !! t = Some g) as Hd by (by case_match).
      apply lookup_delete_Some in Hd as [Hne Hd]. right. by split; [|].
    + intros Hl. right. split; [done|]. intros ->. congruence.
  - unfold socket_ticket_hint. destruct (ts_grants st !! t') as [g'|] eqn:E; simpl;
      [|intros Hl; right; by split; [|intros []]].
    intros Hl. right. split; [|by intros []].
    repeat case_match; simpl in Hl; try done; by apply lookup_delete_Some in Hl as [_ Hl].
Qed.

(** Every credential in the store was issued by an event of the history and
    has not been consumed since. *)
Lemma grant_provenance evs st0 t g :
  ts_grants st0 = ∅ -> ts_grants (ticket_run evs st0) !! t = Some g ->
  exists pre e post, evs = pre ++ e :: post /\ issued_grant (ticket_run pre st0) e = Some (t, g) /\
    Forall (fun e => ~ consumes t e) post.
Proof.
  intros H0. induction evs as [|e evs IH] using rev_ind; intros Hl.
  - simpl in Hl. rewrite H0, lookup_empty in Hl. done.
  - unfold ticket_run in Hl. rewrite fold_left_app in Hl. simpl in Hl.
    apply ticket_step_lookup in Hl as [Hi|[Hl Hc]].
    + exists evs, e, []. by split_and!.
    + destruct (IH Hl) as (pre & e' & post & -> & Hi & Hpost).
      exists pre, e', (post ++ [e]). rewrite <- app_assoc. split_and!; [done|done|].
      by rewrite Forall_app, Forall_singleton.
Qed.

Lemma consume_with_Ok {A} ticket now (resolve : StoredTicketGrant -> result TicketError A) st a :
  (consume_with ticket now resolve st).1 = Ok a ->
  exists g, ts_grants st !! ticket = Some g /\ now < stg_expires_at g /\ resolve g = Ok a.
Proof.
  unfold consume_with, ticket_bind, consume_grant. destruct (ts_grants st !! ticket) as [g|]; [|done].
  destruct (stg_expires_at g <=? now) eqn:E; [done|]. simpl. intros Hr.
  exists g. split_and!; [done|lia|done].
Qed.

Lemma consume_with_removes {A} ticket now (resolve : StoredTicketGrant -> result TicketError A) st :
  (consume_with ticket now resolve st).2 = (consume_grant ticket now st).2 /\
  ts_grants (consume_grant ticket now st).2 !! ticket = None.
Proof.
  unfold consume_with, ticket_bind. split; [by destruct (consume_grant ticket now st) as [[|] ?]|].
  unfold consume_grant. destruct (ts_grants st !! ticket) eqn:E; [|done].
  case_match; simpl; apply lookup_delete_eq.
Qed.

Lemma consume_with_absent {A} ticket now (resolve : StoredTicketGrant -> result TicketError A) st :
  ts_grants st !! ticket = None -> (consume_with ticket now resolve st).1 = Err TicketInvalid.
Proof. intros Hn. unfold consume_with, ticket_bind, consume_grant. by rewrite Hn. Qed.

Lemma ticket_step_absent st e t :
  ~ draws t e -> ts_grants st !! t = None -> ts_grants (ticket_step st e) !! t = None.
Proof.
  intros Hd Hn. apply eq_None_not_Some. intros [g [Hi|[Hs _]]%ticket_step_lookup]; [|congruence].
  apply Hd. destruct e; simpl in *; try done; case_match; by simplify_eq.
Qed.

Lemma ticket_run_absent evs st t :
  Forall (fun e => ~ draws t e) evs -> ts_grants st !! t = None ->
  ts_grants (ticket_run evs st) !! t = None.
Proof.
  intros He. revert st. induction He as [|e evs He _ IH]; intros st Hn; [done|].
  simpl. by apply IH, ticket_step_absent.
Qed.

Lemma ticket_step_sequence st e :
  (ts_next_server_operator_sequence st <= ts_next_server_operator_sequence (ticket_step st e))%N.
Proof.
  destruct e; simpl; unfold issue_server_operator, issue_authority, issue_room_session_socket,
    consume_grant, socket_ticket_hint; repeat case_match; simpl; lia.
Qed.

Lemma ticket_run_sequence evs st :
  (ts_next_server_operator_sequence st <= ts_next_server_operator_sequence (ticket_run evs st))%N.
Proof.
  revert st. induction evs as [|e evs IH]; intros st; simpl; [lia|].
  etransitivity; [apply (ticket_step_sequence st e)|apply IH].
Qed.

Lemma ticket_run_app evs1 evs2 st :
  ticket_run (evs1 ++ evs2) st = ticket_run evs2 (ticket_run evs1 st).
Proof. apply fold_left_app. Qed.

Lemma issue_server_operator_Ok draw now p st :
  is_ok (issue_server_operator draw now p st).1 = true ->
  (ts_next_server_operator_sequence st < u64_max)%N /\
  ts_next_server_operator_sequence (issue_server_operator draw now p st).2 =
    (ts_next_server_operator_sequence st + 1)%N.
Proof.
  unfold issue_server_operator, issue_authority. case_match; [done|].
  destruct (u64_max <=? ts_next_server_operator_sequence st)%N eqn:E; [done|].
  case_bool_decide; simpl; [done|]. intros _. split; [lia|done].
Qed.

Lemma issued_private st e t g :
  issued_grant st e = Some (t, g) -> public_grant g = None ->
  (forall p s, stg_authority g <> TA_ServerOperator p s) ->
  exists now, e = EvIssue t now (stg_authority g) /\ is_ok (issue_authority t now (stg_authority g) st).1 = true
    /\ stg_expires_at g = now + ts_ttl st.
Proof.
  destruct e as [d n a|d n p|d n w a|t' n|t' n]; simpl; try done; case_match eqn:E; try done;
    intros [= <- <-] Hp Hn; simpl in *.
  - by exists n.
  - by destruct (Hn p (ts_next_server_operator_sequence st + 1)%N).
  - done.
Qed.

Lemma partition_by_public (m : gmap str StoredTicketGrant) :
  size m = (public_count m + size (filter (fun e => ~ is_public e.2) m))%nat.
Proof.
  unfold public_count.
  rewrite <- (map_filter_union_complement (fun e : str * StoredTicketGrant => is_public e.2) m) at 1.
  rewrite map_size_disj_union; [done|apply map_disjoint_filter_complement].
Qed.

(** ** Theorems *)

(** At no point of any history do more credentials live than the capacity, more public socket
    credentials than the public share, or more than eight of one session. *)

(** C33: at no point of any history do more credentials live than the capacity, more public
    socket credentials than the public share, or more than eight of one session. *)
Theorem ticket_bounds (ttl : Z) (capacity : nat) (evs : list ticket_event) (H : Forall event_ok evs) :
  let st := ticket_run evs (new_ticket_store ttl capacity) in
  (size (ts_grants st) <= Nat.max capacity 1)%nat /\
  (public_count (ts_grants st) <= Nat.min (capacity - LOCAL_PRIVATE_GRANT_RESERVE) PUBLIC_SOCKET_TICKET_CAPACITY)%nat /\
  forall fp, (same_session_count fp (ts_grants st) <= PUBLIC_SOCKET_TICKETS_PER_SESSION)%nat.
Proof.
  intros st. pose proof (ticket_run_ok evs _ H (new_ticket_store_ok ttl capacity)) as (Hs & Hp & Hf).
  destruct (ticket_run_capacity evs (new_ticket_store ttl capacity)) as [Hc _].
  unfold public_socket_capacity in Hp. rewrite Hc in *. fold st in Hs, Hp, Hf. simpl in *.
  split_and!; [done| |done]. etransitivity; [exact Hp|]. unfold LOCAL_PRIVATE_GRANT_RESERVE. lia.
Qed.

Definition demo_session : SessionAuthority :=
  {| sa_principal := {| pr_principal_id := u "alice"; pr_participant_id := u "p-alice";
       pr_display_name := u "Alice"; pr_room_id := u "room-a"; pr_client_kind := Browser;
       pr_invite_scope := ReadWrite; pr_is_operator := false;
       pr_capabilities := capabilities_for_principal Browser ReadWrite false |};
     sa_session_fingerprint := [1%N]; sa_expires_at := seconds 1000 |}.
Definition demo_history : list ticket_event :=
  [EvIssueOperator (u "t1") 0 (u "op"); EvIssueSocket (u "t2") 0 0 (HumanSession demo_session);
   EvHint (u "t2") 1; EvConsume (u "t2") 2].

Lemma ticket_bounds_witness :
  Forall event_ok demo_history /\
  let st := ticket_run demo_history (new_ticket_store (seconds 30) 4096) in
  (size (ts_grants st) <= Nat.max 4096 1)%nat /\
  (public_count (ts_grants st) <= Nat.min (4096 - LOCAL_PRIVATE_GRANT_RESERVE) PUBLIC_SOCKET_TICKET_CAPACITY)%nat /\
  forall fp, (same_session_count fp (ts_grants st) <= PUBLIC_SOCKET_TICKETS_PER_SESSION)%nat.
Proof.
  assert (Forall event_ok demo_history) as H by (repeat constructor).
  split; [exact H|]. exact (ticket_bounds (seconds 30) 4096 demo_history H).
Defined.

(** Public sockets cannot exhaust the store: a private credential is refused only when at least
    the reserve (or the whole capacity, if smaller) is taken by live private credentials. *)

(** public sockets cannot exhaust the ticket store: a private credential is refused
    only when the reserve (or the whole capacity, if smaller) is taken by live private
    credentials. *)
Theorem private_reserve (ttl : Z) (capacity : nat) (evs : list ticket_event) (draw : str)
    (now : instant) (authority : TicketAuthority) (H : Forall event_ok evs)
    (Hrefused : (issue_authority draw now authority
                   (ticket_run evs (new_ticket_store ttl capacity))).1 = Err TicketInvalid) :
  (Nat.min (Nat.max capacity 1) LOCAL_PRIVATE_GRANT_RESERVE <=
   size (filter (fun e : str * StoredTicketGrant => ~ is_public e.2)
     (live_grants now (ts_grants (ticket_run evs (new_ticket_store ttl capacity))))))%nat.
Proof.
  destruct (ticket_run_ok evs _ H (new_ticket_store_ok ttl capacity)) as (_ & Hp & _).
  destruct (ticket_run_capacity evs (new_ticket_store ttl capacity)) as [Hc _].
  set (st := ticket_run evs _) in *. unfold issue_authority in Hrefused.
  case_bool_decide as Hfull; [|done]. rewrite partition_by_public in Hfull.
  assert (public_count (live_grants now (ts_grants st)) <= public_count (ts_grants st))%nat
    by apply filter_size_subseteq, live_grants_subseteq.
  unfold public_socket_capacity in Hp. rewrite Hc in *. simpl in *. lia.
Qed.

(** A store of capacity one already holds a private credential: the next is refused. *)
Lemma private_reserve_witness :
  let evs := [EvIssueOperator (u "t1") 0 (u "op")] in
  (issue_authority (u "t2") 1 (TA_CentralRegistration (u "op"))
     (ticket_run evs (new_ticket_store (seconds 30) 1))).1 = Err TicketInvalid /\
  (Nat.min (Nat.max 1 1) LOCAL_PRIVATE_GRANT_RESERVE <=
   size (filter (fun e : str * StoredTicketGrant => ~ is_public e.2)
     (live_grants 1 (ts_grants (ticket_run evs (new_ticket_store (seconds 30) 1))))))%nat.
Proof.
  intros evs. assert ((issue_authority (u "t2") 1 (TA_CentralRegistration (u "op"))
     (ticket_run evs (new_ticket_store (seconds 30) 1))).1 = Err TicketInvalid) as Hr
    by (vm_compute; reflexivity).
  split; [exact Hr|]. apply (private_reserve (seconds 30) 1 evs (u "t2") 1 (TA_CentralRegistration (u "op")));
    [repeat constructor|exact Hr].
Defined.

(** Presenting a credential spends it: whatever purpose it was presented for and whether or not
    that succeeded, it authorises nothing afterwards (unless the same text is drawn again). *)

(** C26: presenting a credential spends it: whatever purpose it was presented for and
    whether or not that succeeded, it authorises nothing afterwards, unless the same text is
    drawn again. *)
Theorem ticket_single_use {A B : Type} (ticket : str) (now now' : instant)
    (first : StoredTicketGrant -> result TicketError A) (again : StoredTicketGrant -> result TicketError B)
    (st : TicketStore) (evs : list ticket_event) (H : Forall (fun e => ~ draws ticket e) evs) :
  (consume_with ticket now' again
     (ticket_run evs (consume_with ticket now first st).2)).1 = Err TicketInvalid.
Proof.
  destruct (consume_with_removes ticket now first st) as [-> Hn].
  by apply consume_with_absent, ticket_run_absent.
Qed.

Lemma ticket_single_use_witness :
  let st := ticket_run [EvIssueOperator (u "t1") 0 (u "op")] (new_ticket_store (seconds 30) 8) in
  (consume (u "t1") 1 st).1 = Err TicketInvalid /\
  (consume_server_operator (u "t1") 1 st).1 = Ok (MkConsumedServerOperatorTicket (u "op") 1) /\
  (consume_server_operator (u "t1") 2
     (ticket_run [EvIssueOperator (u "t3") 1 (u "op")] (consume (u "t1") 1 st).2)).1 = Err TicketInvalid.
Proof.
  intros st. split_and!; [vm_compute; reflexivity..|].
  apply (ticket_single_use (u "t1") 1 2). repeat constructor; intros [=].
Defined.

Definition manager_grant (authority : LocalRoomManagerAuthority) (purpose : LocalRoomManagerPurpose) :
    TicketAuthority := TA_LocalRoomManager (MkLocalRoomManagerGrant authority purpose).

(** A room manager credential that is accepted for a purpose was issued for exactly that purpose
    to exactly that authority, less than the lifetime ago, and has not been presented since. *)
Theorem manager_ticket_provenance (ttl : Z) (capacity : nat) (evs : list ticket_event) (ticket : str)
    (now : instant) (expected : LocalRoomManagerPurpose) (authority : LocalRoomManagerAuthority)
    (H : (consume_local_room_manager ticket now expected
            (ticket_run evs (new_ticket_store ttl capacity))).1
         = Ok (MkConsumedLocalRoomManagerTicket authority)) :
  exists pre issued post,
    evs = pre ++ EvIssue ticket issued (manager_grant authority expected) :: post /\
    is_ok (issue_authority ticket issued (manager_grant authority expected)
             (ticket_run pre (new_ticket_store ttl capacity))).1 = true /\
    now < issued + ttl /\ Forall (fun e => ~ consumes ticket e) post.
Proof.
  apply consume_with_Ok in H as (g & Hl & Hlive & Hr).
  destruct g as [[| |[auth purpose]| | | |] expires]; simpl in Hr; try done.
  unfold resolve_local_room_manager_authority in Hr. simpl in Hr. case_decide; simplify_eq/=.
  apply grant_provenance in Hl as (pre & e & post & -> & Hi & Hpost); [|done].
  apply issued_private in Hi as (issued & -> & Hok & Hexp); [|done|done]. simpl in *.
  destruct (ticket_run_capacity pre (new_ticket_store ttl capacity)) as [_ Httl]. simpl in Httl.
  exists pre, issued, post. split_and!; [done|done| |done]. rewrite Httl in Hexp. lia.
Qed.

Definition demo_authority : LocalRoomManagerAuthority :=
  {| lrm_server_id := u "s"; lrm_authority_lineage_id := u "l"; lrm_room_uid := u "r";
     lrm_manager := MkRoomUserIdentity (u "room-a") (u "op") (u "p-op") |}.

Lemma manager_ticket_provenance_witness :
  let ev := EvIssue (u "t1") 5 (manager_grant demo_authority MessagePinsRead) in
  let store := new_ticket_store (seconds 30) 8 in
  (consume_local_room_manager (u "t1") 6 MessagePinsWrite (ticket_run [ev] store)).1 = Err TicketInvalid /\
  exists pre issued post,
    [ev] = pre ++ EvIssue (u "t1") issued (manager_grant demo_authority MessagePinsRead) :: post /\
    is_ok (issue_authority (u "t1") issued (manager_grant demo_authority MessagePinsRead)
             (ticket_run pre store)).1 = true /\
    6 < issued + seconds 30 /\ Forall (fun e => ~ consumes (u "t1") e) post.
Proof.
  intros ev store. split; [vm_compute; reflexivity|].
  apply (manager_ticket_provenance (seconds 30) 8 [ev] (u "t1") 6 MessagePinsRead demo_authority).
  vm_compute. reflexivity.
Defined.

(** A socket is opened for a session only by a credential issued for that session, while neither
    the credential nor the session has expired. *)

(** a socket is opened for a session only by a credential issued for that session,
    while neither the credential nor the session has expired. *)
Theorem socket_ticket_provenance (ttl : Z) (capacity : nat) (evs : list ticket_event) (ticket : str)
    (now utc : instant) (session : RoomSessionAuthorization) (Hevs : Forall event_ok evs)
    (H : (consume_socket ticket now utc (ticket_run evs (new_ticket_store ttl capacity))).1
         = Ok (SocketRoomSession session)) :
  utc < rsa_expires_at session /\
  exists pre issued issued_utc post,
    evs = pre ++ EvIssueSocket ticket issued issued_utc session :: post /\
    now < issued + Z.min ttl (rsa_expires_at session - issued_utc) /\
    Forall (fun e => ~ consumes ticket e) post.
Proof.
  apply consume_with_Ok in H as (g & Hl & Hlive & Hr).
  destruct g as [[| | |auth| | |] expires]; simpl in Hr; try done.
  unfold resolve_room_session_socket_authority in Hr.
  destruct (rsa_expires_at auth <=? utc) eqn:E; simplify_eq/=. split; [lia|].
  apply grant_provenance in Hl as (pre & e & post & -> & Hi & Hpost); [|done].
  destruct (ticket_run_capacity pre (new_ticket_store ttl capacity)) as [_ Httl]. simpl in Httl.
  apply Forall_app in Hevs as [_ He%Forall_inv].
  destruct e; simpl in Hi; try done; case_match; simplify_eq/=.
  exists pre, now0, utc0, post. split_and!; [done| |done]. rewrite Httl in Hlive. lia.
Qed.

Lemma socket_ticket_provenance_witness :
  let ev := EvIssueSocket (u "t1") 5 7 (HumanSession demo_session) in
  let store := new_ticket_store (seconds 30) 4096 in
  6 + 2 < rsa_expires_at (HumanSession demo_session) /\
  exists pre issued issued_utc post,
    [ev] = pre ++ EvIssueSocket (u "t1") issued issued_utc (HumanSession demo_session) :: post /\
    6 < issued + Z.min (seconds 30) (rsa_expires_at (HumanSession demo_session) - issued_utc) /\
    Forall (fun e => ~ consumes (u "t1") e) post.
Proof.
  intros ev store.
  apply (socket_ticket_provenance (seconds 30) 4096 [ev] (u "t1") 6 (6 + 2) (HumanSession demo_session)).
  - repeat constructor.
  - vm_compute. reflexivity.
Defined.

(** Operator credentials are numbered: of two issued in one history the later has the greater
    number, so a consumer can order the operations they authorise. *)
Theorem operator_sequence_increases (st : TicketStore) (mid : list ticket_event)
    (d1 d2 p1 p2 : str) (n1 n2 : instant) (t1 t2 : str) (g1 g2 : StoredTicketGrant)
    (H1 : issued_grant st (EvIssueOperator d1 n1 p1) = Some (t1, g1))
    (H2 : issued_grant (ticket_run mid (ticket_step st (EvIssueOperator d1 n1 p1)))
            (EvIssueOperator d2 n2 p2) = Some (t2, g2)) :
  exists s1 s2, stg_authority g1 = TA_ServerOperator p1 s1 /\ stg_authority g2 = TA_ServerOperator p2 s2 /\
    (s1 < s2 <= u64_max)%N.
Proof.
  cbn [issued_grant ticket_step] in H1, H2.
  case_match eqn:E1; [|done]. case_match eqn:E2; [|done]. injection H1 as <- <-. injection H2 as <- <-.
  apply issue_server_operator_Ok in E2 as [_ Hs1]. apply issue_server_operator_Ok in E1 as [Hlt _].
  pose proof (ticket_run_sequence mid (issue_server_operator d1 n1 p1 st).2).
  eexists _, _. cbn [stg_authority]. split_and!; [reflexivity|reflexivity| |]. all: lia.
Qed.

Lemma operator_sequence_increases_witness :
  let st := new_ticket_store (seconds 30) 8 in
  exists s1 s2, TA_ServerOperator (u "a") 1 = TA_ServerOperator (u "a") s1 /\
    TA_ServerOperator (u "b") 2 = TA_ServerOperator (u "b") s2 /\ (s1 < s2 <= u64_max)%N.
Proof.
  intros st.
  apply (operator_sequence_increases st [EvConsume (u "t1") 3] (u "t1") (u "t2") (u "a") (u "b") 0 4
    (u "t1") (u "t2") (MkStoredTicketGrant (TA_ServerOperator (u "a") 1) (seconds 30))
    (MkStoredTicketGrant (TA_ServerOperator (u "b") 2) (4 + seconds 30))); vm_compute; reflexivity.
Defined.
