(* ===== verification/Connections.v ===== *)
(** * Admission of connections (agentsassemble-server/src/connection_admission.rs)
    and of lifecycle commands (lifecycle_command_tracker.rs)

    A live WebSocket holds a lease; leases are counted in all, per principal
    and per room. A lifecycle command holds a guard on its exact request. Each
    operation runs under its mutex, so a history is a sequence of operations. *)

From Stdlib Require Import String.
From stdpp Require Import gmap.
From S2P Require Import Prelude Text Json Model.

Definition MAX_CONNECTIONS : N := 128.
Definition MAX_CONNECTIONS_PER_PRINCIPAL : N := 8.
Definition MAX_CONNECTIONS_PER_ROOM : N := 64.

Record Limits : Type := MkLimits { lim_total : N; lim_principal : N; lim_room : N }.
Definition default_limits : Limits :=
  {| lim_total := MAX_CONNECTIONS; lim_principal := MAX_CONNECTIONS_PER_PRINCIPAL;
     lim_room := MAX_CONNECTIONS_PER_ROOM |}.

Record ScopeEntry : Type := MkScopeEntry { se_generation : N; se_active : N }.

Record LeaseRecord : Type := MkLeaseRecord {
  lr_principal_id : str;
  lr_principal_generation : N;
  lr_room_id : str;
  lr_room_generation : N
}.

Record AdmissionState : Type := MkAdmissionState {
  as_sequence : N;
  as_active : N;
  as_principals : gmap str ScopeEntry;
  as_rooms : gmap str ScopeEntry;
  as_leases : gmap N LeaseRecord
}.
Definition default_admission_state : AdmissionState :=
  {| as_sequence := 0; as_active := 0; as_principals := ∅; as_rooms := ∅; as_leases := ∅ |}.

Inductive ConnectionAdmissionError : Type :=
| GlobalLimit | PrincipalLimit | RoomLimit | IdentityUnavailable.

#[global] Instance ConnectionAdmissionError_eq_dec : EqDecision ConnectionAdmissionError.
Proof. solve_decision. Defined.

(** [scopes.get(key).is_some_and(|entry| entry.active >= limit)] *)
Definition scope_full (scopes : gmap str ScopeEntry) (key : str) (limit : N) : bool :=
  match scopes !! key with Some e => (limit <=? se_active e)%N | None => false end.

(** [scopes.entry(key).or_insert(ScopeEntry { generation, active: 0 }).active += 1] *)
Definition enter_scope (scopes : gmap str ScopeEntry) (key : str) (generation : N) : gmap str ScopeEntry :=
  let entry := default (MkScopeEntry generation 0) (scopes !! key) in
  <[key := MkScopeEntry (se_generation entry) (se_active entry + 1)]> scopes.

Definition release_scope (scopes : gmap str ScopeEntry) (key : str) (generation : N) : gmap str ScopeEntry :=
  match scopes !! key with
  | None => scopes
  | Some entry =>
      if decide (se_generation entry = generation) then
        let entry := MkScopeEntry (se_generation entry) (se_active entry - 1) in
        if (se_active entry =? 0)%N then delete key scopes else <[key := entry]> scopes
      else scopes
  end.

(** The generation of a scope: the one it has, or the next identity. *)
Definition scope_generation (scopes : gmap str ScopeEntry) (key : str) (next_identity : N) : N * N :=
  match scopes !! key with
  | Some entry => (se_generation entry, next_identity)
  | None => (next_identity + 1, next_identity + 1)%N
  end.

Definition acquire (limits : Limits) (principal : AuthenticatedPrincipal) (st : AdmissionState) :
    result ConnectionAdmissionError N * AdmissionState :=
  let principal_id := pr_principal_id principal in
  let room_id := pr_room_id principal in
  if (lim_total limits <=? as_active st)%N then (Err GlobalLimit, st)
  else if scope_full (as_principals st) principal_id (lim_principal limits) then (Err PrincipalLimit, st)
  else if scope_full (as_rooms st) room_id (lim_room limits) then (Err RoomLimit, st)
  else
    let '(principal_generation, next_identity) :=
      scope_generation (as_principals st) principal_id (as_sequence st) in
    let '(room_generation, next_identity) := scope_generation (as_rooms st) room_id next_identity in
    let lease_id := (next_identity + 1)%N in
    (* [checked_add] of the identities to draw *)
    if (u64_max <? lease_id)%N then (Err IdentityUnavailable, st)
    else
      (Ok lease_id,
       {| as_sequence := lease_id;
          as_active := as_active st + 1;
          as_principals := enter_scope (as_principals st) principal_id principal_generation;
          as_rooms := enter_scope (as_rooms st) room_id room_generation;
          as_leases := <[lease_id := MkLeaseRecord principal_id principal_generation
                                       room_id room_generation]> (as_leases st) |}).

Definition release (lease_id : N) (st : AdmissionState) : AdmissionState :=
  match as_leases st !! lease_id with
  | None => st
  | Some record =>
      {| as_sequence := as_sequence st;
         as_active := as_active st - 1;
         as_principals := release_scope (as_principals st) (lr_principal_id record)
                            (lr_principal_generation record);
         as_rooms := release_scope (as_rooms st) (lr_room_id record) (lr_room_generation record);
         as_leases := delete lease_id (as_leases st) |}
  end.

Inductive connection_event : Type :=
| EvAcquire (principal : AuthenticatedPrincipal)
| EvRelease (lease_id : N).

Definition connection_step (limits : Limits) (st : AdmissionState) (e : connection_event) : AdmissionState :=
  match e with
  | EvAcquire principal => (acquire limits principal st).2
  | EvRelease lease_id => release lease_id st
  end.
Definition connection_run (limits : Limits) (evs : list connection_event) : AdmissionState :=
  fold_left (connection_step limits) evs default_admission_state.

(** ** One family of scopes

    [key] and [gen] are the scope a lease belongs to and the generation it
    recorded: of its principal, or of its room. *)

Section scopes.
Variables (key : LeaseRecord -> str) (gen : LeaseRecord -> N).

Definition lease_count (k : str) (leases : gmap N LeaseRecord) : nat :=
  size (filter (fun e => key e.2 = k) leases).

Definition scopes_ok (limit seq : N) (scopes : gmap str ScopeEntry) (leases : gmap N LeaseRecord) : Prop :=
  (forall k, match scopes !! k with
             | Some e => N.to_nat (se_active e) = lease_count k leases /\
                 (0 < se_active e <= N.max limit 1)%N /\ (se_generation e <= seq)%N
             | None => lease_count k leases = 0%nat
             end) /\
  (forall i r, leases !! i = Some r -> exists e, scopes !! key r = Some e /\ se_generation e = gen r).

Lemma lease_count_insert i r k leases :
  leases !! i = None ->
  lease_count k (<[i := r]> leases) = ((if decide (key r = k) then 1 else 0) + lease_count k leases)%nat.
Proof.
  intros Hi. unfold lease_count. case_decide as Hk.
  - rewrite map_filter_insert_True by done. apply map_size_insert_None, map_lookup_filter_None. by left.
  - rewrite map_filter_insert_False by done. by rewrite delete_id.
Qed.

Lemma lease_count_delete i r k leases :
  leases !! i = Some r ->
  lease_count k leases = ((if decide (key r = k) then 1 else 0) + lease_count k (delete i leases))%nat.
Proof.
  intros Hi. rewrite <- (insert_delete_id leases i r Hi) at 1.
  apply lease_count_insert, lookup_delete_eq.
Qed.

Lemma scopes_ok_enter limit seq seq' scopes leases i r k next :
  scopes_ok limit seq scopes leases -> leases !! i = None -> key r = k ->
  scope_full scopes k limit = false -> (seq <= next)%N ->
  gen r = (scope_generation scopes k next).1 -> ((scope_generation scopes k next).2 <= seq')%N ->
  scopes_ok limit seq' (enter_scope scopes k (gen r)) (<[i := r]> leases).
Proof.
  intros [Hc Hg] Hi <- Hfull Hnext Hgen Hseq. unfold scope_full, scope_generation, enter_scope in *.
  split.
  - intros k'. rewrite lease_count_insert by done. specialize (Hc k'). case_decide as Hkk; subst.
    + rewrite lookup_insert_eq. destruct (scopes !! key r) as [e|]; simpl in *;
        [destruct Hc as (?&?&?)|]; split_and!; lia.
    + rewrite lookup_insert_ne by done. destruct (scopes !! k'); [|done]. destruct Hc as (?&?&?).
      destruct (scopes !! key r); simpl in *; split_and!; lia.
  - intros i' r' [[<- <-]|[Hne Hl]]%lookup_insert_Some.
    + rewrite lookup_insert_eq. eexists. split; [done|]. simpl.
      destruct (scopes !! key r); simpl in *; congruence.
    + destruct (Hg _ _ Hl) as (e & He & Heg). destruct (decide (key r' = key r)) as [Hkk|Hkk].
      * rewrite Hkk in *. rewrite lookup_insert_eq, He. simpl. by eexists.
      * rewrite lookup_insert_ne by done. by eexists.
Qed.

Lemma scopes_ok_release limit seq scopes leases i r :
  scopes_ok limit seq scopes leases -> leases !! i = Some r ->
  scopes_ok limit seq (release_scope scopes (key r) (gen r)) (delete i leases).
Proof.
  intros [Hc Hg] Hi. destruct (Hg _ _ Hi) as (e & He & Heg). unfold release_scope.
  rewrite He, decide_True by done. simpl.
  pose proof (Hc (key r)) as Hck. rewrite He, (lease_count_delete i r) in Hck by done.
  rewrite decide_True in Hck by done. destruct Hck as (Ha & Hb & Hs).
  assert (forall k, k <> key r -> lease_count k (delete i leases) = lease_count k leases) as Hother.
  { intros k Hk. rewrite (lease_count_delete i r k leases Hi), decide_False by congruence. done. }
  destruct (N.eqb_spec (se_active e - 1) 0) as [Hz|Hz]; split.
  - intros k. destruct (decide (k = key r)) as [->|Hk].
    + rewrite lookup_delete_eq. lia.
    + rewrite lookup_delete_ne, Hother by done. apply Hc.
  - intros i' r' [Hne Hl]%lookup_delete_Some. destruct (Hg _ _ Hl) as (e' & He' & Heg').
    destruct (decide (key r' = key r)) as [Hkk|Hkk].
    + exfalso. assert (lease_count (key r) (delete i leases) <> 0%nat) as Hnz; [|lia].
      unfold lease_count. rewrite map_size_ne_0_lookup. exists i', r'.
      apply map_lookup_filter_Some. split; [by rewrite lookup_delete_ne|done].
    + exists e'. by rewrite lookup_delete_ne.
  - intros k. destruct (decide (k = key r)) as [->|Hk].
    + rewrite lookup_insert_eq. simpl. split_and!; lia.
    + rewrite lookup_insert_ne, Hother by done. apply Hc.
  - intros i' r' [Hne Hl]%lookup_delete_Some. destruct (Hg _ _ Hl) as (e' & He' & Heg').
    destruct (decide (key r' = key r)) as [Hkk|Hkk].
    + rewrite Hkk in *. rewrite lookup_insert_eq. eexists. split; [done|]. simpl. congruence.
    + exists e'. by rewrite lookup_insert_ne.
Qed.
End scopes.

Definition principal_leases : str -> gmap N LeaseRecord -> nat := lease_count lr_principal_id.
Definition room_leases : str -> gmap N LeaseRecord -> nat := lease_count lr_room_id.

(** ** The accounting invariant *)

Definition admission_ok (limits : Limits) (st : AdmissionState) : Prop :=
  N.to_nat (as_active st) = size (as_leases st) /\
  (as_active st <= lim_total limits)%N /\
  scopes_ok lr_principal_id lr_principal_generation (lim_principal limits) (as_sequence st)
    (as_principals st) (as_leases st) /\
  scopes_ok lr_room_id lr_room_generation (lim_room limits) (as_sequence st)
    (as_rooms st) (as_leases st) /\
  (forall i r, as_leases st !! i = Some r -> (i <= as_sequence st)%N).

Lemma scope_generation_le scopes k next : (next <= (scope_generation scopes k next).2)%N.
Proof. unfold scope_generation. destruct (scopes !! k); simpl; lia. Qed.

(** The two identities drawn for the scopes and the one for the lease. *)
Definition new_lease (principal : AuthenticatedPrincipal) (st : AdmissionState) : N * LeaseRecord :=
  let p := scope_generation (as_principals st) (pr_principal_id principal) (as_sequence st) in
  let r := scope_generation (as_rooms st) (pr_room_id principal) p.2 in
  ((r.2 + 1)%N, MkLeaseRecord (pr_principal_id principal) p.1 (pr_room_id principal) r.1).

Lemma acquire_cases limits principal st :
  let '(id, record) := new_lease principal st in
  if (lim_total limits <=? as_active st)%N
     || scope_full (as_principals st) (pr_principal_id principal) (lim_principal limits)
     || scope_full (as_rooms st) (pr_room_id principal) (lim_room limits)
     || (u64_max <? id)%N
  then is_ok (acquire limits principal st).1 = false /\ (acquire limits principal st).2 = st
  else acquire limits principal st =
    (Ok id, {| as_sequence := id; as_active := as_active st + 1;
               as_principals := enter_scope (as_principals st) (pr_principal_id principal)
                                  (lr_principal_generation record);
               as_rooms := enter_scope (as_rooms st) (pr_room_id principal) (lr_room_generation record);
               as_leases := <[id := record]> (as_leases st) |}).
Proof.
  unfold acquire, new_lease. simpl. destruct (lim_total limits <=? as_active st)%N; [done|].
  destruct (scope_full (as_principals st) _ _); [done|]. destruct (scope_full (as_rooms st) _ _); [done|].
  destruct (scope_generation (as_principals st) _ _) as [gp n1]. simpl.
  destruct (scope_generation (as_rooms st) _ n1) as [gr n2]. simpl. case_match; done.
Qed.

Lemma new_lease_fresh limits principal st :
  admission_ok limits st ->
  (as_sequence st < (new_lease principal st).1)%N /\ as_leases st !! (new_lease principal st).1 = None.
Proof.
  intros (_ & _ & _ & _ & Hid). unfold new_lease. simpl.
  pose proof (scope_generation_le (as_principals st) (pr_principal_id principal) (as_sequence st)) as Hle1.
  set (p := scope_generation _ _ _) in *.
  pose proof (scope_generation_le (as_rooms st) (pr_room_id principal) p.2) as Hle2.
  split; [lia|]. apply eq_None_not_Some. intros [r Hr%Hid]. lia.
Qed.

Lemma scopes_ok_weaken key gen limit seq seq' scopes leases :
  (seq <= seq')%N -> scopes_ok key gen limit seq scopes leases -> scopes_ok key gen limit seq' scopes leases.
Proof.
  intros Hs [Hc Hg]. split; [|done]. intros k. specialize (Hc k). destruct (scopes !! k); [|done].
  destruct Hc as (?&?&?). split_and!; lia.
Qed.

Lemma acquire_ok limits principal st :
  admission_ok limits st -> admission_ok limits (acquire limits principal st).2.
Proof.
  intros Hst. pose proof (acquire_cases limits principal st) as Hcase.
  pose proof (new_lease_fresh limits principal st Hst) as [Hseq Hfresh].
  destruct (new_lease principal st) as [id record] eqn:Enew. case_match eqn:Eg.
  { by destruct Hcase as [_ ->]. }
  rewrite Hcase. bool_to_prop. destruct Hst as (Ha & Ht & Hp & Hr & Hid). simpl in *.
  unfold new_lease in Enew.
  pose proof (scope_generation_le (as_principals st) (pr_principal_id principal) (as_sequence st)) as Hle1.
  pose proof (scope_generation_le (as_rooms st) (pr_room_id principal)
    (scope_generation (as_principals st) (pr_principal_id principal) (as_sequence st)).2) as Hle2.
  injection Enew as Eid Erec. unfold admission_ok. cbn [as_sequence as_active as_principals as_rooms as_leases].
  split_and!.
  - rewrite map_size_insert_None by done. lia.
  - lia.
  - apply (scopes_ok_enter lr_principal_id lr_principal_generation _ (as_sequence st) _ _ _ _ _ _
      (as_sequence st));
      subst record; simpl; try done; lia.
  - apply (scopes_ok_enter lr_room_id lr_room_generation _ (as_sequence st) _ _ _ _ _ _
      (scope_generation (as_principals st) (pr_principal_id principal) (as_sequence st)).2);
      subst record; simpl; try done; lia.
  - intros i r [[<- <-]|[_ Hl%Hid]]%lookup_insert_Some; lia.
Qed.

Lemma release_ok limits lease_id st :
  admission_ok limits st -> admission_ok limits (release lease_id st).
Proof.
  intros (Ha & Ht & Hp & Hr & Hid). unfold release.
  destruct (as_leases st !! lease_id) as [record|] eqn:E; [|done]. unfold admission_ok. simpl. split_and!.
  - assert (size (as_leases st) <> 0%nat) by (apply (map_size_ne_0_lookup_2 _ lease_id); by rewrite E).
    rewrite map_size_delete_Some by (by rewrite E). lia.
  - lia.
  - by apply scopes_ok_release.
  - by apply scopes_ok_release.
  - by intros i r [_ Hl%Hid]%lookup_delete_Some.
Qed.

Lemma default_admission_ok limits : admission_ok limits default_admission_state.
Proof.
  unfold admission_ok, scopes_ok, lease_count. simpl. rewrite map_size_empty.
  split_and!; try lia; try (intros; rewrite lookup_empty; rewrite map_filter_empty, map_size_empty; done);
    intros i r Hi; by rewrite lookup_empty in Hi.
Qed.

Lemma connection_run_ok limits evs : admission_ok limits (connection_run limits evs).
Proof.
  unfold connection_run. generalize (default_admission_ok limits). generalize default_admission_state.
  induction evs as [|e evs IH]; intros st Hst; [done|]. simpl. apply IH.
  destruct e; [by apply acquire_ok | by apply release_ok].
Qed.

Lemma scope_full_iff key gen limit seq scopes leases k :
  (0 < limit)%N -> scopes_ok key gen limit seq scopes leases ->
  scope_full scopes k limit = bool_decide (N.to_nat limit <= lease_count key k leases)%nat.
Proof.
  intros Hl [Hc _]. specialize (Hc k). unfold scope_full.
  destruct (scopes !! k) as [e|]; symmetry.
  - destruct Hc as (<- & _ & _). destruct (N.leb_spec limit (se_active e)).
    + apply bool_decide_eq_true. lia.
    + apply bool_decide_eq_false. lia.
  - apply bool_decide_eq_false. lia.
Qed.

Lemma scopes_ok_bound key gen limit seq scopes leases k :
  scopes_ok key gen limit seq scopes leases -> (lease_count key k leases <= N.to_nat (N.max limit 1))%nat.
Proof. intros [Hc _]. specialize (Hc k). destruct (scopes !! k); [destruct Hc as (<-&?&?)|]; lia. Qed.

Lemma release_enter_scope scopes k next :
  (forall e, scopes !! k = Some e -> (0 < se_active e)%N) ->
  release_scope (enter_scope scopes k (scope_generation scopes k next).1) k
    (scope_generation scopes k next).1 = scopes.
Proof.
  intros Hpos. unfold release_scope, enter_scope, scope_generation. rewrite lookup_insert_eq.
  destruct (scopes !! k) as [[g a]|] eqn:E; simpl; rewrite decide_True by done.
  - specialize (Hpos _ eq_refl). simpl in Hpos. destruct (N.eqb_spec (a + 1 - 1) 0); [lia|].
    rewrite insert_insert_eq. apply insert_id. rewrite E. do 2 f_equal. lia.
  - rewrite delete_insert_eq. by apply delete_id.
Qed.

Lemma connection_step_sequence limits st e :
  (as_sequence st <= as_sequence (connection_step limits st e))%N.
Proof.
  destruct e as [p|id]; simpl.
  - pose proof (acquire_cases limits p st) as Hc. destruct (new_lease p st) as [id r] eqn:En.
    assert (as_sequence st < id)%N as Hid.
    { injection En as <- _. pose proof (scope_generation_le (as_principals st) (pr_principal_id p) (as_sequence st)).
      pose proof (scope_generation_le (as_rooms st) (pr_room_id p)
        (scope_generation (as_principals st) (pr_principal_id p) (as_sequence st)).2). lia. }
    case_match; [by destruct Hc as [_ ->]|]. rewrite Hc. simpl. lia.
  - unfold release. case_match; simpl; lia.
Qed.

(** A lease id that has been drawn and is no longer held never comes back. *)
Lemma released_stays_released limits evs st id :
  admission_ok limits st -> (id <= as_sequence st)%N -> as_leases st !! id = None ->
  as_leases (fold_left (connection_step limits) evs st) !! id = None.
Proof.
  revert st. induction evs as [|e evs IH]; intros st Hst Hid Hn; [done|]. simpl. apply IH.
  - destruct e; [by apply acquire_ok|by apply release_ok].
  - pose proof (connection_step_sequence limits st e). lia.
  - destruct e as [p|id']; simpl.
    + pose proof (acquire_cases limits p st) as Hc.
      pose proof (new_lease_fresh limits p st Hst) as [Hf _].
      destruct (new_lease p st) as [new r]. case_match; [by destruct Hc as [_ ->]|].
      rewrite Hc. simpl in *. rewrite lookup_insert_ne by lia. done.
    + unfold release. case_match; [|done]. simpl. apply lookup_delete_None. by right.
Qed.

(** ** Theorems *)

(** Whatever sequence of connections and disconnections happens, the count of connections is the
    number of live leases, at most 128 live, at most 8 of one principal and 64 in one room. *)

(** whatever sequence of connections and disconnections happens, the count of
    connections is the number of live leases, at most 128 live, at most 8 of one principal
    and 64 in one room. *)
Theorem connection_bounds (evs : list connection_event) :
  let st := connection_run default_limits evs in
  N.to_nat (as_active st) = size (as_leases st) /\
  (size (as_leases st) <= 128)%nat /\
  (forall principal_id, principal_leases principal_id (as_leases st) <= 8)%nat /\
  (forall room_id, room_leases room_id (as_leases st) <= 64)%nat.
Proof.
  intros st. destruct (connection_run_ok default_limits evs) as (Ha & Ht & Hp & Hr & _). fold st in Ha, Ht, Hp, Hr.
  simpl in *. unfold MAX_CONNECTIONS in *. split_and!; [done|lia| |].
  - intros p. exact (scopes_ok_bound _ _ _ _ _ _ p Hp).
  - intros r. exact (scopes_ok_bound _ _ _ _ _ _ r Hr).
Qed.

(** A connection is admitted exactly when a place is free in all, for its principal and in its
    room: a refusal in one scope never costs a place in another. *)

(** a connection is admitted exactly when a place is free in all, for its principal and
    in its room: a refusal in one scope never costs a place in another. *)
Theorem acquire_iff (evs : list connection_event) (principal : AuthenticatedPrincipal)
    (Hids : (as_sequence (connection_run default_limits evs) + 3 <= u64_max)%N) :
  let st := connection_run default_limits evs in
  is_ok (acquire default_limits principal st).1 = true <->
  (size (as_leases st) < 128)%nat /\
  (principal_leases (pr_principal_id principal) (as_leases st) < 8)%nat /\
  (room_leases (pr_room_id principal) (as_leases st) < 64)%nat.
Proof.
  intros st. destruct (connection_run_ok default_limits evs) as (Ha & Ht & Hp & Hr & _). fold st in Ha, Ht, Hp, Hr, Hids.
  pose proof (acquire_cases default_limits principal st) as Hc.
  assert ((u64_max <? (new_lease principal st).1)%N = false) as Hid.
  { unfold new_lease, scope_generation. destruct (as_principals st !! _), (as_rooms st !! _); simpl; lia. }
  destruct (new_lease principal st) as [id record]. simpl in Hid. rewrite Hid, orb_false_r in Hc.
  rewrite (scope_full_iff _ _ (lim_principal default_limits) _ _ _ _ ltac:(reflexivity) Hp),
    (scope_full_iff _ _ (lim_room default_limits) _ _ _ _ ltac:(reflexivity) Hr) in Hc.
  cbn [lim_total lim_principal lim_room default_limits] in Hc.
  unfold principal_leases, room_leases, MAX_CONNECTIONS, MAX_CONNECTIONS_PER_PRINCIPAL, MAX_CONNECTIONS_PER_ROOM in *.
  repeat case_bool_decide; destruct (N.leb_spec 128 (as_active st)); simpl in Hc;
    (rewrite Hc || (destruct Hc as [Hc _]; rewrite Hc)); simpl; split; (done || lia || intros (?&?&?); lia).
Qed.

Definition demo_member (id room : string) : AuthenticatedPrincipal :=
  {| pr_principal_id := u id; pr_participant_id := u id; pr_display_name := u id;
     pr_room_id := u room; pr_client_kind := Browser; pr_invite_scope := ReadWrite;
     pr_is_operator := false;
     pr_capabilities := capabilities_for_principal Browser ReadWrite false |}.

Lemma acquire_iff_witness :
  let st := connection_run default_limits [EvAcquire (demo_member "ann" "a"); EvAcquire (demo_member "ann" "b")] in
  principal_leases (u "ann") (as_leases st) = 2%nat /\
  (is_ok (acquire default_limits (demo_member "ann" "a") st).1 = true <->
  (size (as_leases st) < 128)%nat /\
  (principal_leases (u "ann") (as_leases st) < 8)%nat /\
  (room_leases (u "a") (as_leases st) < 64)%nat).
Proof.
  intros st. split; [vm_compute; reflexivity|].
  apply (acquire_iff [EvAcquire (demo_member "ann" "a"); EvAcquire (demo_member "ann" "b")] (demo_member "ann" "a")).
  vm_compute. discriminate.
Defined.

(** Closing a connection at once undoes its admission: every count and generation is as before,
    only the identities drawn stay used. *)
Theorem release_undoes_acquire (limits : Limits) (evs : list connection_event)
    (principal : AuthenticatedPrincipal) (id : N) (st' : AdmissionState)
    (H : acquire limits principal (connection_run limits evs) = (Ok id, st')) :
  release id st' = MkAdmissionState id (as_active (connection_run limits evs))
    (as_principals (connection_run limits evs)) (as_rooms (connection_run limits evs))
    (as_leases (connection_run limits evs)).
Proof.
  pose proof (connection_run_ok limits evs) as Hst. set (st := connection_run limits evs) in *.
  pose proof (acquire_cases limits principal st) as Hc.
  pose proof (new_lease_fresh limits principal st Hst) as [_ Hfresh].
  destruct Hst as (_ & _ & Hp & Hr & _).
  assert (forall key gen limit seq scopes leases k e, scopes_ok key gen limit seq scopes leases ->
    scopes !! k = Some e -> (0 < se_active e)%N) as Hpos.
  { intros ???????? [Hs _] He. specialize (Hs k). rewrite He in Hs. lia. }
  destruct (new_lease principal st) as [new record] eqn:En. case_match.
  { destruct Hc as [Hc _]. by rewrite H in Hc. }
  rewrite Hc in H. injection H as <- <-. simpl in Hfresh.
  unfold release. simpl. rewrite lookup_insert_eq. injection En as <- <-. simpl. f_equal.
  - lia.
  - eapply release_enter_scope. intros e. by eapply Hpos.
  - eapply release_enter_scope. intros e. by eapply Hpos.
  - rewrite delete_insert_eq. by apply delete_id.
Qed.

Lemma release_undoes_acquire_witness :
  let st := connection_run default_limits [EvAcquire (demo_member "ann" "a")] in
  release 5 (acquire default_limits (demo_member "bob" "a") st).2
  = MkAdmissionState 5 (as_active st) (as_principals st) (as_rooms st) (as_leases st).
Proof.
  intros st.
  apply (release_undoes_acquire default_limits [EvAcquire (demo_member "ann" "a")] (demo_member "bob" "a") 5).
  vm_compute. reflexivity.
Defined.

(** A second release of the same lease, however late, frees nothing: a lease released once cannot
    take the place of a connection admitted since. *)
Theorem stale_release_inert (limits : Limits) (evs later : list connection_event) (id : N)
    (Hheld : is_Some (as_leases (connection_run limits evs) !! id)) :
  let st := connection_run limits (evs ++ EvRelease id :: later) in release id st = st.
Proof.
  intros st. assert (as_leases st !! id = None) as Hn; [|unfold release; by rewrite Hn].
  unfold st, connection_run. rewrite fold_left_app. simpl.
  pose proof (connection_run_ok limits evs) as Hst. fold (connection_run limits evs).
  destruct Hheld as [record Hrec]. apply released_stays_released.
  - by apply release_ok.
  - destruct Hst as (_ & _ & _ & _ & Hid). unfold release. rewrite Hrec. simpl. by eapply Hid.
  - unfold release. rewrite Hrec. simpl. apply lookup_delete_eq.
Qed.

Lemma stale_release_inert_witness :
  let st := connection_run default_limits
    ([EvAcquire (demo_member "ann" "a")] ++ EvRelease 3 :: [EvAcquire (demo_member "ann" "a")]) in
  as_active st = 1%N /\ release 3 st = st.
Proof.
  intros st. split; [reflexivity|].
  apply (stale_release_inert default_limits [EvAcquire (demo_member "ann" "a")]
    [EvAcquire (demo_member "ann" "a")] 3). vm_compute. by eexists.
Defined.

(** ** Lifecycle commands

    [try_claim] inserts the exact request into the set of active ones; the
    guard it returns removes it when dropped. *)

Record LifecycleCommandKey : Type := MkLifecycleCommandKey {
  lk_room_id : str; lk_principal_id : str; lk_request_id : str; lk_action : str
}.
#[global] Instance LifecycleCommandKey_eq_dec : EqDecision LifecycleCommandKey.
Proof. solve_decision. Defined.
#[global] Instance LifecycleCommandKey_countable : Countable LifecycleCommandKey.
Proof.
  refine (inj_countable' (fun k => (lk_room_id k, lk_principal_id k, lk_request_id k, lk_action k))
    (fun t => let '(r, p, q, a) := t in MkLifecycleCommandKey r p q a) _).
  by intros [].
Defined.

Definition lifecycle_action (action : str) : bool :=
  bool_decide (action ∈ [u "agent.create"; u "agent.start"; u "agent.resume"; u "agent.readd"; u "agent.stop"]).

(** A guard holds its key, when the action is a lifecycle action. *)
Definition try_claim (room_id principal_id request_id action : str) (active : gset LifecycleCommandKey) :
    option (option LifecycleCommandKey) * gset LifecycleCommandKey :=
  if lifecycle_action action then
    let key := MkLifecycleCommandKey room_id principal_id request_id action in
    if decide (key ∈ active) then (None, active) else (Some (Some key), {[key]} ∪ active)
  else (Some None, active).

Definition drop_guard (guard : option LifecycleCommandKey) (active : gset LifecycleCommandKey) :
    gset LifecycleCommandKey :=
  match guard with Some key => active ∖ {[key]} | None => active end.

(** The tracker with the guards its callers hold; a guard is dropped once, by
    its owner. *)
Record tracker : Type := MkTracker {
  tr_active : gset LifecycleCommandKey;
  tr_guards : list (option LifecycleCommandKey)
}.
Inductive tracker_step : tracker -> tracker -> Prop :=
| TrClaim room principal request action guard active t :
    try_claim room principal request action (tr_active t) = (Some guard, active) ->
    tracker_step t (MkTracker active (guard :: tr_guards t))
| TrDrop guard before after active :
    tracker_step (MkTracker active (before ++ guard :: after))
      (MkTracker (drop_guard guard active) (before ++ after)).

Definition tracker_ok (t : tracker) : Prop :=
  NoDup (omap id (tr_guards t)) /\ list_to_set (omap id (tr_guards t)) = tr_active t.

Lemma tracker_step_ok t t' : tracker_step t t' -> tracker_ok t -> tracker_ok t'.
Proof.
  intros Hs. destruct Hs as [room principal request action guard active t Hc|guard before after active];
    intros [Hnd Heq]; unfold tracker_ok in *; simpl in *.
  - unfold try_claim in Hc. repeat case_match; simplify_eq/=; [|done].
    split; [|by rewrite Heq]. apply NoDup_cons. split; [|done].
    rewrite <- (elem_of_list_to_set (C := gset LifecycleCommandKey)). by rewrite Heq.
  - rewrite omap_app in *. simpl in *. destruct guard as [key|]; simpl in *; [|done].
    apply NoDup_app in Hnd as (Hb & Hba & Hka). apply NoDup_cons in Hka as [Hk Ha].
    assert (key ∉ omap id before) as Hkb by (intros Hin; apply (Hba _ Hin); left).
    split.
    + apply NoDup_app. split_and!; [done| |done]. intros x Hx Hx'. apply (Hba x Hx). by right.
    + rewrite <- Heq, !list_to_set_app_L. simpl. apply set_eq. intros x.
      rewrite elem_of_difference, !elem_of_union, elem_of_singleton, !(elem_of_list_to_set (C := gset LifecycleCommandKey)). naive_solver.
Qed.

Lemma tracker_reachable_ok t : rtc tracker_step (MkTracker ∅ []) t -> tracker_ok t.
Proof.
  assert (tracker_ok (MkTracker ∅ [])) as H0 by (split; [constructor|done]).
  intros H. induction H as [|x y z Hs _ IH]; [done|]. by apply IH, (tracker_step_ok x).
Qed.

(** At every moment one guard at most holds an exact lifecycle request, and a claim is refused
    exactly when a live guard holds it; other actions are never refused. *)

(** at every moment one guard at most holds an exact lifecycle request, and a claim is
    refused exactly when a live guard holds it. *)
Theorem lifecycle_claim_exclusive (t : tracker) (H : rtc tracker_step (MkTracker ∅ []) t)
    (room_id principal_id request_id action : str) :
  NoDup (omap id (tr_guards t)) /\
  ((try_claim room_id principal_id request_id action (tr_active t)).1 = None <->
   lifecycle_action action = true /\
   Some (MkLifecycleCommandKey room_id principal_id request_id action) ∈ tr_guards t).
Proof.
  destruct (tracker_reachable_ok t H) as [Hnd Heq]. split; [done|].
  assert (forall key, key ∈ tr_active t <-> Some key ∈ tr_guards t) as Hin.
  { intros key. rewrite <- Heq, elem_of_list_to_set, list_elem_of_omap. unfold id. naive_solver. }
  unfold try_claim. rewrite <- Hin. case_match; [|naive_solver]. case_decide; naive_solver.
Qed.

Lemma lifecycle_claim_exclusive_witness :
  let key := MkLifecycleCommandKey (u "room") (u "ann") (u "r1") (u "agent.start") in
  let t := MkTracker ({[key]} ∪ ∅) [Some key] in
  NoDup (omap id (tr_guards t)) /\
  ((try_claim (u "room") (u "ann") (u "r1") (u "agent.start") (tr_active t)).1 = None <->
   lifecycle_action (u "agent.start") = true /\ Some key ∈ tr_guards t).
Proof.
  intros key t. apply (lifecycle_claim_exclusive t). apply rtc_once.
  apply (TrClaim (u "room") (u "ann") (u "r1") (u "agent.start") (Some key) _ (MkTracker ∅ [])).
  unfold try_claim. replace (lifecycle_action _) with true by (by vm_compute). cbn zeta match.
  by rewrite decide_False by (apply not_elem_of_empty).
Defined.
