(* ===== verification/Bytes.v ===== *)
(** * Byte encodings the components share

    UTF-8 text ([str::as_bytes]), big-endian integers ([u64::to_be_bytes]) and
    their injectivity; sums over finite maps. *)

From stdpp Require Import gmap.
From S2P Require Import Prelude.

(** ** UTF-8 *)

Definition utf8_char (c : char) : list N :=
  if (c <? 128)%N then [c]
  else if (c <? 2048)%N then [192 + c / 64; 128 + c mod 64]%N
  else if (c <? 65536)%N then [224 + c / 4096; 128 + (c / 64) mod 64; 128 + c mod 64]%N
  else [240 + c / 262144; 128 + (c / 4096) mod 64; 128 + (c / 64) mod 64; 128 + c mod 64]%N.
Definition utf8 (s : str) : list N := s ≫= utf8_char.

(** The code points of Unicode; the encoding needs no more of a [char]. *)
Definition code_point (c : char) : Prop := (c < 1114112)%N.

Lemma utf8_char_length c : length (utf8_char c) = char_len c.
Proof. unfold utf8_char, char_len. repeat case_match; done. Qed.

Lemma utf8_length s : length (utf8 s) = byte_len s.
Proof.
  induction s as [|c s IH]; [done|]. unfold utf8, byte_len in *.
  rewrite bind_cons, length_app, utf8_char_length, IH. done.
Qed.

Ltac N_euclid := zify; Z.to_euclidean_division_equations; lia.

Lemma utf8_char_prefix c d x y :
  code_point c -> code_point d -> utf8_char c ++ x = utf8_char d ++ y -> c = d /\ x = y.
Proof.
  unfold code_point. intros Hc Hd H. unfold utf8_char in H.
  repeat case_match; simpl in H; simplify_eq; try N_euclid; (split; [N_euclid|done]).
Qed.

Lemma utf8_char_cons c : exists b l, utf8_char c = b :: l.
Proof. unfold utf8_char. repeat case_match; eauto. Qed.

Lemma utf8_inj s t :
  Forall code_point s -> Forall code_point t -> utf8 s = utf8 t -> s = t.
Proof.
  intros Hs. revert t. induction Hs as [|c s Hc Hs IH]; intros [|d t] Ht H; [done|..].
  - unfold utf8 in H. simpl in H. destruct (utf8_char_cons d) as (b & l & E). by rewrite E in H.
  - unfold utf8 in H. simpl in H. destruct (utf8_char_cons c) as (b & l & E). by rewrite E in H.
  - apply Forall_cons in Ht as [Hd Ht]. apply (utf8_char_prefix c d) in H as [-> H]; [|done|done].
    f_equal. by apply IH.
Qed.

(** ** Big-endian integers *)

Fixpoint le_bytes (k : nat) (n : N) : list N :=
  match k with O => [] | S k => (n mod 256)%N :: le_bytes k (n / 256) end.
Definition be_bytes (k : nat) (n : N) : list N := rev (le_bytes k n).
Definition u64_be_bytes (n : N) : list N := be_bytes 8 n.

Lemma le_bytes_length k n : length (le_bytes k n) = k.
Proof. revert n. induction k; intros n; simpl; auto. Qed.

Lemma le_bytes_inj k m n :
  (m < 256 ^ N.of_nat k)%N -> (n < 256 ^ N.of_nat k)%N -> le_bytes k m = le_bytes k n -> m = n.
Proof.
  revert m n. induction k as [|k IH]; intros m n Hm Hn H; simpl in H.
  - change (256 ^ N.of_nat 0)%N with 1%N in *. lia.
  - injection H as Hmod Hdiv. rewrite Nat2N.inj_succ, N.pow_succ_r' in *.
    apply IH in Hdiv; [N_euclid|apply N.Div0.div_lt_upper_bound..]; done.
Qed.

Lemma u64_be_bytes_length n : length (u64_be_bytes n) = 8%nat.
Proof. unfold u64_be_bytes, be_bytes. by rewrite length_rev, le_bytes_length. Qed.

Lemma u64_be_bytes_inj m n :
  (m < 2 ^ 64)%N -> (n < 2 ^ 64)%N -> u64_be_bytes m = u64_be_bytes n -> m = n.
Proof.
  unfold u64_be_bytes, be_bytes. intros Hm Hn H%(f_equal (@rev N)). rewrite !rev_involutive in H.
  by apply le_bytes_inj in H.
Qed.

(** A field preceded by its length, as the code feeds text to a digest. *)
Definition framed (field : str) : list N := u64_be_bytes (N.of_nat (byte_len field)) ++ utf8 field.

Definition field_ok (field : str) : Prop :=
  Forall code_point field /\ (N.of_nat (byte_len field) < 2 ^ 64)%N.

Lemma framed_prefix a b x y :
  field_ok a -> field_ok b -> framed a ++ x = framed b ++ y -> a = b /\ x = y.
Proof.
  intros [Ha Hla] [Hb Hlb] H. unfold framed in H. rewrite <- !app_assoc in H.
  apply app_inj_1 in H as [Hlen H]; [|by rewrite !u64_be_bytes_length].
  apply u64_be_bytes_inj in Hlen; [|done|done].
  apply app_inj_1 in H as [H ->]; [|rewrite !utf8_length; lia].
  split; [|done]. by apply utf8_inj.
Qed.

Lemma framed_list_inj l l' :
  Forall field_ok l -> Forall field_ok l' -> length l = length l' -> l ≫= framed = l' ≫= framed -> l = l'.
Proof.
  intros Hl. revert l'. induction Hl as [|a l Ha Hl IH]; intros [|b l'] Hl' Hlen H; try done.
  apply Forall_cons in Hl' as [Hb Hl']. simpl in H. apply framed_prefix in H as [-> H]; [|done|done].
  f_equal. apply IH; [done| |done]. by injection Hlen.
Qed.

(** ** Sums over a finite map *)

Section map_sum.
Context {K A : Type} `{Countable K}.
Implicit Types (f : A -> nat) (m : gmap K A).

Definition map_sum f m : nat := map_fold (fun _ a acc => (f a + acc)%nat) 0%nat m.

Lemma map_sum_empty f : map_sum f ∅ = 0%nat.
Proof. done. Qed.

Lemma map_sum_insert f m i a : m !! i = None -> map_sum f (<[i := a]> m) = (f a + map_sum f m)%nat.
Proof. intros Hi. unfold map_sum. rewrite map_fold_insert_L; [done| |done]. intros; lia. Qed.

Lemma map_sum_delete f m i a : m !! i = Some a -> map_sum f m = (f a + map_sum f (delete i m))%nat.
Proof.
  intros Hi. rewrite <- (insert_delete_id m i a Hi) at 1. apply map_sum_insert, lookup_delete_eq.
Qed.

Lemma map_sum_replace f m i a b :
  m !! i = Some a -> (map_sum f (<[i := b]> m) + f a = f b + map_sum f m)%nat.
Proof.
  intros Hi. rewrite (map_sum_delete f m i a Hi), <- insert_delete_eq, map_sum_insert by apply lookup_delete_eq.
  lia.
Qed.

Lemma map_sum_lookup_le f m i a : m !! i = Some a -> (f a <= map_sum f m)%nat.
Proof. intros Hi. rewrite (map_sum_delete f m i a Hi). lia. Qed.

(** Shrinking every entry, and dropping those that shrink to nothing. *)
Lemma map_sum_omap (g : A -> option A) (h : A -> nat) f m :
  (forall i a, m !! i = Some a -> f a = (h a + from_option f 0%nat (g a)))%nat ->
  map_sum f m = (map_sum h m + map_sum f (omap g m))%nat.
Proof.
  induction m as [|i a m Hi IH] using map_ind; intros Hg; [done|].
  rewrite !map_sum_insert by done. rewrite (Hg i a) by apply lookup_insert_eq.
  rewrite IH; [|intros j b Hj; apply (Hg j); rewrite lookup_insert_ne; congruence].
  rewrite omap_insert. destruct (g a) as [b|] eqn:E; simpl.
  - rewrite map_sum_insert; [lia|]. by rewrite lookup_omap, Hi.
  - rewrite delete_id; [lia|]. by rewrite lookup_omap, Hi.
Qed.
End map_sum.
