(* ===== verification/Budget.v ===== *)
(** * Write budgets (agentsassemble-server/src/principal_mutation_admission.rs,
    agentsassemble-persistence/src/room_write_budget.rs)

    A principal may write so many commands and bytes in any minute; a retry of
    an unresolved command reuses the debit it already has. A room has a durable
    budget per clock minute, whoever writes. *)

From Stdlib Require Import String Sorted.
From stdpp Require Import gmap.
From S2P Require Import Prelude Bytes Text Json Model Command Store.

Definition usize_max : N := 18446744073709551615.
(** [usize::saturating_add] *)
Definition saturating_add (a b : N) : N := N.min (a + b) usize_max.

(** ** The identity of a mutation: the digest of its framed fields *)

Definition mutation_preimage (room_id request_id action payload_hash : str) : list N :=
  (utf8 (u "agentsassemble.principal-mutation.v1") ++ [0%N]) ++
  ([room_id; request_id; action; payload_hash] ≫= framed).

(** Different commands never digest the same text: the fields are framed, so
    none can run into the next. *)
Theorem mutation_preimage_injective (room room' request request' action action' hash hash' : str)
    (Hl : Forall field_ok [room; request; action; hash])
    (Hr : Forall field_ok [room'; request'; action'; hash'])
    (H : mutation_preimage room request action hash = mutation_preimage room' request' action' hash') :
  room = room' /\ request = request' /\ action = action' /\ hash = hash'.
Proof.
  unfold mutation_preimage in H. apply app_inv_head in H.
  apply framed_list_inj in H as [= -> -> -> ->]; done.
Qed.

(** ** The window of a principal *)

Definition MUTATION_WINDOW : Z := seconds 60.
Definition MAX_MUTATIONS_PER_WINDOW : nat := Z.to_nat 3600.
Definition MAX_MUTATION_BYTES_PER_WINDOW : N := 8 * 1024 * 1024.
Definition MAX_TRACKED_PRINCIPALS : nat := 512.
Definition MAX_TRACKED_MUTATIONS : nat := Z.to_nat 32768.

#[global] Opaque MAX_MUTATIONS_PER_WINDOW MAX_MUTATION_BYTES_PER_WINDOW MAX_TRACKED_PRINCIPALS.
#[global] Opaque MAX_TRACKED_MUTATIONS usize_max.

(** A digest of 32 bytes. *)
Abbreviation MutationIdentity := (list N) (only parsing).

Record MutationCharge : Type := MkMutationCharge {
  mc_at : Z;
  mc_bytes : N;
  mc_identity : MutationIdentity;
  mc_charge_id : N
}.
Record PrincipalWindow : Type := MkPrincipalWindow {
  pw_recent : list MutationCharge;
  pw_bytes : N;
  pw_retryable : gmap MutationIdentity N
}.
Definition new_window : PrincipalWindow := MkPrincipalWindow [] 0 ∅.

Definition budget_exceeded : PersistenceError :=
  rejected_tx "write_budget_exceeded" "Authenticated principal write budget exceeded.".
Definition capacity_exceeded : PersistenceError :=
  rejected_tx "write_budget_capacity_exceeded" "Authenticated write admission capacity is unavailable.".

Section budget.
(** The first instant the monotonic clock can express. *)
Context (instant_min : Z).

(** [now.checked_sub(MUTATION_WINDOW).unwrap_or(now)] *)
Definition cutoff_of (now : Z) : Z :=
  if now - MUTATION_WINDOW <? instant_min then now else now - MUTATION_WINDOW.

(** The [while] loop pops the front as long as it is at or before the cutoff. *)
Fixpoint prune_loop (cutoff : Z) (recent : list MutationCharge) (bytes : N)
    (retryable : gmap MutationIdentity N) : PrincipalWindow :=
  match recent with
  | expired :: rest =>
      if mc_at expired <=? cutoff
      then prune_loop cutoff rest (bytes - mc_bytes expired)
             (if decide (retryable !! mc_identity expired = Some (mc_charge_id expired))
              then delete (mc_identity expired) retryable else retryable)
      else MkPrincipalWindow recent bytes retryable
  | [] => MkPrincipalWindow [] bytes retryable
  end.

(** The number removed and the window that is left. *)
Definition prune (now : Z) (w : PrincipalWindow) : nat * PrincipalWindow :=
  let w' := prune_loop (cutoff_of now) (pw_recent w) (pw_bytes w) (pw_retryable w) in
  ((length (pw_recent w) - length (pw_recent w'))%nat, w').

Definition window_charge (now : Z) (identity : MutationIdentity) (payload_bytes charge_id : N)
    (w : PrincipalWindow) : tx PrincipalWindow :=
  let next_bytes := saturating_add (pw_bytes w) payload_bytes in
  if bool_decide (MAX_MUTATIONS_PER_WINDOW < length (pw_recent w) + 1)%nat
     || (MAX_MUTATION_BYTES_PER_WINDOW <? next_bytes)%N
  then Err budget_exceeded
  else Ok (MkPrincipalWindow
             (pw_recent w ++ [MkMutationCharge now payload_bytes identity charge_id])
             next_bytes
             (<[identity := charge_id]> (pw_retryable w))).

(** ** The state of the admission *)

Record MutationState : Type := MkMutationState {
  ms_sequence : N;
  ms_windows : gmap str PrincipalWindow;
  ms_tracked_mutations : nat
}.
Definition default_mutation_state : MutationState := MkMutationState 0 ∅ 0.

Definition prune_principal (principal_id : str) (now : Z) (st : MutationState) : MutationState :=
  match ms_windows st !! principal_id with
  | None => st
  | Some w =>
      let '(removed, w') := prune now w in
      MkMutationState (ms_sequence st) (<[principal_id := w']> (ms_windows st))
        (ms_tracked_mutations st - removed)
  end.

(** [retain] keeps the windows that still have a charge. *)
Definition retained (now : Z) (w : PrincipalWindow) : option PrincipalWindow :=
  let w' := (prune now w).2 in
  if bool_decide (pw_recent w' = []) then None else Some w'.

Definition prune_all (now : Z) (st : MutationState) : MutationState :=
  let removed := map_sum (fun w => (prune now w).1) (ms_windows st) in
  MkMutationState (ms_sequence st) (omap (retained now) (ms_windows st))
    (ms_tracked_mutations st - removed).

Definition is_tracked (principal_id : str) (st : MutationState) : bool :=
  match ms_windows st !! principal_id with Some _ => true | None => false end.
Definition principals_full (st : MutationState) : bool :=
  bool_decide (MAX_TRACKED_PRINCIPALS <= size (ms_windows st))%nat.
Definition mutations_full (st : MutationState) : bool :=
  bool_decide (MAX_TRACKED_MUTATIONS <= ms_tracked_mutations st)%nat.

Definition retryable_charge (principal_id : str) (identity : MutationIdentity) (st : MutationState) : option N :=
  w ← ms_windows st !! principal_id; pw_retryable w !! identity.

(** The window is created before it is charged, and stays if the charge is
    refused. *)
Definition charge_window (principal_id : str) (identity : MutationIdentity) (payload_bytes : N) (now : Z)
    (st : MutationState) : result PersistenceError N * MutationState :=
  let charge_id := (ms_sequence st + 1)%N in
  if (u64_max <? charge_id)%N then (Err capacity_exceeded, st) else
  let w := default new_window (ms_windows st !! principal_id) in
  match window_charge now identity payload_bytes charge_id w with
  | Err e => (Err e, MkMutationState (ms_sequence st) (<[principal_id := w]> (ms_windows st))
                       (ms_tracked_mutations st))
  | Ok w' => (Ok charge_id, MkMutationState charge_id (<[principal_id := w']> (ms_windows st))
                              (ms_tracked_mutations st + 1))
  end.

Definition charge (principal_id : str) (identity : MutationIdentity) (payload_bytes : N) (now : Z)
    (st : MutationState) : result PersistenceError N * MutationState :=
  let st := prune_principal principal_id now st in
  match retryable_charge principal_id identity st with
  | Some charge_id => (Ok charge_id, st)
  | None =>
      let st :=
        if (negb (is_tracked principal_id st) && principals_full st) || mutations_full st
        then prune_all now st else st in
      if negb (is_tracked principal_id st) && principals_full st then (Err capacity_exceeded, st)
      else if mutations_full st then (Err capacity_exceeded, st)
      else charge_window principal_id identity payload_bytes now st
  end.

Definition resolve (principal_id : str) (identity : MutationIdentity) (charge_id : N)
    (st : MutationState) : MutationState :=
  match ms_windows st !! principal_id with
  | None => st
  | Some w =>
      if decide (pw_retryable w !! identity = Some charge_id)
      then MkMutationState (ms_sequence st)
             (<[principal_id := MkPrincipalWindow (pw_recent w) (pw_bytes w)
                                  (delete identity (pw_retryable w))]> (ms_windows st))
             (ms_tracked_mutations st)
      else st
  end.

Inductive admission_event : Type :=
| EvCharge (principal_id : str) (identity : MutationIdentity) (payload_bytes : N) (now : Z)
| EvResolve (principal_id : str) (identity : MutationIdentity) (charge_id : N).

Definition mutation_step (st : MutationState) (e : admission_event) : MutationState :=
  match e with
  | EvCharge p i b now => (charge p i b now st).2
  | EvResolve p i c => resolve p i c st
  end.
Definition mutation_run (evs : list admission_event) (st : MutationState) : MutationState :=
  fold_left mutation_step evs st.
End budget.

(** ** The window invariant *)

Definition sum_bytes (l : list MutationCharge) : N := foldr (fun c acc => mc_bytes c + acc)%N 0%N l.

Lemma sum_bytes_app l l' : sum_bytes (l ++ l') = (sum_bytes l + sum_bytes l')%N.
Proof. unfold sum_bytes. induction l; simpl; lia. Qed.

Definition names (identity : MutationIdentity) (charge_id : N) (c : MutationCharge) : Prop :=
  mc_identity c = identity /\ mc_charge_id c = charge_id.

(** [seq] bounds the charge ids, which are distinct. *)
Record window_ok (seq : N) (w : PrincipalWindow) : Prop := MkWindowOk {
  wo_bytes : pw_bytes w = sum_bytes (pw_recent w);
  wo_count : (length (pw_recent w) <= MAX_MUTATIONS_PER_WINDOW)%nat;
  wo_limit : (pw_bytes w <= MAX_MUTATION_BYTES_PER_WINDOW)%N;
  wo_retry : forall i c, pw_retryable w !! i = Some c -> Exists (names i c) (pw_recent w);
  wo_nodup : NoDup (map mc_charge_id (pw_recent w));
  wo_seq : Forall (fun c => mc_charge_id c <= seq)%N (pw_recent w)
}.

Record mutation_state_ok (st : MutationState) : Prop := MkMutationStateOk {
  mo_windows : map_Forall (fun _ w => window_ok (ms_sequence st) w) (ms_windows st);
  mo_tracked : ms_tracked_mutations st = map_sum (fun w => length (pw_recent w)) (ms_windows st);
  mo_mutations : (ms_tracked_mutations st <= MAX_TRACKED_MUTATIONS)%nat;
  mo_principals : (size (ms_windows st) <= MAX_TRACKED_PRINCIPALS)%nat
}.

Section proofs.
Context (instant_min : Z).
#[local] Abbreviation prune := (prune instant_min).
#[local] Abbreviation cutoff_of := (cutoff_of instant_min).

Lemma prune_loop_spec cutoff recent bytes retryable :
  let w' := prune_loop cutoff recent bytes retryable in
  exists popped, recent = popped ++ pw_recent w' /\ Forall (fun c => mc_at c <= cutoff) popped /\
    pw_bytes w' = (bytes - sum_bytes popped)%N /\
    (forall c, head (pw_recent w') = Some c -> cutoff < mc_at c) /\
    forall i c, pw_retryable w' !! i = Some c <-> retryable !! i = Some c /\ ~ Exists (names i c) popped.
Proof.
  revert bytes retryable. induction recent as [|e recent IH]; intros bytes retryable; simpl.
  - exists []. split_and!; [done|constructor|simpl; lia|done|].
    intros i c. rewrite Exists_nil. tauto.
  - destruct (mc_at e <=? cutoff) eqn:E.
    + destruct (IH (bytes - mc_bytes e)%N (if decide (retryable !! mc_identity e = Some (mc_charge_id e))
              then delete (mc_identity e) retryable else retryable)) as (popped & Hr & Hp & Hb & Hh & Hi).
      exists (e :: popped). split_and!; [simpl; congruence|constructor; [lia|done]|rewrite Hb; simpl; lia|done|].
      intros i c. rewrite Hi, Exists_cons. unfold names at 2. case_decide as Hd.
      * destruct (decide (mc_identity e = i)) as [<-|Hne].
        -- rewrite lookup_delete_eq, Hd. split; [by intros []|]. intros [[= ->] Hn]. tauto.
        -- rewrite lookup_delete_ne by done. tauto.
      * split; [|tauto]. intros [Hc Hn]. split; [done|]. intros [[<- <-]|]; tauto.
    + exists []. split_and!; [done|constructor|simpl; lia| |].
      * intros c [= <-]. lia.
      * intros i c. rewrite Exists_nil. tauto.
Qed.

Lemma prune_ok seq now w :
  window_ok seq w ->
  window_ok seq (prune now w).2 /\
  length (pw_recent w) = ((prune now w).1 + length (pw_recent (prune now w).2))%nat.
Proof.
  intros [Hb Hc Hl Hr Hn Hs]. unfold Budget.prune. simpl.
  destruct (prune_loop_spec (cutoff_of now) (pw_recent w) (pw_bytes w) (pw_retryable w))
    as (popped & Hrec & Hp & Hb' & _ & Hi).
  set (w' := prune_loop _ _ _ _) in *. split; [|rewrite Hrec, length_app; lia].
  rewrite Hrec in *. rewrite length_app in Hc. rewrite sum_bytes_app in Hb.
  rewrite map_app in Hn. apply NoDup_app in Hn as (_ & _ & Hn). apply Forall_app in Hs as [_ Hs].
  split; try done; try lia.
  intros i c [Hri Hnp]%Hi. by apply Hr, Exists_app in Hri as [|].
Qed.

Lemma window_ok_weaken seq seq' w : (seq <= seq')%N -> window_ok seq w -> window_ok seq' w.
Proof. intros Hs [? ? ? ? ? Hq]. split; try done. eapply Forall_impl; [exact Hq|]. simpl. lia. Qed.

Lemma new_window_ok seq : window_ok seq new_window.
Proof. by split; simpl; try constructor; try lia; try done. Qed.

Lemma window_charge_ok seq now identity bytes w w' :
  window_ok seq w -> window_charge now identity bytes (seq + 1) w = Ok w' ->
  window_ok (seq + 1) w' /\ pw_recent w' = pw_recent w ++ [MkMutationCharge now bytes identity (seq + 1)] /\
  pw_retryable w' = <[identity := (seq + 1)%N]> (pw_retryable w).
Proof.
  intros [Hb Hc Hl Hr Hn Hs]. unfold window_charge. case_match eqn:E; [done|]. intros [= <-]. bool_to_prop.
  assert (MAX_MUTATION_BYTES_PER_WINDOW < usize_max)%N by reflexivity.
  split; [|done]. unfold saturating_add in *. split; simpl.
  - rewrite sum_bytes_app. simpl. lia.
  - rewrite length_app. simpl. lia.
  - lia.
  - intros i c [[<- <-]|[_ Hi]]%lookup_insert_Some; apply Exists_app; [|left; by apply Hr].
    right. by constructor.
  - rewrite map_app. apply NoDup_app. split_and!; [done| |apply NoDup_singleton].
    intros x Hx Hx'%list_elem_of_singleton. subst x. apply list_elem_of_In, in_map_iff in Hx as (c & Hc' & Hin).
    apply list_elem_of_In in Hin. rewrite Forall_forall in Hs. specialize (Hs c Hin). simpl in Hc'. lia.
  - apply Forall_app. split; [|repeat constructor; simpl; lia].
    eapply Forall_impl; [exact Hs|]. simpl. lia.
Qed.

(** ** The state invariant and the effect of each operation *)

Definition recent_of (p : str) (st : MutationState) : list MutationCharge :=
  from_option pw_recent [] (ms_windows st !! p).

(** [st'] is [st] with charges at or before the cutoff of [now] dropped. *)
Definition pruned (now : Z) (st st' : MutationState) : Prop :=
  ms_sequence st' = ms_sequence st /\
  forall p, exists popped, recent_of p st = popped ++ recent_of p st' /\
    Forall (fun c => mc_at c <= cutoff_of now) popped /\
    forall i c, retryable_charge p i st' = Some c <->
      retryable_charge p i st = Some c /\ ~ Exists (names i c) popped.

Lemma pruned_refl now st : pruned now st st.
Proof.
  split; [done|]. intros p. exists []. split_and!; [done|constructor|]. intros i c. rewrite Exists_nil. tauto.
Qed.

Lemma pruned_trans now st st' st'' : pruned now st st' -> pruned now st' st'' -> pruned now st st''.
Proof.
  intros [Hs H] [Hs' H']. split; [congruence|]. intros p.
  destruct (H p) as (l & Hl & Hf & Hi), (H' p) as (l' & Hl' & Hf' & Hi').
  exists (l ++ l'). rewrite <- app_assoc, <- Hl'. split_and!; [done|by apply Forall_app|].
  intros i c. rewrite Hi', Hi, Exists_app. tauto.
Qed.

(** What pruning does to one window, absent windows counting as empty. *)
Lemma prune_window now w : let w' := (prune now w).2 in
  exists popped, pw_recent w = popped ++ pw_recent w' /\
    Forall (fun c => mc_at c <= cutoff_of now) popped /\
    forall i c, pw_retryable w' !! i = Some c <->
      pw_retryable w !! i = Some c /\ ~ Exists (names i c) popped.
Proof.
  intros w'. destruct (prune_loop_spec (cutoff_of now) (pw_recent w) (pw_bytes w) (pw_retryable w))
    as (popped & Hrec & Hp & _ & _ & Hi). exists popped. by split_and!.
Qed.

Lemma prune_principal_pruned p now st : pruned now st (prune_principal instant_min p now st).
Proof.
  unfold prune_principal. destruct (ms_windows st !! p) as [w|] eqn:E; [|apply pruned_refl].
  pose proof (prune_window now w) as (popped & Hr & Hp & Hi). simpl. split; [done|]. intros q.
  unfold recent_of, retryable_charge. simpl. destruct (decide (p = q)) as [<-|Hne].
  - rewrite lookup_insert_eq, E. simpl. by exists popped.
  - rewrite lookup_insert_ne by done. apply (proj2 (pruned_refl now st) q).
Qed.

Lemma prune_all_pruned now st : mutation_state_ok st -> pruned now st (prune_all instant_min now st).
Proof.
  intros Hst. split; [done|]. intros q. unfold recent_of, retryable_charge, prune_all. simpl.
  rewrite lookup_omap. destruct (ms_windows st !! q) as [w|] eqn:E; simpl.
  2:{ exists []. split_and!; [done|constructor|]. intros i c. rewrite Exists_nil. tauto. }
  pose proof (prune_window now w) as (popped & Hr & Hp & Hi). simpl in *. exists popped.
  unfold retained. case_bool_decide as He; simpl; [|done]. simpl in He. rewrite He in Hr.
  split_and!; [done|done|]. intros i c. split; [done|]. intros [Hc Hn].
  destruct Hn. rewrite app_nil_r in Hr. rewrite <- Hr. by apply (wo_retry _ _ (mo_windows st Hst q w E)).
Qed.

Lemma prune_principal_ok p now st :
  mutation_state_ok st -> mutation_state_ok (prune_principal instant_min p now st).
Proof.
  intros [Hw Ht Hm Hp]. unfold prune_principal. destruct (ms_windows st !! p) as [w|] eqn:E; [|done].
  destruct (prune_ok (ms_sequence st) now w (Hw p w E)) as [Hok Hlen].
  destruct (prune now w) as [removed w']. simpl in *.
  pose proof (map_sum_replace (fun w => length (pw_recent w)) _ _ _ w' E) as Hsum. split; simpl.
  - by apply map_Forall_insert_2.
  - lia.
  - lia.
  - by rewrite map_size_insert_Some.
Qed.

Lemma prune_all_ok now st : mutation_state_ok st -> mutation_state_ok (prune_all instant_min now st).
Proof.
  intros [Hw Ht Hm Hp]. unfold prune_all. split; cbn [ms_windows ms_tracked_mutations ms_sequence].
  - intros p w' Hl. rewrite lookup_omap in Hl. apply bind_Some in Hl as (w & Hl & Hr).
    unfold retained in Hr. case_bool_decide; [done|]. injection Hr as <-.
    by apply (prune_ok (ms_sequence st) now w), (Hw p).
  - rewrite (map_sum_omap (retained instant_min now) (fun w => (prune now w).1) (fun w => length (pw_recent w))) in Ht.
    + lia.
    + intros p w Hl. destruct (prune_ok (ms_sequence st) now w (Hw p w Hl)) as [_ ->].
      unfold retained. case_bool_decide as He; [|done]. simpl in *. by rewrite He.
  - lia.
  - etransitivity; [|exact Hp]. rewrite <- !size_dom. apply subseteq_size, dom_omap_subseteq.
Qed.

(** What charging does, after the pruning. *)
Inductive charge_effect (p : str) (i : MutationIdentity) (bytes : N) (now : Z) (st : MutationState) :
    result PersistenceError N -> MutationState -> Prop :=
| ChargeReused c :
    retryable_charge p i st = Some c ->
    charge_effect p i bytes now st (Ok c) st
| ChargeRefused e st' :
    ms_sequence st' = ms_sequence st -> (forall q, recent_of q st' = recent_of q st) ->
    (forall q j, retryable_charge q j st' = retryable_charge q j st) ->
    charge_effect p i bytes now st (Err e) st'
| ChargeFresh st' :
    retryable_charge p i st = None ->
    ms_sequence st' = (ms_sequence st + 1)%N ->
    (forall q, recent_of q st' = recent_of q st ++
       if decide (q = p) then [MkMutationCharge now bytes i (ms_sequence st + 1)] else []) ->
    (forall q j, retryable_charge q j st' =
       if decide (q = p /\ j = i) then Some (ms_sequence st + 1)%N else retryable_charge q j st) ->
    charge_effect p i bytes now st (Ok (ms_sequence st + 1)%N) st'.

Lemma charge_window_effect p i bytes now st :
  mutation_state_ok st -> retryable_charge p i st = None ->
  is_tracked p st = true \/ principals_full st = false -> mutations_full st = false ->
  charge_effect p i bytes now st (charge_window p i bytes now st).1 (charge_window p i bytes now st).2 /\
  mutation_state_ok (charge_window p i bytes now st).2.
Proof.
  intros Hst Hretry Hp Hm. unfold charge_window.
  case_match; [split; [by constructor|done]|].
  unfold mutations_full, principals_full, is_tracked in *. apply bool_decide_eq_false in Hm.
  destruct Hst as [Hw Ht Hmm Hpp].
  assert (window_ok (ms_sequence st) (default new_window (ms_windows st !! p))) as Hwin.
  { destruct (ms_windows st !! p) eqn:E; [by apply (Hw p)|apply new_window_ok]. }
  assert (forall w, (size (<[p := w]> (ms_windows st)) <= MAX_TRACKED_PRINCIPALS)%nat) as Hsize.
  { intros w. rewrite map_size_insert. destruct (ms_windows st !! p); simpl; [done|].
    destruct Hp as [|Hp]; [done|]. apply bool_decide_eq_false in Hp. lia. }
  assert (forall w, map_sum (fun w => length (pw_recent w)) (<[p := w]> (ms_windows st)) +
    length (pw_recent (default new_window (ms_windows st !! p))) =
    length (pw_recent w) + ms_tracked_mutations st)%nat as Hsum.
  { intros w. rewrite Ht. destruct (ms_windows st !! p) eqn:E; simpl.
    - by apply (map_sum_replace (fun w => length (pw_recent w))).
    - rewrite map_sum_insert by done. lia. }
  destruct (window_charge _ _ _ _ _) as [w'|e] eqn:E.
  - destruct (window_charge_ok _ _ _ _ _ _ Hwin E) as (Hok & Hrec & Hret). split.
    + apply ChargeFresh; simpl; [done|done| |].
      * intros q. unfold recent_of. simpl. destruct (decide (q = p)) as [->|Hq].
        -- rewrite lookup_insert_eq. simpl. rewrite Hrec. f_equal. by destruct (ms_windows st !! p).
        -- by rewrite lookup_insert_ne, app_nil_r.
      * intros q j. unfold retryable_charge. simpl. destruct (decide (q = p)) as [->|Hq].
        -- rewrite lookup_insert_eq. simpl. rewrite Hret. destruct (decide (p = p /\ j = i)) as [[_ ->]|Hj].
           ++ apply lookup_insert_eq.
           ++ rewrite lookup_insert_ne by (intros ->; tauto). destruct (ms_windows st !! p); [done|apply lookup_empty].
        -- rewrite lookup_insert_ne, decide_False by (tauto || congruence). done.
    + specialize (Hsum w'). rewrite Hrec, length_app in Hsum. simpl in Hsum. split; simpl.
      * apply map_Forall_insert_2; [done|]. eapply map_Forall_impl; [exact Hw|]. simpl.
        intros _ w. apply window_ok_weaken. lia.
      * lia.
      * lia.
      * done.
  - split.
    + apply ChargeRefused; simpl; [done| |].
      * intros q. unfold recent_of. simpl. destruct (decide (p = q)) as [<-|Hq].
        -- rewrite lookup_insert_eq. simpl. by destruct (ms_windows st !! p).
        -- by rewrite lookup_insert_ne.
      * intros q j. unfold retryable_charge. simpl. destruct (decide (p = q)) as [<-|Hq].
        -- rewrite lookup_insert_eq. simpl. destruct (ms_windows st !! p); [done|apply lookup_empty].
        -- by rewrite lookup_insert_ne.
    + specialize (Hsum (default new_window (ms_windows st !! p))). split; simpl; [|lia|lia|done].
      by apply map_Forall_insert_2.
Qed.

Lemma charge_spec p i bytes now st :
  mutation_state_ok st ->
  exists st1, pruned now st st1 /\ mutation_state_ok st1 /\
    charge_effect p i bytes now st1 (charge instant_min p i bytes now st).1 (charge instant_min p i bytes now st).2 /\
    mutation_state_ok (charge instant_min p i bytes now st).2.
Proof.
  intros Hst. unfold charge.
  pose proof (prune_principal_pruned p now st) as Hpr. pose proof (prune_principal_ok p now st Hst) as Hok.
  set (sta := prune_principal instant_min p now st) in *.
  destruct (retryable_charge p i sta) as [c|] eqn:Hretry.
  { exists sta. split_and!; [done|done|by constructor|done]. }
  set (stb := if _ || _ then _ else sta).
  assert (pruned now st stb /\ mutation_state_ok stb /\ retryable_charge p i stb = None) as (Hpb & Hob & Hrb).
  { subst stb. case_match; [|done]. pose proof (prune_all_pruned now sta Hok) as Hpa. split_and!.
    - by eapply pruned_trans.
    - by apply prune_all_ok.
    - apply eq_None_not_Some. intros [c Hc]. destruct (proj2 Hpa p) as (l & Hl1 & Hl2 & Hi).
      pose proof (proj1 (proj1 (Hi i c) Hc)). congruence. }
  exists stb. split; [done|]. split; [done|].
  destruct (negb (is_tracked p stb) && principals_full stb) eqn:E; [split; [by constructor|done]|].
  destruct (mutations_full stb) eqn:Em; [split; [by constructor|done]|].
  apply charge_window_effect; try done. apply andb_false_iff in E as [E|E]; [left|by right].
  by apply negb_false_iff in E.
Qed.

Lemma resolve_effect p i c st :
  ms_sequence (resolve p i c st) = ms_sequence st /\
  (forall q, recent_of q (resolve p i c st) = recent_of q st) /\
  (forall q j d, retryable_charge q j (resolve p i c st) = Some d <->
     retryable_charge q j st = Some d /\ ~ (q = p /\ j = i /\ d = c)).
Proof.
  unfold resolve. destruct (ms_windows st !! p) as [w|] eqn:E.
  2:{ split_and!; [done|done|]. intros q j d. split; [|tauto]. intros Hd. split; [done|].
      intros (-> & _). unfold retryable_charge in Hd. by rewrite E in Hd. }
  case_decide as Hc.
  - split_and!; [done| |].
    + intros q. unfold recent_of. simpl. destruct (decide (p = q)) as [<-|Hq].
      * by rewrite lookup_insert_eq, E.
      * by rewrite lookup_insert_ne.
    + intros q j d. unfold retryable_charge. simpl. destruct (decide (p = q)) as [<-|Hq].
      * rewrite lookup_insert_eq, E. simpl. rewrite lookup_delete_Some.
        split; [naive_solver|]. intros [Hd Hn]. split; [|done]. intros <-. apply Hn. split_and!; congruence.
      * rewrite lookup_insert_ne by done. naive_solver.
  - split_and!; [done|done|]. intros q j d. split; [|tauto]. intros Hd. split; [done|].
    intros (-> & -> & ->). unfold retryable_charge in Hd. rewrite E in Hd. done.
Qed.

Lemma resolve_ok p i c st : mutation_state_ok st -> mutation_state_ok (resolve p i c st).
Proof.
  intros [Hw Ht Hm Hp]. unfold resolve. destruct (ms_windows st !! p) as [w|] eqn:E; [|done].
  case_decide; [|done].
  pose proof (map_sum_replace (fun w => length (pw_recent w)) _ _ _
    (MkPrincipalWindow (pw_recent w) (pw_bytes w) (delete i (pw_retryable w))) E) as Hsum.
  split; simpl in *; [|lia|lia|by rewrite map_size_insert_Some].
  apply map_Forall_insert_2; [|done]. destruct (Hw p w E) as [? ? ? Hr ? ?]. split; simpl; try done.
  intros j d [_ Hj]%lookup_delete_Some. by apply Hr.
Qed.

Lemma mutation_step_ok st e : mutation_state_ok st -> mutation_state_ok (mutation_step instant_min st e).
Proof.
  intros Hst. destruct e as [p i b now|p i c]; simpl; [|by apply resolve_ok].
  by destruct (charge_spec p i b now st Hst) as (? & _ & _ & _ & ?).
Qed.

Lemma mutation_run_ok evs st : mutation_state_ok st -> mutation_state_ok (mutation_run instant_min evs st).
Proof.
  revert st. induction evs as [|e evs IH]; intros st Hst; [done|]. simpl. by apply IH, mutation_step_ok.
Qed.
End proofs.

Lemma default_mutation_state_ok : mutation_state_ok default_mutation_state.
Proof.
  split; simpl; [apply map_Forall_empty|done|lia|]. rewrite map_size_empty. lia.
Qed.

(** ** The debits of a history *)

Definition fresh_debit (instant_min : Z) (st : MutationState) (e : admission_event) : list (str * MutationCharge) :=
  match e with
  | EvCharge p i b now =>
      let st' := (charge instant_min p i b now st).2 in
      if (ms_sequence st' =? ms_sequence st)%N then []
      else [(p, MkMutationCharge now b i (ms_sequence st'))]
  | EvResolve _ _ _ => []
  end.
Fixpoint debits (instant_min : Z) (evs : list admission_event) (st : MutationState) : list (str * MutationCharge) :=
  match evs with
  | [] => []
  | e :: evs => fresh_debit instant_min st e ++ debits instant_min evs (mutation_step instant_min st e)
  end.
Definition debits_of (p : str) (l : list (str * MutationCharge)) : list MutationCharge :=
  map snd (filter (fun e => e.1 = p) l).

(** The times of the charges of a history are expressible a minute back, and not past [last]. *)
Definition times_ok (instant_min last : Z) (evs : list admission_event) : Prop :=
  Forall (fun e => match e with
                   | EvCharge _ _ _ now => instant_min + MUTATION_WINDOW <= now <= last
                   | EvResolve _ _ _ => True
                   end) evs.

Lemma debits_of_app p l l' : debits_of p (l ++ l') = debits_of p l ++ debits_of p l'.
Proof. unfold debits_of. by rewrite filter_app, map_app. Qed.

Lemma debits_snoc instant_min evs e st :
  debits instant_min (evs ++ [e]) st =
  debits instant_min evs st ++ fresh_debit instant_min (mutation_run instant_min evs st) e.
Proof.
  revert st. induction evs as [|e' evs IH]; intros st; simpl; [by rewrite app_nil_r|].
  by rewrite IH, app_assoc.
Qed.

Lemma mutation_run_snoc instant_min evs e st :
  mutation_run instant_min (evs ++ [e]) st = mutation_step instant_min (mutation_run instant_min evs st) e.
Proof. unfold mutation_run. by rewrite fold_left_app. Qed.

Lemma cutoff_le instant_min now last :
  instant_min + MUTATION_WINDOW <= now <= last -> cutoff_of instant_min now <= last - MUTATION_WINDOW.
Proof. intros H. unfold cutoff_of. case_match; lia. Qed.

(** Every debit a window no longer holds is a minute old. *)
Lemma debits_recent instant_min last evs p :
  times_ok instant_min last evs ->
  exists old, debits_of p (debits instant_min evs default_mutation_state) =
      old ++ recent_of p (mutation_run instant_min evs default_mutation_state) /\
    Forall (fun c => mc_at c <= last - MUTATION_WINDOW) old.
Proof.
  induction evs as [|e evs IH] using rev_ind; intros Ht; [by exists []|].
  apply Forall_app in Ht as [Ht He%Forall_inv]. destruct (IH Ht) as (old & Heq & Hold).
  rewrite debits_snoc, mutation_run_snoc, debits_of_app, Heq.
  pose proof (mutation_run_ok instant_min evs _ default_mutation_state_ok) as Hst.
  set (st := mutation_run instant_min evs default_mutation_state) in *.
  destruct e as [q i b now|q i c]; simpl.
  2:{ exists old. rewrite (proj1 (proj2 (resolve_effect q i c st))). unfold debits_of. simpl.
      by rewrite app_nil_r. }
  destruct (charge_spec instant_min q i b now st Hst) as (st1 & [Hseq Hpr] & Hok1 & Heff & _).
  destruct (Hpr p) as (popped & Hrec & Hpop & _). exists (old ++ popped).
  assert (Forall (fun c => mc_at c <= last - MUTATION_WINDOW) (old ++ popped)) as Hall.
  { apply Forall_app. split; [done|]. eapply Forall_impl; [exact Hpop|]. simpl.
    intros c Hc. etransitivity; [exact Hc|]. by apply cutoff_le. }
  split; [|done]. rewrite Hrec. destruct Heff as [c Hc|e st' Hs Hr _|st' Hn Hs Hr _].
  - rewrite (proj2 (N.eqb_eq _ _) Hseq). unfold debits_of. simpl. by rewrite app_nil_r, app_assoc.
  - rewrite Hs, (proj2 (N.eqb_eq _ _) Hseq), Hr. unfold debits_of. simpl. by rewrite app_nil_r, app_assoc.
  - rewrite Hr. replace (ms_sequence st' =? ms_sequence st)%N with false by lia.
    rewrite Hs. unfold debits_of. rewrite filter_cons, filter_nil. simpl.
    destruct (decide (q = p)), (decide (p = q)); simpl; try congruence; by rewrite !app_assoc.
Qed.

Lemma filter_sum_le (P : MutationCharge -> Prop) `{forall c, Decision (P c)} l :
  (sum_bytes (filter P l) <= sum_bytes l)%N /\ (length (filter P l) <= length l)%nat.
Proof.
  induction l as [|c l IH]; [done|]. rewrite filter_cons. case_decide; simpl in *; lia.
Qed.

Lemma recent_of_bounds p st :
  mutation_state_ok st -> (sum_bytes (recent_of p st) <= MAX_MUTATION_BYTES_PER_WINDOW)%N /\
  (length (recent_of p st) <= MAX_MUTATIONS_PER_WINDOW)%nat.
Proof.
  intros [Hw _ _ _]. unfold recent_of. destruct (ms_windows st !! p) as [w|] eqn:E; simpl; [|lia].
  destruct (Hw p w E). split; [congruence|done].
Qed.

(** ** Theorems of the principal budget *)

(** Over any history, whatever retries, resolutions and prunings it contains, the debits a
    principal made in the last minute are at most 3,600 and carry at most 8 MiB. *)

(** C27: over any history, whatever retries, resolutions and prunings it contains, the
    debits a principal made in the last minute are at most 3,600 and carry at most 8 MiB. *)
Theorem sliding_window_budget (instant_min last : Z) (evs : list admission_event) (p : str)
    (H : times_ok instant_min last evs) :
  let recent := filter (fun c => last - MUTATION_WINDOW < mc_at c)
                  (debits_of p (debits instant_min evs default_mutation_state)) in
  (sum_bytes recent <= 8 * 1024 * 1024)%N /\ (length recent <= Z.to_nat 3600)%nat.
Proof.
  intros recent. destruct (debits_recent instant_min last evs p H) as (old & Heq & Hold).
  pose proof (mutation_run_ok instant_min evs _ default_mutation_state_ok) as Hst.
  destruct (recent_of_bounds p _ Hst) as [Hb Hl].
  unfold recent. rewrite Heq, filter_app, (filter_none _ old); simpl.
  - destruct (filter_sum_le (fun c => last - MUTATION_WINDOW < mc_at c)
      (recent_of p (mutation_run instant_min evs default_mutation_state))) as [Hb' Hl'].
    split; [etransitivity; [exact Hb'|exact Hb]|etransitivity; [exact Hl'|exact Hl]].
  - eapply Forall_impl; [exact Hold|]. simpl. intros c. lia.
Qed.

Definition demo_charges : list admission_event :=
  [EvCharge (u "ann") [1%N] 100 (seconds 70); EvCharge (u "ann") [2%N] 50 (seconds 75);
   EvCharge (u "ann") [1%N] 100 (seconds 80)].

Lemma sliding_window_budget_witness :
  length (debits_of (u "ann") (debits 0 demo_charges default_mutation_state)) = 2%nat /\
  let recent := filter (fun c => seconds 80 - MUTATION_WINDOW < mc_at c)
                  (debits_of (u "ann") (debits 0 demo_charges default_mutation_state)) in
  (sum_bytes recent <= 8 * 1024 * 1024)%N /\ (length recent <= Z.to_nat 3600)%nat.
Proof.
  split; [vm_compute; reflexivity|].
  apply (sliding_window_budget 0 (seconds 80) demo_charges (u "ann")).
  repeat constructor; unfold MUTATION_WINDOW, seconds; lia.
Defined.

(** The memory of the admission is bounded and its two counters are exact: at most 512 windows,
    at most 32,768 remembered debits, each window's byte count the sum of its debits. *)
Theorem mutation_memory_bounded (instant_min : Z) (evs : list admission_event) :
  let st := mutation_run instant_min evs default_mutation_state in
  (size (ms_windows st) <= 512)%nat /\
  ms_tracked_mutations st = map_sum (fun w => length (pw_recent w)) (ms_windows st) /\
  (ms_tracked_mutations st <= Z.to_nat 32768)%nat /\
  forall p w, ms_windows st !! p = Some w ->
    pw_bytes w = sum_bytes (pw_recent w) /\
    forall i c, pw_retryable w !! i = Some c -> Exists (names i c) (pw_recent w).
Proof.
  intros st. destruct (mutation_run_ok instant_min evs _ default_mutation_state_ok) as [Hw Ht Hm Hp].
  split_and!; [exact Hp|exact Ht|exact Hm|]. intros p w Hl. by destruct (Hw p w Hl).
Qed.

(** *** Retrying *)

(** The events that neither resolve the debit [c] nor come a minute after it. *)
Definition leaves_debit (instant_min : Z) (p : str) (i : MutationIdentity) (c : N) (made : Z)
    (e : admission_event) : Prop :=
  match e with
  | EvCharge _ _ _ now => instant_min + MUTATION_WINDOW <= now < made + MUTATION_WINDOW
  | EvResolve q j d => ~ (q = p /\ j = i /\ d = c)
  end.

(** [c] is the retryable debit of the command, and was made no earlier than [made]. *)
Definition holds_debit (p : str) (i : MutationIdentity) (c : N) (made : Z) (st : MutationState) : Prop :=
  mutation_state_ok st /\ retryable_charge p i st = Some c /\ (c <= ms_sequence st)%N /\
  Forall (fun d => names i c d -> made <= mc_at d) (recent_of p st).

Lemma holds_debit_pruned instant_min p i c made now st st1 :
  instant_min + MUTATION_WINDOW <= now < made + MUTATION_WINDOW ->
  holds_debit p i c made st -> pruned instant_min now st st1 -> mutation_state_ok st1 ->
  holds_debit p i c made st1.
Proof.
  intros Hnow (Hst & Hr & Hc & Hat) [Hseq Hpr] Hst1.
  destruct (Hpr p) as (popped & Hrec & Hpop & Hi). rewrite Hrec in Hat. apply Forall_app in Hat as [Hap Har].
  split_and!; [done| |by rewrite Hseq|done]. apply Hi. split; [done|]. intros Hex.
  apply Exists_exists in Hex as (d & Hd & Hn). rewrite Forall_forall in Hap, Hpop.
  specialize (Hap d Hd Hn). specialize (Hpop d Hd). simpl in *.
  pose proof (cutoff_le instant_min now now ltac:(lia)). lia.
Qed.

Lemma holds_debit_step instant_min p i c made st e :
  leaves_debit instant_min p i c made e -> holds_debit p i c made st ->
  holds_debit p i c made (mutation_step instant_min st e).
Proof.
  intros He Hold. pose proof Hold as (Hst & Hr & Hc & Hat).
  destruct e as [q j b now|q j d]; simpl in *.
  - destruct (charge_spec instant_min q j b now st Hst) as (st1 & Hpr & Hok1 & Heff & Hok2).
    destruct (holds_debit_pruned instant_min p i c made now st st1 He Hold Hpr Hok1) as (_ & Hr1 & Hc1 & Hat1).
    destruct Heff as [d Hd|er st' Hs Hrec Hret|st' Hn Hs Hrec Hret]; (split; [done|]).
    + done.
    + by rewrite Hret, Hs, Hrec.
    + rewrite Hret, Hrec, Hs. split_and!; [|lia|].
      * rewrite decide_False; [done|]. intros [-> ->]. congruence.
      * apply Forall_app. split; [done|]. case_decide; [|constructor]. repeat constructor.
        unfold names. simpl. lia.
  - destruct (resolve_effect q j d st) as (Hs & Hrec & Hret).
    split_and!; [by apply resolve_ok| |by rewrite Hs|by rewrite Hrec].
    apply Hret. split; [done|]. intros (-> & -> & ->). by apply He.
Qed.

Lemma holds_debit_run instant_min p i c made evs st :
  Forall (leaves_debit instant_min p i c made) evs -> holds_debit p i c made st ->
  holds_debit p i c made (mutation_run instant_min evs st).
Proof.
  intros He. revert st. induction He as [|e evs He _ IH]; intros st Hst; [done|].
  simpl. by apply IH, holds_debit_step.
Qed.

Lemma fresh_holds_debit instant_min p i b now c st :
  instant_min + MUTATION_WINDOW <= now -> mutation_state_ok st ->
  (charge instant_min p i b now st).1 = Ok c ->
  ms_sequence (charge instant_min p i b now st).2 <> ms_sequence st ->
  holds_debit p i c now (charge instant_min p i b now st).2.
Proof.
  intros Hnow Hst Hc Hs. destruct (charge_spec instant_min p i b now st Hst) as (st1 & [Hseq _] & Hok1 & Heff & Hok2).
  destruct Heff as [d Hd|er st' Hs' _ _|st' Hn Hs' Hrec Hret]; [congruence|done|].
  injection Hc as <-. split_and!; [done| |lia|].
  - rewrite Hret, decide_True by done. done.
  - rewrite Hrec. apply Forall_app. split.
    + destruct Hok1 as [Hw _ _ _]. unfold recent_of. destruct (ms_windows st1 !! p) as [w|] eqn:E; [|constructor].
      destruct (Hw p w E) as [_ _ _ _ _ Hq]. eapply Forall_impl; [exact Hq|]. simpl. unfold names. lia.
    + rewrite decide_True by done. repeat constructor. simpl. lia.
Qed.

(** A command retried within a minute of its debit, and not resolved meanwhile, is answered with
    the debit it already has and charged nothing, whatever else is written in between. *)

(** a command retried within a minute of its debit, and not resolved meanwhile, is
    answered with the debit it already has and charged nothing. *)
Theorem retry_reuses_debit (instant_min : Z) (before evs : list admission_event) (p : str)
    (i : MutationIdentity) (b b' : N) (now now' : Z) (c : N)
    (Hnow : instant_min + MUTATION_WINDOW <= now)
    (Hok : (charge instant_min p i b now (mutation_run instant_min before default_mutation_state)).1 = Ok c)
    (Hfresh : ms_sequence (charge instant_min p i b now (mutation_run instant_min before default_mutation_state)).2
              <> ms_sequence (mutation_run instant_min before default_mutation_state))
    (Hevs : Forall (leaves_debit instant_min p i c now) evs)
    (Hnow' : instant_min + MUTATION_WINDOW <= now' < now + MUTATION_WINDOW) :
  let st := mutation_run instant_min (before ++ EvCharge p i b now :: evs) default_mutation_state in
  (charge instant_min p i b' now' st).1 = Ok c /\
  fresh_debit instant_min st (EvCharge p i b' now') = [].
Proof.
  intros st. pose proof (mutation_run_ok instant_min before _ default_mutation_state_ok) as Hst0.
  pose proof (fresh_holds_debit instant_min p i b now c _ Hnow Hst0 Hok Hfresh) as Hold.
  apply (holds_debit_run instant_min p i c now evs) in Hold; [|done].
  assert (st = mutation_run instant_min evs (charge instant_min p i b now
    (mutation_run instant_min before default_mutation_state)).2) as Est.
  { unfold st, mutation_run. by rewrite fold_left_app. }
  rewrite <- Est in Hold. clear Est Hok Hfresh Hst0.
  destruct (holds_debit_pruned instant_min p i c now now' st (prune_principal instant_min p now' st) Hnow' Hold)
    as (_ & Hr & _); [apply prune_principal_pruned|apply prune_principal_ok, Hold|].
  assert (charge instant_min p i b' now' st = (Ok c, prune_principal instant_min p now' st)) as Ec
    by (unfold charge; by rewrite Hr).
  unfold fresh_debit. rewrite Ec. simpl. split; [done|].
  by rewrite (proj1 (prune_principal_pruned instant_min p now' st)), N.eqb_refl.
Qed.

Lemma retry_reuses_debit_witness :
  let st := mutation_run 0 ([] ++ EvCharge (u "ann") [1%N] 100 (seconds 70)
              :: [EvCharge (u "ann") [2%N] 50 (seconds 75)]) default_mutation_state in
  (charge 0 (u "ann") [1%N] 100 (seconds 80) st).1 = Ok 1%N /\
  fresh_debit 0 st (EvCharge (u "ann") [1%N] 100 (seconds 80)) = [].
Proof.
  apply (retry_reuses_debit 0 [] [EvCharge (u "ann") [2%N] 50 (seconds 75)] (u "ann") [1%N] 100 100
    (seconds 70) (seconds 80) 1).
  - unfold MUTATION_WINDOW, seconds. lia.
  - vm_compute. reflexivity.
  - vm_compute. discriminate.
  - repeat constructor; unfold MUTATION_WINDOW, seconds; lia.
  - unfold MUTATION_WINDOW, seconds. lia.
Defined.

Lemma mutation_preimage_injective_witness :
  u "a" = u "a" /\ u "b" = u "b" /\ u "message.send" = u "message.send" /\ u "h" = u "h".
Proof.
  apply (mutation_preimage_injective (u "a") (u "a") (u "b") (u "b") (u "message.send") (u "message.send")
    (u "h") (u "h")); [| |reflexivity]; repeat constructor; unfold code_point; vm_compute; reflexivity.
Defined.

(** ** The durable budget of a room *)

Definition ROOM_WRITE_WINDOW_SECONDS : Z := 60.
Definition MAX_ROOM_COMMANDS_PER_WINDOW : Z := 14400.
Definition MAX_ROOM_PAYLOAD_BYTES_PER_WINDOW : Z := 32 * 1024 * 1024.

(** [i64::saturating_add] of numbers that are not negative. *)
Definition i64_saturating_add (a b : Z) : Z := Z.min (a + b) i64_max.

(** The table [room_write_budgets]: the commands and bytes of a room in the
    window that starts at a second. *)
Abbreviation budget_table := (gmap (str * Z) (Z * Z)) (only parsing).

Definition room_budget_exceeded : PersistenceError :=
  rejected_tx "write_budget_exceeded" "Room-wide authenticated write budget exceeded.".

Definition window_start (now_seconds : Z) : Z :=
  now_seconds / ROOM_WRITE_WINDOW_SECONDS * ROOM_WRITE_WINDOW_SECONDS.

Definition reserve_room_write_budget_with_limits (room_id : str) (now_seconds : Z) (payload_bytes : N)
    (command_limit payload_byte_limit : Z) (t : budget_table) : tx budget_table :=
  reject_if (i64_max <? Z.of_N payload_bytes) room_budget_exceeded ;;
  let payload_bytes := Z.of_N payload_bytes in
  reject_if ((command_limit <=? 0) || (payload_byte_limit <=? 0) || (payload_bytes <? 0)) room_budget_exceeded ;;
  let window_started_at := window_start now_seconds in
  let t := filter (fun row => ~ row.1.2 < window_started_at) t in
  let '(command_count, byte_count) := default (0, 0) (t !! (room_id, window_started_at)) in
  reject_if ((command_limit <? i64_saturating_add command_count 1)
             || (payload_byte_limit <? i64_saturating_add byte_count payload_bytes)) room_budget_exceeded ;;
  mret (match t !! (room_id, window_started_at) with
        | None => <[(room_id, window_started_at) := (1, payload_bytes)]> t
        | Some (c, b) => <[(room_id, window_started_at) := (c + 1, b + payload_bytes)]> t
        end).

Definition reserve_room_write_budget (room_id : str) (now_seconds : Z) (payload_bytes : N) (t : budget_table) :
    tx budget_table :=
  reserve_room_write_budget_with_limits room_id now_seconds payload_bytes
    MAX_ROOM_COMMANDS_PER_WINDOW MAX_ROOM_PAYLOAD_BYTES_PER_WINDOW t.

(** A write to a room, and what a history of them reserved. *)
Record room_write : Type := MkRoomWrite { rw_room : str; rw_now : Z; rw_bytes : N }.

Definition reserve_step (s : list room_write * budget_table) (w : room_write) : list room_write * budget_table :=
  match reserve_room_write_budget (rw_room w) (rw_now w) (rw_bytes w) s.2 with
  | Ok t => (s.1 ++ [w], t)
  | Err _ => s
  end.
Definition reserve_run (ws : list room_write) : list room_write * budget_table :=
  fold_left reserve_step ws ([], ∅).

Definition in_window (room_id : str) (start : Z) (w : room_write) : Prop :=
  rw_room w = room_id /\ window_start (rw_now w) = start.
#[global] Instance in_window_dec r k w : Decision (in_window r k w).
Proof. unfold in_window. apply _. Defined.

Definition window_usage (room_id : str) (start : Z) (ws : list room_write) : Z * Z :=
  let l := filter (in_window room_id start) ws in
  (Z.of_nat (length l), foldr (fun w acc => Z.of_N (rw_bytes w) + acc) 0 l).

Lemma window_usage_snoc r k ws w :
  window_usage r k (ws ++ [w]) =
  if decide (in_window r k w)
  then ((window_usage r k ws).1 + 1, (window_usage r k ws).2 + Z.of_N (rw_bytes w))
  else window_usage r k ws.
Proof.
  unfold window_usage. rewrite filter_app, filter_cons, filter_nil.
  case_decide; [|by rewrite app_nil_r]. rewrite length_app, foldr_app. simpl. f_equal; [lia|].
  generalize (filter (in_window r k) ws). intros l. induction l; simpl; lia.
Qed.

(** The table holds the exact usage of every window from the current one on. *)
Definition budget_ok (current : Z) (s : list room_write * budget_table) : Prop :=
  (forall r k, current <= k -> default (0, 0) (s.2 !! (r, k)) = window_usage r k s.1) /\
  (forall r k, 0 <= (window_usage r k s.1).1 <= MAX_ROOM_COMMANDS_PER_WINDOW /\
     0 <= (window_usage r k s.1).2 <= MAX_ROOM_PAYLOAD_BYTES_PER_WINDOW).

Lemma window_start_mono a b : a <= b -> window_start a <= window_start b.
Proof.
  intros H. unfold window_start, ROOM_WRITE_WINDOW_SECONDS.
  pose proof (Z.div_le_mono a b 60 ltac:(lia) H). lia.
Qed.

(** The rows a reservation keeps, and the usage it finds. *)
Definition kept_rows (start : Z) (t : budget_table) : budget_table :=
  filter (fun row => ~ row.1.2 < start) t.

Lemma kept_rows_lookup start t r k : start <= k -> kept_rows start t !! (r, k) = t !! (r, k).
Proof.
  intros Hk. apply option_eq. intros v. unfold kept_rows. rewrite map_lookup_filter_Some. simpl.
  split; [tauto|]. intros Hl. split; [done|lia].
Qed.

Lemma saturating_within a b limit :
  limit < i64_max -> (limit <? i64_saturating_add a b) = false -> a + b <= limit.
Proof. unfold i64_saturating_add. lia. Qed.

Lemma reserve_Ok r now bytes t t' c b :
  reserve_room_write_budget r now bytes t = Ok t' ->
  default (0, 0) (t !! (r, window_start now)) = (c, b) -> 0 <= c <= MAX_ROOM_COMMANDS_PER_WINDOW ->
  0 <= b <= MAX_ROOM_PAYLOAD_BYTES_PER_WINDOW ->
  c + 1 <= MAX_ROOM_COMMANDS_PER_WINDOW /\ b + Z.of_N bytes <= MAX_ROOM_PAYLOAD_BYTES_PER_WINDOW /\
  t' = <[(r, window_start now) := (c + 1, b + Z.of_N bytes)]> (kept_rows (window_start now) t).
Proof.
  unfold reserve_room_write_budget, reserve_room_write_budget_with_limits. cbv zeta.
  fold (kept_rows (window_start now) t). rewrite kept_rows_lookup by lia. intros E Ed Hc Hb.
  rewrite Ed in E. res_inv. bool_to_prop. split_and!.
  - eapply saturating_within; [|done]; reflexivity.
  - eapply saturating_within; [|done]; reflexivity.
  - destruct (t !! (r, window_start now)) as [[c' b']|]; simpl in Ed; by simplify_eq.
Qed.

Lemma reserve_step_ok current s w :
  current <= window_start (rw_now w) -> budget_ok current s ->
  budget_ok (window_start (rw_now w)) (reserve_step s w).
Proof.
  intros Hnow [Hrow Hbound]. unfold reserve_step.
  destruct (reserve_room_write_budget _ _ _ _) as [t'|e] eqn:E.
  2:{ split; [|done]. intros r k Hk. apply Hrow. lia. }
  pose proof (Hrow (rw_room w) (window_start (rw_now w)) Hnow) as Hcur.
  destruct (Hbound (rw_room w) (window_start (rw_now w))) as [Hc Hb].
  destruct (window_usage (rw_room w) (window_start (rw_now w)) s.1) as [c b] eqn:Eu.
  destruct (reserve_Ok _ _ _ _ _ _ _ E Hcur Hc Hb) as (Hc' & Hb' & ->). cbn [fst snd] in Hc, Hb.
  split; cbn [fst snd]; intros r k; rewrite window_usage_snoc; case_decide as Hw.
  - destruct Hw as [<- <-]. intros _. by rewrite lookup_insert_eq, Eu.
  - intros Hk. rewrite lookup_insert_ne; [rewrite kept_rows_lookup by done; apply Hrow; lia|].
    intros [= <- <-]. by apply Hw.
  - destruct Hw as [<- <-]. rewrite Eu. cbn [fst snd]. lia.
  - apply Hbound.
Qed.

(** As long as the clock does not go back, no clock minute of a room ever carries more than 14,400
    commands or 32 MiB of payload, however the writes are spread over its principals. *)

(** as long as the clock does not go back, no clock minute of a room ever carries more
    than 14,400 commands or 32 MiB of payload, however the writes are spread over its
    principals. *)
Theorem room_budget_respected (ws : list room_write) (r : str) (start : Z)
    (H : Sorted Z.le (map rw_now ws)) :
  0 <= (window_usage r start (reserve_run ws).1).1 <= 14400 /\
  0 <= (window_usage r start (reserve_run ws).1).2 <= 32 * 1024 * 1024.
Proof.
  enough (forall current s, budget_ok current s ->
    Forall (fun w => current <= window_start (rw_now w)) ws ->
    exists current', budget_ok current' (fold_left reserve_step ws s)) as Hall.
  { destruct ws as [|w ws']; [unfold window_usage; simpl; lia|].
    destruct (Hall (window_start (rw_now w)) ([], ∅)) as [current' [_ Hb]]; [| |exact (Hb r start)].
    - split; [intros; cbn [fst snd]; by rewrite lookup_empty|]. intros. unfold window_usage. simpl.
      unfold MAX_ROOM_COMMANDS_PER_WINDOW, MAX_ROOM_PAYLOAD_BYTES_PER_WINDOW. lia.
    - apply Sorted_StronglySorted in H; [|intros a b c; lia]. simpl in H. apply StronglySorted_inv in H as [_ H].
      constructor; [done|]. rewrite Forall_map in H. eapply Forall_impl; [exact H|]. simpl.
      intros x. apply window_start_mono. }
  apply Sorted_StronglySorted in H; [|intros a b c; lia].
  induction ws as [|w ws IH]; intros current s Hs Hf; [by exists current|]. simpl in *.
  apply StronglySorted_inv in H as [H Hle]. apply Forall_cons in Hf as [Hw Hf].
  apply (IH H (window_start (rw_now w))); [by eapply reserve_step_ok|].
  rewrite Forall_map in Hle. eapply Forall_impl; [exact Hle|]. simpl. intros x. apply window_start_mono.
Qed.

Definition demo_writes : list room_write :=
  [MkRoomWrite (u "general") 1000 40; MkRoomWrite (u "general") 1001 33554400; MkRoomWrite (u "general") 1019 32].

Lemma room_budget_respected_witness :
  length (reserve_run demo_writes).1 = 2%nat /\
  0 <= (window_usage (u "general") 960 (reserve_run demo_writes).1).1 <= 14400 /\
  0 <= (window_usage (u "general") 960 (reserve_run demo_writes).1).2 <= 32 * 1024 * 1024.
Proof.
  split; [vm_compute; reflexivity|].
  apply (room_budget_respected demo_writes (u "general") 960). repeat constructor; simpl; lia.
Defined.
