(* ===== verification/Turn.v ===== *)
(** * The turn of an agent session (agentsassemble-persistence/src/turn_queue.rs,
    turn_authority.rs, room_turns.rs, room_turn_scheduler.rs, room_turn_support.rs)

    What the turn machinery does to one session: the queue of room messages it
    waits for, the messages a running turn has taken, the tuple of fields that
    says whether a turn is running, and the transitions between these. *)

From Stdlib Require Import String.
From S2P Require Import Prelude Text Json Model Command Store.

(** ** turn_queue.rs *)

Definition MAX_QUEUED_EVENT_IDS : nat := Z.to_nat 256.
#[global] Opaque MAX_QUEUED_EVENT_IDS.

Inductive InvalidTurnQueue : Type := MkInvalidTurnQueue.
Inductive InvalidTurnAuthority : Type := MkInvalidTurnAuthority.

Fixpoint merge_loop (seen : list str) (merged values : list QueuedRoomInput) :
    result InvalidTurnQueue (list QueuedRoomInput) :=
  match values with
  | [] => Ok merged
  | value :: values =>
      if bool_decide (length merged = MAX_QUEUED_EVENT_IDS) || str_empty (qi_event_id value)
         || contains seen (qi_event_id value)
      then Err MkInvalidTurnQueue
      else merge_loop (qi_event_id value :: seen) (merged ++ [value]) values
  end.
Definition merge_room_inputs (values : list QueuedRoomInput) : result InvalidTurnQueue (list QueuedRoomInput) :=
  merge_loop [] [] values.

Definition room_input_queue_is_canonical (values : list QueuedRoomInput) : bool :=
  is_ok (merge_room_inputs values).

(** ** turn_authority.rs *)

Definition last_event_is (inputs : list QueuedRoomInput) (event_id : str) : bool :=
  match last inputs with Some input => str_eqb (qi_event_id input) event_id | None => false end.

Definition list_empty {A} (l : list A) : bool := match l with [] => true | _ => false end.

Definition active_turn_authority (session : DurableAgentSession) : result InvalidTurnAuthority bool :=
  let public := d_public session in
  if negb (room_input_queue_is_canonical (d_inflight_inputs session ++ d_pending_inputs session))
  then Err MkInvalidTurnAuthority
  else
    let active :=
      negb (str_empty (s_active_turn_id public))
      && contains [RuntimeBusy; RuntimeStopping] (s_runtime_status public)
      && contains [PhaseThinking; PhaseStreaming] (s_turn_phase public)
      && negb (list_empty (d_inflight_inputs session))
      && last_event_is (d_inflight_inputs session) (d_active_source_event_id session)
      && str_eqb (d_active_source_event_id session) (d_input_up_to_event_id session)
      && (0 <? d_input_up_to_seq session) in
    let clear :=
      str_empty (s_active_turn_id public)
      && negb (bool_decide (s_runtime_status public = RuntimeBusy))
      && phase_is_none (s_turn_phase public)
      && list_empty (d_inflight_inputs session)
      && str_empty (d_active_source_event_id session)
      && str_empty (d_input_up_to_event_id session)
      && (d_input_up_to_seq session =? 0) in
    match active, clear with
    | true, false => Ok true
    | false, true => Ok false
    | _, _ => Err MkInvalidTurnAuthority
    end.

Definition stored_turn_authority_invalid : PersistenceError :=
  rejected_tx "stored_turn_authority_invalid" "Stored Agent Session turn authority is inconsistent.".

Definition turn_authority_is_active (session : DurableAgentSession) : tx bool :=
  map_err (fun _ => stored_turn_authority_invalid) (active_turn_authority session).

Definition stale_provider_turn : PersistenceError :=
  rejected_tx "stale_provider_turn" "Provider turn completion does not match durable room authority.".

Definition require_active_turn (session : DurableAgentSession) (turn_id : str) : tx unit :=
  if str_empty turn_id then Err stale_provider_turn
  else if negb (str_eqb turn_id (s_active_turn_id (d_public session))) then Err stale_provider_turn
  else active ← turn_authority_is_active session; require active stale_provider_turn.

(** ** The transitions of one session *)

(** room_turn_scheduler.rs: [session_is_assignable] *)
Definition session_is_assignable (session : DurableAgentSession) : bool :=
  let public := d_public session in
  s_enabled public
  && bool_decide (s_status public = SessionAttached)
  && bool_decide (s_runtime_status public = RuntimeIdle)
  && s_provider_session_active public
  && str_empty (s_active_turn_id public)
  && list_empty (d_inflight_inputs session)
  && action_is_none (d_lifecycle_intent_action session).

Definition queue_full (delivery_kind : RoomInputDeliveryKind) : PersistenceError :=
  match delivery_kind with
  | OrderedObservation => rejected_tx "ordered_floor_queue_full"
      "The selected Agent Session ordered-floor queue is full."
  | AmbientObservation => rejected_tx "room_turn_queue_full"
      "The selected Agent Session room-input queue is full."
  end.

Definition queues_event (session : DurableAgentSession) (event_id : str) : bool :=
  any (fun input => str_eqb (qi_event_id input) event_id)
    (d_pending_inputs session ++ d_inflight_inputs session).

(** room_turn_scheduler.rs: what [queue_input] does to the loaded session. *)
Definition enqueue (event_id : str) (delivery_kind : RoomInputDeliveryKind) (now : instant)
    (session : DurableAgentSession) : tx DurableAgentSession :=
  if queues_event session event_id then Ok session
  else if bool_decide (MAX_QUEUED_EVENT_IDS <=
            length (d_pending_inputs session) + length (d_inflight_inputs session))%nat
  then Err (queue_full delivery_kind)
  else Ok (session
    <| d_pending_inputs := d_pending_inputs session ++ [MkQueuedRoomInput event_id delivery_kind] |>
    <| d_public := (d_public session) <| s_updated_at := now |> |>).

(** room_turn_scheduler.rs: [remove_pending_input_reference] *)
Definition remove_pending (event_id : str) (session : DurableAgentSession) : DurableAgentSession :=
  session <| d_pending_inputs :=
    filter (fun input => qi_event_id input <> event_id) (d_pending_inputs session) |>.

Definition generation_exhausted : PersistenceError :=
  rejected_tx "stored_turn_execution_invalid" "Agent Session turn generation is exhausted.".

(** room_turn_scheduler.rs: what [prepare_assignment] does to the session, given the
    prefix of the queue it takes and the message that prefix ends with. *)
Definition begin_turn (turn_id : str) (inflight : list QueuedRoomInput) (source_event_id : str)
    (input_up_to_seq : Z) (now : instant) (session : DurableAgentSession) : tx DurableAgentSession :=
  reject_if (u64_max <? d_turn_generation session + 1)%N generation_exhausted ;;
  mret (session
    <| d_turn_generation := (d_turn_generation session + 1)%N |>
    <| d_schedule_requested := false |>
    <| d_public := (d_public session)
         <| s_runtime_status := RuntimeBusy |>
         <| s_turn_phase := PhaseThinking |>
         <| s_active_turn_id := turn_id |>
         <| s_updated_at := now |> |>
    <| d_inflight_inputs := inflight |>
    <| d_pending_inputs := drop (length inflight) (d_pending_inputs session) |>
    <| d_active_source_event_id := source_event_id |>
    <| d_input_up_to_event_id := source_event_id |>
    <| d_input_up_to_seq := input_up_to_seq |>).

(** room_turn_support.rs: [clear_active_turn_fields] *)
Definition clear_active_turn_fields (session : DurableAgentSession) : DurableAgentSession :=
  session <| d_active_source_event_id := [] |> <| d_input_up_to_event_id := [] |>
          <| d_input_up_to_seq := 0 |>.

Definition saturating_succ_u64 (n : N) : N := N.min (n + 1) u64_max.

(** room_turns.rs: [complete_session_state] *)
Definition complete_session_state (input_event_id : str) (input_seq : Z) (now : instant)
    (session : DurableAgentSession) : DurableAgentSession :=
  clear_active_turn_fields (session
    <| d_public := (d_public session)
         <| s_status := SessionAttached |>
         <| s_runtime_status := RuntimeIdle |>
         <| s_turn_phase := PhaseNone |>
         <| s_active_turn_id := [] |>
         <| s_last_seen_event_id := input_event_id |>
         <| s_last_seen_seq := input_seq |>
         <| s_last_provider_sync_event_id := input_event_id |>
         <| s_last_provider_sync_seq := input_seq |>
         <| s_turn_count := saturating_succ_u64 (s_turn_count (d_public session)) |>
         <| s_last_error := [] |>
         <| s_last_error_code := [] |>
         <| s_recovery_required := false |>
         <| s_updated_at := now |> |>
    <| d_inflight_inputs := [] |>).

(** room_turn_completion.rs: the end of [fail], given the restored queue. *)
Definition fail_session_state (restored : list QueuedRoomInput) (code message : str) (now : instant)
    (session : DurableAgentSession) : DurableAgentSession :=
  clear_active_turn_fields (session
    <| d_pending_inputs := restored |>
    <| d_inflight_inputs := [] |>
    <| d_public := (d_public session)
         <| s_status := SessionError |>
         <| s_runtime_status := RuntimeError |>
         <| s_turn_phase := PhaseNone |>
         <| s_active_turn_id := [] |>
         <| s_last_error := message |>
         <| s_last_error_code := code |>
         <| s_recovery_required := true |>
         <| s_updated_at := now |> |>).

(** room_turns.rs: [apply_provider_session_transition]; [trim] and [is_control]
    as in the standard library. *)
Definition apply_provider_session_transition (provider_session_id : option str)
    (session : DurableAgentSession) : tx DurableAgentSession :=
  match provider_session_id with
  | None => Ok session
  | Some next =>
      if str_empty next || bool_decide (200 < byte_len next)%nat || negb (str_eqb (trim next) next)
         || any is_control next || negb (str_eqb next (d_provider_session_id session))
      then Err (rejected_tx "provider_session_invalid" "The provider session transition is invalid.")
      else Ok (session <| d_provider_session_id := next |>
                 <| d_public := (d_public session) <| s_provider_session_active := true |> |>)
  end.

(** ** The queue *)

Definition input_ids (l : list QueuedRoomInput) : list str := map qi_event_id l.

Record queue_ok (l : list QueuedRoomInput) : Prop := MkQueueOk {
  qo_length : (length l <= MAX_QUEUED_EVENT_IDS)%nat;
  qo_nodup : NoDup (input_ids l);
  qo_named : Forall (fun i => qi_event_id i <> []) l
}.

Lemma str_empty_iff s : str_empty s = true <-> s = [].
Proof. destruct s; split; done. Qed.
Lemma str_empty_false s : str_empty s = false <-> s <> [].
Proof. destruct s; split; done. Qed.
Lemma list_empty_iff {A} (l : list A) : list_empty l = true <-> l = [].
Proof. destruct l; split; done. Qed.

Lemma merge_loop_Ok seen merged values r :
  (length merged <= MAX_QUEUED_EVENT_IDS)%nat ->
  merge_loop seen merged values = Ok r <->
  r = merged ++ values /\ (length merged + length values <= MAX_QUEUED_EVENT_IDS)%nat /\
  Forall (fun i => qi_event_id i <> [] /\ qi_event_id i ∉ seen) values /\ NoDup (input_ids values).
Proof.
  revert seen merged. induction values as [|v values IH]; intros seen merged Hm; simpl.
  - rewrite app_nil_r, Forall_nil. split; [intros [= <-]|intros (-> & _)]; [|done].
    split_and!; [done|lia|done|constructor].
  - rewrite Forall_cons. case_match eqn:E.
    + split; [done|]. intros (_ & Hl & ((Hv & Hs) & _) & _). exfalso.
      apply orb_true_iff in E as [E|E]; [apply orb_true_iff in E as [E|E]|].
      * apply bool_decide_eq_true in E. lia.
      * by apply str_empty_iff in E.
      * by apply contains_true in E.
    + bool_to_prop. rewrite IH by (rewrite length_app; simpl; lia). rewrite length_app, <- app_assoc. simpl.
      rewrite NoDup_cons, Forall_forall, Forall_forall.
      assert (qi_event_id v <> []) by (by apply str_empty_false).
      assert (qi_event_id v ∉ seen) by (intros Hin%contains_true; congruence).
      unfold input_ids. split; intros (-> & Hl & Hf & Hn).
      * split_and!; [done|lia|done|done| | |done].
        -- intros i Hi. destruct (Hf i Hi) as [? Hni]. split; [done|]. intros Hin. apply Hni, elem_of_cons. by right.
        -- intros Hin. apply list_elem_of_fmap in Hin as (i & Heq & Hi). destruct (Hf i Hi) as [_ Hni].
           apply Hni, elem_of_cons. by left.
      * destruct Hf as [_ Hf], Hn as [Hnv Hn]. split_and!; [done|lia| |done].
        intros i Hi. destruct (Hf i Hi) as [? Hni]. split; [done|]. intros [Heq|Hin]%elem_of_cons; [|done].
        apply Hnv. rewrite <- Heq. by apply list_elem_of_fmap_2.
Qed.

Lemma merge_room_inputs_Ok l r : merge_room_inputs l = Ok r <-> r = l /\ queue_ok l.
Proof.
  unfold merge_room_inputs. rewrite merge_loop_Ok by (simpl; lia). simpl. split.
  - intros (-> & Hl & Hf & Hn). split; [done|]. split; [done|done|]. eapply Forall_impl; [exact Hf|]. by intros i [].
  - intros [-> [Hl Hn Hf]]. split_and!; [done|done| |done]. eapply Forall_impl; [exact Hf|].
    intros i Hi. split; [done|]. apply not_elem_of_nil.
Qed.

Lemma canonical_iff l : room_input_queue_is_canonical l = true <-> queue_ok l.
Proof.
  unfold room_input_queue_is_canonical. destruct (merge_room_inputs l) as [r|e] eqn:E; simpl.
  - apply merge_room_inputs_Ok in E as [_ H]. done.
  - split; [done|]. intros H. assert (merge_room_inputs l = Ok l) as E' by (by apply merge_room_inputs_Ok).
    congruence.
Qed.

Lemma queue_ok_sublist l l' : sublist l l' -> queue_ok l' -> queue_ok l.
Proof.
  intros Hs [Hl Hn Hf]. split.
  - apply sublist_length in Hs. lia.
  - eapply sublist_NoDup; [exact Hn|]. by apply fmap_sublist.
  - rewrite Forall_forall in *. intros i Hi. apply Hf. by eapply elem_of_sublist.
Qed.

Lemma queue_ok_perm l l' : l ≡ₚ l' -> queue_ok l -> queue_ok l'.
Proof.
  intros Hp [Hl Hn Hf]. split.
  - by rewrite <- Hp.
  - unfold input_ids in *. by rewrite <- Hp.
  - by rewrite <- Hp.
Qed.

(** ** What the authority tuple means *)

Record turn_running (s : DurableAgentSession) : Prop := MkTurnRunning {
  tr_turn : s_active_turn_id (d_public s) <> [];
  tr_runtime : s_runtime_status (d_public s) = RuntimeBusy \/ s_runtime_status (d_public s) = RuntimeStopping;
  tr_phase : s_turn_phase (d_public s) <> PhaseNone;
  tr_source : exists i, last (d_inflight_inputs s) = Some i /\ qi_event_id i = d_active_source_event_id s;
  tr_cursor : d_active_source_event_id s = d_input_up_to_event_id s;
  tr_seq : 0 < d_input_up_to_seq s
}.
Record turn_clear (s : DurableAgentSession) : Prop := MkTurnClear {
  tc_turn : s_active_turn_id (d_public s) = [];
  tc_runtime : s_runtime_status (d_public s) <> RuntimeBusy;
  tc_phase : s_turn_phase (d_public s) = PhaseNone;
  tc_inflight : d_inflight_inputs s = [];
  tc_source : d_active_source_event_id s = [];
  tc_cursor : d_input_up_to_event_id s = [];
  tc_seq : d_input_up_to_seq s = 0
}.

Lemma phase_is_none_iff p : phase_is_none p = true <-> p = PhaseNone.
Proof. destruct p; split; done. Qed.

Lemma last_event_is_iff l e :
  last_event_is l e = true <-> exists i, last l = Some i /\ qi_event_id i = e.
Proof.
  unfold last_event_is. destruct (last l) as [i|]; [|split; [done|by intros (? & ? & _)]].
  rewrite str_eqb_true. split; [by exists i|]. by intros (? & [= ->] & <-).
Qed.

Lemma authority_true_iff s :
  active_turn_authority s = Ok true <->
  queue_ok (d_inflight_inputs s ++ d_pending_inputs s) /\ turn_running s.
Proof.
  unfold active_turn_authority. rewrite <- canonical_iff.
  destruct (room_input_queue_is_canonical _); simpl; [|split; [done|by intros []]].
  match goal with |- (if ?a then (if ?b then _ else _) else (if _ then _ else _)) = _ <-> _ =>
    set (active := a); set (clear := b) end.
  assert (active = true <-> turn_running s) as Ha.
  { unfold active. rewrite !andb_true_iff, !contains_true, last_event_is_iff, str_eqb_true, Z.ltb_lt,
      !negb_true_iff, str_empty_false. split.
    - intros ((((((Ht & Hr) & Hp) & _) & Hs) & Hc) & Hq). split; try done; [set_solver|].
      intros Hn. rewrite Hn in Hp. set_solver.
    - intros [Ht Hr Hp (i & Hi & Hs) Hc Hq]. split_and!; try done.
      + destruct Hr as [-> | ->]; set_solver.
      + destruct (s_turn_phase (d_public s)); [done|set_solver..].
      + by destruct (d_inflight_inputs s).
      + by exists i. }
  assert (active = true -> clear = false) as Hex.
  { unfold active, clear. destruct (str_empty (s_active_turn_id (d_public s))); done. }
  destruct active, clear; split; try done; try (intros; exfalso; specialize (Hex eq_refl); congruence);
    try (by intros _; split; [|apply Ha]); intros [_ Hr%Ha]; done.
Qed.

Lemma authority_false_iff s :
  active_turn_authority s = Ok false <-> queue_ok (d_pending_inputs s) /\ turn_clear s.
Proof.
  unfold active_turn_authority.
  match goal with |- (if _ then _ else if ?a then (if ?b then _ else _) else (if _ then _ else _)) = _ <-> _ =>
    set (active := a); set (clear := b) end.
  assert (clear = true <-> turn_clear s) as Hc.
  { unfold clear. rewrite !andb_true_iff, !str_empty_iff, phase_is_none_iff, list_empty_iff, Z.eqb_eq, negb_true_iff,
      bool_decide_eq_false. split; [|by intros []; split_and!].
    intros ((((((? & ?) & ?) & ?) & ?) & ?) & ?). by split. }
  assert (clear = true -> active = false) as Hex.
  { unfold active, clear. destruct (str_empty (s_active_turn_id (d_public s))); done. }
  split.
  - case_match eqn:E; [done|]. bool_to_prop. destruct active, clear; try done. intros _.
    destruct Hc as [Hc _]. specialize (Hc eq_refl). split; [|done].
    apply canonical_iff. by rewrite (tc_inflight _ Hc) in E.
  - intros [Hq Hclear]. rewrite (tc_inflight _ Hclear). simpl. apply canonical_iff in Hq. rewrite Hq. simpl.
    apply Hc in Hclear. rewrite Hclear, (Hex Hclear). done.
Qed.

(** ** The turn machine

    [enqueued], [acknowledged] and [dropped] record what happened to the events
    of the room: queued for the session, answered by a completed turn, or
    deleted before a turn took them. *)

Record turn_machine : Type := MkTurnMachine {
  tm_session : DurableAgentSession;
  tm_enqueued : list str;
  tm_acknowledged : list str;
  tm_dropped : list str
}.

(** The lifecycle request a session serves, and how far its effect is. *)
Record Intent : Type := MkIntent {
  in_action : AgentLifecycleAction;
  in_operation : str;
  in_status : AgentLifecycleIntentStatus
}.
Definition no_intent : Intent := MkIntent ActionNone [] IntentNone.
Definition intent_of (s : DurableAgentSession) : Intent :=
  MkIntent (d_lifecycle_intent_action s) (d_lifecycle_intent_id s) (d_lifecycle_intent_status s).

(** What other operations may do to a session: nothing to its queues and turn
    fields, and a running turn's runtime stays busy or stopping. *)
Definition lifecycle_change (s s' : DurableAgentSession) : Prop :=
  d_pending_inputs s' = d_pending_inputs s /\ d_inflight_inputs s' = d_inflight_inputs s /\
  d_active_source_event_id s' = d_active_source_event_id s /\
  d_input_up_to_event_id s' = d_input_up_to_event_id s /\ d_input_up_to_seq s' = d_input_up_to_seq s /\
  s_active_turn_id (d_public s') = s_active_turn_id (d_public s) /\
  s_turn_phase (d_public s') = s_turn_phase (d_public s) /\
  (s_active_turn_id (d_public s) = [] -> s_runtime_status (d_public s') <> RuntimeBusy) /\
  (s_active_turn_id (d_public s) <> [] ->
    s_runtime_status (d_public s') = RuntimeBusy \/ s_runtime_status (d_public s') = RuntimeStopping).

Inductive turn_step : turn_machine -> turn_machine -> Prop :=
| TurnEnqueue e kind now s s' enq ack del :
    e <> [] -> e ∉ enq -> enqueue e kind now s = Ok s' ->
    turn_step (MkTurnMachine s enq ack del) (MkTurnMachine s' (enq ++ [e]) ack del)
| TurnBegin turn_id n source seq now s s' enq ack del :
    session_is_assignable s = true -> turn_authority_is_active s = Ok false ->
    turn_id <> [] -> 0 < seq ->
    last_event_is (take n (d_pending_inputs s)) source = true ->
    begin_turn turn_id (take n (d_pending_inputs s)) source seq now s = Ok s' ->
    turn_step (MkTurnMachine s enq ack del) (MkTurnMachine s' enq ack del)
| TurnComplete turn_id now s enq ack del :
    require_active_turn s turn_id = Ok tt ->
    turn_step (MkTurnMachine s enq ack del)
      (MkTurnMachine (complete_session_state (d_input_up_to_event_id s) (d_input_up_to_seq s) now s)
         enq (ack ++ input_ids (d_inflight_inputs s)) del)
| TurnFail turn_id (deleted : list str) merged code message now s enq ack del :
    require_active_turn s turn_id = Ok tt ->
    merge_room_inputs (d_inflight_inputs s ++ d_pending_inputs s) = Ok merged ->
    turn_step (MkTurnMachine s enq ack del)
      (MkTurnMachine (fail_session_state (filter (fun i => qi_event_id i ∉ deleted) merged) code message now s)
         enq ack (del ++ filter (fun e => e ∈ deleted) (input_ids merged)))
| TurnRemove e s enq ack del :
    turn_step (MkTurnMachine s enq ack del)
      (MkTurnMachine (remove_pending e s) enq ack
         (del ++ filter (fun e' => e' = e) (input_ids (d_pending_inputs s))))
| TurnLifecycle s s' enq ack del :
    lifecycle_change s s' ->
    turn_step (MkTurnMachine s enq ack del) (MkTurnMachine s' enq ack del).

Definition turn_start (s : DurableAgentSession) : Prop := turn_clear s /\ d_pending_inputs s = [].

(** Everything queued is answered, taken, waiting or dropped, once and in order. *)
Record machine_ok (m : turn_machine) : Prop := MkMachineOk {
  mk_authority : is_ok (active_turn_authority (tm_session m)) = true;
  mk_ledger : tm_acknowledged m ++ input_ids (d_inflight_inputs (tm_session m))
      ++ input_ids (d_pending_inputs (tm_session m))
    = filter (fun e => e ∉ tm_dropped m) (tm_enqueued m);
  mk_enqueued : NoDup (tm_enqueued m);
  mk_dropped : tm_dropped m ⊆ tm_enqueued m
}.

Lemma authority_cases s :
  is_ok (active_turn_authority s) = true <->
  (queue_ok (d_inflight_inputs s ++ d_pending_inputs s) /\ turn_running s) \/
  (queue_ok (d_pending_inputs s) /\ turn_clear s).
Proof.
  rewrite <- authority_true_iff, <- authority_false_iff.
  destruct (active_turn_authority s) as [[]|]; simpl; split; try done; try tauto;
    intros [|]; congruence.
Qed.

Lemma authority_queue s :
  is_ok (active_turn_authority s) = true -> queue_ok (d_inflight_inputs s ++ d_pending_inputs s).
Proof.
  intros [[H _]|[H Hc]]%authority_cases; [done|]. by rewrite (tc_inflight _ Hc).
Qed.

Lemma require_active_turn_Ok s turn_id :
  require_active_turn s turn_id = Ok tt <->
  turn_id <> [] /\ s_active_turn_id (d_public s) = turn_id /\ active_turn_authority s = Ok true.
Proof.
  unfold require_active_turn, turn_authority_is_active. destruct (str_empty turn_id) eqn:E.
  { apply str_empty_iff in E. split; [done|by intros []]. }
  apply str_empty_false in E. destruct (str_eqb turn_id _) eqn:E2; simpl.
  - apply str_eqb_true in E2. destruct (active_turn_authority s) as [[]|]; simpl; split; naive_solver.
  - split; [done|]. intros (_ & H & _). apply bool_decide_eq_false in E2. congruence.
Qed.

(** *** Each transition keeps the authority tuple well formed *)

Lemma queues_event_false s e :
  queues_event s e = false <-> e ∉ input_ids (d_inflight_inputs s ++ d_pending_inputs s).
Proof.
  unfold queues_event, input_ids. rewrite any_false_Forall, Forall_forall. split.
  - intros H (i & -> & Hi)%list_elem_of_fmap. specialize (H i). rewrite elem_of_app in *.
    assert (str_eqb (qi_event_id i) (qi_event_id i) = true) by (by apply str_eqb_true).
    rewrite H in *; [done|tauto].
  - intros H i Hi. apply not_true_is_false. intros <-%str_eqb_true. apply H, list_elem_of_fmap_2.
    rewrite elem_of_app in *. tauto.
Qed.

Lemma enqueue_Ok e kind now s s' :
  enqueue e kind now s = Ok s' -> queues_event s e = false ->
  d_pending_inputs s' = d_pending_inputs s ++ [MkQueuedRoomInput e kind] /\
  d_inflight_inputs s' = d_inflight_inputs s /\
  (length (d_inflight_inputs s ++ d_pending_inputs s) < MAX_QUEUED_EVENT_IDS)%nat /\
  (turn_running s -> turn_running s') /\ (turn_clear s -> turn_clear s').
Proof.
  unfold enqueue. intros H Hq. rewrite Hq in H. case_bool_decide as Hl; [done|]. injection H as <-. simpl.
  rewrite length_app. split_and!; [done|done|lia| |]; intros []; by split.
Qed.

Lemma queue_ok_snoc l i :
  queue_ok l -> (length l < MAX_QUEUED_EVENT_IDS)%nat -> qi_event_id i <> [] -> qi_event_id i ∉ input_ids l ->
  queue_ok (l ++ [i]).
Proof.
  intros [Hl Hn Hf] Hlt Hi Hni. split.
  - rewrite length_app. simpl. lia.
  - unfold input_ids in *. rewrite map_app. apply NoDup_app. split_and!; [done| |apply NoDup_singleton].
    intros x Hx ->%list_elem_of_singleton. done.
  - apply Forall_app. split; [done|]. by constructor.
Qed.

Lemma complete_clear id seq now s : turn_clear (complete_session_state id seq now s).
Proof. by split. Qed.

Lemma fail_clear restored code message now s : turn_clear (fail_session_state restored code message now s).
Proof. by split. Qed.

Lemma begin_turn_Ok turn_id inflight source seq now s s' :
  begin_turn turn_id inflight source seq now s = Ok s' ->
  turn_id <> [] -> 0 < seq -> last_event_is inflight source = true ->
  d_inflight_inputs s' = inflight /\ d_pending_inputs s' = drop (length inflight) (d_pending_inputs s) /\
  turn_running s'.
Proof.
  unfold begin_turn. intros H Ht Hs Hl%last_event_is_iff. res_inv. simpl. split_and!; [done|done|].
  split; simpl; [done|by left|done|done|done|done].
Qed.

Lemma lifecycle_change_authority s s' :
  lifecycle_change s s' -> is_ok (active_turn_authority s) = true -> is_ok (active_turn_authority s') = true.
Proof.
  intros (Hp & Hi & Ha & Hu & Hq & Ht & Hph & Hc & Hr). rewrite !authority_cases, Hp, Hi.
  intros [[Hok [?????]]|[Hok [???????]]]; [left|right]; (split; [done|]); split; try congruence.
  - by apply Hr.
  - rewrite Hi, Ha. done.
  - by apply Hc.
Qed.

(** *** The ledger *)

Lemma filter_ids_not (l : list QueuedRoomInput) (deleted : list str) :
  input_ids (filter (fun i => qi_event_id i ∉ deleted) l) = filter (fun e => e ∉ deleted) (input_ids l).
Proof.
  unfold input_ids. induction l as [|i l IH]; [done|]. rewrite filter_cons. simpl. rewrite filter_cons.
  case_decide; simpl; by rewrite IH.
Qed.

(** Dropping more of the queued events keeps the acknowledged ones, as long as none is dropped. *)
Lemma ledger_drop (enq del del' ack rest : list str) :
  ack ++ rest = filter (fun e => e ∉ del) enq -> NoDup enq ->
  (forall e, e ∈ del' -> e ∈ rest) ->
  ack ++ filter (fun e => e ∉ del') rest = filter (fun e => e ∉ del ++ del') enq.
Proof.
  intros Heq Hn Hsub. transitivity (filter (fun e => e ∉ del') (filter (fun e => e ∉ del) enq)).
  - rewrite <- Heq, filter_app. f_equal. symmetry. apply filter_all, Forall_forall. intros e He Hd.
    assert (NoDup (ack ++ rest)) as Hnd.
    { rewrite Heq. by apply NoDup_filter. }
    apply NoDup_app in Hnd as (_ & Hdis & _). apply (Hdis e He), Hsub, Hd.
  - rewrite list_filter_filter. apply list_filter_iff. intros e. rewrite not_elem_of_app. tauto.
Qed.

Lemma ledger_filter_in (l deleted : list str) :
  filter (fun e => e ∉ filter (fun e => e ∈ deleted) l) l = filter (fun e => e ∉ deleted) l.
Proof.
  assert (forall l', l ⊆ l' -> filter (fun e => e ∉ filter (fun e => e ∈ deleted) l') l = filter (fun e => e ∉ deleted) l)
    as H; [|by apply H].
  intros l'. induction l as [|e l IH]; intros Hsub; [done|].
  assert (e ∈ l') by (apply Hsub; by apply elem_of_cons; left).
  rewrite !filter_cons, IH by (intros x Hx; apply Hsub, elem_of_cons; by right).
  destruct (decide (e ∈ deleted)) as [Hd|Hd].
  - rewrite !decide_False; [done|tauto|]. intros Hf. apply Hf, list_elem_of_filter. done.
  - rewrite !decide_True; [done|done|]. intros [? _]%list_elem_of_filter. done.
Qed.

Lemma machine_enqueue e kind now s s' enq ack del :
  e <> [] -> e ∉ enq -> enqueue e kind now s = Ok s' ->
  machine_ok (MkTurnMachine s enq ack del) -> machine_ok (MkTurnMachine s' (enq ++ [e]) ack del).
Proof.
  intros He Hne H [Ha Hl Hn Hd]. simpl in *.
  assert (e ∉ input_ids (d_inflight_inputs s ++ d_pending_inputs s)) as Hfree.
  { intros Hin. apply Hne. unfold input_ids in *. rewrite map_app in Hin.
    assert (e ∈ filter (fun e => e ∉ del) enq) as Hf by (rewrite <- Hl; apply elem_of_app; by right).
    by apply list_elem_of_filter in Hf as [_ Hf]. }
  pose proof (authority_queue s Ha) as Hq.
  destruct (enqueue_Ok e kind now s s' H) as (Hp & Hi & Hlen & Hrun & Hclear); [by apply queues_event_false|].
  split; simpl.
  - apply authority_cases. rewrite Hi, Hp. apply authority_cases in Ha as [[Hq' Hr]|[Hq' Hc]].
    + left. split; [|by apply Hrun]. rewrite app_assoc. by apply queue_ok_snoc.
    + right. rewrite (tc_inflight _ Hc) in *. split; [|by apply Hclear]. by apply queue_ok_snoc.
  - rewrite Hi, Hp. unfold input_ids in *. rewrite map_app, filter_app, !app_assoc, <- Hl, !app_assoc. f_equal. simpl.
    rewrite filter_cons_True, filter_nil; [done|]. intros Hin. apply Hne. by apply Hd.
  - apply NoDup_app. split_and!; [done| |apply NoDup_singleton]. intros x Hx ->%list_elem_of_singleton. done.
  - intros x Hx. apply elem_of_app. left. by apply Hd.
Qed.

Lemma machine_begin turn_id n source seq now s s' enq ack del :
  session_is_assignable s = true -> turn_authority_is_active s = Ok false -> turn_id <> [] -> 0 < seq ->
  last_event_is (take n (d_pending_inputs s)) source = true ->
  begin_turn turn_id (take n (d_pending_inputs s)) source seq now s = Ok s' ->
  machine_ok (MkTurnMachine s enq ack del) -> machine_ok (MkTurnMachine s' enq ack del).
Proof.
  intros _ Hf Ht Hs Hlast H [Ha Hl Hn Hd]. simpl in *.
  destruct (begin_turn_Ok _ _ _ _ _ _ _ H Ht Hs Hlast) as (Hi & Hp & Hr).
  assert (turn_clear s) as Hc.
  { unfold turn_authority_is_active in Hf. destruct (active_turn_authority s) as [[]|] eqn:E; try done.
    by apply authority_false_iff in E as [_ Hc]. }
  assert (d_inflight_inputs s' ++ d_pending_inputs s' = d_pending_inputs s) as Hcat.
  { rewrite Hi, Hp, length_take. destruct (decide (n <= length (d_pending_inputs s))%nat).
    - rewrite Nat.min_l by done. apply take_drop.
    - rewrite Nat.min_r, take_ge, drop_all by lia. apply app_nil_r. }
  apply authority_queue in Ha. rewrite (tc_inflight _ Hc) in Ha, Hl. split; simpl; try done.
  - apply authority_cases. left. by rewrite Hcat.
  - unfold input_ids in *. rewrite <- map_app, Hcat. done.
Qed.

Lemma machine_complete turn_id now s enq ack del :
  require_active_turn s turn_id = Ok tt -> machine_ok (MkTurnMachine s enq ack del) ->
  machine_ok (MkTurnMachine (complete_session_state (d_input_up_to_event_id s) (d_input_up_to_seq s) now s)
    enq (ack ++ input_ids (d_inflight_inputs s)) del).
Proof.
  intros _ [Ha Hl Hn Hd]. simpl in *. split; simpl; try done.
  - apply authority_cases. right. split; [|apply complete_clear].
    eapply queue_ok_sublist; [|by apply authority_queue]. simpl. by apply sublist_inserts_l.
  - by rewrite <- app_assoc.
Qed.

Lemma machine_drop s s' enq ack del (deleted : list str) :
  machine_ok (MkTurnMachine s enq ack del) ->
  is_ok (active_turn_authority s') = true ->
  input_ids (d_inflight_inputs s' ++ d_pending_inputs s') =
    filter (fun e => e ∉ deleted) (input_ids (d_inflight_inputs s ++ d_pending_inputs s)) ->
  deleted ⊆ input_ids (d_inflight_inputs s ++ d_pending_inputs s) ->
  machine_ok (MkTurnMachine s' enq ack (del ++ deleted)).
Proof.
  intros [Ha Hl Hn Hd] Ha' Hids Hsub. simpl in *. unfold input_ids in *. rewrite <- map_app in Hl.
  split; simpl; try done.
  - unfold input_ids. rewrite <- map_app, Hids. by apply ledger_drop.
  - intros x [Hx|Hx]%elem_of_app; [by apply Hd|]. apply Hsub in Hx.
    assert (x ∈ filter (fun e => e ∉ del) enq) as Hf by (rewrite <- Hl; apply elem_of_app; by right).
    by apply list_elem_of_filter in Hf as [_ Hf].
Qed.

Lemma machine_fail turn_id (deleted : list str) merged code message now s enq ack del :
  require_active_turn s turn_id = Ok tt ->
  merge_room_inputs (d_inflight_inputs s ++ d_pending_inputs s) = Ok merged ->
  machine_ok (MkTurnMachine s enq ack del) ->
  machine_ok (MkTurnMachine (fail_session_state (filter (fun i => qi_event_id i ∉ deleted) merged) code message now s)
    enq ack (del ++ filter (fun e => e ∈ deleted) (input_ids merged))).
Proof.
  intros _ [-> Hq]%merge_room_inputs_Ok Hok. eapply machine_drop; [exact Hok| | |].
  - apply authority_cases. right. split; [|apply fail_clear]. simpl.
    eapply queue_ok_sublist; [|exact Hq]. apply sublist_filter.
  - simpl. by rewrite filter_ids_not, ledger_filter_in.
  - intros x [_ Hx]%list_elem_of_filter. done.
Qed.

Lemma remove_pending_authority e s :
  is_ok (active_turn_authority s) = true -> is_ok (active_turn_authority (remove_pending e s)) = true.
Proof.
  rewrite !authority_cases. intros [[Hq Hr]|[Hq Hc]]; [left|right].
  - split; [|by destruct Hr; split]. simpl. eapply queue_ok_sublist; [|exact Hq].
    apply sublist_app; [done|apply sublist_filter].
  - split; [|by destruct Hc; split]. simpl. eapply queue_ok_sublist; [|exact Hq]. apply sublist_filter.
Qed.

Lemma machine_remove e s enq ack del :
  machine_ok (MkTurnMachine s enq ack del) ->
  machine_ok (MkTurnMachine (remove_pending e s) enq ack
    (del ++ filter (fun e' => e' = e) (input_ids (d_pending_inputs s)))).
Proof.
  intros Hok. pose proof (mk_authority _ Hok) as Ha. eapply machine_drop; [exact Hok| | |].
  - by apply remove_pending_authority.
  - simpl. pose proof (qo_nodup _ (authority_queue _ Ha)) as Hn. simpl in Hn. unfold input_ids in *.
    rewrite !map_app, filter_app in *. apply NoDup_app in Hn as (_ & Hdis & _). f_equal.
    + symmetry. apply filter_all, Forall_forall. intros x Hx [_ Hx']%list_elem_of_filter. by apply (Hdis x).
    + generalize (d_pending_inputs s) as l. intros l.
      assert (forall l', filter (fun x => x ∉ filter (fun e' => e' = e) (map qi_event_id l')) (map qi_event_id l)
        = map qi_event_id (filter (fun i => qi_event_id i <> e) l)
        \/ ~ l ⊆ l') as H.
      { intros l'. destruct (decide (l ⊆ l')) as [Hs|]; [left|by right]. induction l as [|i l IH]; [done|].
        simpl. rewrite !filter_cons, IH by (intros x Hx; apply Hs, elem_of_cons; by right).
        assert (qi_event_id i ∈ map qi_event_id l') by (apply list_elem_of_fmap_2, Hs, elem_of_cons; by left).
        destruct (decide (qi_event_id i = e)) as [He|He].
        - rewrite !decide_False; [done|tauto|]. intros Hf. by apply Hf, list_elem_of_filter.
        - rewrite !decide_True; [done|done|]. intros [? _]%list_elem_of_filter. done. }
      destruct (H l) as [->|Hn]; [done|]. by destruct Hn.
  - intros x [_ Hx]%list_elem_of_filter. simpl. unfold input_ids in *. rewrite map_app. apply elem_of_app. by right.
Qed.

Lemma machine_step m m' : turn_step m m' -> machine_ok m -> machine_ok m'.
Proof.
  destruct 1; eauto using machine_enqueue, machine_begin, machine_complete, machine_fail, machine_remove.
  intros [Ha Hl Hn Hd]. simpl in *. split; simpl; try done.
  - by eapply lifecycle_change_authority.
  - destruct H as (-> & -> & _). done.
Qed.

Lemma machine_start s : turn_start s -> machine_ok (MkTurnMachine s [] [] []).
Proof.
  intros [Hc Hp]. split; simpl; [|by rewrite (tc_inflight _ Hc), Hp|constructor|done].
  apply authority_cases. right. rewrite Hp. split; [|done]. split; [simpl; lia|constructor|constructor].
Qed.

Lemma machine_reachable s m :
  turn_start s -> rtc turn_step (MkTurnMachine s [] [] []) m -> machine_ok m.
Proof.
  intros Hs. assert (machine_ok (MkTurnMachine s [] [] [])) as H0 by (by apply machine_start).
  intros H. induction H as [|x y z Hxy _ IH]; [done|]. by apply IH, (machine_step x).
Qed.

(** ** Theorems *)

(** A queue is accepted exactly when it has at most 256 inputs, each names an event, and no event
    is named twice; it is then kept as it is. *)
Theorem merge_room_inputs_spec (l r : list QueuedRoomInput) :
  merge_room_inputs l = Ok r <->
  r = l /\ (length l <= Z.to_nat 256)%nat /\ NoDup (input_ids l) /\ Forall (fun i => qi_event_id i <> []) l.
Proof.
  rewrite merge_room_inputs_Ok. split.
  - intros [-> [Hl Hn Hf]]. by split_and!.
  - intros (-> & Hl & Hn & Hf). by split.
Qed.

(** Whatever turns begin, complete and fail, and whatever messages are queued and deleted, each
    message queued for a session is in exactly one place: answered by a completed turn, in the
    running turn, waiting, or deleted before a turn took it; the order is the order of queueing,
    nothing is answered twice, and the stored turn tuple never becomes inconsistent. *)

(** whatever turns begin, complete and fail and whatever messages are queued and
    deleted, each message queued for a session is in exactly one place (answered, in the
    running turn, waiting, or deleted before a turn took it), in the order of queueing,
    never answered twice, and the stored turn tuple never becomes inconsistent. *)
Theorem turn_exactly_once (s : DurableAgentSession) (m : turn_machine)
    (Hs : turn_start s) (H : rtc turn_step (MkTurnMachine s [] [] []) m) :
  tm_acknowledged m ++ input_ids (d_inflight_inputs (tm_session m)) ++ input_ids (d_pending_inputs (tm_session m))
    = filter (fun e => e ∉ tm_dropped m) (tm_enqueued m) /\
  NoDup (tm_enqueued m) /\
  exists running, active_turn_authority (tm_session m) = Ok running /\
    (running = true <-> d_inflight_inputs (tm_session m) <> []).
Proof.
  pose proof (machine_reachable s m Hs H) as [Ha Hl Hn _]. split_and!; [done|done|].
  destruct (active_turn_authority (tm_session m)) as [b|] eqn:E; [|done]. exists b. split; [done|].
  destruct b.
  - apply authority_true_iff in E as [_ [? ? ? (i & Hi & _) ? ?]]. split; [|done]. intros _ Hnil. by rewrite Hnil in Hi.
  - apply authority_false_iff in E as [_ Hc]. by rewrite (tc_inflight _ Hc).
Qed.

Definition demo_draft : AgentSessionDraft :=
  {| dr_agent_id := u "agent-1"; dr_display_name := u "Agent"; dr_provider_kind := u "test"; dr_runtime_kind := u "test";
     dr_connection_kind := u "test"; dr_executable := u "/x"; dr_executable_identity := u "x"; dr_workspace := u "/w";
     dr_workspace_identity := u "w"; dr_provider_endpoint := []; dr_model := u "m"; dr_reasoning_effort := [];
     dr_service_tier := []; dr_variant := []; dr_execution_harness := u "builtin";
     dr_permission_mode := u "meeting_read_only"; dr_max_output_tokens := 0; dr_catalog_revision := u "c";
     dr_persona_card_id := []; dr_runtime_profile_key := u "k"; dr_transport := u "t" |}.
(** A session whose runtime is attached and idle. *)
Definition idle_session (id : string) : DurableAgentSession :=
  let s := initial_session (demo_draft <| dr_agent_id := u id |>) (u "room") CustodyServer 0 in
  s <| d_public := (d_public s) <| s_status := SessionAttached |> <| s_runtime_status := RuntimeIdle |>
         <| s_enabled := true |> <| s_provider_session_active := true |> |>
    <| d_runtime_handle_id := u "h-" ++ u id |> <| d_runtime_owner_id := u "o" |> <| d_runtime_lease_token := u "l" |>.

Definition run_tx {A} (d : A) (r : tx A) : A := match r with Ok a => a | Err _ => d end.

Lemma run_tx_Ok {A} (d : A) (r : tx A) : is_ok r = true -> r = Ok (run_tx d r).
Proof. by destruct r. Qed.
Lemma run_tx_pair {A B} (d : A * B) (r : tx (A * B)) : is_ok r = true -> r = Ok ((run_tx d r).1, (run_tx d r).2).
Proof. by destruct r as [[]|]. Qed.

Definition demo_queued : DurableAgentSession :=
  let s := idle_session "agent-1" in
  run_tx s (enqueue (u "e2") OrderedObservation 2 (run_tx s (enqueue (u "e1") OrderedObservation 1 s))).
Definition demo_turn : DurableAgentSession :=
  run_tx demo_queued (begin_turn (u "turn-1") (take 1 (d_pending_inputs demo_queued)) (u "e1") 7 3 demo_queued).
Definition demo_done : DurableAgentSession :=
  complete_session_state (d_input_up_to_event_id demo_turn) (d_input_up_to_seq demo_turn) 4 demo_turn.

Lemma turn_exactly_once_witness :
  let m := MkTurnMachine demo_done [u "e1"; u "e2"] [u "e1"] [] in
  tm_acknowledged m ++ input_ids (d_inflight_inputs (tm_session m)) ++ input_ids (d_pending_inputs (tm_session m))
    = filter (fun e => e ∉ tm_dropped m) (tm_enqueued m) /\
  NoDup (tm_enqueued m) /\
  exists running, active_turn_authority (tm_session m) = Ok running /\
    (running = true <-> d_inflight_inputs (tm_session m) <> []).
Proof.
  apply (turn_exactly_once (idle_session "agent-1")).
  - split; [by split|done].
  - eapply rtc_l; [apply (TurnEnqueue (u "e1") OrderedObservation 1 _ (run_tx demo_done (enqueue (u "e1") OrderedObservation 1 (idle_session "agent-1"))));
      [done|by apply not_elem_of_nil|vm_compute; reflexivity]|].
    eapply rtc_l; [apply (TurnEnqueue (u "e2") OrderedObservation 2 _ demo_queued); [done|decide_now|vm_compute; reflexivity]|].
    eapply rtc_l; [apply (TurnBegin (u "turn-1") 1 (u "e1") 7 3 _ demo_turn); 
      [vm_compute; reflexivity|vm_compute; reflexivity|done|lia|vm_compute; reflexivity|vm_compute; reflexivity]|].
    eapply rtc_l; [|apply rtc_refl]. apply (TurnComplete (u "turn-1") 4 demo_turn [u "e1"; u "e2"] [] []).
    vm_compute. reflexivity.
Defined.

(** Once a turn has completed or failed, no completion is accepted for the session: a late or
    repeated answer of the provider is refused as stale. *)
Theorem finished_turn_is_stale (s : DurableAgentSession) (late : str) (now : instant)
    (id : str) (seq : Z) (restored : list QueuedRoomInput) (code message : str) :
  require_active_turn (complete_session_state id seq now s) late = Err stale_provider_turn /\
  require_active_turn (fail_session_state restored code message now s) late = Err stale_provider_turn.
Proof.
  assert (forall s', turn_clear s' -> require_active_turn s' late = Err stale_provider_turn) as H.
  { intros s' [Ht _ _ _ _ _ _]. unfold require_active_turn. rewrite Ht. destruct late; done. }
  split; apply H; [apply complete_clear|apply fail_clear].
Qed.
