(* ===== verification/Routing.v ===== *)
(** * Who a message addresses (agentsassemble-persistence/src/room_turn_routing.rs)

    The aliases of the agents of a room, the mentions of them in a message, and
    the sample of candidates an unaddressed message is offered to. *)

From Stdlib Require Import String.
From stdpp Require Import gmap.
From S2P Require Import Prelude Text Json Model.

(** [str::to_lowercase] and [char::is_alphanumeric], whose tables are the
    standard library's. *)
Class UnicodeCase : Type := { to_lowercase : str -> str; is_alphanumeric : char -> bool }.

Definition ascii_unicode_case : UnicodeCase := {|
  to_lowercase := map (fun c => if ((65 <=? c) && (c <=? 90))%N then (c + 32)%N else c);
  is_alphanumeric := fun c => ((48 <=? c) && (c <=? 57) || (65 <=? c) && (c <=? 90) || (97 <=? c) && (c <=? 122))%N
|}.

(** [str::match_indices] of a needle that is not empty: the positions, counted
    in characters, of its matches from left to right, none overlapping the one
    before. *)
Fixpoint match_from (needle s : str) (i skip : nat) : list nat :=
  match s with
  | [] => []
  | _ :: s' =>
      match skip with
      | S skip => match_from needle s' (S i) skip
      | O => if starts_with s needle
             then i :: match_from needle s' (S i) (length needle - 1)
             else match_from needle s' (S i) 0
      end
  end.
Definition match_indices (needle s : str) : list nat := match_from needle s 0 0.

(** [str::split] by a predicate on characters. *)
Fixpoint split_chars (p : char -> bool) (s : str) : list str :=
  match s with
  | [] => [[]]
  | c :: s' =>
      if p c then [] :: split_chars p s'
      else match split_chars p s' with w :: ws => (c :: w) :: ws | [] => [[c]] end
  end.

(** [Iterator::max] of positions. *)
Definition max_position (l : list nat) : option nat :=
  foldr (fun i acc => match acc with Some j => Some (Nat.max i j) | None => Some i end) None l.
Definition max_option (a b : option nat) : option nat :=
  match a, b with
  | Some i, Some j => Some (Nat.max i j)
  | Some i, None => Some i
  | None, b => b
  end.

Section routing.
Context `{UnicodeCase}.

Definition mention_word (c : char) : bool := is_alphanumeric c || contains (u "_-") c.

Definition mention_boundaries (content : str) (index length_ : nat) : bool :=
  let before := match index with O => None | S i => content !! i end in
  let after := content !! (index + length_)%nat in
  negb (match before with Some c => mention_word c | None => false end)
  && negb (match after with Some c => mention_word c | None => false end).

Definition bracketed_alias_matches (content : str) (index : nat) (alias : str) : bool :=
  let rest := trim_start is_whitespace (drop (index + 2) content) in
  match strip_prefix rest alias with
  | None => false
  | Some rest => starts_with (trim_start is_whitespace rest) (u ">")
  end.

Definition last_mention_position (content alias : str) : option nat :=
  let needle := u "@" ++ alias in
  let plain := max_position
    (filter (fun i => mention_boundaries content i (length needle) = true) (match_indices needle content)) in
  let bracketed := max_position
    (filter (fun i => bracketed_alias_matches content i alias = true) (match_indices (u "<@") content)) in
  max_option plain bracketed.

(** The separators of a display name: white space, a slash, a bar, a middle dot,
    two dashes, a colon and parentheses. *)
Definition is_alias_separator (c : char) : bool :=
  is_whitespace c || contains (u "/|:()" ++ [183; 8212; 8211]%N) c.

Definition valid_alias (alias : str) : bool :=
  negb (bool_decide (alias = []))
  && negb (any (fun c => contains (u "@<>" ++ [CR; LF]) c) alias)
  && (any is_whitespace alias
      || all (fun c => is_alphanumeric c || contains (u "_.-") c) alias).

(** The texts a session may be addressed by, before validation. *)
Definition alias_candidates (session : DurableAgentSession) : list str :=
  let public := d_public session in
  s_session_id public :: s_display_name public :: split_chars is_alias_separator (s_display_name public).

Definition alias_of (candidate : str) : option str :=
  let alias := to_lowercase (trim_matches (fun c => contains (u " @,;!?[]{}") c) candidate) in
  if negb (valid_alias alias) || bool_decide (alias = u "all") then None else Some alias.

(** [entry(alias).and_modify(..).or_insert_with(..)]: an alias two sessions
    share belongs to neither. *)
Definition claim_alias (session_id alias : str) (aliases : gmap str (option str)) : gmap str (option str) :=
  match aliases !! alias with
  | Some owner =>
      <[alias := if bool_decide (owner = Some session_id) then owner else None]> aliases
  | None => <[alias := Some session_id]> aliases
  end.

Definition session_aliases (session : DurableAgentSession) : list str := omap alias_of (alias_candidates session).

Definition unique_aliases (sessions : list DurableAgentSession) : gmap str (option str) :=
  fold_left (fun aliases session =>
    fold_left (fun aliases alias => claim_alias (s_session_id (d_public session)) alias aliases)
      (session_aliases session) aliases)
    sessions ∅.

(** [Ord::max] of (position, owner) pairs. *)
Definition mention_le (a b : nat * str) : bool :=
  bool_decide (a.1 < b.1)%nat || (bool_decide (a.1 = b.1) && str_leb a.2 b.2).
Definition max_mention (l : list (nat * str)) : option (nat * str) :=
  foldr (fun m acc => match acc with
                      | Some n => Some (if mention_le m n then n else m)
                      | None => Some m
                      end) None l.

(** The mentions of the unique aliases, each at its last position. *)
Definition alias_mentions (content : str) (aliases : gmap str (option str)) : list (nat * str) :=
  omap (fun e : str * option str =>
    owner ← e.2; position ← last_mention_position content e.1; Some (position, owner))
    (map_to_list aliases).

Definition last_direct_target (content : str) (sessions : list DurableAgentSession) : option str :=
  snd <$> max_mention (alias_mentions (to_lowercase content) (unique_aliases sessions)).

(** ** Sampling

    [seed] is the number of the fresh UUID. *)
Definition sampled_candidate_indexes (length_ : nat) (seed : N) : list nat :=
  if (length_ <=? 2)%nat then seq 0 length_
  else
    let divisor := N.of_nat length_ in
    let first := N.to_nat (seed mod divisor) in
    let second := N.to_nat ((seed / divisor) mod N.of_nat (length_ - 1)) in
    [first; if (first <=? second)%nat then S second else second].
End routing.

(** ** Aliases *)

Section alias_proofs.
Context `{UnicodeCase}.

(** What an alias map says about the sessions that claimed so far. *)
Definition aliases_ok (claims : list (str * str)) (aliases : gmap str (option str)) : Prop :=
  forall alias,
    (aliases !! alias = None <-> forall id, (id, alias) ∉ claims) /\
    (forall owner, aliases !! alias = Some (Some owner) <->
       (owner, alias) ∈ claims /\ forall id, (id, alias) ∈ claims -> id = owner).

Lemma claim_alias_ok claims aliases id alias :
  aliases_ok claims aliases -> aliases_ok (claims ++ [(id, alias)]) (claim_alias id alias aliases).
Proof.
  intros Hok a. destruct (Hok a) as [Hnone Hsome]. unfold claim_alias.
  destruct (decide (a = alias)) as [->|Ha].
  - assert (forall i, (i, alias) ∈ claims ++ [(id, alias)] <-> (i, alias) ∈ claims \/ i = id) as Hin.
    { intros i. rewrite elem_of_app, list_elem_of_singleton. split; intros [|]; [tauto| |tauto|]; right; congruence. }
    destruct (aliases !! alias) as [owner|] eqn:E; rewrite lookup_insert_eq.
    + split.
      * split; [done|]. intros Hno. exfalso. apply (Hno id), Hin. by right.
      * intros o. setoid_rewrite Hin. case_bool_decide as Ho; subst.
        -- destruct (Hsome id) as [Hs _]. destruct (Hs eq_refl) as [Hi Hu]. split.
           ++ intros [= <-]. split; [by right|]. intros i [Hc| ->]; [by apply Hu|done].
           ++ intros [_ Hu']. by rewrite (Hu' id (or_intror eq_refl)).
        -- split; [done|]. intros [[Hc|<-] Hu'].
           ++ assert (id = o) as -> by (apply Hu'; by right). destruct Ho.
              assert (Some owner = Some (Some o)) as [= ->]; [|done]. apply Hsome. split; [done|].
              intros i Hi. apply Hu'. by left.
           ++ destruct owner as [o'|].
              ** destruct (Hsome o') as [Hs _]. destruct (Hs eq_refl) as [Hi _]. destruct Ho. f_equal.
                 apply Hu'. by left.
              ** exfalso. destruct Hnone as [_ Hn]. assert (exists i, (i, alias) ∈ claims) as [i Hi].
                 { destruct (decide (Exists (fun c => c.2 = alias) claims)) as [Hex|Hex].
                   - apply Exists_exists in Hex as ([i a'] & Hi & Ha'). simpl in Ha'. subst a'. by exists i.
                   - assert (@None (option str) = None); [done|]. discriminate (Hn (fun i Hi => Hex (proj2
                       (Exists_exists _ _) (ex_intro _ (i, alias) (conj Hi eq_refl))))). }
                 assert (i = o) as -> by (apply Hu'; by left).
                 discriminate (proj2 (Hsome o) (conj Hi (fun j Hj => Hu' j (or_introl Hj)))).
    + destruct Hnone as [Hnone _]. specialize (Hnone eq_refl). split.
      * split; [done|]. intros Hno. exfalso. apply (Hno id), Hin. by right.
      * intros o. setoid_rewrite Hin. split.
        -- intros [= <-]. split; [by right|]. intros i [Hi| ->]; [by destruct (Hnone i)|done].
        -- intros [_ Hu]. by rewrite (Hu id (or_intror eq_refl)).
  - assert (forall i, (i, a) ∈ claims ++ [(id, alias)] <-> (i, a) ∈ claims) as Hin.
    { intros i. rewrite elem_of_app, list_elem_of_singleton. split; [intros [|]|tauto]; congruence. }
    setoid_rewrite Hin. destruct (aliases !! alias); by rewrite lookup_insert_ne.
Qed.

Definition claims_of (session : DurableAgentSession) : list (str * str) :=
  map (fun alias => (s_session_id (d_public session), alias)) (session_aliases session).

Lemma unique_aliases_ok sessions : aliases_ok (sessions ≫= claims_of) (unique_aliases sessions).
Proof.
  unfold unique_aliases.
  enough (forall claims aliases, aliases_ok claims aliases ->
    aliases_ok (claims ++ (sessions ≫= claims_of))
      (fold_left (fun aliases session =>
        fold_left (fun aliases alias => claim_alias (s_session_id (d_public session)) alias aliases)
          (session_aliases session) aliases) sessions aliases)) as Hall.
  { apply (Hall [] ∅). intros a. split.
    - rewrite lookup_empty. split; [intros _ id; apply not_elem_of_nil|done].
    - intros o. rewrite lookup_empty. split; [done|]. intros [Ho%not_elem_of_nil _]. done. }
  induction sessions as [|s sessions IH]; intros claims aliases Hok; simpl; [by rewrite app_nil_r|].
  rewrite app_assoc. apply IH. unfold claims_of. revert claims aliases Hok.
  induction (session_aliases s) as [|alias l IHl]; intros claims aliases Hok; simpl; [by rewrite app_nil_r|].
  assert (claims ++ (s_session_id (d_public s), alias) :: map (fun alias => (s_session_id (d_public s), alias)) l
    = (claims ++ [(s_session_id (d_public s), alias)]) ++ map (fun alias => (s_session_id (d_public s), alias)) l)
    as -> by (by rewrite <- app_assoc).
  by apply IHl, claim_alias_ok.
Qed.
End alias_proofs.

(** ** The latest mention *)

Lemma mention_le_iff a b :
  mention_le a b = true <-> (a.1 < b.1)%nat \/ (a.1 = b.1 /\ str_leb a.2 b.2 = true).
Proof. unfold mention_le. by rewrite orb_true_iff, andb_true_iff, !bool_decide_eq_true. Qed.

Lemma mention_le_refl a : mention_le a a = true.
Proof. apply mention_le_iff. right. split; [done|apply str_leb_refl]. Qed.

Lemma mention_le_total a b : mention_le a b = true \/ mention_le b a = true.
Proof.
  rewrite !mention_le_iff. destruct (lt_eq_lt_dec a.1 b.1) as [[?|?]|?]; [left; by left| |right; by left].
  destruct (str_leb_total a.2 b.2); [left|right]; by right.
Qed.

Lemma mention_le_trans a b c : mention_le a b = true -> mention_le b c = true -> mention_le a c = true.
Proof.
  rewrite !mention_le_iff. intros [|[]] [|[]]; [left; lia..|]. right. split; [lia|]. by eapply str_leb_trans.
Qed.

Lemma mention_le_antisym a b : mention_le a b = true -> mention_le b a = true -> a = b.
Proof.
  rewrite !mention_le_iff. destruct a as [i o], b as [j p]. simpl.
  intros [|[-> ?]] [|[? ?]]; [lia..|]. f_equal. by apply str_leb_antisym.
Qed.

Lemma max_mention_Some l m :
  max_mention l = Some m <-> m ∈ l /\ forall m', m' ∈ l -> mention_le m' m = true.
Proof.
  assert (forall m, max_mention l = Some m -> m ∈ l /\ forall m', m' ∈ l -> mention_le m' m = true) as Hsound.
  { induction l as [|a l IH]; intros b; [done|]. simpl. fold (max_mention l).
    destruct (max_mention l) as [n|] eqn:E.
    - destruct (IH n eq_refl) as [Hn Hmax]. intros [= <-]. destruct (mention_le a n) eqn:Ean.
      + split; [apply elem_of_cons; by right|]. intros m' [->|Hm]%elem_of_cons; [done|by apply Hmax].
      + assert (mention_le n a = true) by (destruct (mention_le_total a n); congruence).
        split; [apply elem_of_cons; by left|]. intros m' [->|Hm]%elem_of_cons; [apply mention_le_refl|].
        eapply mention_le_trans; [by apply Hmax|done].
    - intros [= <-]. destruct l as [|x l]; [|simpl in E; fold (max_mention l) in E; by destruct (max_mention l)].
      split; [apply elem_of_cons; by left|]. intros m' ->%list_elem_of_singleton. apply mention_le_refl. }
  split; [apply Hsound|]. intros [Hin Hmax]. destruct (max_mention l) as [n|] eqn:E.
  - destruct (Hsound n eq_refl) as [Hn Hmax']. f_equal. apply mention_le_antisym; [by apply Hmax|by apply Hmax'].
  - destruct l; [by apply not_elem_of_nil in Hin|]. simpl in E. fold (max_mention l) in E. by destruct (max_mention l).
Qed.

Lemma alias_mentions_elem `{UnicodeCase} content aliases pos owner :
  (pos, owner) ∈ alias_mentions content aliases <->
  exists alias, aliases !! alias = Some (Some owner) /\ last_mention_position content alias = Some pos.
Proof.
  unfold alias_mentions. rewrite list_elem_of_omap. split.
  - intros ([alias o] & Hin%elem_of_map_to_list & Hs). simpl in Hs. destruct o as [o|]; [|done]. simpl in Hs.
    destruct (last_mention_position content alias) as [p|] eqn:E; [|done]. simpl in Hs. injection Hs as <- <-.
    by exists alias.
  - intros (alias & Ha & Hp). exists (alias, Some owner). split; [by apply elem_of_map_to_list|].
    simpl. by rewrite Hp.
Qed.

(** ** Theorems *)

(** An alias belongs to an agent exactly when that agent goes by it and no other agent of the room
    does: a name two agents share addresses neither. *)

(** an alias belongs to an agent exactly when that agent goes by it and no other agent
    of the room does: a name two agents share addresses neither. *)
Theorem unique_alias_spec `{UnicodeCase} (sessions : list DurableAgentSession) (alias owner : str) :
  unique_aliases sessions !! alias = Some (Some owner) <->
  (exists s, s ∈ sessions /\ s_session_id (d_public s) = owner /\ alias ∈ session_aliases s) /\
  forall s, s ∈ sessions -> alias ∈ session_aliases s -> s_session_id (d_public s) = owner.
Proof.
  assert (forall id, (id, alias) ∈ sessions ≫= claims_of <->
    exists s, s ∈ sessions /\ s_session_id (d_public s) = id /\ alias ∈ session_aliases s) as Hc.
  { intros id. rewrite list_elem_of_bind. unfold claims_of. split.
    - intros (s & Hin & Hs). apply list_elem_of_fmap in Hin as (a & [= -> ->] & Ha). by exists s.
    - intros (s & Hs & <- & Ha). exists s. split; [|done].
      by apply (list_elem_of_fmap_2 (fun alias => (s_session_id (d_public s), alias))). }
  destruct (unique_aliases_ok sessions alias) as [_ Hsome]. rewrite Hsome, Hc. split.
  - intros [Hex Hu]. split; [done|]. intros s Hs Ha. apply Hu, Hc. by exists s.
  - intros [Hex Hu]. split; [done|]. intros id (s & Hs & <- & Ha)%Hc. by apply Hu.
Qed.

(** The floor goes to the owner of the last mention: the unique alias whose last mention in the
    message comes last (the greater identifier, should two begin at the same place). *)

(** the floor goes to the owner of the last mention: the unique alias whose last
    mention in the message comes last (the greater identifier, should two begin at the same
    place). *)
Theorem last_direct_target_spec `{UnicodeCase} (content : str) (sessions : list DurableAgentSession) (owner : str) :
  let mentioned alias o pos := unique_aliases sessions !! alias = Some (Some o) /\
    last_mention_position (to_lowercase content) alias = Some pos in
  last_direct_target content sessions = Some owner <->
  exists alias pos, mentioned alias owner pos /\
    forall alias' owner' pos', mentioned alias' owner' pos' -> mention_le (pos', owner') (pos, owner) = true.
Proof.
  intros mentioned. unfold last_direct_target. split.
  - destruct (max_mention _) as [[pos o]|] eqn:E; [|done]. intros [= ->].
    apply max_mention_Some in E as [(alias & Ha)%alias_mentions_elem Hmax]. exists alias, pos.
    split; [done|]. intros a' o' p' Hm. apply Hmax, alias_mentions_elem. by exists a'.
  - intros (alias & pos & Hm & Hmax).
    assert (max_mention (alias_mentions (to_lowercase content) (unique_aliases sessions)) = Some (pos, owner)) as ->;
      [|done].
    apply max_mention_Some. split; [apply alias_mentions_elem; by exists alias|].
    intros [p' o'] (a' & Ha')%alias_mentions_elem. by eapply Hmax.
Qed.

(** The sample offered a message that addresses nobody: all candidates when there are at most two,
    otherwise two different ones, whatever the random number. *)
Theorem sampled_indexes_spec (length_ : nat) (seed : N) :
  NoDup (sampled_candidate_indexes length_ seed) /\
  Forall (fun i => i < length_)%nat (sampled_candidate_indexes length_ seed) /\
  length (sampled_candidate_indexes length_ seed) = Nat.min length_ 2.
Proof.
  unfold sampled_candidate_indexes. destruct (Nat.leb_spec length_ 2) as [Hl|Hl].
  - split_and!; [apply NoDup_seq| |rewrite length_seq; lia].
    apply Forall_forall. intros i Hi%elem_of_seq. lia.
  - pose proof (N.mod_lt seed (N.of_nat length_) ltac:(lia)) as H1.
    pose proof (N.mod_lt (seed / N.of_nat length_) (N.of_nat (length_ - 1)) ltac:(lia)) as H2.
    set (first := N.to_nat (seed mod N.of_nat length_)) in *.
    set (second := N.to_nat ((seed / N.of_nat length_) mod N.of_nat (length_ - 1))) in *.
    split_and!; [| |simpl; lia].
    + apply NoDup_cons. split; [|apply NoDup_singleton]. intros Hin%list_elem_of_singleton.
      destruct (Nat.leb_spec first second); lia.
    + repeat constructor; destruct (Nat.leb_spec first second); lia.
Qed.

(** The mention that comes last wins, in either form; a name of two agents addresses neither. *)
Definition named_session (id name : string) : DurableAgentSession :=
  let s := initial_session {|
    dr_agent_id := u id; dr_display_name := u name; dr_provider_kind := []; dr_runtime_kind := [];
    dr_connection_kind := []; dr_executable := []; dr_executable_identity := []; dr_workspace := [];
    dr_workspace_identity := []; dr_provider_endpoint := []; dr_model := []; dr_reasoning_effort := [];
    dr_service_tier := []; dr_variant := []; dr_execution_harness := []; dr_permission_mode := [];
    dr_max_output_tokens := 0; dr_catalog_revision := []; dr_persona_card_id := [];
    dr_runtime_profile_key := []; dr_transport := [] |} (u "general") CustodyServer 0 in s.

Example final_alias_owns_the_floor :
  @last_direct_target ascii_unicode_case (u "@Terra recap that, then <@ antigravity-1 > answer")
    [named_session "codex-1" "Codex Terra"; named_session "antigravity-1" "Antigravity Flash"]
  = Some (u "antigravity-1").
Proof. vm_compute. reflexivity. Qed.

Example shared_alias_does_not_route :
  @last_direct_target ascii_unicode_case (u "@Terra answer")
    [named_session "codex-1" "Codex Terra"; named_session "codex-2" "Other Terra"] = None.
Proof. vm_compute. reflexivity. Qed.
