(* ===== verification/ProviderRequest.v ===== *)
(** * Requests of a provider to the owner of its agent
    (agentsassemble-domain/src/provider_request.rs)

    A provider may ask the human owner of its agent for a permission, for
    answers or for an action outside. Which requests are valid, which answers
    fit them, and what of an answer is kept: the answers to secret questions
    never are. *)

From Stdlib Require Import String.
From stdpp Require Import gmap sorting.
From S2P Require Import Prelude Text Json.

(** The url crate: the parts of a parsed URL the code looks at. *)
Record Url : Type := MkUrl {
  url_scheme : str;
  url_host_str : option str;
  url_username : str;
  url_password : option str
}.
Class UrlCrate : Type := parse_url : str -> option Url.

(** [Uuid::is_nil]; a [Uuid] is its hyphenated text. *)
Definition nil_uuid : str := u "00000000-0000-0000-0000-000000000000".

Inductive ProviderRequestKind : Type := KindPermission | KindUserInput | KindExternalAction.
#[global] Instance ProviderRequestKind_eq_dec : EqDecision ProviderRequestKind.
Proof. solve_decision. Defined.

Record ProviderRequestOption : Type := MkRequestOption {
  ro_id : str;
  ro_label : str;
  ro_kind : str;
  ro_description : str
}.
#[global] Instance ProviderRequestOption_eq_dec : EqDecision ProviderRequestOption.
Proof. solve_decision. Defined.

Record ProviderRequestQuestion : Type := MkRequestQuestion {
  rqn_id : str;
  rqn_header : str;
  rqn_question : str;
  rqn_options : list ProviderRequestOption;
  rqn_multiple : bool;
  rqn_is_other : bool;
  rqn_is_secret : bool
}.
#[global] Instance ProviderRequestQuestion_eq_dec : EqDecision ProviderRequestQuestion.
Proof. solve_decision. Defined.

Inductive ProviderRequestPrompt : Type :=
| PromptOption (options : list ProviderRequestOption)
| PromptAnswers (questions : list ProviderRequestQuestion)
| PromptAcknowledge (action_url : option str).
#[global] Instance ProviderRequestPrompt_eq_dec : EqDecision ProviderRequestPrompt.
Proof. solve_decision. Defined.

Record ProviderRequest : Type := MkProviderRequest {
  rq_provider_request_id : str;
  rq_request_kind : ProviderRequestKind;
  rq_title : str;
  rq_description : str;
  rq_timeout_seconds : N;
  rq_prompt : ProviderRequestPrompt
}.
#[global] Instance ProviderRequest_eq_dec : EqDecision ProviderRequest.
Proof. solve_decision. Defined.

Inductive ProviderRequestResolution : Type :=
| ResolveOption (option_id : str)
| ResolveAnswers (answers : gmap str (list str))
| ResolveAcknowledge.

Inductive DurableProviderResolution : Type :=
| DurableOption (option_id : str)
| DurableAnswers (answers : gmap str (list str)) (secret_answered_question_ids : list str)
| DurableAcknowledge.

(** ** Validity *)

Definition text (value : str) (limit : nat) : bool :=
  bool_decide (length value <= limit)%nat && negb (any is_control value).
Definition required_text (value : str) (limit : nat) : bool :=
  negb (bool_decide (trim value = [])) && text value limit.

(** [values.all(|value| seen.insert(value))] *)
Fixpoint unique_from (seen values : list str) : bool :=
  match values with
  | [] => true
  | value :: values => negb (contains seen value) && unique_from (value :: seen) values
  end.
Definition unique (values : list str) : bool := unique_from [] values.

Definition valid_options (options : list ProviderRequestOption) : bool :=
  bool_decide (length options <= 12)%nat
  && unique (map ro_id options)
  && all (fun o => required_text (ro_id o) 128 && required_text (ro_label o) 240
                   && text (ro_kind o) 64 && text (ro_description o) 400) options.

Definition valid_question (q : ProviderRequestQuestion) : bool :=
  required_text (rqn_id q) 128 && text (rqn_header q) 120 && required_text (rqn_question q) 800
  && valid_options (rqn_options q) && unique (map ro_label (rqn_options q)).

Definition bool_in_range (lo n hi : nat) : bool := bool_decide (lo <= n)%nat && bool_decide (n <= hi)%nat.

Section request.
Context `{UrlCrate}.

Definition valid_action_url (action_url : str) : bool :=
  required_text action_url 2000
  && match parse_url action_url with
     | Some url =>
         str_eqb (url_scheme url) (u "https")
         && match url_host_str url with Some _ => true | None => false end
         && bool_decide (url_username url = [])
         && match url_password url with None => true | Some _ => false end
     | None => false
     end.

Definition prompt_is_valid (kind : ProviderRequestKind) (prompt : ProviderRequestPrompt) : bool :=
  match kind, prompt with
  | KindPermission, PromptOption options => negb (bool_decide (options = [])) && valid_options options
  | KindUserInput, PromptAnswers questions =>
      bool_in_range 1 (length questions) 3 && unique (map rqn_id questions) && all valid_question questions
  | KindExternalAction, PromptAcknowledge action_url =>
      match action_url with None => true | Some action_url => valid_action_url action_url end
  | _, _ => false
  end.

Definition request_is_valid (r : ProviderRequest) : bool :=
  negb (str_eqb (rq_provider_request_id r) nil_uuid)
  && required_text (rq_title r) 160
  && text (rq_description r) 1200
  && ((15 <=? rq_timeout_seconds r) && (rq_timeout_seconds r <=? 900))%N
  && prompt_is_valid (rq_request_kind r) (rq_prompt r).

(** ** What is kept of an answer *)

Definition answer_value_fits (q : ProviderRequestQuestion) (value : str) : bool :=
  required_text value 1000
  && (rqn_is_other q || bool_decide (rqn_options q = []) || any (fun o => str_eqb (ro_label o) value) (rqn_options q)).

Definition answer_fits (answers : gmap str (list str)) (q : ProviderRequestQuestion) : bool :=
  match answers !! rqn_id q with
  | Some values =>
      bool_in_range 1 (length values) (if rqn_multiple q then 4 else 1)
      && unique values && all (answer_value_fits q) values
  | None => false
  end.

(** The identifiers of the secret questions, a [BTreeSet]: each once, in order. *)
Definition str_le (a b : str) : Prop := str_leb a b = true.
#[global] Instance str_le_dec : RelDecision str_le.
Proof. intros a b. unfold str_le. apply _. Defined.
Definition secret_ids (questions : list ProviderRequestQuestion) : list str :=
  merge_sort str_le (remove_dups (map rqn_id (filter (fun q => rqn_is_secret q = true) questions))).

Definition durable_resolution (r : ProviderRequest) (resolution : ProviderRequestResolution) :
    option DurableProviderResolution :=
  if negb (request_is_valid r) then None
  else match rq_prompt r, resolution with
  | PromptOption options, ResolveOption option_id =>
      if any (fun o => str_eqb (ro_id o) option_id) options then Some (DurableOption option_id) else None
  | PromptAnswers questions, ResolveAnswers answers =>
      if negb (bool_decide (size answers = length questions)) || negb (all (answer_fits answers) questions)
      then None
      else
        let secret := secret_ids questions in
        Some (DurableAnswers (filter (fun e : str * list str => contains secret e.1 = false) answers) secret)
  | PromptAcknowledge _, ResolveAcknowledge => Some DurableAcknowledge
  | _, _ => None
  end.

(** ** Specification *)

(** An answer fits the questions: it answers exactly them, each with as many
    different texts as the question allows, each one offered unless the question
    is open. *)
Record answers_ok (questions : list ProviderRequestQuestion) (answers : gmap str (list str)) : Prop := MkAnswersOk {
  ao_exact : dom answers = list_to_set (C := gset str) (map rqn_id questions);
  ao_each : forall q, q ∈ questions -> exists values, answers !! rqn_id q = Some values /\
    (1 <= length values <= if rqn_multiple q then 4 else 1)%nat /\ NoDup values /\
    forall v, v ∈ values -> required_text v 1000 = true /\
      (rqn_is_other q = true \/ rqn_options q = [] \/ exists o, o ∈ rqn_options q /\ ro_label o = v)
}.

Lemma unique_from_iff seen values : unique_from seen values = true <-> NoDup values /\ forall v, v ∈ values -> v ∉ seen.
Proof.
  revert seen. induction values as [|v values IH]; intros seen; simpl.
  - split; [intros _; split; [constructor|set_solver]|done].
  - rewrite andb_true_iff, negb_true_iff, contains_false, IH, NoDup_cons. set_solver.
Qed.
Lemma unique_iff values : unique values = true <-> NoDup values.
Proof. unfold unique. rewrite unique_from_iff. set_solver. Qed.

Lemma bool_in_range_iff lo n hi : bool_in_range lo n hi = true <-> (lo <= n <= hi)%nat.
Proof. unfold bool_in_range. by rewrite andb_true_iff, !bool_decide_eq_true. Qed.

Lemma secret_ids_iff questions id :
  contains (secret_ids questions) id = true <-> exists q, q ∈ questions /\ rqn_is_secret q = true /\ rqn_id q = id.
Proof.
  unfold secret_ids. rewrite contains_true, merge_sort_Permutation, elem_of_remove_dups, list_elem_of_fmap.
  split; [intros (q & -> & [? ?]%list_elem_of_filter)|intros (q & ? & ? & <-)]; exists q; [done|].
  split; [done|]. by apply list_elem_of_filter.
Qed.

Lemma answer_value_fits_iff q v :
  answer_value_fits q v = true <->
  required_text v 1000 = true /\
  (rqn_is_other q = true \/ rqn_options q = [] \/ exists o, o ∈ rqn_options q /\ ro_label o = v).
Proof.
  unfold answer_value_fits. rewrite andb_true_iff, !orb_true_iff, bool_decide_eq_true, any_true.
  setoid_rewrite str_eqb_true. tauto.
Qed.

Lemma answer_fits_iff answers q :
  answer_fits answers q = true <->
  exists values, answers !! rqn_id q = Some values /\
    (1 <= length values <= if rqn_multiple q then 4 else 1)%nat /\ NoDup values /\
    forall v, v ∈ values -> required_text v 1000 = true /\
      (rqn_is_other q = true \/ rqn_options q = [] \/ exists o, o ∈ rqn_options q /\ ro_label o = v).
Proof.
  unfold answer_fits. destruct (answers !! rqn_id q) as [values|].
  - rewrite !andb_true_iff, bool_in_range_iff, unique_iff, all_true. setoid_rewrite answer_value_fits_iff.
    split; [intros [[Hl Hu] Ha]; by exists values|by intros (? & [= <-] & Hl & Hu & Ha)].
  - split; [done|by intros (? & ? & _)].
Qed.

(** The keys of an accepted answer are exactly the questions. *)
Lemma fitting_answers_dom answers questions :
  NoDup (map rqn_id questions) -> size answers = length questions ->
  (forall q, q ∈ questions -> answer_fits answers q = true) ->
  dom answers = list_to_set (C := gset str) (map rqn_id questions).
Proof.
  intros Hnd Hsize Hfit. symmetry. apply set_subseteq_size_eq.
  - intros id. rewrite elem_of_list_to_set, list_elem_of_fmap. intros (q & -> & Hq).
    apply Hfit, answer_fits_iff in Hq as (values & Hv & _). by apply elem_of_dom.
  - rewrite size_list_to_set by done. by rewrite size_dom, Hsize, length_map.
Qed.

Lemma valid_request_questions r questions :
  request_is_valid r = true -> rq_prompt r = PromptAnswers questions -> NoDup (map rqn_id questions).
Proof.
  unfold request_is_valid, prompt_is_valid. intros Hv Hp. rewrite Hp in Hv.
  destruct (rq_request_kind r); bool_to_prop; try done. by apply unique_iff.
Qed.

Lemma durable_answers_Some r answers durable :
  durable_resolution r (ResolveAnswers answers) = Some durable ->
  exists questions, rq_prompt r = PromptAnswers questions /\ request_is_valid r = true /\
    NoDup (map rqn_id questions) /\ size answers = length questions /\
    (forall q, q ∈ questions -> answer_fits answers q = true) /\
    durable = DurableAnswers (filter (fun e : str * list str => contains (secret_ids questions) e.1 = false) answers)
      (secret_ids questions).
Proof.
  unfold durable_resolution. destruct (request_is_valid r) eqn:Hv; [simpl|done].
  destruct (rq_prompt r) as [|questions|] eqn:Ep; [done| |done].
  destruct (negb _ || negb _) eqn:E; [done|]. bool_to_prop. intros [= <-]. exists questions.
  split_and!; try done; [by eapply valid_request_questions|by apply all_true].
Qed.

(** ** Theorems *)

(** A set of answers is accepted exactly when it fits the questions. *)

(** answers are accepted exactly when each question has an answer that fits it and
    nothing else is answered. *)
Theorem durable_answers_iff (r : ProviderRequest) (questions : list ProviderRequestQuestion) (answers : gmap str (list str))
    (Hvalid : request_is_valid r = true) (Hprompt : rq_prompt r = PromptAnswers questions) :
  is_Some (durable_resolution r (ResolveAnswers answers)) <-> answers_ok questions answers.
Proof.
  pose proof (valid_request_questions _ _ Hvalid Hprompt) as Hnd.
  split.
  - intros [durable (qs & Hq & _ & _ & Hsize & Hfit & _)%durable_answers_Some]. rewrite Hprompt in Hq. injection Hq as <-.
    split; [by apply fitting_answers_dom|]. intros q Hin. by apply answer_fits_iff, Hfit.
  - intros [Hexact Heach]. unfold durable_resolution. rewrite Hvalid, Hprompt. simpl.
    assert (size answers = length questions) as Hs by (rewrite <- size_dom, Hexact, size_list_to_set, length_map; done).
    rewrite bool_decide_eq_true_2 by done. assert (all (answer_fits answers) questions = true) as ->; [|done].
    apply all_true. intros q Hq. by apply answer_fits_iff, Heach.
Qed.

(** The durable part of the answers to a request does not depend on the answers to its secret questions. *)
Lemma durable_resolution_hides_secrets (r : ProviderRequest) (a b : gmap str (list str))
    (durable_a durable_b : DurableProviderResolution)
    (Ha : durable_resolution r (ResolveAnswers a) = Some durable_a)
    (Hb : durable_resolution r (ResolveAnswers b) = Some durable_b)
    (Hagree : forall questions q, rq_prompt r = PromptAnswers questions -> q ∈ questions -> rqn_is_secret q = false ->
      a !! rqn_id q = b !! rqn_id q) :
  durable_a = durable_b.
Proof.
  apply durable_answers_Some in Ha as (qs & Hp & _ & Hnd & Hsa & Hfa & ->).
  apply durable_answers_Some in Hb as (qs' & Hp' & _ & _ & Hsb & Hfb & ->). rewrite Hp in Hp'. injection Hp' as <-.
  pose proof (fitting_answers_dom _ _ Hnd Hsa Hfa) as Hda. pose proof (fitting_answers_dom _ _ Hnd Hsb Hfb) as Hdb.
  f_equal. apply map_eq. intros id. destruct (contains (secret_ids qs) id) eqn:Es.
  { rewrite !map_lookup_filter_None_2; [done|right|right]; simpl; intros ? _ Hf; congruence. }
  assert (a !! id = b !! id) as Heq.
  { destruct (decide (id ∈ dom a)) as [Hin|Hout].
    - rewrite Hda in Hin. apply elem_of_list_to_set, list_elem_of_fmap in Hin as (q & -> & Hq).
      apply (Hagree qs); [done|done|]. destruct (rqn_is_secret q) eqn:Hsec; [|done].
      exfalso. rewrite <- not_true_iff_false in Es. apply Es, secret_ids_iff. by exists q.
    - assert (id ∉ dom b) as Hout' by (by rewrite Hdb, <- Hda). apply not_elem_of_dom in Hout, Hout'. congruence. }
  destruct (a !! id) as [v|] eqn:Hv.
  - rewrite (map_lookup_filter_Some_2 _ a id v), (map_lookup_filter_Some_2 _ b id v); done.
  - rewrite !map_lookup_filter_None_2; [done|by left..].
Qed.
End request.

(** ** Concrete inputs *)

Definition no_urls : UrlCrate := fun _ => None.
#[local] Existing Instance no_urls.

Definition demo_question (id : string) (secret : bool) : ProviderRequestQuestion :=
  {| rqn_id := u id; rqn_header := []; rqn_question := u "Answer"; rqn_options := []; rqn_multiple := false;
     rqn_is_other := true; rqn_is_secret := secret |}.
Definition demo_questions : list ProviderRequestQuestion := [demo_question "public" false; demo_question "secret" true].
Definition demo_provider_request : ProviderRequest :=
  {| rq_provider_request_id := u "10000000-0000-4000-8000-000000000001"; rq_request_kind := KindUserInput;
     rq_title := u "Input"; rq_description := []; rq_timeout_seconds := 600; rq_prompt := PromptAnswers demo_questions |}.
Definition demo_answers (password : string) : gmap str (list str) :=
  <[u "public" := [u "visible answer"]]> (<[u "secret" := [u password]]> ∅).
Definition demo_durable : DurableProviderResolution :=
  DurableAnswers (<[u "public" := [u "visible answer"]]> ∅) [u "secret"].

Lemma demo_durable_first : durable_resolution demo_provider_request (ResolveAnswers (demo_answers "first")) = Some demo_durable.
Proof. by vm_compute. Qed.
Lemma demo_durable_second : durable_resolution demo_provider_request (ResolveAnswers (demo_answers "second")) = Some demo_durable.
Proof. by vm_compute. Qed.
Lemma demo_answers_agree questions q :
  rq_prompt demo_provider_request = PromptAnswers questions -> q ∈ questions -> rqn_is_secret q = false ->
  demo_answers "first" !! rqn_id q = demo_answers "second" !! rqn_id q.
Proof. intros [= <-] Hq. unfold demo_questions in Hq. rewrite !elem_of_cons, elem_of_nil in Hq. by destruct Hq as [->|[->|[]]]. Qed.
Lemma demo_request_valid : request_is_valid demo_provider_request = true.
Proof. by vm_compute. Qed.

Lemma durable_answers_iff_witness :
  is_Some (durable_resolution demo_provider_request (ResolveAnswers ∅)) <-> answers_ok demo_questions ∅.
Proof. exact (durable_answers_iff demo_provider_request demo_questions ∅ demo_request_valid eq_refl). Defined.
