(* ===== verification/RoomStore.v ===== *)
(** * The tables of a room's turns (agentsassemble-persistence/src/room_turn_support.rs,
    agent_session_rows.rs, participant_rows.rs, room_event_sequence.rs)

    The tables the turn machinery reads and writes, and the row operations the
    rest is built from. A transaction threads the tables through a result; a
    failure discards what it wrote. The UUIDs and sampling seeds it draws come
    from a supply, in the order they are drawn. *)

From Stdlib Require Import String.
From stdpp Require Import gmap sorting.
From S2P Require Import Prelude Text Json Model Command Settings Store Turn ProviderRequest.

(** ** Executions of provider turns (provider_turn_execution.rs) *)

Inductive ProviderTurnExecutionPhase : Type :=
| ExecAssigned | ExecStartDispatching | ExecRunning | ExecInterruptPending | ExecQuiescing
| ExecStartAmbiguous | ExecInterruptAmbiguous | ExecRecoveryRequired | ExecCompleted
| ExecDeclined | ExecFailed | ExecInterrupted.
#[global] Instance ProviderTurnExecutionPhase_eq_dec : EqDecision ProviderTurnExecutionPhase.
Proof. solve_decision. Defined.

Definition phase_is_blocking (p : ProviderTurnExecutionPhase) : bool :=
  match p with
  | ExecCompleted | ExecDeclined | ExecFailed | ExecInterrupted => false
  | _ => true
  end.

Record ProviderTurnAssignmentEnvelope : Type := MkAssignmentEnvelope {
  ae_delivery_kind : RoomInputDeliveryKind;
  ae_provider_input : str;
  ae_room_view : str;
  ae_attachment_ids : list str;
  ae_room_agent_ids : list str;
  ae_tabletop_tools : bool
}.

(** A row of [provider_turn_executions], keyed by room, session and generation. *)
Abbreviation execution_key := (str * str * N)%type (only parsing).

Record ProviderTurnExecution : Type := MkProviderTurnExecution {
  pe_execution_id : str;
  pe_participant_id : str;
  pe_turn_id : str;
  pe_phase : ProviderTurnExecutionPhase;
  pe_runtime_handle_id : str;
  pe_runtime_owner_id : str;
  pe_runtime_lease_token : str;
  pe_start_dispatch_nonce : str;
  pe_provider_turn_id : str;
  pe_requeue_finalized : bool;
  pe_assignment : ProviderTurnAssignmentEnvelope
}.
#[global] Instance eta_ProviderTurnExecution : EtaRecord ProviderTurnExecution :=
  fun r => MkProviderTurnExecution (pe_execution_id r) (pe_participant_id r) (pe_turn_id r) (pe_phase r)
    (pe_runtime_handle_id r) (pe_runtime_owner_id r) (pe_runtime_lease_token r)
    (pe_start_dispatch_nonce r) (pe_provider_turn_id r) (pe_requeue_finalized r) (pe_assignment r).

(** ** Interrupt effects (provider_turn_effect.rs) *)

Inductive ProviderTurnEffectPhase : Type :=
| EffPrepared | EffClaimed | EffDispatching | EffIssuedWaitingQuiescence
| EffInterruptAmbiguous | EffRecoveryRequired | EffFinalized.
Inductive ProviderTurnInterruptCause : Type := ParticipantMuted | AgentInterrupt.
#[global] Instance ProviderTurnEffectPhase_eq_dec : EqDecision ProviderTurnEffectPhase.
Proof. solve_decision. Defined.
#[global] Instance ProviderTurnInterruptCause_eq_dec : EqDecision ProviderTurnInterruptCause.
Proof. solve_decision. Defined.

(** A row of [provider_turn_effects]; at most one interrupt for an execution. *)
Record ProviderTurnEffect : Type := MkProviderTurnEffect {
  ef_effect_id : str;
  ef_cause : ProviderTurnInterruptCause;
  ef_phase : ProviderTurnEffectPhase;
  ef_claim_owner : str;
  ef_claim_expires_at : option Z;
  ef_dispatch_nonce : str
}.
#[global] Instance eta_ProviderTurnEffect : EtaRecord ProviderTurnEffect :=
  fun r => MkProviderTurnEffect (ef_effect_id r) (ef_cause r) (ef_phase r) (ef_claim_owner r)
    (ef_claim_expires_at r) (ef_dispatch_nonce r).

(** ** Requests to owners (provider_requests) and attendees (room_attendee_invites, attendee_connections) *)

Inductive ProviderRequestState : Type :=
| RequestOpen | RequestResolving | RequestResolved | RequestDenied | RequestCancelled | RequestExpired | RequestFailed.
#[global] Instance ProviderRequestState_eq_dec : EqDecision ProviderRequestState.
Proof. solve_decision. Defined.

(** A row, without its key (room_id, request_id). *)
Record ProviderRequestRow : Type := MkRequestRow {
  rr_session_id : str;
  rr_turn_generation : Z;
  rr_execution_id : str;
  rr_owner_id : str;
  rr_request : ProviderRequest;
  rr_expires_at : Z;                              (* milliseconds *)
  rr_state : ProviderRequestState;
  rr_open_event_id : str;
  rr_resolution : option DurableProviderResolution;
  rr_resolution_fingerprint : option str;
  rr_connection_id : option str;
  rr_resolution_event_id : option str;
  rr_closed_event_id : option str
}.
#[global] Instance eta_ProviderRequestRow : EtaRecord ProviderRequestRow :=
  fun r => MkRequestRow (rr_session_id r) (rr_turn_generation r) (rr_execution_id r) (rr_owner_id r) (rr_request r)
    (rr_expires_at r) (rr_state r) (rr_open_event_id r) (rr_resolution r) (rr_resolution_fingerprint r)
    (rr_connection_id r) (rr_resolution_event_id r) (rr_closed_event_id r).

(** An invite an attendee has accepted, under the fingerprint of its session. *)
Record AttendeeInvite : Type := MkAttendeeInvite {
  ai_room_id : str;
  ai_room_uid : str;
  ai_provider_kind : str;
  ai_scope : InviteScope;
  ai_parent_fingerprint : option str;
  ai_revoked : bool;
  ai_participant_id : str;
  ai_session_expires_at : Z                       (* microseconds *)
}.
Inductive AttendeeConnectionState : Type := ConnectionConnected | ConnectionReady | ConnectionDisconnected.
#[global] Instance AttendeeConnectionState_eq_dec : EqDecision AttendeeConnectionState.
Proof. solve_decision. Defined.
Record AttendeeConnection : Type := MkAttendeeConnection {
  an_connection_id : str;
  an_state : AttendeeConnectionState;
  an_retained_interrupt : bool
}.
#[global] Instance eta_AttendeeConnection : EtaRecord AttendeeConnection :=
  fun r => MkAttendeeConnection (an_connection_id r) (an_state r) (an_retained_interrupt r).

(** A request that was answered: rows of [command_results], under room, principal and request. *)
Record CommandResult : Type := MkCommandResult {
  cr_action : str;
  cr_payload_hash : str;
  cr_result : value
}.
(** A lifecycle request in progress or refused: rows of [lifecycle_command_reservations]. The
    principal and the payload are kept as documents; here as the values they encode. *)
Record LifecycleRow : Type := MkLifecycleRow {
  lr_action : str;
  lr_payload_hash : str;
  lr_principal : AuthenticatedPrincipal;
  lr_payload : value;
  lr_supervisor_generation : str;
  lr_session_id : str;
  lr_operation_id : str;
  lr_status : str;
  lr_phase : str;
  lr_prepared_result : str;
  lr_failure_code : str;
  lr_failure_message : str
}.
#[global] Instance eta_LifecycleRow : EtaRecord LifecycleRow :=
  fun r => MkLifecycleRow (lr_action r) (lr_payload_hash r) (lr_principal r) (lr_payload r) (lr_supervisor_generation r)
    (lr_session_id r) (lr_operation_id r) (lr_status r) (lr_phase r) (lr_prepared_result r) (lr_failure_code r)
    (lr_failure_message r).
(** The attachments of messages; the content itself is left out. *)
Record MessageAttachmentRow : Type := MkAttachmentRow {
  mr_room_id : str;
  mr_pending_owner : option str;
  mr_event_seq : option Z;
  mr_filename : str;
  mr_content_type : str;
  mr_size : Z;
  mr_is_safe_image : bool;
  mr_bound : bool;                                (* state: pending or bound *)
  mr_expires_at : option Z                        (* seconds *)
}.
#[global] Instance eta_MessageAttachmentRow : EtaRecord MessageAttachmentRow :=
  fun r => MkAttachmentRow (mr_room_id r) (mr_pending_owner r) (mr_event_seq r) (mr_filename r) (mr_content_type r)
    (mr_size r) (mr_is_safe_image r) (mr_bound r) (mr_expires_at r).
(** The state of a poll, under room and vote. *)
Record VoteStateRow : Type := MkVoteState {
  vt_poll_seq : Z;
  vt_tallies : list N;
  vt_total_votes : Z;
  vt_manual_close_seq : option Z
}.
#[global] Instance eta_VoteStateRow : EtaRecord VoteStateRow :=
  fun r => MkVoteState (vt_poll_seq r) (vt_tallies r) (vt_total_votes r) (vt_manual_close_seq r).

(** ** The tables *)

Record RoomStore : Type := MkRoomStore {
  st_rooms : gmap str (Room * RoomSettings);
  st_participants : gmap (str * str) Participant;
  st_sessions : gmap (str * str) DurableAgentSession;
  st_events : gmap (str * Z) RoomEvent;
  st_executions : gmap (str * str * N) ProviderTurnExecution;
  st_effects : gmap (str * str * N) ProviderTurnEffect;
  st_requests : gmap (str * str) ProviderRequestRow;
  st_invites : gmap str AttendeeInvite;
  st_connections : gmap str AttendeeConnection;
  st_budgets : gmap (str * Z) (Z * Z);            (* room_write_budgets *)
  st_commands : gmap (str * str * str) CommandResult;
  st_reservations : gmap (str * str * str) LifecycleRow;
  st_deleted : gset (str * str * str);            (* the requests in room_delete_results *)
  st_attachments : gmap str MessageAttachmentRow;
  st_pins : gset (str * str);                     (* room_message_pins *)
  st_votes : gmap (str * str) VoteStateRow;
  st_ballots : gmap (str * str * str) Z;          (* room_vote_ballots: the index of the choice *)
  st_cleanups : gset (str * str);                 (* room_runtime_cleanup *)
  st_cleanup_ids : gmap (str * str) str;          (* attendee_cleanup_controls *)
  st_connectors : gset (str * str);               (* the participants in room_connector_invites *)
  st_quiescing : bool;                            (* a runtime restart blocks admission *)
  st_drawn : nat                                  (* how many values were drawn *)
}.
#[global] Instance eta_RoomStore : EtaRecord RoomStore :=
  fun r => MkRoomStore (st_rooms r) (st_participants r) (st_sessions r) (st_events r) (st_executions r)
    (st_effects r) (st_requests r) (st_invites r) (st_connections r) (st_budgets r) (st_commands r)
    (st_reservations r) (st_deleted r) (st_attachments r) (st_pins r) (st_votes r) (st_ballots r)
    (st_cleanups r) (st_cleanup_ids r) (st_connectors r) (st_quiescing r) (st_drawn r).

(** ** Transactions *)

Definition rtx (A : Type) : Type := RoomStore -> tx (A * RoomStore).
#[global] Instance rtx_ret : MRet rtx := fun A a st => Ok (a, st).
#[global] Instance rtx_bind : MBind rtx := fun A B k m st =>
  match m st with Ok (a, st') => k a st' | Err e => Err e end.

Definition lift {A} (r : tx A) : rtx A := fun st => match r with Ok a => Ok (a, st) | Err e => Err e end.
Definition reads {A} (f : RoomStore -> tx A) : rtx A := fun st => lift (f st) st.
Definition modifies (f : RoomStore -> RoomStore) : rtx unit := fun st => Ok (tt, f st).

(** [for x in l { .. }] *)
Fixpoint for_each {A} (l : list A) (f : A -> rtx unit) : rtx unit :=
  match l with [] => mret tt | a :: l => f a ;; for_each l f end.
Fixpoint for_map {A B} (l : list A) (f : A -> rtx B) : rtx (list B) :=
  match l with [] => mret [] | a :: l => b ← f a; bs ← for_map l f; mret (b :: bs) end.

Lemma rtx_bind_Ok {A B} (m : rtx A) (k : A -> rtx B) st b st' :
  (m ≫= k) st = Ok (b, st') <-> exists a st1, m st = Ok (a, st1) /\ k a st1 = Ok (b, st').
Proof.
  unfold mbind, rtx_bind. destruct (m st) as [[a st1]|e]; split.
  - intros H. by exists a, st1.
  - intros (? & ? & [= <- <-] & H). done.
  - done.
  - by intros (? & ? & ? & _).
Qed.

Lemma rtx_ret_Ok {A} (a b : A) st st' : (mret a : rtx A) st = Ok (b, st') <-> a = b /\ st = st'.
Proof. unfold mret, rtx_ret. split; [by intros [= -> ->]|by intros [-> ->]]. Qed.

Lemma lift_Ok {A} (r : tx A) st a st' : lift r st = Ok (a, st') <-> r = Ok a /\ st = st'.
Proof. unfold lift. destruct r; split; naive_solver. Qed.

Lemma reads_Ok {A} (f : RoomStore -> tx A) st a st' : reads f st = Ok (a, st') <-> f st = Ok a /\ st = st'.
Proof. unfold reads. apply lift_Ok. Qed.

Lemma modifies_Ok f st a st' : modifies f st = Ok (a, st') <-> st' = f st.
Proof. unfold modifies. destruct a. split; [by intros [= <-]|by intros ->]. Qed.

(** A loop whose results are dropped. *)
Lemma for_map_for_each {A B} (l : list A) (f : A -> rtx B) st bs st' :
  for_map l f st = Ok (bs, st') -> for_each l (fun a => f a ;; mret tt) st = Ok (tt, st').
Proof.
  revert st bs. induction l as [|a l IH]; intros st bs Hr; simpl in *.
  - apply rtx_ret_Ok in Hr as [_ <-]. done.
  - apply rtx_bind_Ok in Hr as (b & st1 & Hb & Hr). apply rtx_bind_Ok in Hr as (bs' & st2 & Hl & Hr).
    apply rtx_ret_Ok in Hr as [_ <-]. apply rtx_bind_Ok. exists tt, st1. split; [|by eapply IH].
    apply rtx_bind_Ok. by exists b, st1.
Qed.

Ltac rtx_inv_step :=
  match goal with
  | H : (_ ≫= _) ?st = Ok _ |- _ => apply rtx_bind_Ok in H; destruct H as (? & ? & ? & H)
  | H : mret _ ?st = Ok _ |- _ => apply rtx_ret_Ok in H; destruct H as [? ?]
  | H : lift _ ?st = Ok _ |- _ => apply lift_Ok in H; destruct H as [? ?]
  | H : reads _ ?st = Ok _ |- _ => apply reads_Ok in H; destruct H as [? ?]
  | H : modifies _ ?st = Ok _ |- _ => apply modifies_Ok in H
  end.
Ltac rtx_inv := repeat (first [rtx_inv_step | res_inv_step | progress tx_inv]; subst).

(** ** What a computation keeps

    [keeps R m]: whenever [m] succeeds, [R] relates the stores before and after.
    For a preorder this follows from the parts of [m]. *)

Definition keeps {A} (R : relation RoomStore) (m : rtx A) : Prop := forall st a st', m st = Ok (a, st') -> R st st'.

Section keeps.
Context (R : relation RoomStore) `{!PreOrder R}.

Lemma keeps_ret {A} (a : A) : keeps R (mret a).
Proof. intros st b st' [_ <-]%rtx_ret_Ok. done. Qed.
Lemma keeps_lift {A} (r : tx A) : keeps R (lift r).
Proof. intros st b st' [_ <-]%lift_Ok. done. Qed.
Lemma keeps_reads {A} (f : RoomStore -> tx A) : keeps R (reads f).
Proof. intros st b st' [_ <-]%reads_Ok. done. Qed.
Lemma keeps_modifies f : (forall st, R st (f st)) -> keeps R (modifies f).
Proof. intros Hf st b st' ->%modifies_Ok. done. Qed.
Lemma keeps_bind {A B} (m : rtx A) (k : A -> rtx B) : keeps R m -> (forall a, keeps R (k a)) -> keeps R (m ≫= k).
Proof. intros Hm Hk st b st' (a & st1 & Ha & Hb)%rtx_bind_Ok. etrans; [by eapply Hm|by eapply Hk]. Qed.
Lemma keeps_for_each {A} (l : list A) (f : A -> rtx unit) : (forall a, keeps R (f a)) -> keeps R (for_each l f).
Proof. intros Hf. induction l; [apply keeps_ret|]. by apply keeps_bind. Qed.
Lemma keeps_for_map {A B} (l : list A) (f : A -> rtx B) : (forall a, keeps R (f a)) -> keeps R (for_map l f).
Proof.
  intros Hf. induction l; [apply keeps_ret|]. apply keeps_bind; [done|]. intros b. apply keeps_bind; [done|].
  intros bs. apply keeps_ret.
Qed.
End keeps.

Create HintDb keeps discriminated.
Ltac keeps :=
  repeat first
    [ apply (keeps_ret _) | apply (keeps_lift _) | apply (keeps_reads _)
    | solve [eauto with keeps]
    | apply (keeps_bind _); [|intros ?] | apply (keeps_for_each _); intros ? | apply (keeps_for_map _); intros ?
    | match goal with |- keeps _ (match ?x with _ => _ end) => destruct x eqn:? end
    | progress cbv zeta ].

(** ** Draws and time *)

Class Entropy : Type := { uuid_at : nat -> str; seed_at : nat -> N }.

Section rows.
Context `{CharCase, Entropy}.

Definition draw_uuid : rtx str := fun st =>
  Ok (uuid_at (st_drawn st), st <| st_drawn := S (st_drawn st) |>).
Definition draw_seed : rtx N := fun st =>
  Ok (seed_at (st_drawn st), st <| st_drawn := S (st_drawn st) |>).

(** ** Rows *)

Definition invalid_state (message : string) : PersistenceError := rejected_tx "invalid_state" message.

Definition load_room_with_settings (room_id : str) (st : RoomStore) : tx (Room * RoomSettings) :=
  '(room, settings) ← ok_or (st_rooms st !! room_id) RoomMissing;
  require (str_eqb (rm_room_id room) room_id) (invalid_state "Stored room identity differs from its row.") ;;
  settings ← map_err (fun _ => StoredJson) (validate_settings settings);
  mret (room, settings).

Definition load_active_room (room_id : str) (st : RoomStore) : tx (Room * RoomSettings) :=
  '(room, settings) ← load_room_with_settings room_id st;
  require (bool_decide (rm_status room = RoomActive))
    (rejected_tx "room_inactive" "Closed or archived rooms do not accept commands.") ;;
  mret (room, settings).

Definition load_participant (room_id participant_id : str) (st : RoomStore) : tx Participant :=
  ok_or (st_participants st !! (room_id, participant_id)) ParticipantMissing.

(** A row of a session is checked when it is read: the deserializer validates
    the persona. *)
Definition read_session (s : DurableAgentSession) : tx DurableAgentSession :=
  require (persona_is_valid (d_public s)) StoredJson ;; mret s.

Definition session_not_found (session_id : str) : PersistenceError :=
  CommandRejected (u "not_found") (u "Agent session " ++ session_id ++ u " was not found.").

Definition load_session (room_id session_id : str) (st : RoomStore) : tx DurableAgentSession :=
  session ← ok_or (st_sessions st !! (room_id, session_id)) (session_not_found session_id);
  session ← read_session session;
  let public := d_public session in
  require (str_eqb (s_room_id public) room_id && str_eqb (s_session_id public) session_id
           && str_eqb (s_participant_id public) session_id)
    (rejected_tx "stored_agent_identity_invalid" "Stored Agent Session identity differs from its row.") ;;
  mret session.

Definition session_key (s : DurableAgentSession) : str * str :=
  (s_room_id (d_public s), s_session_id (d_public s)).

(** [UPDATE agent_sessions SET session_json = ? WHERE room_id = ? AND session_id = ?] *)
Definition save_session (session : DurableAgentSession) : rtx unit := fun st =>
  match st_sessions st !! session_key session with
  | None => Err (rejected_tx "not_found" "Agent session was not found.")
  | Some _ => Ok (tt, st <| st_sessions := <[session_key session := session]> (st_sessions st) |>)
  end.

(** The sessions of a room in the order of their identifiers. *)
Definition session_le (a b : DurableAgentSession) : Prop :=
  str_leb (s_session_id (d_public a)) (s_session_id (d_public b)) = true.
#[global] Instance session_le_dec : RelDecision session_le.
Proof. intros a b. unfold session_le. apply _. Defined.

Definition room_rows (room_id : str) (st : RoomStore) : list DurableAgentSession :=
  merge_sort session_le
    (map snd (filter (fun e : str * str * DurableAgentSession => e.1.1 = room_id) (map_to_list (st_sessions st)))).

Definition MAX_ROOM_SESSIONS : nat := 64.

Definition load_room_sessions (room_id : str) (st : RoomStore) : tx (list DurableAgentSession) :=
  let rows := room_rows room_id st in
  reject_if (bool_decide (MAX_ROOM_SESSIONS < length rows)%nat)
    (rejected_tx "agent_session_capacity" "This room exceeds its Agent Session capacity.") ;;
  traverse read_session rows.

(** ** Events *)

Definition load_event (room_id event_id : str) (st : RoomStore) : tx (option RoomEvent) :=
  let rows := filter (fun e : str * Z * RoomEvent => e.1.1 = room_id /\ ev_id e.2 = event_id)
    (map_to_list (st_events st)) in
  match rows with
  | [] => Ok None
  | [(k, event)] =>
      require (str_eqb (ev_room_id event) room_id && str_eqb (ev_id event) event_id
               && (ev_seq event =? k.2)) (invalid_state "Stored room event identity is inconsistent.") ;;
      mret (Some event)
  | _ => Err (invalid_state "Stored room event identity is not unique.")
  end.

(** [SELECT COALESCE(MAX(seq), 0) + 1] *)
Definition room_sequences (room_id : str) (st : RoomStore) : list Z :=
  map (fun e : str * Z * RoomEvent => e.1.2)
    (filter (fun e : str * Z * RoomEvent => e.1.1 = room_id) (map_to_list (st_events st))).
Definition next_sequence (room_id : str) (st : RoomStore) : Z :=
  match room_sequences room_id st with [] => 0 | s :: l => foldr Z.max s l end + 1.

(** The search index an insertion also maintains is not modelled. *)
Definition insert_event (event : RoomEvent) : rtx unit := fun st =>
  events ← insert_row (ev_room_id event, ev_seq event) event (st_events st);
  Ok (tt, st <| st_events := events |>).

Definition internal_event (session : DurableAgentSession) (event_type : string) (actor_is_agent : bool)
    (content : option str) (extra : gmap str value) (now : instant) : rtx RoomEvent :=
  let public := d_public session in
  let participant_id := if actor_is_agent then s_participant_id public else u "room-system" in
  let participant_type := if actor_is_agent then u "agent" else u "system" in
  id ← draw_uuid;
  seq ← reads (fun st => Ok (next_sequence (s_room_id public) st));
  let event :=
    {| ev_v := 1; ev_id := id; ev_seq := seq; ev_created_at := now; ev_room_id := s_room_id public;
       ev_event_type := u event_type;
       ev_actor := MkActor participant_id participant_type;
       ev_participant_id := Some (s_participant_id public); ev_participant_type := Some (u "agent");
       ev_actor_id := Some participant_id; ev_actor_type := Some participant_type;
       ev_display_name := Some (s_display_name public); ev_content := content;
       ev_message_kind := if bool_decide (event_type = "message_final"%string) then Some (u "message") else None;
       ev_extra := extra |} in
  insert_event event ;; mret event.

(** ** The rows of a room *)

(** Sessions are stored under their own key; sequences start at one. *)
Record store_ok (st : RoomStore) : Prop := MkStoreOk {
  so_keyed : forall k s, st_sessions st !! k = Some s -> session_key s = k;
  so_positive : forall k e, st_events st !! k = Some e -> 0 < k.2
}.

#[global] Instance session_le_total : Total session_le.
Proof.
  intros a b. unfold session_le. generalize (s_session_id (d_public a)) (s_session_id (d_public b)).
  apply str_leb_total.
Qed.

Lemma room_rows_perm room_id st :
  room_rows room_id st ≡ₚ
    map snd (filter (fun e : str * str * DurableAgentSession => e.1.1 = room_id) (map_to_list (st_sessions st))).
Proof. apply merge_sort_Permutation. Qed.

Lemma elem_of_room_rows room_id st s :
  s ∈ room_rows room_id st <-> exists sid, st_sessions st !! (room_id, sid) = Some s.
Proof.
  rewrite room_rows_perm, list_elem_of_fmap. split.
  - intros ([[r sid] s'] & -> & [He Hin]%list_elem_of_filter). simpl in *. subst. exists sid.
    by apply elem_of_map_to_list.
  - intros [sid Hs]. exists (room_id, sid, s). split; [done|]. apply list_elem_of_filter. split; [done|].
    by apply elem_of_map_to_list.
Qed.

Lemma room_rows_NoDup room_id st : store_ok st -> NoDup (room_rows room_id st).
Proof.
  intros [Hk _]. rewrite room_rows_perm. apply (NoDup_fmap_2_strong snd).
  - intros [k s] [k' s'] [_ Hs%elem_of_map_to_list]%list_elem_of_filter [_ Hs'%elem_of_map_to_list]%list_elem_of_filter.
    simpl. intros <-. apply Hk in Hs as <-. apply Hk in Hs' as <-. done.
  - apply NoDup_filter, NoDup_map_to_list.
Qed.

Lemma read_session_Ok s s' : read_session s = Ok s' -> s' = s.
Proof. unfold read_session. intros Hr. by res_inv. Qed.

Lemma load_room_sessions_Ok room_id st l : load_room_sessions room_id st = Ok l -> l = room_rows room_id st.
Proof.
  unfold load_room_sessions. intros Hr. apply bind_Ok in Hr as (? & _ & Hr).
  apply traverse_Ok_Forall2 in Hr. induction Hr as [|s s' l l' Hs _ IH]; [done|]. f_equal; [|done].
  by apply read_session_Ok.
Qed.

Lemma load_session_Ok room_id session_id st s :
  load_session room_id session_id st = Ok s ->
  st_sessions st !! (room_id, session_id) = Some s /\ session_key s = (room_id, session_id).
Proof.
  unfold load_session, session_key. intros Hr. res_inv. rename select (read_session _ = _) into Hs.
  apply read_session_Ok in Hs as ->. bool_to_prop. unfold str_eqb in *. bool_to_prop. split; congruence.
Qed.

(** ** What a row operation changes *)

Lemma save_session_Ok s st t st' :
  save_session s st = Ok (t, st') ->
  is_Some (st_sessions st !! session_key s) /\
  st' = st <| st_sessions := <[session_key s := s]> (st_sessions st) |>.
Proof. unfold save_session. destruct (st_sessions st !! _); [|done]. intros [= _ <-]. by split. Qed.

Lemma store_ok_save s st :
  store_ok st -> store_ok (st <| st_sessions := <[session_key s := s]> (st_sessions st) |>).
Proof.
  intros [Hk Hp]. split; simpl; [|done]. intros k s'.
  destruct (decide (k = session_key s)) as [->|Hne].
  - rewrite lookup_insert_eq. by intros [= <-].
  - rewrite lookup_insert_ne by done. apply Hk.
Qed.

(** Appending events leaves the other tables as they are; the event that closes a request may come
    with its row. *)
Record appends (st st' : RoomStore) : Prop := MkAppends {
  ap_rooms : st_rooms st' = st_rooms st;
  ap_participants : st_participants st' = st_participants st;
  ap_sessions : st_sessions st' = st_sessions st;
  ap_executions : st_executions st' = st_executions st;
  ap_effects : st_effects st' = st_effects st;
  ap_invites : st_invites st' = st_invites st;
  ap_connections : st_connections st' = st_connections st;
  ap_events : st_events st ⊆ st_events st';
  ap_ok : store_ok st -> store_ok st'
}.
#[global] Instance appends_preorder : PreOrder appends.
Proof.
  split; [by intros st; split|]. intros a b c [] []. split; try congruence; [by etrans|by eauto].
Qed.

(** Requests and budgets are not among them. *)
Lemma appends_requests st t : appends st (st <| st_requests := t |>).
Proof. split; try done. by intros [Hk Hp]. Qed.
Lemma appends_budgets st t : appends st (st <| st_budgets := t |>).
Proof. split; try done. by intros [Hk Hp]. Qed.

Lemma draw_uuid_Ok st id st' :
  draw_uuid st = Ok (id, st') -> id = uuid_at (st_drawn st) /\ st' = st <| st_drawn := S (st_drawn st) |>.
Proof. by intros [= <- <-]. Qed.

Lemma store_ok_drawn st n : store_ok (st <| st_drawn := n |>) <-> store_ok st.
Proof. split; intros [Hk Hp]; by split. Qed.

Lemma draw_uuid_appends st id st' : draw_uuid st = Ok (id, st') -> appends st st'.
Proof. intros [-> ->]%draw_uuid_Ok. split; try done. by rewrite store_ok_drawn. Qed.

Lemma next_sequence_pos room_id st : store_ok st -> 0 < next_sequence room_id st.
Proof.
  intros [_ Hp]. unfold next_sequence. destruct (room_sequences room_id st) as [|s l] eqn:E; [lia|].
  assert (0 < s) as Hs.
  { assert (s ∈ room_sequences room_id st) as Hin by (rewrite E; apply elem_of_cons; by left).
    unfold room_sequences in Hin. apply list_elem_of_fmap in Hin as ([[r n] e] & -> & [_ Hin]%list_elem_of_filter).
    apply elem_of_map_to_list in Hin. by apply Hp in Hin. }
  clear E. induction l as [|x l IH]; simpl; lia.
Qed.

Lemma next_sequence_max room_id seq e st :
  st_events st !! (room_id, seq) = Some e -> seq < next_sequence room_id st.
Proof.
  intros He. assert (seq ∈ room_sequences room_id st) as Hin.
  { unfold room_sequences. apply list_elem_of_fmap. exists (room_id, seq, e). split; [done|].
    apply list_elem_of_filter. split; [done|]. by apply elem_of_map_to_list. }
  unfold next_sequence. destruct (room_sequences room_id st) as [|s l]; [by apply elem_of_nil in Hin|]. clear He.
  apply elem_of_cons in Hin as [->|Hin].
  - induction l as [|x l IH]; simpl; lia.
  - induction l as [|x l IH]; [by apply elem_of_nil in Hin|]. simpl.
    apply elem_of_cons in Hin as [->|Hin]; [lia|]. specialize (IH Hin). lia.
Qed.

Lemma insert_event_Ok event st t st' :
  insert_event event st = Ok (t, st') ->
  st_events st !! (ev_room_id event, ev_seq event) = None /\
  st' = st <| st_events := <[(ev_room_id event, ev_seq event) := event]> (st_events st) |>.
Proof. unfold insert_event. intros Hr. apply bind_Ok in Hr as (ev & Hi & [= _ <-]). by tx_inv. Qed.

(** An internal event is the next one of its room. *)
Lemma internal_event_Ok session event_type agent content extra now st event st' :
  internal_event session event_type agent content extra now st = Ok (event, st') ->
  ev_seq event = next_sequence (s_room_id (d_public session)) st /\
  ev_room_id event = s_room_id (d_public session) /\ ev_event_type event = u event_type /\
  st_events st' = <[(ev_room_id event, ev_seq event) := event]> (st_events st) /\
  appends st st'.
Proof.
  unfold internal_event. intros Hr. apply rtx_bind_Ok in Hr as (id & st1 & [-> ->]%draw_uuid_Ok & Hr).
  apply rtx_bind_Ok in Hr as (seq & st2 & Hs & Hr). apply reads_Ok in Hs as [[= <-] <-].
  apply rtx_bind_Ok in Hr as (? & st3 & Hi & Hr). apply rtx_ret_Ok in Hr as [<- <-].
  apply insert_event_Ok in Hi as [Hfresh ->]. simpl. split_and!; try done.
  split; simpl; try done; [by apply insert_subseteq|].
  intros Hok. destruct Hok as [Hk Hp]. split; [done|]. simpl. intros k e.
  destruct (decide (k = (s_room_id (d_public session), next_sequence (s_room_id (d_public session)) st))) as [->|Hne].
  - intros _. by apply next_sequence_pos.
  - rewrite lookup_insert_ne; [apply Hp|]. intros Heq. by apply Hne.
Qed.

Lemma internal_event_requests session event_type agent content extra now st event st' :
  internal_event session event_type agent content extra now st = Ok (event, st') -> st_requests st' = st_requests st.
Proof.
  unfold internal_event. intros Hr. apply rtx_bind_Ok in Hr as (id & st1 & [-> ->]%draw_uuid_Ok & Hr).
  apply rtx_bind_Ok in Hr as (seq & st2 & Hs & Hr). apply reads_Ok in Hs as [_ <-].
  apply rtx_bind_Ok in Hr as (? & st3 & Hi & Hr). apply rtx_ret_Ok in Hr as [_ <-].
  by apply insert_event_Ok in Hi as [_ ->].
Qed.
End rows.

(** ** The events of turns (room_turn_support.rs) *)

Section turn_events.
Context `{Entropy}.

Definition turn_fields (session : DurableAgentSession) : gmap str value :=
  <[u "session_id" := VString (s_session_id (d_public session))]>
  (<[u "turn_id" := VString (s_active_turn_id (d_public session))]> ∅).

Definition turn_started_event (session : DurableAgentSession) (now : instant) : rtx RoomEvent :=
  internal_event session "turn_started" false None
    (<[u "source_event_id" := VString (d_active_source_event_id session)]>
     (<[u "provider_context_up_to_seq" := VInt (d_input_up_to_seq session)]> (turn_fields session))) now.

Definition phase_name (p : AgentTurnPhase) : str :=
  match p with PhaseNone => [] | PhaseThinking => u "thinking" | PhaseStreaming => u "streaming" end.

Definition turn_state_event (session : DurableAgentSession) (now : instant) : rtx RoomEvent :=
  internal_event session "turn_state" false None
    (<[u "phase" := VString (phase_name (s_turn_phase (d_public session)))]> (turn_fields session)) now.

Definition turn_finished_event (session : DurableAgentSession) (turn_id : str) (status : string)
    (provider_turn_id reason_code : option str) (now : instant) : rtx RoomEvent :=
  let extra := <[u "session_id" := VString (s_session_id (d_public session))]>
    (<[u "turn_id" := VString turn_id]> (<[u "status" := VString (u status)]> ∅)) in
  let extra := match provider_turn_id with
               | Some id => <[u "provider_turn_id" := VString id]> extra | None => extra end in
  let extra := match reason_code with
               | Some code => <[u "reason_code" := VString code]> extra | None => extra end in
  internal_event session "turn_finished" false None extra now.

Definition error_event (session : DurableAgentSession) (turn_id error_code message : str) (now : instant) :
    rtx RoomEvent :=
  internal_event session "error" false (Some message)
    (<[u "session_id" := VString (s_session_id (d_public session))]>
     (<[u "turn_id" := VString turn_id]> (<[u "error_code" := VString error_code]> ∅))) now.

(** *** Each appends *)

Lemma turn_state_event_appends session now st event st' :
  turn_state_event session now st = Ok (event, st') -> appends st st'.
Proof. unfold turn_state_event. intros Hrun. by apply internal_event_Ok in Hrun as (_ & _ & _ & _ & ?). Qed.
Lemma turn_started_event_appends session now st event st' :
  turn_started_event session now st = Ok (event, st') -> appends st st'.
Proof. unfold turn_started_event. intros Hrun. by apply internal_event_Ok in Hrun as (_ & _ & _ & _ & ?). Qed.

Lemma turn_finished_event_appends session turn_id status provider reason now st event st' :
  turn_finished_event session turn_id status provider reason now st = Ok (event, st') -> appends st st'.
Proof. unfold turn_finished_event. intros Hrun. by apply internal_event_Ok in Hrun as (_ & _ & _ & _ & ?). Qed.
Lemma error_event_appends session turn_id code message now st event st' :
  error_event session turn_id code message now st = Ok (event, st') -> appends st st'.
Proof. unfold error_event. intros Hrun. by apply internal_event_Ok in Hrun as (_ & _ & _ & _ & ?). Qed.
End turn_events.

(** ** Concrete inputs *)

Definition demo_entropy : Entropy :=
  {| uuid_at := fun n => u "uuid-" ++ show_nat n; seed_at := fun n => N.of_nat n |}.

Definition demo_room : Room := new_room (u "uid") (u "room") (u "Lab") 0.
Definition demo_participant (id kind : string) (role : ParticipantRole) : Participant :=
  {| pt_room_id := u "room"; pt_participant_id := u id; pt_display_name := u id; pt_avatar_image_url := [];
     pt_participant_type := u kind; pt_status := Joined; pt_role := role; pt_owner_id := if bool_decide (kind = "agent"%string) then u "ann" else []; pt_muted := false;
     pt_created_at := 0; pt_updated_at := 0 |}.

(** Message [seq] of a human, with the identifier [id]. *)
Definition demo_message (id : string) (seq : Z) (text : string) : RoomEvent :=
  {| ev_v := 1; ev_id := u id; ev_seq := seq; ev_created_at := seq; ev_room_id := u "room";
     ev_event_type := u "message_final"; ev_actor := MkActor (u "ann") (u "human");
     ev_participant_id := Some (u "ann"); ev_participant_type := Some (u "human");
     ev_actor_id := Some (u "ann"); ev_actor_type := Some (u "human"); ev_display_name := Some (u "Ann");
     ev_content := Some (u text); ev_message_kind := Some (u "message"); ev_extra := ∅ |}.

(** A room with a human, two idle agents and two messages. *)
Definition demo_store (mode : string) : RoomStore :=
  {| st_rooms := {[u "room" := (demo_room, (settings_defaults (u "Lab")) <| rs_conversation_mode := u mode |>)]};
     st_participants :=
       <[(u "room", u "ann") := demo_participant "ann" "human" Human]>
       (<[(u "room", u "agent-1") := demo_participant "agent-1" "agent" AgentRole]>
       (<[(u "room", u "agent-2") := demo_participant "agent-2" "agent" AgentRole]> ∅));
     st_sessions :=
       <[(u "room", u "agent-1") := idle_session "agent-1"]>
       (<[(u "room", u "agent-2") := idle_session "agent-2"]> ∅);
     st_events :=
       <[(u "room", 1) := demo_message "m1" 1 "hello"]>
       (<[(u "room", 2) := demo_message "m2" 2 "again"]> ∅);
     st_executions := ∅; st_effects := ∅; st_requests := ∅;
     st_invites := ∅; st_connections := ∅; st_budgets := ∅; st_commands := ∅; st_reservations := ∅; st_deleted := ∅;
     st_attachments := ∅; st_pins := ∅; st_votes := ∅; st_ballots := ∅; st_cleanups := ∅; st_cleanup_ids := ∅; st_connectors := ∅; st_quiescing := false;
     st_drawn := 0 |}.

Definition demo_settings_of (mode : string) : RoomSettings :=
  (settings_defaults (u "Lab")) <| rs_conversation_mode := u mode |>.

(** The same room with its sessions replaced. *)
Definition demo_with (mode : string) (sessions : list DurableAgentSession) : RoomStore :=
  (demo_store mode) <| st_sessions :=
    foldr (fun s m => <[session_key s := s]> m) (st_sessions (demo_store mode)) sessions |>.

Lemma demo_store_ok mode : store_ok (demo_store mode).
Proof.
  split; simpl.
  - intros k s Hs. apply lookup_insert_Some in Hs as [[<- <-]|[_ Hs]]; [done|].
    apply lookup_insert_Some in Hs as [[<- <-]|[_ Hs]]; [done|]. by rewrite lookup_empty in Hs.
  - intros k s Hs. apply lookup_insert_Some in Hs as [[<- <-]|[_ Hs]]; [simpl; lia|].
    apply lookup_insert_Some in Hs as [[<- <-]|[_ Hs]]; [simpl; lia|]. by rewrite lookup_empty in Hs.
Qed.

Lemma demo_with_ok mode sessions : store_ok (demo_with mode sessions).
Proof.
  unfold demo_with. induction sessions as [|s l IH]; simpl.
  - destruct (demo_store_ok mode). by split.
  - by apply (store_ok_save s) in IH.
Qed.

(** The value and the store an operation leaves, for concrete inputs. *)
Definition value_of {A} (d : A) (m : rtx A) (st : RoomStore) : A := (run_tx (d, st) (m st)).1.
Definition step {A} (d : A) (m : rtx A) (st : RoomStore) : RoomStore := (run_tx (d, st) (m st)).2.
Lemma step_Ok {A} (d : A) (m : rtx A) st : is_ok (m st) = true -> m st = Ok (value_of d m st, step d m st).
Proof. apply run_tx_pair. Qed.
