(* ===== verification/Authority.v ===== *)
(** * Who may act in a room (agentsassemble-persistence/src/authority.rs,
    turn_authority.rs, attendee_session.rs, attendee_connection.rs, attendee_ready.rs)

    Membership of an active room, custody of the exact running turn, and the
    session and current connection of an external attendee. The parent session
    an attendee's invite may hang on (human_session_authority.rs,
    operator_pairing.rs) is a parameter. *)

From Stdlib Require Import String.
From stdpp Require Import gmap.
From S2P Require Import Prelude Text Json Model Command Settings Store Turn ProviderRequest RoomStore.

(** ** Instants (chrono)

    An instant is a number of nanoseconds; the crate represents those of a
    bounded range. *)
Class ChronoRange : Type := representable : instant -> bool.
Definition from_timestamp_micros `{ChronoRange} (micros : Z) : option instant :=
  if representable (micros * 1000) then Some (micros * 1000) else None.
Definition from_timestamp_millis `{ChronoRange} (millis : Z) : option instant :=
  if representable (millis * 1000000) then Some (millis * 1000000) else None.
Definition timestamp_millis (t : instant) : Z := t / 1000000.

(** ** Executions and their custody *)

Definition session_execution_key (s : DurableAgentSession) : execution_key :=
  (s_room_id (d_public s), s_session_id (d_public s), d_turn_generation s).

(** The runtime handle, owner and lease a row was assigned under. *)
Definition custody_is (x : ProviderTurnExecution) (handle owner lease : str) : bool :=
  str_eqb (pe_runtime_handle_id x) handle && str_eqb (pe_runtime_owner_id x) owner
  && str_eqb (pe_runtime_lease_token x) lease.
Definition session_custody_is (s : DurableAgentSession) (handle owner lease : str) : bool :=
  str_eqb (d_runtime_handle_id s) handle && str_eqb (d_runtime_owner_id s) owner
  && str_eqb (d_runtime_lease_token s) lease.
Definition phase_in (phases : list ProviderTurnExecutionPhase) (x : ProviderTurnExecution) : bool :=
  contains phases (pe_phase x).

(** [EXISTS (SELECT 1 FROM provider_turn_effects WHERE <key> AND phase != 'finalized')] *)
Definition has_unfinalized_effect (key : execution_key) (st : RoomStore) : bool :=
  match st_effects st !! key with
  | Some e => negb (bool_decide (ef_phase e = EffFinalized))
  | None => false
  end.

(** ** authority.rs *)

Definition room_inactive : PersistenceError :=
  rejected_tx "room_inactive" "Closed or archived rooms do not accept active sessions.".
Definition session_revoked : PersistenceError := rejected_tx "session_revoked" "This room session has ended.".

Definition load_room (room_id : str) (st : RoomStore) : tx Room :=
  '(room, _) ← ok_or (st_rooms st !! room_id) RoomMissing;
  require (str_eqb (rm_room_id room) room_id) room_inactive ;;
  mret room.
Definition require_active_room (room : Room) : tx unit :=
  require (bool_decide (rm_status room = RoomActive)) room_inactive.

Definition load_active_membership (room_id participant_id : str) (st : RoomStore) : tx (Room * Participant) :=
  room ← load_room room_id st;
  require_active_room room ;;
  participant ← ok_or (st_participants st !! (room_id, participant_id)) ParticipantMissing;
  require (str_eqb (pt_room_id participant) room_id && str_eqb (pt_participant_id participant) participant_id
           && bool_decide (pt_status participant = Joined)) session_revoked ;;
  mret (room, participant).

Definition load_active_participant (room_id participant_id : str) (st : RoomStore) : tx Participant :=
  '(_, participant) ← load_active_membership room_id participant_id st; mret participant.

(** ** turn_authority.rs *)

Section authority.
Context `{UuidCrate}.

Definition stale_room_tool : PersistenceError :=
  rejected_tx "stale_provider_turn" "Room tool result no longer matches the active provider turn.".

Definition require_room_tool_turn_authority (session : DurableAgentSession) (turn_id : str) (input_up_to_seq : Z)
    (turn_generation : N) (execution_id : str) (st : RoomStore) : tx unit :=
  let public := d_public session in
  reject_if
    (negb (match active_turn_authority session with Ok active => active | Err _ => false end)
     || negb (str_eqb (s_active_turn_id public) turn_id)
     || negb (d_input_up_to_seq session =? input_up_to_seq)
     || negb (d_turn_generation session =? turn_generation)%N
     || (turn_generation =? 0)%N
     || match parse_uuid execution_id with Some _ => false | None => true end
     || negb (bool_decide (s_status public = SessionAttached))
     || negb (bool_decide (s_runtime_status public = RuntimeBusy))
     || negb (s_enabled public)
     || negb (s_provider_session_active public)
     || str_empty (d_runtime_handle_id session)
     || str_empty (d_runtime_owner_id session)
     || str_empty (d_runtime_lease_token session)) stale_room_tool ;;
  require (Z.of_N turn_generation <=? i64_max) stale_room_tool ;;
  let key := (s_room_id public, s_session_id public, turn_generation) in
  require (match st_executions st !! key with
           | Some x =>
               str_eqb (pe_execution_id x) execution_id && str_eqb (pe_turn_id x) turn_id
               && phase_in [ExecStartDispatching; ExecRunning] x
               && negb (str_empty (pe_start_dispatch_nonce x))
               && custody_is x (d_runtime_handle_id session) (d_runtime_owner_id session) (d_runtime_lease_token session)
               && negb (has_unfinalized_effect key st)
           | None => false
           end) stale_room_tool.

Definition require_provider_room_tool_authority (session : DurableAgentSession) (turn_id : str) (input_up_to_seq : Z)
    (turn_generation : N) (execution_id : str) (st : RoomStore) : tx unit :=
  reject_if (s_external_owned (d_public session)
             || negb (str_eqb (s_process_ownership (d_public session)) (u "server"))) stale_room_tool ;;
  require_room_tool_turn_authority session turn_id input_up_to_seq turn_generation execution_id st.
End authority.

(** ** attendee_session.rs *)

Record AttendeeSessionAuthorization : Type := MkAttendeeSession {
  ats_fingerprint : str;
  ats_room_uid : str;
  ats_principal : AuthenticatedPrincipal;
  ats_provider_kind : str;
  ats_expires_at : instant
}.

(** [require_parent room_id fingerprint now]: the human or operator session an
    attendee accompanies, with its expiry. *)
Class AttendeeParent : Type := require_parent : str -> str -> instant -> RoomStore -> tx instant.

Section attendee.
Context `{UuidCrate, ChronoRange, AttendeeParent}.

(** attendee_invites.rs: [timestamp], [parse_uuid] *)
Definition attendee_timestamp (micros : Z) : tx instant :=
  ok_or (from_timestamp_micros micros) (invalid_state "Stored attendee expiry is invalid.").
Definition attendee_uuid (value : str) : tx str :=
  ok_or (parse_uuid value) (invalid_state "Stored attendee identity is invalid.").

Definition attendee_session_unavailable : PersistenceError :=
  rejected_tx "session_revoked" "The attendee session is unavailable.".
Definition attendee_session_ended : PersistenceError :=
  rejected_tx "session_revoked" "The attendee session has ended.".
Definition attendee_custody_changed : PersistenceError :=
  rejected_tx "session_revoked" "The attendee's room or provider custody changed.".
Definition attendee_authority_changed : PersistenceError :=
  rejected_tx "session_revoked" "The attendee's exact authority changed.".

Definition authorize_in (fingerprint : str) (now : instant) (st : RoomStore) : tx AttendeeSessionAuthorization :=
  row ← ok_or (st_invites st !! fingerprint) attendee_session_unavailable;
  expires_at ← attendee_timestamp (ai_session_expires_at row);
  reject_if (ai_revoked row || (expires_at <=? now)) attendee_session_ended ;;
  let room_id := ai_room_id row in
  let participant_id := ai_participant_id row in
  '(room, participant) ← load_active_membership room_id participant_id st;
  incarnation ← attendee_uuid (ai_room_uid row);
  session ← load_session room_id participant_id st;
  let public := d_public session in
  reject_if
    (negb (str_eqb (rm_room_uid room) incarnation)
     || negb (str_eqb (pt_participant_type participant) (u "agent"))
     || negb (str_eqb (s_participant_id public) participant_id)
     || negb (s_external_owned public)
     || negb (str_eqb (s_process_ownership public) (u "external"))
     || negb (str_eqb (s_provider_kind public) (ai_provider_kind row))) attendee_custody_changed ;;
  match ai_parent_fingerprint row with
  | Some parent => require_parent room_id parent now st ;; mret tt
  | None => mret tt
  end ;;
  mret {| ats_fingerprint := fingerprint;
          ats_room_uid := incarnation;
          ats_principal :=
            {| pr_principal_id := participant_id; pr_participant_id := participant_id;
               pr_display_name := pt_display_name participant; pr_room_id := room_id;
               pr_client_kind := AgentBridge; pr_invite_scope := ai_scope row; pr_is_operator := false;
               pr_capabilities := capabilities_for_principal AgentBridge (ai_scope row) false |};
          ats_provider_kind := s_provider_kind public;
          ats_expires_at := expires_at |}.

Definition revalidate_attendee_in (expected : AttendeeSessionAuthorization) (now : instant) (st : RoomStore) :
    tx AttendeeSessionAuthorization :=
  current ← authorize_in (ats_fingerprint expected) now st;
  reject_if
    (negb (str_eqb (ats_room_uid current) (ats_room_uid expected))
     || negb (str_eqb (pr_room_id (ats_principal current)) (pr_room_id (ats_principal expected)))
     || negb (str_eqb (pr_participant_id (ats_principal current)) (pr_participant_id (ats_principal expected)))
     || negb (str_eqb (ats_provider_kind current) (ats_provider_kind expected))
     || negb (ats_expires_at current =? ats_expires_at expected)) attendee_authority_changed ;;
  mret current.

(** ** attendee_connection.rs *)

Record AttendeeConnectionAuthorization : Type := MkConnectionAuthorization {
  aca_session : AttendeeSessionAuthorization;
  aca_connection_id : str
}.

Definition bridge_connection_replaced : PersistenceError :=
  rejected_tx "bridge_connection_replaced" "This attendee connection is no longer current.".

(** The row of exactly this connection, unless it is disconnected. *)
Definition connection_is_live (fingerprint connection_id : str) (st : RoomStore) : bool :=
  match st_connections st !! fingerprint with
  | Some c => str_eqb (an_connection_id c) connection_id && negb (bool_decide (an_state c = ConnectionDisconnected))
  | None => false
  end.

Definition require_current_id (expected : AttendeeConnectionAuthorization) (st : RoomStore) : tx unit :=
  require (connection_is_live (ats_fingerprint (aca_session expected)) (aca_connection_id expected) st)
    bridge_connection_replaced.

Definition revalidate_connection_in (expected : AttendeeConnectionAuthorization) (now : instant) (st : RoomStore) : tx unit :=
  revalidate_attendee_in (aca_session expected) now st ;; require_current_id expected st.

Definition authorize_current_in (fingerprint connection_id : str) (now : instant) (st : RoomStore) :
    tx AttendeeConnectionAuthorization :=
  session ← authorize_in fingerprint now st;
  let connection := MkConnectionAuthorization session connection_id in
  require_current_id connection st ;;
  mret connection.

(** ** attendee_ready.rs *)

(** The attendee of a session, joined with its connection: [participant_id] is
    unique among the invites. *)
Definition attendee_rows (room_id participant_id : str) (p : AttendeeConnection -> bool) (st : RoomStore) : list str :=
  map fst (matching (fun fingerprint invite =>
    str_eqb (ai_room_id invite) room_id && str_eqb (ai_participant_id invite) participant_id
    && match st_connections st !! fingerprint with Some c => p c | None => false end) (st_invites st)).

Definition retained_interrupt_supported_in (room_id participant_id : str) (st : RoomStore) : bool :=
  negb (list_empty (attendee_rows room_id participant_id an_retained_interrupt st)).

Definition project_session_in (session : AgentSession) (st : RoomStore) : AgentSession :=
  session <| s_external_retained_interrupt :=
    if s_external_owned session && str_eqb (s_process_ownership session) (u "external")
    then Some (retained_interrupt_supported_in (s_room_id session) (s_participant_id session) st) else None |>.

(** Whether an agent may be given a turn now: an attendee only while its
    connection is ready and its session still authorized. *)
Definition is_available (session : DurableAgentSession) (now : instant) (st : RoomStore) : tx bool :=
  let public := d_public session in
  if negb (s_external_owned public) then Ok true
  else
    match attendee_rows (s_room_id public) (s_participant_id public)
            (fun c => bool_decide (an_state c = ConnectionReady)) st with
    | [] => Ok false
    | fingerprint :: _ =>
        match authorize_in fingerprint now st with
        | Ok _ => Ok true
        | Err ParticipantMissing | Err RoomMissing => Ok false
        | Err (CommandRejected code message) =>
            if contains [u "session_revoked"; u "permission_denied"] code then Ok false
            else Err (CommandRejected code message)
        | Err e => Err e
        end
    end.

(** ** attendee_tool_authority.rs *)

Definition load_turn_in (connection : AttendeeConnectionAuthorization) (turn_generation : N) (execution_id : str)
    (st : RoomStore) : tx DurableAgentSession :=
  let owner := ats_principal (aca_session connection) in
  session ← load_session (pr_room_id owner) (pr_participant_id owner) st;
  require_room_tool_turn_authority session (s_active_turn_id (d_public session)) (d_input_up_to_seq session)
    turn_generation execution_id st ;;
  mret session.
End attendee.
