(* ===== verification/Requests.v ===== *)
(** * Provider requests (agentsassemble-persistence/src/provider_requests.rs,
    provider_request_authority.rs, provider_request_resolution.rs,
    provider_request_completion.rs, provider_request_lifecycle.rs)

    A running turn may ask the owner of its agent one thing at a time. The
    request is opened under the authority of the turn, claimed once by the
    owner's answer, and ends resolved, failed, expired or cancelled; whatever
    changes a session also ends the request that session may no longer make. The
    clock an operation reads is read once. *)

From Stdlib Require Import String.
From stdpp Require Import gmap sorting.
From S2P Require Import Prelude Text Json Model Command Settings Store Budget Turn ProviderRequest RoomStore.
From S2P Require Import Authority.

(** What serde derives and serde_json prints. *)
Class RequestSerde : Type := {
  request_json : ProviderRequest -> str;
  request_value : ProviderRequest -> value;
  durable_json : DurableProviderResolution -> str;
  durable_value : DurableProviderResolution -> value;
  answer_json : str -> str -> ProviderRequestResolution -> str;   (* of the triple *)
  session_value : AgentSession -> value
}.
(** The hmac crate, with the key of the host. *)
Class HostHmac : Type := hmac_sha256 : str -> str.

Record OpenProviderRequest : Type := MkOpenRequest {
  op_turn_generation : N;
  op_execution_id : str;
  op_request : ProviderRequest
}.
Record ProviderRequestCommit : Type := MkRequestCommit {
  rc_session_id : str;
  rc_event : RoomEvent;
  rc_expires_at : instant;
  rc_deduplicated : bool
}.
Record ProviderRequestDelivery : Type := MkRequestDelivery {
  dl_room_id : str;
  dl_session_id : str;
  dl_request_id : str;
  dl_turn_generation : N;
  dl_execution_id : str;
  dl_fingerprint : str;
  dl_resolution : ProviderRequestResolution
}.
Record ProviderRequestResolutionCommit : Type := MkResolutionCommit {
  rs_event : RoomEvent;
  rs_delivery : option ProviderRequestDelivery
}.
Inductive ProviderRequestDeliveryOutcome : Type := OutcomeDelivered | OutcomeFailed.
Record PendingProviderRequest : Type := MkPendingRequest {
  pq_session_id : str;
  pq_request : ProviderRequest;
  pq_expires_at : instant;
  pq_resolving : bool
}.

Definition state_name (s : ProviderRequestState) : str :=
  match s with
  | RequestOpen => u "open" | RequestResolving => u "resolving" | RequestResolved => u "resolved"
  | RequestDenied => u "denied" | RequestCancelled => u "cancelled" | RequestExpired => u "expired"
  | RequestFailed => u "failed"
  end.

(** [state IN ('open','resolving')] *)
Definition pending_state (s : ProviderRequestState) : bool := contains [RequestOpen; RequestResolving] s.
Definition pending (row : ProviderRequestRow) : bool := pending_state (rr_state row).

Definition request_missing : PersistenceError :=
  rejected_tx "provider_request_missing" "Provider request is unavailable.".
Definition request_not_open : PersistenceError :=
  rejected_tx "provider_request_closed" "Provider request is no longer open.".
Definition request_not_resolving : PersistenceError :=
  rejected_tx "provider_request_closed" "Provider request is no longer resolving.".
Definition request_has_expired : PersistenceError :=
  rejected_tx "provider_request_closed" "Provider request has expired.".
Definition owner_authority_ended : PersistenceError :=
  rejected_tx "permission_denied" "Provider request owner authority has ended.".

Section requests.
Context `{Entropy, UuidCrate, ChronoRange, AttendeeParent, UrlCrate, RequestSerde, HostHmac, Chrono}.

(** ** provider_request_authority.rs *)

Definition require_execution_in (session : DurableAgentSession) (row : ProviderRequestRow) (now : instant)
    (st : RoomStore) : tx unit :=
  require (0 <=? rr_turn_generation row) (invalid_state "Stored request generation is invalid.") ;;
  let generation := Z.to_N (rr_turn_generation row) in
  let public := d_public session in
  if s_external_owned public then
    connection_id ← ok_or (rr_connection_id row ≫= parse_uuid) (invalid_state "Stored request connection is missing.");
    fingerprint ← ok_or (head (map fst (matching (fun (_ : str) invite =>
        str_eqb (ai_room_id invite) (s_room_id public) && str_eqb (ai_participant_id invite) (s_participant_id public))
        (st_invites st)))) (rejected_tx "session_revoked" "Attendee admission is unavailable.");
    authorize_current_in fingerprint connection_id now st ;;
    require_room_tool_turn_authority session (s_active_turn_id public) (d_input_up_to_seq session) generation
      (rr_execution_id row) st
  else
    require_provider_room_tool_authority session (s_active_turn_id public) (d_input_up_to_seq session) generation
      (rr_execution_id row) st.

Definition require_pending_authority_in (session : DurableAgentSession) (row : ProviderRequestRow) (now : instant)
    (st : RoomStore) : tx unit :=
  '(_, agent) ← load_active_membership (s_room_id (d_public session)) (s_participant_id (d_public session)) st;
  '(_, owner) ← load_active_membership (s_room_id (d_public session)) (pt_owner_id agent) st;
  reject_if
    (negb (str_eqb (pt_participant_type owner) (u "human")) || pt_muted owner || pt_muted agent
     || negb (str_eqb (pt_owner_id agent) (rr_owner_id row))) owner_authority_ended ;;
  require_execution_in session row now st.

Definition authorize_resolution_in (principal : AuthenticatedPrincipal) (row : ProviderRequestRow) (now : instant)
    (st : RoomStore) : tx DurableAgentSession :=
  reject_if
    (negb (bool_decide (pr_client_kind principal = Browser))
     || negb (bool_decide (pr_invite_scope principal = ReadWrite))
     || negb (cap_message_send (pr_capabilities principal))
     || negb (str_eqb (pr_participant_id principal) (rr_owner_id row)))
    (rejected_tx "permission_denied" "Only the current human owner may answer.") ;;
  session ← load_session (pr_room_id principal) (rr_session_id row) st;
  require_pending_authority_in session row now st ;;
  mret session.

(** ** provider_request_completion.rs *)

Definition load_request_in (room_id request_id : str) (st : RoomStore) : tx ProviderRequestRow :=
  ok_or (st_requests st !! (room_id, request_id)) request_missing.

(** [UPDATE provider_requests SET .. WHERE room_id = ? AND request_id = ?] *)
Definition update_request (room_id request_id : str) (f : ProviderRequestRow -> ProviderRequestRow) : rtx unit :=
  modifies (fun st => st <| st_requests := alter f (room_id, request_id) (st_requests st) |>).

Definition close_in (room_id request_id : str) (row : ProviderRequestRow) (state : ProviderRequestState)
    (now : instant) : rtx RoomEvent :=
  match rr_closed_event_id row with
  | Some id =>
      lift (require (bool_decide (rr_state row = state)) CommandConflict) ;;
      event ← reads (load_event room_id id);
      lift (ok_or event (invalid_state "Provider request terminal event is missing."))
  | None =>
      session ← reads (load_session room_id (rr_session_id row));
      event ← internal_event session "provider_request_closed" true None
        (<[u "visibility" := VString (u "owner")]>
         (<[u "owner_id" := VString (rr_owner_id row)]>
          (<[u "provider_request_id" := VString request_id]>
           (<[u "state" := VString (state_name state)]> ∅)))) now;
      update_request room_id request_id
        (fun r => r <| rr_state := state |> <| rr_closed_event_id := Some (ev_id event) |>) ;;
      mret event
  end.

Definition outcome_state (outcome : ProviderRequestDeliveryOutcome) : ProviderRequestState :=
  match outcome with OutcomeDelivered => RequestResolved | OutcomeFailed => RequestFailed end.

Definition complete_provider_request_delivery (delivery : ProviderRequestDelivery)
    (outcome : ProviderRequestDeliveryOutcome) (now : instant) : rtx RoomEvent :=
  row ← reads (load_request_in (dl_room_id delivery) (dl_request_id delivery));
  lift (reject_if
    (negb (str_eqb (rr_session_id row) (dl_session_id delivery))
     || negb (str_eqb (rr_execution_id row) (dl_execution_id delivery))
     || negb (rr_turn_generation row =? Z.of_N (dl_turn_generation delivery))
     || negb (bool_decide (rr_resolution_fingerprint row = Some (dl_fingerprint delivery)))) CommandConflict) ;;
  let state := outcome_state outcome in
  lift (reject_if (negb (bool_decide (rr_state row = state)) && negb (bool_decide (rr_state row = RequestResolving)))
    request_not_resolving) ;;
  (if bool_decide (state = RequestResolved) && bool_decide (rr_state row = RequestResolving) then
     lift (reject_if (rr_expires_at row <=? timestamp_millis now) request_has_expired) ;;
     session ← reads (load_session (dl_room_id delivery) (dl_session_id delivery));
     reads (require_pending_authority_in session row now)
   else mret tt) ;;
  close_in (dl_room_id delivery) (dl_request_id delivery) row state now.

Definition expire_provider_request (room_id request_id : str) (now : instant) : rtx (option RoomEvent) :=
  row ← reads (load_request_in room_id request_id);
  if pending row && (rr_expires_at row <=? timestamp_millis now) then
    event ← close_in room_id request_id row RequestExpired now; mret (Some event)
  else mret None.

(** The requests a condition selects, with their rows as read before any is closed. *)
Definition select_requests (p : str * str -> ProviderRequestRow -> bool) (st : RoomStore) :
    list (str * str * ProviderRequestRow) := matching p (st_requests st).
Definition close_all (rows : list (str * str * ProviderRequestRow)) (state : ProviderRequestState) (now : instant) :
    rtx (list RoomEvent) :=
  for_map rows (fun e => close_in e.1.1 e.1.2 e.2 state now).

Definition cancel_provider_execution_requests (room_id session_id : str) (turn_generation : N) (execution_id : str)
    (now : instant) : rtx (list RoomEvent) :=
  lift (require (Z.of_N turn_generation <=? i64_max) CommandConflict) ;;
  rows ← reads (fun st => Ok (select_requests (fun k r =>
    str_eqb k.1 room_id && str_eqb (rr_session_id r) session_id && (rr_turn_generation r =? Z.of_N turn_generation)
    && str_eqb (rr_execution_id r) execution_id && pending r) st));
  close_all rows RequestCancelled now.

(** ** provider_request_lifecycle.rs *)

Definition cancel_participant_in (room_id participant_id : str) (now : instant) : rtx unit :=
  rows ← reads (fun st => Ok (select_requests (fun k r =>
    str_eqb k.1 room_id && pending r
    && (str_eqb (rr_owner_id r) participant_id
        || match st_executions st !! (room_id, rr_session_id r, Z.to_N (rr_turn_generation r)) with
           | Some x => str_eqb (pe_participant_id x) participant_id
           | None => false
           end)) st));
  close_all rows RequestCancelled now ;; mret tt.

(** How a request that may no longer be made ends. *)
Definition request_end (session : DurableAgentSession) (row : ProviderRequestRow) (now : instant) (st : RoomStore) :
    tx (option ProviderRequestState) :=
  if rr_expires_at row <=? timestamp_millis now then Ok (Some RequestExpired)
  else
    match require_pending_authority_in session row now st with
    | Ok _ => Ok None
    | Err RoomMissing | Err ParticipantMissing => Ok (Some RequestCancelled)
    | Err (CommandRejected code message) =>
        if contains [u "stale_provider_turn"; u "bridge_connection_replaced"; u "session_revoked";
                     u "permission_denied"; u "room_inactive"] code
        then Ok (Some RequestCancelled) else Err (CommandRejected code message)
    | Err e => Err e
    end.

Definition reconcile_session_in (session : AgentSession) (now : instant) : rtx unit :=
  rows ← reads (fun st => Ok (select_requests (fun k r =>
    str_eqb k.1 (s_room_id session) && str_eqb (rr_session_id r) (s_session_id session) && pending r) st));
  if list_empty rows then mret tt
  else
    session ← reads (load_session (s_room_id session) (s_session_id session));
    for_each rows (fun e =>
      state ← reads (request_end session e.2 now);
      match state with
      | Some state => close_in e.1.1 e.1.2 e.2 state now ;; mret tt
      | None => mret tt
      end).

(** One transaction of [fail_provider_requests_before_admission]; [None] when no request is left. *)
Definition FAIL_BATCH : nat := 64.
Definition fail_batch (now : instant) (st : RoomStore) : tx (option RoomStore) :=
  match take FAIL_BATCH (select_requests (fun _ r => pending r) st) with
  | [] => Ok None
  | rows => '(_, st') ← close_all rows RequestFailed now st; mret (Some st')
  end.

(** The batches commit one by one: what a failure leaves is the store of the batches before it.
    [fuel] bounds the batches. *)
Fixpoint fail_provider_requests_before_admission (fuel : nat) (now : instant) (st : RoomStore) :
    option (RoomStore * tx unit) :=
  match fuel with
  | O => None
  | S fuel =>
      match fail_batch now st with
      | Err e => Some (st, Err e)
      | Ok None => Some (st, Ok tt)
      | Ok (Some st') => fail_provider_requests_before_admission fuel now st'
      end
  end.

(** room_turn_support.rs: [session_state_event] *)
Definition runtime_status_name (s : AgentRuntimeStatus) : str :=
  match s with
  | RuntimeStopped => u "stopped" | RuntimeStarting => u "starting" | RuntimeIdle => u "idle"
  | RuntimeBusy => u "busy" | RuntimePaused => u "paused" | RuntimeStopping => u "stopping"
  | RuntimeDisconnected => u "disconnected" | RuntimeRecovering => u "recovering" | RuntimeError => u "error"
  end.

Definition session_state_event (session : DurableAgentSession) (now : instant) : rtx RoomEvent :=
  reconcile_session_in (d_public session) now ;;
  projection ← reads (fun st => Ok (project_session_in (d_public session) st));
  internal_event session "agent_session_state" false None
    (<[u "session_id" := VString (s_session_id (d_public session))]>
     (<[u "runtime_status" := VString (runtime_status_name (s_runtime_status (d_public session)))]>
      (<[u "agent_session" := session_value projection]> ∅))) now.

(** ** provider_requests.rs *)

Definition reserve_budget (room_id : str) (now : instant) (bytes : nat) : rtx unit := fun st =>
  budgets ← reserve_room_write_budget room_id (now / 1000000000) (N.of_nat bytes) (st_budgets st);
  Ok (tt, st <| st_budgets := budgets |>).

Definition pending_exists (room_id session_id : str) (st : RoomStore) : bool :=
  negb (list_empty (select_requests (fun k r =>
    str_eqb k.1 room_id && str_eqb (rr_session_id r) session_id && pending r) st)).

Definition replay_in (session : DurableAgentSession) (input : OpenProviderRequest) (owner_id : str)
    (connection_id : option str) (now : instant) (st : RoomStore) : tx (option ProviderRequestCommit) :=
  let room_id := s_room_id (d_public session) in
  let session_id := s_session_id (d_public session) in
  match st_requests st !! (room_id, rq_provider_request_id (op_request input)) with
  | None => Ok None
  | Some row =>
      reject_if
        (negb (str_eqb (rr_session_id row) session_id)
         || (i64_max <? Z.of_N (op_turn_generation input))
         || negb (rr_turn_generation row =? Z.of_N (op_turn_generation input))
         || negb (str_eqb (rr_execution_id row) (op_execution_id input))
         || negb (str_eqb (rr_owner_id row) owner_id)
         || negb (bool_decide (rr_connection_id row = connection_id))
         || negb (bool_decide (rr_request row = op_request input))) CommandConflict ;;
      expires_at ← ok_or (from_timestamp_millis (rr_expires_at row))
        (invalid_state "Stored provider request deadline is invalid.");
      reject_if ((expires_at <=? now) || negb (bool_decide (rr_state row = RequestOpen))) request_not_open ;;
      event ← load_event room_id (rr_open_event_id row) st;
      event ← ok_or event (invalid_state "Provider request event is missing.");
      mret (Some (MkRequestCommit session_id event expires_at true))
  end.

(** [now + timeout], cut to a millisecond. *)
Definition request_deadline (now : instant) (timeout_seconds : N) : option instant :=
  let deadline := now + seconds (Z.of_N timeout_seconds) in
  if representable deadline then from_timestamp_millis (timestamp_millis deadline) else None.

(** [INSERT INTO provider_requests], under the constraints of the table and of the index of
    pending requests. *)
Definition insert_request (room_id request_id : str) (row : ProviderRequestRow) : rtx unit := fun st =>
  reject_if ((rr_turn_generation row <=? 0) || str_empty (rr_owner_id row)
             || pending row && pending_exists room_id (rr_session_id row) st
             || bool_decide (st_sessions st !! (room_id, rr_session_id row) = None)) Database ;;
  requests ← insert_row (room_id, request_id) row (st_requests st);
  Ok (tt, st <| st_requests := requests |>).

Definition open_in (session : DurableAgentSession) (input : OpenProviderRequest) (connection_id : option str)
    (now : instant) : rtx ProviderRequestCommit :=
  let room_id := s_room_id (d_public session) in
  let session_id := s_session_id (d_public session) in
  lift (require (request_is_valid (op_request input))
    (rejected_tx "invalid_provider_request" "Provider request is invalid.")) ;;
  '(_, participant) ← reads (load_active_membership room_id (s_participant_id (d_public session)));
  lift (reject_if (pt_muted participant || str_empty (pt_owner_id participant))
    (rejected_tx "permission_denied" "Provider request has no active owner authority.")) ;;
  '(_, owner) ← reads (load_active_membership room_id (pt_owner_id participant));
  lift (reject_if (negb (str_eqb (pt_participant_type owner) (u "human")) || pt_muted owner)
    (rejected_tx "permission_denied" "Provider request requires an active human owner.")) ;;
  existing ← reads (replay_in session input (pt_owner_id participant) connection_id now);
  match existing with
  | Some existing => mret existing
  | None =>
      exists_ ← reads (fun st => Ok (pending_exists room_id session_id st));
      lift (reject_if exists_
        (rejected_tx "provider_request_pending" "This session already has a pending provider request.")) ;;
      let encoded := request_json (op_request input) in
      reserve_budget room_id now (byte_len encoded) ;;
      expires_at ← lift (ok_or (request_deadline now (rq_timeout_seconds (op_request input)))
        (rejected_tx "invalid_provider_request" "Provider request deadline is invalid."));
      event ← internal_event session "provider_request_opened" true None
        (<[u "visibility" := VString (u "owner")]>
         (<[u "owner_id" := VString (pt_owner_id participant)]>
          (<[u "session_id" := VString session_id]>
           (<[u "provider_request" := request_value (op_request input)]>
            (<[u "expires_at" := VString (datetime_json expires_at)]> ∅))))) now;
      lift (require (Z.of_N (op_turn_generation input) <=? i64_max) CommandConflict) ;;
      insert_request room_id (rq_provider_request_id (op_request input))
        {| rr_session_id := session_id; rr_turn_generation := Z.of_N (op_turn_generation input);
           rr_execution_id := op_execution_id input; rr_owner_id := pt_owner_id participant;
           rr_request := op_request input; rr_expires_at := timestamp_millis expires_at; rr_state := RequestOpen;
           rr_open_event_id := ev_id event; rr_resolution := None; rr_resolution_fingerprint := None;
           rr_connection_id := connection_id; rr_resolution_event_id := None; rr_closed_event_id := None |} ;;
      mret (MkRequestCommit session_id event expires_at false)
  end.

Definition open_managed_provider_request (room_id session_id : str) (request : OpenProviderRequest) (now : instant) :
    rtx ProviderRequestCommit :=
  session ← reads (load_session room_id session_id);
  reads (require_provider_room_tool_authority session (s_active_turn_id (d_public session))
    (d_input_up_to_seq session) (op_turn_generation request) (op_execution_id request)) ;;
  open_in session request None now.

Definition open_attendee_provider_request (fingerprint connection_id : str) (request : OpenProviderRequest)
    (now : instant) : rtx ProviderRequestCommit :=
  connection ← reads (authorize_current_in fingerprint connection_id now);
  session ← reads (load_turn_in connection (op_turn_generation request) (op_execution_id request));
  open_in session request (Some connection_id) now.

(** ** provider_request_resolution.rs *)

Definition RESPONSE_PURPOSE : str := u "agentsassemble-provider-response-v1" ++ [NUL].
Definition response_fingerprint (room_id request_id : str) (resolution : ProviderRequestResolution) : str :=
  hmac_sha256 (RESPONSE_PURPOSE ++ answer_json room_id request_id resolution).

Definition resolution_event_in (room_id : str) (event_id : option str) (st : RoomStore) : tx RoomEvent :=
  id ← ok_or event_id (invalid_state "Provider resolution event is missing.");
  event ← load_event room_id id st;
  ok_or event (invalid_state "Provider resolution event is missing.").

(** [authority] is [RoomMutationAuthority::resolve], which revalidates the caller's session. *)
Definition resolve_provider_request (authority : RoomStore -> tx AuthenticatedPrincipal) (request_id : str)
    (resolution : ProviderRequestResolution) (now : instant) : rtx ProviderRequestResolutionCommit :=
  principal ← reads authority;
  let room_id := pr_room_id principal in
  row ← reads (load_request_in room_id request_id);
  session ← reads (authorize_resolution_in principal row now);
  durable ← lift (ok_or (durable_resolution (rr_request row) resolution)
    (rejected_tx "invalid_provider_response" "Response does not match the provider request."));
  let fingerprint := response_fingerprint room_id request_id resolution in
  match rr_resolution_fingerprint row with
  | Some previous =>
      lift (require (str_eqb previous fingerprint) CommandConflict) ;;
      event ← reads (resolution_event_in room_id (rr_resolution_event_id row));
      mret (MkResolutionCommit event None)
  | None =>
      lift (reject_if (negb (bool_decide (rr_state row = RequestOpen)) || (rr_expires_at row <=? timestamp_millis now))
        request_not_open) ;;
      let encoded := durable_json durable in
      reserve_budget room_id now (byte_len encoded) ;;
      event ← internal_event session "provider_request_resolving" false None
        (<[u "visibility" := VString (u "owner")]>
         (<[u "owner_id" := VString (pr_participant_id principal)]>
          (<[u "provider_request_id" := VString request_id]>
           (<[u "resolution" := durable_value durable]> ∅)))) now;
      update_request room_id request_id (fun r => r
        <| rr_state := RequestResolving |> <| rr_resolution := Some durable |>
        <| rr_resolution_fingerprint := Some fingerprint |> <| rr_resolution_event_id := Some (ev_id event) |>) ;;
      mret (MkResolutionCommit event (Some
        {| dl_room_id := room_id; dl_session_id := s_session_id (d_public session); dl_request_id := request_id;
           dl_turn_generation := d_turn_generation session; dl_execution_id := rr_execution_id row;
           dl_fingerprint := fingerprint; dl_resolution := resolution |}))
  end.

(** provider_requests.rs: what the owner is shown of the requests that wait. The code orders them by
    their opening event. *)
Definition open_order (a b : ProviderRequestRow) : Prop := str_le (rr_open_event_id a) (rr_open_event_id b).
#[local] Instance open_order_dec : RelDecision open_order.
Proof. intros a b. unfold open_order. apply _. Defined.

Definition pending_request (row : ProviderRequestRow) : tx PendingProviderRequest :=
  require (request_is_valid (rr_request row)) (invalid_state "Stored provider request is invalid.") ;;
  expires_at ← ok_or (from_timestamp_millis (rr_expires_at row))
    (invalid_state "Stored provider request deadline is invalid.");
  require (pending row) (invalid_state "Stored pending request state is invalid.") ;;
  mret (MkPendingRequest (rr_session_id row) (rr_request row) expires_at
    (bool_decide (rr_state row = RequestResolving))).

Definition snapshot_pending_in (principal : option AuthenticatedPrincipal) (st : RoomStore) :
    tx (list PendingProviderRequest) :=
  match principal with
  | Some principal =>
      if bool_decide (pr_client_kind principal = Browser) then
        traverse pending_request (merge_sort open_order (map snd (select_requests (fun k r =>
          str_eqb k.1 (pr_room_id principal) && str_eqb (rr_owner_id r) (pr_participant_id principal) && pending r) st)))
      else Ok []
  | None => Ok []
  end.

End requests.

(** ** The steps of the table of requests *)

Abbreviation request_table := (gmap (str * str) ProviderRequestRow) (only parsing).

Definition close_row (state : ProviderRequestState) (event_id : str) (r : ProviderRequestRow) : ProviderRequestRow :=
  r <| rr_state := state |> <| rr_closed_event_id := Some event_id |>.
Definition claim_row (durable : DurableProviderResolution) (fingerprint event_id : str) (r : ProviderRequestRow) :
    ProviderRequestRow :=
  r <| rr_state := RequestResolving |> <| rr_resolution := Some durable |>
    <| rr_resolution_fingerprint := Some fingerprint |> <| rr_resolution_event_id := Some event_id |>.

(** The ends of a request: an answer is only delivered after it was claimed. *)
Definition may_end (r : ProviderRequestRow) (state : ProviderRequestState) : Prop :=
  pending r = true /\ pending_state state = false /\ (state = RequestResolved -> rr_state r = RequestResolving).

Inductive table_step (t : request_table) : request_table -> Prop :=
| TsClose t' :
    (forall k, t' !! k = t !! k \/
      exists r state event_id, t !! k = Some r /\ may_end r state /\ t' !! k = Some (close_row state event_id r)) ->
    table_step t t'
| TsClaim k r durable fingerprint event_id :
    t !! k = Some r -> rr_state r = RequestOpen -> rr_resolution_fingerprint r = None ->
    table_step t (<[k := claim_row durable fingerprint event_id r]> t)
| TsOpen k r :
    t !! k = None -> rr_state r = RequestOpen -> rr_resolution_fingerprint r = None -> rr_closed_event_id r = None ->
    (forall k' r', t !! k' = Some r' -> pending r' = true -> k'.1 = k.1 -> rr_session_id r' = rr_session_id r -> False) ->
    table_step t (<[k := r]> t).

Record table_ok (t : request_table) : Prop := MkTableOk {
  to_closed : forall k r, t !! k = Some r -> (rr_closed_event_id r = None <-> pending r = true);
  to_claimed : forall k r, t !! k = Some r -> (rr_state r = RequestOpen -> rr_resolution_fingerprint r = None) /\
    (rr_state r = RequestResolving \/ rr_state r = RequestResolved -> rr_resolution_fingerprint r <> None);
  to_one : forall k1 k2 r1 r2, t !! k1 = Some r1 -> t !! k2 = Some r2 -> pending r1 = true -> pending r2 = true ->
    k1.1 = k2.1 -> rr_session_id r1 = rr_session_id r2 -> k1 = k2
}.

Lemma pending_iff r : pending r = true <-> rr_state r = RequestOpen \/ rr_state r = RequestResolving.
Proof. unfold pending, pending_state. rewrite contains_true. set_solver. Qed.

Lemma table_step_ok t t' : table_ok t -> table_step t t' -> table_ok t'.
Proof.
  intros [Hc Hf Ho] Hs. destruct Hs as [t' Hrows|k r d fp eid Hk Hst Hfp|k r Hk Hst Hfp Hcl Hnone].
  - split.
    + intros k r Hr. destruct (Hrows k) as [Heq|(r0 & s & eid & Hr0 & [Hp [Hs _]] & Heq)]; rewrite Heq in Hr; [by apply (Hc k)|].
      injection Hr as <-. unfold pending. simpl. by rewrite Hs.
    + intros k r Hr. destruct (Hrows k) as [Heq|(r0 & s & eid & Hr0 & [Hp [Hs Hres]] & Heq)]; rewrite Heq in Hr; [by apply (Hf k)|].
      injection Hr as <-. simpl. split; [intros ->; done|]. intros [-> | ->]; [done|]. apply (Hf k _ Hr0). left. by apply Hres.
    + assert (forall k r, t' !! k = Some r -> pending r = true -> t !! k = Some r) as Hold.
      { intros k r Hr Hp. destruct (Hrows k) as [Heq|(r0 & s & eid & Hr0 & [_ [Hs _]] & Heq)]; rewrite Heq in Hr; [done|].
        injection Hr as <-. unfold pending in Hp. simpl in Hp. congruence. }
      intros k1 k2 r1 r2 H1 H2 Hp1 Hp2. apply (Ho k1 k2 r1 r2); auto.
  - assert (pending r = true) as Hpr by (apply pending_iff; by left).
    split.
    + intros k' r'. rewrite lookup_insert_Some. intros [[<- <-]|[_ Hr]]; [|by apply (Hc k')].
      simpl. rewrite (Hc _ _ Hk). by rewrite Hpr.
    + intros k' r'. rewrite lookup_insert_Some. intros [[<- <-]|[_ Hr]]; [by simpl|by apply (Hf k')].
    + assert (forall k' r', <[k:=claim_row d fp eid r]> t !! k' = Some r' -> pending r' = true ->
        exists r0, t !! k' = Some r0 /\ pending r0 = true /\ rr_session_id r0 = rr_session_id r') as Hold.
      { intros k' r'. rewrite lookup_insert_Some. intros [[<- <-]|[_ Hr]] Hp; [by exists r|by exists r']. }
      intros k1 k2 r1 r2 H1 H2 Hp1 Hp2 Hroom Hsess.
      destruct (Hold _ _ H1 Hp1) as (q1 & Hq1 & Hpq1 & Hs1). destruct (Hold _ _ H2 Hp2) as (q2 & Hq2 & Hpq2 & Hs2).
      apply (Ho k1 k2 q1 q2); auto. congruence.
  - assert (pending r = true) as Hpr by (apply pending_iff; by left).
    split.
    + intros k' r'. rewrite lookup_insert_Some. intros [[<- <-]|[_ Hr]]; [by rewrite Hcl|by apply (Hc k')].
    + intros k' r'. rewrite lookup_insert_Some. intros [[<- <-]|[_ Hr]]; [|by apply (Hf k')].
      split; [done|]. rewrite Hst. by intros [?|?].
    + intros k1 k2 r1 r2. rewrite !lookup_insert_Some.
      intros [[<- <-]|[Hn1 H1]] [[<- <-]|[Hn2 H2]] Hp1 Hp2 Hroom Hsess; try done.
      * exfalso. by apply (Hnone k2 r2).
      * exfalso. by apply (Hnone k1 r1).
      * by apply (Ho k1 k2 r1 r2).
Qed.

(** A request that has ended keeps its row. *)
Lemma table_step_final t t' k r :
  t !! k = Some r -> pending r = false -> table_step t t' -> t' !! k = Some r.
Proof.
  intros Hr Hp Hs. destruct Hs as [t' Hrows|k' r' d fp eid Hk Hst Hfp|k' r' Hk _ _ _ _].
  - destruct (Hrows k) as [->|(r0 & s & eid & Hr0 & [Hp0 _] & _)]; [done|congruence].
  - rewrite lookup_insert_ne; [done|]. intros ->. assert (r' = r) as -> by congruence.
    assert (pending r = true) by (apply pending_iff; by left). congruence.
  - rewrite lookup_insert_ne; [done|]. intros ->. congruence.
Qed.

(** A claimed request keeps the answer it was claimed with. *)
Lemma table_step_claimed t t' k r fingerprint :
  table_ok t -> t !! k = Some r -> rr_resolution_fingerprint r = Some fingerprint -> table_step t t' ->
  exists r', t' !! k = Some r' /\ rr_resolution_fingerprint r' = Some fingerprint.
Proof.
  intros Hok Hr Hf Hs. destruct Hs as [t' Hrows|k' r' d fp eid Hk Hst Hfp|k' r' Hk _ _ _ _].
  - destruct (Hrows k) as [->|(r0 & s & eid & Hr0 & _ & ->)]; [by exists r|]. exists (close_row s eid r0).
    split; [done|]. simpl. congruence.
  - exists r. split; [|done]. rewrite lookup_insert_ne; [done|]. intros ->. congruence.
  - exists r. split; [|done]. rewrite lookup_insert_ne; [done|]. intros ->. congruence.
Qed.

(** ** What the operations do to the table *)

Section request_steps.
Context `{Entropy, UuidCrate, ChronoRange, AttendeeParent, UrlCrate, RequestSerde, HostHmac, Chrono}.

Lemma update_request_Ok room_id request_id f st t st' :
  update_request room_id request_id f st = Ok (t, st') ->
  st' = st <| st_requests := alter f (room_id, request_id) (st_requests st) |>.
Proof. unfold update_request. by intros ->%modifies_Ok. Qed.

(** Closing a row that was closed before changes nothing. *)
Lemma close_in_Ok room_id request_id row state now st event st' :
  close_in room_id request_id row state now st = Ok (event, st') ->
  appends st st' /\
  ((rr_closed_event_id row <> None /\ rr_state row = state /\ st_requests st' = st_requests st) \/
   (rr_closed_event_id row = None /\
    st_requests st' = alter (close_row state (ev_id event)) (room_id, request_id) (st_requests st))).
Proof.
  unfold close_in. intros Hr. destruct (rr_closed_event_id row) as [id|].
  - apply rtx_bind_Ok in Hr as ([] & st1 & Hl & Hr). apply lift_Ok in Hl as [Hl%require_Ok <-].
    apply rtx_bind_Ok in Hr as (e & st1 & He & Hr). apply reads_Ok in He as [_ <-]. apply lift_Ok in Hr as [_ <-].
    split; [done|]. left. split; [done|]. split; [|done]. by apply bool_decide_eq_true in Hl.
  - apply rtx_bind_Ok in Hr as (session & st1 & Hl & Hr). apply reads_Ok in Hl as [_ <-].
    apply rtx_bind_Ok in Hr as (e & st1 & He & Hr). apply rtx_bind_Ok in Hr as ([] & st2 & Hu & Hr).
    apply rtx_ret_Ok in Hr as [<- <-]. apply update_request_Ok in Hu as ->.
    pose proof (internal_event_requests _ _ _ _ _ _ _ _ _ He) as Hreq.
    apply internal_event_Ok in He as (_ & _ & _ & _ & Happ). split.
    + etrans; [exact Happ|apply appends_requests].
    + right. split; [done|]. simpl. by rewrite Hreq.
Qed.

Lemma for_each_appends {A} (l : list A) f st t st' :
  (forall a st t st', f a st = Ok (t, st') -> appends st st') -> for_each l f st = Ok (t, st') -> appends st st'.
Proof.
  intros Hf. revert st. induction l as [|a l IH]; intros st Hr; simpl in Hr.
  - by apply rtx_ret_Ok in Hr as [_ <-].
  - apply rtx_bind_Ok in Hr as (? & st1 & Ha & Hr). etrans; [by eapply Hf|by apply IH].
Qed.

(** Ending the requests of a session, and announcing its state, only append events and end requests. *)
Lemma reconcile_session_appends session now st t st' :
  reconcile_session_in session now st = Ok (t, st') -> appends st st'.
Proof.
  unfold reconcile_session_in. intros Hc. apply rtx_bind_Ok in Hc as (rows & st2 & Hl & Hc). apply reads_Ok in Hl as [_ <-].
  destruct (list_empty _); [by apply rtx_ret_Ok in Hc as [_ <-]|].
  apply rtx_bind_Ok in Hc as (s & st2 & Hl & Hc). apply reads_Ok in Hl as [_ <-].
  eapply for_each_appends; [|exact Hc]. intros e s1 t1 s1' He.
  apply rtx_bind_Ok in He as (state & s2 & Hs & He). apply reads_Ok in Hs as [_ <-].
  destruct state as [state|]; [|by apply rtx_ret_Ok in He as [_ <-]].
  apply rtx_bind_Ok in He as (ev & s2 & Hcl & He). apply rtx_ret_Ok in He as [_ <-]. by apply close_in_Ok in Hcl as [? _].
Qed.
Lemma session_state_event_appends session now st event st' :
  session_state_event session now st = Ok (event, st') -> appends st st'.
Proof.
  unfold session_state_event. intros Hr. apply rtx_bind_Ok in Hr as (t & st1 & Hc & Hr).
  apply rtx_bind_Ok in Hr as (p & st2 & Hp & Hr). apply reads_Ok in Hp as [_ <-].
  apply internal_event_Ok in Hr as (_ & _ & _ & _ & Happ). etrans; [|exact Happ]. by eapply reconcile_session_appends.
Qed.

(** The rows of [rows] that were closed, all others kept. *)
Definition closes (rows : list (str * str * ProviderRequestRow)) (t t' : request_table) : Prop :=
  forall k, t' !! k = t !! k \/
    exists r state event_id, (k, r) ∈ rows /\ may_end r state /\ t' !! k = Some (close_row state event_id r).
Definition closes_one (e : str * str * ProviderRequestRow) (t t' : request_table) : Prop :=
  t' = t \/ exists state event_id, may_end e.2 state /\ t' = alter (close_row state event_id) e.1 t.

Lemma closes_step rows t t' :
  (forall e, e ∈ rows -> t !! e.1 = Some e.2) -> closes rows t t' -> table_step t t'.
Proof.
  intros Hrows Hc. apply TsClose. intros k. destruct (Hc k) as [Heq|(r & s & eid & Hin & Hend & Heq)]; [by left|right].
  exists r, s, eid. split; [|done]. apply (Hrows (k, r) Hin).
Qed.

Lemma closes_one_other e t t' k : closes_one e t t' -> k <> e.1 -> t' !! k = t !! k.
Proof. intros [->|(s & eid & _ & ->)] Hne; [done|]. by rewrite lookup_alter_ne. Qed.

Lemma for_each_closes rows f st t st' :
  NoDup (map fst rows) ->
  (forall e st t st', e ∈ rows -> st_requests st !! e.1 = Some e.2 -> f e st = Ok (t, st') ->
     appends st st' /\ closes_one e (st_requests st) (st_requests st')) ->
  (forall e, e ∈ rows -> st_requests st !! e.1 = Some e.2) ->
  for_each rows f st = Ok (t, st') -> appends st st' /\ closes rows (st_requests st) (st_requests st').
Proof.
  revert st. induction rows as [|e rows IH]; intros st Hnd Hf Hrows Hr; simpl in *.
  - apply rtx_ret_Ok in Hr as [_ <-]. split; [done|]. by left.
  - apply NoDup_cons in Hnd as [Hnotin Hnd]. apply rtx_bind_Ok in Hr as (t1 & st1 & He & Hr).
    apply Hf in He as [Happ Hone]; [|by left|by apply Hrows; left].
    assert (forall e', e' ∈ rows -> e'.1 <> e.1) as Hne.
    { intros e' He' Heq. apply Hnotin. rewrite <- Heq. apply list_elem_of_fmap. by exists e'. }
    apply IH in Hr as [Happ' Hc]; [|done|intros e0 s0 t0 s0' Hin; apply Hf; by right|].
    2:{ intros e' He'. rewrite (closes_one_other _ _ _ _ Hone) by auto. apply Hrows. by right. }
    split; [by etrans|]. intros k. destruct (Hc k) as [->|(r & s & eid & Hin & Hend & ->)].
    + destruct Hone as [->|(s & eid & Hend & ->)]; [by left|].
      destruct (decide (k = e.1)) as [->|Hk]; [right|left; by rewrite lookup_alter_ne].
      exists e.2, s, eid. split; [|split; [done|]].
      * rewrite <- surjective_pairing. by left.
      * rewrite lookup_alter_eq, (Hrows e) by (by left). done.
    + right. exists r, s, eid. split; [by right|done].
Qed.

Lemma select_requests_rows p st e : e ∈ select_requests p st -> st_requests st !! e.1 = Some e.2 /\ p e.1 e.2 = true.
Proof. destruct e as [k r]. apply elem_of_matching. Qed.

(** Closing a row read from the table, which has not ended. *)
Lemma close_in_closes e state now st event st' :
  pending e.2 = true -> rr_closed_event_id e.2 = None -> pending_state state = false ->
  (state = RequestResolved -> rr_state e.2 = RequestResolving) ->
  close_in e.1.1 e.1.2 e.2 state now st = Ok (event, st') ->
  appends st st' /\ closes_one e (st_requests st) (st_requests st').
Proof.
  intros Hp Hc Hs Hres Hr. apply close_in_Ok in Hr as [Happ [[Hn _]|[_ Heq]]]; [done|]. split; [done|].
  right. exists state, (ev_id event). split; [done|]. rewrite Heq. by destruct e as [[room id] r].
Qed.

(** Any other operation of the program leaves the table as it is. *)
Inductive request_op (st st' : RoomStore) : Prop :=
| RoOpenManaged room_id session_id request now commit :
    open_managed_provider_request room_id session_id request now st = Ok (commit, st') -> request_op st st'
| RoOpenAttendee fingerprint connection_id request now commit :
    open_attendee_provider_request fingerprint connection_id request now st = Ok (commit, st') -> request_op st st'
| RoResolve authority request_id resolution now commit :
    resolve_provider_request authority request_id resolution now st = Ok (commit, st') -> request_op st st'
| RoComplete delivery outcome now event :
    complete_provider_request_delivery delivery outcome now st = Ok (event, st') -> request_op st st'
| RoExpire room_id request_id now event :
    expire_provider_request room_id request_id now st = Ok (event, st') -> request_op st st'
| RoCancelExecution room_id session_id generation execution_id now events :
    cancel_provider_execution_requests room_id session_id generation execution_id now st = Ok (events, st') -> request_op st st'
| RoCancelParticipant room_id participant_id now t :
    cancel_participant_in room_id participant_id now st = Ok (t, st') -> request_op st st'
| RoSessionState session now event :
    session_state_event session now st = Ok (event, st') -> request_op st st'
| RoFailBatch now :
    fail_batch now st = Ok (Some st') -> request_op st st'
| RoOther :
    st_requests st' = st_requests st -> request_op st st'.

Lemma table_step_same t : table_step t t.
Proof. apply TsClose. by left. Qed.

Lemma close_all_step rows state now st events st' :
  table_ok (st_requests st) -> NoDup (map fst rows) -> pending_state state = false -> state <> RequestResolved ->
  (forall e, e ∈ rows -> st_requests st !! e.1 = Some e.2 /\ pending e.2 = true) ->
  close_all rows state now st = Ok (events, st') ->
  appends st st' /\ closes rows (st_requests st) (st_requests st').
Proof.
  intros Hok Hnd Hs Hres Hrows Hr. apply for_map_for_each in Hr. eapply for_each_closes; [exact Hnd| | |exact Hr].
  - intros e s t s' Hin He Hrun. apply rtx_bind_Ok in Hrun as (ev & s1 & Hc & Hrun). apply rtx_ret_Ok in Hrun as [_ <-].
    destruct (Hrows _ Hin) as [He' Hp]. eapply close_in_closes; [done| |done|done|exact Hc].
    by eapply to_closed.
  - intros e Hin. by apply Hrows.
Qed.

Lemma cancel_execution_step room_id session_id generation execution_id now st events st' :
  table_ok (st_requests st) ->
  cancel_provider_execution_requests room_id session_id generation execution_id now st = Ok (events, st') ->
  table_step (st_requests st) (st_requests st').
Proof.
  intros Hok Hr. unfold cancel_provider_execution_requests in Hr.
  apply rtx_bind_Ok in Hr as ([] & st1 & Hl & Hr). apply lift_Ok in Hl as [_ <-].
  apply rtx_bind_Ok in Hr as (rows & st1 & Hl & Hr). apply reads_Ok in Hl as [[= <-] <-].
  apply close_all_step in Hr as [_ Hc]; [|done|apply matching_NoDup|done|done|].
  - eapply closes_step; [|exact Hc]. intros e He. by apply select_requests_rows in He as [? _].
  - intros e [? Hp]%select_requests_rows. bool_to_prop. done.
Qed.

Lemma cancel_participant_step room_id participant_id now st t st' :
  table_ok (st_requests st) -> cancel_participant_in room_id participant_id now st = Ok (t, st') ->
  appends st st' /\ table_step (st_requests st) (st_requests st').
Proof.
  intros Hok Hr. unfold cancel_participant_in in Hr.
  apply rtx_bind_Ok in Hr as (rows & st1 & Hl & Hr). apply reads_Ok in Hl as [[= <-] <-].
  apply rtx_bind_Ok in Hr as (events & st1 & Hc & Hr). apply rtx_ret_Ok in Hr as [_ <-].
  apply close_all_step in Hc as [Ha Hc]; [|done|apply matching_NoDup|done|done|].
  - split; [done|]. eapply closes_step; [|exact Hc]. intros e He. by apply select_requests_rows in He as [? _].
  - intros e [? Hp]%select_requests_rows. bool_to_prop. done.
Qed.

Lemma fail_batch_Ok now st st' :
  fail_batch now st = Ok (Some st') ->
  exists rows events, rows <> [] /\ NoDup (map fst rows) /\
    (forall e, e ∈ rows -> st_requests st !! e.1 = Some e.2 /\ pending e.2 = true) /\
    close_all rows RequestFailed now st = Ok (events, st').
Proof.
  intros Hr. unfold fail_batch in Hr.
  assert (forall e, e ∈ take FAIL_BATCH (select_requests (fun _ r => pending r) st) ->
    st_requests st !! e.1 = Some e.2 /\ pending e.2 = true) as Hrows.
  { intros e He. apply (select_requests_rows (fun _ r => pending r)). by eapply elem_of_sublist; [exact He|apply sublist_take]. }
  assert (NoDup (map fst (take FAIL_BATCH (select_requests (fun _ r => pending r) st)))) as Hnd.
  { eapply sublist_NoDup; [apply (matching_NoDup (fun _ r => pending r))|]. apply fmap_sublist, sublist_take. }
  destruct (take FAIL_BATCH _) as [|e rows]; [done|].
  apply bind_Ok in Hr as ([evs st1] & Hc & Hr). injection Hr as ->. by exists (e :: rows), evs.
Qed.

Lemma fail_batch_step now st st' :
  table_ok (st_requests st) -> fail_batch now st = Ok (Some st') -> table_step (st_requests st) (st_requests st').
Proof.
  intros Hok (rows & events & _ & Hnd & Hrows & Hc)%fail_batch_Ok.
  apply close_all_step in Hc as [_ Hc]; [|done..].
  eapply closes_step; [|exact Hc]. intros e' He'. by apply Hrows.
Qed.

Lemma reconcile_step session now st t st' :
  table_ok (st_requests st) -> reconcile_session_in session now st = Ok (t, st') ->
  appends st st' /\ table_step (st_requests st) (st_requests st').
Proof.
  intros Hok Hr. unfold reconcile_session_in in Hr.
  apply rtx_bind_Ok in Hr as (rows & st1 & Hl & Hr). apply reads_Ok in Hl as [[= <-] <-].
  destruct (list_empty _); [apply rtx_ret_Ok in Hr as [_ <-]; split; [done|apply table_step_same]|].
  apply rtx_bind_Ok in Hr as (s & st1 & Hl & Hr). apply reads_Ok in Hl as [_ <-].
  eapply for_each_closes in Hr as [Ha Hc]; [split; [done|]|apply matching_NoDup| |].
  - eapply closes_step; [|exact Hc]. intros e He. by apply select_requests_rows in He as [? _].
  - intros e s1 t1 s1' Hin He Hrun. apply select_requests_rows in Hin as [Hin Hp]. bool_to_prop.
    apply rtx_bind_Ok in Hrun as (state & s2 & Hs & Hrun). apply reads_Ok in Hs as [Hs <-].
    destruct state as [state|]; [|apply rtx_ret_Ok in Hrun as [_ <-]; split; [done|by left]].
    apply rtx_bind_Ok in Hrun as (ev & s2 & Hcl & Hrun). apply rtx_ret_Ok in Hrun as [_ <-].
    assert (state = RequestExpired \/ state = RequestCancelled) as Hst.
    { unfold request_end in Hs. repeat case_match; simplify_eq; auto. }
    eapply close_in_closes; [done| | | |exact Hcl]; [by eapply to_closed|by destruct Hst as [-> | ->]..].
  - intros e He. by apply select_requests_rows in He as [? _].
Qed.

Lemma session_state_event_step session now st event st' :
  table_ok (st_requests st) -> session_state_event session now st = Ok (event, st') ->
  table_step (st_requests st) (st_requests st').
Proof.
  intros Hok Hr. unfold session_state_event in Hr. apply rtx_bind_Ok in Hr as (t & st1 & Hc & Hr).
  apply rtx_bind_Ok in Hr as (p & st2 & Hp & Hr). apply reads_Ok in Hp as [_ <-].
  apply reconcile_step in Hc as [_ Hc]; [|done]. by rewrite (internal_event_requests _ _ _ _ _ _ _ _ _ Hr).
Qed.

Lemma reserve_budget_requests room_id now bytes st t st' :
  reserve_budget room_id now bytes st = Ok (t, st') -> st_requests st' = st_requests st.
Proof. unfold reserve_budget. intros Hr. by apply bind_Ok in Hr as (b & _ & [= _ <-]). Qed.

Lemma insert_request_Ok room_id request_id row st t st' :
  insert_request room_id request_id row st = Ok (t, st') ->
  (pending row = true -> pending_exists room_id (rr_session_id row) st = false) /\
  st_requests st !! (room_id, request_id) = None /\
  st_requests st' = <[(room_id, request_id) := row]> (st_requests st).
Proof.
  unfold insert_request. intros Hr. apply bind_Ok in Hr as (? & Hb%reject_if_Ok & Hr).
  apply bind_Ok in Hr as (rs & [Hn ->]%insert_row_Ok & [= _ <-]). split_and!; [|done|done].
  intros Hp. rewrite Hp in Hb. by destruct (pending_exists _ _ _); bool_to_prop.
Qed.

Lemma pending_exists_false room_id session_id st k r :
  pending_exists room_id session_id st = false -> st_requests st !! k = Some r -> pending r = true ->
  k.1 = room_id -> rr_session_id r = session_id -> False.
Proof.
  unfold pending_exists. intros Hn Hk Hp Hroom Hsess. bool_to_prop. apply list_empty_iff in Hn.
  assert ((k, r) ∈ select_requests (fun k r => str_eqb k.1 room_id && str_eqb (rr_session_id r) session_id && pending r) st) as Hin.
  { apply elem_of_matching. split; [done|]. rewrite Hp, (proj2 (str_eqb_true _ _) Hroom), (proj2 (str_eqb_true _ _) Hsess). done. }
  rewrite Hn in Hin. by apply elem_of_nil in Hin.
Qed.

Lemma open_in_step session input connection_id now st commit st' :
  open_in session input connection_id now st = Ok (commit, st') -> table_step (st_requests st) (st_requests st').
Proof.
  unfold open_in. intros Hr. apply rtx_bind_Ok in Hr as (? & st1 & Hl & Hr). apply lift_Ok in Hl as [_ <-].
  apply rtx_bind_Ok in Hr as ([r1 agent] & st1 & Hl & Hr). apply reads_Ok in Hl as [_ <-].
  apply rtx_bind_Ok in Hr as (? & st1 & Hl & Hr). apply lift_Ok in Hl as [_ <-].
  apply rtx_bind_Ok in Hr as ([r2 owner] & st1 & Hl & Hr). apply reads_Ok in Hl as [_ <-].
  apply rtx_bind_Ok in Hr as (? & st1 & Hl & Hr). apply lift_Ok in Hl as [_ <-].
  apply rtx_bind_Ok in Hr as (existing & st1 & Hl & Hr). apply reads_Ok in Hl as [_ <-].
  destruct existing as [c|]; [apply rtx_ret_Ok in Hr as [_ <-]; apply table_step_same|].
  apply rtx_bind_Ok in Hr as (? & st1 & Hl & Hr). apply reads_Ok in Hl as [_ <-].
  apply rtx_bind_Ok in Hr as (? & st1 & Hl & Hr). apply lift_Ok in Hl as [_ <-]. cbv zeta in Hr.
  apply rtx_bind_Ok in Hr as (? & st1 & Hb%reserve_budget_requests & Hr).
  apply rtx_bind_Ok in Hr as (expires & st2 & Hl & Hr). apply lift_Ok in Hl as [_ <-].
  apply rtx_bind_Ok in Hr as (event & st2 & He%internal_event_requests & Hr).
  apply rtx_bind_Ok in Hr as (? & st3 & Hl & Hr). apply lift_Ok in Hl as [_ <-].
  apply rtx_bind_Ok in Hr as (? & st3 & Hi & Hr). apply rtx_ret_Ok in Hr as [_ <-].
  apply insert_request_Ok in Hi as (Hpend & Hfresh & ->). rewrite He, Hb in Hfresh |- *.
  apply TsOpen; [done|done|done|done|]. intros k r Hk Hp Hroom Hsess.
  eapply (pending_exists_false _ _ st2); [by apply Hpend|by rewrite He, Hb|done|done|done].
Qed.

Lemma resolve_step authority request_id resolution now st commit st' :
  resolve_provider_request authority request_id resolution now st = Ok (commit, st') ->
  exists principal row, authority st = Ok principal /\
    let room_id := pr_room_id principal in
    let fingerprint := response_fingerprint room_id request_id resolution in
    st_requests st !! (room_id, request_id) = Some row /\
    ((st' = st /\ rs_delivery commit = None /\ rr_resolution_fingerprint row = Some fingerprint) \/
     (rr_state row = RequestOpen /\ rr_resolution_fingerprint row = None /\
      (exists durable event_id,
        st_requests st' = <[(room_id, request_id) := claim_row durable fingerprint event_id row]> (st_requests st)) /\
      exists delivery, rs_delivery commit = Some delivery /\ dl_room_id delivery = room_id /\
        dl_request_id delivery = request_id /\ dl_fingerprint delivery = fingerprint)).
Proof.
  unfold resolve_provider_request. intros Hr. apply rtx_bind_Ok in Hr as (principal & st1 & Hl & Hr). apply reads_Ok in Hl as [Ha <-].
  cbv zeta in Hr. apply rtx_bind_Ok in Hr as (row & st1 & Hl & Hr). apply reads_Ok in Hl as [Hrow%ok_or_Ok <-].
  exists principal, row. split; [done|]. cbv zeta. split; [done|].
  apply rtx_bind_Ok in Hr as (session & st1 & Hl & Hr). apply reads_Ok in Hl as [_ <-].
  apply rtx_bind_Ok in Hr as (durable & st1 & Hl & Hr). apply lift_Ok in Hl as [_ <-].
  destruct (rr_resolution_fingerprint row) as [previous|] eqn:Ef.
  - apply rtx_bind_Ok in Hr as (? & st1 & Hl & Hr). apply lift_Ok in Hl as [Hp%require_Ok <-]. apply str_eqb_true in Hp as ->.
    apply rtx_bind_Ok in Hr as (event & st1 & Hl & Hr). apply reads_Ok in Hl as [_ <-].
    apply rtx_ret_Ok in Hr as [<- <-]. by left.
  - right. apply rtx_bind_Ok in Hr as (? & st1 & Hl & Hr). apply lift_Ok in Hl as [Hopen%reject_if_Ok <-]. bool_to_prop.
    apply rtx_bind_Ok in Hr as (? & st1 & Hb%reserve_budget_requests & Hr).
    apply rtx_bind_Ok in Hr as (event & st2 & He%internal_event_requests & Hr).
    apply rtx_bind_Ok in Hr as (? & st3 & Hu%update_request_Ok & Hr). apply rtx_ret_Ok in Hr as [<- <-]. subst st3.
    split; [done|]. split; [done|]. split; [|by eexists].
    eexists durable, (ev_id event). simpl. rewrite He, Hb. apply map_eq. intros k.
    destruct (decide (k = (pr_room_id principal, request_id))) as [->|Hne].
    + by rewrite lookup_alter_eq, lookup_insert_eq, Hrow.
    + by rewrite lookup_alter_ne, lookup_insert_ne.
Qed.

Lemma close_in_step room_id request_id row state now st event st' :
  table_ok (st_requests st) -> st_requests st !! (room_id, request_id) = Some row -> pending_state state = false ->
  (rr_state row <> state -> pending row = true) -> (state = RequestResolved -> rr_state row <> state -> rr_state row = RequestResolving) ->
  close_in room_id request_id row state now st = Ok (event, st') -> table_step (st_requests st) (st_requests st').
Proof.
  intros Hok Hrow Hs Hp Hres Hr. apply close_in_Ok in Hr as [_ [(_ & _ & ->)|[Hc Heq]]]; [apply table_step_same|].
  assert (pending row = true) as Hpr by (by apply (to_closed _ Hok _ _ Hrow)).
  assert (rr_state row <> state) as Hne by (intros Hst; unfold pending in Hpr; congruence).
  eapply (closes_step [((room_id, request_id), row)]).
  - intros e He. apply list_elem_of_singleton in He as ->. done.
  - rewrite Heq. intros k. destruct (decide (k = (room_id, request_id))) as [->|Hk].
    + right. exists row, state, (ev_id event). rewrite lookup_alter_eq, Hrow. split; [by left|]. split; [|done]. split; [done|]. split; [done|]. intros He. by apply Hres.
    + left. by rewrite lookup_alter_ne.
Qed.

Lemma complete_step delivery outcome now st event st' :
  table_ok (st_requests st) -> complete_provider_request_delivery delivery outcome now st = Ok (event, st') ->
  table_step (st_requests st) (st_requests st').
Proof.
  intros Hok Hr. unfold complete_provider_request_delivery in Hr.
  apply rtx_bind_Ok in Hr as (row & st1 & Hl & Hr). apply reads_Ok in Hl as [Hrow%ok_or_Ok <-].
  apply rtx_bind_Ok in Hr as (? & st1 & Hl & Hr). apply lift_Ok in Hl as [_ <-].
  apply rtx_bind_Ok in Hr as (? & st1 & Hl & Hr). apply lift_Ok in Hl as [Hst%reject_if_Ok <-].
  apply rtx_bind_Ok in Hr as (? & st1 & Hl & Hr).
  assert (st1 = st) as ->.
  { destruct (bool_decide (outcome_state outcome = RequestResolved) && _) in Hl; [|by apply rtx_ret_Ok in Hl as [_ <-]].
    apply rtx_bind_Ok in Hl as (? & s1 & Hl1 & Hl). apply lift_Ok in Hl1 as [_ <-].
    apply rtx_bind_Ok in Hl as (? & s1 & Hl1 & Hl). apply reads_Ok in Hl1 as [_ <-]. by apply reads_Ok in Hl as [_ <-]. }
  assert (rr_state row <> outcome_state outcome -> rr_state row = RequestResolving) as Hresolving.
  { intros Hne. apply andb_false_iff in Hst as [Hst|Hst]; apply negb_false_iff, bool_decide_eq_true in Hst; done. }
  eapply (close_in_step _ _ _ (outcome_state outcome)); [done|exact Hrow|by destruct outcome| | |exact Hr].
  - intros Hne. apply pending_iff. right. by apply Hresolving.
  - intros _. done.
Qed.

Lemma expire_step room_id request_id now st event st' :
  table_ok (st_requests st) -> expire_provider_request room_id request_id now st = Ok (event, st') ->
  table_step (st_requests st) (st_requests st').
Proof.
  intros Hok Hr. unfold expire_provider_request in Hr.
  apply rtx_bind_Ok in Hr as (row & st1 & Hl & Hr). apply reads_Ok in Hl as [Hrow%ok_or_Ok <-].
  destruct (pending row && _) eqn:E; [|apply rtx_ret_Ok in Hr as [_ <-]; apply table_step_same]. bool_to_prop.
  apply rtx_bind_Ok in Hr as (ev & st1 & Hc & Hr). apply rtx_ret_Ok in Hr as [_ <-].
  eapply (close_in_step _ _ _ RequestExpired); [done|exact Hrow|done|done|done|exact Hc].
Qed.

Lemma request_op_step st st' :
  table_ok (st_requests st) -> request_op st st' -> table_step (st_requests st) (st_requests st').
Proof.
  intros Hok Hop. destruct Hop as [r s q now c Hr|f c q now cm Hr|a q res now c Hr|d o now e Hr|r q now e Hr|r s g x now es Hr|r p now t Hr|s now e Hr|now Hr| ->].
  - unfold open_managed_provider_request in Hr. apply rtx_bind_Ok in Hr as (? & st1 & Hl & Hr). apply reads_Ok in Hl as [_ <-].
    apply rtx_bind_Ok in Hr as (? & st1 & Hl & Hr). apply reads_Ok in Hl as [_ <-]. by eapply open_in_step.
  - unfold open_attendee_provider_request in Hr. apply rtx_bind_Ok in Hr as (? & st1 & Hl & Hr). apply reads_Ok in Hl as [_ <-].
    apply rtx_bind_Ok in Hr as (? & st1 & Hl & Hr). apply reads_Ok in Hl as [_ <-]. by eapply open_in_step.
  - apply resolve_step in Hr as (p & row & _ & Hk & [(-> & _)|(Hst & Hf & (du & eid & ->) & _)]); [apply table_step_same|by apply TsClaim].
  - by eapply complete_step.
  - by eapply expire_step.
  - by eapply cancel_execution_step.
  - by eapply cancel_participant_step.
  - by eapply session_state_event_step.
  - by eapply fail_batch_step.
  - apply table_step_same.
Qed.

Lemma request_history_ok st st' :
  table_ok (st_requests st) -> rtc request_op st st' -> table_ok (st_requests st').
Proof. intros Hok Hs. induction Hs as [|a b c Hab _ IH]; [done|]. apply IH. eapply table_step_ok; [exact Hok|by apply request_op_step]. Qed.

(** What one step of the table keeps is kept by every sequence of operations. *)
Lemma request_history_keeps (P : request_table -> Prop) st st' :
  (forall t t', table_ok t -> P t -> table_step t t' -> P t') ->
  table_ok (st_requests st) -> P (st_requests st) -> rtc request_op st st' -> P (st_requests st').
Proof.
  intros HP Hok Hst Hs. induction Hs as [|a b c Hab _ IH]; [done|]. apply request_op_step in Hab as Hstep; [|done].
  apply IH; [by eapply table_step_ok|by eapply HP].
Qed.

Lemma table_ok_empty : table_ok ∅.
Proof. split; intros *; by rewrite lookup_empty. Qed.

(** *** Ending what waits before the server admits anyone *)

(** The rows of a loop that closes each of them have ended. *)
Lemma for_each_ends rows f st t st' :
  NoDup (map fst rows) ->
  (forall e st t st', e ∈ rows -> st_requests st !! e.1 = Some e.2 -> f e st = Ok (t, st') ->
     appends st st' /\ closes_one e (st_requests st) (st_requests st') /\
     forall r, st_requests st' !! e.1 = Some r -> pending r = false) ->
  (forall e, e ∈ rows -> st_requests st !! e.1 = Some e.2) ->
  for_each rows f st = Ok (t, st') ->
  forall e r, e ∈ rows -> st_requests st' !! e.1 = Some r -> pending r = false.
Proof.
  revert st. induction rows as [|e rows IH]; intros st Hnd Hf Hrows Hr; simpl in *; [by intros e r ?%elem_of_nil|].
  apply NoDup_cons in Hnd as [Hnotin Hnd]. apply rtx_bind_Ok in Hr as (t1 & st1 & He & Hr).
  apply Hf in He as (Happ & Hone & Hend); [|by left|by apply Hrows; left].
  assert (forall e', e' ∈ rows -> e'.1 <> e.1) as Hne.
  { intros e' He' Heq. apply Hnotin. rewrite <- Heq. apply list_elem_of_fmap. by exists e'. }
  assert (forall e', e' ∈ rows -> st_requests st1 !! e'.1 = Some e'.2) as Hrows1.
  { intros e' He'. rewrite (closes_one_other _ _ _ _ Hone) by auto. apply Hrows. by right. }
  intros e' r [-> |He']%elem_of_cons; [|eapply IH; try done; intros e0 s0 t0 s0' Hin; apply Hf; by right].
  assert (closes rows (st_requests st1) (st_requests st')) as Hc.
  { eapply for_each_closes; [done| |done|exact Hr]. intros e0 s0 t0 s0' Hin H0' Hrun.
    destruct (Hf e0 s0 t0 s0') as (? & ? & _); [by right|done|done|done]. }
  destruct (Hc e.1) as [->|(r0 & s & eid & Hin & _)]; [apply Hend|].
  exfalso. apply Hnotin. apply list_elem_of_fmap. by exists (e.1, r0).
Qed.

(** A batch closes at least one request that waited, and leaves none behind that did not wait. *)
Lemma fail_batch_ends now st st' :
  table_ok (st_requests st) -> fail_batch now st = Ok (Some st') ->
  (forall k r, st_requests st' !! k = Some r -> pending r = true -> st_requests st !! k = Some r) /\
  exists k r, st_requests st !! k = Some r /\ pending r = true /\
    (forall r', st_requests st' !! k = Some r' -> pending r' = false).
Proof.
  intros Hok (rows & events & Hne & Hnd & Hrows & Hc)%fail_batch_Ok. split.
  { intros k r Hk Hp. apply close_all_step in Hc as [_ Hc]; [|done..].
    destruct (Hc k) as [Heq|(r0 & s & eid & _ & (_ & Hs & _) & Heq)]; rewrite Heq in Hk; [done|].
    injection Hk as <-. unfold pending in Hp. simpl in Hp. congruence. }
  destruct rows as [|e rows]; [done|]. destruct (Hrows e) as [He Hp]; [by left|]. exists e.1, e.2. split_and!; [done|done|].
  intros r'. apply for_map_for_each in Hc. eapply for_each_ends; [exact Hnd| | |exact Hc|by left].
  - intros e0 s0 t0 s0' Hin He0 Hrun. apply rtx_bind_Ok in Hrun as (ev & s1 & Hcl & Hrun). apply rtx_ret_Ok in Hrun as [_ <-].
    destruct (Hrows _ Hin) as [He0' Hp0]. assert (rr_closed_event_id e0.2 = None) as Hopen by (by eapply to_closed).
    destruct (close_in_closes e0 RequestFailed now s0 ev s1) as [Ha Hone]; [done..|]. split_and!; [done|done|].
    apply close_in_Ok in Hcl as [_ [[Hn _]|[_ Heq]]]; [done|]. rewrite Heq, <- surjective_pairing, lookup_alter_eq, He0.
    by intros r [= <-].
  - intros e0 Hin. by apply Hrows.
Qed.

(** The number of requests that wait. *)
Definition pending_count (t : request_table) : nat := size (filter (fun e => pending e.2 = true) t).

Lemma fail_batch_decreases now st st' :
  table_ok (st_requests st) -> fail_batch now st = Ok (Some st') ->
  (pending_count (st_requests st') < pending_count (st_requests st))%nat.
Proof.
  intros Hok Hr. destruct (fail_batch_ends _ _ _ Hok Hr) as (Hkept & k & r & Hk & Hp & Hend).
  apply map_subset_size. split.
  - apply map_subseteq_spec. intros k' r'. rewrite !map_lookup_filter_Some. simpl. intros [Hk' Hp']. auto.
  - intros Hsub. rewrite map_subseteq_spec in Hsub.
    assert (filter (fun e => pending e.2 = true) (st_requests st') !! k = Some r) as Hf.
    { apply Hsub, map_lookup_filter_Some. done. }
    apply map_lookup_filter_Some in Hf as [Hk' _]. apply Hend in Hk'. congruence.
Qed.

Lemma fail_batch_none now st k r :
  fail_batch now st = Ok None -> st_requests st !! k = Some r -> pending r = false.
Proof.
  unfold fail_batch. intros Hn Hk. destruct (pending r) eqn:Hp; [exfalso|done].
  assert ((k, r) ∈ select_requests (fun _ r => pending r) st) as Hin by (by apply elem_of_matching).
  destruct (select_requests _ st) as [|e rows]; [by apply elem_of_nil in Hin|]. simpl in Hn.
  by apply bind_Ok in Hn as ([? ?] & _ & ?).
Qed.

(** ** Theorems *)

(** C29: whatever sequence of openings, answers, deliveries, expiries and cancellations
    happens, a session never has two provider requests waiting. *)
Theorem one_request_at_a_time (st0 st : RoomStore) (k1 k2 : str * str) (r1 r2 : ProviderRequestRow)
    (Hnone : st_requests st0 = ∅) (Hhistory : rtc request_op st0 st)
    (Hr1 : st_requests st !! k1 = Some r1) (Hr2 : st_requests st !! k2 = Some r2)
    (Hp1 : pending r1 = true) (Hp2 : pending r2 = true)
    (Hroom : k1.1 = k2.1) (Hsession : rr_session_id r1 = rr_session_id r2) :
  k1 = k2.
Proof.
  eapply (to_one (st_requests st)); try done. eapply request_history_ok; [|exact Hhistory]. rewrite Hnone. apply table_ok_empty.
Qed.

(** C28: the answer to a provider's request is handed to the provider at most once: after
    one answer has been accepted, whatever happens in between, answering again changes
    nothing and delivers nothing, and is accepted only with the same fingerprint. *)
Theorem response_claimed_once (st st1 st2 st3 : RoomStore) (authority authority' : RoomStore -> tx AuthenticatedPrincipal)
    (principal : AuthenticatedPrincipal) (request_id : str) (resolution resolution' : ProviderRequestResolution)
    (now now' : instant) (commit commit' : ProviderRequestResolutionCommit) (delivery : ProviderRequestDelivery)
    (Hok : table_ok (st_requests st))
    (Hresolve : resolve_provider_request authority request_id resolution now st = Ok (commit, st1))
    (Hdelivery : rs_delivery commit = Some delivery) (Hhistory : rtc request_op st1 st2)
    (Hprincipal : authority' st2 = Ok principal) (Hroom : pr_room_id principal = dl_room_id delivery)
    (Hagain : resolve_provider_request authority' request_id resolution' now' st2 = Ok (commit', st3)) :
  rs_delivery commit' = None /\ st3 = st2 /\
  response_fingerprint (dl_room_id delivery) request_id resolution' = dl_fingerprint delivery.
Proof.
  assert (request_op st st1) as Hop by (eapply RoResolve; exact Hresolve). pose proof (request_op_step _ _ Hok Hop) as Hstep. apply table_step_ok in Hstep as Hok1; [|done].
  apply resolve_step in Hresolve as (p & row & _ & Hk & [(_ & Hn & _)|(_ & _ & (du & eid & Heq) & d & Hd & Hdr & _ & Hdf)]); [congruence|].
  assert (d = delivery) as -> by congruence. rewrite <- Hdr in *.
  apply resolve_step in Hagain as (p' & row' & Hp' & Hk' & Hcase). assert (p' = principal) as -> by congruence. rewrite Hroom in *.
  assert (exists r, st_requests st2 !! (dl_room_id delivery, request_id) = Some r /\
    rr_resolution_fingerprint r = Some (dl_fingerprint delivery)) as (r & Hr & Hf).
  { apply (request_history_keeps (fun t => exists r, t !! (dl_room_id delivery, request_id) = Some r /\
      rr_resolution_fingerprint r = Some (dl_fingerprint delivery))) with st1; try done.
    - intros t t' Ht (r & Hr & Hf) Hs. by eapply table_step_claimed.
    - eexists. rewrite Heq, lookup_insert_eq. split; [done|]. simpl. by rewrite Hdf. }
  destruct Hcase as [(-> & Hn & Hfp)|(_ & Hfp & _)]; split_and!; congruence.
Qed.

(** The store without what was kept to recognize an answer that is sent again. *)
Definition without_fingerprint (key : str * str) (st : RoomStore) : RoomStore :=
  st <| st_requests := alter (fun r => r <| rr_resolution_fingerprint := None |>) key (st_requests st) |>.

(** C30: of two answers to a request that agree on the questions that are not secret, what
    is stored and published is the same, but for the fingerprint by which a repeated answer
    is recognized, which is the HMAC of the whole answer under the key of the host. *)
Theorem stored_answers_hide_secrets (authority : RoomStore -> tx AuthenticatedPrincipal) (principal : AuthenticatedPrincipal)
    (request_id : str) (row : ProviderRequestRow) (a b : gmap str (list str)) (now : instant) (st st_a st_b : RoomStore)
    (commit_a commit_b : ProviderRequestResolutionCommit)
    (Hprincipal : authority st = Ok principal) (Hrow : st_requests st !! (pr_room_id principal, request_id) = Some row)
    (Ha : resolve_provider_request authority request_id (ResolveAnswers a) now st = Ok (commit_a, st_a))
    (Hb : resolve_provider_request authority request_id (ResolveAnswers b) now st = Ok (commit_b, st_b))
    (Hagree : forall questions q, rq_prompt (rr_request row) = PromptAnswers questions -> q ∈ questions -> rqn_is_secret q = false ->
      a !! rqn_id q = b !! rqn_id q) :
  let key := (pr_room_id principal, request_id) in
  without_fingerprint key st_a = without_fingerprint key st_b /\ rs_event commit_a = rs_event commit_b /\
  (rr_resolution_fingerprint <$> st_requests st_a !! key) =
    Some (Some (response_fingerprint (pr_room_id principal) request_id (ResolveAnswers a))).
Proof.
  cbv zeta. assert (Hkept : (rr_resolution_fingerprint <$> st_requests st_a !! (pr_room_id principal, request_id)) =
    Some (Some (response_fingerprint (pr_room_id principal) request_id (ResolveAnswers a)))).
  { destruct (resolve_step _ _ _ _ _ _ _ Ha) as (p & r & Hp & Hr & Hcase). assert (p = principal) as -> by congruence.
    destruct Hcase as [(-> & _ & Hf)|(_ & _ & (du & eid & ->) & _)]; [by rewrite Hr; simpl; rewrite Hf|by rewrite lookup_insert_eq]. }
  match goal with |- ?same /\ ?events /\ _ => enough (same /\ events) as [??] by done end. clear Hkept. unfold resolve_provider_request in Ha, Hb.
  apply rtx_bind_Ok in Ha as (p & st1 & [Hp <-]%reads_Ok & Ha). apply rtx_bind_Ok in Hb as (p' & st1 & [Hp' <-]%reads_Ok & Hb).
  assert (p = principal) as -> by congruence. assert (p' = principal) as -> by congruence. cbv zeta in Ha, Hb.
  apply rtx_bind_Ok in Ha as (r & st1 & [Hr%ok_or_Ok <-]%reads_Ok & Ha). apply rtx_bind_Ok in Hb as (r' & st1 & [Hr'%ok_or_Ok <-]%reads_Ok & Hb).
  simpl in Hr, Hr'. assert (r = row) as -> by congruence. assert (r' = row) as -> by congruence.
  apply rtx_bind_Ok in Ha as (s & st1 & [Hs <-]%reads_Ok & Ha). apply rtx_bind_Ok in Hb as (s' & st1 & [Hs' <-]%reads_Ok & Hb).
  assert (s' = s) as -> by congruence.
  apply rtx_bind_Ok in Ha as (da & st1 & [Hda%ok_or_Ok <-]%lift_Ok & Ha). apply rtx_bind_Ok in Hb as (db & st1 & [Hdb%ok_or_Ok <-]%lift_Ok & Hb).
  pose proof (durable_resolution_hides_secrets _ _ _ _ _ Hda Hdb Hagree) as <-.
  destruct (rr_resolution_fingerprint row) as [previous|].
  - apply rtx_bind_Ok in Ha as (? & st1 & [_ <-]%lift_Ok & Ha). apply rtx_bind_Ok in Hb as (? & st1 & [_ <-]%lift_Ok & Hb).
    apply rtx_bind_Ok in Ha as (e & st1 & [He <-]%reads_Ok & Ha). apply rtx_bind_Ok in Hb as (e' & st1 & [He' <-]%reads_Ok & Hb).
    apply rtx_ret_Ok in Ha as [<- <-]. apply rtx_ret_Ok in Hb as [<- <-]. simpl. split; congruence.
  - apply rtx_bind_Ok in Ha as (? & st1 & [_ <-]%lift_Ok & Ha). apply rtx_bind_Ok in Hb as (? & st1 & [_ <-]%lift_Ok & Hb).
    apply rtx_bind_Ok in Ha as (? & sa & Ra & Ha). apply rtx_bind_Ok in Hb as (? & sb & Rb & Hb). rewrite Ra in Rb. injection Rb as _ <-.
    apply rtx_bind_Ok in Ha as (ea & sa' & Ea & Ha). apply rtx_bind_Ok in Hb as (eb & sb' & Eb & Hb). rewrite Ea in Eb. injection Eb as <- <-.
    apply rtx_bind_Ok in Ha as (? & sa'' & Ua%update_request_Ok & Ha). apply rtx_bind_Ok in Hb as (? & sb'' & Ub%update_request_Ok & Hb).
    apply rtx_ret_Ok in Ha as [<- <-]. apply rtx_ret_Ok in Hb as [<- <-]. subst. split; [|done]. unfold without_fingerprint. simpl. f_equal.
    rewrite !alter_alter_eq. by apply alter_ext.
Qed.

(** a provider request that has ended keeps its row for ever: its end is never changed,
    reopened or answered. *)
Theorem closed_request_is_final (st st' : RoomStore) (k : str * str) (r : ProviderRequestRow)
    (Hok : table_ok (st_requests st)) (Hr : st_requests st !! k = Some r) (Hend : pending r = false)
    (Hhistory : rtc request_op st st') :
  st_requests st' !! k = Some r.
Proof.
  eapply (request_history_keeps (fun t => t !! k = Some r)); [|exact Hok|done|exact Hhistory].
  intros t t' _ Ht Hs. by eapply table_step_final.
Qed.

(** C31: the loop that fails all waiting requests before the server admits anyone ends after
    at most one batch for each waiting request, and when it succeeds no request waits. *)
Theorem fail_requests_terminates (fuel : nat) (now : instant) (st : RoomStore)
    (Hok : table_ok (st_requests st)) (Hfuel : (pending_count (st_requests st) < fuel)%nat) :
  exists st' outcome, fail_provider_requests_before_admission fuel now st = Some (st', outcome) /\
    (outcome = Ok tt -> forall k r, st_requests st' !! k = Some r -> pending r = false).
Proof.
  revert st Hok Hfuel. induction fuel as [|fuel IH]; intros st Hok Hfuel; [lia|]. simpl.
  destruct (fail_batch now st) as [[st1|]|e] eqn:E.
  - apply IH; [eapply table_step_ok, fail_batch_step; done|]. apply fail_batch_decreases in E; [lia|done].
  - exists st, (Ok tt). split; [done|]. intros _ k r. by eapply fail_batch_none.
  - by exists st, (Err e).
Qed.

End request_steps.

(** ** Concrete inputs *)

Definition accept_uuid : UuidCrate := fun s => Some s.
Definition every_instant : ChronoRange := fun _ => true.
Definition no_parent : AttendeeParent := fun _ _ _ _ => Err session_revoked.
Definition demo_serde : RequestSerde :=
  {| request_json := rq_provider_request_id; request_value := fun _ => VNull; durable_json := fun _ => [];
     durable_value := fun _ => VNull;
     answer_json := fun room_id request_id r => match r with ResolveAnswers a => concat (concat (map snd (map_to_list a))) | _ => [] end;
     session_value := fun _ => VNull |}.
Definition demo_hmac : HostHmac := fun s => s.
Definition demo_chrono : Chrono := {| to_rfc3339 := fun _ => []; datetime_json := fun _ => []; parse_rfc3339 := fun _ => None |}.
#[local] Existing Instances demo_entropy accept_uuid every_instant no_parent no_urls demo_serde demo_hmac demo_chrono.

(** Agent-1 runs its first turn and asks; Ann, who owns it, answers. *)
Definition demo_running : ProviderTurnExecution :=
  {| pe_execution_id := u "x1"; pe_participant_id := u "agent-1"; pe_turn_id := u "turn-1"; pe_phase := ExecRunning;
     pe_runtime_handle_id := d_runtime_handle_id demo_turn; pe_runtime_owner_id := d_runtime_owner_id demo_turn;
     pe_runtime_lease_token := d_runtime_lease_token demo_turn; pe_start_dispatch_nonce := u "n"; pe_provider_turn_id := u "p1";
     pe_requeue_finalized := false;
     pe_assignment := {| ae_delivery_kind := OrderedObservation; ae_provider_input := u "input"; ae_room_view := u "view";
       ae_attachment_ids := []; ae_room_agent_ids := []; ae_tabletop_tools := false |} |}.
Definition demo_asking : RoomStore :=
  (demo_with "ordered" [demo_turn]) <| st_executions := {[session_execution_key demo_turn := demo_running]} |>.
Abbreviation demo_open :=
  (open_managed_provider_request (u "room") (u "agent-1") (MkOpenRequest 1 (u "x1") demo_provider_request) 1000)
  (only parsing).
Definition no_event : RoomEvent := demo_message "none" 0 "".
Definition no_request_commit : ProviderRequestCommit := MkRequestCommit [] no_event 0 false.
Definition demo_asked : RoomStore := step no_request_commit demo_open demo_asking.
Definition demo_owner : AuthenticatedPrincipal :=
  {| pr_principal_id := u "ann"; pr_participant_id := u "ann"; pr_display_name := u "Ann"; pr_room_id := u "room";
     pr_client_kind := Browser; pr_invite_scope := ReadWrite; pr_is_operator := false;
     pr_capabilities := capabilities_for_principal Browser ReadWrite false |}.
Abbreviation demo_resolve := (resolve_provider_request (fun _ => Ok demo_owner) (rq_provider_request_id demo_provider_request)
  (ResolveAnswers (demo_answers "first")) 2000) (only parsing).
Definition no_resolution_commit : ProviderRequestResolutionCommit := MkResolutionCommit no_event None.
Definition demo_resolving : RoomStore := step no_resolution_commit demo_resolve demo_asked.
Definition demo_resolution_commit : ProviderRequestResolutionCommit := value_of no_resolution_commit demo_resolve demo_asked.
Definition no_delivery : ProviderRequestDelivery := MkRequestDelivery [] [] [] 0 [] [] (ResolveAnswers ∅).
Definition demo_delivery : ProviderRequestDelivery := default no_delivery (rs_delivery demo_resolution_commit).
Abbreviation demo_deliver := (complete_provider_request_delivery demo_delivery OutcomeDelivered 3000) (only parsing).
Definition demo_delivered : RoomStore := step no_event demo_deliver demo_resolving.
Definition demo_request_key : str * str := (u "room", rq_provider_request_id demo_provider_request).
Definition demo_request_state (st : RoomStore) : option ProviderRequestState := rr_state <$> st_requests st !! demo_request_key.

Example demo_request_history :
  map demo_request_state [demo_asking; demo_asked; demo_resolving; demo_delivered] =
  [None; Some RequestOpen; Some RequestResolving; Some RequestResolved].
Proof. vm_compute. reflexivity. Qed.

Lemma demo_asked_Ok : demo_open demo_asking = Ok (value_of no_request_commit demo_open demo_asking, demo_asked).
Proof. refine (step_Ok no_request_commit (demo_open) demo_asking _). by vm_compute. Qed.
Lemma demo_resolving_Ok : demo_resolve demo_asked = Ok (demo_resolution_commit, demo_resolving).
Proof. refine (step_Ok no_resolution_commit (demo_resolve) demo_asked _). by vm_compute. Qed.
Lemma demo_again_Ok : demo_resolve demo_resolving = Ok (value_of no_resolution_commit demo_resolve demo_resolving, step no_resolution_commit demo_resolve demo_resolving).
Proof. refine (step_Ok no_resolution_commit (demo_resolve) demo_resolving _). by vm_compute. Qed.
Lemma demo_delivered_Ok : demo_deliver demo_resolving = Ok (value_of no_event demo_deliver demo_resolving, demo_delivered).
Proof. refine (step_Ok no_event (demo_deliver) demo_resolving _). by vm_compute. Qed.
Lemma demo_delivery_Some : rs_delivery demo_resolution_commit = Some demo_delivery.
Proof.
  unfold demo_delivery. assert (negb (bool_decide (rs_delivery demo_resolution_commit = None)) = true) as Hn by (by vm_compute).
  by destruct (rs_delivery demo_resolution_commit).
Qed.

Definition no_row : ProviderRequestRow :=
  MkRequestRow [] 0 [] [] demo_provider_request 0 RequestFailed [] None None None None None.
Definition demo_request_row (st : RoomStore) : ProviderRequestRow := default no_row (st_requests st !! demo_request_key).
Lemma demo_request_row_Some st : negb (bool_decide (st_requests st !! demo_request_key = None)) = true ->
  st_requests st !! demo_request_key = Some (demo_request_row st).
Proof. unfold demo_request_row. by destruct (st_requests st !! demo_request_key). Qed.

Lemma demo_asking_table : table_ok (st_requests demo_asking).
Proof. exact table_ok_empty. Qed.
Lemma demo_op_asked : request_op demo_asking demo_asked.
Proof. eapply RoOpenManaged. exact demo_asked_Ok. Qed.
Lemma demo_op_resolving : request_op demo_asked demo_resolving.
Proof. eapply RoResolve. exact demo_resolving_Ok. Qed.
Lemma demo_op_delivered : request_op demo_resolving demo_delivered.
Proof. eapply RoComplete. exact demo_delivered_Ok. Qed.
Lemma demo_asked_table : table_ok (st_requests demo_asked).
Proof. eapply request_history_ok; [exact demo_asking_table|apply rtc_once, demo_op_asked]. Qed.
Lemma demo_delivered_table : table_ok (st_requests demo_delivered).
Proof.
  eapply request_history_ok; [exact demo_asked_table|].
  eapply rtc_l; [exact demo_op_resolving|apply rtc_once, demo_op_delivered].
Qed.

Lemma one_request_at_a_time_witness : demo_request_key = demo_request_key.
Proof.
  apply (one_request_at_a_time demo_asking demo_asked _ _ (demo_request_row demo_asked) (demo_request_row demo_asked));
    [reflexivity|apply rtc_once, demo_op_asked|..|reflexivity|reflexivity].
  1,2: apply demo_request_row_Some; by vm_compute.
  all: by vm_compute.
Defined.

Lemma response_claimed_once_witness :
  rs_delivery (value_of no_resolution_commit demo_resolve demo_resolving) = None /\
  step no_resolution_commit demo_resolve demo_resolving = demo_resolving /\
  response_fingerprint (dl_room_id demo_delivery) (rq_provider_request_id demo_provider_request)
    (ResolveAnswers (demo_answers "first")) = dl_fingerprint demo_delivery.
Proof.
  refine (response_claimed_once demo_asked demo_resolving demo_resolving _ (fun _ => Ok demo_owner) (fun _ => Ok demo_owner)
    demo_owner _ _ _ 2000 2000 _ _ demo_delivery demo_asked_table demo_resolving_Ok demo_delivery_Some (rtc_refl _ _)
    eq_refl _ demo_again_Ok).
  by vm_compute.
Defined.

(** The same, with another password. *)
Abbreviation demo_resolve_again := (resolve_provider_request (fun _ => Ok demo_owner) (rq_provider_request_id demo_provider_request)
  (ResolveAnswers (demo_answers "second")) 2000) (only parsing).
Definition demo_other_password : RoomStore := step no_resolution_commit demo_resolve_again demo_asked.
Definition demo_other_commit : ProviderRequestResolutionCommit := value_of no_resolution_commit demo_resolve_again demo_asked.
Lemma demo_other_password_Ok : demo_resolve_again demo_asked = Ok (demo_other_commit, demo_other_password).
Proof. refine (step_Ok no_resolution_commit demo_resolve_again demo_asked _). by vm_compute. Qed.
Example demo_fingerprints_differ :
  bool_decide (rr_resolution_fingerprint (demo_request_row demo_resolving) =
               rr_resolution_fingerprint (demo_request_row demo_other_password)) = false.
Proof. by vm_compute. Qed.
Lemma demo_asked_prompt : rr_request (demo_request_row demo_asked) = demo_provider_request.
Proof. by vm_compute. Qed.
Lemma stored_answers_hide_secrets_witness :
  without_fingerprint demo_request_key demo_resolving = without_fingerprint demo_request_key demo_other_password /\
  rs_event demo_resolution_commit = rs_event demo_other_commit /\
  (rr_resolution_fingerprint <$> st_requests demo_resolving !! demo_request_key) =
    Some (Some (response_fingerprint (u "room") (rq_provider_request_id demo_provider_request) (ResolveAnswers (demo_answers "first")))).
Proof.
  refine (stored_answers_hide_secrets (fun _ => Ok demo_owner) demo_owner (rq_provider_request_id demo_provider_request)
    (demo_request_row demo_asked) (demo_answers "first") (demo_answers "second") 2000 demo_asked _ _ _ _ eq_refl _
    demo_resolving_Ok demo_other_password_Ok _).
  - apply demo_request_row_Some. by vm_compute.
  - rewrite demo_asked_prompt. exact demo_answers_agree.
Defined.

Lemma closed_request_is_final_witness :
  st_requests demo_delivered !! demo_request_key = Some (demo_request_row demo_delivered).
Proof.
  apply (closed_request_is_final demo_delivered demo_delivered demo_request_key _ demo_delivered_table);
    [apply demo_request_row_Some; by vm_compute|by vm_compute|apply rtc_refl].
Defined.

Lemma fail_requests_terminates_witness :
  exists st' outcome, fail_provider_requests_before_admission 2 4000 demo_asked = Some (st', outcome) /\
    (outcome = Ok tt -> forall k r, st_requests st' !! k = Some r -> pending r = false).
Proof. apply (fail_requests_terminates 2 4000 demo_asked demo_asked_table). vm_compute. lia. Defined.
