(* ===== verification/Observation.v ===== *)
(** * What a session is shown (agentsassemble-persistence/src/message_attachments.rs,
    room_turn_context.rs; agentsassemble-domain/src/provider_turn.rs)

    The visible payload of a stored message, and the bounded observation a turn
    hands the provider: the prefix of the queue it takes, the context around it
    and the view rendered from both. *)

From Stdlib Require Import String.
From stdpp Require Import gmap sorting.
From S2P Require Import Prelude Text Json Model Command Vote Settings Store Turn RoomStore.

(** ** Attachment metadata *)

Definition MAX_MESSAGE_ATTACHMENT_CONTENT_TYPE_BYTES : nat := 127.
Definition MAX_ATTACHMENT_BYTES : N := 10 * 1024 * 1024.
Definition MESSAGE_ATTACHMENT_REFERENCE_PREFIX : str := u "/api/attachments/".
Definition MESSAGE_ATTACHMENT_VIEW_SUFFIX : str := u "?view=1".
Definition MESSAGE_ATTACHMENT_DOWNLOAD_SUFFIX : str := u "?download=1".

Record MessageAttachmentMetadata : Type := MkAttachmentMetadata {
  ma_id : str;
  ma_filename : str;
  ma_content_type : str;
  ma_size : N;
  ma_is_image : bool;
  ma_url : str;
  ma_download_url : str
}.

Definition deserialize_attachment (v : value) : option MessageAttachmentMetadata :=
  fields ← struct_fields [u "id"; u "filename"; u "content_type"; u "size"; u "is_image"; u "url"; u "download_url"] v;
  match fields with
  | [VString id; VString filename; VString content_type; size; VBool is_image; VString url; VString download_url] =>
      n ← as_u64 size;
      Some (MkAttachmentMetadata id filename content_type n is_image url download_url)
  | _ => None
  end.

(** The text before and after the first slash. *)
Fixpoint split_once_slash (s : str) : option (str * str) :=
  match s with
  | [] => None
  | c :: s => if (c =? 47)%N then Some ([], s) else '(a, b) ← split_once_slash s; Some (c :: a, b)
  end.

Definition content_type_char (c : char) : bool :=
  is_ascii_lower c || is_ascii_digit c || contains (u ".+-") c.

Definition valid_content_type (s : str) : bool :=
  match split_once_slash s with
  | None => false
  | Some (top, subtype) =>
      negb (str_empty top) && negb (str_empty subtype) && all content_type_char (top ++ subtype)
  end.

Definition to_ascii_lowercase (s : str) : str :=
  map (fun c => if ((65 <=? c) && (c <=? 90))%N then (c + 32)%N else c) s.

Fixpoint before_semicolon (s : str) : str :=
  match s with
  | [] => []
  | c :: s => if (c =? 59)%N then [] else c :: before_semicolon s
  end.

(** raster_assets.rs *)
Definition is_safe_raster_content_type (content_type : str) : bool :=
  contains [u "image/png"; u "image/jpeg"; u "image/gif"; u "image/webp"]
    (to_ascii_lowercase (trim (before_semicolon content_type))).

Definition canonical_metadata (a : MessageAttachmentMetadata) : bool :=
  is_message_attachment_id (ma_id a)
  && str_eqb (canonical_message_attachment_filename (ma_filename a)) (ma_filename a)
  && bool_decide (byte_len (ma_content_type a) <= MAX_MESSAGE_ATTACHMENT_CONTENT_TYPE_BYTES)%nat
  && valid_content_type (ma_content_type a)
  && ((1 <=? ma_size a) && (ma_size a <=? MAX_ATTACHMENT_BYTES))%N
  && Bool.eqb (ma_is_image a) (is_safe_raster_content_type (ma_content_type a))
  && str_eqb (ma_url a) (MESSAGE_ATTACHMENT_REFERENCE_PREFIX ++ ma_id a ++ MESSAGE_ATTACHMENT_VIEW_SUFFIX)
  && str_eqb (ma_download_url a) (MESSAGE_ATTACHMENT_REFERENCE_PREFIX ++ ma_id a ++ MESSAGE_ATTACHMENT_DOWNLOAD_SUFFIX).

Definition invalid_attachment_state : PersistenceError :=
  invalid_state "Stored message attachment metadata is invalid.".
Definition invalid_message_state : PersistenceError :=
  invalid_state "Stored room message visible content is invalid.".

(** The loop over the attachments, [ids] those seen. *)
Fixpoint check_attachments (ids : list str) (l : list MessageAttachmentMetadata) : tx unit :=
  match l with
  | [] => Ok tt
  | a :: l =>
      if contains ids (ma_id a) || negb (canonical_metadata a) then Err invalid_attachment_state
      else check_attachments (ma_id a :: ids) l
  end.

Definition message_attachments_from_event (event : RoomEvent) : tx (list MessageAttachmentMetadata) :=
  match ev_extra event !! u "attachments" with
  | None => Ok []
  | Some v =>
      attachments ← ok_or (as_array v ≫= mapM deserialize_attachment) invalid_attachment_state;
      reject_if (bool_decide (MAX_MESSAGE_ATTACHMENTS_PER_EVENT < length attachments)%nat)
        invalid_attachment_state ;;
      check_attachments [] attachments ;;
      mret attachments
  end.

Definition message_attachment_ids_from_events (events : list RoomEvent) : tx (list str) :=
  attachments ← traverse message_attachments_from_event events;
  mret (fold_left (fun ids a => if contains ids (ma_id a) then ids else ids ++ [ma_id a]) (concat attachments) []).

(** ** provider_turn.rs *)

Definition MAX_PROVIDER_INPUT_CHARACTERS : nat := Z.to_nat 20000.
Definition MAX_PROVIDER_TURN_ID_BYTES : nat := 128.
Definition MAX_ROOM_OBSERVATION_AGENT_IDS : nat := 64.
Definition MAX_ROOM_VIEW_BYTES : nat := Z.to_nat (96 * 1024).
Definition MAX_ROOM_VIEW_CHARACTERS : nat := Z.to_nat 20000.
#[global] Opaque MAX_PROVIDER_INPUT_CHARACTERS MAX_ROOM_VIEW_BYTES.
#[global] Opaque MAX_ROOM_VIEW_CHARACTERS.

Definition canonical_bounded_id (value : str) (max_bytes : nat) : bool :=
  negb (str_empty value) && bool_decide (byte_len value <= max_bytes)%nat
  && str_eqb (trim value) value && negb (any is_control value).
Definition is_provider_turn_id (value : str) : bool := canonical_bounded_id value MAX_PROVIDER_TURN_ID_BYTES.

(** A message of the queue with the stored event it names. *)
Record PendingRoomEvent : Type := MkPendingRoomEvent { pre_input : QueuedRoomInput; pre_event : RoomEvent }.

Record PreparedRoomInput : Type := MkPreparedRoomInput {
  pri_provider_input : str;
  pri_room_view : str;
  pri_attachment_ids : list str;
  pri_inflight_inputs : list QueuedRoomInput;
  pri_source_event_id : str;
  pri_input_up_to_seq : Z;
  pri_room_agent_ids : list str
}.

(** persona_library.rs and persona_text.rs are not modelled: the context of the
    selected persona card, from the recent messages; empty without a card. *)
Class PersonaLibrary : Type := persona_context : str -> str -> RoomStore -> tx str.

Section observation.
Context `{UnicodeGeneralCategory, CharCase, Entropy, PersonaLibrary}.

Definition is_provider_input (value : str) : bool :=
  bool_decide (length value <= MAX_PROVIDER_INPUT_CHARACTERS)%nat && negb (contains value NUL) && has_visible_text value.
Definition is_room_observation_view (value : str) : bool :=
  bool_decide (length value <= MAX_ROOM_VIEW_CHARACTERS)%nat
  && bool_decide (byte_len value <= MAX_ROOM_VIEW_BYTES)%nat
  && negb (contains value NUL) && has_visible_text value.

(** ** The visible payload of a message *)

Definition message_visible_text (event : RoomEvent) : tx str :=
  let content := clean_message (default [] (ev_content event)) MAX_MESSAGE_CHARACTERS in
  if has_visible_text content then Ok content
  else if negb (bool_decide (ev_message_kind event = Some (u "vote"))) then Ok []
  else
    question ← ok_or (ev_extra event !! u "vote_question" ≫= as_str) invalid_message_state;
    let canonical := clean_message question VOTE_QUESTION_CHARACTER_LIMIT in
    reject_if (negb (str_eqb canonical question) || negb (has_visible_text canonical)) invalid_message_state ;;
    mret canonical.

Definition message_has_visible_payload (event : RoomEvent) : tx bool :=
  attachments ← message_attachments_from_event event;
  text ← message_visible_text event;
  mret (has_visible_text text || negb (list_empty attachments)).

(** ** The view *)

Definition context_floor (session : DurableAgentSession) : Z :=
  if str_eqb (s_runtime_kind (d_public session)) (u "api")
  then s_bootstrap_cutoff_seq (d_public session)
  else s_last_provider_sync_seq (d_public session).

Definition speaker_name (event : RoomEvent) : str :=
  default (ac_participant_id (ev_actor event)) (ev_display_name event).

Definition attachment_line (a : MessageAttachmentMetadata) : str :=
  u "  - Attachment `" ++ ma_id a ++ u "`: " ++ ma_filename a ++ u " (" ++ ma_content_type a ++ u "; "
  ++ show_N (ma_size a) ++ u " bytes)".

Definition event_lines (event : RoomEvent) : tx (list str) :=
  event_text ← message_visible_text event;
  attachments ← message_attachments_from_event event;
  if negb (has_visible_text event_text) && list_empty attachments then Ok []
  else Ok ((u "#" ++ show_Z (ev_seq event) ++ u " " ++ speaker_name event ++ u ": "
            ++ (if has_visible_text event_text then event_text else u "(attachments only)"))
           :: map attachment_line attachments).

(** [context_floor.saturating_add(1)] stays below the first event's sequence. *)
Definition starts_after_floor (session : DurableAgentSession) (context : list RoomEvent) : bool :=
  match context with
  | event :: _ => Z.min (context_floor session + 1) i64_max <? ev_seq event
  | [] => false
  end.

Definition render_room_view (room : Room) (session : DurableAgentSession) (room_agent_ids : list str)
    (context : list RoomEvent) : tx str :=
  lines ← traverse event_lines context;
  mret (join [LF]
    ([u "Room: " ++ rm_label room;
      u "You are: " ++ s_display_name (d_public session);
      u "Agent handles: " ++ (if list_empty room_agent_ids then u "none" else join (u ", ") room_agent_ids)]
     ++ (if starts_after_floor session context
         then [u "[Earlier room updates are outside this bounded observation.]"] else [])
     ++ concat lines)).

(** Whether a view of these events is within the character bound. *)
Definition view_fits (room : Room) (session : DurableAgentSession) (room_agent_ids : list str)
    (context : list RoomEvent) : tx bool :=
  view ← render_room_view room session room_agent_ids context;
  mret (bool_decide (length view <= MAX_ROOM_VIEW_CHARACTERS)%nat).

(** ** The prefix of the queue a turn takes *)

Definition MAX_CONTEXT_MESSAGES : nat := 50.

Fixpoint select_prefix (room : Room) (session : DurableAgentSession) (room_agent_ids : list str)
    (kind : RoomInputDeliveryKind) (selected pending : list PendingRoomEvent) : tx (list PendingRoomEvent) :=
  match pending with
  | [] => Ok selected
  | event :: pending =>
      if negb (bool_decide (qi_delivery_kind (pre_input event) = kind)) then Ok selected
      else
        let extended := selected ++ [event] in
        ids ← message_attachment_ids_from_events (map pre_event extended);
        if bool_decide (MAX_MESSAGE_ATTACHMENTS_PER_EVENT < length ids)%nat then Ok selected
        else
          fits ← view_fits room session room_agent_ids (map pre_event extended);
          if fits : bool then select_prefix room session room_agent_ids kind extended pending else Ok selected
  end.

Definition queued_room_event_invalid (message : string) : PersistenceError :=
  rejected_tx "queued_room_event_invalid" message.
Definition provider_turn_input_invalid (message : string) : PersistenceError :=
  rejected_tx "provider_turn_input_invalid" message.

Definition bounded_pending_prefix (room : Room) (session : DurableAgentSession) (room_agent_ids : list str)
    (pending : list PendingRoomEvent) : tx (list PendingRoomEvent) :=
  match pending with
  | [] => Err (queued_room_event_invalid "The room assignment has no provider-visible source message.")
  | first :: _ =>
      selected ← select_prefix room session room_agent_ids (qi_delivery_kind (pre_input first)) []
        (take MAX_CONTEXT_MESSAGES pending);
      reject_if (list_empty selected)
        (provider_turn_input_invalid "The oldest queued room message cannot fit the canonical observation bound.") ;;
      mret selected
  end.

(** What both readers of the queue require of the event an input names. *)
Definition checked_input_event (session : DurableAgentSession) (message : string) (previous_seq : Z)
    (input : QueuedRoomInput) (st : RoomStore) : tx RoomEvent :=
  event ← load_event (s_room_id (d_public session)) (qi_event_id input) st;
  event ← ok_or event (rejected_tx "room_event_missing" "Queued room input is missing.");
  if negb (str_eqb (ev_event_type event) (u "message_final"))
     || str_eqb (ac_participant_id (ev_actor event)) (s_participant_id (d_public session))
     || (ev_seq event <=? previous_seq)
  then Err (queued_room_event_invalid message)
  else
    visible ← message_has_visible_payload event;
    require visible (queued_room_event_invalid message) ;;
    mret event.

Fixpoint load_pending_events (session : DurableAgentSession) (previous_seq : Z)
    (pending_inputs : list QueuedRoomInput) (st : RoomStore) : tx (list PendingRoomEvent) :=
  match pending_inputs with
  | [] => Ok []
  | input :: pending_inputs =>
      event ← checked_input_event session "Queued room input does not match ordered-floor authority."
        previous_seq input st;
      events ← load_pending_events session (ev_seq event) pending_inputs st;
      mret (MkPendingRoomEvent input event :: events)
  end.

(** ** The context around the prefix *)

(** A [BTreeMap] from sequence to event, as the list of its values. *)
Fixpoint insert_by_seq (event : RoomEvent) (l : list RoomEvent) : list RoomEvent :=
  match l with
  | [] => [event]
  | x :: l' =>
      if ev_seq event <? ev_seq x then event :: l
      else if ev_seq event =? ev_seq x then event :: l'
      else x :: insert_by_seq event l'
  end.

Definition event_row_le (a b : Z * RoomEvent) : Prop := b.1 <= a.1.
#[global] Instance event_row_le_dec : RelDecision event_row_le.
Proof. intros a b. unfold event_row_le. apply _. Defined.

(** The rows of the messages of a room in a range, the latest first, at most [limit]. *)
Definition recent_rows (room_id : str) (p : Z -> RoomEvent -> bool) (limit : nat) (st : RoomStore) : list RoomEvent :=
  take limit (map snd (merge_sort event_row_le (map (fun e : str * Z * RoomEvent => (e.1.2, e.2))
    (filter (fun e : str * Z * RoomEvent => e.1.1 = room_id /\ p e.1.2 e.2 = true) (map_to_list (st_events st)))))).

Fixpoint extend_context (room : Room) (session : DurableAgentSession) (room_agent_ids : list str)
    (replay : bool) (selected rows : list RoomEvent) : tx (list RoomEvent) :=
  match rows with
  | [] => Ok selected
  | event :: rows =>
      if bool_decide (MAX_CONTEXT_MESSAGES <= length selected)%nat then Ok selected
      else
        let own := negb replay && str_eqb (ac_participant_id (ev_actor event)) (s_participant_id (d_public session)) in
        visible ← (if own then Ok false else message_has_visible_payload event);
        if negb visible then extend_context room session room_agent_ids replay selected rows
        else
          let extended := insert_by_seq event selected in
          fits ← view_fits room session room_agent_ids extended;
          extend_context room session room_agent_ids replay (if fits : bool then extended else selected) rows
  end.

Definition load_context (room : Room) (session : DurableAgentSession) (up_to_seq : Z)
    (mandatory : list PendingRoomEvent) (room_agent_ids : list str) (st : RoomStore) : tx (list RoomEvent) :=
  let replay := str_eqb (s_runtime_kind (d_public session)) (u "api") in
  let rows := recent_rows (rm_room_id room)
    (fun seq event => (context_floor session <? seq) && (seq <=? up_to_seq)
       && str_eqb (ev_event_type event) (u "message_final")) MAX_CONTEXT_MESSAGES st in
  let selected := fold_left (fun acc p => insert_by_seq (pre_event p) acc) mandatory [] in
  selected ← extend_context room session room_agent_ids replay selected rows;
  require (all (fun p => any (fun event => str_eqb (ev_id event) (ev_id (pre_event p))) selected) mandatory)
    (provider_turn_input_invalid "A queued room message was omitted from the canonical observation.") ;;
  mret selected.

Definition render_recent_messages (context : list RoomEvent) : tx str :=
  texts ← traverse message_visible_text context;
  mret (join [LF] (map (fun e : RoomEvent * str => u "- " ++ speaker_name e.1 ++ u ": " ++ e.2)
    (filter (fun e : RoomEvent * str => has_visible_text e.2 = true) (zip context texts)))).

Definition render_observation_input (room : Room) (session : DurableAgentSession) (mode : string)
    (tabletop_tools : bool) (persona : str) : str :=
  join [LF; LF]
    ([u "[" ++ u mode ++ u " shared-room observation]";
      u "Your room identity is " ++ s_display_name (d_public session) ++ u " in " ++ rm_label room ++ u ".";
      u "Call `read_discussion` before deciding. Then finish with exactly one terminal action exposed by the room transport, choosing the action that fulfills the current room request. Ordinary assistant final text is not a room publication."]
     ++ (if tabletop_tools
         then [u "For official game randomness, use the `roll_dice` or `choose_random` room tool; do not invent a result yourself."]
         else [])
     ++ (if list_empty persona then [] else [u "[Applied bot card or Risu module]" ++ [LF] ++ persona])).

(** ** The observation *)

Definition provider_cursor_is_valid (session : DurableAgentSession) (st : RoomStore) : tx bool :=
  let public := d_public session in
  if s_last_provider_sync_seq public =? 0 then Ok (str_empty (s_last_provider_sync_event_id public))
  else
    event ← load_event (s_room_id public) (s_last_provider_sync_event_id public) st;
    mret (match event with Some event => ev_seq event =? s_last_provider_sync_seq public | None => false end).

Definition validate_provider_cursor (session : DurableAgentSession) (st : RoomStore) : tx unit :=
  valid ← provider_cursor_is_valid session st;
  require valid (rejected_tx "provider_sync_cursor_mismatch"
    "The provider sync cursor is outside canonical room history.").

(** The other agents of the room that may be addressed. *)
Definition load_room_agent_ids (room : Room) (session : DurableAgentSession) (st : RoomStore) : tx (list str) :=
  let others := filter (fun s => s_session_id (d_public s) <> s_session_id (d_public session)) (room_rows (rm_room_id room) st) in
  let rows := omap (fun s => participant ← st_participants st !! (rm_room_id room, s_participant_id (d_public s));
                             Some (s_session_id (d_public s), participant)) others in
  reject_if (bool_decide (MAX_ROOM_OBSERVATION_AGENT_IDS < length rows)%nat)
    (rejected_tx "agent_session_capacity" "This room exceeds its Agent Session capacity.") ;;
  mret (map fst (filter (fun row : str * Participant => pt_status row.2 <> Kicked /\ pt_muted row.2 = false) rows)).

Definition prepare_room_input (room : Room) (session : DurableAgentSession)
    (pending_inputs : list QueuedRoomInput) (tabletop_tools : bool) (st : RoomStore) : tx PreparedRoomInput :=
  validate_provider_cursor session st ;;
  room_agent_ids ← load_room_agent_ids room session st;
  pending ← load_pending_events session (s_last_provider_sync_seq (d_public session)) pending_inputs st;
  inflight ← bounded_pending_prefix room session room_agent_ids pending;
  match last inflight, head inflight with
  | Some source, Some first =>
      context ← load_context room session (ev_seq (pre_event source)) inflight room_agent_ids st;
      attachment_ids ← message_attachment_ids_from_events (map pre_event inflight);
      room_view ← render_room_view room session room_agent_ids context;
      recent ← render_recent_messages context;
      persona ← persona_context (s_persona_card_id (d_public session)) recent st;
      let mode := match qi_delivery_kind (pre_input first) with
                  | OrderedObservation => "Ordered"%string | AmbientObservation => "Ambient"%string end in
      let provider_input := render_observation_input room session mode tabletop_tools persona in
      require (is_room_observation_view room_view && is_provider_input provider_input)
        (provider_turn_input_invalid "The canonical room observation exceeds its provider-visible bound.") ;;
      mret {| pri_provider_input := provider_input; pri_room_view := room_view;
              pri_attachment_ids := attachment_ids; pri_inflight_inputs := map pre_input inflight;
              pri_source_event_id := ev_id (pre_event source); pri_input_up_to_seq := ev_seq (pre_event source);
              pri_room_agent_ids := room_agent_ids |}
  | _, _ => Err (queued_room_event_invalid
      "The ordered-floor assignment has no provider-visible source message.")
  end.

(** ** What an observation takes from the queue *)

Lemma select_prefix_Ok room session ids kind selected pending r :
  select_prefix room session ids kind selected pending = Ok r -> exists n, r = selected ++ take n pending.
Proof.
  revert selected. induction pending as [|e pending IH]; intros selected Hr; simpl in Hr.
  { injection Hr as <-. exists 0%nat. by rewrite app_nil_r. }
  assert (exists n : nat, selected = selected ++ take n (e :: pending)) as Hstop.
  { exists 0%nat. by rewrite app_nil_r. }
  case_match; [by injection Hr as <-|]. res_inv. case_match; [res_inv; done|]. res_inv.
  match goal with b : bool |- _ => destruct b end; [|res_inv; done].
  destruct (IH _ Hr) as [n ->]. exists (S n). simpl. by rewrite <- app_assoc.
Qed.

(** The events of a queue, each the one its input names, in increasing order. *)
Fixpoint increasing_from (seq : Z) (l : list PendingRoomEvent) : Prop :=
  match l with
  | [] => True
  | e :: l => seq < ev_seq (pre_event e) /\ increasing_from (ev_seq (pre_event e)) l
  end.

Lemma load_event_Some room_id event_id st event :
  load_event room_id event_id st = Ok (Some event) ->
  ev_room_id event = room_id /\ ev_id event = event_id /\
  st_events st !! (room_id, ev_seq event) = Some event.
Proof.
  unfold load_event. intros Hr. destruct (filter _ _) as [|[k e] [|? ?]] eqn:E; [done| |done].
  assert ((k, e) ∈ [(k, e)]) as Hin by (apply elem_of_cons; by left). rewrite <- E in Hin.
  apply list_elem_of_filter in Hin as [[Hroom _] Hin%elem_of_map_to_list].
  apply bind_Ok in Hr as (? & Hc%require_Ok & [= <-]). bool_to_prop. simpl in *.
  split_and!; [by apply str_eqb_true|by apply str_eqb_true|].
  match goal with Hz : (_ =? _) = true |- _ => apply Z.eqb_eq in Hz as -> end.
  destruct k as [r n]. simpl in *. by subst.
Qed.

Lemma checked_input_event_Ok session message seq input st event :
  checked_input_event session message seq input st = Ok event ->
  ev_id event = qi_event_id input /\ seq < ev_seq event /\
  st_events st !! (s_room_id (d_public session), ev_seq event) = Some event.
Proof.
  unfold checked_input_event. intros Hr. apply bind_Ok in Hr as (e & He & Hr).
  apply bind_Ok in Hr as (e' & Hok & Hr). apply ok_or_Ok in Hok as ->.
  apply load_event_Some in He as (_ & He & Hst). case_match eqn:E; [done|]. bool_to_prop.
  apply bind_Ok in Hr as (? & _ & Hr). apply bind_Ok in Hr as (? & _ & [= <-]). split_and!; [done|lia|done].
Qed.

Lemma load_pending_events_Ok session seq inputs st events :
  load_pending_events session seq inputs st = Ok events ->
  map pre_input events = inputs /\ increasing_from seq events /\
  Forall (fun e => ev_id (pre_event e) = qi_event_id (pre_input e) /\
    st_events st !! (s_room_id (d_public session), ev_seq (pre_event e)) = Some (pre_event e)) events.
Proof.
  revert seq events. induction inputs as [|i inputs IH]; intros seq events Hr; simpl in Hr.
  { by injection Hr as <-. }
  apply bind_Ok in Hr as (event & He%checked_input_event_Ok & Hr). destruct He as (Hid & Hseq & Hst).
  apply bind_Ok in Hr as (rest & Hrest & [= <-]). destruct (IH _ _ Hrest) as (<- & Hinc & Hall).
  simpl. split_and!; [done|done|done|]. by constructor.
Qed.

Lemma increasing_take seq l n : increasing_from seq l -> increasing_from seq (take n l).
Proof.
  revert seq n. induction l as [|e l IH]; intros seq [|n]; simpl; try done. intros []. split; [done|]. by apply IH.
Qed.

Lemma increasing_last seq l e : increasing_from seq l -> last l = Some e -> seq < ev_seq (pre_event e).
Proof.
  revert seq. induction l as [|a l IH]; intros seq; [done|]. intros [Ha Hl] He.
  destruct l as [|b l]; [by injection He as <-|]. specialize (IH _ Hl He). lia.
Qed.

Lemma bounded_pending_prefix_Ok room session ids pending r :
  bounded_pending_prefix room session ids pending = Ok r -> exists n, r = take n pending.
Proof.
  unfold bounded_pending_prefix. destruct pending as [|e pending]; [done|]. intros Hr.
  apply bind_Ok in Hr as (selected & Hs & Hr). apply select_prefix_Ok in Hs as [n ->]. rewrite app_nil_l in Hr.
  apply bind_Ok in Hr as (? & _ & [= <-]). exists (Nat.min n MAX_CONTEXT_MESSAGES). exact (firstn_firstn (e :: pending) n MAX_CONTEXT_MESSAGES).
Qed.

(** A turn takes a non-empty prefix of the queue; its source is the last message of the prefix,
    which comes after everything the provider has already seen. *)
Lemma prepare_room_input_Ok room session inputs tools st p :
  prepare_room_input room session inputs tools st = Ok p ->
  exists n, pri_inflight_inputs p = take n inputs /\
    last_event_is (take n inputs) (pri_source_event_id p) = true /\
    s_last_provider_sync_seq (d_public session) < pri_input_up_to_seq p /\
    (store_ok st -> 0 < pri_input_up_to_seq p).
Proof.
  unfold prepare_room_input. intros Hr. apply bind_Ok in Hr as ([] & _ & Hr). apply bind_Ok in Hr as (ids & _ & Hr).
  apply bind_Ok in Hr as (pending & (Hin & Hinc & Hall)%load_pending_events_Ok & Hr).
  apply bind_Ok in Hr as (inflight & (n & Hpre)%bounded_pending_prefix_Ok & Hr). subst inflight.
  destruct (last (take n pending)) as [source|] eqn:Elast; [|done].
  destruct (head (take n pending)) as [first|] eqn:Ehead; [|done]. res_inv. simpl.
  assert (map pre_input (take n pending) = take n (map pre_input pending)) as Htake by (symmetry; apply firstn_map).
  assert (last (map pre_input (take n pending)) = Some (pre_input source)) as Hlast.
  { pose proof (fmap_last pre_input (take n pending)) as Hf. rewrite Elast in Hf. exact Hf. }
  apply last_Some_elem_of in Elast as Hel.
  assert (source ∈ pending) as Hsource by (eapply elem_of_sublist; [exact Hel|apply sublist_take]).
  rewrite Forall_forall in Hall. destruct (Hall _ Hsource) as [Hid Hst].
  exists n. rewrite <- Htake. split_and!; [done| | |].
  - apply last_event_is_iff. by exists (pre_input source).
  - eapply increasing_last; [by apply increasing_take|exact Elast].
  - intros [_ Hp]. by apply Hp in Hst.
Qed.
End observation.
