(* ===== verification/Attachments.v ===== *)
(** * Binding attachments to messages (agentsassemble-persistence/src/message_attachments.rs)

    An uploaded attachment waits for its owner to send it; sending binds it to
    the event of the message, deleting the message deletes it. *)

From Stdlib Require Import String.
From stdpp Require Import gmap sorting.
From S2P Require Import Prelude Text Json Model Command Settings Store Turn ProviderRequest RoomStore.
From S2P Require Import Observation.

(** [chrono::DateTime::timestamp] *)
Definition timestamp_seconds (t : instant) : Z := t / 1000000000.

Definition attachment_unavailable : PersistenceError :=
  rejected_tx "attachment_unavailable" "A message attachment is unavailable or no longer pending.".

Definition attachment_metadata (id filename content_type : str) (size : N) (is_image : bool) : MessageAttachmentMetadata :=
  {| ma_id := id; ma_filename := filename; ma_content_type := content_type; ma_size := size; ma_is_image := is_image;
     ma_url := MESSAGE_ATTACHMENT_REFERENCE_PREFIX ++ id ++ MESSAGE_ATTACHMENT_VIEW_SUFFIX;
     ma_download_url := MESSAGE_ATTACHMENT_REFERENCE_PREFIX ++ id ++ MESSAGE_ATTACHMENT_DOWNLOAD_SUFFIX |}.

Definition serialize_attachment (a : MessageAttachmentMetadata) : value :=
  VObject [(u "id", VString (ma_id a)); (u "filename", VString (ma_filename a));
    (u "content_type", VString (ma_content_type a)); (u "size", VNumber (PosInt (ma_size a)));
    (u "is_image", VBool (ma_is_image a)); (u "url", VString (ma_url a)); (u "download_url", VString (ma_download_url a))].
Definition serialize_attachments (l : list MessageAttachmentMetadata) : value := VArray (map serialize_attachment l).

(** A row its owner may still send: pending, of the room and the principal, not expired. *)
Definition may_send (principal : AuthenticatedPrincipal) (now : Z) (row : MessageAttachmentRow) : bool :=
  str_eqb (mr_room_id row) (pr_room_id principal)
  && bool_decide (mr_pending_owner row = Some (pr_principal_id principal))
  && bool_decide (mr_event_seq row = None)
  && negb (mr_bound row)
  && match mr_expires_at row with Some expires_at => now <? expires_at | None => false end.

Fixpoint prepare_message_attachment_bindings (principal : AuthenticatedPrincipal) (attachment_ids : list str) (now : Z)
    (st : RoomStore) : tx (list MessageAttachmentMetadata) :=
  match attachment_ids with
  | [] => Ok []
  | id :: ids =>
      row ← ok_or (st_attachments st !! id) attachment_unavailable;
      require (may_send principal now row) attachment_unavailable ;;
      require (0 <=? mr_size row) invalid_attachment_state ;;
      attachments ← prepare_message_attachment_bindings principal ids now st;
      mret (attachment_metadata id (mr_filename row) (mr_content_type row) (Z.to_N (mr_size row)) (mr_is_safe_image row)
        :: attachments)
  end.

Definition bound_row (event_seq : Z) (row : MessageAttachmentRow) : MessageAttachmentRow :=
  row <| mr_pending_owner := None |> <| mr_event_seq := Some event_seq |> <| mr_bound := true |> <| mr_expires_at := None |>.

Definition bind_message_attachment (principal : AuthenticatedPrincipal) (event_seq now : Z) (id : str) : rtx unit := fun st =>
  match st_attachments st !! id with
  | Some row =>
      if may_send principal now row
      then Ok (tt, st <| st_attachments := <[id := bound_row event_seq row]> (st_attachments st) |>)
      else Err attachment_unavailable
  | None => Err attachment_unavailable
  end.
Definition bind_message_attachments (principal : AuthenticatedPrincipal) (attachment_ids : list str) (event_seq now : Z) :
    rtx unit := for_each attachment_ids (bind_message_attachment principal event_seq now).

Definition is_bound_to (room_id : str) (event_seq : Z) (row : MessageAttachmentRow) : bool :=
  str_eqb (mr_room_id row) room_id && bool_decide (mr_event_seq row = Some event_seq) && mr_bound row.

Definition delete_bound_message_attachments (event : RoomEvent) : rtx (list str) := fun st =>
  attachments ← message_attachments_from_event event;
  let expected := merge_sort str_le (map ma_id attachments) in
  let bound := fun (_ : str) row => is_bound_to (ev_room_id event) (ev_seq event) row in
  let stored := merge_sort str_le (map fst (matching bound (st_attachments st))) in
  require (bool_decide (stored = expected)) invalid_attachment_state ;;
  Ok (expected, st <| st_attachments := filter (fun e => bound e.1 e.2 = false) (st_attachments st) |>).
