(* ===== verification/VoteStore.v ===== *)
(** * The store of votes (agentsassemble-persistence/src/room_votes.rs)

    A poll is a message with a row that counts its ballots; each participant has
    at most one ballot, which a later one replaces and a withdrawal removes. A
    vote ends at its deadline or when it is closed. *)

From Stdlib Require Import String.
From stdpp Require Import gmap sorting.
From S2P Require Import Prelude Text Json Model Command Vote Projection Settings Store Turn RoomStore.
From S2P Require Import Observation Attachments.

Record VoteDefinition : Type := MkVoteDefinition {
  vd_question : str;
  vd_options : list str;
  vd_duration_seconds : N;
  vd_deadline_at : option instant
}.
Record StoredVote : Type := MkStoredVote {
  sv_poll : RoomEvent;
  sv_definition : VoteDefinition;
  sv_tallies : list N;
  sv_total_votes : N;
  sv_manual_close : option (Z * instant)
}.
#[global] Instance eta_StoredVote : EtaRecord StoredVote :=
  fun r => MkStoredVote (sv_poll r) (sv_definition r) (sv_tallies r) (sv_total_votes r) (sv_manual_close r).

Definition vote_missing : PersistenceError := rejected_tx "vote_not_found" "This vote does not exist in the room.".
Definition invalid_vote_choice : PersistenceError := rejected_tx "invalid_vote_choice" "The vote choice is invalid.".
Definition vote_capacity_reached : PersistenceError :=
  rejected_tx "vote_capacity_reached" "This vote has reached its participant limit.".
Definition invalid_vote_state : PersistenceError := rejected_tx "invalid_state" "Stored vote authority is invalid.".

Definition is_terminal_vote_rejection (error : PersistenceError) : bool :=
  match error with
  | CommandRejected code _ =>
      contains [u "vote_not_found"; u "vote_expired"; u "vote_closed"; u "vote_capacity_reached"; u "invalid_vote_choice";
                u "permission_denied"] code
  | _ => false
  end.

(** [try_fold(0_u64, checked_add)] *)
Definition checked_sum (l : list N) : option N :=
  fold_left (fun total v => total ← total; if (total + v <=? u64_max)%N then Some (total + v)%N else None) l (Some 0%N).

Section votes.
Context `{UnicodeGeneralCategory, Caseless, Chrono, Entropy}.

Definition poll_definition (event : RoomEvent) : tx VoteDefinition :=
  require (str_eqb (ev_event_type event) (u "message_final") && bool_decide (ev_message_kind event = Some (u "vote")))
    invalid_vote_state ;;
  question ← ok_or (ev_extra event !! u "vote_question" ≫= as_str) invalid_vote_state;
  options ← ok_or (ev_extra event !! u "vote_options" ≫= as_array) invalid_vote_state;
  duration ← ok_or (ev_extra event !! u "vote_duration_seconds" ≫= as_u64) invalid_vote_state;
  deadline ← ok_or (ev_extra event !! u "vote_deadline_at" ≫= as_str) invalid_vote_state;
  let payload := VObject [(u "kind", VString (u "vote")); (u "vote_question", VString question);
    (u "vote_options", VArray options); (u "vote_duration_seconds", VNumber (PosInt duration))] in
  command ← map_err (fun _ => invalid_vote_state) (vote_from_payload payload);
  match command with
  | Create definition =>
      raw_options ← ok_or (mapM as_str options) invalid_vote_state;
      require (duration <=? u32_max)%N invalid_vote_state ;;
      let deadline_at := vote_deadline_at (ev_created_at event) duration in
      let expected_deadline := default [] (to_rfc3339 <$> deadline_at) in
      reject_if (negb (str_eqb (vc_question definition) question) || negb (bool_decide (vc_options definition = raw_options))
                 || negb (vc_duration_seconds definition =? duration)%N || negb (str_eqb deadline expected_deadline))
        invalid_vote_state ;;
      mret (MkVoteDefinition (vc_question definition) (vc_options definition) duration deadline_at)
  | _ => Err invalid_vote_state
  end.

Definition validate_close_event (room_id vote_id : str) (poll_seq close_seq : Z) (st : RoomStore) : tx instant :=
  require (poll_seq <? close_seq) invalid_vote_state ;;
  event ← ok_or (st_events st !! (room_id, close_seq)) invalid_vote_state;
  reject_if (negb (str_eqb (ev_room_id event) room_id) || negb (ev_seq event =? close_seq)
             || negb (str_eqb (ev_event_type event) (u "message_final"))
             || negb (bool_decide (ev_message_kind event = Some (u "vote_close")))
             || negb (bool_decide (ev_extra event !! u "vote_id" ≫= as_str = Some vote_id))) invalid_vote_state ;;
  mret (ev_created_at event).

Definition load_vote (room_id vote_id : str) (st : RoomStore) : tx StoredVote :=
  row ← ok_or (st_votes st !! (room_id, vote_id)) vote_missing;
  poll ← ok_or (st_events st !! (room_id, vt_poll_seq row)) vote_missing;
  reject_if (negb (str_eqb (ev_id poll) vote_id) || negb (str_eqb (ev_room_id poll) room_id)
             || negb (ev_seq poll =? vt_poll_seq row)) invalid_vote_state ;;
  definition ← poll_definition poll;
  require (0 <=? vt_total_votes row) invalid_vote_state ;;
  let total_votes := Z.to_N (vt_total_votes row) in
  reject_if ((MAX_VOTE_BALLOTS_PER_POLL <? total_votes)%N
             || negb (bool_decide (length (vt_tallies row) = length (vd_options definition)))
             || negb (bool_decide (checked_sum (vt_tallies row) = Some total_votes))) invalid_vote_state ;;
  manual_close ← match vt_manual_close_seq row with
                 | Some close_seq =>
                     closed_at ← validate_close_event room_id vote_id (ev_seq poll) close_seq st;
                     mret (Some (close_seq, closed_at))
                 | None => mret None
                 end;
  mret (MkStoredVote poll definition (vt_tallies row) total_votes manual_close).

Definition require_open (stored : StoredVote) (now : instant) : tx unit :=
  reject_if (match vd_deadline_at (sv_definition stored) with Some deadline => deadline <=? now | None => false end)
    (rejected_tx "vote_expired" "This vote has ended.") ;;
  reject_if (bool_decide (sv_manual_close stored <> None)) (rejected_tx "vote_closed" "This vote has ended.").

Definition ballot_key (stored : StoredVote) (participant_id : str) : str * str * str :=
  (ev_room_id (sv_poll stored), ev_id (sv_poll stored), participant_id).

Definition load_ballot (participant_id : str) (stored : StoredVote) (st : RoomStore) : tx (option nat) :=
  match st_ballots st !! ballot_key stored participant_id with
  | None => Ok None
  | Some value =>
      require ((0 <=? value) && bool_decide (Z.to_nat value < length (vd_options (sv_definition stored)))%nat)
        invalid_vote_state ;;
      mret (Some (Z.to_nat value))
  end.

(** [tallies[i].checked_sub(1)] and [checked_add(1)] *)
Definition tally_down (i : nat) (tallies : list N) : tx (list N) :=
  v ← ok_or (tallies !! i) invalid_vote_state;
  require (1 <=? v)%N invalid_vote_state ;;
  mret (<[i := (v - 1)%N]> tallies).
Definition tally_up (i : nat) (tallies : list N) : tx (list N) :=
  v ← ok_or (tallies !! i) invalid_vote_state;
  require (v + 1 <=? u64_max)%N invalid_vote_state ;;
  mret (<[i := (v + 1)%N]> tallies).

(** The constraints of [room_vote_ballots]. *)
Definition insert_ballot (key : str * str * str) (choice_index : nat) : rtx unit := fun st =>
  reject_if (bool_decide (9 < choice_index)%nat || bool_decide (st_votes st !! key.1 = None)
             || bool_decide (st_participants st !! (key.1.1, key.2) = None)) Database ;;
  Ok (tt, st <| st_ballots := <[key := Z.of_nat choice_index]> (st_ballots st) |>).

Definition replace_ballot (participant : Participant) (stored : StoredVote) (choice_index : nat) : rtx StoredVote :=
  previous ← reads (load_ballot (pt_participant_id participant) stored);
  if bool_decide (previous = Some choice_index) then mret stored
  else
    stored ← lift (match previous with
                   | Some previous =>
                       tallies ← tally_down previous (sv_tallies stored);
                       mret (stored <| sv_tallies := tallies |>)
                   | None =>
                       reject_if (MAX_VOTE_BALLOTS_PER_POLL <=? sv_total_votes stored)%N vote_capacity_reached ;;
                       mret (stored <| sv_total_votes := (sv_total_votes stored + 1)%N |>)
                   end);
    tallies ← lift (tally_up choice_index (sv_tallies stored));
    let stored := stored <| sv_tallies := tallies |> in
    insert_ballot (ballot_key stored (pt_participant_id participant)) choice_index ;;
    mret stored.

Definition remove_ballot (participant : Participant) (stored : StoredVote) : rtx StoredVote :=
  previous ← reads (load_ballot (pt_participant_id participant) stored);
  match previous with
  | None => mret stored
  | Some previous =>
      tallies ← lift (tally_down previous (sv_tallies stored));
      lift (require (1 <=? sv_total_votes stored)%N invalid_vote_state) ;;
      modifies (fun st => st <| st_ballots := delete (ballot_key stored (pt_participant_id participant)) (st_ballots st) |>) ;;
      mret (stored <| sv_tallies := tallies |> <| sv_total_votes := (sv_total_votes stored - 1)%N |>)
  end.

(** [UPDATE room_vote_states], under the constraint that a vote is closed after it is opened. *)
Definition save_vote_state (stored : StoredVote) : rtx unit := fun st =>
  let poll := sv_poll stored in
  let key := (ev_room_id poll, ev_id poll) in
  let close_seq := fst <$> sv_manual_close stored in
  match st_votes st !! key with
  | Some row =>
      if vt_poll_seq row =? ev_seq poll then
        reject_if (match close_seq with Some close_seq => close_seq <=? ev_seq poll | None => false end
                   || match close_seq with
                      | Some close_seq => bool_decide (st_events st !! (ev_room_id poll, close_seq) = None)
                      | None => false
                      end) Database ;;
        Ok (tt, st <| st_votes := <[key := MkVoteState (vt_poll_seq row) (sv_tallies stored)
          (Z.of_N (sv_total_votes stored)) close_seq]> (st_votes st) |>)
      else Err invalid_vote_state
  | None => Err invalid_vote_state
  end.

(** [INSERT INTO room_vote_states], under the constraints of the table. *)
Definition insert_vote_state (event : RoomEvent) : rtx unit := fun st =>
  definition ← poll_definition event;
  let key := (ev_room_id event, ev_id event) in
  let tallies := repeat 0%N (length (vd_options definition)) in
  reject_if (str_empty (ev_id event) || bool_decide (128 < byte_len (ev_id event))%nat || contains (ev_id event) NUL
             || (ev_seq event <=? 0)
             || negb (list_empty (matching (fun k row => str_eqb k.1 (ev_room_id event) && (vt_poll_seq row =? ev_seq event))
                  (st_votes st)))
             || bool_decide (st_events st !! (ev_room_id event, ev_seq event) = None)) Database ;;
  votes ← insert_row key (MkVoteState (ev_seq event) tallies 0 None) (st_votes st);
  Ok (tt, st <| st_votes := votes |>).

(** [Vec::iter().position] *)
Fixpoint position (choice : str) (options : list str) : option nat :=
  match options with
  | [] => None
  | o :: options => if str_eqb o choice then Some O else S <$> position choice options
  end.

Lemma position_lt choice options i : position choice options = Some i -> (i < length options)%nat.
Proof.
  revert i. induction options as [|o l IH]; intros i; simpl; [done|]. case_match; [intros [= <-]; lia|].
  destruct (position choice l) as [j|]; [|done]. intros [= <-]. specialize (IH j eq_refl). lia.
Qed.

Definition with_attachments (attachments : list MessageAttachmentMetadata) (event : RoomEvent) : RoomEvent :=
  if list_empty attachments then event
  else event <| ev_extra := <[u "attachments" := serialize_attachments attachments]> (ev_extra event) |>.

Definition apply_vote_command (principal : AuthenticatedPrincipal) (participant : Participant) (command : VoteCommand)
    (sequence : Z) (now : instant) : rtx RoomEvent :=
  let prepared (command : VoteCommand) : rtx RoomEvent :=
    id ← draw_uuid; lift (lift_rejection (prepare_vote_event id principal participant command sequence now)) in
  match command with
  | Create create =>
      attachments ← reads (prepare_message_attachment_bindings principal (vc_attachment_ids create) (timestamp_seconds now));
      event ← prepared (Create create);
      let event := with_attachments attachments event in
      insert_event event ;;
      insert_vote_state event ;;
      bind_message_attachments principal (vc_attachment_ids create) sequence (timestamp_seconds now) ;;
      mret event
  | Cast cast =>
      stored ← reads (load_vote (pr_room_id principal) (vk_vote_id cast));
      lift (require_open stored now) ;;
      choice ← lift (ok_or (resolve_vote_choice (vk_choice cast) (vd_options (sv_definition stored))) invalid_vote_choice);
      choice_index ← lift (ok_or (position choice (vd_options (sv_definition stored))) invalid_vote_state);
      event ← prepared (Cast (MkVoteCast (vk_vote_id cast) choice));
      let event := privacy_minimized_vote_transition event in
      stored ← replace_ballot participant stored choice_index;
      insert_event event ;;
      save_vote_state stored ;;
      mret event
  | Withdraw reference =>
      stored ← reads (load_vote (pr_room_id principal) (vr_vote_id reference));
      lift (require_open stored now) ;;
      event ← prepared (Withdraw reference);
      let event := privacy_minimized_vote_transition event in
      insert_event event ;;
      stored ← remove_ballot participant stored;
      save_vote_state stored ;;
      mret event
  | Close reference =>
      stored ← reads (load_vote (pr_room_id principal) (vr_vote_id reference));
      lift (require_open stored now) ;;
      lift (reject_if (negb (pr_is_operator principal)
                       && negb (str_eqb (ac_participant_id (ev_actor (sv_poll stored))) (pt_participant_id participant)))
        (rejected_tx "permission_denied" "Only the vote creator or room operator can close this vote.")) ;;
      event ← prepared (Close reference);
      let event := privacy_minimized_vote_transition event in
      insert_event event ;;
      save_vote_state (stored <| sv_manual_close := Some (sequence, now) |>) ;;
      mret event
  end.

(** [DELETE FROM room_vote_states], whose ballots go with it. *)
Definition delete_vote_projection (room_id vote_id : str) (poll_seq : Z) : rtx unit := fun st =>
  match st_votes st !! (room_id, vote_id) with
  | Some row =>
      if vt_poll_seq row =? poll_seq
      then Ok (tt, st <| st_votes := delete (room_id, vote_id) (st_votes st) |>
                      <| st_ballots := filter (fun e => e.1.1 <> (room_id, vote_id)) (st_ballots st) |>)
      else Err invalid_vote_state
  | None => Err invalid_vote_state
  end.

Definition build_vote_summary (stored : StoredVote) (own_choice : str) (now : instant) : tx VoteSummary :=
  created_by ← ok_or (name ← ev_display_name (sv_poll stored); if has_visible_text name then Some name else None)
    invalid_vote_state;
  let definition := sv_definition stored in
  let deadline_closed := deadline ← vd_deadline_at definition; if deadline <=? now then Some deadline else None in
  let manual_closed_at := (fun c : Z * instant => to_rfc3339 c.2) <$> sv_manual_close stored in
  let closed_at := default (default [] (to_rfc3339 <$> deadline_closed)) manual_closed_at in
  let close_reason := if bool_decide (deadline_closed <> None) then u "deadline"
                      else if bool_decide (manual_closed_at <> None) then u "manual" else [] in
  mret {| vs_vote_id := ev_id (sv_poll stored); vs_question := vd_question definition; vs_options := vd_options definition;
          vs_vote_duration_seconds := vd_duration_seconds definition;
          vs_vote_deadline_at := default [] (to_rfc3339 <$> vd_deadline_at definition);
          vs_created_by := created_by; vs_created_at := to_rfc3339 (ev_created_at (sv_poll stored));
          vs_tallies := fold_left (fun m e => <[e.1 := e.2]> m) (zip (vd_options definition) (sv_tallies stored)) ∅;
          vs_own_choice := own_choice; vs_total_votes := sv_total_votes stored;
          vs_closed := negb (str_empty closed_at); vs_closed_at := closed_at; vs_close_reason := close_reason |}.

Definition read_vote_summary (principal : AuthenticatedPrincipal) (vote_id : str) (now : instant) (st : RoomStore) :
    tx VoteSummary :=
  reject_if (bool_decide (pr_client_kind principal = AgentBridge) || negb (cap_room_vote_summary (pr_capabilities principal)))
    (rejected_tx "permission_denied" "room.vote.summary permission is required.") ;;
  vote_id ← lift_rejection (validate_vote_id vote_id);
  stored ← load_vote (pr_room_id principal) vote_id st;
  own_choice ← load_ballot (pr_participant_id principal) stored st;
  own_choice ← match own_choice with
               | Some index => ok_or (vd_options (sv_definition stored) !! index) invalid_vote_state
               | None => Ok []
               end;
  build_vote_summary stored own_choice now.

(** ** Counting ballots *)

Abbreviation ballot_table := (gmap (str * str * str) Z) (only parsing).

Definition is_ballot (k : str * str) (p : Z -> bool) (e : str * str * str * Z) : bool := bool_decide (e.1.1 = k) && p e.2.
Definition ballots_where (k : str * str) (p : Z -> bool) (t : ballot_table) : nat :=
  size (filter (fun e => is_ballot k p e = true) t).
(** The ballots of a vote for one choice, and all of them. *)
Definition ballots_for (k : str * str) (i : nat) (t : ballot_table) : nat := ballots_where k (fun v => v =? Z.of_nat i) t.
Definition ballots_of (k : str * str) (t : ballot_table) : nat := ballots_where k (fun _ => true) t.

Lemma ballots_insert_new k p t bk v :
  t !! bk = None ->
  ballots_where k p (<[bk := v]> t) = (Nat.b2n (is_ballot k p (bk, v)) + ballots_where k p t)%nat.
Proof.
  intros Hn. unfold ballots_where. destruct (is_ballot k p (bk, v)) eqn:E.
  - rewrite map_filter_insert_True by done. rewrite map_size_insert_None; [done|]. apply map_lookup_filter_None. by left.
  - rewrite map_filter_insert_False by congruence. by rewrite delete_id.
Qed.

Lemma ballots_delete k p t bk w :
  t !! bk = Some w ->
  (Nat.b2n (is_ballot k p (bk, w)) + ballots_where k p (delete bk t))%nat = ballots_where k p t.
Proof.
  intros Hw. rewrite <- ballots_insert_new by apply lookup_delete_eq. by rewrite insert_delete_id.
Qed.

Lemma ballots_replace k p t bk w v :
  t !! bk = Some w ->
  (Nat.b2n (is_ballot k p (bk, w)) + ballots_where k p (<[bk := v]> t) =
   Nat.b2n (is_ballot k p (bk, v)) + ballots_where k p t)%nat.
Proof.
  intros Hw. rewrite <- (ballots_delete k p t bk w Hw), <- insert_delete_eq, ballots_insert_new by apply lookup_delete_eq. lia.
Qed.

(** ** What the operations do *)

(** The counts of every poll agree with the ballots that are kept for it. *)
Record votes_ok (t : gmap (str * str) VoteStateRow * ballot_table) : Prop := MkVotesOk {
  vo_tallies : forall k row i tally, t.1 !! k = Some row -> vt_tallies row !! i = Some tally ->
    tally = N.of_nat (ballots_for k i t.2);
  vo_total : forall k row, t.1 !! k = Some row -> vt_total_votes row = Z.of_nat (ballots_of k t.2);
  vo_bound : forall k row, t.1 !! k = Some row -> vt_total_votes row <= Z.of_N MAX_VOTE_BALLOTS_PER_POLL;
  vo_range : forall bk v, t.2 !! bk = Some v ->
    exists row, t.1 !! bk.1 = Some row /\ 0 <= v /\ (Z.to_nat v < length (vt_tallies row))%nat
}.

Lemma load_vote_Ok room_id vote_id st stored :
  load_vote room_id vote_id st = Ok stored ->
  exists row, st_votes st !! (room_id, vote_id) = Some row /\
    ev_room_id (sv_poll stored) = room_id /\ ev_id (sv_poll stored) = vote_id /\ ev_seq (sv_poll stored) = vt_poll_seq row /\
    sv_tallies stored = vt_tallies row /\ Z.of_N (sv_total_votes stored) = vt_total_votes row /\
    length (vt_tallies row) = length (vd_options (sv_definition stored)) /\
    (sv_total_votes stored <= MAX_VOTE_BALLOTS_PER_POLL)%N /\
    fst <$> sv_manual_close stored = vt_manual_close_seq row.
Proof.
  unfold load_vote. intros Hr. apply bind_Ok in Hr as (row & Hrow%ok_or_Ok & Hr). apply bind_Ok in Hr as (poll & _ & Hr).
  apply bind_Ok in Hr as ([] & Hid%reject_if_Ok & Hr). apply bind_Ok in Hr as (definition & _ & Hr).
  apply bind_Ok in Hr as ([] & Hpos%require_Ok & Hr). cbv zeta in Hr. apply bind_Ok in Hr as ([] & Hlen%reject_if_Ok & Hr).
  apply bind_Ok in Hr as (close & Hclose & [= <-]). bool_to_prop. exists row. simpl.
  repeat match goal with Hs : str_eqb _ _ = true |- _ => apply str_eqb_true in Hs end.
  split_and!; try done; try lia.
  destruct (vt_manual_close_seq row) as [c|]; [|by injection Hclose as <-].
  by apply bind_Ok in Hclose as (at_ & _ & [= <-]).
Qed.

Lemma load_ballot_Ok participant_id stored st previous :
  load_ballot participant_id stored st = Ok previous ->
  st_ballots st !! ballot_key stored participant_id = Z.of_nat <$> previous /\
  match previous with Some i => (i < length (vd_options (sv_definition stored)))%nat | None => True end.
Proof.
  unfold load_ballot. destruct (st_ballots st !! _) as [v|] eqn:E; [|by intros [= <-]].
  intros Hr. apply bind_Ok in Hr as ([] & Hv%require_Ok & [= <-]). bool_to_prop. simpl. split; [|done]. f_equal. lia.
Qed.

Lemma tally_up_Ok i tallies tallies' :
  tally_up i tallies = Ok tallies' -> (i < length tallies)%nat /\ tallies' = alter N.succ i tallies.
Proof.
  unfold tally_up. intros Hr. apply bind_Ok in Hr as (v & Hv%ok_or_Ok & Hr). apply bind_Ok in Hr as ([] & _ & [= <-]).
  split; [by eapply lookup_lt_Some|]. apply list_eq. intros j. destruct (decide (i = j)) as [<-|Hne].
  - rewrite list_lookup_insert_eq by (by eapply lookup_lt_Some). rewrite list_lookup_alter_eq, Hv. simpl. f_equal. lia.
  - by rewrite list_lookup_insert_ne, list_lookup_alter_ne.
Qed.
Lemma tally_down_Ok i tallies tallies' :
  tally_down i tallies = Ok tallies' ->
  tallies' = alter N.pred i tallies /\ exists v, tallies !! i = Some v /\ (1 <= v)%N.
Proof.
  unfold tally_down. intros Hr. apply bind_Ok in Hr as (v & Hv%ok_or_Ok & Hr). apply bind_Ok in Hr as ([] & Hp%require_Ok & [= <-]).
  apply N.leb_le in Hp. split; [|by exists v]. apply list_eq. intros j. destruct (decide (i = j)) as [<-|Hne].
  - rewrite list_lookup_insert_eq by (by eapply lookup_lt_Some). rewrite list_lookup_alter_eq, Hv. simpl. f_equal. lia.
  - by rewrite list_lookup_insert_ne, list_lookup_alter_ne.
Qed.

(** What a ballot does to a poll: the participant's earlier ballot is taken back first. *)
Definition cast_row (previous : option nat) (i : nat) (row : VoteStateRow) : VoteStateRow :=
  match previous with
  | Some j => if bool_decide (j = i) then row else row <| vt_tallies := alter N.succ i (alter N.pred j (vt_tallies row)) |>
  | None => row <| vt_tallies := alter N.succ i (vt_tallies row) |> <| vt_total_votes := vt_total_votes row + 1 |>
  end.
Definition withdraw_row (previous : option nat) (row : VoteStateRow) : VoteStateRow :=
  match previous with
  | Some j => row <| vt_tallies := alter N.pred j (vt_tallies row) |> <| vt_total_votes := vt_total_votes row - 1 |>
  | None => row
  end.

(** The steps of the tables of polls and ballots. *)
Inductive vote_step : gmap (str * str) VoteStateRow * ballot_table -> gmap (str * str) VoteStateRow * ballot_table -> Prop :=
| VsSame v b : vote_step (v, b) (v, b)
| VsOpen v b k seq n : v !! k = None ->
    vote_step (v, b) (<[k := MkVoteState seq (repeat 0%N n) 0 None]> v, b)
| VsCast v b k row participant_id previous i :
    v !! k = Some row -> vt_manual_close_seq row = None -> (i < length (vt_tallies row))%nat ->
    b !! (k, participant_id) = Z.of_nat <$> previous ->
    match previous with
    | Some j => j = i \/ exists t, vt_tallies row !! j = Some t /\ (1 <= t)%N
    | None => vt_total_votes row < Z.of_N MAX_VOTE_BALLOTS_PER_POLL
    end ->
    vote_step (v, b) (<[k := cast_row previous i row]> v, <[(k, participant_id) := Z.of_nat i]> b)
| VsWithdraw v b k row participant_id previous :
    v !! k = Some row -> vt_manual_close_seq row = None ->
    b !! (k, participant_id) = Z.of_nat <$> previous ->
    match previous with Some j => exists t, vt_tallies row !! j = Some t /\ (1 <= t)%N | None => True end ->
    vote_step (v, b) (<[k := withdraw_row previous row]> v, delete (k, participant_id) b)
| VsClose v b k row seq :
    v !! k = Some row -> vt_manual_close_seq row = None ->
    vote_step (v, b) (<[k := row <| vt_manual_close_seq := Some seq |>]> v, b)
| VsDelete v b k row : v !! k = Some row ->
    vote_step (v, b) (delete k v, filter (fun e => e.1.1 <> k) b).

Definition vote_tables (st : RoomStore) : gmap (str * str) VoteStateRow * ballot_table := (st_votes st, st_ballots st).

Lemma save_vote_state_Ok stored st t st' :
  save_vote_state stored st = Ok (t, st') ->
  exists row, st_votes st !! (ev_room_id (sv_poll stored), ev_id (sv_poll stored)) = Some row /\
    st' = st <| st_votes := <[(ev_room_id (sv_poll stored), ev_id (sv_poll stored)) :=
      MkVoteState (vt_poll_seq row) (sv_tallies stored) (Z.of_N (sv_total_votes stored)) (fst <$> sv_manual_close stored)]>
      (st_votes st) |>.
Proof.
  unfold save_vote_state. cbv zeta. destruct (st_votes st !! _) as [row|]; [|done].
  destruct (vt_poll_seq row =? _); [|done]. intros Hr. apply bind_Ok in Hr as ([] & _ & [= <- <-]). by exists row.
Qed.

Lemma replace_ballot_Ok participant stored i st stored' st' :
  replace_ballot participant stored i st = Ok (stored', st') ->
  exists previous, load_ballot (pt_participant_id participant) stored st = Ok previous /\
    st' = (if bool_decide (previous = Some i) then st
           else st <| st_ballots := <[ballot_key stored (pt_participant_id participant) := Z.of_nat i]> (st_ballots st) |>) /\
    sv_poll stored' = sv_poll stored /\ sv_manual_close stored' = sv_manual_close stored /\
    match previous with
    | Some j => sv_total_votes stored' = sv_total_votes stored /\
        sv_tallies stored' = (if bool_decide (j = i) then sv_tallies stored
                              else alter N.succ i (alter N.pred j (sv_tallies stored))) /\
        (j = i \/ exists t, sv_tallies stored !! j = Some t /\ (1 <= t)%N)
    | None => sv_total_votes stored' = (sv_total_votes stored + 1)%N /\
        sv_tallies stored' = alter N.succ i (sv_tallies stored) /\
        (sv_total_votes stored < MAX_VOTE_BALLOTS_PER_POLL)%N
    end.
Proof.
  unfold replace_ballot. intros Hr. apply rtx_bind_Ok in Hr as (previous & st1 & Hp & Hr). apply reads_Ok in Hp as [Hp <-].
  exists previous. split; [done|]. destruct (bool_decide (previous = Some i)) eqn:E.
  { apply bool_decide_eq_true in E as ->. apply rtx_ret_Ok in Hr as [<- <-]. rewrite bool_decide_true by done.
    split_and!; try done. by left. }
  apply bool_decide_eq_false in E. apply rtx_bind_Ok in Hr as (stored1 & st1 & Hs & Hr). apply lift_Ok in Hs as [Hs <-].
  apply rtx_bind_Ok in Hr as (tallies & st1 & Ht & Hr). apply lift_Ok in Ht as [[Hi Ht]%tally_up_Ok <-]. cbv zeta in Hr.
  apply rtx_bind_Ok in Hr as (? & st1 & Hb & Hr). apply rtx_ret_Ok in Hr as [<- <-].
  unfold insert_ballot in Hb. apply bind_Ok in Hb as ([] & _ & [= _ <-]). simpl.
  destruct previous as [j|].
  - apply bind_Ok in Hs as (t & [Hd (v & Hv & Hj)]%tally_down_Ok & [= <-]). simpl in *. rewrite bool_decide_false by congruence.
    subst. split_and!; try done. right. by exists v.
  - apply bind_Ok in Hs as ([] & Hc%reject_if_Ok & [= <-]). simpl in *. apply N.leb_gt in Hc. subst. by split_and!.
Qed.

Lemma remove_ballot_Ok participant stored st stored' st' :
  remove_ballot participant stored st = Ok (stored', st') ->
  exists previous, load_ballot (pt_participant_id participant) stored st = Ok previous /\
    sv_poll stored' = sv_poll stored /\ sv_manual_close stored' = sv_manual_close stored /\
    match previous with
    | Some j => st' = st <| st_ballots := delete (ballot_key stored (pt_participant_id participant)) (st_ballots st) |> /\
        sv_tallies stored' = alter N.pred j (sv_tallies stored) /\ (1 <= sv_total_votes stored)%N /\
        sv_total_votes stored' = (sv_total_votes stored - 1)%N /\ exists t, sv_tallies stored !! j = Some t /\ (1 <= t)%N
    | None => st' = st /\ stored' = stored
    end.
Proof.
  unfold remove_ballot. intros Hr. apply rtx_bind_Ok in Hr as (previous & st1 & Hp & Hr). apply reads_Ok in Hp as [Hp <-].
  exists previous. split; [done|]. destruct previous as [j|]; [|by apply rtx_ret_Ok in Hr as [<- <-]].
  apply rtx_bind_Ok in Hr as (tallies & st1 & Ht & Hr). apply lift_Ok in Ht as [[Hd Hv]%tally_down_Ok <-].
  apply rtx_bind_Ok in Hr as (? & st1 & Hl & Hr). apply lift_Ok in Hl as [Hl%require_Ok <-].
  apply rtx_bind_Ok in Hr as (? & st1 & Hm & Hr). apply modifies_Ok in Hm as ->. apply rtx_ret_Ok in Hr as [<- <-].
  simpl. apply N.leb_le in Hl. by split_and!.
Qed.

(** Operations that leave votes and ballots alone. *)
Definition same_votes (st st' : RoomStore) : Prop := vote_tables st' = vote_tables st.
#[local] Instance same_votes_preorder : PreOrder same_votes.
Proof. split; [done|]. intros a b c Hab Hbc. unfold same_votes in *. congruence. Qed.

Lemma insert_event_votes event : keeps same_votes (insert_event event).
Proof. intros st t st' [_ ->]%insert_event_Ok. done. Qed.
Lemma draw_uuid_votes : keeps same_votes draw_uuid.
Proof. intros st t st' [_ ->]%draw_uuid_Ok. done. Qed.
Lemma bind_attachment_votes principal seq now id : keeps same_votes (bind_message_attachment principal seq now id).
Proof. intros st t st'. unfold bind_message_attachment. repeat case_match; [by intros [= _ <-]|done..]. Qed.
#[local] Hint Resolve insert_event_votes draw_uuid_votes bind_attachment_votes : keeps.

(** Inversion of a step that leaves the votes alone. *)
Lemma same_votes_Ok {A} (m : rtx A) st a st' : keeps same_votes m -> m st = Ok (a, st') -> vote_tables st' = vote_tables st.
Proof. intros Hk. apply Hk. Qed.

Lemma prepare_vote_votes principal participant command sequence now :
  keeps same_votes (id ← draw_uuid; lift (lift_rejection (prepare_vote_event id principal participant command sequence now))).
Proof. keeps. Qed.

Lemma insert_vote_state_Ok event st t st' :
  insert_vote_state event st = Ok (t, st') ->
  exists k seq n, st_votes st !! k = None /\
    st' = st <| st_votes := <[k := MkVoteState seq (repeat 0%N n) 0 None]> (st_votes st) |>.
Proof.
  unfold insert_vote_state. intros Hr. apply bind_Ok in Hr as (d & _ & Hr). cbv zeta in Hr.
  apply bind_Ok in Hr as ([] & _ & Hr). apply bind_Ok in Hr as (votes & [Hn ->]%insert_row_Ok & [= _ <-]).
  eexists _, _, _. split; [exact Hn|done].
Qed.

(** Reading a vote that must be open. *)
Lemma open_vote_Ok room_id vote_id now st stored row :
  load_vote room_id vote_id st = Ok stored -> st_votes st !! (room_id, vote_id) = Some row ->
  require_open stored now = Ok tt -> vt_manual_close_seq row = None.
Proof.
  intros Hl Hrow Ho. apply load_vote_Ok in Hl as (row' & Hrow' & _ & _ & _ & _ & _ & _ & _ & Hc).
  assert (row' = row) as -> by congruence. unfold require_open in Ho. apply bind_Ok in Ho as ([] & _ & Ho).
  apply reject_if_Ok, bool_decide_eq_false in Ho. rewrite <- Hc. destruct (sv_manual_close stored); [|done]. by destruct Ho.
Qed.

Lemma create_step principal participant create sequence now st event st' :
  apply_vote_command principal participant (Create create) sequence now st = Ok (event, st') ->
  vote_step (vote_tables st) (vote_tables st').
Proof.
  unfold apply_vote_command. cbv zeta. intros Hr.
  apply rtx_bind_Ok in Hr as (atts & st1 & Hl & Hr). apply reads_Ok in Hl as [_ <-].
  apply rtx_bind_Ok in Hr as (e & st1 & Hp%(same_votes_Ok _ _ _ _ (prepare_vote_votes _ _ _ _ _)) & Hr).
  apply rtx_bind_Ok in Hr as ([] & st2 & Hi%(same_votes_Ok _ _ _ _ (insert_event_votes _)) & Hr).
  apply rtx_bind_Ok in Hr as ([] & st3 & (k & seq & n & Hn & ->)%insert_vote_state_Ok & Hr).
  apply rtx_bind_Ok in Hr as ([] & st4 & Hb & Hr). apply rtx_ret_Ok in Hr as [_ <-].
  apply (same_votes_Ok _ _ _ _) in Hb; [|unfold bind_message_attachments; keeps].
  rewrite Hb, <- Hp, <- Hi. by apply VsOpen.
Qed.

(** The row that is saved, when the vote was loaded and stayed where it was. *)
Lemma save_loaded_Ok room_id vote_id st0 stored row stored' st t st' :
  load_vote room_id vote_id st0 = Ok stored -> st_votes st0 !! (room_id, vote_id) = Some row ->
  st_votes st = st_votes st0 -> sv_poll stored' = sv_poll stored ->
  save_vote_state stored' st = Ok (t, st') ->
  st' = st <| st_votes := <[(room_id, vote_id) :=
    MkVoteState (vt_poll_seq row) (sv_tallies stored') (Z.of_N (sv_total_votes stored')) (fst <$> sv_manual_close stored')]>
    (st_votes st0) |>.
Proof.
  intros (row' & Hrow' & Hroom & Hid & _)%load_vote_Ok Hrow Hv Hpoll (row2 & Hrow2 & ->)%save_vote_state_Ok.
  rewrite Hpoll, Hroom, Hid, Hv in *. assert (row2 = row) as -> by congruence. done.
Qed.

Lemma cast_step principal participant cast sequence now st event st' :
  apply_vote_command principal participant (Cast cast) sequence now st = Ok (event, st') ->
  vote_step (vote_tables st) (vote_tables st').
Proof.
  unfold apply_vote_command. cbv zeta. intros Hr.
  apply rtx_bind_Ok in Hr as (stored & st1 & Hl & Hr). apply reads_Ok in Hl as [Hload <-].
  destruct (load_vote_Ok _ _ _ _ Hload) as (row & Hrow & Hroom & Hid & _ & Htal & Htot & Hlen & _ & Hclose).
  apply rtx_bind_Ok in Hr as ([] & st1 & Hl & Hr). apply lift_Ok in Hl as [Hopen <-].
  pose proof (open_vote_Ok _ _ _ _ _ _ Hload Hrow Hopen) as Hnone.
  apply rtx_bind_Ok in Hr as (choice & st1 & Hl & Hr). apply lift_Ok in Hl as [_ <-].
  apply rtx_bind_Ok in Hr as (i & st1 & Hl & Hr). apply lift_Ok in Hl as [Hpos%ok_or_Ok <-].
  apply rtx_bind_Ok in Hr as (e & st1 & Hp%(same_votes_Ok _ _ _ _ (prepare_vote_votes _ _ _ _ _)) & Hr).
  apply rtx_bind_Ok in Hr as (stored' & st2 & Hrep & Hr).
  apply rtx_bind_Ok in Hr as ([] & st3 & Hi%(same_votes_Ok _ _ _ _ (insert_event_votes _)) & Hr).
  apply rtx_bind_Ok in Hr as ([] & st4 & Hsave & Hr). apply rtx_ret_Ok in Hr as [_ <-].
  injection Hp as Hpv Hpb. injection Hi as Hiv Hib.
  apply replace_ballot_Ok in Hrep as (previous & Hprev & Hst2 & Hpoll & Hcl & Hcase).
  apply load_ballot_Ok in Hprev as [Hballot _]. unfold ballot_key in *. rewrite Hroom, Hid, Hpb in *.
  assert (st_votes st2 = st_votes st) as Hv2 by (rewrite Hst2; destruct (bool_decide _); simpl; congruence).
  pose proof (save_loaded_Ok _ _ _ _ _ _ _ _ _ Hload Hrow (eq_trans Hiv Hv2) Hpoll Hsave) as ->. clear Hsave.
  unfold vote_tables. simpl. rewrite Hib, Hst2.
  replace (st_ballots (if bool_decide _ then _ else _)) with
    (<[(pr_room_id principal, vk_vote_id cast, pt_participant_id participant) := Z.of_nat i]> (st_ballots st)).
  2:{ destruct (bool_decide _) eqn:Eb; simpl; rewrite ?Hpb; [|done]. apply bool_decide_eq_true in Eb as ->. by rewrite insert_id. }
  replace (MkVoteState _ _ _ _) with (cast_row previous i row).
  2:{ rewrite Hcl, Hclose. destruct previous as [j|]; destruct Hcase as (Ht & Hta & _); rewrite Ht, Hta, Htal; simpl.
      - case_match; destruct row; simpl in *; congruence.
      - destruct row; simpl in *; f_equal; lia. }
  eapply VsCast; [done|done| |exact Hballot|].
  - rewrite Hlen. by eapply position_lt.
  - destruct previous as [j|]; destruct Hcase as (_ & _ & Hcase); [by rewrite <- Htal|]. lia.
Qed.

Lemma withdraw_step principal participant reference sequence now st event st' :
  apply_vote_command principal participant (Withdraw reference) sequence now st = Ok (event, st') ->
  vote_step (vote_tables st) (vote_tables st').
Proof.
  unfold apply_vote_command. cbv zeta. intros Hr.
  apply rtx_bind_Ok in Hr as (stored & st1 & Hl & Hr). apply reads_Ok in Hl as [Hload <-].
  destruct (load_vote_Ok _ _ _ _ Hload) as (row & Hrow & Hroom & Hid & _ & Htal & Htot & Hlen & _ & Hclose).
  apply rtx_bind_Ok in Hr as ([] & st1 & Hl & Hr). apply lift_Ok in Hl as [Hopen <-].
  pose proof (open_vote_Ok _ _ _ _ _ _ Hload Hrow Hopen) as Hnone.
  apply rtx_bind_Ok in Hr as (e & st1 & Hp%(same_votes_Ok _ _ _ _ (prepare_vote_votes _ _ _ _ _)) & Hr).
  apply rtx_bind_Ok in Hr as ([] & st2 & Hi%(same_votes_Ok _ _ _ _ (insert_event_votes _)) & Hr).
  apply rtx_bind_Ok in Hr as (stored' & st3 & Hrem & Hr).
  apply rtx_bind_Ok in Hr as ([] & st4 & Hsave & Hr). apply rtx_ret_Ok in Hr as [_ <-].
  injection Hp as Hpv Hpb. injection Hi as Hiv Hib.
  apply remove_ballot_Ok in Hrem as (previous & Hprev & Hpoll & Hcl & Hcase).
  apply load_ballot_Ok in Hprev as [Hballot _]. unfold ballot_key in *. rewrite Hroom, Hid, Hib, Hpb in *.
  assert (st_votes st3 = st_votes st) as Hv2.
  { destruct previous; [destruct Hcase as (-> & _)|destruct Hcase as (-> & _)]; simpl; congruence. }
  pose proof (save_loaded_Ok _ _ _ _ _ _ _ _ _ Hload Hrow Hv2 Hpoll Hsave) as ->. clear Hsave.
  unfold vote_tables. simpl.
  replace (st_ballots st3) with (delete (pr_room_id principal, vr_vote_id reference, pt_participant_id participant) (st_ballots st)).
  2:{ destruct previous; destruct Hcase as (-> & _); simpl; rewrite ?Hib, ?Hpb; [done|]. by rewrite delete_id. }
  replace (MkVoteState _ _ _ _) with (withdraw_row previous row).
  2:{ rewrite Hcl, Hclose. destruct previous as [j|].
      - destruct Hcase as (_ & -> & Hone & -> & _). rewrite Htal. destruct row; simpl in *. f_equal. lia.
      - destruct Hcase as (_ & ->). rewrite Htal, Htot. destruct row; done. }
  eapply VsWithdraw; [done|done|exact Hballot|]. destruct previous as [j|]; [|done].
  destruct Hcase as (_ & _ & _ & _ & Hcase). by rewrite <- Htal.
Qed.

Lemma close_step principal participant reference sequence now st event st' :
  apply_vote_command principal participant (Close reference) sequence now st = Ok (event, st') ->
  vote_step (vote_tables st) (vote_tables st').
Proof.
  unfold apply_vote_command. cbv zeta. intros Hr.
  apply rtx_bind_Ok in Hr as (stored & st1 & Hl & Hr). apply reads_Ok in Hl as [Hload <-].
  destruct (load_vote_Ok _ _ _ _ Hload) as (row & Hrow & Hroom & Hid & _ & Htal & Htot & Hlen & _ & Hclose).
  apply rtx_bind_Ok in Hr as ([] & st1 & Hl & Hr). apply lift_Ok in Hl as [Hopen <-].
  pose proof (open_vote_Ok _ _ _ _ _ _ Hload Hrow Hopen) as Hnone.
  apply rtx_bind_Ok in Hr as ([] & st1 & Hl & Hr). apply lift_Ok in Hl as [_ <-].
  apply rtx_bind_Ok in Hr as (e & st1 & Hp%(same_votes_Ok _ _ _ _ (prepare_vote_votes _ _ _ _ _)) & Hr).
  apply rtx_bind_Ok in Hr as ([] & st2 & Hi%(same_votes_Ok _ _ _ _ (insert_event_votes _)) & Hr).
  apply rtx_bind_Ok in Hr as ([] & st4 & Hsave & Hr). apply rtx_ret_Ok in Hr as [_ <-].
  injection Hp as Hpv Hpb. injection Hi as Hiv Hib.
  pose proof (fun Hp => save_loaded_Ok _ _ _ _ _ _ _ _ _ Hload Hrow (eq_trans Hiv Hpv) Hp Hsave) as Hst. rewrite Hst by done. clear Hsave Hst.
  unfold vote_tables. simpl. rewrite Hib, Hpb, Htal, Htot.
  replace (MkVoteState _ _ _ _) with (row <| vt_manual_close_seq := Some sequence |>) by (by destruct row). by apply VsClose.
Qed.

Lemma apply_vote_command_step principal participant command sequence now st event st' :
  apply_vote_command principal participant command sequence now st = Ok (event, st') ->
  vote_step (vote_tables st) (vote_tables st').
Proof. destruct command; [apply create_step|apply cast_step|apply withdraw_step|apply close_step]. Qed.

Lemma delete_vote_step room_id vote_id poll_seq st t st' :
  delete_vote_projection room_id vote_id poll_seq st = Ok (t, st') -> vote_step (vote_tables st) (vote_tables st').
Proof.
  unfold delete_vote_projection. destruct (st_votes st !! _) as [row|] eqn:E; [|done]. destruct (_ =? _); [|done].
  intros [= _ <-]. by eapply VsDelete.
Qed.

(** ** The counts agree with the ballots *)

Lemma is_ballot_own k p x v : is_ballot k p (k, x, v) = p v.
Proof. unfold is_ballot. simpl. by rewrite bool_decide_true. Qed.
Lemma is_ballot_other k k' p x v : k' <> k -> is_ballot k p (k', x, v) = false.
Proof. intros Hne. unfold is_ballot. simpl. by rewrite bool_decide_false. Qed.

Lemma ballots_none (k : str * str) (q : Z -> bool) (t : ballot_table) : (forall x, t !! (k, x) = None) -> ballots_where k q t = 0%nat.
Proof.
  intros Hn. unfold ballots_where. replace (filter _ t) with (∅ : ballot_table); [done|]. symmetry.
  apply map_empty. intros [bk x]. apply map_lookup_filter_None. right. intros v Hv Hb. unfold is_ballot in Hb. simpl in Hb. apply andb_true_iff in Hb as [Hk _].
  apply bool_decide_eq_true in Hk as ->. by rewrite Hn in Hv.
Qed.

Lemma ballots_filter_other (k k' : str * str) (q : Z -> bool) (t : ballot_table) :
  k <> k' -> ballots_where k q (filter (fun e => e.1.1 <> k') t) = ballots_where k q t.
Proof.
  intros Hne. unfold ballots_where. rewrite map_filter_filter. f_equal. apply map_filter_ext. intros [bk x] v _. simpl.
  unfold is_ballot. simpl. split; [tauto|]. intros Hb. split; [done|]. apply andb_true_iff in Hb as [Hb _].
  apply bool_decide_eq_true in Hb. congruence.
Qed.

Lemma eqb_nat i j : (Z.of_nat i =? Z.of_nat j) = bool_decide (i = j).
Proof. destruct (decide (i = j)) as [->|Hne]; [rewrite bool_decide_true by done; lia|rewrite bool_decide_false by done; lia]. Qed.

Lemma lookup_alter_tally (f : N -> N) i j (l : list N) t :
  alter f i l !! j = Some t -> exists t0, l !! j = Some t0 /\ t = if bool_decide (j = i) then f t0 else t0.
Proof.
  destruct (decide (j = i)) as [->|Hne].
  - rewrite list_lookup_alter_eq, bool_decide_true by done. intros (t0 & -> & Ht)%fmap_Some. by exists t0.
  - rewrite list_lookup_alter_ne, bool_decide_false by done. intros Ht. by exists t.
Qed.

(** Updating one poll and its ballots. *)
Lemma votes_ok_update v b k row' b' :
  votes_ok (v, b) ->
  (forall k' q, k' <> k -> ballots_where k' q b' = ballots_where k' q b) ->
  (forall i t, vt_tallies row' !! i = Some t -> t = N.of_nat (ballots_for k i b')) ->
  vt_total_votes row' = Z.of_nat (ballots_of k b') -> vt_total_votes row' <= Z.of_N MAX_VOTE_BALLOTS_PER_POLL ->
  (forall bk w, b' !! bk = Some w ->
     b !! bk = Some w /\ bk.1 <> k \/ bk.1 = k /\ 0 <= w /\ (Z.to_nat w < length (vt_tallies row'))%nat) ->
  votes_ok (<[k := row']> v, b').
Proof.
  intros Hok Hother Ht Htot Hmax Hrange. split; simpl.
  - intros k' r i t [(<- & <-) | (Hne & Hr)]%lookup_insert_Some Hi; [by apply Ht|].
    unfold ballots_for. rewrite Hother by done. by eapply (vo_tallies _ Hok).
  - intros k' r [(<- & <-) | (Hne & Hr)]%lookup_insert_Some; [done|].
    unfold ballots_of. rewrite Hother by done. by eapply (vo_total _ Hok).
  - intros k' r [(<- & <-) | (Hne & Hr)]%lookup_insert_Some; [done|]. by eapply (vo_bound _ Hok).
  - intros bk w Hw. destruct (Hrange bk w Hw) as [(Hb & Hne) | (-> & Hb)].
    + rewrite lookup_insert_ne by done. by apply (vo_range _ Hok).
    + rewrite lookup_insert_eq. by exists row'.
Qed.

(** Every ballot of a poll that is not the one that changes still names an option. *)
Lemma own_range v b k row bk w :
  votes_ok (v, b) -> v !! k = Some row -> b !! bk = Some w ->
  b !! bk = Some w /\ bk.1 <> k \/ bk.1 = k /\ 0 <= w /\ (Z.to_nat w < length (vt_tallies row))%nat.
Proof.
  intros Hok Hrow Hw. destruct (decide (bk.1 = k)) as [Ek|Hne]; [right|by left].
  destruct (vo_range _ Hok _ _ Hw) as (r & Hr & Hrange). simpl in Hr. rewrite Ek in *. assert (r = row) as -> by congruence. done.
Qed.

Lemma recast_ok v b k row x j i :
  votes_ok (v, b) -> v !! k = Some row -> (i < length (vt_tallies row))%nat -> b !! (k, x) = Some (Z.of_nat j) ->
  j <> i -> (exists t, vt_tallies row !! j = Some t /\ (1 <= t)%N) ->
  votes_ok (<[k := row <| vt_tallies := alter N.succ i (alter N.pred j (vt_tallies row)) |>]> v, <[(k, x) := Z.of_nat i]> b).
Proof.
  intros Hok Hrow Hi Hb Hji (tj & Htj & Hpos).
  pose proof (fun k' q => ballots_replace k' q b (k, x) (Z.of_nat j) (Z.of_nat i) Hb) as Hcount.
  apply (votes_ok_update _ b); simpl.
  - done.
  - intros k' q Hne. specialize (Hcount k' q). by rewrite !is_ballot_other in Hcount by done.
  - intros c t Ht. apply lookup_alter_tally in Ht as (t1 & Ht & ->). apply lookup_alter_tally in Ht as (t0 & Ht & ->).
    pose proof (vo_tallies _ Hok k row c t0 Hrow Ht) as H0t. specialize (Hcount k (fun w => w =? Z.of_nat c)).
    rewrite !is_ballot_own, !eqb_nat in Hcount. unfold ballots_for in *. simpl in H0t.
    assert (c = j -> (1 <= t0)%N) as Hone by (intros ->; congruence).
    repeat case_bool_decide; subst; simpl in Hcount; lia.
  - rewrite (vo_total _ Hok k row) by done. specialize (Hcount k (fun _ => true)). rewrite !is_ballot_own in Hcount.
    unfold ballots_of. simpl in *. lia.
  - by eapply (vo_bound _ Hok).
  - intros bk w Hw. rewrite !length_alter. apply lookup_insert_Some in Hw as [(<- & <-) | (Hne & Hw)].
    + right. split; [done|]. lia.
    + by eapply own_range.
Qed.

Lemma first_cast_ok v b k row x i :
  votes_ok (v, b) -> v !! k = Some row -> (i < length (vt_tallies row))%nat -> b !! (k, x) = None ->
  vt_total_votes row < Z.of_N MAX_VOTE_BALLOTS_PER_POLL ->
  votes_ok (<[k := row <| vt_tallies := alter N.succ i (vt_tallies row) |> <| vt_total_votes := vt_total_votes row + 1 |>]> v,
            <[(k, x) := Z.of_nat i]> b).
Proof.
  intros Hok Hrow Hi Hb Hmax. pose proof (fun k' q => ballots_insert_new k' q b (k, x) (Z.of_nat i) Hb) as Hcount.
  apply (votes_ok_update _ b); simpl.
  - done.
  - intros k' q Hne. rewrite Hcount. by rewrite is_ballot_other.
  - intros c t Ht. apply lookup_alter_tally in Ht as (t0 & Ht & ->).
    pose proof (vo_tallies _ Hok k row c t0 Hrow Ht) as H0t. unfold ballots_for in *. simpl in H0t.
    rewrite Hcount, is_ballot_own, eqb_nat. repeat case_bool_decide; subst; simpl; try lia; congruence.
  - rewrite (vo_total _ Hok k row) by done. unfold ballots_of. rewrite Hcount, is_ballot_own. simpl. lia.
  - unfold MAX_VOTE_BALLOTS_PER_POLL in *. lia.
  - intros bk w Hw. rewrite length_alter. apply lookup_insert_Some in Hw as [(<- & <-) | (Hne & Hw)].
    + right. split; [done|]. lia.
    + by eapply own_range.
Qed.

Lemma withdraw_ok v b k row x j :
  votes_ok (v, b) -> v !! k = Some row -> b !! (k, x) = Some (Z.of_nat j) ->
  (exists t, vt_tallies row !! j = Some t /\ (1 <= t)%N) ->
  votes_ok (<[k := row <| vt_tallies := alter N.pred j (vt_tallies row) |> <| vt_total_votes := vt_total_votes row - 1 |>]> v,
            delete (k, x) b).
Proof.
  intros Hok Hrow Hb (tj & Htj & Hpos). pose proof (fun k' q => ballots_delete k' q b (k, x) (Z.of_nat j) Hb) as Hcount.
  apply (votes_ok_update _ b); simpl.
  - done.
  - intros k' q Hne. specialize (Hcount k' q). by rewrite is_ballot_other in Hcount by done.
  - intros c t Ht. apply lookup_alter_tally in Ht as (t0 & Ht & ->).
    pose proof (vo_tallies _ Hok k row c t0 Hrow Ht) as H0t. unfold ballots_for in *. simpl in H0t.
    specialize (Hcount k (fun w => w =? Z.of_nat c)). rewrite is_ballot_own, eqb_nat in Hcount.
    repeat case_bool_decide; subst; simpl in Hcount; try lia; congruence.
  - rewrite (vo_total _ Hok k row) by done. specialize (Hcount k (fun _ => true)). rewrite is_ballot_own in Hcount.
    unfold ballots_of. simpl in *. lia.
  - pose proof (vo_bound _ Hok k row Hrow). unfold MAX_VOTE_BALLOTS_PER_POLL in *. lia.
  - intros bk w Hw. rewrite length_alter. apply lookup_delete_Some in Hw as [_ Hw]. by eapply own_range.
Qed.

Lemma vote_step_ok t t' : vote_step t t' -> votes_ok t -> votes_ok t'.
Proof.
  intros Hs Hok. destruct Hs as [v b|v b k seq n Hn|v b k row x previous i Hrow Hnone Hi Hb Hcase
    |v b k row x previous Hrow Hnone Hb Hcase|v b k row seq Hrow Hnone|v b k row Hrow].
  - done.
  - assert (forall x, b !! (k, x) = None) as Hempty.
    { intros x. destruct (b !! (k, x)) as [w|] eqn:E; [|done]. destruct (vo_range _ Hok _ _ E) as (r & Hr & _). simpl in Hr. congruence. }
    apply (votes_ok_update _ b); simpl.
    + done.
    + done.
    + intros i t ->%list_elem_of_lookup_2%list_elem_of_In%repeat_spec. unfold ballots_for. by rewrite ballots_none.
    + unfold ballots_of. by rewrite ballots_none.
    + done.
    + intros [bk x] w Hw. left. split; [done|]. simpl. intros ->. simpl in *. congruence.
  - destruct previous as [j|]; simpl in *; [|by apply first_cast_ok]. case_bool_decide as Eji.
    + subst j. by rewrite !insert_id.
    + destruct Hcase as [?|Hcase]; [done|]. by apply recast_ok.
  - destruct previous as [j|]; simpl in *; [by apply withdraw_ok|]. by rewrite insert_id, delete_id.
  - apply (votes_ok_update _ b); simpl; [done|done| | | |].
    + intros i t Ht. by eapply (vo_tallies _ Hok).
    + by eapply (vo_total _ Hok).
    + by eapply (vo_bound _ Hok).
    + intros bk w Hw. by eapply own_range.
  - split; simpl.
    + intros k' r i t [Hne Hr]%lookup_delete_Some Ht. unfold ballots_for. rewrite ballots_filter_other by done. by eapply (vo_tallies _ Hok).
    + intros k' r [Hne Hr]%lookup_delete_Some. unfold ballots_of. rewrite ballots_filter_other by done. by eapply (vo_total _ Hok).
    + intros k' r [Hne Hr]%lookup_delete_Some. by eapply (vo_bound _ Hok).
    + intros bk w [Hw Hne]%map_lookup_filter_Some. simpl in Hne. destruct (vo_range _ Hok _ _ Hw) as (r & Hr & Hrange).
      exists r. by rewrite lookup_delete_ne.
Qed.

(** *** Histories of the store of votes *)

(** What may happen: a vote command, the deletion of a poll, anything that leaves votes and ballots alone. *)
Inductive vote_move (st st' : RoomStore) : Prop :=
| VmCommand principal participant command sequence now event :
    apply_vote_command principal participant command sequence now st = Ok (event, st') -> vote_move st st'
| VmDelete room_id vote_id poll_seq t : delete_vote_projection room_id vote_id poll_seq st = Ok (t, st') -> vote_move st st'
| VmOther : st_votes st' = st_votes st -> st_ballots st' = st_ballots st -> vote_move st st'.

Lemma vote_move_step st st' : vote_move st st' -> vote_step (vote_tables st) (vote_tables st').
Proof.
  intros [principal participant command sequence now event Hr|room_id vote_id poll_seq t Hr|Hv Hb].
  - by eapply apply_vote_command_step.
  - by eapply delete_vote_step.
  - unfold vote_tables. rewrite Hv, Hb. apply VsSame.
Qed.

Lemma vote_moves_ok st st' : rtc vote_move st st' -> votes_ok (vote_tables st) -> votes_ok (vote_tables st').
Proof. induction 1 as [|x y z Hxy _ IH]; [done|]. intros Hok. eapply IH, vote_step_ok; [by apply vote_move_step|done]. Qed.

Lemma no_votes_ok st : st_votes st = ∅ -> st_ballots st = ∅ -> votes_ok (vote_tables st).
Proof.
  intros Hv Hb. unfold vote_tables. rewrite Hv, Hb.
  split; simpl; intros *; rewrite lookup_empty; done.
Qed.

(** Starting without votes, each tally is the number of ballots for its option, the total is the number of
    ballots and at most 192, and every ballot names an option of a poll that exists. *)

(** C25: at any moment the tally of each option of each poll is the number of ballots for
    it, the total is the number of ballots and at most 192, and every ballot names an option
    of an existing poll. *)
Theorem tallies_count_ballots st0 st :
  st_votes st0 = ∅ -> st_ballots st0 = ∅ -> rtc vote_move st0 st ->
  (forall k row, st_votes st !! k = Some row ->
     (forall i tally, vt_tallies row !! i = Some tally -> tally = N.of_nat (ballots_for k i (st_ballots st))) /\
     vt_total_votes row = Z.of_nat (ballots_of k (st_ballots st)) /\ (ballots_of k (st_ballots st) <= 192)%nat) /\
  (forall k participant_id choice, st_ballots st !! (k, participant_id) = Some choice ->
     exists row, st_votes st !! k = Some row /\ 0 <= choice < Z.of_nat (length (vt_tallies row))).
Proof.
  intros Hv Hb Hrun. pose proof (vote_moves_ok _ _ Hrun (no_votes_ok _ Hv Hb)) as Hok. split.
  - intros k row Hrow. pose proof (vo_total _ Hok k row Hrow) as Htot. pose proof (vo_bound _ Hok k row Hrow) as Hmax.
    split; [|split; [done|]]; [|simpl in *; lia]. intros i tally. by apply (vo_tallies _ Hok).
  - intros k x choice Hc. destruct (vo_range _ Hok _ _ Hc) as (row & Hrow & Hlo & Hhi). exists row. split; [done|]. lia.
Qed.

(** A ballot is recorded under the option it names, in place of the participant's earlier one, and no other
    ballot changes. *)

(** a cast ballot is recorded under the option it names, in place of the earlier one of
    the participant, and no other ballot changes. *)
Theorem cast_replaces_ballot principal participant cast sequence now st event st' :
  apply_vote_command principal participant (Cast cast) sequence now st = Ok (event, st') ->
  exists stored choice i,
    load_vote (pr_room_id principal) (vk_vote_id cast) st = Ok stored /\
    resolve_vote_choice (vk_choice cast) (vd_options (sv_definition stored)) = Some choice /\
    position choice (vd_options (sv_definition stored)) = Some i /\
    st_ballots st' = <[(pr_room_id principal, vk_vote_id cast, pt_participant_id participant) := Z.of_nat i]> (st_ballots st).
Proof.
  unfold apply_vote_command. cbv zeta. intros Hr.
  apply rtx_bind_Ok in Hr as (stored & st1 & Hl & Hr). apply reads_Ok in Hl as [Hload <-].
  destruct (load_vote_Ok _ _ _ _ Hload) as (_ & _ & Hroom & Hid & _).
  apply rtx_bind_Ok in Hr as ([] & st1 & Hl & Hr). apply lift_Ok in Hl as [_ <-].
  apply rtx_bind_Ok in Hr as (choice & st1 & Hl & Hr). apply lift_Ok in Hl as [Hchoice%ok_or_Ok <-].
  apply rtx_bind_Ok in Hr as (i & st1 & Hl & Hr). apply lift_Ok in Hl as [Hpos%ok_or_Ok <-].
  apply rtx_bind_Ok in Hr as (e & st1 & Hp%(same_votes_Ok _ _ _ _ (prepare_vote_votes _ _ _ _ _)) & Hr).
  apply rtx_bind_Ok in Hr as (stored' & st2 & Hrep & Hr).
  apply rtx_bind_Ok in Hr as ([] & st3 & Hi%(same_votes_Ok _ _ _ _ (insert_event_votes _)) & Hr).
  apply rtx_bind_Ok in Hr as ([] & st4 & Hsave & Hr). apply rtx_ret_Ok in Hr as [_ <-].
  injection Hp as _ Hpb. injection Hi as _ Hib.
  apply replace_ballot_Ok in Hrep as (previous & Hprev & Hst2 & _). apply load_ballot_Ok in Hprev as [Hballot _].
  apply save_vote_state_Ok in Hsave as (? & _ & ->). unfold ballot_key in *. rewrite Hroom, Hid, Hpb in *.
  exists stored, choice, i. split_and!; [done..|]. simpl. rewrite Hib, Hst2.
  destruct (bool_decide _) eqn:Eb; simpl; rewrite ?Hpb; [|done]. apply bool_decide_eq_true in Eb as ->. by rewrite insert_id.
Qed.

(** One step after a vote was closed. *)
Lemma closed_step k row seq t t' :
  vote_step t t' -> t.1 !! k = Some row -> vt_manual_close_seq row = Some seq -> t'.1 !! k <> None ->
  t'.1 !! k = Some row /\ forall x, t'.2 !! (k, x) = t.2 !! (k, x).
Proof.
  intros Hs Hk Hclosed Hkept. destruct Hs as [v b|v b k' s n Hn|v b k' r x previous i Hrow Hnone _ _ _
    |v b k' r x previous Hrow Hnone _ _|v b k' r s Hrow Hnone|v b k' r Hrow]; simpl in *.
  1: done.
  1-4: assert (k' <> k) as Hne by (intros ->; congruence); rewrite lookup_insert_ne by done; split; [done|].
  all: try (intros y; rewrite ?lookup_insert_ne, ?lookup_delete_ne by congruence; done).
  assert (k' <> k) as Hne by (intros ->; by rewrite lookup_delete_eq in Hkept).
  rewrite lookup_delete_ne by done. split; [done|]. intros y. rewrite map_lookup_filter. simpl.
  destruct (b !! (k, y)) as [w|]; [|done]. simpl. by rewrite option_guard_True by congruence.
Qed.

(** A vote that was closed keeps its row and its ballots for as long as it exists. *)

(** a vote that was closed keeps its tallies and every one of its ballots for as long
    as it exists. *)
Theorem closed_vote_is_final st st' k row seq :
  st_votes st !! k = Some row -> vt_manual_close_seq row = Some seq ->
  rtc (fun a b => vote_move a b /\ st_votes b !! k <> None) st st' ->
  st_votes st' !! k = Some row /\ forall participant_id, st_ballots st' !! (k, participant_id) = st_ballots st !! (k, participant_id).
Proof.
  intros Hk Hclosed Hrun. revert Hk. induction Hrun as [|a b c [Hm Hkept] _ IH]; intros Hk; [done|].
  destruct (closed_step k row seq _ _ (vote_move_step _ _ Hm)) as [Hb Hsame]; [done..|]. simpl in *.
  destruct (IH Hb) as [Hc Hc']. split; [done|]. intros x. by rewrite Hc', Hsame.
Qed.

(** A ballot, a withdrawal or a closing of a vote that has ended is refused. *)

(** a ballot, a withdrawal or a closing of a vote that was closed or whose deadline has
    passed is refused with a rejection that ends the turn of the agent that asked for it. *)
Theorem ended_vote_refuses principal participant command sequence now st stored vote_id :
  load_vote (pr_room_id principal) vote_id st = Ok stored ->
  sv_manual_close stored <> None \/ (exists deadline, vd_deadline_at (sv_definition stored) = Some deadline /\ deadline <= now) ->
  match command with Create _ => False | Cast cast => vk_vote_id cast = vote_id | Withdraw r | Close r => vr_vote_id r = vote_id end ->
  exists error, apply_vote_command principal participant command sequence now st = Err error /\
    is_terminal_vote_rejection error = true.
Proof.
  intros Hload Hended Hid. assert (exists error, require_open stored now = Err error /\ is_terminal_vote_rejection error = true)
    as (error & Ho & Hterm).
  { unfold require_open. destruct Hended as [Hc | (d & Hd & Hle)].
    - rewrite (bool_decide_true _ Hc). destruct (vd_deadline_at _) as [d|]; [destruct (d <=? now)|]; simpl; by eexists.
    - rewrite Hd, (proj2 (Z.leb_le _ _) Hle). by eexists. }
  exists error. split; [|done]. unfold apply_vote_command. cbv zeta.
  destruct command as [create|cast|reference|reference]; [done|..]; rewrite Hid;
    unfold mbind, rtx_bind, reads, lift; rewrite Hload, Ho; done.
Qed.

End votes.

(** ** Concrete inputs *)

#[local] Existing Instance demo_entropy.
Definition plain_case : Caseless := fun s => s.
#[local] Existing Instance plain_case.
Definition silent_clock : Chrono := {| to_rfc3339 := fun _ => []; datetime_json := fun _ => []; parse_rfc3339 := fun _ => None |}.
#[local] Existing Instances ascii_general_category silent_clock.

Definition demo_ann : AuthenticatedPrincipal :=
  {| pr_principal_id := u "principal"; pr_participant_id := u "ann"; pr_display_name := u "ann"; pr_room_id := u "room";
     pr_client_kind := Browser; pr_invite_scope := ReadWrite; pr_is_operator := true;
     pr_capabilities := local_operator_capabilities Browser ReadWrite |}.
Definition demo_poll : VoteCommand := Create (MkVoteCreate (u "Lunch") [u "Yes"; u "No"] 0 []).
Definition demo_voter : Participant := demo_participant "ann" "human" Human.
Definition demo_vote (command : VoteCommand) (seq : Z) : rtx RoomEvent :=
  apply_vote_command demo_ann demo_voter command seq 0.
Definition demo_cast (choice : string) : VoteCommand := Cast (MkVoteCast (u "uuid-0") (u choice)).
Definition no_event : RoomEvent := demo_message "none" 0 "".
Definition demo_close : VoteCommand := Close (MkVoteReference (u "uuid-0")).
Definition demo_polled : RoomStore := step no_event (demo_vote demo_poll 3) (demo_store "ordered").
Definition demo_balloted : RoomStore := step no_event (demo_vote (demo_cast "Yes") 4) demo_polled.
Definition demo_recast : RoomStore := step no_event (demo_vote (demo_cast "No") 5) demo_balloted.
Definition demo_closed : RoomStore := step no_event (demo_vote demo_close 6) demo_recast.
Definition demo_vote_key : str * str := (u "room", u "uuid-0").

Example demo_votes :
  map (fun st => (option_map (fun r => (vt_tallies r, vt_total_votes r)) (st_votes st !! demo_vote_key), size (st_ballots st)))
    [demo_store "ordered"; demo_polled; demo_balloted; demo_recast] =
  [(None, 0%nat); (Some ([0%N; 0%N], 0), 0%nat); (Some ([1%N; 0%N], 1), 1%nat); (Some ([0%N; 1%N], 1), 1%nat)].
Proof. vm_compute. reflexivity. Qed.

Lemma demo_polled_Ok : vote_move (demo_store "ordered") demo_polled.
Proof. exact (VmCommand _ _ _ _ _ _ _ _ (step_Ok no_event (demo_vote demo_poll 3) (demo_store "ordered") ltac:(by vm_compute))). Qed.
Lemma demo_balloted_Ok : vote_move demo_polled demo_balloted.
Proof. exact (VmCommand _ _ _ _ _ _ _ _ (step_Ok no_event (demo_vote (demo_cast "Yes") 4) demo_polled ltac:(by vm_compute))). Qed.
Lemma demo_recast_Ok :
  demo_vote (demo_cast "No") 5 demo_balloted = Ok (value_of no_event (demo_vote (demo_cast "No") 5) demo_balloted, demo_recast).
Proof. exact (step_Ok no_event (demo_vote (demo_cast "No") 5) demo_balloted ltac:(by vm_compute)). Qed.
Definition demo_closed_row : VoteStateRow := default (MkVoteState 0 [] 0 None) (st_votes demo_closed !! demo_vote_key).
Lemma demo_closed_row_Some : st_votes demo_closed !! demo_vote_key = Some demo_closed_row.
Proof.
  assert (negb (bool_decide (st_votes demo_closed !! demo_vote_key = None)) = true) as Hs by (by vm_compute).
  unfold demo_closed_row. by destruct (st_votes demo_closed !! demo_vote_key).
Qed.

Lemma quiescing_move st k row :
  st_votes st !! k = Some row ->
  vote_move st (st <| st_quiescing := true |>) /\ st_votes (st <| st_quiescing := true |>) !! k <> None.
Proof. intros Hk. split; [by apply VmOther|]. simpl. by rewrite Hk. Qed.

Definition demo_no_vote : StoredVote := MkStoredVote no_event (MkVoteDefinition [] [] 0 None) [] 0 None.
Definition demo_closed_vote : StoredVote := run_tx demo_no_vote (load_vote (u "room") (u "uuid-0") demo_closed).

Lemma tallies_count_ballots_witness :
  (forall k row, st_votes demo_recast !! k = Some row ->
     (forall i tally, vt_tallies row !! i = Some tally -> tally = N.of_nat (ballots_for k i (st_ballots demo_recast))) /\
     vt_total_votes row = Z.of_nat (ballots_of k (st_ballots demo_recast)) /\ (ballots_of k (st_ballots demo_recast) <= 192)%nat) /\
  (forall k participant_id choice, st_ballots demo_recast !! (k, participant_id) = Some choice ->
     exists row, st_votes demo_recast !! k = Some row /\ 0 <= choice < Z.of_nat (length (vt_tallies row))).
Proof.
  apply (tallies_count_ballots (demo_store "ordered")); [done|done|].
  eapply rtc_l; [exact demo_polled_Ok|]. eapply rtc_l; [exact demo_balloted_Ok|]. eapply rtc_l; [|apply rtc_refl].
  exact (VmCommand _ _ _ _ _ _ _ _ demo_recast_Ok).
Defined.

Lemma cast_replaces_ballot_witness : exists stored choice i,
  load_vote (u "room") (u "uuid-0") demo_balloted = Ok stored /\
  resolve_vote_choice (u "No") (vd_options (sv_definition stored)) = Some choice /\
  position choice (vd_options (sv_definition stored)) = Some i /\
  st_ballots demo_recast = <[(u "room", u "uuid-0", u "ann") := Z.of_nat i]> (st_ballots demo_balloted).
Proof. exact (cast_replaces_ballot demo_ann demo_voter _ 5 0 demo_balloted _ demo_recast demo_recast_Ok). Defined.

Lemma closed_vote_is_final_witness :
  st_votes (demo_closed <| st_quiescing := true |>) !! demo_vote_key = Some demo_closed_row /\
  forall participant_id, st_ballots (demo_closed <| st_quiescing := true |>) !! (demo_vote_key, participant_id) =
    st_ballots demo_closed !! (demo_vote_key, participant_id).
Proof.
  apply (closed_vote_is_final demo_closed _ demo_vote_key demo_closed_row 6).
  - exact demo_closed_row_Some.
  - by vm_compute.
  - apply rtc_once. exact (quiescing_move demo_closed _ _ demo_closed_row_Some).
Defined.

Lemma ended_vote_refuses_witness :
  exists error, demo_vote (demo_cast "Yes") 7 demo_closed = Err error /\ is_terminal_vote_rejection error = true.
Proof.
  refine (ended_vote_refuses demo_ann demo_voter (demo_cast "Yes") 7 0 demo_closed demo_closed_vote (u "uuid-0") _ _ eq_refl).
  - exact (run_tx_Ok demo_no_vote (load_vote (u "room") (u "uuid-0") demo_closed) ltac:(by vm_compute)).
  - left. by vm_compute.
Defined.
