(* ===== verification/Execution.v ===== *)
(** * The custody of a provider turn (agentsassemble-persistence/src/provider_turn_execution.rs,
    provider_turn_start.rs, provider_turn_effect.rs, and the row updates of
    provider_turn_effect_finalize.rs, provider_turn_reconciliation.rs,
    provider_turn_stop.rs, attendee_interrupt.rs)

    Every turn has a row that says how far its provider has been driven, and may
    have an interrupt effect. Each operation is fenced by the identities it was
    given and by the phase it expects: it updates exactly the row it means or
    fails. The columns [created_at] and [updated_at] are not modelled. *)

From Stdlib Require Import String.
From stdpp Require Import gmap.
From S2P Require Import Prelude Text Json Model Command Settings Store Turn RoomStore Authority Requests.
From S2P Require Import Observation.

(** ** provider_turn_execution.rs *)

Record ProviderTurnStartAuthority : Type := MkStartAuthority {
  sa_room_id : str;
  sa_session_id : str;
  sa_turn_generation : N;
  sa_execution_id : str;
  sa_turn_id : str;
  sa_runtime_handle_id : str;
  sa_runtime_owner_id : str;
  sa_runtime_lease_token : str;
  sa_start_dispatch_nonce : str
}.

(** room_turns.rs *)
Record ProviderTurnAuthority : Type := MkTurnAuthority {
  ta_room_id : str;
  ta_session_id : str;
  ta_turn_id : str;
  ta_turn_generation : N;
  ta_execution_id : str;
  ta_start_dispatch_nonce : str;
  ta_runtime_handle_id : str;
  ta_runtime_owner_id : str;
  ta_runtime_lease_token : str;
  ta_provider_turn_id : str;
  ta_provider_session_id : option str
}.

(** provider_turn_effect.rs: a row of the effects joined with its execution. *)
Record ProviderTurnInterruptEffect : Type := MkInterruptEffect {
  ie_room_id : str;
  ie_session_id : str;
  ie_turn_generation : N;
  ie_effect_id : str;
  ie_cause : ProviderTurnInterruptCause;
  ie_phase : ProviderTurnEffectPhase;
  ie_execution_id : str;
  ie_participant_id : str;
  ie_turn_id : str;
  ie_start_dispatch_nonce : str;
  ie_runtime_handle_id : str;
  ie_runtime_owner_id : str;
  ie_runtime_lease_token : str;
  ie_dispatch_nonce : str
}.
#[global] Instance eta_ProviderTurnInterruptEffect : EtaRecord ProviderTurnInterruptEffect :=
  fun r => MkInterruptEffect (ie_room_id r) (ie_session_id r) (ie_turn_generation r) (ie_effect_id r)
    (ie_cause r) (ie_phase r) (ie_execution_id r) (ie_participant_id r) (ie_turn_id r)
    (ie_start_dispatch_nonce r) (ie_runtime_handle_id r) (ie_runtime_owner_id r)
    (ie_runtime_lease_token r) (ie_dispatch_nonce r).

Record ProviderTurnEffectClaim : Type := MkEffectClaim {
  cl_effect : ProviderTurnInterruptEffect;
  cl_owner : str
}.

Definition sa_key (a : ProviderTurnStartAuthority) : execution_key :=
  (sa_room_id a, sa_session_id a, sa_turn_generation a).
Definition ta_key (a : ProviderTurnAuthority) : execution_key :=
  (ta_room_id a, ta_session_id a, ta_turn_generation a).
Definition ie_key (e : ProviderTurnInterruptEffect) : execution_key :=
  (ie_room_id e, ie_session_id e, ie_turn_generation e).

Definition invalid_execution : PersistenceError :=
  rejected_tx "stored_turn_execution_invalid" "Stored provider turn execution authority is invalid.".
Definition stale_execution : PersistenceError :=
  rejected_tx "stale_provider_turn" "Provider turn execution authority changed before this operation.".
Definition invalid_effect : PersistenceError :=
  rejected_tx "stored_turn_effect_invalid" "Stored provider turn effect authority is invalid.".
Definition stale_effect : PersistenceError :=
  rejected_tx "stale_provider_turn_effect" "Provider turn effect authority changed before this operation.".
Definition unresolved_turn_effect : PersistenceError :=
  CommandUnresolved (u "provider_turn_effect_unresolved")
    (u "The exact provider turn effect is owned by recovery or remains unresolved.").

Definition generation_i64 (generation : N) (invalid : PersistenceError) : tx unit :=
  require (Z.of_N generation <=? i64_max) invalid.

Definition same_custody (x y : ProviderTurnExecution) : bool :=
  custody_is x (pe_runtime_handle_id y) (pe_runtime_owner_id y) (pe_runtime_lease_token y).

(** [UPDATE provider_turn_executions SET f WHERE <the primary key> AND p], which
    must affect one row. *)
Definition update_execution (key : execution_key) (p : ProviderTurnExecution -> bool)
    (f : ProviderTurnExecution -> ProviderTurnExecution) (stale : PersistenceError) : rtx unit := fun st =>
  match st_executions st !! key with
  | Some x => if p x then Ok (tt, st <| st_executions := <[key := f x]> (st_executions st) |>) else Err stale
  | None => Err stale
  end.

(** [UPDATE provider_turn_effects SET f WHERE room_id = ? AND effect_id = ? AND p] *)
Definition update_effect (room_id effect_id : str) (p : ProviderTurnEffect -> bool)
    (f : ProviderTurnEffect -> ProviderTurnEffect) (stale : PersistenceError) : rtx unit := fun st =>
  effects ← update_one (fun (k : execution_key) e => str_eqb k.1.1 room_id && str_eqb (ef_effect_id e) effect_id && p e)
    f stale (st_effects st);
  Ok (tt, st <| st_effects := effects |>).

Definition load_execution_in (key : execution_key) (st : RoomStore) : tx ProviderTurnExecution :=
  generation_i64 key.2 invalid_execution ;; ok_or (st_executions st !! key) stale_execution.

Definition set_phase (phase : ProviderTurnExecutionPhase) (x : ProviderTurnExecution) : ProviderTurnExecution :=
  x <| pe_phase := phase |>.
Definition set_effect_phase (phase : ProviderTurnEffectPhase) (e : ProviderTurnEffect) : ProviderTurnEffect :=
  e <| ef_phase := phase |>.

(** schema.rs: the unique indexes of the executions, besides the primary key. *)
Definition execution_conflicts (key : execution_key) (row : ProviderTurnExecution)
    (k : execution_key) (x : ProviderTurnExecution) : bool :=
  (str_eqb k.1.1 key.1.1 && str_eqb (pe_execution_id x) (pe_execution_id row))
  || (str_eqb k.1.1 key.1.1 && str_eqb k.1.2 key.1.2 && str_eqb (pe_turn_id x) (pe_turn_id row))
  || (phase_is_blocking (pe_phase x) && phase_is_blocking (pe_phase row)
      && ((str_eqb k.1.1 key.1.1 && str_eqb k.1.2 key.1.2)
          || str_eqb (pe_runtime_handle_id x) (pe_runtime_handle_id row))).

Section executions.
Context `{CharCase, Entropy, UuidCrate}.

Definition insert_assigned_execution (session : DurableAgentSession) (turn_id : str)
    (assignment : ProviderTurnAssignmentEnvelope) : rtx str := fun st =>
  if (d_turn_generation session =? 0)%N || negb (str_eqb (s_active_turn_id (d_public session)) turn_id)
     || str_empty (d_runtime_handle_id session) || str_empty (d_runtime_owner_id session)
     || str_empty (d_runtime_lease_token session) || (i64_max <? Z.of_N (d_turn_generation session))
  then Err invalid_execution
  else
    let execution_id := uuid_at (st_drawn st) in
    let row := {|
      pe_execution_id := execution_id; pe_participant_id := s_participant_id (d_public session);
      pe_turn_id := turn_id; pe_phase := ExecAssigned;
      pe_runtime_handle_id := d_runtime_handle_id session; pe_runtime_owner_id := d_runtime_owner_id session;
      pe_runtime_lease_token := d_runtime_lease_token session; pe_start_dispatch_nonce := [];
      pe_provider_turn_id := []; pe_requeue_finalized := false; pe_assignment := assignment |} in
    let key := session_execution_key session in
    reject_if (negb (list_empty (matching (execution_conflicts key row) (st_executions st)))) Database ;;
    executions ← insert_row key row (st_executions st);
    Ok (execution_id, st <| st_executions := executions |> <| st_drawn := S (st_drawn st) |>).

Definition blocking_execution_exists (room_id session_id : str) (st : RoomStore) : bool :=
  negb (list_empty (matching (fun (k : execution_key) x =>
    str_eqb k.1.1 room_id && str_eqb k.1.2 session_id && phase_is_blocking (pe_phase x)) (st_executions st))).

(** ** provider_turn_start.rs *)

Definition start_authority (key : execution_key) (x : ProviderTurnExecution) : ProviderTurnStartAuthority :=
  {| sa_room_id := key.1.1; sa_session_id := key.1.2; sa_turn_generation := key.2;
     sa_execution_id := pe_execution_id x; sa_turn_id := pe_turn_id x;
     sa_runtime_handle_id := pe_runtime_handle_id x; sa_runtime_owner_id := pe_runtime_owner_id x;
     sa_runtime_lease_token := pe_runtime_lease_token x; sa_start_dispatch_nonce := pe_start_dispatch_nonce x |}.

Definition authority_or {A} (invalid : PersistenceError) (r : result InvalidTurnAuthority A) : tx A :=
  map_err (fun _ => invalid) r.

Definition authorize_start_in (room_id session_id : str) (turn_generation : N) (turn_id : str) :
    rtx ProviderTurnStartAuthority :=
  session ← reads (load_session room_id session_id);
  participant ← reads (load_participant room_id (s_participant_id (d_public session)));
  active ← lift (authority_or invalid_execution
    (if negb (str_eqb (pt_room_id participant) room_id)
        || negb (str_eqb (pt_participant_id participant) (s_participant_id (d_public session)))
        || negb (bool_decide (pt_status participant = Joined)) || pt_muted participant
        || negb (str_eqb (s_active_turn_id (d_public session)) turn_id)
        || negb (d_turn_generation session =? turn_generation)%N
     then Ok false else active_turn_authority session));
  lift (require active stale_execution) ;;
  nonce ← draw_uuid;
  lift (generation_i64 turn_generation invalid_execution) ;;
  let key := (room_id, session_id, turn_generation) in
  idle ← reads (fun st => Ok (negb (has_unfinalized_effect key st)));
  update_execution key (fun x =>
      idle && str_eqb (pe_turn_id x) turn_id
      && str_eqb (pe_participant_id x) (s_participant_id (d_public session)) && phase_in [ExecAssigned] x
      && custody_is x (d_runtime_handle_id session) (d_runtime_owner_id session) (d_runtime_lease_token session))
    (fun x => set_phase ExecStartDispatching x <| pe_start_dispatch_nonce := nonce |>) stale_execution ;;
  execution ← reads (load_execution_in key);
  mret (start_authority key execution).

Definition matches_start (a : ProviderTurnStartAuthority) (x : ProviderTurnExecution) : bool :=
  str_eqb (pe_execution_id x) (sa_execution_id a) && str_eqb (pe_turn_id x) (sa_turn_id a)
  && str_eqb (pe_start_dispatch_nonce x) (sa_start_dispatch_nonce a)
  && custody_is x (sa_runtime_handle_id a) (sa_runtime_owner_id a) (sa_runtime_lease_token a).

Definition mark_running_in (authority : ProviderTurnStartAuthority) (provider_turn_id : str) : rtx unit :=
  lift (require (is_provider_turn_id provider_turn_id) invalid_execution) ;;
  lift (generation_i64 (sa_turn_generation authority) invalid_execution) ;;
  update_execution (sa_key authority) (fun x => matches_start authority x && phase_in [ExecStartDispatching] x)
    (fun x => set_phase ExecRunning x <| pe_provider_turn_id := provider_turn_id |>) stale_execution.

(** ** The row updates of the turn's end *)

Definition lifecycle_intent_is_empty (s : DurableAgentSession) : bool :=
  action_is_none (d_lifecycle_intent_action s) && str_empty (d_lifecycle_intent_id s)
  && bool_decide (d_lifecycle_intent_status s = IntentNone).

Definition terminalize_ordinary_execution (session : DurableAgentSession) (authority : ProviderTurnAuthority)
    (terminal_phase : ProviderTurnExecutionPhase) : rtx unit :=
  let public := d_public session in
  lift (reject_if
    (negb (contains [ExecCompleted; ExecDeclined; ExecFailed] terminal_phase)
     || negb (str_eqb (s_room_id public) (ta_room_id authority))
     || negb (str_eqb (s_session_id public) (ta_session_id authority))
     || negb (str_eqb (s_active_turn_id public) (ta_turn_id authority))
     || negb (d_turn_generation session =? ta_turn_generation authority)%N
     || negb (bool_decide (s_status public = SessionAttached))
     || negb (s_enabled public)
     || negb (bool_decide (s_runtime_status public = RuntimeBusy))
     || negb (s_provider_session_active public)
     || negb (lifecycle_intent_is_empty session)
     || negb (session_custody_is session (ta_runtime_handle_id authority) (ta_runtime_owner_id authority)
                (ta_runtime_lease_token authority)))
    stale_execution) ;;
  participant ← reads (load_participant (ta_room_id authority) (s_participant_id public));
  lift (reject_if
    (negb (str_eqb (pt_room_id participant) (ta_room_id authority))
     || negb (str_eqb (pt_participant_id participant) (s_participant_id public))
     || negb (bool_decide (pt_status participant = Joined))
     || negb (str_eqb (pt_participant_type participant) (u "agent"))
     || pt_muted participant) stale_execution) ;;
  lift (generation_i64 (ta_turn_generation authority) invalid_execution) ;;
  idle ← reads (fun st => Ok (negb (has_unfinalized_effect (ta_key authority) st)));
  update_execution (ta_key authority) (fun x =>
      idle && str_eqb (pe_execution_id x) (ta_execution_id authority) && str_eqb (pe_turn_id x) (ta_turn_id authority)
      && phase_in [ExecStartDispatching; ExecRunning] x
      && str_eqb (pe_start_dispatch_nonce x) (ta_start_dispatch_nonce authority)
      && custody_is x (ta_runtime_handle_id authority) (ta_runtime_owner_id authority) (ta_runtime_lease_token authority))
    (fun x => set_phase terminal_phase x <| pe_provider_turn_id := ta_provider_turn_id authority |>) stale_execution.

(** [finalize_proven_no_effect_task_death]: its update of the execution *)
Definition fail_unstarted_execution (key : execution_key) (execution : ProviderTurnExecution) : rtx unit :=
  lift (generation_i64 key.2 invalid_execution) ;;
  idle ← reads (fun st => Ok (negb (has_unfinalized_effect key st)));
  update_execution key (fun x =>
      idle && str_eqb (pe_execution_id x) (pe_execution_id execution) && phase_in [pe_phase execution] x
      && negb (pe_requeue_finalized x))
    (fun x => set_phase ExecFailed x <| pe_requeue_finalized := true |>) stale_execution.

(** [mark_provider_turn_recovery_required]: its update of the execution *)
Definition quarantine_started_execution (authority : ProviderTurnStartAuthority) : rtx unit :=
  lift (generation_i64 (sa_turn_generation authority) invalid_execution) ;;
  update_execution (sa_key authority) (fun x => matches_start authority x && phase_in [ExecStartDispatching; ExecRunning] x)
    (set_phase ExecRecoveryRequired) stale_execution.

(** [quarantine_dispatched_task_death]: its updates of the execution and of its effect *)
Definition effect_in (phases : list ProviderTurnEffectPhase) (e : ProviderTurnEffect) : bool := contains phases (ef_phase e).

Definition quarantine_dispatched (key : execution_key) (execution : ProviderTurnExecution) : rtx unit :=
  lift (generation_i64 key.2 invalid_execution) ;;
  dispatching ← reads (fun st => Ok (match st_effects st !! key with
                                     | Some e => effect_in [EffDispatching] e | None => false end));
  update_execution key (fun x =>
      str_eqb (pe_execution_id x) (pe_execution_id execution) && phase_in [pe_phase execution] x && same_custody x execution)
    (set_phase (if dispatching : bool then ExecInterruptAmbiguous else ExecRecoveryRequired)) stale_execution ;;
  modifies (fun st => st <| st_effects := update_where (fun k e =>
      bool_decide (k = key) && effect_in [EffPrepared; EffClaimed; EffDispatching; EffIssuedWaitingQuiescence] e)
    (fun e => set_effect_phase (if effect_in [EffDispatching] e then EffInterruptAmbiguous else EffRecoveryRequired) e)
    (st_effects st) |>).

(** ** provider_turn_effect.rs *)

Definition CLAIM_TTL_MILLIS : Z := 30000.

Definition join_effect (key : execution_key) (e : ProviderTurnEffect) (x : ProviderTurnExecution) :
    ProviderTurnInterruptEffect :=
  {| ie_room_id := key.1.1; ie_session_id := key.1.2; ie_turn_generation := key.2;
     ie_effect_id := ef_effect_id e; ie_cause := ef_cause e; ie_phase := ef_phase e;
     ie_execution_id := pe_execution_id x; ie_participant_id := pe_participant_id x; ie_turn_id := pe_turn_id x;
     ie_start_dispatch_nonce := pe_start_dispatch_nonce x; ie_runtime_handle_id := pe_runtime_handle_id x;
     ie_runtime_owner_id := pe_runtime_owner_id x; ie_runtime_lease_token := pe_runtime_lease_token x;
     ie_dispatch_nonce := ef_dispatch_nonce e |}.

Definition load_effect_in (key : execution_key) (st : RoomStore) : tx ProviderTurnInterruptEffect :=
  generation_i64 key.2 invalid_effect ;;
  match st_effects st !! key, st_executions st !! key with
  | Some e, Some x => Ok (join_effect key e x)
  | _, _ => Err stale_effect
  end.

Definition load_optional_effect_in (key : execution_key) (st : RoomStore) : tx (option ProviderTurnInterruptEffect) :=
  generation_i64 key.2 invalid_effect ;;
  match st_effects st !! key with
  | None => Ok None
  | Some _ => Some <$> load_effect_in key st
  end.

Definition require_exact_effect (expected current : ProviderTurnInterruptEffect) : tx unit :=
  reject_if
    (negb (str_eqb (ie_room_id expected) (ie_room_id current))
     || negb (str_eqb (ie_session_id expected) (ie_session_id current))
     || negb (ie_turn_generation expected =? ie_turn_generation current)%N
     || negb (str_eqb (ie_effect_id expected) (ie_effect_id current))
     || negb (bool_decide (ie_cause expected = ie_cause current))
     || negb (str_eqb (ie_execution_id expected) (ie_execution_id current))
     || negb (str_eqb (ie_participant_id expected) (ie_participant_id current))
     || negb (str_eqb (ie_turn_id expected) (ie_turn_id current))
     || negb (str_eqb (ie_start_dispatch_nonce expected) (ie_start_dispatch_nonce current))
     || negb (str_eqb (ie_runtime_handle_id expected) (ie_runtime_handle_id current))
     || negb (str_eqb (ie_runtime_owner_id expected) (ie_runtime_owner_id current))
     || negb (str_eqb (ie_runtime_lease_token expected) (ie_runtime_lease_token current))
     || negb (str_eqb (ie_dispatch_nonce expected) (ie_dispatch_nonce current)))
    stale_effect.

(** What the row of the execution must still say for an effect, or an execution, that was read from it. *)
Definition effect_custody (effect : ProviderTurnInterruptEffect) (x : ProviderTurnExecution) : bool :=
  str_eqb (pe_execution_id x) (ie_execution_id effect)
  && custody_is x (ie_runtime_handle_id effect) (ie_runtime_owner_id effect) (ie_runtime_lease_token effect).

Definition prepare_interrupt_effect (key : execution_key) (execution : ProviderTurnExecution)
    (cause : ProviderTurnInterruptCause) : rtx ProviderTurnInterruptEffect :=
  lift (require (phase_is_blocking (pe_phase execution)) stale_effect) ;;
  effect_id ← draw_uuid;
  lift (generation_i64 key.2 invalid_effect) ;;
  (* INSERT OR IGNORE *)
  modifies (fun st =>
    match st_effects st !! key with
    | Some _ => st
    | None =>
        if list_empty (matching (fun (k : execution_key) e =>
             str_eqb k.1.1 key.1.1 && str_eqb (ef_effect_id e) effect_id) (st_effects st))
        then st <| st_effects := <[key := MkProviderTurnEffect effect_id cause EffPrepared [] None []]> (st_effects st) |>
        else st
    end) ;;
  effect ← reads (load_effect_in key);
  lift (require (bool_decide (ie_cause effect = cause)) unresolved_turn_effect) ;;
  (if contains [ExecAssigned; ExecStartDispatching; ExecRunning] (pe_phase execution)
   then update_execution key (fun x =>
          str_eqb (pe_execution_id x) (pe_execution_id execution) && str_eqb (pe_turn_id x) (pe_turn_id execution)
          && phase_in [pe_phase execution] x && same_custody x execution)
          (set_phase ExecInterruptPending) stale_effect
   else mret tt) ;;
  reads (load_effect_in key).

Definition validate_claim_owner (value : str) : tx unit :=
  match parse_uuid value with Some _ => Ok tt | None => Err invalid_effect end.

Definition claim_expires (now_millis : Z) : Z := Z.min (now_millis + CLAIM_TTL_MILLIS) i64_max.
Definition claim_expired (now_millis : Z) (e : ProviderTurnEffect) : bool :=
  match ef_claim_expires_at e with Some t => t <? now_millis | None => false end.
Definition claim_live (now_millis : Z) (e : ProviderTurnEffect) : bool :=
  match ef_claim_expires_at e with Some t => now_millis <=? t | None => false end.
Definition set_claim (owner : str) (expires_at : option Z) (e : ProviderTurnEffect) : ProviderTurnEffect :=
  e <| ef_claim_owner := owner |> <| ef_claim_expires_at := expires_at |>.

Definition claim_provider_turn_interrupt (expected : ProviderTurnInterruptEffect) (claim_owner : str) (now_millis : Z) :
    rtx ProviderTurnEffectClaim :=
  lift (validate_claim_owner claim_owner) ;;
  current ← reads (load_effect_in (ie_key expected));
  lift (require_exact_effect expected current) ;;
  update_effect (ie_room_id current) (ie_effect_id current) (fun e =>
      effect_in [EffPrepared] e
      || effect_in [EffClaimed] e && (str_eqb (ef_claim_owner e) claim_owner || claim_expired now_millis e))
    (fun e => set_claim claim_owner (Some (claim_expires now_millis)) (set_effect_phase EffClaimed e))
    unresolved_turn_effect ;;
  effect ← reads (load_effect_in (ie_key current));
  mret (MkEffectClaim effect claim_owner).

Definition recoverable_interrupt_pair (effect : ProviderTurnEffectPhase) (execution : ProviderTurnExecutionPhase) : bool :=
  match effect with
  | EffPrepared => contains [ExecInterruptPending; ExecStartAmbiguous; ExecRecoveryRequired] execution
  | EffClaimed | EffDispatching => contains [ExecInterruptPending] execution
  | EffIssuedWaitingQuiescence => contains [ExecQuiescing] execution
  | EffInterruptAmbiguous => contains [ExecInterruptAmbiguous] execution
  | EffRecoveryRequired => contains [ExecRecoveryRequired] execution
  | EffFinalized => false
  end.

(** The checks both recovery operations make of the pair they load. *)
Definition recoverable_pair (current : ProviderTurnInterruptEffect) (execution : ProviderTurnExecution) : bool :=
  recoverable_interrupt_pair (ie_phase current) (pe_phase execution) && effect_custody current execution
  && negb (pe_requeue_finalized execution).

Definition claim_provider_turn_interrupt_recovery (expected : ProviderTurnInterruptEffect) (claim_owner : str)
    (now_millis : Z) : rtx ProviderTurnEffectClaim :=
  lift (validate_claim_owner claim_owner) ;;
  current ← reads (load_effect_in (ie_key expected));
  lift (require_exact_effect expected current) ;;
  execution ← reads (load_execution_in (ie_key expected));
  lift (require (recoverable_pair current execution) stale_effect) ;;
  update_effect (ie_room_id current) (ie_effect_id current) (fun e =>
      effect_in [ie_phase current] e && str_eqb (ef_dispatch_nonce e) (ie_dispatch_nonce current)
      && (str_empty (ef_claim_owner e) || str_eqb (ef_claim_owner e) claim_owner
          || match ef_claim_expires_at e with None => true | Some _ => claim_expired now_millis e end))
    (set_claim claim_owner (Some (claim_expires now_millis))) unresolved_turn_effect ;;
  effect ← reads (load_effect_in (ie_key current));
  mret (MkEffectClaim effect claim_owner).

Definition transition_to_waiting_in (expected : ProviderTurnInterruptEffect) (claim_owner : option str)
    (now_millis : Z) : rtx ProviderTurnInterruptEffect :=
  update_effect (ie_room_id expected) (ie_effect_id expected) (fun e =>
      match claim_owner with
      | Some owner => effect_in [EffClaimed] e && str_eqb (ef_claim_owner e) owner && claim_live now_millis e
      | None => effect_in [EffDispatching] e && str_eqb (ef_dispatch_nonce e) (ie_dispatch_nonce expected)
      end) (set_effect_phase EffIssuedWaitingQuiescence) stale_effect ;;
  lift (generation_i64 (ie_turn_generation expected) invalid_effect) ;;
  update_execution (ie_key expected) (fun x => effect_custody expected x && phase_in [ExecInterruptPending] x)
    (set_phase ExecQuiescing) stale_effect ;;
  reads (load_effect_in (ie_key expected)).

Definition mark_unstarted_interrupt_waiting (claim : ProviderTurnEffectClaim) (now_millis : Z) :
    rtx ProviderTurnInterruptEffect :=
  transition_to_waiting_in (cl_effect claim) (Some (cl_owner claim)) now_millis.
Definition mark_provider_interrupt_issued (dispatched : ProviderTurnInterruptEffect) (now_millis : Z) :
    rtx ProviderTurnInterruptEffect :=
  transition_to_waiting_in dispatched None now_millis.

(** The update of [authorize_provider_interrupt_dispatch], which commits by itself: what it returns is loaded after. *)
Definition fence_interrupt_dispatch (claim : ProviderTurnEffectClaim) (now_millis : Z) : rtx unit :=
  nonce ← draw_uuid;
  update_effect (ie_room_id (cl_effect claim)) (ie_effect_id (cl_effect claim)) (fun e =>
      effect_in [EffClaimed] e && str_eqb (ef_claim_owner e) (cl_owner claim) && claim_live now_millis e)
    (fun e => set_effect_phase EffDispatching e <| ef_dispatch_nonce := nonce |>) stale_effect.

(** attendee_interrupt.rs: [deliver_attendee_interrupt], once the connection and
    the candidate have been checked. *)
Definition deliver_prepared_interrupt (effect : ProviderTurnInterruptEffect) (stale : PersistenceError) :
    rtx ProviderTurnInterruptEffect :=
  if bool_decide (ie_phase effect = EffPrepared) then
    nonce ← draw_uuid;
    update_effect (ie_room_id effect) (ie_effect_id effect) (effect_in [EffPrepared])
      (fun e => set_effect_phase EffDispatching e <| ef_dispatch_nonce := nonce |>) stale ;;
    reads (load_effect_in (ie_key effect))
  else mret effect.

Definition mark_provider_interrupt_ambiguous (dispatched : ProviderTurnInterruptEffect) : rtx unit :=
  update_effect (ie_room_id dispatched) (ie_effect_id dispatched) (fun e =>
      effect_in [EffDispatching] e && str_eqb (ef_dispatch_nonce e) (ie_dispatch_nonce dispatched))
    (set_effect_phase EffInterruptAmbiguous) stale_effect ;;
  lift (generation_i64 (ie_turn_generation dispatched) invalid_effect) ;;
  update_execution (ie_key dispatched) (fun x => effect_custody dispatched x && phase_in [ExecInterruptPending] x)
    (set_phase ExecInterruptAmbiguous) stale_effect.

Definition transition_to_recovery_required (expected : ProviderTurnInterruptEffect) (release_claim_owner : option str) :
    rtx unit :=
  current ← reads (load_effect_in (ie_key expected));
  lift (require_exact_effect expected current) ;;
  execution ← reads (load_execution_in (ie_key current));
  let '(effect_phase, execution_phase) :=
    match release_claim_owner with
    | Some _ => (EffClaimed, ExecInterruptPending)
    | None => (EffIssuedWaitingQuiescence, ExecQuiescing)
    end in
  lift (reject_if
    (negb (bool_decide (ie_phase current = effect_phase)) || negb (bool_decide (pe_phase execution = execution_phase))
     || negb (effect_custody current execution) || pe_requeue_finalized execution) stale_effect) ;;
  (match release_claim_owner with
   | Some owner =>
       update_effect (ie_room_id current) (ie_effect_id current)
         (fun e => effect_in [EffClaimed] e && str_eqb (ef_claim_owner e) owner)
         (fun e => set_claim [] None (set_effect_phase EffRecoveryRequired e)) stale_effect
   | None =>
       update_effect (ie_room_id current) (ie_effect_id current) (effect_in [EffIssuedWaitingQuiescence])
         (set_effect_phase EffRecoveryRequired) stale_effect
   end) ;;
  lift (generation_i64 (ie_turn_generation current) invalid_effect) ;;
  update_execution (ie_key current) (fun x =>
      str_eqb (pe_execution_id x) (pe_execution_id execution) && phase_in [pe_phase execution] x
      && same_custody x execution && negb (pe_requeue_finalized x))
    (set_phase ExecRecoveryRequired) stale_effect.

Definition handoff_unissued_provider_interrupt_claim (claim : ProviderTurnEffectClaim) : rtx unit :=
  transition_to_recovery_required (cl_effect claim) (Some (cl_owner claim)).
Definition mark_provider_interrupt_recovery_required (expected : ProviderTurnInterruptEffect) : rtx unit :=
  transition_to_recovery_required expected None.

Definition release_provider_interrupt_recovery_claim (claim : ProviderTurnEffectClaim) : rtx unit :=
  current ← reads (load_effect_in (ie_key (cl_effect claim)));
  lift (require_exact_effect (cl_effect claim) current) ;;
  update_effect (ie_room_id current) (ie_effect_id current) (fun e =>
      effect_in [ie_phase current] e && str_eqb (ef_dispatch_nonce e) (ie_dispatch_nonce current)
      && str_eqb (ef_claim_owner e) (cl_owner claim))
    (set_claim [] None) stale_effect.

Definition authorize_provider_interrupt_recovery_wait (claim : ProviderTurnEffectClaim) (now_millis : Z) :
    rtx ProviderTurnInterruptEffect :=
  let expected := cl_effect claim in
  current ← reads (load_effect_in (ie_key expected));
  lift (require_exact_effect expected current) ;;
  execution ← reads (load_execution_in (ie_key expected));
  lift (require (recoverable_pair current execution) stale_effect) ;;
  update_effect (ie_room_id current) (ie_effect_id current) (fun e =>
      effect_in [ie_phase current] e && str_eqb (ef_dispatch_nonce e) (ie_dispatch_nonce current)
      && str_eqb (ef_claim_owner e) (cl_owner claim) && claim_live now_millis e)
    (set_effect_phase EffIssuedWaitingQuiescence) stale_effect ;;
  lift (generation_i64 (ie_turn_generation current) invalid_effect) ;;
  update_execution (ie_key current) (fun x =>
      str_eqb (pe_execution_id x) (pe_execution_id execution) && phase_in [pe_phase execution] x
      && same_custody x execution && negb (pe_requeue_finalized x))
    (set_phase ExecQuiescing) stale_effect ;;
  mret (current <| ie_phase := EffIssuedWaitingQuiescence |>).

(** ** The finalization of a pair

    provider_turn_effect_finalize.rs *)

Definition finalize_effect_row (e : ProviderTurnEffect) : ProviderTurnEffect :=
  set_effect_phase EffFinalized e <| ef_claim_expires_at := None |>.
Definition finalize_execution_row (phase : ProviderTurnExecutionPhase) (x : ProviderTurnExecution) : ProviderTurnExecution :=
  set_phase phase x <| pe_requeue_finalized := true |>.

Definition terminalize_retained_interrupt (expected : ProviderTurnInterruptEffect) : rtx unit :=
  execution ← reads (load_execution_in (ie_key expected));
  lift (reject_if
    (negb (phase_in [ExecQuiescing] execution) || negb (effect_custody expected execution)
     || negb (str_eqb (pe_participant_id execution) (ie_participant_id expected))
     || negb (str_eqb (pe_turn_id execution) (ie_turn_id expected)) || pe_requeue_finalized execution) stale_effect) ;;
  effect ← reads (load_effect_in (ie_key expected));
  lift (require_exact_effect expected effect) ;;
  lift (require (bool_decide (ie_phase effect = EffIssuedWaitingQuiescence)) stale_effect) ;;
  update_effect (ie_room_id effect) (ie_effect_id effect) (fun e =>
      effect_in [EffIssuedWaitingQuiescence] e && str_eqb (ef_dispatch_nonce e) (ie_dispatch_nonce effect))
    finalize_effect_row stale_effect ;;
  lift (generation_i64 (ie_turn_generation expected) invalid_effect) ;;
  update_execution (ie_key expected) (fun x =>
      str_eqb (pe_execution_id x) (pe_execution_id execution) && phase_in [ExecQuiescing] x
      && negb (pe_requeue_finalized x) && same_custody x execution)
    (finalize_execution_row ExecInterrupted) stale_effect.

(** provider_turn_reconciliation.rs, provider_turn_stop.rs: the execution, and
    its effect if it has one, as they were loaded in the same transaction. *)
Definition finalize_pair (key : execution_key) (execution : ProviderTurnExecution)
    (effect : option ProviderTurnInterruptEffect) (terminal_phase : ProviderTurnExecutionPhase)
    (invalid stale : PersistenceError) : rtx unit :=
  lift (generation_i64 key.2 invalid) ;;
  update_execution key (fun x =>
      str_eqb (pe_execution_id x) (pe_execution_id execution) && phase_in [pe_phase execution] x
      && negb (pe_requeue_finalized x) && same_custody x execution)
    (finalize_execution_row terminal_phase) stale ;;
  match effect with
  | None => mret tt
  | Some effect =>
      update_effect (ie_room_id effect) (ie_effect_id effect) (fun e =>
          effect_in [ie_phase effect] e && str_eqb (ef_dispatch_nonce e) (ie_dispatch_nonce effect))
        finalize_effect_row stale
  end.

Definition invalid_reconciliation : PersistenceError :=
  rejected_tx "stored_turn_reconciliation_invalid" "Stored provider turn reconciliation authority is invalid.".
Definition stale_reconciliation : PersistenceError :=
  rejected_tx "stale_turn_reconciliation_candidate" "Provider turn reconciliation authority changed before commit.".

Definition terminalize_runtime_gone_authority (key : execution_key) (execution : ProviderTurnExecution)
    (effect : option ProviderTurnInterruptEffect) (terminal_phase : ProviderTurnExecutionPhase) : rtx unit :=
  finalize_pair key execution effect terminal_phase invalid_reconciliation stale_reconciliation.

(** provider_turn_stop.rs *)
Definition invalid_stop_turn : PersistenceError :=
  rejected_tx "stored_provider_stop_turn_invalid" "Stored provider turn authority is invalid during confirmed stop.".
Definition stale_stop_turn : PersistenceError :=
  rejected_tx "stale_provider_stop_turn" "Provider turn authority changed before confirmed stop committed.".

Definition exact_stop_turn_is_terminal (session : DurableAgentSession) (execution : ProviderTurnExecution)
    (effect : option ProviderTurnInterruptEffect) : tx bool :=
  let public := d_public session in
  if negb (str_eqb (pe_participant_id execution) (s_participant_id public))
     || negb (str_eqb (pe_turn_id execution) (s_active_turn_id public))
     || negb (custody_is execution (d_runtime_handle_id session) (d_runtime_owner_id session)
                (d_runtime_lease_token session))
     || match effect with
        | Some effect =>
            negb (effect_custody effect execution)
            || negb (str_eqb (ie_participant_id effect) (pe_participant_id execution))
            || negb (str_eqb (ie_turn_id effect) (pe_turn_id execution))
            || negb (str_eqb (ie_start_dispatch_nonce effect) (pe_start_dispatch_nonce execution))
        | None => false
        end
  then Err invalid_stop_turn
  else if phase_in [ExecInterrupted] execution && pe_requeue_finalized execution then
    match effect with
    | Some effect => require (bool_decide (ie_phase effect = EffFinalized)) invalid_stop_turn ;; mret true
    | None => Ok true
    end
  else
    reject_if (negb (phase_is_blocking (pe_phase execution)) || pe_requeue_finalized execution
        || match effect with Some effect => bool_decide (ie_phase effect = EffFinalized) | None => false end)
      invalid_stop_turn ;;
    mret false.

Definition terminalize_confirmed_stop_turn (session : DurableAgentSession) (now : instant) :
    rtx (option RoomEvent) :=
  active ← lift (authority_or invalid_stop_turn (active_turn_authority session));
  if negb active then mret None
  else
    let key := session_execution_key session in
    execution ← reads (load_execution_in key);
    effect ← reads (load_optional_effect_in key);
    terminal ← lift (exact_stop_turn_is_terminal session execution effect);
    if terminal : bool then mret None
    else
      finalize_pair key execution effect ExecInterrupted invalid_stop_turn stale_stop_turn ;;
      event ← turn_finished_event session (pe_turn_id execution) "interrupted" None (Some (u "operator_stop")) now;
      mret (Some event).

(** ** The abstract automaton

    The state of a turn is the phase of its execution and the phase of its
    interrupt, if it has one. [solo_next] are the moves of a turn that is not
    interrupted, [joint_next] those of one that is. *)

Abbreviation pair_phases :=
  (option ProviderTurnExecutionPhase * option ProviderTurnEffectPhase)%type (only parsing).

Definition solo_next (p p' : ProviderTurnExecutionPhase) : bool :=
  match p with
  | ExecAssigned => contains [ExecStartDispatching; ExecFailed; ExecInterrupted] p'
  | ExecStartDispatching =>
      contains [ExecRunning; ExecCompleted; ExecDeclined; ExecFailed; ExecRecoveryRequired; ExecInterrupted] p'
  | ExecRunning => contains [ExecCompleted; ExecDeclined; ExecFailed; ExecRecoveryRequired; ExecInterrupted] p'
  | ExecRecoveryRequired | ExecStartAmbiguous => contains [ExecFailed; ExecInterrupted] p'
  | _ => false
  end.

(** What preparing an interrupt does to the execution. *)
Definition prepare_next (p p' : ProviderTurnExecutionPhase) : bool :=
  match p with
  | ExecAssigned | ExecStartDispatching | ExecRunning => bool_decide (p' = ExecInterruptPending)
  | ExecRecoveryRequired | ExecStartAmbiguous => bool_decide (p' = p)
  | _ => false
  end.

Definition joint_next (p : ProviderTurnExecutionPhase) (e : ProviderTurnEffectPhase)
    (p' : ProviderTurnExecutionPhase) (e' : ProviderTurnEffectPhase) : bool :=
  match p', e' with
  | ExecInterrupted, EffFinalized => phase_is_blocking p && negb (bool_decide (e = EffFinalized))
  | ExecQuiescing, EffIssuedWaitingQuiescence =>
      contains [(ExecInterruptPending, EffPrepared); (ExecStartAmbiguous, EffPrepared); (ExecRecoveryRequired, EffPrepared);
                (ExecInterruptPending, EffClaimed); (ExecInterruptPending, EffDispatching);
                (ExecInterruptAmbiguous, EffInterruptAmbiguous); (ExecRecoveryRequired, EffRecoveryRequired)] (p, e)
  | ExecRecoveryRequired, EffRecoveryRequired =>
      contains [(ExecInterruptPending, EffPrepared); (ExecInterruptPending, EffClaimed);
                (ExecQuiescing, EffIssuedWaitingQuiescence)] (p, e)
  | ExecInterruptAmbiguous, EffInterruptAmbiguous => bool_decide ((p, e) = (ExecInterruptPending, EffDispatching))
  | _, EffClaimed => bool_decide (p' = p) && bool_decide (e = EffPrepared)
  | _, EffDispatching => bool_decide (p' = p) && contains [EffPrepared; EffClaimed] e
  | _, _ => false
  end.

Definition pair_next (a b : pair_phases) : bool :=
  match a, b with
  | (None, None), (Some p', None) => bool_decide (p' = ExecAssigned)
  | (Some p, None), (Some p', None) => solo_next p p'
  | (Some p, None), (Some p', Some e') => bool_decide (e' = EffPrepared) && prepare_next p p'
  | (Some p, Some e), (Some p', Some e') => joint_next p e p' e'
  | _, _ => false
  end.

(** A claim of an interrupt whose execution is quarantined leaves a pair that
    [recoverable_interrupt_pair] does not name. *)
Definition stranded_pair (p : ProviderTurnExecutionPhase) (e : ProviderTurnEffectPhase) : bool :=
  contains [ExecRecoveryRequired; ExecStartAmbiguous] p && contains [EffClaimed; EffDispatching] e.

Definition pair_ok (a : pair_phases) : bool :=
  match a with
  | (None, None) => true
  | (Some p, None) => negb (contains [ExecInterruptPending; ExecQuiescing; ExecInterruptAmbiguous] p)
  | (Some p, Some e) =>
      recoverable_interrupt_pair e p || stranded_pair p e
      || negb (phase_is_blocking p) && bool_decide (e = EffFinalized)
  | (None, Some _) => false
  end.

Lemma pair_next_ok a b : pair_ok a = true -> pair_next a b = true -> pair_ok b = true.
Proof.
  destruct a as [[p|] [e|]], b as [[p'|] [e'|]]; try done;
    try destruct p; try destruct e; try done; destruct p'; try done; destruct e'; done.
Qed.

Definition phases (st : RoomStore) (key : execution_key) : pair_phases :=
  (pe_phase <$> st_executions st !! key, ef_phase <$> st_effects st !! key).

Record custody_ok (st : RoomStore) : Prop := MkCustodyOk {
  co_pairs : forall key, pair_ok (phases st key) = true;
  co_unique : forall k1 k2 e1 e2, st_effects st !! k1 = Some e1 -> st_effects st !! k2 = Some e2 ->
    k1.1.1 = k2.1.1 -> ef_effect_id e1 = ef_effect_id e2 -> k1 = k2
}.

(** An effect value that a caller holds names the row it was loaded from. *)
Definition names_effect (st : RoomStore) (effect : ProviderTurnInterruptEffect) : Prop :=
  forall k e, st_effects st !! k = Some e -> k.1.1 = ie_room_id effect -> ef_effect_id e = ie_effect_id effect ->
    k = ie_key effect.

(** The operations on the custody rows, each on the value of the store it is given. *)
Inductive custody_step (st st' : RoomStore) : Prop :=
| CsInsert session turn_id assignment id :
    insert_assigned_execution session turn_id assignment st = Ok (id, st') -> custody_step st st'
| CsStart room_id session_id generation turn_id authority :
    authorize_start_in room_id session_id generation turn_id st = Ok (authority, st') -> custody_step st st'
| CsRun authority provider_turn_id t :
    mark_running_in authority provider_turn_id st = Ok (t, st') -> custody_step st st'
| CsEnd session authority phase t :
    terminalize_ordinary_execution session authority phase st = Ok (t, st') -> custody_step st st'
| CsFailUnstarted key x t :
    st_executions st !! key = Some x -> phase_in [ExecAssigned; ExecStartDispatching] x = true ->
    fail_unstarted_execution key x st = Ok (t, st') -> custody_step st st'
| CsQuarantine authority t :
    quarantine_started_execution authority st = Ok (t, st') -> custody_step st st'
| CsQuarantineDispatched key x t :
    st_executions st !! key = Some x ->
    phase_in [ExecStartDispatching; ExecRunning; ExecInterruptPending; ExecQuiescing] x = true ->
    quarantine_dispatched key x st = Ok (t, st') -> custody_step st st'
| CsPrepare key x cause effect :
    st_executions st !! key = Some x ->
    prepare_interrupt_effect key x cause st = Ok (effect, st') -> custody_step st st'
| CsClaim expected owner now claim :
    claim_provider_turn_interrupt expected owner now st = Ok (claim, st') -> custody_step st st'
| CsClaimRecovery expected owner now claim :
    claim_provider_turn_interrupt_recovery expected owner now st = Ok (claim, st') -> custody_step st st'
| CsWaiting expected owner now effect :
    names_effect st expected ->
    transition_to_waiting_in expected owner now st = Ok (effect, st') -> custody_step st st'
| CsDispatch claim now t :
    fence_interrupt_dispatch claim now st = Ok (t, st') -> custody_step st st'
| CsDeliver effect stale effect' :
    deliver_prepared_interrupt effect stale st = Ok (effect', st') -> custody_step st st'
| CsAmbiguous dispatched t :
    names_effect st dispatched ->
    mark_provider_interrupt_ambiguous dispatched st = Ok (t, st') -> custody_step st st'
| CsRecoveryRequired expected release t :
    transition_to_recovery_required expected release st = Ok (t, st') -> custody_step st st'
| CsRelease claim t :
    release_provider_interrupt_recovery_claim claim st = Ok (t, st') -> custody_step st st'
| CsRecoveryWait claim now effect :
    authorize_provider_interrupt_recovery_wait claim now st = Ok (effect, st') -> custody_step st st'
| CsRetained expected t :
    terminalize_retained_interrupt expected st = Ok (t, st') -> custody_step st st'
| CsGone key x effect t :
    st_executions st !! key = Some x -> phase_is_blocking (pe_phase x) = true ->
    load_optional_effect_in key st = Ok effect ->
    terminalize_runtime_gone_authority key x effect
      (match effect with Some _ => ExecInterrupted | None => ExecFailed end) st = Ok (t, st') -> custody_step st st'
| CsStop session now event :
    terminalize_confirmed_stop_turn session now st = Ok (event, st') -> custody_step st st'
| CsOther :
    st_executions st' = st_executions st -> st_effects st' = st_effects st -> custody_step st st'.

(** ** What a row update does *)

Lemma update_execution_Ok key p f stale st t st' :
  update_execution key p f stale st = Ok (t, st') ->
  exists x, st_executions st !! key = Some x /\ p x = true /\
    st' = st <| st_executions := <[key := f x]> (st_executions st) |>.
Proof.
  unfold update_execution. destruct (st_executions st !! key) as [x|]; [|done].
  destruct (p x) eqn:Hp; [|done]. intros [= _ <-]. by exists x.
Qed.

Lemma update_effect_Ok room_id effect_id p f stale st t st' :
  update_effect room_id effect_id p f stale st = Ok (t, st') ->
  exists k e, st_effects st !! k = Some e /\ k.1.1 = room_id /\ ef_effect_id e = effect_id /\ p e = true /\
    st' = st <| st_effects := <[k := f e]> (st_effects st) |>.
Proof.
  unfold update_effect. intros Hr. apply bind_Ok in Hr as (effects & Hu & [= _ <-]).
  apply update_one_Ok in Hu as (k & e & Hk & Hp & -> & _). bool_to_prop.
  repeat match goal with Hs : str_eqb _ _ = true |- _ => apply str_eqb_true in Hs end.
  exists k, e. by split_and!.
Qed.

Lemma load_execution_in_Ok key st x : load_execution_in key st = Ok x -> st_executions st !! key = Some x.
Proof. unfold load_execution_in. intros Hr. by res_inv. Qed.

Lemma load_effect_in_Ok key st effect :
  load_effect_in key st = Ok effect ->
  exists e x, st_effects st !! key = Some e /\ st_executions st !! key = Some x /\ effect = join_effect key e x.
Proof.
  unfold load_effect_in. intros Hr. apply bind_Ok in Hr as ([] & _ & Hr).
  destruct (st_effects st !! key) as [e|], (st_executions st !! key) as [x|]; try done. injection Hr as <-.
  by exists e, x.
Qed.

Lemma load_optional_effect_in_Ok key st effect :
  load_optional_effect_in key st = Ok effect ->
  match effect with
  | None => st_effects st !! key = None
  | Some effect => load_effect_in key st = Ok effect
  end.
Proof.
  unfold load_optional_effect_in. intros Hr. apply bind_Ok in Hr as ([] & _ & Hr).
  destruct (st_effects st !! key); [|by injection Hr as <-]. apply fmap_Ok in Hr as (e & He & <-). done.
Qed.

Lemma require_exact_effect_Ok expected current :
  require_exact_effect expected current = Ok tt ->
  ie_key expected = ie_key current /\ ie_room_id expected = ie_room_id current /\
  ie_effect_id expected = ie_effect_id current.
Proof.
  unfold require_exact_effect, ie_key. intros Hr%reject_if_Ok. bool_to_prop.
  repeat match goal with
  | Hs : str_eqb _ _ = true |- _ => apply str_eqb_true in Hs
  | Hs : (_ =? _)%N = true |- _ => apply N.eqb_eq in Hs
  end. split_and!; congruence.
Qed.

(** Decomposes a successful operation into its checks and row updates. *)
Ltac custody_inv_step :=
  match goal with
  | H : (_ ≫= _) ?st = Ok _ |- _ => apply rtx_bind_Ok in H; destruct H as (? & ? & ? & H)
  | H : mret _ ?st = Ok _ |- _ => apply rtx_ret_Ok in H; destruct H as [? ?]
  | H : lift _ ?st = Ok _ |- _ => apply lift_Ok in H; destruct H as [? ?]
  | H : reads _ ?st = Ok _ |- _ => apply reads_Ok in H; destruct H as [? ?]
  | H : modifies _ ?st = Ok _ |- _ => apply modifies_Ok in H
  | H : Ok _ = Ok _ |- _ => injection H as H
  | H : draw_uuid ?st = Ok _ |- _ => apply draw_uuid_Ok in H; destruct H as [? ?]
  | H : update_execution _ _ _ _ _ = Ok _ |- _ => apply update_execution_Ok in H; destruct H as (? & ? & ? & ?)
  | H : update_effect _ _ _ _ _ _ = Ok _ |- _ => apply update_effect_Ok in H; destruct H as (? & ? & ? & ? & ? & ? & ?)
  | H : load_execution_in _ _ = Ok _ |- _ => apply load_execution_in_Ok in H
  | H : load_effect_in _ _ = Ok _ |- _ => apply load_effect_in_Ok in H; destruct H as (? & ? & ? & ? & ?)
  | H : require_exact_effect _ _ = Ok ?t |- _ =>
      destruct t; apply require_exact_effect_Ok in H; destruct H as (? & ? & ?)
  | H : require _ _ = Ok _ |- _ => apply require_Ok in H
  | H : reject_if _ _ = Ok _ |- _ => apply reject_if_Ok in H
  end.
Ltac custody_inv := repeat (custody_inv_step; subst); bool_to_prop; simpl in *.

(** Closes a goal about phases by looking at every phase. *)
Ltac phase_cases :=
  unfold phase_in, effect_in in *; simpl in *;
  repeat match goal with
  | H : context [pe_phase ?x] |- _ => revert H
  | H : context [ef_phase ?e] |- _ => revert H
  end;
  repeat match goal with
  | |- context [pe_phase ?x] => destruct (pe_phase x)
  | |- context [ef_phase ?e] => destruct (ef_phase e)
  end; intros; try done.

(** ** Refinement *)

Lemma phases_execution st key x k :
  phases (st <| st_executions := <[key := x]> (st_executions st) |>) k =
  if decide (k = key) then (Some (pe_phase x), (phases st k).2) else phases st k.
Proof.
  unfold phases. simpl. destruct (decide (k = key)) as [->|Hne].
  - by rewrite lookup_insert_eq.
  - by rewrite lookup_insert_ne.
Qed.

Lemma phases_effect st key e k :
  phases (st <| st_effects := <[key := e]> (st_effects st) |>) k =
  if decide (k = key) then ((phases st k).1, Some (ef_phase e)) else phases st k.
Proof.
  unfold phases. simpl. destruct (decide (k = key)) as [->|Hne].
  - by rewrite lookup_insert_eq.
  - by rewrite lookup_insert_ne.
Qed.

(** One turn moves at most one step of the automaton; every other turn stays where it is. *)
Record refines (st st' : RoomStore) (key : execution_key) : Prop := MkRefines {
  rf_frame : forall k, k <> key -> phases st' k = phases st k;
  rf_move : phases st' key = phases st key \/ pair_next (phases st key) (phases st' key) = true;
  rf_unique : custody_ok st -> forall k1 k2 e1 e2, st_effects st' !! k1 = Some e1 -> st_effects st' !! k2 = Some e2 ->
    k1.1.1 = k2.1.1 -> ef_effect_id e1 = ef_effect_id e2 -> k1 = k2;
  rf_ids : forall k e, st_effects st !! k = Some e ->
    exists e', st_effects st' !! k = Some e' /\ ef_effect_id e' = ef_effect_id e
}.

Lemma refines_ok st st' key : custody_ok st -> refines st st' key -> custody_ok st'.
Proof.
  intros Hok [Hf Hm Hu _]. split; [|by apply Hu]. intros k. destruct (decide (k = key)) as [->|Hne].
  - destruct Hm as [->|Hm]; [apply Hok|]. eapply pair_next_ok; [apply Hok|exact Hm].
  - rewrite Hf by done. apply Hok.
Qed.

Lemma refines_same st st' key :
  st_executions st' = st_executions st -> st_effects st' = st_effects st -> refines st st' key.
Proof.
  intros Hx He. assert (forall k, phases st' k = phases st k) as Hp by (intros k; unfold phases; by rewrite Hx, He).
  split; [by intros k _|by left| |].
  - intros Hok. rewrite He. apply Hok.
  - intros k e. rewrite He. intros Hk. by exists e.
Qed.

Lemma ids_update (t : gmap execution_key ProviderTurnEffect) key e e' k a :
  t !! key = Some e -> ef_effect_id e' = ef_effect_id e -> t !! k = Some a ->
  exists a', <[key := e']> t !! k = Some a' /\ ef_effect_id a' = ef_effect_id a.
Proof.
  intros He Hid Ha. destruct (decide (k = key)) as [->|Hne].
  - exists e'. rewrite lookup_insert_eq. split; [done|congruence].
  - exists a. by rewrite lookup_insert_ne.
Qed.

Lemma unique_update st key e e' :
  custody_ok st -> st_effects st !! key = Some e -> ef_effect_id e' = ef_effect_id e ->
  forall k1 k2 e1 e2, <[key := e']> (st_effects st) !! k1 = Some e1 -> <[key := e']> (st_effects st) !! k2 = Some e2 ->
    k1.1.1 = k2.1.1 -> ef_effect_id e1 = ef_effect_id e2 -> k1 = k2.
Proof.
  intros Hok He Hid k1 k2 e1 e2 Hk1 Hk2 Hroom Heq.
  assert (forall k a, <[key := e']> (st_effects st) !! k = Some a ->
    exists b, st_effects st !! k = Some b /\ ef_effect_id a = ef_effect_id b) as Hb.
  { intros k a Ha. destruct (decide (k = key)) as [->|Hne].
    - rewrite lookup_insert_eq in Ha. injection Ha as <-. by exists e.
    - rewrite lookup_insert_ne in Ha by done. by exists a. }
  apply Hb in Hk1 as (b1 & Hk1 & Hi1), Hk2 as (b2 & Hk2 & Hi2).
  eapply (co_unique _ Hok _ _ _ _ Hk1 Hk2 Hroom). congruence.
Qed.

(** The three shapes of an update: the execution, the effect, or both rows of one turn. *)
Lemma refines_execution st st' key x x' :
  st_executions st !! key = Some x ->
  st_executions st' = <[key := x']> (st_executions st) -> st_effects st' = st_effects st ->
  (pe_phase x' = pe_phase x \/ pair_next (phases st key) (Some (pe_phase x'), (phases st key).2) = true) ->
  refines st st' key.
Proof.
  intros Hx Hst He Hm.
  assert (forall k, phases st' k = if decide (k = key) then (Some (pe_phase x'), (phases st k).2) else phases st k) as Hp.
  { intros k. rewrite <- phases_execution. unfold phases. simpl. by rewrite Hst, He. }
  split.
  - intros k Hne. by rewrite Hp, decide_False.
  - rewrite Hp, decide_True by done. destruct Hm as [Hm|Hm]; [left|by right].
    unfold phases. rewrite Hx, Hm. done.
  - intros Hok. rewrite He. apply Hok.
  - intros k e Hk. rewrite He. by exists e.
Qed.

Lemma refines_effect st st' key e e' :
  st_effects st !! key = Some e -> ef_effect_id e' = ef_effect_id e ->
  st_executions st' = st_executions st -> st_effects st' = <[key := e']> (st_effects st) ->
  (ef_phase e' = ef_phase e \/ pair_next (phases st key) ((phases st key).1, Some (ef_phase e')) = true) ->
  refines st st' key.
Proof.
  intros He Hid Hst Heff Hm.
  assert (forall k, phases st' k = if decide (k = key) then ((phases st k).1, Some (ef_phase e')) else phases st k) as Hp.
  { intros k. rewrite <- phases_effect. unfold phases. simpl. by rewrite Hst, Heff. }
  split.
  - intros k Hne. by rewrite Hp, decide_False.
  - rewrite Hp, decide_True by done. destruct Hm as [Hm|Hm]; [left|by right].
    unfold phases. rewrite He, Hm. done.
  - intros Hok. rewrite Heff. by eapply unique_update.
  - intros k a Ha. rewrite Heff. by eapply ids_update.
Qed.

Lemma refines_both st st' key x x' e e' :
  st_executions st !! key = Some x -> st_effects st !! key = Some e -> ef_effect_id e' = ef_effect_id e ->
  st_executions st' = <[key := x']> (st_executions st) -> st_effects st' = <[key := e']> (st_effects st) ->
  bool_decide ((pe_phase x', ef_phase e') = (pe_phase x, ef_phase e))
    || pair_next (Some (pe_phase x), Some (ef_phase e)) (Some (pe_phase x'), Some (ef_phase e')) = true ->
  refines st st' key.
Proof.
  intros Hx He Hid Hst Heff Hm. split.
  - intros k Hne. unfold phases. rewrite Hst, Heff. by rewrite !lookup_insert_ne by done.
  - unfold phases. rewrite Hst, Heff, Hx, He, !lookup_insert_eq. simpl.
    apply orb_true_iff in Hm as [Hm|Hm]; [left|right; exact Hm].
    apply bool_decide_eq_true in Hm. congruence.
  - intros Hok. rewrite Heff. by eapply unique_update.
  - intros k a Ha. rewrite Heff. by eapply ids_update.
Qed.

(** *** Each operation moves one turn by one step *)

Lemma effect_has_execution st key e :
  custody_ok st -> st_effects st !! key = Some e ->
  exists x, st_executions st !! key = Some x /\ phases st key = (Some (pe_phase x), Some (ef_phase e)) /\
    pair_ok (Some (pe_phase x), Some (ef_phase e)) = true.
Proof.
  intros Hok He. pose proof (co_pairs _ Hok key) as Hp. unfold phases in *. rewrite He in *. simpl in *.
  destruct (st_executions st !! key) as [x|]; [|done]. by exists x.
Qed.

(** A turn that still blocks its session and has no open interrupt has no interrupt at all. *)
Lemma solo_move st key x p' :
  custody_ok st -> st_executions st !! key = Some x -> has_unfinalized_effect key st = false ->
  phase_is_blocking (pe_phase x) = true -> solo_next (pe_phase x) p' = true ->
  pair_next (phases st key) (Some p', (phases st key).2) = true.
Proof.
  intros Hok Hx He Hb Hs. pose proof (co_pairs _ Hok key) as Hp. unfold phases, has_unfinalized_effect in *.
  rewrite Hx in *. simpl in *. destruct (st_effects st !! key) as [e|]; simpl in *; [exfalso|done]. bool_to_prop.
  rewrite He in Hp. phase_cases.
Qed.

Lemma refines_start room_id session_id generation turn_id authority st st' :
  custody_ok st -> authorize_start_in room_id session_id generation turn_id st = Ok (authority, st') ->
  refines st st' (room_id, session_id, generation).
Proof.
  intros Hok Hr. unfold authorize_start_in in Hr. cbv zeta in Hr. custody_inv.
  eapply refines_execution; [eassumption|reflexivity|reflexivity|]. right. eapply solo_move; try eassumption; phase_cases.
Qed.

Ltac solo_step :=
  eapply refines_execution; [eassumption|reflexivity|reflexivity|]; right;
  eapply solo_move; try eassumption; phase_cases.

Lemma refines_insert session turn_id assignment id st st' :
  custody_ok st -> insert_assigned_execution session turn_id assignment st = Ok (id, st') ->
  refines st st' (session_execution_key session).
Proof.
  intros Hok Hr. unfold insert_assigned_execution in Hr. case_match; [done|]. cbv zeta in Hr.
  apply bind_Ok in Hr as ([] & _ & Hr). apply bind_Ok in Hr as (ex & Hi & [= _ <-]). apply insert_row_Ok in Hi as [Hx ->].
  pose proof (co_pairs _ Hok (session_execution_key session)) as Hp. unfold phases in Hp. rewrite Hx in Hp.
  destruct (st_effects st !! session_execution_key session) eqn:He; [done|]. split.
  - intros k Hne. unfold phases. simpl. by rewrite lookup_insert_ne.
  - right. unfold phases. simpl. by rewrite Hx, He, lookup_insert_eq.
  - intros _. apply (co_unique _ Hok).
  - intros k e Hk. by exists e.
Qed.

Lemma refines_run authority provider_turn_id t st st' :
  custody_ok st -> mark_running_in authority provider_turn_id st = Ok (t, st') -> refines st st' (sa_key authority).
Proof.
  intros Hok Hr. unfold mark_running_in in Hr. custody_inv.
  match goal with Hx : st_executions _ !! sa_key authority = Some ?x |- _ =>
    eapply refines_execution; [exact Hx|reflexivity|reflexivity|]; right;
    pose proof (co_pairs _ Hok (sa_key authority)) as Hp; unfold phases in *; rewrite Hx in *; simpl in *
  end.
  destruct (st_effects _ !! sa_key authority); simpl in *; phase_cases.
Qed.

Lemma refines_end session authority phase t st st' :
  custody_ok st -> terminalize_ordinary_execution session authority phase st = Ok (t, st') ->
  refines st st' (ta_key authority).
Proof.
  intros Hok Hr. unfold terminalize_ordinary_execution in Hr. cbv zeta in Hr. custody_inv.
  rename select (contains _ phase = true) into Hphase. revert Hphase. destruct phase; intros; try done; solo_step.
Qed.

Lemma refines_fail_unstarted key x t st st' :
  custody_ok st -> st_executions st !! key = Some x -> phase_in [ExecAssigned; ExecStartDispatching] x = true ->
  fail_unstarted_execution key x st = Ok (t, st') -> refines st st' key.
Proof.
  intros Hok Hx Hphase Hr. unfold fail_unstarted_execution in Hr. custody_inv.
  match goal with Hy : st_executions _ !! key = Some ?y |- _ => rewrite Hx in Hy; injection Hy as <- end. solo_step.
Qed.

Lemma refines_quarantine authority t st st' :
  custody_ok st -> quarantine_started_execution authority st = Ok (t, st') -> refines st st' (sa_key authority).
Proof.
  intros Hok Hr. unfold quarantine_started_execution in Hr. custody_inv.
  match goal with Hx : st_executions _ !! sa_key authority = Some ?x |- _ =>
    eapply refines_execution; [exact Hx|reflexivity|reflexivity|]; right;
    pose proof (co_pairs _ Hok (sa_key authority)) as Hp; unfold phases in *; rewrite Hx in *; simpl in *
  end.
  destruct (st_effects _ !! sa_key authority); simpl in *; phase_cases.
Qed.

Lemma update_where_key (key : execution_key) (p : ProviderTurnEffect -> bool) (f : ProviderTurnEffect -> ProviderTurnEffect)
    (t : gmap execution_key ProviderTurnEffect) (k : execution_key) :
  update_where (fun k' e => bool_decide (k' = key) && p e) f t !! k =
  (fun e => if bool_decide (k = key) && p e then f e else e) <$> t !! k.
Proof. unfold update_where. rewrite map_lookup_imap. by destruct (t !! k). Qed.

Lemma refines_quarantine_dispatched key x t st st' :
  custody_ok st -> st_executions st !! key = Some x ->
  phase_in [ExecStartDispatching; ExecRunning; ExecInterruptPending; ExecQuiescing] x = true ->
  quarantine_dispatched key x st = Ok (t, st') -> refines st st' key.
Proof.
  intros Hok Hx Hphase Hr. unfold quarantine_dispatched in Hr.
  apply rtx_bind_Ok in Hr as ([] & st1 & Hr1 & Hr). apply lift_Ok in Hr1 as [_ <-].
  apply rtx_bind_Ok in Hr as (d & st1 & Hd & Hr). apply reads_Ok in Hd as [[= Hd] <-].
  apply rtx_bind_Ok in Hr as ([] & st1 & Hu & Hr). apply update_execution_Ok in Hu as (y & Hy & _ & ->).
  rewrite Hx in Hy. injection Hy as <-. apply modifies_Ok in Hr as ->. split.
  - intros k Hne. unfold phases. simpl. rewrite lookup_insert_ne, update_where_key by done.
    rewrite bool_decide_false by done. by destruct (st_effects st !! k).
  - right. pose proof (co_pairs _ Hok key) as Hp. unfold phases in *. simpl.
    rewrite lookup_insert_eq, update_where_key, Hx in *. rewrite bool_decide_true by done. simpl in *.
    destruct (st_effects st !! key) as [e|]; subst d; simpl in *.
    + revert Hphase Hp. unfold phase_in, effect_in. destruct e as [? ? ph ? ? ?]. simpl.
      destruct (pe_phase x); try done; destruct ph; done.
    + revert Hphase Hp. unfold phase_in. destruct (pe_phase x); done.
  - intros _ k1 k2 e1 e2. simpl. rewrite !update_where_key. intros Hk1 Hk2 Hroom Hid.
    apply fmap_Some in Hk1 as (b1 & Hb1 & ->), Hk2 as (b2 & Hb2 & ->).
    apply (co_unique _ Hok k1 k2 b1 b2 Hb1 Hb2 Hroom). revert Hid. repeat case_match; done.
  - intros k e Hk. simpl. rewrite update_where_key, Hk. simpl. eexists. split; [done|]. by destruct (bool_decide (k = key) && _).
Qed.

Lemma refines_prepare key x cause effect st st' :
  custody_ok st -> st_executions st !! key = Some x -> prepare_interrupt_effect key x cause st = Ok (effect, st') ->
  refines st st' key.
Proof.
  intros Hok Hx Hr. unfold prepare_interrupt_effect in Hr.
  apply rtx_bind_Ok in Hr as ([] & st1 & Hr1 & Hr). apply lift_Ok in Hr1 as [Hb <-]. apply require_Ok in Hb.
  apply rtx_bind_Ok in Hr as (id & st1 & Hd & Hr). apply draw_uuid_Ok in Hd as [-> ->].
  apply rtx_bind_Ok in Hr as ([] & st1 & Hr1 & Hr). apply lift_Ok in Hr1 as [_ <-].
  apply rtx_bind_Ok in Hr as ([] & st1 & Hm & Hr). apply modifies_Ok in Hm. simpl in Hm.
  apply rtx_bind_Ok in Hr as (e1 & st2 & He1 & Hr). apply reads_Ok in He1 as [(e & y & He & _ & ->)%load_effect_in_Ok <-].
  apply rtx_bind_Ok in Hr as ([] & st2 & Hr1 & Hr). apply lift_Ok in Hr1 as [_ <-].
  apply rtx_bind_Ok in Hr as ([] & st2 & Hu & Hr). apply reads_Ok in Hr as [_ <-].
  assert (st_executions st1 = st_executions st) as Hst1.
  { subst st1. simpl. destruct (st_effects st !! key); [done|]. by destruct (list_empty _). }
  assert (st_effects st2 = st_effects st1 /\ st_executions st2 !! key =
    Some (if contains [ExecAssigned; ExecStartDispatching; ExecRunning] (pe_phase x)
          then set_phase ExecInterruptPending x else x) /\
    (forall k, k <> key -> st_executions st2 !! k = st_executions st !! k)) as (Heff & Hexec & Hframe).
  { revert Hu. destruct (contains _ (pe_phase x)); intros Hu.
    - apply update_execution_Ok in Hu as (z & Hz & _ & ->). rewrite Hst1, Hx in Hz. injection Hz as <-. simpl.
      rewrite Hst1. split_and!; [done|apply lookup_insert_eq|]. intros k Hk. by rewrite lookup_insert_ne.
    - apply rtx_ret_Ok in Hu as [_ <-]. by rewrite Hst1. }
  pose proof (co_pairs _ Hok key) as Hp. unfold phases in Hp. rewrite Hx in Hp. simpl in Hp.
  destruct (st_effects st !! key) as [e0|] eqn:He0; simpl in Hp; subst st1; simpl in *.
  - split.
    + intros k Hk. unfold phases. by rewrite Hframe, Heff.
    + left. unfold phases. rewrite Hexec, Heff, Hx. simpl. f_equal. f_equal.
      revert Hp Hb. destruct (pe_phase x) eqn:E, (ef_phase e0); simpl; rewrite ?E; done.
    + intros _. rewrite Heff. apply (co_unique _ Hok).
    + intros k a Ha. exists a. by rewrite Heff.
  - destruct (list_empty _) eqn:Hfree; simpl in *; [|congruence]. split.
    + intros k Hk. unfold phases. rewrite Hframe, Heff by done. simpl. by rewrite lookup_insert_ne.
    + right. unfold phases. rewrite Hexec, Heff, Hx, He0. simpl. rewrite lookup_insert_eq. simpl.
      revert Hp Hb. destruct (pe_phase x) eqn:E; simpl; rewrite ?E; done.
    + intros _ k1 k2 e1 e2. rewrite Heff. simpl. intros Hk1 Hk2 Hroom Hid.
      apply list_empty_iff in Hfree.
      assert (forall k a, st_effects st !! k = Some a -> k.1.1 = key.1.1 -> ef_effect_id a = uuid_at (st_drawn st) -> False) as Hno.
      { intros k a Ha Hk Hi. assert ((k, a) ∈ matching (fun (k : execution_key) e =>
          str_eqb k.1.1 key.1.1 && str_eqb (ef_effect_id e) (uuid_at (st_drawn st))) (st_effects st)) as Hin.
        { apply elem_of_matching. split; [done|]. rewrite Hk, Hi. unfold str_eqb. by rewrite !bool_decide_true. }
        rewrite Hfree in Hin. by apply elem_of_nil in Hin. }
      destruct (decide (k1 = key)) as [->|Hn1], (decide (k2 = key)) as [->|Hn2]; [done| | |].
      * rewrite lookup_insert_eq in Hk1. injection Hk1 as <-. rewrite lookup_insert_ne in Hk2 by done.
        destruct (Hno k2 e2); [done|by symmetry|by symmetry].
      * rewrite lookup_insert_eq in Hk2. injection Hk2 as <-. rewrite lookup_insert_ne in Hk1 by done.
        by destruct (Hno k1 e1).
      * rewrite lookup_insert_ne in Hk1, Hk2 by done. by apply (co_unique _ Hok k1 k2 e1 e2).
    + intros k a Ha. exists a. rewrite Heff. simpl. rewrite lookup_insert_ne; [done|]. congruence.
Qed.

Lemma loaded_row st key e k e' :
  custody_ok st -> st_effects st !! key = Some e -> st_effects st !! k = Some e' ->
  k.1.1 = key.1.1 -> ef_effect_id e' = ef_effect_id e -> k = key /\ e' = e.
Proof.
  intros Hok He He' Hroom Hid. assert (k = key) as -> by (by eapply (co_unique _ Hok)). split; [done|congruence].
Qed.

(** An effect row updated alone. *)
Lemma refines_effect_move st st' key e e' :
  custody_ok st -> st_effects st !! key = Some e ->
  st_executions st' = st_executions st -> st_effects st' = <[key := e']> (st_effects st) ->
  ef_effect_id e' = ef_effect_id e ->
  (forall p, pair_ok (Some p, Some (ef_phase e)) = true ->
    ef_phase e' = ef_phase e \/ joint_next p (ef_phase e) p (ef_phase e') = true) -> refines st st' key.
Proof.
  intros Hok He Hst Heff Hid Hm. destruct (effect_has_execution st key e Hok He) as (x & Hx & Hph & Hp).
  eapply refines_effect; [exact He|exact Hid|exact Hst|exact Heff|]. rewrite Hph. simpl. by apply Hm.
Qed.

Ltac effect_step Hok :=
  match goal with Hk : st_effects ?st !! ?k = Some ?e |- exists key, refines ?st _ key =>
    exists k; eapply (refines_effect_move _ _ _ _ _ Hok Hk); [reflexivity|reflexivity|reflexivity|] end;
  let p := fresh "p" in intros p; unfold effect_in in *; simpl in *;
  repeat match goal with Hf : context [ef_phase ?e] |- _ => revert Hf end;
  match goal with |- context [ef_phase ?e] => destruct (ef_phase e) end;
  intros; destruct p; try done; solve [by left|by right].

Lemma refines_claim expected owner now claim st st' :
  custody_ok st -> claim_provider_turn_interrupt expected owner now st = Ok (claim, st') ->
  exists key, refines st st' key.
Proof.
  intros Hok Hr. unfold claim_provider_turn_interrupt in Hr.
  apply rtx_bind_Ok in Hr as ([] & st1 & Hl & Hr). apply lift_Ok in Hl as [_ <-]. custody_inv. effect_step Hok.
Qed.

Lemma refines_dispatch claim now t st st' :
  custody_ok st -> fence_interrupt_dispatch claim now st = Ok (t, st') ->
  exists key, refines st st' key.
Proof. intros Hok Hr. unfold fence_interrupt_dispatch in Hr. custody_inv. effect_step Hok. Qed.

Lemma refines_deliver effect stale effect' st st' :
  custody_ok st -> deliver_prepared_interrupt effect stale st = Ok (effect', st') ->
  exists key, refines st st' key.
Proof.
  intros Hok Hr. unfold deliver_prepared_interrupt in Hr. destruct (bool_decide _).
  - custody_inv. effect_step Hok.
  - apply rtx_ret_Ok in Hr as [_ <-]. exists (ie_key effect). by apply refines_same.
Qed.

Lemma refines_claim_recovery expected owner now claim st st' :
  custody_ok st -> claim_provider_turn_interrupt_recovery expected owner now st = Ok (claim, st') ->
  exists key, refines st st' key.
Proof.
  intros Hok Hr. unfold claim_provider_turn_interrupt_recovery in Hr.
  apply rtx_bind_Ok in Hr as ([] & st1 & Hl & Hr). apply lift_Ok in Hl as [_ <-]. custody_inv.
  match goal with Hk : st_effects ?st !! ?k = Some ?e |- exists key, refines ?st {| st_effects := <[?k := _]> _ |} key =>
    exists k; eapply (refines_effect_move _ _ _ _ _ Hok Hk); [reflexivity|reflexivity|reflexivity|] end.
  intros p _. by left.
Qed.

Lemma refines_release claim t st st' :
  custody_ok st -> release_provider_interrupt_recovery_claim claim st = Ok (t, st') ->
  exists key, refines st st' key.
Proof.
  intros Hok Hr. unfold release_provider_interrupt_recovery_claim in Hr. custody_inv.
  match goal with Hk : st_effects ?st !! ?k = Some ?e |- exists key, refines ?st {| st_effects := <[?k := _]> _ |} key =>
    exists k; eapply (refines_effect_move _ _ _ _ _ Hok Hk); [reflexivity|reflexivity|reflexivity|] end.
  intros p _. by left.
Qed.

(** Identifies what was read of a row with [Hx], what the row is known to be. *)
Ltac same_rows Hx :=
  repeat match goal with Hy : _ !! _ = Some _ |- _ =>
    tryif constr_eq Hy Hx then fail else (rewrite Hx in Hy; injection Hy as <-) end.

(** Both rows of one turn updated. *)
Ltac both_step :=
  match goal with
  | Hx : st_executions ?st !! ?k = Some ?x, He : st_effects ?st !! ?k = Some ?e |- refines ?st _ ?k =>
      eapply (refines_both _ _ _ _ _ _ _ Hx He); [|reflexivity|reflexivity|]; [reflexivity|]
  end; phase_cases.

Lemma refines_waiting expected owner now effect st st' :
  custody_ok st -> names_effect st expected -> transition_to_waiting_in expected owner now st = Ok (effect, st') ->
  refines st st' (ie_key expected).
Proof.
  intros Hok Hn Hr. unfold transition_to_waiting_in in Hr.
  apply rtx_bind_Ok in Hr as ([] & st1 & Hu & Hr). apply update_effect_Ok in Hu as (k & e & He & Hroom & Hid & Hp & ->).
  pose proof (Hn _ _ He Hroom Hid) as ->. custody_inv. destruct owner; bool_to_prop; both_step.
Qed.

Lemma refines_ambiguous dispatched t st st' :
  custody_ok st -> names_effect st dispatched -> mark_provider_interrupt_ambiguous dispatched st = Ok (t, st') ->
  refines st st' (ie_key dispatched).
Proof.
  intros Hok Hn Hr. unfold mark_provider_interrupt_ambiguous in Hr.
  apply rtx_bind_Ok in Hr as ([] & st1 & Hu & Hr). apply update_effect_Ok in Hu as (k & e & He & Hroom & Hid & Hp & ->).
  pose proof (Hn _ _ He Hroom Hid) as ->. custody_inv. both_step.
Qed.

Lemma loaded_names st key effect : custody_ok st -> load_effect_in key st = Ok effect ->
  ie_key effect = key /\ names_effect st effect.
Proof.
  intros Hok (e & x & He & Hx & ->)%load_effect_in_Ok. destruct key as [[room session] generation]. split; [done|].
  intros k e' He' Hroom Hid. by eapply (co_unique _ Hok).
Qed.

Lemma refines_recovery_required expected release t st st' :
  custody_ok st -> transition_to_recovery_required expected release st = Ok (t, st') ->
  exists key, refines st st' key.
Proof.
  intros Hok Hr. unfold transition_to_recovery_required in Hr.
  apply rtx_bind_Ok in Hr as (current & st1 & Hl & Hr). apply reads_Ok in Hl as [Hl <-].
  destruct (loaded_names _ _ _ Hok Hl) as [Hkey Hn]. exists (ie_key current).
  destruct release as [owner|]; custody_inv.
  all: match goal with He : st_effects ?st !! ?k = Some _, Hroom : ?k.1.1 = _, Hid : ef_effect_id _ = _ |- _ =>
    pose proof (Hn _ _ He Hroom Hid); subst k end; both_step.
Qed.

Lemma refines_recovery_wait claim now effect st st' :
  custody_ok st -> authorize_provider_interrupt_recovery_wait claim now st = Ok (effect, st') ->
  exists key, refines st st' key.
Proof.
  intros Hok Hr. unfold authorize_provider_interrupt_recovery_wait in Hr. cbv zeta in Hr.
  apply rtx_bind_Ok in Hr as (current & st1 & Hl & Hr). apply reads_Ok in Hl as [Hl <-].
  destruct (loaded_names _ _ _ Hok Hl) as [Hkey Hn]. exists (ie_key current).
  apply load_effect_in_Ok in Hl as (e & x & He & Hx & ->).
  apply rtx_bind_Ok in Hr as ([] & st1 & Hq & Hr). apply lift_Ok in Hq as [_ <-]. rewrite Hkey in *. custody_inv.
  match goal with Hk : st_effects _ !! ?k = Some ?e', Hroom : ?k.1.1 = _, Hid : ef_effect_id ?e' = ef_effect_id e |- _ =>
    destruct (loaded_row _ _ _ _ _ Hok He Hk Hroom Hid) as [-> ->] end.
  rename select (recoverable_pair _ _ = true) into Hrec. unfold recoverable_pair in Hrec. bool_to_prop. simpl in *.
  same_rows Hx.
  both_step.
Qed.

Lemma refines_retained expected t st st' :
  custody_ok st -> terminalize_retained_interrupt expected st = Ok (t, st') -> refines st st' (ie_key expected).
Proof.
  intros Hok Hr. unfold terminalize_retained_interrupt in Hr.
  apply rtx_bind_Ok in Hr as (x & st1 & Hx & Hr). apply reads_Ok in Hx as [Hx%load_execution_in_Ok <-].
  apply rtx_bind_Ok in Hr as ([] & st1 & Hl & Hr). apply lift_Ok in Hl as [_ <-].
  apply rtx_bind_Ok in Hr as (effect & st1 & Hl & Hr). apply reads_Ok in Hl as [Hl <-].
  apply load_effect_in_Ok in Hl as (e & y & He & Hy & ->).
  apply rtx_bind_Ok in Hr as ([] & st1 & Hl & Hr). apply lift_Ok in Hl as [_ <-]. custody_inv.
  match goal with Hk : st_effects _ !! ?k = Some ?e', Hroom : ?k.1.1 = _, Hid : ef_effect_id ?e' = ef_effect_id e |- _ =>
    tryif constr_eq e' e then fail else destruct (loaded_row _ _ _ _ _ Hok He Hk Hroom Hid) as [-> ->] end.
  both_step.
Qed.

Lemma refines_finalize key x effect phase invalid stale t st st' :
  custody_ok st -> st_executions st !! key = Some x -> phase_is_blocking (pe_phase x) = true ->
  load_optional_effect_in key st = Ok effect ->
  match effect with Some _ => phase = ExecInterrupted | None => phase = ExecFailed \/ phase = ExecInterrupted end ->
  finalize_pair key x effect phase invalid stale st = Ok (t, st') -> refines st st' key.
Proof.
  intros Hok Hx Hb Hl Hphase Hr. unfold finalize_pair in Hr. apply load_optional_effect_in_Ok in Hl.
  pose proof (co_pairs _ Hok key) as Hp. unfold phases in Hp. rewrite Hx in Hp. simpl in Hp.
  destruct effect as [effect|].
  - apply load_effect_in_Ok in Hl as (e & y & He & Hy & ->). rewrite He in Hp. simpl in Hp. subst phase. custody_inv.
    match goal with Hk : st_effects _ !! ?k = Some ?e', Hroom : ?k.1.1 = _, Hid : ef_effect_id ?e' = ef_effect_id e |- _ =>
      destruct (loaded_row _ _ _ _ _ Hok He Hk Hroom Hid) as [-> ->] end.
    same_rows Hx.
    eapply (refines_both _ _ _ _ _ _ _ Hx He); [|reflexivity|reflexivity|]; [reflexivity|].
    simpl. revert Hb Hp. destruct (pe_phase x), (ef_phase e); done.
  - rewrite Hl in Hp. simpl in Hp. custody_inv.
    same_rows Hx. eapply refines_execution; [exact Hx|reflexivity|reflexivity|]. right. unfold phases. rewrite Hx, Hl. simpl.
    revert Hb Hp. destruct Hphase as [-> | ->]; simpl; destruct (pe_phase x); done.
Qed.

Lemma appends_refines st st' key : appends st st' -> refines st st' key.
Proof. intros Ha. apply refines_same; [apply (ap_executions _ _ Ha)|apply (ap_effects _ _ Ha)]. Qed.

Lemma refines_appends st st1 st' key : refines st st1 key -> appends st1 st' -> refines st st' key.
Proof.
  intros [Hf Hm Hu Hi] Ha. assert (forall k, phases st' k = phases st1 k) as Hp.
  { intros k. unfold phases. by rewrite (ap_executions _ _ Ha), (ap_effects _ _ Ha). }
  split.
  - intros k Hk. rewrite Hp. by apply Hf.
  - by rewrite Hp.
  - intros Hok. rewrite (ap_effects _ _ Ha). by apply Hu.
  - intros k e Hk. rewrite (ap_effects _ _ Ha). by apply Hi.
Qed.

Lemma exact_stop_blocking session x effect :
  exact_stop_turn_is_terminal session x effect = Ok false -> phase_is_blocking (pe_phase x) = true.
Proof.
  unfold exact_stop_turn_is_terminal. destruct (_ || _) eqn:E; [done|]. clear E.
  destruct (phase_in [ExecInterrupted] x && _).
  - destruct effect; [|done]. intros Hr. apply bind_Ok in Hr as ([] & _ & Hr). done.
  - intros Hr. apply bind_Ok in Hr as ([] & Hr & _). apply reject_if_Ok in Hr. bool_to_prop. done.
Qed.

Lemma refines_stop session now event st st' :
  custody_ok st -> terminalize_confirmed_stop_turn session now st = Ok (event, st') ->
  exists key, refines st st' key.
Proof.
  intros Hok Hr. unfold terminalize_confirmed_stop_turn in Hr.
  apply rtx_bind_Ok in Hr as (active & st1 & Hl & Hr). apply lift_Ok in Hl as [_ <-]. exists (session_execution_key session).
  destruct active; simpl in Hr; [|apply rtx_ret_Ok in Hr as [_ <-]; by apply refines_same]. cbv zeta in Hr.
  apply rtx_bind_Ok in Hr as (x & st1 & Hl & Hr). apply reads_Ok in Hl as [Hx%load_execution_in_Ok <-].
  apply rtx_bind_Ok in Hr as (effect & st1 & Hl & Hr). apply reads_Ok in Hl as [Heff <-].
  apply rtx_bind_Ok in Hr as (terminal & st1 & Hl & Hr). apply lift_Ok in Hl as [Ht <-].
  destruct terminal; [apply rtx_ret_Ok in Hr as [_ <-]; by apply refines_same|].
  apply rtx_bind_Ok in Hr as ([] & st1 & Hf & Hr). apply rtx_bind_Ok in Hr as (e & st2 & He & Hr).
  apply rtx_ret_Ok in Hr as [_ <-]. eapply refines_appends; [|by eapply turn_finished_event_appends].
  eapply refines_finalize; [exact Hok|exact Hx|by eapply exact_stop_blocking|exact Heff| |exact Hf].
  destruct effect; [done|by right].
Qed.

(** Every operation moves at most one turn, by one step of the automaton. *)
Lemma custody_step_refines st st' :
  custody_ok st -> custody_step st st' -> exists key, refines st st' key.
Proof.
  intros Hok Hs. destruct Hs.
  - eexists. by eapply refines_insert.
  - eexists. by eapply refines_start.
  - eexists. by eapply refines_run.
  - eexists. by eapply refines_end.
  - eexists. by eapply refines_fail_unstarted.
  - eexists. by eapply refines_quarantine.
  - eexists. by eapply refines_quarantine_dispatched.
  - eexists. by eapply refines_prepare.
  - by eapply refines_claim.
  - by eapply refines_claim_recovery.
  - eexists. by eapply refines_waiting.
  - by eapply refines_dispatch.
  - by eapply refines_deliver.
  - eexists. by eapply refines_ambiguous.
  - by eapply refines_recovery_required.
  - by eapply refines_release.
  - by eapply refines_recovery_wait.
  - eexists. by eapply refines_retained.
  - exists key. eapply refines_finalize; try eassumption. destruct effect; [done|by left].
  - by eapply refines_stop.
  - exists ([], [], 0%N). by apply refines_same.
Qed.

Lemma custody_step_ok st st' : custody_ok st -> custody_step st st' -> custody_ok st'.
Proof. intros Hok Hs. destruct (custody_step_refines _ _ Hok Hs) as [key Hr]. by eapply refines_ok. Qed.

Lemma custody_history_ok st st' : custody_ok st -> rtc custody_step st st' -> custody_ok st'.
Proof. intros Hok Hs. induction Hs as [|a b c Hab _ IH]; [done|]. by apply IH, (custody_step_ok a). Qed.

(** What holds of a turn and is kept by every step of the automaton holds for ever. *)
Lemma custody_stable (P : pair_phases -> bool) st st' key :
  (forall a b, pair_ok a = true -> P a = true -> pair_next a b = true -> P b = true) ->
  custody_ok st -> rtc custody_step st st' -> P (phases st key) = true -> P (phases st' key) = true.
Proof.
  intros HP Hok Hs. induction Hs as [|a b c Hab _ IH]; [done|]. intros Ha.
  apply IH; [by eapply custody_step_ok|]. destruct (custody_step_refines _ _ Hok Hab) as [k [Hf Hm _ _]].
  destruct (decide (key = k)) as [->|Hne].
  - destruct Hm as [->|Hm]; [done|]. eapply HP; [apply Hok|exact Ha|exact Hm].
  - by rewrite Hf.
Qed.

(** An effect keeps its row and its identifier. *)
Lemma custody_effect_kept st st' key e :
  custody_ok st -> rtc custody_step st st' -> st_effects st !! key = Some e ->
  exists e', st_effects st' !! key = Some e' /\ ef_effect_id e' = ef_effect_id e.
Proof.
  intros Hok Hs. revert e. induction Hs as [a|a b c Hab _ IH]; intros e He; [by exists e|].
  destruct (custody_step_refines _ _ Hok Hab) as [k Hr]. destruct (rf_ids _ _ _ Hr _ _ He) as (e1 & He1 & Hid1).
  destruct (IH (custody_step_ok _ _ Hok Hab) _ He1) as (e2 & He2 & Hid2). exists e2. split; [done|congruence].
Qed.

Lemma fresh_custody_ok st : st_executions st = ∅ -> st_effects st = ∅ -> custody_ok st.
Proof.
  intros Hx He. split.
  - intros key. unfold phases. by rewrite Hx, He, !lookup_empty.
  - intros k1 k2 e1 e2 Hk. by rewrite He, lookup_empty in Hk.
Qed.

(** What the guarded operations require of the turn, and leave. *)
Lemma authorize_start_phases room_id session_id generation turn_id authority st st' :
  authorize_start_in room_id session_id generation turn_id st = Ok (authority, st') ->
  (phases st (room_id, session_id, generation)).1 = Some ExecAssigned /\
  (phases st' (room_id, session_id, generation)).1 = Some ExecStartDispatching.
Proof.
  unfold authorize_start_in. cbv zeta. intros Hr. custody_inv. unfold phases. simpl. rewrite lookup_insert_eq.
  match goal with Hx : st_executions _ !! _ = Some ?x, Hp : phase_in _ ?x = true |- _ =>
    rewrite Hx; revert Hp; unfold phase_in; simpl; by destruct (pe_phase x) end.
Qed.

Lemma terminalize_ordinary_phases session authority phase t st st' :
  terminalize_ordinary_execution session authority phase st = Ok (t, st') ->
  has_unfinalized_effect (ta_key authority) st = false /\
  exists p, (phases st (ta_key authority)).1 = Some p /\ (p = ExecStartDispatching \/ p = ExecRunning) /\
    phase_is_blocking phase = false /\ (phases st' (ta_key authority)).1 = Some phase.
Proof.
  unfold terminalize_ordinary_execution. cbv zeta. intros Hr. custody_inv. split; [done|].
  match goal with Hx : st_executions _ !! _ = Some ?x, Hp : phase_in _ ?x = true |- _ =>
    exists (pe_phase x); unfold phases; simpl; rewrite Hx, lookup_insert_eq; simpl; split_and!; [done| |..] end.
  - match goal with Hp : phase_in _ ?x = true |- _ => revert Hp; unfold phase_in; destruct (pe_phase x); try done; auto end.
  - match goal with Hp : contains _ phase = true |- _ => revert Hp; by destruct phase end.
  - done.
Qed.

(** What the insertion of an assigned execution leaves. *)
Lemma insert_assigned_execution_Ok session turn_id envelope st id st' :
  insert_assigned_execution session turn_id envelope st = Ok (id, st') ->
  s_active_turn_id (d_public session) = turn_id /\
  st_sessions st' = st_sessions st /\ (store_ok st -> store_ok st') /\
  exists row, pe_execution_id row = id /\ pe_turn_id row = turn_id /\ pe_phase row = ExecAssigned /\
    pe_assignment row = envelope /\
    st_executions st' = <[session_execution_key session := row]> (st_executions st).
Proof.
  unfold insert_assigned_execution. intros Hrun. case_match eqn:E; [done|]. bool_to_prop.
  apply bind_Ok in Hrun as ([] & _ & Hrun). apply bind_Ok in Hrun as (executions & Hi & [= <- <-]). tx_inv.
  split_and!; [|done|by intros [Hk Hp]; split|eexists; split_and!; [..|reflexivity]; reflexivity].
  match goal with Ht : str_eqb _ _ = true |- _ => by apply str_eqb_true in Ht end.
Qed.

(** ** Theorems *)

(** The operations on executions and interrupt effects implement the automaton: from tables with
    no turn, whatever operations succeed in whatever order, each moves at most one turn, by one of
    the automaton's steps, and the phase of an interrupt always agrees with its execution's. *)

(** C3: the operations on executions and interrupt effects implement the abstract automaton
    of a turn: whatever operations succeed in whatever order, each moves at most one turn,
    by one step of the automaton, and the phase of an interrupt always agrees with its
    execution's. *)
Theorem custody_refines_automaton (st0 st st' : RoomStore)
    (Hx : st_executions st0 = ∅) (He : st_effects st0 = ∅)
    (Hhistory : rtc custody_step st0 st) (Hstep : custody_step st st') :
  (forall key, pair_ok (phases st key) = true) /\
  exists key, (forall k, k <> key -> phases st' k = phases st k) /\
    (phases st' key = phases st key \/ pair_next (phases st key) (phases st' key) = true).
Proof.
  pose proof (custody_history_ok _ _ (fresh_custody_ok _ Hx He) Hhistory) as Hok. split; [apply Hok|].
  destruct (custody_step_refines _ _ Hok Hstep) as [key [Hf Hm _ _]]. by exists key.
Qed.

(** The start of a provider turn is authorized at most once: whatever happens afterwards, every
    later attempt on the same execution is refused. *)

(** the start of a provider turn is authorized at most once: whatever happens
    afterwards, every later attempt on the same execution is refused. *)
Theorem start_authorized_once (st st1 st2 : RoomStore) (room_id session_id : str) (generation : N)
    (turn_id turn_id' : str) (authority : ProviderTurnStartAuthority)
    (Hok : custody_ok st) (Hstart : authorize_start_in room_id session_id generation turn_id st = Ok (authority, st1))
    (Hhistory : rtc custody_step st1 st2) :
  is_ok (authorize_start_in room_id session_id generation turn_id' st2) = false.
Proof.
  destruct (authorize_start_in room_id session_id generation turn_id' st2) as [[a st3]|] eqn:E; [exfalso|done].
  set (P := fun a : pair_phases => match a.1 with Some p => negb (bool_decide (p = ExecAssigned)) | None => false end).
  assert (P (phases st2 (room_id, session_id, generation)) = true) as HP.
  { eapply custody_stable; [|eapply refines_ok; [exact Hok|by eapply refines_start]|exact Hhistory|].
    - intros [[p|] [e|]] [[p'|] [e'|]]; try done; try destruct p; try destruct e; try done; destruct p'; try done; by destruct e'.
    - unfold P. by rewrite (proj2 (authorize_start_phases _ _ _ _ _ _ _ Hstart)). }
  unfold P in HP. by rewrite (proj1 (authorize_start_phases _ _ _ _ _ _ _ E)) in HP.
Qed.

(** Where a turn has an interrupt, no ordinary end of it is accepted. *)
Lemma effect_blocks_end st e session authority phase t st' :
  custody_ok st -> st_effects st !! ta_key authority = Some e ->
  ~ terminalize_ordinary_execution session authority phase st = Ok (t, st').
Proof.
  intros Hok He E. pose proof (co_pairs _ Hok (ta_key authority)) as Hp.
  apply terminalize_ordinary_phases in E as (Hu & p & Hph & Hphase & _ & _).
  unfold has_unfinalized_effect in Hu. rewrite He in Hu. bool_to_prop. unfold phases in *. rewrite He in Hp.
  simpl in Hph, Hp. rewrite Hph, Hu in Hp. by destruct Hphase as [-> | ->].
Qed.

(** Once an interrupt of a turn has been prepared, no ordinary end of that turn is accepted any
    more: an interrupted turn never publishes. *)

(** C4: once an interrupt of a turn has been prepared, no ordinary end of that turn is
    accepted any more: an interrupted turn never publishes. *)
Theorem interrupted_turn_never_completes (st st1 st2 : RoomStore) (key : execution_key)
    (x : ProviderTurnExecution) (cause : ProviderTurnInterruptCause) (effect : ProviderTurnInterruptEffect)
    (session : DurableAgentSession) (authority : ProviderTurnAuthority) (phase : ProviderTurnExecutionPhase)
    (Hok : custody_ok st) (Hx : st_executions st !! key = Some x)
    (Hprepare : prepare_interrupt_effect key x cause st = Ok (effect, st1))
    (Hhistory : rtc custody_step st1 st2) (Hkey : ta_key authority = key) :
  is_ok (terminalize_ordinary_execution session authority phase st2) = false.
Proof.
  destruct (terminalize_ordinary_execution _ _ _ st2) as [[[] st3]|] eqn:E; [exfalso|done]. subst key.
  assert (custody_ok st1) as Hok1 by (eapply refines_ok; [exact Hok|by eapply refines_prepare]).
  assert (exists e, st_effects st1 !! ta_key authority = Some e) as [e He].
  { unfold prepare_interrupt_effect in Hprepare.
    do 6 (apply rtx_bind_Ok in Hprepare as (? & ? & _ & Hprepare)). apply rtx_bind_Ok in Hprepare as (? & ? & _ & Hprepare).
    apply reads_Ok in Hprepare as [(e & y & He & _)%load_effect_in_Ok ->]. by exists e. }
  destruct (custody_effect_kept _ _ _ _ Hok1 Hhistory He) as (e2 & He2 & _).
  eapply effect_blocks_end; [by eapply custody_history_ok|done..].
Qed.

(** A turn that has ended stays as it ended. *)

(** a turn that has ended keeps its terminal phase for ever. *)
Theorem ended_turn_is_final (st st' : RoomStore) (key : execution_key) (p : ProviderTurnExecutionPhase)
    (Hok : custody_ok st) (Hp : (phases st key).1 = Some p) (Hend : phase_is_blocking p = false)
    (Hhistory : rtc custody_step st st') :
  phases st' key = phases st key.
Proof.
  set (P := fun a : pair_phases => bool_decide (a = phases st key)).
  assert (P (phases st' key) = true) as Hd; [|by apply bool_decide_eq_true in Hd].
  eapply custody_stable; [|exact Hok|exact Hhistory|by apply bool_decide_eq_true].
  intros a b Ha Hab%bool_decide_eq_true Hn. subst a. exfalso. destruct (phases st key) as [[q|] e]; [|done].
  injection Hp as ->. destruct b as [[p'|] [e'|]], e as [e|]; try done; destruct p, p'; try done; try destruct e; try done; by destruct e'.
Qed.

(** An ordinary end is accepted at most once. *)

(** an ordinary end of a turn is accepted at most once, whatever happens in between. *)
Theorem turn_ends_once (st st1 st2 : RoomStore) (session session' : DurableAgentSession)
    (authority authority' : ProviderTurnAuthority) (phase phase' : ProviderTurnExecutionPhase)
    (Hok : custody_ok st) (Hend : terminalize_ordinary_execution session authority phase st = Ok (tt, st1))
    (Hhistory : rtc custody_step st1 st2) (Hsame : ta_key authority' = ta_key authority) :
  is_ok (terminalize_ordinary_execution session' authority' phase' st2) = false.
Proof.
  destruct (terminalize_ordinary_execution session' authority' phase' st2) as [[[] st3]|] eqn:E; [exfalso|done].
  assert (custody_ok st1) as Hok1 by (eapply refines_ok; [exact Hok|by eapply refines_end]).
  apply terminalize_ordinary_phases in Hend as (_ & p & _ & _ & Hterm & Hph1).
  apply terminalize_ordinary_phases in E as (_ & p' & Hph' & Hp' & _). rewrite Hsame in Hph'.
  set (P := fun a : pair_phases => match a.1 with Some p => negb (phase_is_blocking p) | None => false end).
  assert (P (phases st2 (ta_key authority)) = true) as HP.
  { eapply custody_stable; [|exact Hok1|exact Hhistory|unfold P; by rewrite Hph1, Hterm].
    intros [[q|] [e|]] [[q'|] [e'|]]; try done; try destruct q; try destruct e; try done; destruct q'; try done; by destruct e'. }
  unfold P in HP. rewrite Hph' in HP. by destruct Hp' as [-> | ->].
Qed.

(** The dispatch of an interrupt is authorized at most once, and what was dispatched is left to its end or to recovery. *)

(** An effect that was dispatched is never prepared or claimed again. *)
Definition past_claim (a : pair_phases) : bool :=
  match a.2 with Some e => negb (contains [EffPrepared; EffClaimed] e) | None => false end.
Lemma past_claim_next a b : pair_ok a = true -> past_claim a = true -> pair_next a b = true -> past_claim b = true.
Proof.
  destruct a as [[q|] [f|]], b as [[q'|] [f'|]]; try done; try destruct q; try destruct f; try done; destruct q'; try done; by destruct f'.
Qed.
Lemma fenced_row claim now st t st1 st2 :
  custody_ok st -> fence_interrupt_dispatch claim now st = Ok (t, st1) -> rtc custody_step st1 st2 ->
  custody_ok st2 /\ exists k e, st_effects st2 !! k = Some e /\ k.1.1 = ie_room_id (cl_effect claim) /\
    ef_effect_id e = ie_effect_id (cl_effect claim) /\ contains [EffPrepared; EffClaimed] (ef_phase e) = false.
Proof.
  intros Hok Hd Hhistory.
  assert (custody_ok st1) as Hok1.
  { destruct (refines_dispatch _ _ _ _ _ Hok Hd) as [k Hk]. by eapply refines_ok. }
  pose proof (custody_history_ok _ _ Hok1 Hhistory) as Hok2. split; [done|]. unfold fence_interrupt_dispatch in Hd.
  apply rtx_bind_Ok in Hd as (n & s1 & [-> ->]%draw_uuid_Ok & (k & e & He & Hk & Hi & _ & ->)%update_effect_Ok).
  simpl in *.
  assert (Hrow : (<[k := set_effect_phase EffDispatching (e <| ef_dispatch_nonce := uuid_at (st_drawn st) |>)]> (st_effects st)) !! k =
    Some (set_effect_phase EffDispatching (e <| ef_dispatch_nonce := uuid_at (st_drawn st) |>))) by apply lookup_insert_eq.
  edestruct (custody_effect_kept _ _ k _ Hok1 Hhistory Hrow) as (e2 & He2 & Hid2). exists k, e2. split_and!; [done|done|by rewrite Hid2|].
  assert (past_claim (phases st2 k) = true) as HP.
  { eapply custody_stable; [apply past_claim_next|exact Hok1|exact Hhistory|]. unfold past_claim, phases. simpl. by rewrite lookup_insert_eq. }
  revert HP. unfold past_claim, phases. rewrite He2. simpl. by destruct (contains _ _).
Qed.

(** C15: once the dispatch of an interrupt was authorized, no other authorization of it, no
    ordinary claim, no wait as of an interrupt that had not begun and no first delivery to
    an attendee is accepted, whatever happens next: the provider can be asked for it again
    only by a recovery that holds a live claim of it, and only while the turn and the
    interrupt are a pair that recovery takes. *)
Theorem interrupt_dispatched_once (st st1 st2 : RoomStore) (claim claim' : ProviderTurnEffectClaim) (owner : str) (stale : PersistenceError)
    (now now' : Z) (effect : ProviderTurnInterruptEffect)
    (Hok : custody_ok st) (Hdispatch : fence_interrupt_dispatch claim now st = Ok (tt, st1))
    (Hhistory : rtc custody_step st1 st2) (Hclaim : cl_effect claim' = effect)
    (Hroom : ie_room_id effect = ie_room_id (cl_effect claim)) (Hid : ie_effect_id effect = ie_effect_id (cl_effect claim)) :
  is_ok (fence_interrupt_dispatch claim' now' st2) = false /\
  is_ok (claim_provider_turn_interrupt effect owner now' st2) = false /\
  is_ok (mark_unstarted_interrupt_waiting claim' now' st2) = false /\
  (ie_phase effect = EffPrepared -> is_ok (deliver_prepared_interrupt effect stale st2) = false) /\
  (is_ok (authorize_provider_interrupt_recovery_wait claim' now' st2) = true ->
    exists e x, st_effects st2 !! ie_key effect = Some e /\ st_executions st2 !! ie_key effect = Some x /\
      ef_effect_id e = ie_effect_id effect /\ ef_claim_owner e = cl_owner claim' /\ claim_live now' e = true /\
      recoverable_interrupt_pair (ef_phase e) (pe_phase x) = true).
Proof.
  destruct (fenced_row _ _ _ _ _ _ Hok Hdispatch Hhistory) as (Hok2 & k & e & He & Hk & Hi & Hpast).
  assert (Hnever : forall p f st3 err t st', st_effects st3 = st_effects st2 ->
    (forall e, p e = true -> contains [EffPrepared; EffClaimed] (ef_phase e) = true) ->
    update_effect (ie_room_id effect) (ie_effect_id effect) p f err st3 = Ok (t, st') -> False).
  { intros p f st3 err t st' E Hp (k' & e' & He' & Hk' & Hi' & Hpe & _)%update_effect_Ok. rewrite E in He'.
    assert (k' = k) as -> by (eapply (co_unique _ Hok2); [exact He'|exact He|congruence|congruence]).
    assert (e' = e) as -> by congruence. apply Hp in Hpe. congruence. }
  split_and!.
  - destruct (fence_interrupt_dispatch claim' now' st2) as [[a st3]|] eqn:E; [exfalso|done]. unfold fence_interrupt_dispatch in E.
    apply rtx_bind_Ok in E as (n' & s1' & [-> ->]%draw_uuid_Ok & E). rewrite Hclaim in E. eapply Hnever; [|intros e' Hp|exact E]; [done|].
    bool_to_prop. unfold effect_in in *. by destruct (ef_phase e').
  - destruct (claim_provider_turn_interrupt effect owner now' st2) as [[a st3]|] eqn:E; [exfalso|done].
    unfold claim_provider_turn_interrupt in E. apply rtx_bind_Ok in E as (? & ? & [_ <-]%lift_Ok & E).
    apply rtx_bind_Ok in E as (current & ? & [Hl <-]%reads_Ok & E). apply rtx_bind_Ok in E as ([] & ? & [(_ & Er & Ei)%require_exact_effect_Ok <-]%lift_Ok & E).
    apply rtx_bind_Ok in E as (? & ? & E & _). rewrite <- Er, <- Ei in E.
    eapply Hnever; [|intros e' Hp|exact E]; [done|]. unfold effect_in in *. by destruct (ef_phase e').
  - destruct (mark_unstarted_interrupt_waiting claim' now' st2) as [[a st3]|] eqn:E; [exfalso|done].
    unfold mark_unstarted_interrupt_waiting, transition_to_waiting_in in E. rewrite Hclaim in E.
    apply rtx_bind_Ok in E as (? & ? & E & _). eapply Hnever; [|intros e' Hp|exact E]; [done|].
    bool_to_prop. unfold effect_in in *. by destruct (ef_phase e').
  - intros Hprep. destruct (deliver_prepared_interrupt effect stale st2) as [[a st3]|] eqn:E; [exfalso|done].
    unfold deliver_prepared_interrupt in E. rewrite bool_decide_eq_true_2 in E by done.
    apply rtx_bind_Ok in E as (n' & s1' & [-> ->]%draw_uuid_Ok & E). apply rtx_bind_Ok in E as (? & ? & E & _).
    eapply Hnever; [|intros e' Hp|exact E]; [done|]. unfold effect_in in *. by destruct (ef_phase e').
  - destruct (authorize_provider_interrupt_recovery_wait claim' now' st2) as [[a st3]|] eqn:E; [intros _|done].
    unfold authorize_provider_interrupt_recovery_wait in E. cbv zeta in E. rewrite Hclaim in E.
    apply rtx_bind_Ok in E as (current & ? & [(e1 & x1 & He1 & Hx1 & Ecur)%load_effect_in_Ok <-]%reads_Ok & E).
    apply rtx_bind_Ok in E as ([] & ? & [(_ & Er & Ei)%require_exact_effect_Ok <-]%lift_Ok & E).
    apply rtx_bind_Ok in E as (x & ? & [Hx%load_execution_in_Ok <-]%reads_Ok & E).
    apply rtx_bind_Ok in E as (? & ? & [Hrec%require_Ok <-]%lift_Ok & E). unfold recoverable_pair in Hrec.
    apply rtx_bind_Ok in E as (? & ? & (k' & e' & He' & Hk' & Hi' & Hp & _)%update_effect_Ok & _). bool_to_prop.
    assert (k' = ie_key effect) as ->.
    { eapply (co_unique _ Hok2); [exact He'|exact He1|by rewrite Hk', <- Er|]. rewrite Hi', Ecur. by destruct (ie_key effect) as [[]]. }
    assert (e' = e1) as -> by congruence. exists e1, x. split_and!; try done.
    + rewrite Hi'. done.
    + unfold str_eqb in *. by bool_to_prop.
    + match goal with Hq : recoverable_interrupt_pair _ _ = true |- _ => revert Hq end. rewrite Ecur. by destruct (ie_key effect) as [[]].
Qed.

(** An interrupt may be prepared for a turn that is quarantined, and the pair is then one that
    recovery accepts. The ordinary claim of it leaves a pair that recovery does not accept and that
    cannot be handed back: whatever happens next, short of the end of the turn. *)

(** C40: an interrupt prepared for a quarantined turn and then claimed the ordinary way is a
    pair that recovery does not accept and that cannot be handed back, whatever happens
    next, short of the end of the turn. *)
Theorem quarantined_interrupt_strands (st st1 st2 : RoomStore)
    (effect expected : ProviderTurnInterruptEffect) (owner owner' : str) (now now' : Z) (claim : ProviderTurnEffectClaim)
    (release : option str)
    (Hok : custody_ok st) (Hph : phases st (ie_key effect) = (Some ExecRecoveryRequired, Some EffPrepared))
    (Hclaim : claim_provider_turn_interrupt effect owner now st = Ok (claim, st1))
    (Hhistory : rtc custody_step st1 st2) (Hkey : ie_key expected = ie_key effect) :
  recoverable_interrupt_pair EffPrepared ExecRecoveryRequired = true /\
  is_ok (claim_provider_turn_interrupt_recovery expected owner' now' st2) = false /\
  is_ok (transition_to_recovery_required expected release st2) = false.
Proof.
  split; [done|]. assert (custody_ok st1) as Hok1.
  { destruct (refines_claim _ _ _ _ _ _ Hok Hclaim) as [k Hk]. by eapply refines_ok. }
  set (P := fun a : pair_phases => match a with (Some p, Some e) => stranded_pair p e || negb (phase_is_blocking p) | _ => false end).
  assert (P (phases st2 (ie_key expected)) = true) as HP.
  { rewrite Hkey. eapply custody_stable; [|exact Hok1|exact Hhistory|].
    - intros [[q|] [f|]] [[q'|] [f'|]]; try done; try destruct q; try destruct f; try done; destruct q'; try done; by destruct f'.
    - unfold claim_provider_turn_interrupt in Hclaim.
      apply rtx_bind_Ok in Hclaim as ([] & s1 & Hl & Hr). apply lift_Ok in Hl as [_ <-].
      apply rtx_bind_Ok in Hr as (current & s1 & Hl & Hr). apply reads_Ok in Hl as [Hl <-].
      apply load_effect_in_Ok in Hl as (e & x & He & Hx & ->).
      apply rtx_bind_Ok in Hr as ([] & s1 & Hl & Hr). apply lift_Ok in Hl as [_ <-]. custody_inv.
      match goal with Hk : st_effects _ !! ?k = Some ?e', Hroom : ?k.1.1 = _, Hid : ef_effect_id ?e' = ef_effect_id e |- _ =>
        tryif constr_eq e' e then fail else destruct (loaded_row _ _ _ _ _ Hok He Hk Hroom Hid) as [-> ->] end.
      unfold phases in *. simpl in *. rewrite Hx, He in Hph. rewrite Hx, lookup_insert_eq. simpl in *.
      injection Hph as -> _. done. }
  unfold P, phases in HP. split.
  - destruct (claim_provider_turn_interrupt_recovery _ _ _ st2) as [[a s3]|] eqn:E; [exfalso|done].
    unfold claim_provider_turn_interrupt_recovery in E.
    apply rtx_bind_Ok in E as ([] & s1 & Hl & E). apply lift_Ok in Hl as [_ <-].
    apply rtx_bind_Ok in E as (current & s1 & Hl & E). apply reads_Ok in Hl as [(e & x & He & Hx & ->)%load_effect_in_Ok <-].
    apply rtx_bind_Ok in E as ([] & s1 & Hl & E). apply lift_Ok in Hl as [_ <-].
    apply rtx_bind_Ok in E as (y & s1 & Hl & E). apply reads_Ok in Hl as [Hy%load_execution_in_Ok <-].
    apply rtx_bind_Ok in E as ([] & s1 & Hl & E). apply lift_Ok in Hl as [Hl%require_Ok <-].
    same_rows Hx. unfold recoverable_pair in Hl. bool_to_prop. rewrite Hx, He in HP. simpl in *. phase_cases.
  - destruct (transition_to_recovery_required _ _ st2) as [[a s3]|] eqn:E; [exfalso|done].
    unfold transition_to_recovery_required in E.
    apply rtx_bind_Ok in E as (current & s1 & Hl & E). apply reads_Ok in Hl as [(e & x & He & Hx & ->)%load_effect_in_Ok <-].
    apply rtx_bind_Ok in E as ([] & s1 & Hl & E). apply lift_Ok in Hl as [[Hk _]%require_exact_effect_Ok <-].
    rewrite <- Hk in *.
    apply rtx_bind_Ok in E as (y & s1 & Hl & E). apply reads_Ok in Hl as [Hy%load_execution_in_Ok <-].
    same_rows Hx. rewrite Hx, He in HP. destruct release; simpl in E;
      (apply rtx_bind_Ok in E as ([] & s1 & Hl & E); apply lift_Ok in Hl as [Hl%reject_if_Ok <-]); bool_to_prop; simpl in *;
      phase_cases.
Qed.
End executions.

(** ** Concrete inputs *)

#[local] Existing Instance ascii_uppercase.
#[local] Existing Instance demo_entropy.
#[local] Existing Instance accept_uuid.

Definition demo_envelope : ProviderTurnAssignmentEnvelope :=
  {| ae_delivery_kind := OrderedObservation; ae_provider_input := u "input"; ae_room_view := u "view";
     ae_attachment_ids := []; ae_room_agent_ids := []; ae_tabletop_tools := false |}.
Definition demo_key : execution_key := (u "room", u "agent-1", 1%N).

(** One turn of agent-1, at each stage. *)
Abbreviation demo_insert := (insert_assigned_execution demo_turn (u "turn-1") demo_envelope) (only parsing).
Definition demo_fresh : RoomStore := demo_with "ordered" [demo_turn].
Definition demo_assigned : RoomStore := step [] demo_insert demo_fresh.
Abbreviation demo_start := (authorize_start_in (u "room") (u "agent-1") 1 (u "turn-1")) (only parsing).
Definition no_authority : ProviderTurnStartAuthority := MkStartAuthority [] [] 0 [] [] [] [] [] [].
Definition demo_authority : ProviderTurnStartAuthority := value_of no_authority demo_start demo_assigned.
Definition demo_started : RoomStore := step no_authority demo_start demo_assigned.
Definition demo_end_authority : ProviderTurnAuthority :=
  let a := demo_authority in
  {| ta_room_id := sa_room_id a; ta_session_id := sa_session_id a; ta_turn_id := sa_turn_id a;
     ta_turn_generation := sa_turn_generation a; ta_execution_id := sa_execution_id a;
     ta_start_dispatch_nonce := sa_start_dispatch_nonce a; ta_runtime_handle_id := sa_runtime_handle_id a;
     ta_runtime_owner_id := sa_runtime_owner_id a; ta_runtime_lease_token := sa_runtime_lease_token a;
     ta_provider_turn_id := u "provider-turn"; ta_provider_session_id := None |}.
Abbreviation demo_end := (terminalize_ordinary_execution demo_turn demo_end_authority ExecCompleted) (only parsing).
Definition demo_ended : RoomStore := step tt demo_end demo_started.

Definition no_execution : ProviderTurnExecution :=
  MkProviderTurnExecution [] [] [] ExecFailed [] [] [] [] [] false demo_envelope.
Definition demo_row (st : RoomStore) : ProviderTurnExecution := default no_execution (st_executions st !! demo_key).
Definition no_effect : ProviderTurnInterruptEffect :=
  MkInterruptEffect [] [] 0 [] AgentInterrupt EffPrepared [] [] [] [] [] [] [] [].
Abbreviation demo_prepare st := (prepare_interrupt_effect demo_key (demo_row st) AgentInterrupt) (only parsing).
Definition demo_interrupted : RoomStore := step no_effect (demo_prepare demo_started) demo_started.
Definition demo_effect : ProviderTurnInterruptEffect := value_of no_effect (demo_prepare demo_started) demo_started.
Abbreviation demo_claim := (claim_provider_turn_interrupt demo_effect (u "owner") 1000) (only parsing).
Definition no_claim : ProviderTurnEffectClaim := MkEffectClaim no_effect [].
Definition demo_claimed : RoomStore := step no_claim demo_claim demo_interrupted.
Definition demo_held : ProviderTurnEffectClaim := value_of no_claim demo_claim demo_interrupted.
Abbreviation demo_dispatch := (fence_interrupt_dispatch demo_held 2000) (only parsing).
Definition demo_dispatched : RoomStore := step tt demo_dispatch demo_claimed.

(** The same turn quarantined before it is interrupted. *)
Abbreviation demo_quarantine := (quarantine_started_execution demo_authority) (only parsing).
Definition demo_quarantined : RoomStore := step tt demo_quarantine demo_started.
Definition demo_muted : RoomStore := step no_effect (demo_prepare demo_quarantined) demo_quarantined.
Definition demo_muted_effect : ProviderTurnInterruptEffect := value_of no_effect (demo_prepare demo_quarantined) demo_quarantined.
Abbreviation demo_strand := (claim_provider_turn_interrupt demo_muted_effect (u "owner") 1000) (only parsing).
Definition demo_stranded : RoomStore := step no_claim demo_strand demo_muted.

Example demo_stages :
  map (fun st => phases st demo_key)
    [demo_assigned; demo_started; demo_ended; demo_interrupted; demo_claimed; demo_dispatched; demo_quarantined;
     demo_muted; demo_stranded] =
  [(Some ExecAssigned, None); (Some ExecStartDispatching, None); (Some ExecCompleted, None);
   (Some ExecInterruptPending, Some EffPrepared); (Some ExecInterruptPending, Some EffClaimed);
   (Some ExecInterruptPending, Some EffDispatching); (Some ExecRecoveryRequired, None);
   (Some ExecRecoveryRequired, Some EffPrepared); (Some ExecRecoveryRequired, Some EffClaimed)].
Proof. by vm_compute. Qed.

Lemma demo_assigned_Ok : demo_insert demo_fresh = Ok (value_of [] demo_insert demo_fresh, demo_assigned).
Proof. refine (step_Ok [] (demo_insert) demo_fresh _). by vm_compute. Qed.
Lemma demo_started_Ok : demo_start demo_assigned = Ok (demo_authority, demo_started).
Proof. refine (step_Ok no_authority (demo_start) demo_assigned _). by vm_compute. Qed.
Lemma demo_ended_Ok : demo_end demo_started = Ok (tt, demo_ended).
Proof.
  assert (demo_end demo_started = Ok (value_of tt demo_end demo_started, demo_ended)) as -> by (apply step_Ok; by vm_compute).
  by destruct (value_of _ _ _).
Qed.
Lemma demo_interrupted_Ok : demo_prepare demo_started demo_started = Ok (demo_effect, demo_interrupted).
Proof. refine (step_Ok no_effect (demo_prepare demo_started) demo_started _). by vm_compute. Qed.
Lemma demo_claimed_Ok : demo_claim demo_interrupted = Ok (demo_held, demo_claimed).
Proof. refine (step_Ok no_claim (demo_claim) demo_interrupted _). by vm_compute. Qed.
Lemma demo_dispatched_Ok : demo_dispatch demo_claimed = Ok (tt, demo_dispatched).
Proof. by vm_compute. Qed.
Lemma demo_quarantined_Ok : demo_quarantine demo_started = Ok (value_of tt demo_quarantine demo_started, demo_quarantined).
Proof. refine (step_Ok tt (demo_quarantine) demo_started _). by vm_compute. Qed.
Lemma demo_muted_Ok : demo_prepare demo_quarantined demo_quarantined = Ok (demo_muted_effect, demo_muted).
Proof. refine (step_Ok no_effect (demo_prepare demo_quarantined) demo_quarantined _). by vm_compute. Qed.
Lemma demo_stranded_Ok : demo_strand demo_muted = Ok (value_of no_claim demo_strand demo_muted, demo_stranded).
Proof. refine (step_Ok no_claim (demo_strand) demo_muted _). by vm_compute. Qed.
Lemma demo_row_Some st : negb (bool_decide (st_executions st !! demo_key = None)) = true ->
  st_executions st !! demo_key = Some (demo_row st).
Proof. unfold demo_row. by destruct (st_executions st !! demo_key). Qed.
Lemma demo_row_started : st_executions demo_started !! demo_key = Some (demo_row demo_started).
Proof. apply demo_row_Some. by vm_compute. Qed.
Lemma demo_row_quarantined : st_executions demo_quarantined !! demo_key = Some (demo_row demo_quarantined).
Proof. apply demo_row_Some. by vm_compute. Qed.

Lemma demo_step_assigned : custody_step demo_fresh demo_assigned.
Proof. exact (CsInsert _ _ _ _ _ _ demo_assigned_Ok). Qed.
Lemma demo_step_started : custody_step demo_assigned demo_started.
Proof. exact (CsStart _ _ _ _ _ _ _ demo_started_Ok). Qed.
Lemma demo_assigned_custody : custody_ok demo_assigned.
Proof. eapply custody_step_ok; [|exact demo_step_assigned]. by apply fresh_custody_ok. Qed.
Lemma demo_started_custody : custody_ok demo_started.
Proof. eapply custody_step_ok; [exact demo_assigned_custody|exact demo_step_started]. Qed.
Lemma demo_claimed_custody : custody_ok demo_claimed.
Proof.
  eapply custody_step_ok; [|exact (CsClaim _ _ _ _ _ _ demo_claimed_Ok)].
  eapply custody_step_ok; [exact demo_started_custody|exact (CsPrepare _ _ _ _ _ _ demo_row_started demo_interrupted_Ok)].
Qed.
Lemma demo_ended_custody : custody_ok demo_ended.
Proof. eapply custody_step_ok; [exact demo_started_custody|exact (CsEnd _ _ _ _ _ _ demo_ended_Ok)]. Qed.
Lemma demo_muted_custody : custody_ok demo_muted.
Proof.
  eapply custody_step_ok; [|exact (CsPrepare _ _ _ _ _ _ demo_row_quarantined demo_muted_Ok)].
  eapply custody_step_ok; [exact demo_started_custody|exact (CsQuarantine _ _ _ _ demo_quarantined_Ok)].
Qed.

Lemma demo_muted_phases : phases demo_muted (ie_key demo_muted_effect) = (Some ExecRecoveryRequired, Some EffPrepared).
Proof. by vm_compute. Qed.
Lemma demo_muted_key : ie_key demo_muted_effect = ie_key demo_muted_effect.
Proof. done. Qed.
Lemma demo_end_key : ta_key demo_end_authority = demo_key.
Proof. by vm_compute. Qed.
Lemma demo_ended_phase : (phases demo_ended demo_key).1 = Some ExecCompleted.
Proof. by vm_compute. Qed.

Lemma custody_refines_automaton_witness :
  (forall key, pair_ok (phases demo_assigned key) = true) /\
  exists key, (forall k, k <> key -> phases demo_started k = phases demo_assigned k) /\
    (phases demo_started key = phases demo_assigned key \/
     pair_next (phases demo_assigned key) (phases demo_started key) = true).
Proof.
  exact (custody_refines_automaton demo_fresh demo_assigned demo_started eq_refl eq_refl
    (rtc_once _ _ demo_step_assigned) demo_step_started).
Defined.

Lemma start_authorized_once_witness :
  is_ok (authorize_start_in (u "room") (u "agent-1") 1 (u "turn-1") demo_started) = false.
Proof.
  exact (start_authorized_once demo_assigned demo_started demo_started _ _ _ _ (u "turn-1") _
    demo_assigned_custody demo_started_Ok (rtc_refl _ _)).
Defined.

Lemma interrupted_turn_never_completes_witness : is_ok (demo_end demo_claimed) = false.
Proof.
  exact (interrupted_turn_never_completes demo_started demo_interrupted demo_claimed demo_key _ _ _ _ _ _
    demo_started_custody demo_row_started demo_interrupted_Ok (rtc_once _ _ (CsClaim _ _ _ _ _ _ demo_claimed_Ok))
    demo_end_key).
Defined.

Lemma ended_turn_is_final_witness : phases demo_ended demo_key = phases demo_ended demo_key.
Proof. exact (ended_turn_is_final demo_ended demo_ended demo_key ExecCompleted demo_ended_custody demo_ended_phase eq_refl (rtc_refl _ _)). Defined.

Lemma turn_ends_once_witness : is_ok (demo_end demo_ended) = false.
Proof.
  exact (turn_ends_once demo_started demo_ended demo_ended _ _ _ _ _ _ demo_started_custody demo_ended_Ok (rtc_refl _ _) eq_refl).
Defined.

Lemma interrupt_dispatched_once_witness :
  is_ok (demo_dispatch demo_dispatched) = false /\
  is_ok (claim_provider_turn_interrupt (cl_effect demo_held) (u "owner") 2000 demo_dispatched) = false /\
  is_ok (mark_unstarted_interrupt_waiting demo_held 2000 demo_dispatched) = false /\
  (ie_phase (cl_effect demo_held) = EffPrepared ->
    is_ok (deliver_prepared_interrupt (cl_effect demo_held) stale_effect demo_dispatched) = false) /\
  (is_ok (authorize_provider_interrupt_recovery_wait demo_held 2000 demo_dispatched) = true ->
    exists e x, st_effects demo_dispatched !! ie_key (cl_effect demo_held) = Some e /\
      st_executions demo_dispatched !! ie_key (cl_effect demo_held) = Some x /\
      ef_effect_id e = ie_effect_id (cl_effect demo_held) /\ ef_claim_owner e = cl_owner demo_held /\ claim_live 2000 e = true /\
      recoverable_interrupt_pair (ef_phase e) (pe_phase x) = true).
Proof.
  exact (interrupt_dispatched_once demo_claimed demo_dispatched demo_dispatched demo_held demo_held (u "owner") stale_effect 2000 2000 _
    demo_claimed_custody demo_dispatched_Ok (rtc_refl _ _) eq_refl eq_refl eq_refl).
Defined.

Lemma quarantined_interrupt_strands_witness :
  recoverable_interrupt_pair EffPrepared ExecRecoveryRequired = true /\
  is_ok (claim_provider_turn_interrupt_recovery demo_muted_effect (u "other") 5000 demo_stranded) = false /\
  is_ok (transition_to_recovery_required demo_muted_effect None demo_stranded) = false.
Proof.
  exact (quarantined_interrupt_strands demo_muted demo_stranded demo_stranded demo_muted_effect demo_muted_effect (u "owner")
    (u "other") 1000 5000 _ None demo_muted_custody demo_muted_phases demo_stranded_Ok (rtc_refl _ _) eq_refl).
Defined.
