(* ===== verification/Scheduler.v ===== *)
(** * Who speaks next (agentsassemble-persistence/src/room_turn_scheduler.rs)

    Routing one committed message into the queues of the room's agents, and
    assigning turns to the agents that may begin one. *)

From Stdlib Require Import String.
From stdpp Require Import gmap sorting.
From S2P Require Import Prelude Text Json Model Command Settings Store Turn Routing RoomStore Authority.
From S2P Require Import Requests Execution Observation.

(** [Uuid::simple] without its hyphens, and the first twelve characters of it. *)
Definition short_uuid (uuid : str) : str := take 12 (filter (fun c => c <> 45%N) uuid).

Record AgentTurnAssignment : Type := MkAgentTurnAssignment {
  at_session : DurableAgentSession;
  at_turn_id : str;
  at_turn_generation : N;
  at_execution_id : str;
  at_envelope : ProviderTurnAssignmentEnvelope
}.
Record PreparedAssignment : Type := MkPreparedAssignment {
  pa_assignment : AgentTurnAssignment;
  pa_events : list RoomEvent
}.

Section scheduler.
Context `{UnicodeGeneralCategory, CharCase, UnicodeCase, Entropy, PersonaLibrary, UuidCrate, ChronoRange, AttendeeParent,
  RequestSerde}.

(** ** Routing *)

Definition is_actor (session : DurableAgentSession) (event : RoomEvent) : bool :=
  str_eqb (s_participant_id (d_public session)) (ac_participant_id (ev_actor event))
  || str_eqb (s_session_id (d_public session)) (ac_participant_id (ev_actor event)).

Definition route_session_is_eligible (session : DurableAgentSession) (participant : Participant) : bool :=
  let public := d_public session in
  bool_decide (pt_status participant = Joined)
  && negb (pt_muted participant)
  && s_enabled public
  && bool_decide (s_status public = SessionAttached)
  && contains [RuntimeIdle; RuntimeBusy] (s_runtime_status public)
  && s_provider_session_active public
  && action_is_none (d_lifecycle_intent_action session).

Definition is_routable_message (event : RoomEvent) : tx bool :=
  if str_eqb (ev_event_type event) (u "message_final")
     && negb (bool_decide (ev_extra event !! u "message_source" ≫= as_str = Some (u "room_tool_result")))
     && negb (match ev_message_kind event with
              | Some kind => contains [u "vote_cast"; u "vote_withdraw"; u "vote_close"] kind
              | None => false
              end)
  then message_has_visible_payload event
  else Ok false.

(** Each session of the room with its participant, after its stored turn and
    cursor have been checked. *)
Definition route_sessions (event : RoomEvent) (st : RoomStore) : tx (list (DurableAgentSession * Participant)) :=
  room_sessions ← load_room_sessions (ev_room_id event) st;
  traverse (fun session =>
    turn_authority_is_active session ;;
    validate_provider_cursor session st ;;
    participant ← load_participant (ev_room_id event) (s_participant_id (d_public session)) st;
    mret (session, participant)) room_sessions.

Definition ambient_targets (event : RoomEvent) (sessions : list (DurableAgentSession * Participant)) :
    list (str * RoomInputDeliveryKind) :=
  map (fun e : DurableAgentSession * Participant => (s_session_id (d_public e.1), AmbientObservation))
    (filter (fun e : DurableAgentSession * Participant =>
      is_actor e.1 event = false /\ route_session_is_eligible e.1 e.2 = true) sessions).

(** The counts of agent messages among the last hundred events, by speaker, and
    the last agent that spoke. *)
Definition RECENT_EVENTS : nat := 100.

Definition recent_agent_speakers (room_id : str) (before_seq : Z) (st : RoomStore) : list str :=
  map (fun event => ac_participant_id (ev_actor event))
    (filter (fun event => ev_event_type event = u "message_final" /\
        ac_participant_type (ev_actor event) = u "agent")
      (recent_rows room_id (fun seq _ => seq <? before_seq) RECENT_EVENTS st)).

(** [previous] is the first speaker whose identifier is not empty. *)
Definition previous_speaker (speakers : list str) : str :=
  default [] (head (filter (fun s => s <> []) speakers)).
Definition message_count (speakers : list str) (session_id : str) : nat :=
  length (filter (fun s => s = session_id) speakers).

Definition candidate_le (a b : DurableAgentSession * Participant) : Prop := session_le a.1 b.1.
#[global] Instance candidate_le_dec : RelDecision candidate_le.
Proof. intros a b. unfold candidate_le. apply _. Defined.

(** [Iterator::min_by_key]: the first of the least. *)
Fixpoint min_by_key {A} (key : A -> nat) (l : list A) : option A :=
  match l with
  | [] => None
  | a :: l => match min_by_key key l with
              | Some b => Some (if (key b <? key a)%nat then b else a)
              | None => Some a
              end
  end.

(** The explicit handoff the message carries, to an agent other than its author. *)
Definition structured_target (event : RoomEvent) (sessions : list (DurableAgentSession * Participant)) : option str :=
  target ← ev_extra event !! u "target_agent_id" ≫= as_str;
  if any (fun e : DurableAgentSession * Participant =>
       str_eqb (s_session_id (d_public e.1)) target && negb (is_actor e.1 event)) sessions
  then Some target else None.

Definition direct_target (event : RoomEvent) (sessions : list (DurableAgentSession * Participant)) : option str :=
  match last_direct_target (default [] (ev_content event))
          (map fst (filter (fun e : DurableAgentSession * Participant => is_actor e.1 event = false) sessions)) with
  | Some direct => Some direct
  | None => structured_target event sessions
  end.

(** The agents an unaddressed message may go to: while an agent that is not a
    director speaks, the directors, if there are any. *)
Definition floor_candidates (event : RoomEvent) (sessions : list (DurableAgentSession * Participant)) (st : RoomStore) :
    tx (list (DurableAgentSession * Participant)) :=
  let candidates := filter (fun e : DurableAgentSession * Participant =>
    is_actor e.1 event = false /\ route_session_is_eligible e.1 e.2 = true) sessions in
  if str_eqb (ac_participant_type (ev_actor event)) (u "agent") then
    actor ← load_participant (ev_room_id event) (ac_participant_id (ev_actor event)) st;
    let directors := filter (fun e : DurableAgentSession * Participant => pt_role e.2 = Director) candidates in
    mret (if negb (bool_decide (pt_role actor = Director)) && negb (list_empty directors)
          then directors else candidates)
  else Ok candidates.

Definition ordered_floor_empty (message : string) : PersistenceError := rejected_tx "ordered_floor_empty" message.

Definition sample_speaker (settings : RoomSettings) (event : RoomEvent)
    (candidates : list (DurableAgentSession * Participant)) : rtx str :=
  speakers ← reads (fun st => Ok (recent_agent_speakers (ev_room_id event) (ev_seq event) st));
  let candidates :=
    if rs_ordered_exclude_previous_speaker settings && bool_decide (1 < length candidates)%nat
    then filter (fun e : DurableAgentSession * Participant =>
           s_session_id (d_public e.1) <> previous_speaker speakers) candidates
    else candidates in
  let candidates := merge_sort candidate_le candidates in
  seed ← (if (length candidates <=? 2)%nat then mret 0%N else draw_seed);
  let sampled := omap (fun index => candidates !! index) (sampled_candidate_indexes (length candidates) seed) in
  match min_by_key (fun e : DurableAgentSession * Participant =>
      message_count speakers (s_session_id (d_public e.1))) sampled with
  | Some e => mret (s_session_id (d_public e.1))
  | None => lift (Err (ordered_floor_empty "No ordered floor target remained."))
  end.

Definition ordered_targets (settings : RoomSettings) (event : RoomEvent)
    (sessions : list (DurableAgentSession * Participant)) : rtx (list (str * RoomInputDeliveryKind)) :=
  match direct_target event sessions with
  | Some direct =>
      match List.find (fun e : DurableAgentSession * Participant => str_eqb (s_session_id (d_public e.1)) direct) sessions with
      | None => lift (Err (ordered_floor_empty "The direct floor target is missing."))
      | Some (_, participant) =>
          if bool_decide (pt_status participant = Kicked) || pt_muted participant
          then mret [] else mret [(direct, OrderedObservation)]
      end
  | None =>
      candidates ← reads (floor_candidates event sessions);
      if list_empty candidates then mret []
      else
        selected ← sample_speaker settings event candidates;
        mret [(selected, OrderedObservation)]
  end.

Definition queue_input (event : RoomEvent) (now : instant) (target : str * RoomInputDeliveryKind) : rtx unit :=
  session ← reads (load_session (ev_room_id event) target.1);
  session' ← lift (enqueue (ev_id event) target.2 now session);
  if queues_event session (ev_id event) then mret tt else save_session session'.

Definition route_message (settings : RoomSettings) (event : RoomEvent) (now : instant) : rtx unit :=
  routable ← lift (is_routable_message event);
  if negb routable then mret tt
  else
    sessions ← reads (route_sessions event);
    targets ← (if str_eqb (rs_conversation_mode settings) (u "ordered") then ordered_targets settings event sessions
               else if str_eqb (rs_conversation_mode settings) (u "ambient") then mret (ambient_targets event sessions)
               else lift (Err (rejected_tx "stored_room_settings_invalid" "Stored room conversation mode is invalid.")));
    for_each targets (queue_input event now).

(** ** Removing a deleted message from the queues *)

Definition remove_pending_input_reference (room_id event_id : str) : rtx unit :=
  sessions ← reads (load_room_sessions room_id);
  for_each sessions (fun session =>
    if any (fun input => str_eqb (qi_event_id input) event_id) (d_pending_inputs session)
    then save_session (remove_pending event_id session) else mret tt).

(** ** Assigning turns *)

Fixpoint valid_pending_loop (session : DurableAgentSession) (seen : list str) (previous_seq : Z)
    (inputs : list QueuedRoomInput) (st : RoomStore) : tx (list QueuedRoomInput) :=
  match inputs with
  | [] => Ok []
  | input :: inputs =>
      reject_if (str_empty (qi_event_id input) || contains seen (qi_event_id input))
        (rejected_tx "stored_turn_authority_invalid" "Stored Agent Session turn queue authority is inconsistent.") ;;
      event ← checked_input_event session "Queued room input does not match canonical room turn authority."
        previous_seq input st;
      valid ← valid_pending_loop session (qi_event_id input :: seen) (ev_seq event) inputs st;
      mret (input :: valid)
  end.
Definition valid_pending_inputs (session : DurableAgentSession) (st : RoomStore) : tx (list QueuedRoomInput) :=
  valid_pending_loop session [] (s_last_provider_sync_seq (d_public session)) (d_pending_inputs session) st.

Definition event_sequence (room_id event_id : str) (st : RoomStore) : tx Z :=
  event ← load_event room_id event_id st;
  ev_seq <$> ok_or event (rejected_tx "room_event_missing" "Queued room input is missing.").

Definition tabletop (settings : RoomSettings) : bool := str_eqb (rs_tool_mode settings) (u "tabletop").

Definition prepare_assignment (room : Room) (settings : RoomSettings) (now : instant)
    (session : DurableAgentSession) : rtx PreparedAssignment :=
  prepared ← reads (prepare_room_input room session (d_pending_inputs session) (tabletop settings));
  kind ← lift (ok_or (qi_delivery_kind <$> head (pri_inflight_inputs prepared))
    (queued_room_event_invalid "The ordered-floor assignment has no provider-visible source message."));
  uuid ← draw_uuid;
  let turn_id := u "turn-" ++ short_uuid uuid in
  session ← lift (begin_turn turn_id (pri_inflight_inputs prepared) (pri_source_event_id prepared)
    (pri_input_up_to_seq prepared) now session);
  save_session session ;;
  let envelope := {| ae_delivery_kind := kind; ae_provider_input := pri_provider_input prepared;
    ae_room_view := pri_room_view prepared; ae_attachment_ids := pri_attachment_ids prepared;
    ae_room_agent_ids := pri_room_agent_ids prepared; ae_tabletop_tools := tabletop settings |} in
  execution_id ← insert_assigned_execution session turn_id envelope;
  started ← turn_started_event session now;
  state ← turn_state_event session now;
  session_event ← session_state_event session now;
  mret (MkPreparedAssignment
    (MkAgentTurnAssignment session turn_id (d_turn_generation session) execution_id envelope)
    [started; state; session_event]).

(** What the scan of the sessions finds. *)
Record floor_scan : Type := MkFloorScan {
  fs_any_active : bool;
  fs_candidates : list (Z * DurableAgentSession);
  fs_empty_requests : list DurableAgentSession
}.

Definition scan_session (now : instant) (room_id : str) (st : RoomStore) (scan : floor_scan) (session : DurableAgentSession) :
    tx floor_scan :=
  active ← turn_authority_is_active session;
  let scan := MkFloorScan (fs_any_active scan || active) (fs_candidates scan) (fs_empty_requests scan) in
  if negb (session_is_assignable session) then Ok scan
  else
    available ← is_available session now st;
    if negb available then Ok scan
    else
      participant ← load_participant room_id (s_participant_id (d_public session)) st;
      if negb (bool_decide (pt_status participant = Joined)) || pt_muted participant then Ok scan
      else
        valid ← valid_pending_inputs session st;
        match valid with
        | [] => Ok (if d_schedule_requested session
                    then MkFloorScan (fs_any_active scan) (fs_candidates scan) (fs_empty_requests scan ++ [session])
                    else scan)
        | first :: _ =>
            sequence ← event_sequence room_id (qi_event_id first) st;
            Ok (MkFloorScan (fs_any_active scan) (fs_candidates scan ++ [(sequence, session)]) (fs_empty_requests scan))
        end.

Fixpoint scan_sessions (now : instant) (room_id : str) (st : RoomStore) (scan : floor_scan) (sessions : list DurableAgentSession) :
    tx floor_scan :=
  match sessions with
  | [] => Ok scan
  | session :: sessions => scan ← scan_session now room_id st scan session; scan_sessions now room_id st scan sessions
  end.

(** The oldest message first, then the identifier. *)
Definition candidate_order (a b : Z * DurableAgentSession) : Prop :=
  a.1 < b.1 \/ (a.1 = b.1 /\ session_le a.2 b.2).
#[global] Instance candidate_order_dec : RelDecision candidate_order.
Proof. intros a b. unfold candidate_order. apply _. Defined.

Definition clear_schedule_request (now : instant) (session : DurableAgentSession) : DurableAgentSession :=
  session <| d_schedule_requested := false |>
    <| d_public := (d_public session) <| s_updated_at := now |> |>.

Definition is_ordered (settings : RoomSettings) : bool := str_eqb (rs_conversation_mode settings) (u "ordered").

Definition assign_available_pending (room : Room) (settings : RoomSettings) (now : instant) :
    rtx (list PreparedAssignment) :=
  quiescing ← reads (fun st => Ok (st_quiescing st));
  if quiescing : bool then mret []
  else
    scan ← reads (fun st =>
      sessions ← load_room_sessions (rm_room_id room) st;
      scan_sessions now (rm_room_id room) st (MkFloorScan false [] []) sessions);
    if is_ordered settings && fs_any_active scan then mret []
    else
      for_each (fs_empty_requests scan) (fun session => save_session (clear_schedule_request now session)) ;;
      let candidates := merge_sort candidate_order (fs_candidates scan) in
      let candidates := if is_ordered settings then take 1 candidates else candidates in
      for_map (map snd candidates) (prepare_assignment room settings now).

(** ** What an operation does to the sessions *)

Definition changes (R : DurableAgentSession -> DurableAgentSession -> Prop) (st st' : RoomStore) : Prop :=
  store_ok st' /\ forall k, option_Forall2 R (st_sessions st !! k) (st_sessions st' !! k).

Lemma changes_refl R st : Reflexive R -> store_ok st -> changes R st st.
Proof. intros Hr Hok. split; [done|]. intros k. destruct (st_sessions st !! k); by constructor. Qed.

Lemma changes_trans R a b c : Transitive R -> changes R a b -> changes R b c -> changes R a c.
Proof. intros Ht [_ Hab] [Hc Hbc]. split; [done|]. intros k. by etrans. Qed.

Lemma changes_impl (R R' : DurableAgentSession -> DurableAgentSession -> Prop) st st' :
  (forall s s', R s s' -> R' s s') -> changes R st st' -> changes R' st st'.
Proof. intros Hi [Hok Hc]. split; [done|]. intros k. destruct (Hc k); constructor. by apply Hi. Qed.

Lemma changes_save (R : DurableAgentSession -> DurableAgentSession -> Prop) st s s' :
  Reflexive R -> store_ok st -> st_sessions st !! session_key s' = Some s -> R s s' ->
  changes R st (st <| st_sessions := <[session_key s' := s']> (st_sessions st) |>).
Proof.
  intros Hr Hok Hs HR. split; [by apply store_ok_save|]. intros k. simpl.
  destruct (decide (k = session_key s')) as [->|Hne].
  - rewrite Hs, lookup_insert_eq. by constructor.
  - rewrite lookup_insert_ne by done. destruct (st_sessions st !! k); by constructor.
Qed.

Lemma changes_for_each {A} (R : DurableAgentSession -> DurableAgentSession -> Prop) (f : A -> rtx unit) l st t st' :
  Reflexive R -> Transitive R ->
  (forall a st t st', store_ok st -> f a st = Ok (t, st') -> changes R st st') ->
  store_ok st -> for_each l f st = Ok (t, st') -> changes R st st'.
Proof.
  intros Hr Ht Hf. revert st. induction l as [|a l IH]; intros st Hok Hrun.
  - apply rtx_ret_Ok in Hrun as [_ <-]. by apply changes_refl.
  - simpl in Hrun. apply rtx_bind_Ok in Hrun as (? & st1 & Ha & Hrun). apply Hf in Ha; [|done].
    eapply changes_trans; [done|exact Ha|]. apply IH; [apply Ha|done].
Qed.

(** *** Routing appends the message to queues *)

Definition enqueued (event_id : str) (s s' : DurableAgentSession) : Prop :=
  s' = s \/ exists kind now, queues_event s event_id = false /\ enqueue event_id kind now s = Ok s'.

Lemma enqueue_queues e kind now s s' : enqueue e kind now s = Ok s' -> queues_event s' e = true.
Proof.
  unfold enqueue. destruct (queues_event s e) eqn:E; [by intros [= <-]|]. case_match; [done|]. intros [= <-].
  apply not_false_is_true. intros Hq%queues_event_false. apply Hq. simpl. unfold input_ids.
  rewrite !map_app. apply elem_of_app. right. apply elem_of_app. right. simpl. by apply list_elem_of_singleton.
Qed.

#[local] Instance enqueued_refl e : Reflexive (enqueued e).
Proof. intros s. by left. Qed.
#[local] Instance enqueued_trans e : Transitive (enqueued e).
Proof.
  intros a b c [->|(kind & now & Hq & Hab)] Hbc; [done|]. destruct Hbc as [->|(kind' & now' & Hq' & _)].
  - right. by exists kind, now.
  - apply enqueue_queues in Hab. congruence.
Qed.

Lemma enqueue_key e kind now s s' : enqueue e kind now s = Ok s' -> session_key s' = session_key s.
Proof. unfold enqueue. case_match; [by intros [= <-]|]. case_match; [done|]. by intros [= <-]. Qed.

Lemma queue_input_changes event now target st t st' :
  store_ok st -> queue_input event now target st = Ok (t, st') -> changes (enqueued (ev_id event)) st st'.
Proof.
  intros Hok Hrun. unfold queue_input in Hrun. apply rtx_bind_Ok in Hrun as (s & st1 & Hs & Hrun).
  apply reads_Ok in Hs as [[Hs Hkey]%load_session_Ok <-]. apply rtx_bind_Ok in Hrun as (s' & st1 & He & Hrun).
  apply lift_Ok in He as [He <-]. destruct (queues_event s (ev_id event)) eqn:Hq.
  { apply rtx_ret_Ok in Hrun as [_ <-]. apply changes_refl; [apply _|done]. }
  apply save_session_Ok in Hrun as [_ ->]. apply enqueue_key in He as Hk'. eapply changes_save; [apply _|done| |].
  - by rewrite Hk', Hkey.
  - right. by exists target.2, now.
Qed.

Lemma changes_drawn R st n : Reflexive R -> store_ok st -> changes R st (st <| st_drawn := n |>).
Proof.
  intros Hr Hok. split; [by apply store_ok_drawn|]. intros k. simpl. destruct (st_sessions st !! k); by constructor.
Qed.

Lemma sample_speaker_drawn settings event candidates st target st' :
  sample_speaker settings event candidates st = Ok (target, st') -> exists n, st' = st <| st_drawn := n |>.
Proof.
  unfold sample_speaker. intros Hrun. apply rtx_bind_Ok in Hrun as (sp & st1 & Hs & Hrun).
  apply reads_Ok in Hs as [_ <-]. apply rtx_bind_Ok in Hrun as (seed & st1 & Hs & Hrun).
  assert (exists n, st1 = st <| st_drawn := n |>) as [n ->].
  { revert Hs. destruct (_ <=? _)%nat; intros Hs.
    - exists (st_drawn st). apply rtx_ret_Ok in Hs as [_ <-]. by destruct st.
    - exists (S (st_drawn st)). by injection Hs as _ <-. }
  exists n. destruct (min_by_key _ _); [by apply rtx_ret_Ok in Hrun as [_ <-]|by apply lift_Ok in Hrun as [? _]].
Qed.

(** In ordered conversation a message is queued for at most one agent. *)
Lemma ordered_targets_Ok settings event sessions st targets st' :
  ordered_targets settings event sessions st = Ok (targets, st') ->
  (length targets <= 1)%nat /\ exists n, st' = st <| st_drawn := n |>.
Proof.
  assert (exists n, st = st <| st_drawn := n |>) as Hst by (exists (st_drawn st); by destruct st).
  unfold ordered_targets. intros Hrun. destruct (direct_target event sessions).
  - destruct (List.find _ _) as [[? ?]|]; [|by apply lift_Ok in Hrun as [? _]].
    case_match; apply rtx_ret_Ok in Hrun as [<- <-]; (split; [simpl; lia|done]).
  - apply rtx_bind_Ok in Hrun as (cs & st1 & Hc & Hrun). apply reads_Ok in Hc as [_ <-]. case_match.
    + apply rtx_ret_Ok in Hrun as [<- <-]. split; [simpl; lia|done].
    + apply rtx_bind_Ok in Hrun as (target & st1 & Hs & Hrun). apply rtx_ret_Ok in Hrun as [<- <-].
      split; [simpl; lia|]. by eapply sample_speaker_drawn.
Qed.

Lemma route_targets_drawn settings event sessions st targets st' :
  (if str_eqb (rs_conversation_mode settings) (u "ordered") then ordered_targets settings event sessions
   else if str_eqb (rs_conversation_mode settings) (u "ambient") then mret (ambient_targets event sessions)
   else lift (Err (rejected_tx "stored_room_settings_invalid" "Stored room conversation mode is invalid."))) st
    = Ok (targets, st') -> exists n, st' = st <| st_drawn := n |>.
Proof.
  case_match; [intros Hrun; by apply ordered_targets_Ok in Hrun as [_ ?]|]. case_match.
  - intros [_ <-]%rtx_ret_Ok. exists (st_drawn st). by destruct st.
  - by intros [? _]%lift_Ok.
Qed.

Lemma route_message_changes settings event now st t st' :
  store_ok st -> route_message settings event now st = Ok (t, st') -> changes (enqueued (ev_id event)) st st'.
Proof.
  intros Hok Hrun. unfold route_message in Hrun. apply rtx_bind_Ok in Hrun as (r & st1 & Hr & Hrun).
  apply lift_Ok in Hr as [_ <-]. case_match.
  { apply rtx_ret_Ok in Hrun as [_ <-]. apply changes_refl; [apply _|done]. }
  apply rtx_bind_Ok in Hrun as (sessions & st1 & Hr & Hrun). apply reads_Ok in Hr as [_ <-].
  apply rtx_bind_Ok in Hrun as (targets & st1 & Hr & Hrun). apply route_targets_drawn in Hr as [n ->].
  eapply changes_trans; [apply _|apply (changes_drawn _ _ n); [apply _|done]|].
  eapply changes_for_each; [apply _|apply _| |by apply store_ok_drawn|exact Hrun].
  intros. by eapply queue_input_changes.
Qed.

(** *** Deleting a message *)

(** Saving each of a list of stored rows once, changed by [f] where [p] holds. *)
Lemma save_loop_Ok (p : DurableAgentSession -> bool) (f : DurableAgentSession -> DurableAgentSession) l st t st' :
  (forall s, session_key (f s) = session_key s) ->
  store_ok st -> NoDup l -> (forall s, s ∈ l -> st_sessions st !! session_key s = Some s) ->
  for_each l (fun session => if p session then save_session (f session) else mret tt) st = Ok (t, st') ->
  store_ok st' /\ forall k, st_sessions st' !! k =
    (fun s => if bool_decide (k ∈ map session_key l) && p s then f s else s) <$> st_sessions st !! k.
Proof.
  intros Hf. revert st. induction l as [|s l IH]; intros st Hok Hn Hl Hrun.
  { apply rtx_ret_Ok in Hrun as [_ <-]. split; [done|]. intros k. symmetry. by destruct (st_sessions st !! k). }
  simpl in Hrun. apply rtx_bind_Ok in Hrun as (? & st1 & Hs & Hrun). apply NoDup_cons in Hn as [Hsl Hn].
  assert (st_sessions st !! session_key s = Some s) as Hss by (apply Hl, elem_of_cons; by left).
  assert (store_ok st1 /\ st_sessions st1 = <[session_key s := if p s then f s else s]> (st_sessions st)) as [Hok1 Hst1].
  { revert Hs. destruct (p s); intros Hs.
    - apply save_session_Ok in Hs as [_ ->]. split; [by apply store_ok_save|]. simpl. by rewrite Hf.
    - apply rtx_ret_Ok in Hs as [_ <-]. split; [done|]. by rewrite insert_id. }
  assert (session_key s ∉ map session_key l) as Hne.
  { intros (s' & Hkey & Hs')%list_elem_of_fmap. assert (st_sessions st !! session_key s' = Some s') as Hss'
      by (apply Hl, elem_of_cons; by right). rewrite <- Hkey in Hss'. congruence. }
  destruct (IH st1 Hok1 Hn) as [Hok' Hst']; [|exact Hrun|].
  { intros s' Hs'. rewrite Hst1, lookup_insert_ne; [apply Hl, elem_of_cons; by right|].
    intros Hk. apply Hne. rewrite Hk. by apply list_elem_of_fmap_2. }
  split; [done|]. intros k. rewrite Hst', Hst1. simpl. destruct (decide (k = session_key s)) as [->|Hk].
  - rewrite lookup_insert_eq, Hss. simpl. f_equal. rewrite bool_decide_false by done. simpl.
    by rewrite bool_decide_true by (apply elem_of_cons; by left).
  - rewrite lookup_insert_ne by done. destruct (st_sessions st !! k) as [s'|]; simpl; [|done]. f_equal.
    assert (bool_decide (k ∈ map session_key l) = bool_decide (k ∈ session_key s :: map session_key l)) as ->; [|done].
    apply bool_decide_ext. rewrite elem_of_cons. split; [by right|]. by intros [->|].
Qed.

Lemma rows_stored room_id st s :
  store_ok st -> s ∈ room_rows room_id st -> st_sessions st !! session_key s = Some s.
Proof. intros Hok [sid Hs]%elem_of_room_rows. by rewrite (so_keyed _ Hok _ _ Hs). Qed.

Lemma remove_pending_input_reference_changes room_id event_id st t st' :
  store_ok st -> remove_pending_input_reference room_id event_id st = Ok (t, st') ->
  changes (fun s s' => s' = s \/ (s_room_id (d_public s) = room_id /\ s' = remove_pending event_id s)) st st'.
Proof.
  intros Hok Hrun. unfold remove_pending_input_reference in Hrun.
  apply rtx_bind_Ok in Hrun as (sessions & st1 & Hr & Hrun). apply reads_Ok in Hr as [->%load_room_sessions_Ok <-].
  eapply save_loop_Ok in Hrun as [Hok' Hst']; [|done|done|by apply room_rows_NoDup|intros s; by apply rows_stored].
  split; [done|]. intros k. rewrite Hst'. destruct (st_sessions st !! k) as [s|] eqn:Hs; constructor.
  case_match eqn:E; [right|by left]. split; [|done]. apply andb_true_iff in E as [(s1 & -> & Hin)%bool_decide_eq_true%list_elem_of_fmap _].
  rewrite (rows_stored _ _ _ Hok Hin) in Hs. injection Hs as <-. apply elem_of_room_rows in Hin as [sid Hin].
  pose proof (so_keyed _ Hok _ _ Hin) as Hk. by injection Hk.
Qed.

(** *** Assigning *)

Lemma begin_turn_key turn_id inflight source seq now s s' :
  begin_turn turn_id inflight source seq now s = Ok s' -> session_key s' = session_key s.
Proof. unfold begin_turn. intros Hb. by res_inv. Qed.

Lemma begin_turn_fields turn_id inflight source seq now s s' :
  begin_turn turn_id inflight source seq now s = Ok s' ->
  s_active_turn_id (d_public s') = turn_id /\ d_turn_generation s' = (d_turn_generation s + 1)%N.
Proof. unfold begin_turn. intros Hb. by res_inv. Qed.

(** What an assignment is: a turn begun on a prefix of the queue, its session saved, and an
    execution row written for it under the new generation. *)
Record assigned (session session' : DurableAgentSession) (p : PreparedAssignment) (st st' : RoomStore) : Prop :=
  MkAssigned {
    as_session : at_session (pa_assignment p) = session';
    as_key : session_key session' = session_key session;
    as_running : turn_running session';
    as_turn : at_turn_id (pa_assignment p) = s_active_turn_id (d_public session');
    as_generation : d_turn_generation session' = (d_turn_generation session + 1)%N;
    as_sessions : st_sessions st' = <[session_key session := session']> (st_sessions st);
    as_execution : exists row, pe_execution_id row = at_execution_id (pa_assignment p) /\
      pe_turn_id row = at_turn_id (pa_assignment p) /\ pe_phase row = ExecAssigned /\
      st_executions st' = <[(s_room_id (d_public session'), s_session_id (d_public session'),
        d_turn_generation session') := row]> (st_executions st);
    as_ok : store_ok st';
    as_intent : intent_of session' = intent_of session;
    as_begins : forall enq ack del,
      turn_step (MkTurnMachine session enq ack del) (MkTurnMachine session' enq ack del)
  }.

Lemma prepare_assignment_Ok room settings now session st p st' :
  prepare_assignment room settings now session st = Ok (p, st') -> store_ok st ->
  session_is_assignable session = true -> turn_authority_is_active session = Ok false ->
  exists session', assigned session session' p st st'.
Proof.
  intros Hrun Hok Ha Hauth. unfold prepare_assignment in Hrun.
  apply rtx_bind_Ok in Hrun as (prepared & st1 & Hp & Hrun). apply reads_Ok in Hp as [Hp <-].
  apply prepare_room_input_Ok in Hp as (n & Hin & Hlast & _ & Hpos).
  apply rtx_bind_Ok in Hrun as (kind & st1 & Hk & Hrun). apply lift_Ok in Hk as [_ <-].
  apply rtx_bind_Ok in Hrun as (uuid & st1 & Hu & Hrun). apply draw_uuid_appends in Hu.
  cbv zeta in Hrun. remember (u "turn-" ++ short_uuid uuid) as turn_id eqn:Eturn.
  assert (turn_id <> []) as Hturn.
  { intros Hnil. rewrite Eturn in Hnil. apply app_eq_nil in Hnil as [Hnil _]. discriminate Hnil. }
  apply rtx_bind_Ok in Hrun as (session' & st2 & Hb & Hrun). apply lift_Ok in Hb as [Hb <-].
  rewrite Hin in Hb. apply rtx_bind_Ok in Hrun as (? & st2 & Hs & Hrun). apply save_session_Ok in Hs as [_ Hs].
  apply rtx_bind_Ok in Hrun as (id & st3 & Hx & Hrun).
  apply insert_assigned_execution_Ok in Hx as (_ & Hx1 & Hx2 & row & Hrow & Hturnrow & Hphase & _ & Hexec).
  apply rtx_bind_Ok in Hrun as (e1 & st4 & He1%turn_started_event_appends & Hrun).
  apply rtx_bind_Ok in Hrun as (e2 & st5 & He2%turn_state_event_appends & Hrun).
  apply rtx_bind_Ok in Hrun as (e3 & st6 & He3%session_state_event_appends & Hrun).
  apply rtx_ret_Ok in Hrun as [<- <-]. exists session'.
  assert (appends st3 st6) as He by (etrans; [exact He1|]; by etrans). clear He1 He2 He3.
  specialize (Hpos Hok). apply begin_turn_key in Hb as Hkey.
  destruct (begin_turn_fields _ _ _ _ _ _ _ Hb) as [Ht Hg].
  destruct (begin_turn_Ok _ _ _ _ _ _ _ Hb Hturn Hpos Hlast) as (_ & _ & Hrunning).
  split; simpl; try done.
  - by rewrite (ap_sessions _ _ He), Hx1, Hs, Hkey, <- (ap_sessions _ _ Hu).
  - exists row. split_and!; [done|done|done|]. rewrite (ap_executions _ _ He), Hexec, Hs.
    simpl. by rewrite (ap_executions _ _ Hu).
  - apply (ap_ok _ _ He), Hx2. rewrite Hs. apply store_ok_save. by apply (ap_ok _ _ Hu).
  - unfold begin_turn in Hb. by res_inv.
  - intros enq ack del. by eapply TurnBegin.
Qed.

(** *** The scan of the sessions *)

Definition is_running (session : DurableAgentSession) : bool :=
  match turn_authority_is_active session with Ok active => active | Err _ => false end.

Definition available_now (now : instant) (st : RoomStore) (session : DurableAgentSession) : bool :=
  match is_available session now st with Ok available => available | Err _ => false end.

(** An agent that may begin a turn as soon as a message waits for it. *)
Definition may_begin (now : instant) (room_id : str) (st : RoomStore) (session : DurableAgentSession) : bool :=
  session_is_assignable session && available_now now st session
  && match st_participants st !! (room_id, s_participant_id (d_public session)) with
     | Some participant => bool_decide (pt_status participant = Joined) && negb (pt_muted participant)
     | None => false
     end.
Definition is_waiting (now : instant) (room_id : str) (st : RoomStore) (session : DurableAgentSession) : bool :=
  may_begin now room_id st session && negb (list_empty (d_pending_inputs session)).
Definition requests_nothing (now : instant) (room_id : str) (st : RoomStore) (session : DurableAgentSession) : bool :=
  may_begin now room_id st session && list_empty (d_pending_inputs session) && d_schedule_requested session.

Lemma assignable_not_running session active :
  session_is_assignable session = true -> turn_authority_is_active session = Ok active -> active = false.
Proof.
  unfold session_is_assignable, turn_authority_is_active. intros Ha Hauth. bool_to_prop.
  destruct (active_turn_authority session) as [[]|] eqn:E; [|by injection Hauth as <-|done].
  apply authority_true_iff in E as [_ [Ht _ _ _ _ _]].
  match goal with Hs : str_empty _ = true |- _ => by apply str_empty_iff in Hs end.
Qed.

Lemma valid_pending_loop_Ok session seen seq inputs st valid :
  valid_pending_loop session seen seq inputs st = Ok valid -> valid = inputs.
Proof.
  revert seen seq valid. induction inputs as [|i inputs IH]; intros seen seq valid Hv; simpl in Hv.
  { by injection Hv. }
  apply bind_Ok in Hv as (? & _ & Hv). apply bind_Ok in Hv as (? & _ & Hv).
  apply bind_Ok in Hv as (rest & Hr & [= <-]). by apply IH in Hr as ->.
Qed.

(** The first message of a session's queue and its place in the room. *)
Definition waits_since (room_id : str) (st : RoomStore) (session : DurableAgentSession) (seq : Z) : Prop :=
  exists first, head (d_pending_inputs session) = Some first /\ event_sequence room_id (qi_event_id first) st = Ok seq.

Lemma scan_session_Ok now room_id st scan session scan' :
  scan_session now room_id st scan session = Ok scan' ->
  fs_any_active scan' = fs_any_active scan || is_running session /\
  (session_is_assignable session = true -> turn_authority_is_active session = Ok false) /\
  fs_empty_requests scan' = fs_empty_requests scan ++ (if requests_nothing now room_id st session then [session] else []) /\
  exists cs, fs_candidates scan' = fs_candidates scan ++ cs /\
    map snd cs = (if is_waiting now room_id st session then [session] else []) /\
    Forall (fun c => waits_since room_id st c.2 c.1) cs.
Proof.
  unfold scan_session, is_running. intros Hs. apply bind_Ok in Hs as (active & Hauth & Hs). cbv zeta in Hs. rewrite Hauth.
  assert (session_is_assignable session = true -> active = false) as Ha by (intros; by eapply assignable_not_running).
  unfold requests_nothing, is_waiting, may_begin.
  destruct (session_is_assignable session); simpl in *.
  2:{ injection Hs as <-. simpl. rewrite app_nil_r. split_and!; try done. exists []. by rewrite app_nil_r. }
  rewrite (Ha eq_refl) in *. apply bind_Ok in Hs as (available & Hav & Hs). unfold available_now. rewrite Hav.
  destruct available; simpl in *.
  2:{ injection Hs as <-. simpl. rewrite app_nil_r. split_and!; try done. exists []. by rewrite app_nil_r. }
  apply bind_Ok in Hs as (participant & Hp & Hs). unfold load_participant in Hp. apply ok_or_Ok in Hp. rewrite Hp.
  destruct (bool_decide (pt_status participant = Joined)); simpl in *.
  2:{ injection Hs as <-. simpl. rewrite app_nil_r. split_and!; try done. exists []. by rewrite app_nil_r. }
  destruct (pt_muted participant); simpl in *.
  { injection Hs as <-. simpl. rewrite app_nil_r. split_and!; try done. exists []. by rewrite app_nil_r. }
  apply bind_Ok in Hs as (valid & Hv%valid_pending_loop_Ok & Hs). subst valid.
  destruct (d_pending_inputs session) as [|first rest] eqn:Ep; simpl.
  - destruct (d_schedule_requested session); injection Hs as <-; simpl; rewrite ?app_nil_r;
      (split_and!; try done; exists []; by rewrite app_nil_r).
  - apply bind_Ok in Hs as (seq & Hq & [= <-]). simpl. rewrite app_nil_r. split_and!; try done.
    exists [(seq, session)]. split_and!; try done. constructor; [|constructor]. exists first; simpl; by rewrite Ep.
Qed.

Lemma scan_sessions_Ok now room_id st scan sessions scan' :
  scan_sessions now room_id st scan sessions = Ok scan' ->
  fs_any_active scan' = fs_any_active scan || any is_running sessions /\
  Forall (fun s => session_is_assignable s = true -> turn_authority_is_active s = Ok false) sessions /\
  fs_empty_requests scan' = fs_empty_requests scan ++ filter (fun s => requests_nothing now room_id st s = true) sessions /\
  exists cs, fs_candidates scan' = fs_candidates scan ++ cs /\
    map snd cs = filter (fun s => is_waiting now room_id st s = true) sessions /\
    Forall (fun c => waits_since room_id st c.2 c.1) cs.
Proof.
  revert scan. induction sessions as [|s l IH]; intros scan Hs; simpl in Hs.
  { injection Hs as <-. simpl. rewrite orb_false_r, app_nil_r. split_and!; try done. exists [].
    by rewrite app_nil_r. }
  apply bind_Ok in Hs as (scan1 & (Ha & Hauth & He & cs & Hc & Hw & Hs1)%scan_session_Ok & Hs).
  apply IH in Hs as (Ha' & Hauth' & He' & cs' & Hc' & Hw' & Hs'). split_and!.
  - rewrite Ha', Ha. simpl. by rewrite orb_assoc.
  - by constructor.
  - rewrite He', He, <- app_assoc, filter_cons. f_equal.
    destruct (requests_nothing now room_id st s); [by rewrite decide_True|by rewrite decide_False].
  - exists (cs ++ cs'). rewrite Hc', Hc, <- app_assoc, map_app, Hw, Hw', filter_cons. split_and!; [done| |by apply Forall_app].
    destruct (is_waiting now room_id st s); [by rewrite decide_True|by rewrite decide_False].
Qed.

(** *** The turns an assignment begins *)

Record begun (s s' : DurableAgentSession) : Prop := MkBegun {
  bg_key : session_key s' = session_key s;
  bg_running : turn_running s';
  bg_active : is_running s' = true;
  bg_intent : intent_of s' = intent_of s;
  bg_step : forall enq ack del, turn_step (MkTurnMachine s enq ack del) (MkTurnMachine s' enq ack del)
}.

(** A turn begins from a consistent tuple and leaves a running one. *)
Lemma begins_active s s' :
  turn_authority_is_active s = Ok false -> turn_running s' ->
  (forall enq ack del, turn_step (MkTurnMachine s enq ack del) (MkTurnMachine s' enq ack del)) ->
  is_running s' = true.
Proof.
  unfold is_running, turn_authority_is_active. intros Hauth Hr Hstep.
  assert (machine_ok (MkTurnMachine s' (input_ids (d_inflight_inputs s ++ d_pending_inputs s)) [] [])) as [Ha _ _ _].
  { eapply machine_step; [apply Hstep|]. destruct (active_turn_authority s) as [[]|] eqn:E; try done.
    assert (is_ok (active_turn_authority s) = true) as Ha by (by rewrite E). split; simpl.
    - done.
    - unfold input_ids. rewrite map_app. symmetry. apply filter_all, Forall_forall. intros ? _. apply not_elem_of_nil.
    - by apply (qo_nodup _ (authority_queue _ Ha)).
    - intros ? []%elem_of_nil. }
  simpl in Ha. apply authority_cases in Ha as [[Hq _]|[_ Hc]].
  - assert (active_turn_authority s' = Ok true) as -> by (by apply authority_true_iff). done.
  - destruct Hr as [Ht _ _ _ _ _], Hc as [Hc _ _ _ _ _ _]. congruence.
Qed.

Definition can_begin (s : DurableAgentSession) : Prop :=
  session_is_assignable s = true /\ turn_authority_is_active s = Ok false.

Lemma assignments_Ok room settings now chosen st prepared st' :
  for_map chosen (prepare_assignment room settings now) st = Ok (prepared, st') ->
  store_ok st -> NoDup (map session_key chosen) -> Forall can_begin chosen ->
  store_ok st' /\
  Forall2 (fun s p => begun s (at_session (pa_assignment p))) chosen prepared /\
  (forall k, k ∉ map session_key chosen -> st_sessions st' !! k = st_sessions st !! k) /\
  Forall (fun p => st_sessions st' !! session_key (at_session (pa_assignment p)) = Some (at_session (pa_assignment p)))
    prepared.
Proof.
  revert st prepared. induction chosen as [|s chosen IH]; intros st prepared Hrun Hok Hn Hc.
  { apply rtx_ret_Ok in Hrun as [<- <-]. by split_and!. }
  simpl in Hrun, Hn. apply rtx_bind_Ok in Hrun as (p & st1 & Hp & Hrun).
  apply rtx_bind_Ok in Hrun as (ps & st2 & Hps & Hrun). apply rtx_ret_Ok in Hrun as [<- <-].
  apply Forall_cons in Hc as [[Ha Hauth] Hc]. apply NoDup_cons in Hn as [Hs Hn].
  apply prepare_assignment_Ok in Hp as (s' & [Heq Hkey Hr _ _ Hst _ Hok1 Hint Hstep]); [|done|done|done]. subst s'.
  destruct (IH _ _ Hps Hok1 Hn Hc) as (Hok2 & Hbegun & Hframe & Hall). split_and!.
  - done.
  - constructor; [|done]. split; try done. eapply begins_active; [exact Hauth|exact Hr|exact Hstep].
  - intros k Hk. simpl in Hk. apply not_elem_of_cons in Hk as [Hk1 Hk2]. rewrite Hframe, Hst by done.
    by apply lookup_insert_ne.
  - constructor; [|done]. rewrite Hkey, Hframe, Hst by done. apply lookup_insert_eq.
Qed.

Definition chosen_of (settings : RoomSettings) (candidates : list (Z * DurableAgentSession)) : list DurableAgentSession :=
  map snd (if is_ordered settings then take 1 (merge_sort candidate_order candidates)
           else merge_sort candidate_order candidates).

Lemma chosen_of_subset settings candidates s : s ∈ chosen_of settings candidates -> s ∈ map snd candidates.
Proof.
  unfold chosen_of. intros (c & -> & Hc)%list_elem_of_fmap. apply list_elem_of_fmap_2.
  rewrite <- (merge_sort_Permutation candidate_order candidates). destruct (is_ordered settings); [|done].
  eapply elem_of_sublist; [exact Hc|apply sublist_take].
Qed.

Lemma chosen_of_NoDup {B} (f : DurableAgentSession -> B) settings candidates :
  NoDup (map f (map snd candidates)) -> NoDup (map f (chosen_of settings candidates)).
Proof.
  unfold chosen_of. intros Hn. destruct (is_ordered settings).
  - eapply sublist_NoDup; [|apply fmap_sublist, fmap_sublist, sublist_take].
    by rewrite (merge_sort_Permutation candidate_order candidates).
  - by rewrite (merge_sort_Permutation candidate_order candidates).
Qed.


Lemma rows_keys_NoDup (P : DurableAgentSession -> Prop) `{forall s, Decision (P s)} room_id st :
  store_ok st -> NoDup (map session_key (filter P (room_rows room_id st))).
Proof.
  intros Hok. apply NoDup_fmap_2_strong; [|by apply NoDup_filter, room_rows_NoDup].
  intros a b [_ Ha]%list_elem_of_filter [_ Hb]%list_elem_of_filter Heq.
  apply rows_stored in Ha, Hb; [|done..]. congruence.
Qed.

Lemma is_waiting_not_empty now room_id st s :
  is_waiting now room_id st s = true -> requests_nothing now room_id st s = false.
Proof.
  unfold is_waiting, requests_nothing. intros Hw. bool_to_prop.
  match goal with Hl : list_empty _ = false |- _ => rewrite Hl end. by rewrite andb_false_r.
Qed.

(** The sessions of a call: none is touched, or the waiting ones that are chosen begin a turn and
    those that asked to be scheduled for nothing drop the request. *)
Record assignment_round (room_id : str) (settings : RoomSettings) (now : instant)
    (prepared : list PreparedAssignment) (st st' : RoomStore) (cs : list (Z * DurableAgentSession)) : Prop :=
  MkRound {
    rd_open : st_quiescing st = false;
    rd_floor : is_ordered settings = true -> any is_running (room_rows room_id st) = false;
    rd_waiting : map snd cs = filter (fun s => is_waiting now room_id st s = true) (room_rows room_id st);
    rd_since : Forall (fun c => waits_since room_id st c.2 c.1) cs;
    rd_ok : store_ok st';
    rd_begun : Forall2 (fun s p => begun s (at_session (pa_assignment p))) (chosen_of settings cs) prepared;
    rd_frame : forall k, k ∉ map session_key (chosen_of settings cs) -> st_sessions st' !! k =
      (fun s => if requests_nothing now room_id st s && bool_decide (k.1 = room_id) then clear_schedule_request now s else s)
        <$> st_sessions st !! k;
    rd_stored : Forall (fun p =>
      st_sessions st' !! session_key (at_session (pa_assignment p)) = Some (at_session (pa_assignment p))) prepared
  }.

Lemma assign_available_pending_Ok room settings now st prepared st' :
  assign_available_pending room settings now st = Ok (prepared, st') -> store_ok st ->
  (prepared = [] /\ st' = st /\
    (st_quiescing st = true \/ is_ordered settings = true /\ any is_running (room_rows (rm_room_id room) st) = true)) \/
  exists cs, assignment_round (rm_room_id room) settings now prepared st st' cs.
Proof.
  intros Hrun Hok. unfold assign_available_pending in Hrun.
  apply rtx_bind_Ok in Hrun as (q & st1 & Hq & Hrun). apply reads_Ok in Hq as [[= Hq] <-].
  destruct q; [apply rtx_ret_Ok in Hrun as [<- <-]; by left; split_and!; [..|left]|].
  apply rtx_bind_Ok in Hrun as (scan & st1 & Hs & Hrun). apply reads_Ok in Hs as [Hs <-].
  apply bind_Ok in Hs as (rows & ->%load_room_sessions_Ok & Hs).
  apply scan_sessions_Ok in Hs as (Hany & Hauth & Hempty & cs & Hcs & Hw & Hsince). simpl in *.
  rewrite Hany in Hrun. destruct (is_ordered settings && _) eqn:E.
  { apply rtx_ret_Ok in Hrun as [<- <-]. left. bool_to_prop. by split_and!; [..|right]. }
  right. exists cs. apply rtx_bind_Ok in Hrun as (t & st1 & He & Hrun). rewrite Hempty in He.
  apply (save_loop_Ok (fun _ => true) (clear_schedule_request now)) in He as [Hok1 Hst1]; [|done|done|..].
  2:{ by apply NoDup_filter, room_rows_NoDup. }
  2:{ intros s [_ Hin]%list_elem_of_filter. by eapply rows_stored. }
  rewrite Hcs in Hrun.
  assert (for_map (chosen_of settings cs) (prepare_assignment room settings now) st1 = Ok (prepared, st')) as Hfor.
  { unfold chosen_of. destruct (is_ordered settings); exact Hrun. }
  apply assignments_Ok in Hfor as (Hok2 & Hbegun & Hframe & Hstored); [|done|..].
  - split; try done.
    + intros Ho. by rewrite Ho in E.
    + intros k Hk. rewrite Hframe, Hst1 by done. destruct (st_sessions st !! k) as [s|] eqn:Hs; simpl; [|done]. f_equal.
      rewrite andb_true_r. assert (bool_decide (k ∈ map session_key
        (filter (fun s => requests_nothing now (rm_room_id room) st s = true) (room_rows (rm_room_id room) st)))
        = requests_nothing now (rm_room_id room) st s && bool_decide (k.1 = rm_room_id room)) as ->; [|done].
      apply eq_bool_prop_intro. rewrite bool_decide_spec, andb_True, bool_decide_spec, list_elem_of_fmap. split.
      * intros (s' & -> & [Hr Hin]%list_elem_of_filter). rewrite (rows_stored _ _ _ Hok Hin) in Hs. injection Hs as <-.
        split; [by rewrite Hr|]. apply elem_of_room_rows in Hin as [sid Hin]. by rewrite (so_keyed _ Hok _ _ Hin).
      * intros [Hr Hroom]. exists s. split; [by rewrite (so_keyed _ Hok _ _ Hs)|]. apply list_elem_of_filter.
        split; [by apply Is_true_true|]. apply elem_of_room_rows. destruct k as [r sid]. simpl in *. subst. by exists sid.
  - apply chosen_of_NoDup. rewrite Hw. by apply rows_keys_NoDup.
  - apply Forall_forall. intros s Hin%chosen_of_subset. rewrite Hw in Hin.
    apply list_elem_of_filter in Hin as [Hwait Hin]. rewrite Forall_forall in Hauth. unfold is_waiting, may_begin in Hwait.
    bool_to_prop. split; [done|]. by apply Hauth.
Qed.

(** ** Theorems *)

Definition running_in (room_id : str) (st : RoomStore) : list DurableAgentSession :=
  filter (fun s => is_running s = true) (room_rows room_id st).

Lemma running_in_nil room_id st : running_in room_id st = [] <-> any is_running (room_rows room_id st) = false.
Proof.
  unfold running_in. rewrite any_false_Forall, Forall_forall. split.
  - intros Hn s Hs. apply not_true_is_false. intros Hr. assert (s ∈ running_in room_id st) as Hin by (by apply list_elem_of_filter).
    unfold running_in in Hin. rewrite Hn in Hin. by apply elem_of_nil in Hin.
  - intros Hn. destruct (filter _ _) as [|s l] eqn:E; [done|]. assert (s ∈ s :: l) as Hs by (apply elem_of_cons; by left).
    rewrite <- E in Hs. apply list_elem_of_filter in Hs as [Hr Hs]. by rewrite Hn in Hr.
Qed.

Lemma round_key room_id settings now prepared st st' cs s :
  store_ok st -> assignment_round room_id settings now prepared st st' cs ->
  s ∈ chosen_of settings cs -> is_waiting now room_id st s = true /\ s ∈ room_rows room_id st /\ (session_key s).1 = room_id.
Proof.
  intros Hok Hr Hs%chosen_of_subset. rewrite (rd_waiting _ _ _ _ _ _ _ Hr) in Hs.
  apply list_elem_of_filter in Hs as [Hw Hs]. split_and!; [done|done|].
  apply elem_of_room_rows in Hs as [sid Hs]. by rewrite (so_keyed _ Hok _ _ Hs).
Qed.

(** Any preorder that beginning a turn and dropping an empty request follow. *)
Lemma round_changes_with (R : DurableAgentSession -> DurableAgentSession -> Prop) room_id settings now prepared st st' cs :
  Reflexive R -> (forall s s', begun s s' -> R s s') -> (forall s, R s (clear_schedule_request now s)) ->
  store_ok st -> assignment_round room_id settings now prepared st st' cs -> changes R st st'.
Proof.
  intros Hrefl Hbegun Hclear Hok Hround. split; [apply Hround|]. intros k.
  destruct (decide (k ∈ map session_key (chosen_of settings cs))) as [Hk|Hk].
  - apply list_elem_of_fmap in Hk as (c & -> & Hc). destruct (round_key _ _ _ _ _ _ _ _ Hok Hround Hc) as (_ & Hrow & _).
    apply rows_stored in Hrow; [|done]. rewrite Hrow. apply list_elem_of_lookup in Hc as [i Hc].
    destruct (Forall2_lookup_l _ _ _ _ _ (rd_begun _ _ _ _ _ _ _ Hround) Hc) as (p & Hp & Hb).
    pose proof (rd_stored _ _ _ _ _ _ _ Hround) as Hst. rewrite Forall_forall in Hst.
    specialize (Hst p (list_elem_of_lookup_2 _ _ _ Hp)). rewrite (bg_key _ _ Hb) in Hst. rewrite Hst. constructor. by apply Hbegun.
  - rewrite (rd_frame _ _ _ _ _ _ _ Hround k Hk). destruct (st_sessions st !! k) as [s|]; simpl; constructor.
    case_match; [apply Hclear|done].
Qed.


Definition prepared_sessions (prepared : list PreparedAssignment) : list DurableAgentSession :=
  map (fun p => at_session (pa_assignment p)) prepared.

(** A round leaves running exactly what ran before and what it began. *)
Lemma round_running room_id settings now prepared st st' cs s :
  store_ok st -> assignment_round room_id settings now prepared st st' cs ->
  s ∈ running_in room_id st' <->
  s ∈ prepared_sessions prepared \/
  (s ∈ running_in room_id st' /\ session_key s ∉ map session_key (chosen_of settings cs)).
Proof.
  intros Hok Hround. split.
  - intros Hin. destruct (decide (session_key s ∈ map session_key (chosen_of settings cs))) as [Hk|Hk]; [|by right].
    left. apply list_elem_of_fmap in Hk as (c & Hk & Hc).
    apply list_elem_of_lookup in Hc as [i Hc].
    destruct (Forall2_lookup_l _ _ _ _ _ (rd_begun _ _ _ _ _ _ _ Hround) Hc) as (p & Hp & Hb).
    pose proof (rd_stored _ _ _ _ _ _ _ Hround) as Hst. rewrite Forall_forall in Hst.
    specialize (Hst p). rewrite (bg_key _ _ Hb), <- Hk in Hst.
    apply list_elem_of_filter in Hin as [_ Hin]. apply rows_stored in Hin; [|by apply Hround].
    rewrite Hst in Hin by (by eapply list_elem_of_lookup_2). injection Hin as <-.
    apply list_elem_of_fmap. exists p. split; [done|]. by eapply list_elem_of_lookup_2.
  - intros [Hin|[? _]]; [|done]. apply list_elem_of_fmap in Hin as (p & -> & Hp).
    apply list_elem_of_lookup in Hp as [i Hp].
    destruct (Forall2_lookup_r _ _ _ _ _ (rd_begun _ _ _ _ _ _ _ Hround) Hp) as (c & Hc & Hb).
    apply list_elem_of_lookup_2 in Hc, Hp. apply (round_key _ _ _ _ _ _ _ _ Hok Hround) in Hc as (_ & _ & Hroom).
    pose proof (rd_stored _ _ _ _ _ _ _ Hround) as Hst. rewrite Forall_forall in Hst. specialize (Hst _ Hp).
    apply list_elem_of_filter. split; [by apply (bg_active _ _ Hb)|]. apply elem_of_room_rows.
    rewrite <- (bg_key _ _ Hb) in Hroom. destruct (session_key _) as [r sid] eqn:E. simpl in Hroom. subst. by exists sid.
Qed.

#[local] Instance candidate_order_total : Total candidate_order.
Proof.
  intros a b. unfold candidate_order. destruct (Z.lt_trichotomy a.1 b.1) as [|[Heq|]].
  - left. by left.
  - destruct (total session_le a.2 b.2); [left|right]; by right.
  - right. by left.
Qed.
#[local] Instance candidate_order_trans : Transitive candidate_order.
Proof.
  intros a b c. unfold candidate_order, session_le. intros [?|[-> ?]] [?|[? ?]]; [left; lia|left; lia|left; lia|right].
  split; [done|]. by eapply str_leb_trans.
Qed.

(** The first of the sorted candidates comes before each of them. *)
Lemma first_candidate_least cs c l : merge_sort candidate_order cs = c :: l -> forall d, d ∈ cs -> candidate_order c d.
Proof.
  intros Hm d Hd. pose proof (StronglySorted_merge_sort candidate_order cs) as Hs. rewrite Hm in Hs.
  rewrite <- (merge_sort_Permutation candidate_order cs), Hm in Hd. inversion Hs as [|? ? _ Hf]; subst.
  apply elem_of_cons in Hd as [->|Hd]; [|by rewrite Forall_forall in Hf; apply Hf].
  right. split; [done|]. unfold session_le. apply str_leb_refl.
Qed.

Lemma clear_request_running now s : is_running (clear_schedule_request now s) = is_running s.
Proof. done. Qed.

(** In ordered conversation the floor is exclusive: while an agent of the room has a turn, no
    other begins one, and when none has, at most one turn is begun and the sessions running
    afterwards are exactly the ones it was begun for. *)

(** in ordered conversation the floor is exclusive: while an agent of the room has a
    turn no other begins one, and when none has, at most one turn is begun. *)
Theorem ordered_floor_exclusive (room : Room) (settings : RoomSettings) (now : instant) (st st' : RoomStore)
    (prepared : list PreparedAssignment)
    (Hok : store_ok st) (Ho : is_ordered settings = true)
    (Hrun : assign_available_pending room settings now st = Ok (prepared, st')) :
  (running_in (rm_room_id room) st <> [] -> prepared = [] /\ st' = st) /\
  (running_in (rm_room_id room) st = [] ->
    (length prepared <= 1)%nat /\
    forall s, s ∈ running_in (rm_room_id room) st' <-> s ∈ prepared_sessions prepared).
Proof.
  apply assign_available_pending_Ok in Hrun as [(-> & -> & _)|[cs Hround]]; [| |done].
  - split; [done|]. intros ->. split; [simpl; lia|]. done.
  - pose proof (rd_floor _ _ _ _ _ _ _ Hround Ho) as Hidle. apply running_in_nil in Hidle.
    split; [by rewrite Hidle|]. intros _. split.
    + rewrite <- (Forall2_length _ _ _ (rd_begun _ _ _ _ _ _ _ Hround)). unfold chosen_of. rewrite Ho, length_map, length_take. lia.
    + intros s. rewrite (round_running _ _ _ _ _ _ _ s Hok Hround). split; [|by left]. intros [?|[Hin Hk]]; [done|]. exfalso.
      unfold running_in in Hin. apply list_elem_of_filter in Hin as [Hr Hin].
      pose proof (rows_stored _ _ _ (rd_ok _ _ _ _ _ _ _ Hround) Hin) as Hs.
      rewrite (rd_frame _ _ _ _ _ _ _ Hround _ Hk) in Hs. destruct (st_sessions st !! session_key s) as [s0|] eqn:Hs0; [|done].
      simpl in Hs. assert (is_running s0 = true) as Hr0.
      { injection Hs as Hs. rewrite <- Hs in Hr. revert Hr. case_match; [by rewrite clear_request_running|done]. }
      assert (s0 ∈ running_in (rm_room_id room) st) as Hin0; [|rewrite Hidle in Hin0; by apply elem_of_nil in Hin0].
      apply list_elem_of_filter. split; [done|]. apply elem_of_room_rows in Hin as [sid Hin].
      apply elem_of_room_rows. exists sid. rewrite <- Hs0. f_equal.
      symmetry. by apply (so_keyed _ (rd_ok _ _ _ _ _ _ _ Hround)).
Qed.

(** The ordered floor is never left idle: when no agent has a turn and some may begin one for a
    waiting message, exactly one turn is begun, for a session whose first message is the oldest
    in the room. *)

(** C32: an assignment of the ordered floor that commits while the server is not shutting
    down never leaves the floor idle: when no agent has a turn and some may begin one for a
    waiting message, exactly one turn is begun, for a session whose first message is the
    oldest in the room (an assignment that fails is rolled back). *)
Theorem ordered_floor_serves_oldest (room : Room) (settings : RoomSettings) (now : instant) (st st' : RoomStore)
    (prepared : list PreparedAssignment) (waiting : DurableAgentSession)
    (Hok : store_ok st) (Ho : is_ordered settings = true) (Hq : st_quiescing st = false)
    (Hrun : assign_available_pending room settings now st = Ok (prepared, st'))
    (Hidle : running_in (rm_room_id room) st = [])
    (Hw : waiting ∈ room_rows (rm_room_id room) st) (Hwait : is_waiting now (rm_room_id room) st waiting = true) :
  exists s p seq,
    prepared = [p] /\ begun s (at_session (pa_assignment p)) /\
    s ∈ room_rows (rm_room_id room) st /\ is_waiting now (rm_room_id room) st s = true /\
    waits_since (rm_room_id room) st s seq /\
    forall s', s' ∈ room_rows (rm_room_id room) st -> is_waiting now (rm_room_id room) st s' = true ->
      exists seq', waits_since (rm_room_id room) st s' seq' /\ (seq < seq' \/ seq = seq' /\ session_le s s').
Proof.
  apply assign_available_pending_Ok in Hrun as [(_ & _ & [?|[_ Hany]])|[cs Hround]]; [congruence| | |done].
  { apply running_in_nil in Hidle. congruence. }
  pose proof (rd_begun _ _ _ _ _ _ _ Hround) as Hb. unfold chosen_of in Hb. rewrite Ho in Hb.
  assert (forall s, s ∈ room_rows (rm_room_id room) st -> is_waiting now (rm_room_id room) st s = true ->
    exists seq, (seq, s) ∈ cs) as Hall.
  { intros s Hs Hws. assert (s ∈ map snd cs) as Hin.
    { rewrite (rd_waiting _ _ _ _ _ _ _ Hround). by apply list_elem_of_filter. }
    apply list_elem_of_fmap in Hin as ([seq ?] & -> & ?). by exists seq. }
  destruct (merge_sort candidate_order cs) as [|[seq s] l] eqn:Em.
  { destruct (Hall _ Hw Hwait) as [seq Hin]. rewrite <- (merge_sort_Permutation candidate_order cs), Em in Hin.
    by apply elem_of_nil in Hin. }
  simpl in Hb. inversion Hb as [|? p ? ? Hbp Hnil]; subst. inversion Hnil; subst.
  assert ((seq, s) ∈ cs) as Hin.
  { rewrite <- (merge_sort_Permutation candidate_order cs), Em. apply elem_of_cons. by left. }
  pose proof (rd_since _ _ _ _ _ _ _ Hround) as Hsince. rewrite Forall_forall in Hsince.
  assert (s ∈ map snd cs) as Hin' by (by apply (list_elem_of_fmap_2 snd) in Hin).
  rewrite (rd_waiting _ _ _ _ _ _ _ Hround) in Hin'. apply list_elem_of_filter in Hin' as [Hws Hs].
  exists s, p, seq. split_and!; [done|done|done|done|by apply (Hsince (seq, s))|].
  intros s' Hs' Hws'. destruct (Hall _ Hs' Hws') as [seq' Hin']. exists seq'. split; [by apply (Hsince (seq', s'))|].
  by apply (first_candidate_least _ _ _ Em (seq', s')).
Qed.

(** In ambient conversation every agent that may begin a turn for a waiting message begins one,
    and no other session changes but for a request to be scheduled that had nothing to serve. *)

(** in ambient conversation every agent that may begin a turn for a waiting message
    begins one, and no other session changes but for a request to be scheduled that had
    nothing to serve. *)
Theorem ambient_serves_every_agent (room : Room) (settings : RoomSettings) (now : instant) (st st' : RoomStore)
    (prepared : list PreparedAssignment)
    (Hok : store_ok st) (Ho : is_ordered settings = false) (Hq : st_quiescing st = false)
    (Hrun : assign_available_pending room settings now st = Ok (prepared, st')) :
  (forall s, s ∈ room_rows (rm_room_id room) st -> is_waiting now (rm_room_id room) st s = true ->
    exists p, p ∈ prepared /\ begun s (at_session (pa_assignment p)) /\
      st_sessions st' !! session_key s = Some (at_session (pa_assignment p))) /\
  (forall k s, st_sessions st !! k = Some s ->
    k.1 <> rm_room_id room \/ is_waiting now (rm_room_id room) st s = false ->
    exists s', st_sessions st' !! k = Some s' /\ (s' = s \/ s' = clear_schedule_request now s)).
Proof.
  apply assign_available_pending_Ok in Hrun as [(_ & _ & [?|[? _]])|[cs Hround]]; [congruence|congruence| |done].
  pose proof (rd_begun _ _ _ _ _ _ _ Hround) as Hb.
  pose proof (rd_stored _ _ _ _ _ _ _ Hround) as Hst. rewrite Forall_forall in Hst. split.
  - intros s Hs Hws. assert (s ∈ chosen_of settings cs) as Hin.
    { unfold chosen_of. rewrite Ho, (merge_sort_Permutation candidate_order cs), (rd_waiting _ _ _ _ _ _ _ Hround).
      by apply list_elem_of_filter. }
    apply list_elem_of_lookup in Hin as [i Hi]. destruct (Forall2_lookup_l _ _ _ _ _ Hb Hi) as (p & Hp & Hbp).
    apply list_elem_of_lookup_2 in Hp. exists p. split_and!; [done|done|]. rewrite <- (bg_key _ _ Hbp). by apply Hst.
  - intros k s Hs Hno. assert (k ∉ map session_key (chosen_of settings cs)) as Hk.
    { intros (c & -> & Hc)%list_elem_of_fmap. apply (round_key _ _ _ _ _ _ _ _ Hok Hround) in Hc as (Hw & Hc & Hroom).
      rewrite (rows_stored _ _ _ Hok Hc) in Hs. injection Hs as <-. destruct Hno; congruence. }
    rewrite (rd_frame _ _ _ _ _ _ _ Hround _ Hk), Hs. simpl. eexists. split; [done|]. case_match; [by right|by left].
Qed.
End scheduler.

(** ** Concrete inputs *)

Definition demo_persona : PersonaLibrary := fun _ _ _ => Ok [].

#[local] Existing Instance ascii_general_category.
#[local] Existing Instance ascii_uppercase.
#[local] Existing Instance ascii_unicode_case.
#[local] Existing Instance demo_entropy.
#[local] Existing Instance demo_persona.
#[local] Existing Instances accept_uuid every_instant no_parent demo_serde.

(** The session [id] with the messages queued. *)
Definition queued_session (kind : RoomInputDeliveryKind) (id : string) (events : list string) : DurableAgentSession :=
  fold_left (fun s e => run_tx s (enqueue (u e) kind 3 s)) events (idle_session id).
Definition demo_waiting (mode : string) : RoomStore :=
  let kind := if String.eqb mode "ordered" then OrderedObservation else AmbientObservation in
  demo_with mode [queued_session kind "agent-1" ["m2"%string]; queued_session kind "agent-2" ["m1"%string; "m2"%string]].
Definition demo_assign (mode : string) (st : RoomStore) : list PreparedAssignment * RoomStore :=
  run_tx ([], st) (assign_available_pending demo_room (demo_settings_of mode) 9 st).

Example demo_assign_ok :
  map (fun p => s_session_id (d_public (at_session (pa_assignment p)))) (demo_assign "ordered" (demo_waiting "ordered")).1
    = [u "agent-2"] /\
  map (fun p => s_session_id (d_public (at_session (pa_assignment p)))) (demo_assign "ambient" (demo_waiting "ambient")).1
    = [u "agent-2"; u "agent-1"].
Proof. by vm_compute. Qed.

Lemma demo_assign_Ok mode st :
  is_ok (assign_available_pending demo_room (demo_settings_of mode) 9 st) = true ->
  assign_available_pending demo_room (demo_settings_of mode) 9 st =
    Ok ((demo_assign mode st).1, (demo_assign mode st).2).
Proof. apply run_tx_pair. Qed.

Lemma demo_ordered_Ok : is_ok (assign_available_pending demo_room (demo_settings_of "ordered") 9 (demo_waiting "ordered")) = true.
Proof. by vm_compute. Qed.
Lemma demo_ambient_Ok : is_ok (assign_available_pending demo_room (demo_settings_of "ambient") 9 (demo_waiting "ambient")) = true.
Proof. by vm_compute. Qed.
Lemma demo_ordered_idle : running_in (rm_room_id demo_room) (demo_waiting "ordered") = [].
Proof. by vm_compute. Qed.
Lemma demo_ordered_row : st_sessions (demo_waiting "ordered") !! (u "room", u "agent-1")
  = Some (queued_session OrderedObservation "agent-1" ["m2"%string]).
Proof. by vm_compute. Qed.
Lemma demo_ordered_waits :
  is_waiting 9 (rm_room_id demo_room) (demo_waiting "ordered") (queued_session OrderedObservation "agent-1" ["m2"%string]) = true.
Proof. by vm_compute. Qed.
Lemma demo_is_ordered : is_ordered (demo_settings_of "ordered") = true.
Proof. done. Qed.
Lemma demo_is_ambient : is_ordered (demo_settings_of "ambient") = false.
Proof. done. Qed.
Lemma demo_open mode : st_quiescing (demo_waiting mode) = false.
Proof. done. Qed.
Lemma demo_waiting_ok mode : store_ok (demo_waiting mode).
Proof. apply demo_with_ok. Qed.

#[local] Opaque demo_assign demo_waiting demo_settings_of demo_room assign_available_pending queued_session.

Lemma ordered_floor_exclusive_witness :
  (length (demo_assign "ordered" (demo_waiting "ordered")).1 <= 1)%nat /\
  (forall s, s ∈ running_in (rm_room_id demo_room) (demo_assign "ordered" (demo_waiting "ordered")).2 <->
     s ∈ prepared_sessions (demo_assign "ordered" (demo_waiting "ordered")).1).
Proof.
  pose proof (demo_assign_Ok _ _ demo_ordered_Ok) as Hrun.
  pose proof (ordered_floor_exclusive _ _ _ _ _ _ (demo_waiting_ok _) demo_is_ordered Hrun) as [_ Hx].
  exact (Hx demo_ordered_idle).
Defined.

Lemma ordered_floor_serves_oldest_witness :
  exists s p seq,
    (demo_assign "ordered" (demo_waiting "ordered")).1 = [p] /\ begun s (at_session (pa_assignment p)) /\
    s ∈ room_rows (rm_room_id demo_room) (demo_waiting "ordered") /\ is_waiting 9 (rm_room_id demo_room) (demo_waiting "ordered") s = true /\
    waits_since (rm_room_id demo_room) (demo_waiting "ordered") s seq /\
    forall s', s' ∈ room_rows (rm_room_id demo_room) (demo_waiting "ordered") -> is_waiting 9 (rm_room_id demo_room) (demo_waiting "ordered") s' = true ->
      exists seq', waits_since (rm_room_id demo_room) (demo_waiting "ordered") s' seq' /\ (seq < seq' \/ seq = seq' /\ session_le s s').
Proof.
  pose proof (demo_assign_Ok _ _ demo_ordered_Ok) as Hrun.
  pose proof (proj2 (elem_of_room_rows (u "room") _ _) (ex_intro _ _ demo_ordered_row)) as Hrow.
  exact (ordered_floor_serves_oldest _ _ _ _ _ _ _ (demo_waiting_ok _) demo_is_ordered (demo_open _) Hrun demo_ordered_idle Hrow
    demo_ordered_waits).
Defined.

Lemma ambient_serves_every_agent_witness :
  (forall s, s ∈ room_rows (rm_room_id demo_room) (demo_waiting "ambient") -> is_waiting 9 (rm_room_id demo_room) (demo_waiting "ambient") s = true ->
    exists p, p ∈ (demo_assign "ambient" (demo_waiting "ambient")).1 /\ begun s (at_session (pa_assignment p)) /\
      st_sessions (demo_assign "ambient" (demo_waiting "ambient")).2 !! session_key s = Some (at_session (pa_assignment p))) /\
  (forall k s, st_sessions (demo_waiting "ambient") !! k = Some s ->
    k.1 <> rm_room_id demo_room \/ is_waiting 9 (rm_room_id demo_room) (demo_waiting "ambient") s = false ->
    exists s', st_sessions (demo_assign "ambient" (demo_waiting "ambient")).2 !! k = Some s' /\
      (s' = s \/ s' = clear_schedule_request 9 s)).
Proof.
  pose proof (demo_assign_Ok _ _ demo_ambient_Ok) as Hrun.
  exact (ambient_serves_every_agent _ _ _ _ _ _ (demo_waiting_ok _) demo_is_ambient (demo_open _) Hrun).
Defined.
