(* ===== verification/Completion.v ===== *)
(** * The end of a turn (agentsassemble-persistence/src/room_turns.rs, room_turn_completion.rs,
    room_turn_finalization.rs, provider_turn_effect_finalize.rs and the
    transactions of provider_turn_execution.rs)

    A turn completes with a message or a decline, fails, is interrupted or loses
    its task: each is one transaction that ends the execution, updates the
    session, announces it and gives the floor to the next agent. System.v
    composes these transactions with routing and assignment. *)

From Stdlib Require Import String.
From stdpp Require Import gmap.
From S2P Require Import Prelude Text Diagnostic Json Model Command Vote Settings Store Turn Routing RoomStore Authority.
From S2P Require Import Requests Execution Observation Attachments VoteStore Scheduler.

Record AgentTurnCommit : Type := MkTurnCommit {
  tcm_events : list RoomEvent;
  tcm_next_assignments : list AgentTurnAssignment
}.

Inductive ProviderTurnDisposition : Type :=
| DispositionCompleted (route_first_event : bool)
| DispositionDeclined (reason_code : str)
| DispositionRejected (error_code message : str).


(** agent_interrupt.rs *)
Definition INTERRUPTED_CODE : string := "interrupted".
Definition INTERRUPTED_MESSAGE : string := "The provider turn was interrupted by a room operator.".

Definition cause_name (cause : ProviderTurnInterruptCause) : str :=
  match cause with ParticipantMuted => u "participant_muted" | AgentInterrupt => u "agent_interrupt" end.

Section completion.
Context `{UnicodeGeneralCategory, CharCase, UnicodeCase, Caseless, Chrono, Entropy, PersonaLibrary, UuidCrate, ChronoRange, AttendeeParent,
  RequestSerde, RegexCrate}.

(** ** room_turn_support.rs *)

Definition validate_identifier (value : str) (code : string) : tx unit :=
  require (is_provider_turn_id value) (rejected_tx code "Provider turn identity is invalid.").

Definition provider_room_principal (session : DurableAgentSession) (participant : Participant) (scope : InviteScope) :
    tx AuthenticatedPrincipal :=
  let public := d_public session in
  reject_if (negb (bool_decide (pt_status participant = Joined)) || pt_muted participant
             || negb (str_eqb (pt_participant_type participant) (u "agent"))
             || negb (str_eqb (pt_room_id participant) (s_room_id public))
             || negb (str_eqb (pt_participant_id participant) (s_participant_id public)))
    (rejected_tx "stale_provider_turn" "Room tool authority no longer matches an active Agent Session participant.") ;;
  mret {| pr_principal_id := s_session_id public; pr_participant_id := pt_participant_id participant;
          pr_display_name := pt_display_name participant; pr_room_id := s_room_id public; pr_client_kind := AgentBridge;
          pr_invite_scope := scope; pr_is_operator := false;
          pr_capabilities := capabilities_for_principal AgentBridge scope false |}.

Definition validate_input_cursor (session : DurableAgentSession) (st : RoomStore) : tx unit :=
  event ← load_event (s_room_id (d_public session)) (d_input_up_to_event_id session) st;
  reject_if ((d_input_up_to_seq session <=? 0)
             || match event with Some event => negb (ev_seq event =? d_input_up_to_seq session) | None => true end)
    (rejected_tx "provider_sync_cursor_mismatch"
       "The active provider input cursor is outside canonical room history.").

Definition public_error_codes : list string :=
  ["provider_turn_cancelled"; "provider_turn_timeout"; "provider_model_mismatch"; "provider_runtime_exited";
   "provider_runtime_restart_required"; "room_observation_unconfirmed"; "room_portal_publication_missing"]%string.
Definition public_error_code (value : str) : string :=
  match List.find (fun code => str_eqb value (u code)) public_error_codes with
  | Some code => code
  | None =>
      if contains [u "provider_protocol_invalid"; u "provider_protocol_mismatch"] value
      then "provider_protocol_invalid" else "provider_turn_failed"
  end.

Definition agent_final_event (session : DurableAgentSession) (turn_id provider_turn_id source_event_id content
    target_agent_id : str) (now : instant) : rtx RoomEvent :=
  let public := d_public session in
  lift (reject_if (list_empty (d_inflight_inputs session))
    (rejected_tx "stored_turn_authority_invalid" "Active provider turn has no canonical input provenance.")) ;;
  id ← draw_uuid;
  seq ← reads (fun st => Ok (next_sequence (s_room_id public) st));
  let event :=
    {| ev_v := 1; ev_id := id; ev_seq := seq; ev_created_at := now; ev_room_id := s_room_id public;
       ev_event_type := u "message_final";
       ev_actor := MkActor (s_participant_id public) (u "agent");
       ev_participant_id := Some (s_participant_id public); ev_participant_type := Some (u "agent");
       ev_actor_id := Some (s_participant_id public); ev_actor_type := Some (u "agent");
       ev_display_name := Some (s_display_name public); ev_content := Some content;
       ev_message_kind := Some (u "message");
       ev_extra :=
         <[u "session_id" := VString (s_session_id public)]>
         (<[u "turn_id" := VString turn_id]>
         (<[u "provider_turn_id" := VString provider_turn_id]>
         (<[u "source_event_id" := VString source_event_id]>
         (<[u "target_agent_id" := VString target_agent_id]>
         (<[u "message_source" := VString (u "room_portal")]> ∅))))) |} in
  insert_event event ;;
  mret event.

(** ** agent_lifecycle.rs: [merged_turn_queue] *)

Definition invalid_turn_queue : PersistenceError :=
  rejected_tx "stored_turn_authority_invalid" "Stored Agent Session turn authority is inconsistent or oversized.".

Definition is_deleted (event : RoomEvent) : bool :=
  bool_decide (ev_extra event !! u "message_deleted" = Some (VBool true)).

Fixpoint restored_inputs (room_id : str) (inputs : list QueuedRoomInput) (st : RoomStore) : tx (list QueuedRoomInput) :=
  match inputs with
  | [] => Ok []
  | input :: inputs =>
      event ← load_event room_id (qi_event_id input) st;
      event ← ok_or event invalid_turn_queue;
      restored ← restored_inputs room_id inputs st;
      mret (if is_deleted event then restored else input :: restored)
  end.

Definition merged_turn_queue (session : DurableAgentSession) (st : RoomStore) : tx (list QueuedRoomInput) :=
  merged ← map_err (fun _ => invalid_turn_queue) (merge_room_inputs (d_inflight_inputs session ++ d_pending_inputs session));
  restored_inputs (s_room_id (d_public session)) merged st.

(** ** room_turns.rs *)

Definition turn_commit (events : list RoomEvent) (prepared : list PreparedAssignment) : AgentTurnCommit :=
  MkTurnCommit (events ++ concat (map pa_events prepared)) (map pa_assignment prepared).

Definition assign_pending_in (room : Room) (settings : RoomSettings) (now : instant) : rtx AgentTurnCommit :=
  prepared ← assign_available_pending room settings now;
  mret (turn_commit [] prepared).

Definition assign_pending_turn (room_id : str) (now : instant) : rtx (option AgentTurnCommit) :=
  '(room, settings) ← reads (load_active_room room_id);
  commit ← assign_pending_in room settings now;
  mret (if list_empty (tcm_next_assignments commit) then None else Some commit).

Definition public_assignment_error_code (value : str) : str :=
  if contains [u "agent_session_capacity"; u "provider_sync_cursor_mismatch"; u "queued_room_event_invalid";
               u "room_event_missing"; u "provider_turn_input_invalid"; u "stored_turn_authority_invalid"] value
  then value else u "internal_assignment_error".

Definition record_floor_progression_failure (room_id assignment_error_code : str) (now : instant) : rtx (list RoomEvent) :=
  reads (load_active_room room_id) ;;
  id ← draw_uuid;
  seq ← reads (fun st => Ok (next_sequence room_id st));
  let event :=
    {| ev_v := 1; ev_id := id; ev_seq := seq; ev_created_at := now; ev_room_id := room_id; ev_event_type := u "error";
       ev_actor := MkActor (u "room-system") (u "system");
       ev_participant_id := None; ev_participant_type := Some (u "system");
       ev_actor_id := Some (u "room-system"); ev_actor_type := Some (u "system"); ev_display_name := Some (u "Room System");
       ev_content := Some (u "Queued Agent Session work could not be advanced."); ev_message_kind := None;
       ev_extra :=
         <[u "error_code" := VString (u "floor_progression_failed")]>
         (<[u "diagnostics" := VObject [(u "assignment_error_code",
              VString (public_assignment_error_code assignment_error_code))]]> ∅) |} in
  insert_event event ;;
  mret [event].

Definition publication_invalid (message : string) : PersistenceError :=
  rejected_tx "room_portal_publication_invalid" message.

Definition validate_publication_target (session : DurableAgentSession) (target_agent_id : str) (st : RoomStore) : tx unit :=
  if str_empty target_agent_id then Ok tt
  else
    let public := d_public session in
    reject_if (str_eqb target_agent_id (s_session_id public) || bool_decide (128 < byte_len target_agent_id)%nat
               || negb (str_eqb (trim target_agent_id) target_agent_id) || any is_control target_agent_id)
      (publication_invalid "The RoomPortal handoff target is invalid.") ;;
    target ← match load_session (s_room_id public) target_agent_id st with
             | Ok target => Ok target
             | Err (CommandRejected code message) =>
                 if str_eqb code (u "not_found")
                 then Err (publication_invalid "The RoomPortal handoff target does not exist.")
                 else Err (CommandRejected code message)
             | Err e => Err e
             end;
    participant ← load_participant (s_room_id public) (s_participant_id (d_public target)) st;
    reject_if (bool_decide (pt_status participant = Kicked) || pt_muted participant)
      (publication_invalid "The RoomPortal handoff target cannot receive the ordered floor.").

(** ** room_turn_finalization.rs *)

(** The status of the turn, its reason and whether its first event is routed. *)
Definition disposition_parts (disposition : ProviderTurnDisposition) : string * option str * bool :=
  match disposition with
  | DispositionCompleted route_first_event => ("completed"%string, None, route_first_event)
  | DispositionDeclined reason_code => ("declined"%string, Some reason_code, false)
  | DispositionRejected error_code _ => ("error"%string, Some error_code, false)
  end.

Definition finalization_apply (room : Room) (settings : RoomSettings) (turn_id provider_turn_id : str)
    (disposition : ProviderTurnDisposition) (session : DurableAgentSession) (events : list RoomEvent) (now : instant) :
    rtx AgentTurnCommit :=
  errors ← match disposition with
           | DispositionRejected error_code message =>
               error ← error_event session turn_id error_code message now; mret [error]
           | _ => mret []
           end;
  let '(status, reason_code, route_first_event) := disposition_parts disposition in
  let events := events ++ errors in
  finished ← turn_finished_event session turn_id status (Some provider_turn_id) reason_code now;
  let session := complete_session_state (d_input_up_to_event_id session) (d_input_up_to_seq session) now session in
  save_session session ;;
  state ← session_state_event session now;
  (if route_first_event : bool then
     event ← lift (ok_or (head events) (rejected_tx "stored_turn_authority_invalid"
       "A routed provider completion has no canonical room event."));
     route_message settings event now
   else mret tt) ;;
  prepared ← assign_available_pending room settings now;
  mret (turn_commit (events ++ [finished; state]) prepared).

(** ** room_turn_completion.rs *)

Definition complete_message (room_id session_id : str) (authority : ProviderTurnAuthority) (content target_agent_id : str)
    (now : instant) : rtx AgentTurnCommit :=
  let turn_id := ta_turn_id authority in
  lift (validate_identifier (ta_provider_turn_id authority) "provider_turn_invalid") ;;
  let content := clean_message content MAX_MESSAGE_CHARACTERS in
  lift (require (has_visible_text content)
    (rejected_tx "provider_turn_output_missing" "The provider turn completed without a room-visible final message.")) ;;
  '(room, settings) ← reads (load_active_room room_id);
  session ← reads (load_session room_id session_id);
  lift (require_active_turn session turn_id) ;;
  terminalize_ordinary_execution session authority ExecCompleted ;;
  reads (validate_input_cursor session) ;;
  reads (validate_publication_target session target_agent_id) ;;
  session ← lift (apply_provider_session_transition (ta_provider_session_id authority) session);
  final_event ← agent_final_event session turn_id (ta_provider_turn_id authority) (d_active_source_event_id session)
    content target_agent_id now;
  finalization_apply room settings turn_id (ta_provider_turn_id authority) (DispositionCompleted true) session
    [final_event] now.

(** An operation whose failure the transaction survives: nothing it did remains. *)
Definition attempt {A} (m : rtx A) : rtx (tx A) := fun st =>
  match m st with Ok (a, st') => Ok (Ok a, st') | Err e => Ok (Err e, st) end.

Definition no_bound_uploads (command : VoteCommand) : bool :=
  match command with Create create => list_empty (vc_attachment_ids create) | _ => true end.
Definition opens_vote (command : VoteCommand) : bool := match command with Create _ => true | _ => false end.

Definition complete_vote (room_id session_id : str) (authority : ProviderTurnAuthority) (command : VoteCommand)
    (now : instant) : rtx AgentTurnCommit :=
  let turn_id := ta_turn_id authority in
  lift (validate_identifier (ta_provider_turn_id authority) "provider_turn_invalid") ;;
  lift (require (no_bound_uploads command)
    (rejected_tx "invalid_vote" "Agent Session votes cannot bind browser upload custody.")) ;;
  '(room, settings) ← reads (load_active_room room_id);
  session ← reads (load_session room_id session_id);
  lift (require_active_turn session turn_id) ;;
  reads (validate_input_cursor session) ;;
  session ← lift (apply_provider_session_transition (ta_provider_session_id authority) session);
  participant ← reads (load_participant (s_room_id (d_public session)) (s_participant_id (d_public session)));
  principal ← lift (provider_room_principal session participant ReadWrite);
  sequence ← reads (fun st => Ok (next_sequence room_id st));
  (* a rejection comes before anything is written *)
  vote ← attempt (apply_vote_command principal participant command sequence now);
  match vote with
  | Ok event =>
      terminalize_ordinary_execution session authority ExecCompleted ;;
      finalization_apply room settings turn_id (ta_provider_turn_id authority)
        (DispositionCompleted (opens_vote command)) session [event] now
  | Err error =>
      match error with
      | CommandRejected code message =>
          if is_terminal_vote_rejection error then
            terminalize_ordinary_execution session authority ExecFailed ;;
            finalization_apply room settings turn_id (ta_provider_turn_id authority)
              (DispositionRejected code message) session [] now
          else lift (Err error)
      | _ => lift (Err error)
      end
  end.

Definition decline (room_id session_id : str) (authority : ProviderTurnAuthority) (reason_code : str) (now : instant) :
    rtx AgentTurnCommit :=
  let turn_id := ta_turn_id authority in
  lift (validate_identifier (ta_provider_turn_id authority) "provider_turn_invalid") ;;
  lift (require (contains [u "nothing_useful_to_add"; u "not_addressed"; u "duplicate"] reason_code)
    (rejected_tx "invalid_decline_reason" "The provider decline reason is unsupported.")) ;;
  '(room, settings) ← reads (load_active_room room_id);
  session ← reads (load_session room_id session_id);
  lift (require_active_turn session turn_id) ;;
  terminalize_ordinary_execution session authority ExecDeclined ;;
  reads (validate_input_cursor session) ;;
  session ← lift (apply_provider_session_transition (ta_provider_session_id authority) session);
  finalization_apply room settings turn_id (ta_provider_turn_id authority) (DispositionDeclined reason_code) session [] now.

(** A confirmed stop of the runtime takes its custody from the session. *)
Definition confirm_runtime_stop (confirmed : option (str * str * str)) (session : DurableAgentSession) :
    tx DurableAgentSession :=
  match confirmed with
  | None => Ok session
  | Some (handle_id, owner_id, lease_token) =>
      reject_if (str_empty handle_id || str_empty owner_id || str_empty lease_token
                 || negb (session_custody_is session handle_id owner_id lease_token))
        (rejected_tx "stale_provider_turn" "Confirmed provider shutdown does not match durable turn authority.") ;;
      mret (session <| d_runtime_handle_id := [] |> <| d_runtime_owner_id := [] |> <| d_runtime_lease_token := [] |>
        <| d_public := (d_public session) <| s_provider_session_active := false |> <| s_provider_session_reused := false |> |>)
  end.

(** The message a failure leaves in the room. *)
Definition failure_message (message : str) : str :=
  let message := clean_message (redact_persisted_diagnostic_text message 512) 512 in
  if has_visible_text message then message else u "Provider turn failed.".

Definition fail (room_id session_id : str) (authority : ProviderTurnAuthority) (error_code message : str)
    (confirmed_runtime_stop : option (str * str * str)) (now : instant) : rtx AgentTurnCommit :=
  let turn_id := ta_turn_id authority in
  '(room, settings) ← reads (load_active_room room_id);
  session ← reads (load_session room_id session_id);
  lift (require_active_turn session turn_id) ;;
  terminalize_ordinary_execution session authority ExecFailed ;;
  session ← lift (confirm_runtime_stop confirmed_runtime_stop session);
  let code := public_error_code error_code in
  let message := failure_message message in
  error ← error_event session turn_id (u code) message now;
  finished ← turn_finished_event session turn_id "error" None None now;
  restored ← reads (merged_turn_queue session);
  let session := fail_session_state restored (u code) message now session in
  save_session session ;;
  state ← session_state_event session now;
  prepared ← assign_available_pending room settings now;
  mret (turn_commit [error; finished; state] prepared).

(** ** provider_turn_effect_finalize.rs *)

(** What is left of a session whose turn was interrupted: its runtime stays, its inputs wait again. *)
Definition interrupted_session (cause : ProviderTurnInterruptCause) (restored : list QueuedRoomInput) (now : instant)
    (session : DurableAgentSession) : DurableAgentSession :=
  let by_operator := bool_decide (cause = AgentInterrupt) in
  clear_active_turn_fields (session
    <| d_pending_inputs := restored |>
    <| d_inflight_inputs := [] |>
    <| d_public := (d_public session)
         <| s_status := SessionAttached |>
         <| s_runtime_status := RuntimeIdle |>
         <| s_turn_phase := PhaseNone |>
         <| s_active_turn_id := [] |>
         <| s_last_error := if by_operator then u INTERRUPTED_MESSAGE else [] |>
         <| s_last_error_code := if by_operator then u INTERRUPTED_CODE else [] |>
         <| s_recovery_required := false |>
         <| s_updated_at := now |> |>).

Definition finalize_retained_in (expected : ProviderTurnInterruptEffect) (now : instant) : rtx AgentTurnCommit :=
  session ← reads (load_session (ie_room_id expected) (ie_session_id expected));
  active ← lift (authority_or invalid_effect (active_turn_authority session));
  lift (reject_if
    (negb active
     || negb (str_eqb (s_participant_id (d_public session)) (ie_participant_id expected))
     || negb (str_eqb (s_active_turn_id (d_public session)) (ie_turn_id expected))
     || negb (d_turn_generation session =? ie_turn_generation expected)%N
     || negb (session_custody_is session (ie_runtime_handle_id expected) (ie_runtime_owner_id expected)
                (ie_runtime_lease_token expected))) stale_effect) ;;
  terminalize_retained_interrupt expected ;;
  let turn_id := s_active_turn_id (d_public session) in
  let by_operator := bool_decide (ie_cause expected = AgentInterrupt) in
  error ← (if by_operator
           then event ← error_event session turn_id (u INTERRUPTED_CODE) (u INTERRUPTED_MESSAGE) now; mret [event]
           else mret []);
  finished ← turn_finished_event session turn_id "interrupted" None (Some (cause_name (ie_cause expected))) now;
  restored ← reads (merged_turn_queue session);
  let session := interrupted_session (ie_cause expected) restored now session in
  save_session session ;;
  state ← session_state_event session now;
  scheduled ← (if bool_decide (ie_cause expected = ParticipantMuted) then
                 '(room, settings) ← reads (load_active_room (ie_room_id expected));
                 assign_pending_in room settings now
               else mret (MkTurnCommit [] []));
  mret (MkTurnCommit (error ++ [finished; state] ++ tcm_events scheduled) (tcm_next_assignments scheduled)).

(** ** provider_turn_execution.rs *)

Definition TASK_DEATH_MESSAGE : string := "Provider turn ownership ended before provider I/O was authorized.".

Definition finalize_proven_no_effect_task_death (session : DurableAgentSession) (key : execution_key)
    (execution : ProviderTurnExecution) (now : instant) : rtx AgentTurnCommit :=
  '(room, settings) ← reads (load_active_room key.1.1);
  fail_unstarted_execution key execution ;;
  error ← error_event session (pe_turn_id execution) (u "provider_turn_task_failed") (u TASK_DEATH_MESSAGE) now;
  finished ← turn_finished_event session (pe_turn_id execution) "error" None (Some (u "provider_turn_task_failed")) now;
  restored ← reads (merged_turn_queue session);
  let session := fail_session_state restored (u "provider_turn_task_failed") (u TASK_DEATH_MESSAGE) now session in
  save_session session ;;
  state ← session_state_event session now;
  scheduled ← assign_pending_in room settings now;
  mret (MkTurnCommit ([error; finished; state] ++ tcm_events scheduled) (tcm_next_assignments scheduled)).

Definition require_recovery (now : instant) (session : DurableAgentSession) : DurableAgentSession :=
  session <| d_public := (d_public session) <| s_recovery_required := true |> <| s_updated_at := now |> |>.

Definition quarantine_dispatched_task_death (session : DurableAgentSession) (key : execution_key)
    (execution : ProviderTurnExecution) (now : instant) : rtx AgentTurnCommit :=
  quarantine_dispatched key execution ;;
  let session := require_recovery now session in
  save_session session ;;
  state ← session_state_event session now;
  mret (MkTurnCommit [state] []).

Definition record_provider_turn_task_death (room_id session_id : str) (turn_generation : N) (execution_id : str)
    (now : instant) : rtx AgentTurnCommit :=
  let key := (room_id, session_id, turn_generation) in
  execution ← reads (load_execution_in key);
  session ← reads (load_session room_id session_id);
  active ← lift (authority_or invalid_execution
    (if negb (str_eqb (pe_execution_id execution) execution_id)
        || negb (str_eqb (pe_participant_id execution) (s_participant_id (d_public session)))
        || negb (str_eqb (pe_turn_id execution) (s_active_turn_id (d_public session)))
        || negb (turn_generation =? d_turn_generation session)%N
        || negb (session_custody_is session (pe_runtime_handle_id execution) (pe_runtime_owner_id execution)
                   (pe_runtime_lease_token execution))
     then Ok false else active_turn_authority session));
  lift (require active stale_execution) ;;
  if phase_in [ExecAssigned] execution then finalize_proven_no_effect_task_death session key execution now
  else if phase_in [ExecStartDispatching; ExecRunning; ExecInterruptPending; ExecQuiescing] execution
       then quarantine_dispatched_task_death session key execution now
  else lift (Err stale_execution).

Definition mark_provider_turn_recovery_required (authority : ProviderTurnStartAuthority) (now : instant) :
    rtx AgentTurnCommit :=
  session ← reads (load_session (sa_room_id authority) (sa_session_id authority));
  execution ← reads (load_execution_in (sa_key authority));
  active ← lift (authority_or invalid_execution
    (if negb (matches_start authority execution)
        || negb (phase_in [ExecStartDispatching; ExecRunning] execution)
        || negb (str_eqb (s_active_turn_id (d_public session)) (sa_turn_id authority))
        || negb (d_turn_generation session =? sa_turn_generation authority)%N
        || negb (session_custody_is session (sa_runtime_handle_id authority) (sa_runtime_owner_id authority)
                   (sa_runtime_lease_token authority))
     then Ok false else active_turn_authority session));
  lift (require active stale_execution) ;;
  quarantine_started_execution authority ;;
  let session := (require_recovery now session) in
  let session := session <| d_public := (d_public session)
    <| s_last_error_code := u "provider_turn_recovery_required" |>
    <| s_last_error := u "The exact provider turn remains quarantined pending recovery." |> |> in
  save_session session ;;
  state ← session_state_event session now;
  mret (MkTurnCommit [state] []).

End completion.
