(* ===== verification/Calm.v ===== *)
(** * What the transactions of the floor leave alone

    Routing a message, assigning turns and ending them write sessions, events,
    executions, effects and requests; every other table stays as it is, and
    values are only drawn, never given back. *)

From Stdlib Require Import String.
From stdpp Require Import gmap.
From S2P Require Import Prelude Text Diagnostic Json Model Command Vote Settings Store Turn Routing RoomStore Authority.
From S2P Require Import Requests Execution Observation Attachments VoteStore Scheduler Completion.

Record calm (st st' : RoomStore) : Prop := MkCalm {
  ca_rooms : st_rooms st' = st_rooms st;
  ca_participants : st_participants st' = st_participants st;
  ca_invites : st_invites st' = st_invites st;
  ca_connections : st_connections st' = st_connections st;
  ca_budgets : st_budgets st' = st_budgets st;
  ca_commands : st_commands st' = st_commands st;
  ca_reservations : st_reservations st' = st_reservations st;
  ca_deleted : st_deleted st' = st_deleted st;
  ca_attachments : st_attachments st' = st_attachments st;
  ca_pins : st_pins st' = st_pins st;
  ca_votes : st_votes st' = st_votes st;
  ca_ballots : st_ballots st' = st_ballots st;
  ca_cleanups : st_cleanups st' = st_cleanups st;
  ca_cleanup_ids : st_cleanup_ids st' = st_cleanup_ids st;
  ca_quiescing : st_quiescing st' = st_quiescing st;
  ca_drawn : (st_drawn st <= st_drawn st')%nat
}.
#[global] Instance calm_preorder : PreOrder calm.
Proof. split; [by intros st; split|]. intros a b c [] []. split; try congruence. lia. Qed.

Section calm.
Context `{UnicodeGeneralCategory, CharCase, UnicodeCase, Caseless, Chrono, Entropy, PersonaLibrary, UuidCrate, ChronoRange,
  AttendeeParent, RequestSerde, RegexCrate}.

(** ** Row operations *)

Lemma save_session_calm s : keeps calm (save_session s).
Proof. intros st t st' [_ ->]%save_session_Ok. by split. Qed.
Lemma draw_uuid_calm : keeps calm draw_uuid.
Proof. intros st t st' [_ ->]%draw_uuid_Ok. split; simpl; try done. lia. Qed.
Lemma draw_seed_calm : keeps calm draw_seed.
Proof. intros st t st' [= _ <-]. split; simpl; try done. lia. Qed.
Lemma insert_event_calm e : keeps calm (insert_event e).
Proof. intros st t st' [_ ->]%insert_event_Ok. by split. Qed.
Lemma update_request_calm room_id request_id f : keeps calm (update_request room_id request_id f).
Proof. intros st t st' ->%modifies_Ok. by split. Qed.
Lemma update_execution_calm key p f stale : keeps calm (update_execution key p f stale).
Proof. intros st t st'. unfold update_execution. repeat case_match; [by intros [= _ <-]|done..]. Qed.
Lemma update_effect_calm room_id effect_id p f stale : keeps calm (update_effect room_id effect_id p f stale).
Proof. intros st t st'. unfold update_effect. intros (? & _ & [= _ <-])%bind_Ok. by split. Qed.
Lemma insert_assigned_execution_calm session turn_id assignment : keeps calm (insert_assigned_execution session turn_id assignment).
Proof.
  intros st t st'. unfold insert_assigned_execution. case_match; [done|]. cbv zeta. intros Hr.
  apply bind_Ok in Hr as ([] & _ & Hr). apply bind_Ok in Hr as (? & _ & [= _ <-]). split; simpl; try done. lia.
Qed.
Lemma effects_calm f : keeps calm (modifies (fun st => st <| st_effects := f (st_effects st) |>)).
Proof. apply (keeps_modifies _). by split. Qed.
#[local] Hint Resolve save_session_calm draw_uuid_calm draw_seed_calm insert_event_calm update_request_calm update_execution_calm
  update_effect_calm insert_assigned_execution_calm effects_calm : keeps.

(** ** Events and requests *)

Lemma internal_event_calm session event_type agent content extra now : keeps calm (internal_event session event_type agent content extra now).
Proof. unfold internal_event. keeps. Qed.
#[local] Hint Resolve internal_event_calm : keeps.
Lemma close_in_calm room_id request_id row state now : keeps calm (close_in room_id request_id row state now).
Proof. unfold close_in. keeps. Qed.
#[local] Hint Resolve close_in_calm : keeps.
Lemma reconcile_session_calm session now : keeps calm (reconcile_session_in session now).
Proof. unfold reconcile_session_in. keeps. Qed.
#[local] Hint Resolve reconcile_session_calm : keeps.
Lemma session_state_event_calm session now : keeps calm (session_state_event session now).
Proof. unfold session_state_event. keeps. Qed.
Lemma turn_started_event_calm session now : keeps calm (turn_started_event session now).
Proof. unfold turn_started_event. keeps. Qed.
Lemma turn_state_event_calm session now : keeps calm (turn_state_event session now).
Proof. unfold turn_state_event. keeps. Qed.
Lemma turn_finished_event_calm session turn_id status provider reason now :
  keeps calm (turn_finished_event session turn_id status provider reason now).
Proof. unfold turn_finished_event. keeps. Qed.
Lemma error_event_calm session turn_id code message now : keeps calm (error_event session turn_id code message now).
Proof. unfold error_event. keeps. Qed.
#[local] Hint Resolve session_state_event_calm turn_started_event_calm turn_state_event_calm turn_finished_event_calm
  error_event_calm : keeps.

(** ** The floor *)

Lemma queue_input_calm event now target : keeps calm (queue_input event now target).
Proof. unfold queue_input. keeps. Qed.
#[local] Hint Resolve queue_input_calm : keeps.
Lemma route_message_calm settings event now : keeps calm (route_message settings event now).
Proof. unfold route_message, ordered_targets, sample_speaker. keeps. Qed.
Lemma remove_pending_input_reference_calm room_id event_id : keeps calm (remove_pending_input_reference room_id event_id).
Proof. unfold remove_pending_input_reference. keeps. Qed.
Lemma prepare_assignment_calm room settings now session : keeps calm (prepare_assignment room settings now session).
Proof. unfold prepare_assignment. keeps. Qed.
#[local] Hint Resolve prepare_assignment_calm : keeps.
Lemma assign_available_pending_calm room settings now : keeps calm (assign_available_pending room settings now).
Proof. unfold assign_available_pending. keeps. Qed.
#[local] Hint Resolve route_message_calm remove_pending_input_reference_calm assign_available_pending_calm : keeps.
Lemma assign_pending_in_calm room settings now : keeps calm (assign_pending_in room settings now).
Proof. unfold assign_pending_in. keeps. Qed.
#[local] Hint Resolve assign_pending_in_calm : keeps.

(** ** The end of a turn *)

Lemma terminalize_ordinary_execution_calm session authority phase : keeps calm (terminalize_ordinary_execution session authority phase).
Proof. unfold terminalize_ordinary_execution. keeps. Qed.
Lemma terminalize_retained_interrupt_calm expected : keeps calm (terminalize_retained_interrupt expected).
Proof. unfold terminalize_retained_interrupt. keeps. Qed.
Lemma fail_unstarted_execution_calm key execution : keeps calm (fail_unstarted_execution key execution).
Proof. unfold fail_unstarted_execution. keeps. Qed.
Lemma quarantine_dispatched_calm key execution : keeps calm (quarantine_dispatched key execution).
Proof. unfold quarantine_dispatched. keeps. Qed.
Lemma quarantine_started_execution_calm authority : keeps calm (quarantine_started_execution authority).
Proof. unfold quarantine_started_execution. keeps. Qed.
#[local] Hint Resolve terminalize_ordinary_execution_calm terminalize_retained_interrupt_calm fail_unstarted_execution_calm
  quarantine_dispatched_calm quarantine_started_execution_calm : keeps.
Lemma agent_final_event_calm session turn_id provider_turn_id source content target now :
  keeps calm (agent_final_event session turn_id provider_turn_id source content target now).
Proof. unfold agent_final_event. keeps. Qed.
Lemma finalization_apply_calm room settings turn_id provider_turn_id disposition session events now :
  keeps calm (finalization_apply room settings turn_id provider_turn_id disposition session events now).
Proof. unfold finalization_apply. keeps. Qed.
#[local] Hint Resolve agent_final_event_calm finalization_apply_calm : keeps.

Lemma complete_message_calm room_id session_id authority content target now :
  keeps calm (complete_message room_id session_id authority content target now).
Proof. unfold complete_message. keeps. Qed.
Lemma decline_calm room_id session_id authority reason now : keeps calm (decline room_id session_id authority reason now).
Proof. unfold decline. keeps. Qed.
Lemma fail_calm room_id session_id authority code message stop now :
  keeps calm (fail room_id session_id authority code message stop now).
Proof. unfold fail. keeps. Qed.
Lemma finalize_retained_in_calm expected now : keeps calm (finalize_retained_in expected now).
Proof. unfold finalize_retained_in. keeps. Qed.
Lemma record_provider_turn_task_death_calm room_id session_id generation execution_id now :
  keeps calm (record_provider_turn_task_death room_id session_id generation execution_id now).
Proof.
  unfold record_provider_turn_task_death, finalize_proven_no_effect_task_death, quarantine_dispatched_task_death. keeps.
Qed.
Lemma mark_provider_turn_recovery_required_calm authority now : keeps calm (mark_provider_turn_recovery_required authority now).
Proof. unfold mark_provider_turn_recovery_required. keeps. Qed.
Lemma assign_pending_turn_calm room_id now : keeps calm (assign_pending_turn room_id now).
Proof. unfold assign_pending_turn. keeps. Qed.
End calm.

#[export] Hint Resolve save_session_calm draw_uuid_calm draw_seed_calm insert_event_calm update_request_calm update_execution_calm
  update_effect_calm insert_assigned_execution_calm internal_event_calm close_in_calm session_state_event_calm
  turn_started_event_calm turn_state_event_calm turn_finished_event_calm error_event_calm route_message_calm
  remove_pending_input_reference_calm assign_available_pending_calm assign_pending_in_calm
  terminalize_ordinary_execution_calm terminalize_retained_interrupt_calm fail_unstarted_execution_calm
  quarantine_dispatched_calm quarantine_started_execution_calm agent_final_event_calm finalization_apply_calm
  complete_message_calm decline_calm fail_calm finalize_retained_in_calm record_provider_turn_task_death_calm
  mark_provider_turn_recovery_required_calm assign_pending_turn_calm : keeps.
