(* ===== verification/Messages.v ===== *)
(** * Messages (agentsassemble-persistence/src/command_admission.rs, message_mutations.rs and
    the message transactions of room_turns.rs)

    A command names a request of its principal. Admission answers a request that
    was answered before with the stored result, refuses its reuse for anything
    else, and charges the room for a new one. Posting a message binds its
    attachments, stores it and gives it to the floor; editing and deleting
    replace the stored event and announce the change. Operations read the clock
    once. *)

From Stdlib Require Import String.
From stdpp Require Import gmap sorting.
From S2P Require Import Prelude Text Diagnostic Json Model Command Vote Mutation Projection Settings Store Budget Turn.
From S2P Require Import Routing RoomStore Authority Requests Execution Observation Attachments VoteStore.
From S2P Require Import Scheduler Completion Calm.

Record CommandOutcome : Type := MkCommandOutcome {
  co_result : value;
  co_event : RoomEvent;
  co_events : list RoomEvent;
  co_deduplicated : bool
}.
Record RoomCommandMutation : Type := MkCommandMutation {
  cm_outcome : CommandOutcome;
  cm_assignments : list AgentTurnAssignment
}.
Inductive ExistingRequestIdentity : Type := CommittedResult | PendingLifecycle | RejectedLifecycle.

(** room_write_budget.rs: [command_size] *)
Definition command_size (request_id action : str) (payload : value) : nat :=
  byte_len (encode (VObject [(u "request_id", VString request_id); (u "action", VString action); (u "payload", payload)])).

Section messages.
Context `{UnicodeGeneralCategory, CharCase, UnicodeCase, Caseless, Sha256, Chrono, Entropy, PersonaLibrary, UuidCrate, ChronoRange,
  AttendeeParent, RequestSerde, RegexCrate}.

(** ** command_admission.rs *)

Abbreviation request_key := (str * str * str)%type (only parsing).

(** room_deletion.rs *)
Definition reject_deleted_request_reuse (key : request_key) (st : RoomStore) : tx unit :=
  reject_if (bool_decide (key ∈ st_deleted st)) CommandConflict.

(** The outcome a stored result stands for. *)
Definition stored_outcome (result : value) : tx CommandOutcome :=
  let field name := object ← as_object result; get object (u name) in
  event ← ok_or (field "event"%string ≫= deserialize_event) StoredJson;
  events ← match field "events"%string with
           | None => Ok [event]
           | Some events => ok_or (as_array events ≫= mapM deserialize_event) StoredJson
           end;
  mret (MkCommandOutcome result event events true).

Definition existing_command (key : request_key) (action payload_hash : str) (st : RoomStore) : tx (option CommandOutcome) :=
  reject_deleted_request_reuse key st ;;
  match st_commands st !! key with
  | None => Ok None
  | Some row =>
      reject_if (negb (str_eqb (cr_action row) action) || negb (str_eqb (cr_payload_hash row) payload_hash)) CommandConflict ;;
      Some <$> stored_outcome (cr_result row)
  end.

(** agent_lifecycle_reservations.rs *)
Definition reject_reserved_request_id (key : request_key) (st : RoomStore) : tx unit :=
  reject_if (bool_decide (st_reservations st !! key <> None)) CommandConflict.

(** runtime_restart.rs *)
Definition require_runtime_admission (st : RoomStore) : tx unit :=
  reject_if (st_quiescing st) (CommandUnresolved (u "runtime_restarting")
    (u "The runtime is quiescing for restart. Retry the same request after readiness.")).

Definition inspect_non_lifecycle_command (key : request_key) (action payload_hash : str) (st : RoomStore) :
    tx (option CommandOutcome) :=
  outcome ← existing_command key action payload_hash st;
  reject_reserved_request_id key st ;;
  (if bool_decide (outcome = None) then require_runtime_admission st else Ok tt) ;;
  mret outcome.

Definition admit_non_lifecycle_command (key : request_key) (action payload_hash : str) (payload_bytes : nat) (now : instant) :
    rtx (option CommandOutcome) :=
  outcome ← reads (inspect_non_lifecycle_command key action payload_hash);
  match outcome with
  | Some outcome => mret (Some outcome)
  | None => reserve_budget key.1.1 now payload_bytes ;; mret None
  end.

Definition store_command_result (key : request_key) (action payload_hash : str) (result : value) : rtx unit := fun st =>
  commands ← insert_row key (MkCommandResult action payload_hash result) (st_commands st);
  Ok (tt, st <| st_commands := commands |>).

Definition validate_request_identity (stored_action stored_hash action payload_hash : str) : tx unit :=
  reject_if (negb (str_eqb stored_action action) || negb (str_eqb stored_hash payload_hash)) CommandConflict.

Definition existing_request_identity (key : request_key) (action payload_hash : str) (st : RoomStore) :
    tx (option ExistingRequestIdentity) :=
  reject_deleted_request_reuse key st ;;
  match st_commands st !! key, st_reservations st !! key with
  | Some _, Some _ => Err (invalid_state "A room request has conflicting durable owners.")
  | Some row, None =>
      validate_request_identity (cr_action row) (cr_payload_hash row) action payload_hash ;;
      mret (Some CommittedResult)
  | None, None => Ok None
  | None, Some row =>
      validate_request_identity (lr_action row) (lr_payload_hash row) action payload_hash ;;
      if str_eqb (lr_status row) (u "pending") then mret (Some PendingLifecycle)
      else if str_eqb (lr_status row) (u "rejected") then mret (Some RejectedLifecycle)
      else Err (invalid_state "A lifecycle request has an invalid durable status.")
  end.

(** ** room_turns.rs *)

Definition unsupported_action (action : str) : PersistenceError :=
  CommandRejected (u "unsupported_action") (u "Unsupported room command: " ++ action).

Definition prepare_human_message_event (principal : AuthenticatedPrincipal) (participant : Participant) (payload : value)
    (sequence : Z) (now : instant) : rtx (RoomEvent * bool) :=
  if bool_decide ((object ← as_object payload; get object (u "kind")) <> None) then
    command ← lift (lift_rejection (vote_from_payload payload));
    let route_to_floor := match command with Create _ => true | _ => false end in
    event ← apply_vote_command principal participant command sequence now;
    mret (event, route_to_floor)
  else
    command ← lift (lift_rejection (message_send_from_payload payload));
    attachments ← reads (prepare_message_attachment_bindings principal (ms_attachment_ids command) (timestamp_seconds now));
    id ← draw_uuid;
    event ← lift (lift_rejection (prepare_message_event id principal participant command sequence now));
    let event := with_attachments attachments event in
    insert_event event ;;
    bind_message_attachments principal (ms_attachment_ids command) sequence (timestamp_seconds now) ;;
    mret (event, true).

Definition command_key (principal : AuthenticatedPrincipal) (request_id : str) : request_key :=
  (pr_room_id principal, pr_principal_id principal, request_id).

Definition execute_message_in (principal : AuthenticatedPrincipal) (request_id action : str) (payload : value) (now : instant) :
    rtx RoomCommandMutation :=
  let payload_hash := canonical_payload_hash payload in
  let key := command_key principal request_id in
  '(room, settings) ← reads (load_active_room (pr_room_id principal));
  outcome ← admit_non_lifecycle_command key action payload_hash (command_size request_id action payload) now;
  match outcome with
  | Some outcome => mret (MkCommandMutation outcome [])
  | None =>
      lift (require (str_eqb action (u "message.send")) (unsupported_action action)) ;;
      participant ← reads (load_participant (pr_room_id principal) (pr_participant_id principal));
      sequence ← reads (fun st => Ok (next_sequence (pr_room_id principal) st));
      '(event, route_to_floor) ← prepare_human_message_event principal participant payload sequence now;
      prepared ← (if route_to_floor : bool then
                    route_message settings event now ;;
                    assign_available_pending room settings now
                  else mret []);
      let result := VObject [(u "event", serialize_event event); (u "event_seq", VInt sequence)] in
      store_command_result key action payload_hash result ;;
      mret (MkCommandMutation (MkCommandOutcome result event (event :: concat (map pa_events prepared)) false)
              (map pa_assignment prepared))
  end.

(** ** message_pins.rs *)

Definition remove_message_pin (room_id event_id : str) : rtx unit :=
  modifies (fun st => st <| st_pins := st_pins st ∖ {[(room_id, event_id)]} |>).

(** ** room_turn_support.rs: [replace_event] *)

Definition replace_event (event : RoomEvent) : rtx unit := fun st =>
  match st_events st !! (ev_room_id event, ev_seq event) with
  | Some _ => Ok (tt, st <| st_events := <[(ev_room_id event, ev_seq event) := event]> (st_events st) |>)
  | None => Err (invalid_state "Stored room event disappeared during its mutation.")
  end.

(** ** message_mutations.rs *)

Definition edit_message (principal : AuthenticatedPrincipal) (target : RoomEvent) (edit : MessageEdit) (sequence : Z)
    (now : instant) : rtx (RoomEvent * RoomEvent * value) :=
  lift (lift_rejection (authorize_message_edit principal target)) ;;
  empty ← lift (if has_visible_text (me_content edit) then Ok false else list_empty <$> message_attachments_from_event target);
  lift (reject_if empty
    (rejected_tx "empty" "Message content or an attachment is required.")) ;;
  let updated := prepare_updated_message target (me_content edit) now in
  replace_event updated ;;
  id ← draw_uuid;
  let mutation := prepare_message_updated_event id principal target (me_content edit) sequence now in
  mret (updated, mutation,
        VObject [(u "message", serialize_event updated); (u "event", serialize_event mutation); (u "event_seq", VInt sequence)]).

Definition delete_message (principal : AuthenticatedPrincipal) (target : RoomEvent) (sequence : Z) (now : instant) :
    rtx (RoomEvent * RoomEvent * value) :=
  author ← reads (load_participant (pr_room_id principal) (ac_participant_id (ev_actor target)));
  kind ← lift (lift_rejection (authorize_message_delete principal target author));
  attachment_ids ← delete_bound_message_attachments target;
  remove_message_pin (pr_room_id principal) (ev_id target) ;;
  (if bool_decide (kind = KindVote) then delete_vote_projection (pr_room_id principal) (ev_id target) (ev_seq target)
   else mret tt) ;;
  remove_pending_input_reference (pr_room_id principal) (ev_id target) ;;
  let updated := prepare_deleted_message target kind now in
  replace_event updated ;;
  id ← draw_uuid;
  let mutation := prepare_message_deleted_event id principal target sequence now in
  mret (updated, mutation,
        VObject [(u "message", serialize_event updated); (u "event", serialize_event mutation); (u "event_seq", VInt sequence);
                 (u "target_event_id", VString (ev_id target)); (u "attachment_ids", VStrings attachment_ids)]).

(** The payload of a mutation: its target, and the edit unless it deletes. *)
Definition parse_mutation (action : str) (payload : value) : tx (str * option MessageEdit) :=
  if str_eqb action (u "message.edit") then
    edit ← lift_rejection (message_edit_from_payload payload);
    mret (me_event_id edit, Some edit)
  else if str_eqb action (u "message.delete") then
    deletion ← lift_rejection (message_delete_from_payload payload);
    mret (md_event_id deletion, None)
  else Err (unsupported_action action).

Definition execute_message_mutation_in (principal : AuthenticatedPrincipal) (request_id action : str) (payload : value)
    (now : instant) : rtx CommandOutcome :=
  let payload_hash := canonical_payload_hash payload in
  let key := command_key principal request_id in
  outcome ← admit_non_lifecycle_command key action payload_hash (command_size request_id action payload) now;
  match outcome with
  | Some outcome => mret outcome
  | None =>
      '(target_id, edit) ← lift (parse_mutation action payload);
      target ← reads (load_event (pr_room_id principal) target_id);
      target ← lift (ok_or target (rejected_tx "message_not_found" "Message was not found."));
      sequence ← reads (fun st => Ok (next_sequence (pr_room_id principal) st));
      '(_, mutation, result) ← match edit with
                               | Some edit => edit_message principal target edit sequence now
                               | None => delete_message principal target sequence now
                               end;
      insert_event mutation ;;
      store_command_result key action payload_hash result ;;
      mret (MkCommandOutcome result mutation [mutation] false)
  end.

Definition execute_message_mutation (principal : AuthenticatedPrincipal) (request_id action : str) (payload : value)
    (now : instant) : rtx CommandOutcome :=
  reads (load_active_participant (pr_room_id principal) (pr_participant_id principal)) ;;
  execute_message_mutation_in principal request_id action payload now.

Definition update_target_invalid : PersistenceError :=
  rejected_tx "message_update_target_invalid" "Stored message edit target is inconsistent.".

(** A deleted message also takes the content of its earlier edits. *)
Definition project_deleted_message_update (event : RoomEvent) (st : RoomStore) : tx RoomEvent :=
  if negb (str_eqb (ev_event_type event) (u "message_updated")) then Ok event
  else
    target_seq ← ok_or (seq ← ev_extra event !! u "target_seq" ≫= as_i64;
                        if (0 <? seq) && (seq <? ev_seq event) then Some seq else None) update_target_invalid;
    target_id ← ok_or (ev_extra event !! u "target_event_id" ≫= as_str) update_target_invalid;
    target ← ok_or (st_events st !! (ev_room_id event, target_seq)) update_target_invalid;
    reject_if (negb (str_eqb (ev_id target) target_id) || negb (ev_seq target =? target_seq)
               || negb (str_eqb (ev_room_id target) (ev_room_id event))) update_target_invalid ;;
    mret (if bool_decide (ev_extra target !! u "message_deleted" = Some (VBool true))
          then event <| ev_content := None |> <| ev_extra := <[u "message_deleted" := VBool true]> (ev_extra event) |>
          else event).

(** ** Lemmas *)

(** The events the operations make: version one, the next sequence, the drawn identifier, and [extra] apart
    from the fields. *)
Record made_event (id : str) (sequence : Z) (e : RoomEvent) : Prop := MkMadeEvent {
  me_v : ev_v e = 1;
  me_id : ev_id e = id;
  me_seq : ev_seq e = sequence;
  me_extra : Forall (fun k => ev_extra e !! k = None) EVENT_FIELDS
}.

Lemma made_event_ok id sequence e : made_event id sequence e -> - 2 ^ 63 <= sequence <= i64_max -> event_ok e.
Proof.
  intros [Hv _ Hs Hx] Hseq. rewrite Forall_forall in Hx. split; [|lia|done]. rewrite Hv. unfold u32_max. lia.
Qed.

Lemma authorized_event_made id participant sequence now content kind extra e :
  prepare_authorized_participant_message_event id participant sequence now content kind extra = Ok e ->
  Forall (fun k => extra !! k = None) EVENT_FIELDS -> made_event id sequence e.
Proof.
  unfold prepare_authorized_participant_message_event. intros Hr Hx. apply bind_Ok in Hr as ([] & _ & [= <-]). by split.
Qed.

Lemma message_event_made id principal participant command sequence now e :
  prepare_message_event id principal participant command sequence now = Ok e -> made_event id sequence e.
Proof.
  unfold prepare_message_event, prepare_participant_message_event. intros Hr. apply bind_Ok in Hr as ([] & _ & Hr).
  apply authorized_event_made in Hr; [done|]. apply Forall_forall. intros k _. apply lookup_empty.
Qed.

Lemma vote_event_made id principal participant command sequence now e :
  prepare_vote_event id principal participant command sequence now = Ok e -> made_event id sequence e.
Proof.
  unfold prepare_vote_event. intros Hr. apply bind_Ok in Hr as ([] & _ & Hr). cbv zeta in Hr.
  apply authorized_event_made in Hr; [done|]. destruct command; repeat (constructor; [by map_lit|]); constructor.
Qed.

Lemma with_attachments_made id sequence attachments e : made_event id sequence e -> made_event id sequence (with_attachments attachments e).
Proof.
  unfold with_attachments. case_match; [done|]. intros [Hv Hi Hs Hx]. split; [done..|]. simpl.
  rewrite Forall_forall in Hx. apply Forall_forall. intros k Hk. rewrite lookup_insert_ne; [by apply Hx|]. intros <-.
  revert Hk. lit_ne.
Qed.

Lemma minimized_made id sequence e : made_event id sequence e -> made_event id sequence (privacy_minimized_vote_transition e).
Proof.
  unfold privacy_minimized_vote_transition. case_match; [done|]. intros [Hv Hi Hs Hx]. split; [done..|]. simpl.
  eapply Forall_impl; [exact Hx|]. intros k Hk. apply map_lookup_filter_None. by left.
Qed.

Lemma apply_vote_command_made principal participant command sequence now st e st' :
  apply_vote_command principal participant command sequence now st = Ok (e, st') -> made_event (uuid_at (st_drawn st)) sequence e.
Proof.
  assert (forall c st1 e1 st2, (id ← draw_uuid; lift (lift_rejection (prepare_vote_event id principal participant c sequence now)))
      st1 = Ok (e1, st2) -> made_event (uuid_at (st_drawn st1)) sequence e1) as Hprepared.
  { intros c st1 e1 st2 Hr. apply rtx_bind_Ok in Hr as (id & st3 & [-> ->]%draw_uuid_Ok & Hr).
    apply lift_Ok in Hr as [Hr%lift_rejection_Ok _]. by apply vote_event_made in Hr. }
  unfold apply_vote_command. cbv zeta. destruct command; intros Hr.
  - apply rtx_bind_Ok in Hr as (? & st1 & Hl & Hr). apply reads_Ok in Hl as [_ <-].
    apply rtx_bind_Ok in Hr as (e1 & st1 & Hp%Hprepared & Hr).
    do 3 (apply rtx_bind_Ok in Hr as (? & ? & _ & Hr)). apply rtx_ret_Ok in Hr as [<- _]. by apply with_attachments_made.
  - apply rtx_bind_Ok in Hr as (? & st1 & Hl & Hr). apply reads_Ok in Hl as [_ <-].
    do 3 (apply rtx_bind_Ok in Hr as (? & st1 & Hl & Hr); apply lift_Ok in Hl as [_ <-]).
    apply rtx_bind_Ok in Hr as (e1 & st1 & Hp%Hprepared & Hr).
    do 3 (apply rtx_bind_Ok in Hr as (? & ? & _ & Hr)). apply rtx_ret_Ok in Hr as [<- _]. by apply minimized_made.
  - apply rtx_bind_Ok in Hr as (? & st1 & Hl & Hr). apply reads_Ok in Hl as [_ <-].
    apply rtx_bind_Ok in Hr as (? & st1 & Hl & Hr). apply lift_Ok in Hl as [_ <-].
    apply rtx_bind_Ok in Hr as (e1 & st1 & Hp%Hprepared & Hr).
    do 3 (apply rtx_bind_Ok in Hr as (? & ? & _ & Hr)). apply rtx_ret_Ok in Hr as [<- _]. by apply minimized_made.
  - apply rtx_bind_Ok in Hr as (? & st1 & Hl & Hr). apply reads_Ok in Hl as [_ <-].
    do 2 (apply rtx_bind_Ok in Hr as (? & st1 & Hl & Hr); apply lift_Ok in Hl as [_ <-]).
    apply rtx_bind_Ok in Hr as (e1 & st1 & Hp%Hprepared & Hr).
    do 2 (apply rtx_bind_Ok in Hr as (? & ? & _ & Hr)). apply rtx_ret_Ok in Hr as [<- _]. by apply minimized_made.
Qed.

Lemma human_event_made principal participant payload sequence now st e r st' :
  prepare_human_message_event principal participant payload sequence now st = Ok ((e, r), st') ->
  made_event (uuid_at (st_drawn st)) sequence e.
Proof.
  unfold prepare_human_message_event. destruct (bool_decide _); intros Hr.
  - apply rtx_bind_Ok in Hr as (command & st1 & Hl & Hr). apply lift_Ok in Hl as [_ <-].
    cbv zeta in Hr. apply rtx_bind_Ok in Hr as (e1 & st1 & Hv & Hr). apply rtx_ret_Ok in Hr as [[= <- _] _].
    by apply apply_vote_command_made in Hv.
  - apply rtx_bind_Ok in Hr as (command & st1 & Hl & Hr). apply lift_Ok in Hl as [_ <-].
    apply rtx_bind_Ok in Hr as (? & st1 & Hl & Hr). apply reads_Ok in Hl as [_ <-].
    apply rtx_bind_Ok in Hr as (id & st1 & [-> ->]%draw_uuid_Ok & Hr).
    apply rtx_bind_Ok in Hr as (e1 & st1 & Hl & Hr). apply lift_Ok in Hl as [He%lift_rejection_Ok <-]. cbv zeta in Hr.
    do 2 (apply rtx_bind_Ok in Hr as (? & ? & _ & Hr)). apply rtx_ret_Ok in Hr as [[= <- _] _].
    apply with_attachments_made. by apply message_event_made in He.
Qed.
(** ** What posting leaves alone *)

(** Answers stay, sent attachments stay where they were sent. *)
Record posts (st st' : RoomStore) : Prop := MkPosts {
  po_rooms : st_rooms st' = st_rooms st;
  po_participants : st_participants st' = st_participants st;
  po_reservations : st_reservations st' = st_reservations st;
  po_deleted : st_deleted st' = st_deleted st;
  po_quiescing : st_quiescing st' = st_quiescing st;
  po_commands : st_commands st ⊆ st_commands st';
  po_sent : forall id row, st_attachments st !! id = Some row -> mr_bound row = true -> st_attachments st' !! id = Some row;
  po_drawn : (st_drawn st <= st_drawn st')%nat
}.
#[local] Instance posts_preorder : PreOrder posts.
Proof. split; [by intros st; split|]. intros a b c [] []. split; try congruence; [by etrans|by eauto|lia]. Qed.

Lemma calm_posts st st' : calm st st' -> posts st st'.
Proof.
  intros Hc. split; try apply Hc.
  - by rewrite (ca_commands _ _ Hc).
  - intros id row. by rewrite (ca_attachments _ _ Hc).
Qed.
Lemma keeps_calm_posts {A} (m : rtx A) : keeps calm m -> keeps posts m.
Proof. intros Hm st a st' Hr. by apply calm_posts, (Hm _ a). Qed.
#[local] Hint Extern 5 (keeps posts _) => apply keeps_calm_posts : keeps.

Lemma reserve_budget_posts room_id now bytes : keeps posts (reserve_budget room_id now bytes).
Proof. intros st t st'. unfold reserve_budget. intros (? & _ & [= _ <-])%bind_Ok. by split. Qed.
Lemma store_command_result_posts key action hash result : keeps posts (store_command_result key action hash result).
Proof.
  intros st t st'. unfold store_command_result. intros (commands & [Hn ->]%insert_row_Ok & [= _ <-])%bind_Ok.
  split; try done. simpl. by apply insert_subseteq.
Qed.
Lemma may_send_not_bound principal now row : may_send principal now row = true -> mr_bound row = false.
Proof. unfold may_send. intros Hm. by bool_to_prop. Qed.
Lemma bind_message_attachment_posts principal seq now id : keeps posts (bind_message_attachment principal seq now id).
Proof.
  intros st t st'. unfold bind_message_attachment. destruct (st_attachments st !! id) as [row|] eqn:E; [|done].
  destruct (may_send principal now row) eqn:Em; [|done]. intros [= _ <-]. apply may_send_not_bound in Em. split; try done.
  simpl. intros id' row' Hr Hb. rewrite lookup_insert_ne; [done|]. intros <-. congruence.
Qed.
Lemma bind_message_attachments_posts principal ids seq now : keeps posts (bind_message_attachments principal ids seq now).
Proof. unfold bind_message_attachments. apply (keeps_for_each _). intros id. apply bind_message_attachment_posts. Qed.

(** *** Votes *)

Lemma insert_vote_state_posts e : keeps posts (insert_vote_state e).
Proof. intros st t st' (k & seq & n & _ & ->)%insert_vote_state_Ok. by split. Qed.
Lemma save_vote_state_posts stored : keeps posts (save_vote_state stored).
Proof. intros st t st' (row & _ & ->)%save_vote_state_Ok. by split. Qed.
Lemma replace_ballot_posts participant stored i : keeps posts (replace_ballot participant stored i).
Proof. intros st t st' (previous & _ & -> & _)%replace_ballot_Ok. case_match; by split. Qed.
Lemma remove_ballot_posts participant stored : keeps posts (remove_ballot participant stored).
Proof. intros st t st' ([j|] & _ & _ & _ & Hst)%remove_ballot_Ok; destruct Hst as [-> _]; by split. Qed.
#[local] Hint Resolve reserve_budget_posts store_command_result_posts bind_message_attachments_posts insert_vote_state_posts
  save_vote_state_posts replace_ballot_posts remove_ballot_posts : keeps.

Lemma apply_vote_command_posts principal participant command sequence now :
  keeps posts (apply_vote_command principal participant command sequence now).
Proof. unfold apply_vote_command. keeps. Qed.
#[local] Hint Resolve apply_vote_command_posts : keeps.

Lemma prepare_human_message_event_posts principal participant payload sequence now :
  keeps posts (prepare_human_message_event principal participant payload sequence now).
Proof. unfold prepare_human_message_event. keeps. Qed.
#[local] Hint Resolve prepare_human_message_event_posts : keeps.

Lemma admit_posts key action hash bytes now : keeps posts (admit_non_lifecycle_command key action hash bytes now).
Proof. unfold admit_non_lifecycle_command. keeps. Qed.
#[local] Hint Resolve admit_posts : keeps.

Lemma execute_message_in_posts principal request_id action payload now :
  keeps posts (execute_message_in principal request_id action payload now).
Proof. unfold execute_message_in. keeps. Qed.
(** ** A request is answered once *)

(** What keeps the answers that were given: a request that was answered keeps its row, is not reserved for a command
    of the lifecycle, and is not marked as deleted. *)
Record answers (st st' : RoomStore) : Prop := MkAnswers {
  an_commands : st_commands st ⊆ st_commands st';
  an_reservations : forall key, is_Some (st_commands st !! key) -> st_reservations st !! key = None -> st_reservations st' !! key = None;
  an_deleted : forall key, is_Some (st_commands st !! key) -> key ∉ st_deleted st -> key ∉ st_deleted st'
}.
#[local] Instance answers_preorder : PreOrder answers.
Proof.
  split; [by intros st; split|]. intros a b c [Cab Rab Dab] [Cbc Rbc Dbc].
  assert (forall key, is_Some (st_commands a !! key) -> is_Some (st_commands b !! key)) as Hkept.
  { intros key [row Hrow]. exists row. by eapply lookup_weaken. }
  split; [by etrans|..]; eauto.
Qed.
Lemma same_answers st st' :
  st_reservations st' = st_reservations st -> st_deleted st' = st_deleted st -> st_commands st ⊆ st_commands st' -> answers st st'.
Proof. intros Hr Hd Hc. split; [done|intros key _; by rewrite Hr|intros key _; by rewrite Hd]. Qed.
Lemma posts_answers st st' : posts st st' -> answers st st'.
Proof. intros Hp. apply same_answers; apply Hp. Qed.
Lemma keeps_posts_answers {A} (m : rtx A) : keeps posts m -> keeps answers m.
Proof. intros Hm st a st' Hr. by apply posts_answers, (Hm _ a). Qed.
#[local] Hint Extern 5 (keeps answers _) => apply keeps_posts_answers : keeps.

Lemma replace_event_Ok e st t st' :
  replace_event e st = Ok (t, st') ->
  is_Some (st_events st !! (ev_room_id e, ev_seq e)) /\
  st' = st <| st_events := <[(ev_room_id e, ev_seq e) := e]> (st_events st) |>.
Proof. unfold replace_event. case_match; [|done]. intros [= _ <-]. split; [by eexists|done]. Qed.
Lemma replace_event_answers e : keeps answers (replace_event e).
Proof. intros st t st' [_ ->]%replace_event_Ok. by apply same_answers. Qed.
Lemma delete_vote_projection_answers room_id vote_id seq : keeps answers (delete_vote_projection room_id vote_id seq).
Proof. intros st t st'. unfold delete_vote_projection. repeat case_match; [intros [= _ <-]; by apply same_answers|done..]. Qed.
Lemma remove_message_pin_answers room_id event_id : keeps answers (remove_message_pin room_id event_id).
Proof. apply (keeps_modifies _). intros st. by apply same_answers. Qed.
Lemma delete_bound_answers event : keeps answers (delete_bound_message_attachments event).
Proof.
  intros st ids st'. unfold delete_bound_message_attachments. intros (? & _ & Hr)%bind_Ok. cbv zeta in Hr.
  apply bind_Ok in Hr as ([] & _ & [= _ <-]). by apply same_answers.
Qed.
#[local] Hint Resolve replace_event_answers delete_vote_projection_answers remove_message_pin_answers delete_bound_answers
  execute_message_in_posts : keeps.

Lemma execute_message_mutation_in_answers principal request_id action payload now :
  keeps answers (execute_message_mutation_in principal request_id action payload now).
Proof. unfold execute_message_mutation_in, edit_message, delete_message. keeps. Qed.

(** A room at work: messages are posted and changed, the floor moves, and anything else happens that keeps the answers
    that were given. *)
Inductive room_move (st st' : RoomStore) : Prop :=
| RmMessage principal request_id action payload now m :
    execute_message_in principal request_id action payload now st = Ok (m, st') -> room_move st st'
| RmMutation principal request_id action payload now outcome :
    execute_message_mutation_in principal request_id action payload now st = Ok (outcome, st') -> room_move st st'
| RmFloor : calm st st' -> room_move st st'
| RmOther : answers st st' -> room_move st st'.

Lemma room_moves_answers st st' : rtc room_move st st' -> answers st st'.
Proof.
  induction 1 as [|a b c Hab _ IH]; [done|]. transitivity b; [|done].
  destruct Hab as [principal request_id action payload now m Hr|principal request_id action payload now m Hr|Hc|Ha]; [..|done].
  - by apply posts_answers, (execute_message_in_posts _ _ _ _ _ _ _ _ Hr).
  - by apply (execute_message_mutation_in_answers _ _ _ _ _ _ _ _ Hr).
  - by apply posts_answers, calm_posts.
Qed.

(** *** The answer that is stored *)

Definition replay_of (result : value) (event : RoomEvent) : CommandOutcome := MkCommandOutcome result event [event] true.

Lemma stored_answer event sequence :
  deserialize_event (serialize_event event) = Some event ->
  stored_outcome (VObject [(u "event", serialize_event event); (u "event_seq", VInt sequence)]) =
    Ok (replay_of (VObject [(u "event", serialize_event event); (u "event_seq", VInt sequence)]) event).
Proof.
  intros He. unfold stored_outcome. cbv zeta. cbn [as_object].
  set (object := [(u "event", serialize_event event); (u "event_seq", VInt sequence)]).
  assert (get object (u "event") = Some (serialize_event event)) as Hget by done.
  assert (get object (u "events") = None) as Hnone by done.
  unfold mbind, option_bind. rewrite Hget, Hnone. simpl. by rewrite He.
Qed.

Lemma admit_None key action hash bytes now st st' :
  admit_non_lifecycle_command key action hash bytes now st = Ok (None, st') ->
  key ∉ st_deleted st /\ st_commands st !! key = None /\ st_reservations st !! key = None /\
  st_events st' = st_events st /\ st_drawn st' = st_drawn st /\ st_sessions st' = st_sessions st /\ st_rooms st' = st_rooms st.
Proof.
  unfold admit_non_lifecycle_command. intros Hr. apply rtx_bind_Ok in Hr as (outcome & st1 & Ho & Hr).
  apply reads_Ok in Ho as [Ho <-]. destruct outcome; [by apply rtx_ret_Ok in Hr as [? _]|].
  apply rtx_bind_Ok in Hr as (? & st1 & Hb & Hr). apply rtx_ret_Ok in Hr as [_ <-].
  unfold reserve_budget in Hb. apply bind_Ok in Hb as (? & _ & [= _ <-]).
  unfold inspect_non_lifecycle_command in Ho. apply bind_Ok in Ho as (? & He & Ho). apply bind_Ok in Ho as ([] & Hres & Ho).
  apply bind_Ok in Ho as ([] & _ & [= ->]). unfold existing_command in He. apply bind_Ok in He as ([] & Hd & He).
  apply reject_if_Ok, bool_decide_eq_false in Hd, Hres. destruct (st_commands st !! key).
  { apply bind_Ok in He as ([] & _ & He). destruct (stored_outcome _); done. }
  split_and!; try done. by destruct (st_reservations st !! key); [destruct Hres|].
Qed.

Lemma admit_Some key action hash bytes now st outcome st' :
  admit_non_lifecycle_command key action hash bytes now st = Ok (Some outcome, st') <->
  st' = st /\ key ∉ st_deleted st /\ st_reservations st !! key = None /\
  exists row, st_commands st !! key = Some row /\ cr_action row = action /\ cr_payload_hash row = hash /\
    stored_outcome (cr_result row) = Ok outcome.
Proof.
  unfold admit_non_lifecycle_command, inspect_non_lifecycle_command, existing_command. split.
  - intros Hr. apply rtx_bind_Ok in Hr as (found & st1 & Ho & Hr). apply reads_Ok in Ho as [Ho <-].
    destruct found as [o|]; [|by apply rtx_bind_Ok in Hr as (? & ? & _ & [? _]%rtx_ret_Ok)].
    apply rtx_ret_Ok in Hr as [[= ->] <-]. apply bind_Ok in Ho as (x & He & Ho). apply bind_Ok in Ho as ([] & Hres & Ho).
    apply bind_Ok in Ho as ([] & _ & [= ->]). apply bind_Ok in He as ([] & Hd & He).
    apply reject_if_Ok, bool_decide_eq_false in Hd, Hres. destruct (st_commands st !! key) as [row|]; [|done].
    apply bind_Ok in He as ([] & Hm%reject_if_Ok & He). apply orb_false_iff in Hm as [Ha Hh].
    apply negb_false_iff, str_eqb_true in Ha, Hh. split_and!; [done|done| |].
    + by destruct (st_reservations st !! key); [destruct Hres|].
    + exists row. split_and!; [done..|]. destruct (stored_outcome _); [by injection He as ->|done].
  - intros (-> & Hd & Hres & row & Hrow & <- & <- & Ho).
    assert (inspect_non_lifecycle_command key (cr_action row) (cr_payload_hash row) st = Ok (Some outcome)) as Hi.
    { unfold inspect_non_lifecycle_command, existing_command, reject_deleted_request_reuse, reject_reserved_request_id.
      rewrite (bool_decide_false _ Hd), Hrow, !(proj2 (str_eqb_true _ _) eq_refl), Ho, Hres. done. }
    unfold inspect_non_lifecycle_command, existing_command in Hi. unfold mbind at 1, rtx_bind, reads. rewrite Hi. done.
Qed.

(** What an answered message leaves: the row of its answer, under its request. *)
Lemma execute_message_in_row principal request_id action payload now st m st' :
  (forall t, parse_rfc3339 (datetime_json t) = Some t) ->
  (forall room_id, - 2 ^ 63 <= next_sequence room_id st <= i64_max) ->
  execute_message_in principal request_id action payload now st = Ok (m, st') ->
  let key := command_key principal request_id in
  key ∉ st_deleted st' /\ st_reservations st' !! key = None /\
  exists row o, st_commands st' !! key = Some row /\ cr_action row = action /\ cr_payload_hash row = canonical_payload_hash payload /\
    stored_outcome (cr_result row) = Ok o /\ co_result o = co_result (cm_outcome m) /\ co_event o = co_event (cm_outcome m) /\
    co_deduplicated o = true.
Proof.
  intros Htime Hseq Hr. pose proof (execute_message_in_posts _ _ _ _ _ _ _ _ Hr) as Hposts. cbv zeta.
  rewrite (po_deleted _ _ Hposts), (po_reservations _ _ Hposts). unfold execute_message_in in Hr. cbv zeta in Hr.
  apply rtx_bind_Ok in Hr as ([room settings] & st1 & Hl & Hr). apply reads_Ok in Hl as [_ <-].
  apply rtx_bind_Ok in Hr as ([outcome|] & st1 & Ha & Hr).
  - apply rtx_ret_Ok in Hr as [<- <-]. apply admit_Some in Ha as (-> & Hd & Hres & row & Hrow & Haction & Hhash & Ho).
    split_and!; [done|done|]. exists row, outcome. split_and!; try done. unfold stored_outcome in Ho.
    apply bind_Ok in Ho as (? & _ & Ho). by apply bind_Ok in Ho as (? & _ & [= <-]).
  - apply admit_None in Ha as (Hd & Hnone & Hres & Hev & Hdrawn & _).
    split_and!; [done|done|]. apply rtx_bind_Ok in Hr as ([] & st2 & Hl & Hr). apply lift_Ok in Hl as [_ <-].
    apply rtx_bind_Ok in Hr as (participant & st2 & Hl & Hr). apply reads_Ok in Hl as [_ <-].
    apply rtx_bind_Ok in Hr as (sequence & st2 & Hl & Hr). apply reads_Ok in Hl as [[= <-] <-].
    apply rtx_bind_Ok in Hr as ([event route] & st2 & He & Hr).
    apply human_event_made in He. apply rtx_bind_Ok in Hr as (prepared & st3 & _ & Hr). cbv zeta in Hr.
    apply rtx_bind_Ok in Hr as ([] & st4 & Hs & Hr). apply rtx_ret_Ok in Hr as [<- <-].
    unfold store_command_result in Hs. apply bind_Ok in Hs as (? & [_ ->]%insert_row_Ok & [= <-]). simpl.
    rewrite lookup_insert_eq.
    set (result := VObject [(u "event", serialize_event event); (u "event_seq", VInt (next_sequence (pr_room_id principal) st1))]).
    exists (MkCommandResult action (canonical_payload_hash payload) result), (replay_of result event).
    split_and!; try reflexivity. apply stored_answer.
    apply event_roundtrip; [done|]. eapply made_event_ok; [exact He|].
    assert (next_sequence (pr_room_id principal) st1 = next_sequence (pr_room_id principal) st) as ->; [|done].
    unfold next_sequence, room_sequences. by rewrite Hev.
Qed.

(** A message that was accepted is answered again, whatever happened since, with what was stored: the same
    result and event, no new turn, and no change. *)

(** C16: an accepted message request repeated later while the room is active is answered
    with the stored result and event, begins no turn and changes nothing, whatever was
    posted, edited, deleted or moved on the floor since, and whatever else happened that
    kept the answers given (an answered request keeps its row and is neither reserved nor
    marked deleted). *)
Theorem exact_retry_replays principal request_id action payload now later st m st1 st2 :
  (forall t, parse_rfc3339 (datetime_json t) = Some t) ->
  (forall room_id, - 2 ^ 63 <= next_sequence room_id st <= i64_max) ->
  execute_message_in principal request_id action payload now st = Ok (m, st1) -> rtc room_move st1 st2 ->
  is_ok (load_active_room (pr_room_id principal) st2) = true ->
  exists replayed, execute_message_in principal request_id action payload later st2 = Ok (MkCommandMutation replayed [], st2) /\
    co_result replayed = co_result (cm_outcome m) /\ co_event replayed = co_event (cm_outcome m) /\ co_deduplicated replayed = true.
Proof.
  intros Htime Hseq Hr Hmoves Hactive.
  destruct (execute_message_in_row _ _ _ _ _ _ _ _ Htime Hseq Hr) as (Hd & Hres & row & o & Hrow & Ha & Hh & Ho & Hsame).
  apply room_moves_answers in Hmoves as [Hcom Hres2 Hdel].
  assert (is_Some (st_commands st1 !! command_key principal request_id)) as Hanswered by (by exists row).
  exists o. split; [|done]. unfold execute_message_in. cbv zeta.
  destruct (load_active_room (pr_room_id principal) st2) as [[room settings]|] eqn:Hload; [|done].
  apply rtx_bind_Ok. exists (room, settings), st2. split; [by apply reads_Ok|].
  apply rtx_bind_Ok. exists (Some o), st2. split; [|done]. apply admit_Some. split_and!; [done|by apply Hdel|by apply Hres2|].
  exists row. split_and!; try done. by eapply lookup_weaken.
Qed.

(** The identifier of an answered request serves no other command. *)

(** C17: the identifier of an answered request is refused, as a conflict, for any other
    action or payload, for posts and for edits and deletions alike. *)
Theorem request_reuse_refused principal request_id action payload now st row :
  is_ok (load_active_room (pr_room_id principal) st) = true ->
  st_commands st !! command_key principal request_id = Some row ->
  cr_action row <> action \/ cr_payload_hash row <> canonical_payload_hash payload ->
  execute_message_in principal request_id action payload now st = Err CommandConflict /\
  execute_message_mutation_in principal request_id action payload now st = Err CommandConflict.
Proof.
  intros Hroom Hrow Hdiff.
  assert (admit_non_lifecycle_command (command_key principal request_id) action (canonical_payload_hash payload)
    (command_size request_id action payload) now st = Err CommandConflict) as Ha.
  { unfold admit_non_lifecycle_command, inspect_non_lifecycle_command, existing_command, reject_deleted_request_reuse.
    unfold mbind at 1, rtx_bind, reads. destruct (bool_decide (_ ∈ st_deleted st)); [done|]. rewrite Hrow. simpl.
    destruct (str_eqb (cr_action row) action) eqn:Ea; [|done]. destruct (str_eqb (cr_payload_hash row) _) eqn:Eh; [|done].
    apply str_eqb_true in Ea, Eh. by destruct Hdiff. }
  unfold execute_message_in, execute_message_mutation_in. cbv zeta. split.
  - unfold mbind at 1, rtx_bind at 1, reads at 1, lift. destruct (load_active_room _ st) as [[room settings]|]; [|done].
    unfold mbind at 1, rtx_bind at 1. by rewrite Ha.
  - unfold mbind at 1, rtx_bind at 1. by rewrite Ha.
Qed.

(** ** An attachment is sent once *)

(** Each row stays as it is, or was the principal's to send and is bound to the message. *)
Definition sends (principal : AuthenticatedPrincipal) (sequence now : Z) (st st' : RoomStore) : Prop :=
  forall id, st_attachments st' !! id = st_attachments st !! id \/
    exists row, st_attachments st !! id = Some row /\ may_send principal now row = true /\
      st_attachments st' !! id = Some (bound_row sequence row).
#[local] Instance sends_preorder principal sequence now : PreOrder (sends principal sequence now).
Proof.
  split; [by intros st id; left|]. intros a b c Hab Hbc id. destruct (Hbc id) as [-> | (row & Hrow & Hsend & Hc)]; [apply Hab|].
  destruct (Hab id) as [Heq | (row0 & _ & _ & Hb)].
  - right. exists row. by rewrite <- Heq.
  - rewrite Hb in Hrow. injection Hrow as <-. by apply may_send_not_bound in Hsend.
Qed.
Lemma keeps_same_sends {A} principal sequence now (m : rtx A) :
  keeps (fun st st' => st_attachments st' = st_attachments st) m -> keeps (sends principal sequence now) m.
Proof. intros Hm st a st' Hr id. left. by rewrite (Hm _ _ _ Hr). Qed.
Lemma keeps_calm_sends {A} principal sequence now (m : rtx A) : keeps calm m -> keeps (sends principal sequence now) m.
Proof. intros Hm. apply keeps_same_sends. intros st a st' Hr. apply (ca_attachments _ _ (Hm _ _ _ Hr)). Qed.
#[local] Hint Extern 5 (keeps (sends _ _ _) _) => apply keeps_calm_sends : keeps.

Lemma bind_message_attachment_sends principal sequence now id :
  keeps (sends principal sequence now) (bind_message_attachment principal sequence now id).
Proof.
  intros st t st'. unfold bind_message_attachment. destruct (st_attachments st !! id) as [row|] eqn:E; [|done].
  destruct (may_send principal now row) eqn:Em; [|done]. intros [= _ <-] id'. simpl. destruct (decide (id' = id)) as [->|Hne].
  - right. exists row. by rewrite lookup_insert_eq.
  - left. by rewrite lookup_insert_ne.
Qed.
Lemma bind_message_attachments_sends principal sequence now ids :
  keeps (sends principal sequence now) (bind_message_attachments principal ids sequence now).
Proof. unfold bind_message_attachments. apply (keeps_for_each _). intros id. apply bind_message_attachment_sends. Qed.
Lemma insert_vote_state_sends principal sequence now e : keeps (sends principal sequence now) (insert_vote_state e).
Proof. apply keeps_same_sends. by intros st t st' (k & seq & n & _ & ->)%insert_vote_state_Ok. Qed.
Lemma save_vote_state_sends principal sequence now stored : keeps (sends principal sequence now) (save_vote_state stored).
Proof. apply keeps_same_sends. by intros st t st' (row & _ & ->)%save_vote_state_Ok. Qed.
Lemma replace_ballot_sends principal sequence now participant stored i :
  keeps (sends principal sequence now) (replace_ballot participant stored i).
Proof. apply keeps_same_sends. intros st t st' (previous & _ & -> & _)%replace_ballot_Ok. by case_match. Qed.
Lemma remove_ballot_sends principal sequence now participant stored :
  keeps (sends principal sequence now) (remove_ballot participant stored).
Proof. apply keeps_same_sends. intros st t st' ([j|] & _ & _ & _ & Hst)%remove_ballot_Ok; by destruct Hst as [-> _]. Qed.
#[local] Hint Resolve bind_message_attachments_sends insert_vote_state_sends save_vote_state_sends replace_ballot_sends
  remove_ballot_sends : keeps.

Lemma prepare_human_message_event_sends principal participant payload sequence now :
  keeps (sends principal sequence (timestamp_seconds now)) (prepare_human_message_event principal participant payload sequence now).
Proof. unfold prepare_human_message_event, apply_vote_command. keeps. Qed.

(** Posting touches no attachment but those the sender still holds, and binds each to the one message. *)

(** posting a message touches no attachment but the pending ones of the sender, and
    binds each of them to that message for good. *)
Theorem attachment_is_sent_once principal request_id action payload now st m st' :
  execute_message_in principal request_id action payload now st = Ok (m, st') ->
  forall id row, st_attachments st' !! id = Some row ->
    st_attachments st !! id = Some row \/
    exists pending, st_attachments st !! id = Some pending /\ mr_bound pending = false /\
      mr_pending_owner pending = Some (pr_principal_id principal) /\
      row = bound_row (ev_seq (co_event (cm_outcome m))) pending /\ co_deduplicated (cm_outcome m) = false.
Proof.
  intros Hr id row Hrow. unfold execute_message_in in Hr. cbv zeta in Hr.
  apply rtx_bind_Ok in Hr as ([room settings] & st1 & Hl & Hr). apply reads_Ok in Hl as [_ <-].
  apply rtx_bind_Ok in Hr as ([outcome|] & st1 & Ha & Hr).
  { apply rtx_ret_Ok in Hr as [_ <-]. apply admit_Some in Ha as (-> & _). by left. }
  apply rtx_bind_Ok in Hr as ([] & st2 & Hl & Hr). apply lift_Ok in Hl as [_ <-].
  apply rtx_bind_Ok in Hr as (participant & st2 & Hl & Hr). apply reads_Ok in Hl as [_ <-].
  apply rtx_bind_Ok in Hr as (sequence & st2 & Hl & Hr). apply reads_Ok in Hl as [[= <-] <-].
  apply rtx_bind_Ok in Hr as ([event route] & st2 & He & Hr). pose proof (me_seq _ _ _ (human_event_made _ _ _ _ _ _ _ _ _ He)) as Hseq.
  apply prepare_human_message_event_sends in He.
  apply rtx_bind_Ok in Hr as (prepared & st3 & Hp & Hr). cbv zeta in Hr.
  assert (st_attachments st3 = st_attachments st2) as Hsame3.
  { apply ca_attachments. revert Hp. match goal with |- ?op _ = _ -> _ => enough (keeps calm op) as Hk by apply Hk end. keeps. }
  apply rtx_bind_Ok in Hr as ([] & st4 & Hs & Hr). apply rtx_ret_Ok in Hr as [<- <-].
  unfold store_command_result in Hs. apply bind_Ok in Hs as (? & _ & [= <-]). simpl in *. rewrite Hsame3 in Hrow.
  assert (st_attachments st1 = st_attachments st) as Hsame1.
  { unfold admit_non_lifecycle_command in Ha. apply rtx_bind_Ok in Ha as (o & st5 & Ho & Ha). apply reads_Ok in Ho as [_ <-].
    destruct o; [by apply rtx_ret_Ok in Ha as [? _]|]. apply rtx_bind_Ok in Ha as (? & st5 & Hb & Ha).
    apply rtx_ret_Ok in Ha as [_ <-]. unfold reserve_budget in Hb. by apply bind_Ok in Hb as (? & _ & [= _ <-]). }
  destruct (He id) as [Heq | (pending & Hpending & Hsend & Hbound)].
  - left. by rewrite <- Hsame1, <- Heq.
  - right. exists pending. rewrite <- Hsame1. rewrite Hbound in Hrow. injection Hrow as <-. rewrite Hseq.
    split; [done|]. split; [by apply may_send_not_bound in Hsend|]. split; [|done]. unfold may_send in Hsend. by bool_to_prop.
Qed.

(** ** Deleting a message *)

(** Nothing of the message is left but its place. *)
Record erased (target : RoomEvent) (st : RoomStore) : Prop := MkErased {
  er_event : exists e, st_events st !! (ev_room_id target, ev_seq target) = Some e /\ ev_content e = Some [] /\
    ev_extra e !! u "message_deleted" = Some (VBool true) /\ ev_extra e !! u "attachments" = Some (VArray []);
  er_attachments : forall id row, st_attachments st !! id = Some row -> is_bound_to (ev_room_id target) (ev_seq target) row = false;
  er_pin : (ev_room_id target, ev_id target) ∉ st_pins st;
  er_queues : forall session_id s, st_sessions st !! (ev_room_id target, session_id) = Some s ->
    ev_id target ∉ input_ids (d_pending_inputs s);
  er_vote : mutable_kind (ev_message_kind target) = Some KindVote ->
    st_votes st !! (ev_room_id target, ev_id target) = None /\
    forall participant_id, st_ballots st !! (ev_room_id target, ev_id target, participant_id) = None
}.

Lemma delete_bound_Ok event st ids st' :
  delete_bound_message_attachments event st = Ok (ids, st') ->
  st' = st <| st_attachments := filter (fun e => is_bound_to (ev_room_id event) (ev_seq event) e.2 = false) (st_attachments st) |>.
Proof.
  unfold delete_bound_message_attachments. intros (? & _ & Hr)%bind_Ok. cbv zeta in Hr. by apply bind_Ok in Hr as ([] & _ & [= _ <-]).
Qed.

Lemma delete_vote_projection_Ok room_id vote_id seq st t st' :
  delete_vote_projection room_id vote_id seq st = Ok (t, st') ->
  st' = st <| st_votes := delete (room_id, vote_id) (st_votes st) |>
           <| st_ballots := filter (fun e => e.1.1 <> (room_id, vote_id)) (st_ballots st) |>.
Proof. unfold delete_vote_projection. case_match; [|done]. case_match; [|done]. by intros [= _ <-]. Qed.

Lemma remove_pending_gone event_id s : event_id ∉ input_ids (d_pending_inputs (remove_pending event_id s)).
Proof.
  unfold remove_pending, input_ids. simpl. intros (i & -> & Hi)%list_elem_of_fmap. by apply list_elem_of_filter in Hi as [Hne _].
Qed.

(** After the removal no session of the room waits for the message. *)
Lemma remove_pending_input_reference_Ok room_id event_id st t st' :
  store_ok st -> remove_pending_input_reference room_id event_id st = Ok (t, st') ->
  forall session_id s, st_sessions st' !! (room_id, session_id) = Some s -> event_id ∉ input_ids (d_pending_inputs s).
Proof.
  intros Hok Hr sid s Hs. unfold remove_pending_input_reference in Hr.
  apply rtx_bind_Ok in Hr as (sessions & st1 & Hl & Hr). apply reads_Ok in Hl as [->%load_room_sessions_Ok <-].
  eapply save_loop_Ok in Hr as [_ Hst']; [|done|done|by apply room_rows_NoDup|intros s0; by apply rows_stored].
  rewrite Hst' in Hs. apply fmap_Some in Hs as (s0 & Hs0 & ->).
  assert (bool_decide ((room_id, sid) ∈ map session_key (room_rows room_id st)) = true) as ->.
  { apply bool_decide_eq_true, list_elem_of_fmap. exists s0. rewrite (so_keyed _ Hok _ _ Hs0). split; [done|].
    apply elem_of_room_rows. by exists sid. }
  simpl. destruct (any _ (d_pending_inputs s0)) eqn:Ea; [apply remove_pending_gone|].
  apply any_false_Forall in Ea. rewrite Forall_forall in Ea. intros (i & -> & Hi)%list_elem_of_fmap. apply Ea in Hi.
  by rewrite (proj2 (str_eqb_true _ _) eq_refl) in Hi.
Qed.

Lemma delete_message_erases principal target sequence now st updated mutation result st' :
  store_ok st -> ev_room_id target = pr_room_id principal ->
  delete_message principal target sequence now st = Ok ((updated, mutation, result), st') ->
  erased target st' /\ ev_room_id mutation = ev_room_id target /\ ev_seq mutation = sequence.
Proof.
  intros Hok Hroom Hr. unfold delete_message in Hr. rewrite <- Hroom in Hr.
  apply rtx_bind_Ok in Hr as (author & st1 & Hl & Hr). apply reads_Ok in Hl as [_ <-].
  apply rtx_bind_Ok in Hr as (kind & st1 & Hl & Hr). apply lift_Ok in Hl as [Hkind%lift_rejection_Ok <-].
  assert (mutable_kind (ev_message_kind target) = Some kind) as Hmutable.
  { unfold authorize_message_delete in Hkind. apply bind_Ok in Hkind as ([] & _ & Hk).
    apply bind_Ok in Hk as (k & (_ & Hm & _)%require_mutable_message_ok & Hk). cbv zeta in Hk.
    apply bind_Ok in Hk as ([] & _ & Hk). apply bind_Ok in Hk as ([] & _ & [= <-]). done. }
  apply rtx_bind_Ok in Hr as (ids & st1 & ->%delete_bound_Ok & Hr).
  apply rtx_bind_Ok in Hr as ([] & st2 & Hp & Hr). apply modifies_Ok in Hp as ->.
  apply rtx_bind_Ok in Hr as ([] & st3 & Hv & Hr).
  apply rtx_bind_Ok in Hr as ([] & st4 & Hq & Hr). cbv zeta in Hr.
  apply rtx_bind_Ok in Hr as ([] & st5 & [_ ->]%replace_event_Ok & Hr).
  apply rtx_bind_Ok in Hr as (id & st6 & [_ ->]%draw_uuid_Ok & Hr). apply rtx_ret_Ok in Hr as [[= _ <- _] <-].
  assert (calm st3 st4) as Hcalm by (eapply remove_pending_input_reference_calm; exact Hq).
  match type of Hv with _ ?st0 = _ => set (cleared := st0) in * end.
  assert (store_ok st3 /\ st_attachments st3 = st_attachments cleared /\ st_pins st3 = st_pins cleared) as (Hok3 & Ha3 & Hp3).
  { destruct (bool_decide (kind = KindVote)).
    - apply delete_vote_projection_Ok in Hv as ->. split; [|done]. by destruct Hok.
    - apply rtx_ret_Ok in Hv as [_ <-]. split; [|done]. by destruct Hok. }
  split; [|done]. split; simpl.
  - destruct kind; rewrite lookup_insert_eq; (eexists; split; [done|]; split; [done|]; simpl; split; by map_lit).
  - intros aid row Hrow. rewrite (ca_attachments _ _ Hcalm), Ha3 in Hrow. by apply map_lookup_filter_Some in Hrow as [_ Hb].
  - rewrite (ca_pins _ _ Hcalm), Hp3. set_solver.
  - exact (remove_pending_input_reference_Ok _ _ _ _ _ Hok3 Hq).
  - rewrite Hmutable. intros [= ->]. rewrite bool_decide_true in Hv by done. apply delete_vote_projection_Ok in Hv as ->.
    rewrite (ca_votes _ _ Hcalm), (ca_ballots _ _ Hcalm). simpl. split; [by rewrite lookup_delete_eq|].
    intros x. apply map_lookup_filter_None. right. intros w _ Hne. by apply Hne.
Qed.

(** Deleting a message takes its text, its attachments, its pin, its votes and its place in every queue. *)

(** C18: deleting a message takes its text, its attachments, its pin, its votes and its
    place in every queue. *)
Theorem deleted_message_is_erased principal request_id payload now st outcome st' :
  store_ok st -> execute_message_mutation_in principal request_id (u "message.delete") payload now st = Ok (outcome, st') ->
  co_deduplicated outcome = false ->
  exists deletion target, message_delete_from_payload payload = Ok deletion /\
    load_event (pr_room_id principal) (md_event_id deletion) st = Ok (Some target) /\ erased target st'.
Proof.
  intros Hok Hr Hfresh. unfold execute_message_mutation_in in Hr. cbv zeta in Hr.
  apply rtx_bind_Ok in Hr as ([replay|] & st1 & Ha & Hr).
  { apply rtx_ret_Ok in Hr as [<- _]. apply admit_Some in Ha as (_ & _ & _ & row & _ & _ & _ & Ho). unfold stored_outcome in Ho.
    apply bind_Ok in Ho as (? & _ & Ho). by apply bind_Ok in Ho as (? & _ & [= <-]). }
  apply admit_None in Ha as (_ & _ & _ & Hev & _ & Hsessions & _).
  assert (store_ok st1) as Hok1 by (destruct Hok as [Hk Hp]; split; [rewrite Hsessions|rewrite Hev]; done).
  apply rtx_bind_Ok in Hr as ([target_id edit] & st2 & Hl & Hr). apply lift_Ok in Hl as [Hparse <-].
  unfold parse_mutation in Hparse.
  change (str_eqb (u "message.delete") (u "message.edit")) with false in Hparse.
  change (str_eqb (u "message.delete") (u "message.delete")) with true in Hparse.
  apply bind_Ok in Hparse as (deletion & Hd%lift_rejection_Ok & [= <- <-]).
  apply rtx_bind_Ok in Hr as (found & st2 & Hl & Hr). apply reads_Ok in Hl as [Hload <-].
  apply rtx_bind_Ok in Hr as (target & st2 & Hl & Hr). apply lift_Ok in Hl as [->%ok_or_Ok <-].
  assert (load_event (pr_room_id principal) (md_event_id deletion) st = Ok (Some target)) as Hload'.
  { revert Hload. unfold load_event. by rewrite Hev. }
  exists deletion, target. split; [done|]. split; [done|].
  apply rtx_bind_Ok in Hr as (sequence & st2 & Hl & Hr). apply reads_Ok in Hl as [[= <-] <-].
  apply rtx_bind_Ok in Hr as ([[updated mutation] result] & st2 & Hdel & Hr).
  destruct (load_event_Some _ _ _ _ Hload) as (Hroom & _ & Hstored).
  apply delete_message_erases in Hdel as ([He Hatt Hpin Hqueues Hvote] & Hmroom & Hmseq); [|done|done].
  apply rtx_bind_Ok in Hr as ([] & st3 & [Hnone ->]%insert_event_Ok & Hr).
  apply rtx_bind_Ok in Hr as ([] & st4 & Hs & Hr). apply rtx_ret_Ok in Hr as [_ <-].
  unfold store_command_result in Hs. apply bind_Ok in Hs as (? & _ & [= <-]).
  split; try done. simpl. destruct He as (e & He & Hrest). exists e. split; [|done].
  rewrite lookup_insert_ne; [done|]. intros Heq. rewrite Heq in Hnone. congruence.
Qed.
End messages.

(** ** Concrete inputs *)

#[local] Existing Instances ascii_general_category ascii_uppercase ascii_unicode_case plain_case identity_digest demo_entropy
  demo_persona accept_uuid every_instant no_parent demo_serde.
#[local] Existing Instance no_matches.

(** A clock that prints an instant as its sign and its size. *)
Definition plain_clock : Chrono :=
  let show := fun t : instant => [(if t <? 0 then 1%N else 0%N); Z.to_N (Z.abs t)] in
  {| to_rfc3339 := show; datetime_json := show;
     parse_rfc3339 := fun s => match s with
                               | [sign; size] => Some (if (sign =? 1)%N then - Z.of_N size else Z.of_N size)
                               | _ => None
                               end |}.
#[local] Existing Instance plain_clock.
Lemma plain_clock_back (t : instant) : parse_rfc3339 (datetime_json t) = Some t.
Proof.
  unfold datetime_json, parse_rfc3339. simpl. rewrite Z2N.id by lia. destruct (Z.ltb_spec t 0); simpl; f_equal; lia.
Qed.

Definition demo_payload (content : string) : value := VObject [(u "content", VString (u content))].
Abbreviation demo_post content now :=
  (execute_message_in demo_ann (u "r1") (u "message.send") (demo_payload content) now) (only parsing).
Definition no_mutation : RoomCommandMutation := MkCommandMutation (MkCommandOutcome VNull no_event [] false) [].
Definition demo_posted : RoomStore := step no_mutation (demo_post "hello agents" 3) (demo_store "ordered").
Definition demo_posted_outcome : RoomCommandMutation := value_of no_mutation (demo_post "hello agents" 3) (demo_store "ordered").
Lemma demo_posted_Ok : demo_post "hello agents" 3 (demo_store "ordered") = Ok (demo_posted_outcome, demo_posted).
Proof. unfold demo_posted_outcome, demo_posted. apply step_Ok. by vm_compute. Qed.

(** The message is stored and an agent begins to answer it. *)
Example demo_posted_room :
  (length (cm_assignments demo_posted_outcome), size (st_events demo_posted), size (st_commands demo_posted)) = (1%nat, 6%nat, 1%nat).
Proof. vm_compute. reflexivity. Qed.

Lemma demo_sequence room_id : next_sequence room_id (demo_store "ordered") <= 3.
Proof.
  assert (forall k e, st_events (demo_store "ordered") !! k = Some e -> k.2 <= 2) as Hk.
  { intros k e Hk. simpl in Hk. apply lookup_insert_Some in Hk as [[<- _] | [_ Hk]]; [simpl; lia|].
    apply lookup_insert_Some in Hk as [[<- _] | [_ Hk]]; [simpl; lia|]. by rewrite lookup_empty in Hk. }
  assert (Forall (fun s => s <= 2) (room_sequences room_id (demo_store "ordered"))) as Hall.
  { apply Forall_forall. intros s ([k e] & -> & [_ Hin]%list_elem_of_filter)%list_elem_of_fmap. apply elem_of_map_to_list in Hin.
    by eapply Hk. }
  unfold next_sequence. destruct (room_sequences _ _) as [|s l]; [lia|]. apply Forall_cons in Hall as [Hs Hl].
  assert (foldr Z.max s l <= 2) as Hf by (induction Hl; simpl; lia). lia.
Qed.

Lemma exact_retry_replays_witness :
  exists replayed, demo_post "hello agents" 9 demo_posted = Ok (MkCommandMutation replayed [], demo_posted) /\
    co_result replayed = co_result (cm_outcome demo_posted_outcome) /\
    co_event replayed = co_event (cm_outcome demo_posted_outcome) /\ co_deduplicated replayed = true.
Proof.
  apply (exact_retry_replays demo_ann (u "r1") (u "message.send") (demo_payload "hello agents") 3 9 (demo_store "ordered")
    demo_posted_outcome demo_posted demo_posted plain_clock_back); [|exact demo_posted_Ok|apply rtc_refl|by vm_compute].
  intros room_id. pose proof (demo_sequence room_id). pose proof (next_sequence_pos room_id _ (demo_store_ok "ordered")). unfold i64_max. lia.
Defined.

(** Ann sends a picture with her message. *)
Definition demo_picture_id : str := MESSAGE_ATTACHMENT_ID_PREFIX ++ repeat 48%N MESSAGE_ATTACHMENT_ID_HEX_LENGTH.
Definition demo_picture : MessageAttachmentRow :=
  MkAttachmentRow (u "room") (Some (u "principal")) None (u "a.png") (u "image/png") 3 true false (Some 100).
Definition demo_uploaded : RoomStore := (demo_store "ambient") <| st_attachments := {[demo_picture_id := demo_picture]} |>.
Definition demo_picture_payload : value :=
  VObject [(u "content", VString (u "look")); (u "attachment_ids", VArray [VString demo_picture_id])].
Abbreviation demo_send_picture := (execute_message_in demo_ann (u "r3") (u "message.send") demo_picture_payload 3) (only parsing).
Definition demo_sent_outcome : RoomCommandMutation := value_of no_mutation demo_send_picture demo_uploaded.
Definition demo_sent : RoomStore := step no_mutation demo_send_picture demo_uploaded.
Lemma demo_sent_Ok : demo_send_picture demo_uploaded = Ok (demo_sent_outcome, demo_sent).
Proof. unfold demo_sent_outcome, demo_sent. apply step_Ok. by vm_compute. Qed.
Lemma demo_sent_row : st_attachments demo_sent !! demo_picture_id = Some (bound_row 3 demo_picture).
Proof. vm_compute. reflexivity. Qed.

Lemma attachment_is_sent_once_witness :
  st_attachments demo_uploaded !! demo_picture_id = Some (bound_row 3 demo_picture) \/
  exists pending, st_attachments demo_uploaded !! demo_picture_id = Some pending /\ mr_bound pending = false /\
    mr_pending_owner pending = Some (u "principal") /\
    bound_row 3 demo_picture = bound_row (ev_seq (co_event (cm_outcome demo_sent_outcome))) pending /\
    co_deduplicated (cm_outcome demo_sent_outcome) = false.
Proof.
  exact (attachment_is_sent_once demo_ann (u "r3") (u "message.send") demo_picture_payload 3 demo_uploaded demo_sent_outcome
    demo_sent demo_sent_Ok demo_picture_id (bound_row 3 demo_picture) demo_sent_row).
Defined.

Definition demo_answer : CommandResult := default (MkCommandResult [] [] VNull) (st_commands demo_posted !! command_key demo_ann (u "r1")).
Lemma demo_answer_Some : st_commands demo_posted !! command_key demo_ann (u "r1") = Some demo_answer.
Proof.
  assert (negb (bool_decide (st_commands demo_posted !! command_key demo_ann (u "r1") = None)) = true) as Hs by (by vm_compute).
  unfold demo_answer. by destruct (st_commands demo_posted !! command_key demo_ann (u "r1")).
Qed.

Lemma request_reuse_refused_witness :
  demo_post "another" 9 demo_posted = Err CommandConflict /\
  execute_message_mutation_in demo_ann (u "r1") (u "message.send") (demo_payload "another") 9 demo_posted = Err CommandConflict.
Proof.
  apply (request_reuse_refused demo_ann (u "r1") (u "message.send") (demo_payload "another") 9 demo_posted demo_answer).
  - by vm_compute.
  - exact demo_answer_Some.
  - right. apply (bool_decide_unpack _). by vm_compute.
Defined.

Definition demo_deletion : value := VObject [(u "event_id", VString (u "m1"))].
Abbreviation demo_delete := (execute_message_mutation_in demo_ann (u "r2") (u "message.delete") demo_deletion 9) (only parsing).
Definition no_outcome : CommandOutcome := MkCommandOutcome VNull no_event [] false.

Lemma deleted_message_is_erased_witness :
  exists deletion target, message_delete_from_payload demo_deletion = Ok deletion /\
    load_event (u "room") (md_event_id deletion) (demo_store "ordered") = Ok (Some target) /\
    erased target (step no_outcome demo_delete (demo_store "ordered")).
Proof.
  refine (deleted_message_is_erased demo_ann (u "r2") demo_deletion 9 (demo_store "ordered")
    (value_of no_outcome demo_delete (demo_store "ordered")) (step no_outcome demo_delete (demo_store "ordered"))
    (demo_store_ok "ordered") _ _).
  - exact (step_Ok no_outcome demo_delete (demo_store "ordered") ltac:(by vm_compute)).
  - by vm_compute.
Defined.
