(* ===== verification/Reservations.v ===== *)
(** * Lifecycle requests (agentsassemble-persistence/src/agent_lifecycle_reservations.rs,
    agent_lifecycle_authority.rs and agentsassemble-domain/src/identity.rs)

    Starting or stopping an agent's runtime is an effect outside the store. The
    request that asks for it is reserved before the effect, under an identifier
    of the operation, and the reservation is removed when the effect is known to
    have taken place, or kept with the refusal when it is known not to. *)

From Stdlib Require Import String.
From stdpp Require Import gmap.
From S2P Require Import Prelude Text Diagnostic Json Bytes Model Command Settings Store Budget Turn RoomStore.
From S2P Require Import Authority Requests Execution Observation VoteStore Completion Messages.

(** ** identity.rs *)

(** The sha2 crate over bytes, printed in hexadecimal. *)
Class ByteDigest : Type := sha256_bytes : list N -> str.

(** [StableIdentityHasher]: what each write feeds the digest. *)
Definition hasher_write (bytes : list N) : list N := le_bytes 8 (N.of_nat (length bytes)) ++ bytes.
(** [str::hash] writes the bytes of the text and the byte 0xff. *)
Definition hash_str (s : str) : list N := hasher_write (utf8 s) ++ hasher_write [255%N].
(** [stable_identity_hash] of a tuple of strings *)
Definition stable_identity_hash `{ByteDigest} (fields : list str) : str :=
  u "identity-v1-" ++ sha256_bytes (fields ≫= hash_str).

Lemma hash_str_prefix a b x y :
  field_ok a -> field_ok b -> hash_str a ++ x = hash_str b ++ y -> a = b /\ x = y.
Proof.
  intros [Ha Hla] [Hb Hlb] H. unfold hash_str, hasher_write in H. rewrite <- !app_assoc in H.
  rewrite <- utf8_length in Hla, Hlb.
  apply app_inj_1 in H as [Hlen H]; [|by rewrite !le_bytes_length].
  apply le_bytes_inj in Hlen; [|done|done].
  apply app_inj_1 in H as [H Hrest]; [|lia].
  apply (app_inj_1 (le_bytes 8 (N.of_nat (length [255%N])) ++ [255%N]) (le_bytes 8 (N.of_nat (length [255%N])) ++ [255%N])) in Hrest as [_ Hrest];
    [|done]. split; [by apply utf8_inj|done].
Qed.

Lemma hash_list_inj l l' :
  Forall field_ok l -> Forall field_ok l' -> length l = length l' -> l ≫= hash_str = l' ≫= hash_str -> l = l'.
Proof.
  intros Hl. revert l'. induction Hl as [|a l Ha Hl IH]; intros [|b l'] Hl' Hlen H; try done.
  apply Forall_cons in Hl' as [Hb Hl']. simpl in H. apply hash_str_prefix in H as [-> H]; [|done|done].
  f_equal. apply IH; [done| |done]. by injection Hlen.
Qed.

(** ** agent_lifecycle_reservations.rs *)

Record LifecycleReservation : Type := MkReservation {
  rv_principal : AuthenticatedPrincipal;
  rv_request_id : str;
  rv_action : str;
  rv_payload_hash : str;
  rv_session_id : str;
  rv_operation_id : str;
  rv_phase : str;
  rv_prepared_result : str
}.
Definition new_reservation (principal : AuthenticatedPrincipal) (request_id action payload_hash session_id operation_id : str) :
    LifecycleReservation :=
  MkReservation principal request_id action payload_hash session_id operation_id (u "lifecycle_prepared") (u "{}").
Definition reservation_key (r : LifecycleReservation) : str * str * str := command_key (rv_principal r) (rv_request_id r).

Definition PENDING : str := u "pending".
Definition REJECTED : str := u "rejected".

Definition invalid_reservation : PersistenceError :=
  rejected_tx "stale_lifecycle_reservation" "Provider lifecycle command reservation is missing or inconsistent.".
Definition awaits_reconciliation : PersistenceError :=
  CommandUnresolved (u "runtime_effect_unconfirmed")
    (u "The original provider effect belongs to a previous server runtime and awaits server-owned reconciliation.").
Definition stored_rejection_invalid : PersistenceError :=
  CommandUnresolved (u "stored_command_rejection_invalid") (u "Stored terminal command rejection is invalid.").

Definition load_lifecycle_reservation (key : str * str * str) (st : RoomStore) : option LifecycleRow := st_reservations st !! key.

(** The row of exactly this reservation, but for its status. *)
Definition reservation_matches (r : LifecycleReservation) (row : LifecycleRow) : bool :=
  str_eqb (lr_action row) (rv_action r) && str_eqb (lr_payload_hash row) (rv_payload_hash r)
  && str_eqb (lr_session_id row) (rv_session_id r) && str_eqb (lr_operation_id row) (rv_operation_id r)
  && str_eqb (lr_phase row) (rv_phase r) && str_eqb (lr_prepared_result row) (rv_prepared_result r).
Definition reservation_pending (r : LifecycleReservation) (row : LifecycleRow) : bool :=
  reservation_matches r row && str_eqb (lr_status row) PENDING.

(** room_runtime_cleanup.rs *)
Definition cleanup_exists (room_id session_id : str) (st : RoomStore) : bool :=
  bool_decide ((room_id, session_id) ∈ st_cleanups st).
Definition is_external (public : AgentSession) : bool :=
  s_external_owned public && str_eqb (s_process_ownership public) (u "external").

(** attendee_stop.rs: [owns_pending_reservation] *)
Definition owns_pending_reservation (r : LifecycleReservation) (st : RoomStore) : tx bool :=
  if negb (str_eqb (rv_action r) (u "agent.stop")) then Ok false
  else
    session ← load_session (pr_room_id (rv_principal r)) (rv_session_id r) st;
    mret (is_external (d_public session)
          && bool_decide (d_lifecycle_intent_action session = ActionStop)
          && str_eqb (d_lifecycle_intent_id session) (rv_operation_id r)
          && bool_decide (d_lifecycle_intent_status session = IntentEffectInflight)
          && cleanup_exists (s_room_id (d_public session)) (s_session_id (d_public session)) st).

Section reservations.
Context `{RegexCrate, ByteDigest, ChronoRange}.

(** agent_lifecycle_authority.rs *)
Definition lifecycle_operation_id (principal : AuthenticatedPrincipal) (request_id action : str) : str :=
  stable_identity_hash [u "agentsassemble-lifecycle-operation-v1"; pr_room_id principal; pr_principal_id principal; request_id; action].

Definition failure_code_char (c : char) : bool := is_ascii_alphanumeric c || contains (u "_-.") c.

Definition validate_stored_rejection (failure_code failure_message : str) : tx unit :=
  let code_valid := negb (str_empty failure_code) && (byte_len failure_code <=? 128)%nat && all failure_code_char failure_code in
  reject_if (negb code_valid || str_empty failure_message || (512 <? length failure_message)%nat
             || negb (str_eqb (redact_persisted_diagnostic_text failure_message 512) failure_message)) stored_rejection_invalid.

Definition stored_rejection (failure_code failure_message : str) : PersistenceError :=
  match validate_stored_rejection failure_code failure_message with
  | Ok _ => StoredCommandRejected failure_code failure_message
  | Err e => e
  end.

Definition reserved_row (generation : str) (r : LifecycleReservation) (payload : value) : LifecycleRow :=
  {| lr_action := rv_action r; lr_payload_hash := rv_payload_hash r; lr_principal := rv_principal r; lr_payload := payload;
     lr_supervisor_generation := generation; lr_session_id := rv_session_id r; lr_operation_id := rv_operation_id r;
     lr_status := PENDING; lr_phase := rv_phase r; lr_prepared_result := rv_prepared_result r;
     lr_failure_code := []; lr_failure_message := [] |}.

Definition reuse_reservation (generation : str) (r : LifecycleReservation) (row : LifecycleRow) (st : RoomStore) : tx unit :=
  reject_if (str_empty (lr_supervisor_generation row)) invalid_reservation ;;
  require (reservation_matches r row) CommandConflict ;;
  (if str_eqb (lr_status row) PENDING && negb (str_eqb (lr_supervisor_generation row) generation) then
     owned ← owns_pending_reservation r st; require owned awaits_reconciliation
   else Ok tt) ;;
  if str_eqb (lr_status row) PENDING then Ok tt
  else if str_eqb (lr_status row) REJECTED then Err (stored_rejection (lr_failure_code row) (lr_failure_message row))
  else Err invalid_reservation.

(** [generation] is the runtime that runs: [SqliteStore::runtime_generation]. *)
Definition claim_lifecycle_command (generation : str) (r : LifecycleReservation) (payload : value) (reserves_budget : bool)
    (now : instant) : rtx unit :=
  existing ← reads (fun st => Ok (load_lifecycle_reservation (reservation_key r) st));
  match existing with
  | Some row => reads (reuse_reservation generation r row)
  | None =>
      reads require_runtime_admission ;;
      (if reserves_budget : bool then
         reserve_budget (pr_room_id (rv_principal r)) now (command_size (rv_request_id r) (rv_action r) payload)
       else mret tt) ;;
      modifies (fun st => st <| st_reservations :=
        <[reservation_key r := reserved_row generation r payload]> (st_reservations st) |>)
  end.

Definition finish_lifecycle_command (r : LifecycleReservation) : rtx unit :=
  existing ← reads (fun st => Ok (load_lifecycle_reservation (reservation_key r) st));
  lift (require (match existing with Some row => reservation_pending r row | None => false end) invalid_reservation) ;;
  modifies (fun st => st <| st_reservations := delete (reservation_key r) (st_reservations st) |>).

Definition rejected_row (failure_code failure_message : str) (row : LifecycleRow) : LifecycleRow :=
  row <| lr_status := REJECTED |> <| lr_failure_code := failure_code |> <| lr_failure_message := failure_message |>.

Definition reject_lifecycle_command (r : LifecycleReservation) (failure_code failure_message : str) : rtx unit :=
  lift (validate_stored_rejection failure_code failure_message) ;;
  existing ← reads (fun st => Ok (load_lifecycle_reservation (reservation_key r) st));
  match existing with
  | Some row =>
      lift (require (reservation_pending r row) invalid_reservation) ;;
      modifies (fun st => st <| st_reservations :=
        <[reservation_key r := rejected_row failure_code failure_message row]> (st_reservations st) |>)
  | None => lift (Err invalid_reservation)
  end.
End reservations.
