(* ===== verification/Launch.v ===== *)
(** * Starting an agent (agentsassemble-persistence/src/agent_lifecycle.rs,
    agent_lifecycle_authority.rs, agent_lifecycle_effect_authority.rs,
    agent_lifecycle_events.rs, agent_launch_events.rs, agent_readd.rs,
    agent_start_failure.rs)

    A start, a resume or an addition is prepared, its effect authorized under the
    identity of the runtime, and then recorded as done, refused or unconfirmed. *)

From Stdlib Require Import String.
From stdpp Require Import gmap.
From S2P Require Import Prelude Text Diagnostic Json Bytes Model Command Vote Projection Settings Store Budget Turn Routing RoomStore.
From S2P Require Import Authority Requests Execution Observation VoteStore Completion Messages Reservations.

Definition AGENT_CONTROL_ID_KEYS : list str := [u "agent_id"; u "participant_id"; u "session_id"].
Definition START : str := u "agent.start".
Definition RESUME : str := u "agent.resume".
Definition READD : str := u "agent.readd".
Definition STOP : str := u "agent.stop".
Definition PUBLIC_LIFECYCLE_ERROR_LIMIT : nat := 512.

Record AgentRuntimeStarted : Type := MkRuntimeStarted {
  rt_runtime_handle_id : str;
  rt_runtime_owner_id : str;
  rt_runtime_lease_token : str;
  rt_provider_session_id : str;
  rt_runtime_reused : bool;
  rt_provider_session_reused : bool;
  rt_provider_session_active : bool
}.
Record AgentStartEffect : Type := MkStartEffect { se_operation_id : str; se_session : DurableAgentSession }.
Inductive AgentStartPlan : Type := StartOutcome (outcome : CommandOutcome) | StartRuntime (effect : AgentStartEffect).
Record AgentLaunchFailureCommit : Type := MkLaunchFailure {
  lf_events : list RoomEvent;
  lf_code : str;
  lf_message : str
}.

(** ** agent_lifecycle_authority.rs *)

Definition bad_payload (message : string) : PersistenceError := rejected_tx "bad_request" message.

Definition payload_agent_id_with_fields (payload : value) (additional_fields : list str) : tx str :=
  object ← ok_or (as_object payload) (bad_payload "payload must be an object.");
  reject_if (any (fun key => negb (contains AGENT_CONTROL_ID_KEYS key) && negb (contains additional_fields key)) (keys object))
    (bad_payload "payload contains an unsupported field.") ;;
  match omap (get object) AGENT_CONTROL_ID_KEYS with
  | [supplied] =>
      raw ← ok_or (as_str supplied) (bad_payload "agent_id must be a string.");
      let agent_id := clean_identifier raw 128 in
      reject_if (str_empty agent_id || negb (str_eqb agent_id raw) || (128 <? length raw)%nat || any is_control raw)
        (bad_payload "agent_id is invalid.") ;;
      mret agent_id
  | _ => Err (bad_payload "exactly one agent_id alias is required.")
  end.
Definition payload_agent_id (payload : value) : tx str := payload_agent_id_with_fields payload [].

Definition authorize_control (principal : AuthenticatedPrincipal) : tx unit :=
  reject_if (bool_decide (pr_client_kind principal = AgentBridge) || negb (cap_agent_control (pr_capabilities principal)))
    (rejected_tx "permission_denied" "agent.control permission is required.").

Definition runtime_start_unconfirmed (message : string) : PersistenceError := rejected_tx "runtime_start_unconfirmed" message.

Definition validate_runtime_started (session : DurableAgentSession) (started : AgentRuntimeStarted) : tx unit :=
  reject_if (str_empty (rt_runtime_handle_id started))
    (runtime_start_unconfirmed "Provider start did not return an owned runtime handle.") ;;
  reject_if (str_empty (rt_runtime_owner_id started))
    (runtime_start_unconfirmed "Provider start did not return its supervisor ownership identity.") ;;
  reject_if (str_empty (rt_runtime_lease_token started))
    (runtime_start_unconfirmed "Provider start did not return its runtime lease generation.") ;;
  require (session_custody_is session (rt_runtime_handle_id started) (rt_runtime_owner_id started) (rt_runtime_lease_token started))
    (rejected_tx "runtime_owner_mismatch" "Provider start confirmation does not match its durable pre-effect authority.") ;;
  reject_if (rt_provider_session_active started && str_empty (rt_provider_session_id started))
    (rejected_tx "provider_session_unconfirmed" "Provider start reported an active session without its identity.") ;;
  reject_if (rt_provider_session_reused started && negb (rt_provider_session_active started))
    (rejected_tx "provider_session_unconfirmed" "An inactive provider session cannot be reported as reused.") ;;
  reject_if (rt_provider_session_reused started
             && (str_empty (d_provider_session_id session)
                 || negb (str_eqb (rt_provider_session_id started) (d_provider_session_id session))))
    (rejected_tx "provider_session_mismatch" "A reused provider session must preserve its durable identity.").

Definition intent_is (action : AgentLifecycleAction) (operation_id : str) (session : DurableAgentSession) : bool :=
  bool_decide (d_lifecycle_intent_action session = action) && str_eqb (d_lifecycle_intent_id session) operation_id.

Definition require_matching_operation (session : DurableAgentSession) (action : AgentLifecycleAction) (operation_id : str) : tx unit :=
  require (intent_is action operation_id session)
    (rejected_tx "operation_in_progress" "Another provider lifecycle operation is still in progress.").

Definition require_intent (session : DurableAgentSession) (action : AgentLifecycleAction) (operation_id : str)
    (status : AgentLifecycleIntentStatus) (code : string) : tx unit :=
  require (intent_is action operation_id session && bool_decide (d_lifecycle_intent_status session = status))
    (rejected_tx code "Provider lifecycle confirmation does not match the active operation.").

Definition agent_stop_requires_cleanup (session : DurableAgentSession) : bool :=
  negb (bool_decide (s_runtime_status (d_public session) = RuntimeStopped))
  || negb (str_empty (d_runtime_handle_id session)) || negb (str_empty (d_runtime_owner_id session))
  || negb (str_empty (d_runtime_lease_token session)) || negb (lifecycle_intent_is_empty session).

(** authority.rs *)
Definition active_room_for_principal (principal : AuthenticatedPrincipal) (st : RoomStore) : tx Room :=
  '(room, _) ← load_active_membership (pr_room_id principal) (pr_participant_id principal) st; mret room.

(** ** agent_readd.rs *)

Definition start_flag (object : object) : tx bool :=
  let flag start name :=
    match get object name with
    | None => Ok start
    | Some v =>
        b ← ok_or (as_bool v) (bad_payload "start must be a boolean.");
        reject_if (match start with Some previous => negb (Bool.eqb previous b) | None => false end)
          (bad_payload "start aliases conflict.") ;;
        mret (Some b)
    end in
  start ← flag None (u "start");
  start ← flag start (u "start_now");
  mret (default false start).

Definition launch_payload (payload : value) (action : str) : tx (str * bool) :=
  if contains [START; RESUME] action then id ← payload_agent_id payload; mret (id, true)
  else if str_eqb action READD then
    id ← payload_agent_id_with_fields payload [u "start"; u "start_now"];
    start ← start_flag (default [] (as_object payload));
    mret (id, start)
  else Err (bad_payload "The Agent Session launch action is invalid.").

Definition require_readdable (session : DurableAgentSession) (participant : Participant) : tx unit :=
  let public := d_public session in
  reject_if (s_external_owned public || negb (str_eqb (s_process_ownership public) (u "server"))
             || negb (str_eqb (pt_participant_type participant) (u "agent")))
    (rejected_tx "runtime_unavailable" "Only server-owned Agent Sessions can be added back.") ;;
  reject_if (s_enabled public || s_recovery_required public || s_provider_session_active public
             || negb (contains [RuntimeStopped; RuntimeError] (s_runtime_status public))
             || negb (contains [Detached; Kicked] (pt_status participant))
             || negb (str_empty (s_active_turn_id public)) || negb (str_empty (d_runtime_handle_id session))
             || negb (str_empty (d_runtime_owner_id session)) || negb (str_empty (d_runtime_lease_token session))
             || negb (list_empty (d_inflight_inputs session)))
    (rejected_tx "readd_invalid_state" "The Agent Session must have confirmed inactive custody before re-add.").

(** ** The session a launch changes (agent_lifecycle.rs, agent_lifecycle_effect_authority.rs) *)

Definition require_valid_turn_authority (session : DurableAgentSession) : tx unit :=
  require (is_ok (active_turn_authority session)) invalid_turn_queue.

Definition unresolved_effect : PersistenceError :=
  CommandUnresolved (u "runtime_effect_unconfirmed")
    (u "The original provider lifecycle effect remains unresolved. Wait for authoritative runtime observation before retrying it.").

Definition clear_intent (session : DurableAgentSession) : DurableAgentSession :=
  session <| d_lifecycle_intent_action := ActionNone |> <| d_lifecycle_intent_id := [] |>
          <| d_lifecycle_intent_status := IntentNone |>.
Definition clear_custody (session : DurableAgentSession) : DurableAgentSession :=
  session <| d_runtime_handle_id := [] |> <| d_runtime_owner_id := [] |> <| d_runtime_lease_token := [] |>.

(** The status a start leaves to a runtime that is already up. *)
Definition starting_status (status : AgentRuntimeStatus) : AgentRuntimeStatus :=
  if contains [RuntimeStarting; RuntimeIdle; RuntimeBusy; RuntimePaused] status then status else RuntimeStarting.

Definition announce_start (public : AgentSession) : AgentSession :=
  public <| s_status := SessionAvailable |> <| s_enabled := true |>
         <| s_runtime_status := starting_status (s_runtime_status public) |>
         <| s_last_error := [] |> <| s_last_error_code := [] |> <| s_recovery_required := false |>.

Definition prepare_launch_session (operation_id : str) (now : instant) (session : DurableAgentSession) : DurableAgentSession :=
  session <| d_public := (announce_start (d_public session)) <| s_updated_at := now |> |>
          <| d_lifecycle_intent_action := ActionStart |> <| d_lifecycle_intent_id := operation_id |>
          <| d_lifecycle_intent_status := IntentPrepared |>.

Definition matching_start_intent (session : DurableAgentSession) (operation_id : str) : tx bool :=
  if lifecycle_intent_is_empty session then Ok false
  else
    require_matching_operation session ActionStart operation_id ;;
    match d_lifecycle_intent_status session with
    | IntentPrepared => Ok true
    | IntentEffectInflight | IntentUnconfirmed => Err unresolved_effect
    | _ => Err (invalid_state "Stored provider start intent is invalid.")
    end.

Definition authorize_start_effect (session : DurableAgentSession)
    (operation_id runtime_handle_id runtime_owner_id runtime_lease_token : str) : tx DurableAgentSession :=
  let differs stored supplied := negb (str_empty stored) && negb (str_eqb stored supplied) in
  require_intent session ActionStart operation_id IntentPrepared "stale_start_authorization" ;;
  reject_if (str_empty runtime_handle_id || str_empty runtime_owner_id || str_empty runtime_lease_token
             || differs (d_runtime_handle_id session) runtime_handle_id
             || differs (d_runtime_owner_id session) runtime_owner_id
             || differs (d_runtime_lease_token session) runtime_lease_token)
    (rejected_tx "runtime_owner_mismatch" "Provider start reservation does not match durable runtime authority.") ;;
  mret (session <| d_runtime_handle_id := runtime_handle_id |> <| d_runtime_owner_id := runtime_owner_id |>
          <| d_runtime_lease_token := runtime_lease_token |>
          <| d_public := announce_start (d_public session) |>
          <| d_lifecycle_intent_status := IntentEffectInflight |>).

Definition apply_runtime_started (started : AgentRuntimeStarted) (now : instant) (session : DurableAgentSession) :
    DurableAgentSession :=
  let public := d_public session in
  let stays := rt_runtime_reused started && contains [RuntimeIdle; RuntimeBusy; RuntimePaused] (s_runtime_status public) in
  clear_intent (session
    <| d_public := public
         <| s_status := SessionAttached |> <| s_enabled := true |>
         <| s_runtime_status := if stays then s_runtime_status public else RuntimeIdle |>
         <| s_provider_session_active := rt_provider_session_active started |>
         <| s_provider_session_reused := rt_provider_session_reused started |>
         <| s_last_error := [] |> <| s_last_error_code := [] |> <| s_recovery_required := false |>
         <| s_updated_at := now |> |>
    <| d_runtime_handle_id := rt_runtime_handle_id started |> <| d_runtime_owner_id := rt_runtime_owner_id started |>
    <| d_runtime_lease_token := rt_runtime_lease_token started |>
    <| d_provider_session_id := if str_empty (rt_provider_session_id started) then d_provider_session_id session
                                else rt_provider_session_id started |>).

(** ** Events and results *)

Definition status_name (s : ParticipantStatus) : str :=
  match s with
  | Joined => u "joined" | Left_ => u "left" | Kicked => u "kicked" | Exported => u "exported" | Detached => u "detached"
  end.
Definition role_name (r : ParticipantRole) : str :=
  match r with
  | Human => u "human" | Director => u "director" | Implementer => u "implementer" | Reviewer => u "reviewer"
  | AgentRole => u "agent"
  end.

Section launch.
Context `{UnicodeGeneralCategory, CharCase, UnicodeCase, Caseless, Sha256, Chrono, Entropy, PersonaLibrary, UuidCrate, ChronoRange,
  AttendeeParent, RequestSerde, RegexCrate, ByteDigest}.

(** [json!(participant)] *)
Definition participant_value (p : Participant) : value :=
  VObject [(u "room_id", VString (pt_room_id p)); (u "participant_id", VString (pt_participant_id p));
    (u "display_name", VString (pt_display_name p)); (u "avatar_image_url", VString (pt_avatar_image_url p));
    (u "participant_type", VString (pt_participant_type p)); (u "status", VString (status_name (pt_status p)));
    (u "role", VString (role_name (pt_role p))); (u "owner_id", VString (pt_owner_id p)); (u "muted", VBool (pt_muted p));
    (u "created_at", VString (datetime_json (pt_created_at p))); (u "updated_at", VString (datetime_json (pt_updated_at p)))].

Definition load_agent_participant (room_id participant_id : str) (st : RoomStore) : tx Participant :=
  participant ← load_participant room_id participant_id st;
  require (str_eqb (pt_room_id participant) room_id && str_eqb (pt_participant_id participant) participant_id)
    (rejected_tx "stored_agent_identity_invalid" "Stored participant identity differs from its row.") ;;
  mret participant.

(** participant_rows.rs: [save_participant_exact], under the participant's own key *)
Definition save_participant (participant : Participant) : rtx unit := fun st =>
  let key := (pt_room_id participant, pt_participant_id participant) in
  match st_participants st !! key with
  | None => Err ParticipantMissing
  | Some _ => Ok (tt, st <| st_participants := <[key := participant]> (st_participants st) |>)
  end.

(** agent_lifecycle_events.rs *)
Definition append_session_event (principal : AuthenticatedPrincipal) (session : AgentSession) (event_type : string)
    (extra : gmap str value) (created_at : instant) : rtx RoomEvent :=
  id ← draw_uuid;
  seq ← reads (fun st => Ok (next_sequence (pr_room_id principal) st));
  let event :=
    {| ev_v := 1; ev_id := id; ev_seq := seq; ev_created_at := created_at; ev_room_id := pr_room_id principal;
       ev_event_type := u event_type;
       ev_actor := MkActor (pr_participant_id principal) (u "human");
       ev_participant_id := Some (s_participant_id session); ev_participant_type := Some (u "agent");
       ev_actor_id := Some (pr_participant_id principal); ev_actor_type := Some (u "human");
       ev_display_name := Some (s_display_name session); ev_content := None; ev_message_kind := None; ev_extra := extra |} in
  insert_event event ;; mret event.

Definition append_state_projection_event (principal : AuthenticatedPrincipal) (session : AgentSession) (now : instant) : rtx RoomEvent :=
  projection ← reads (fun st => Ok (project_session_in session st));
  append_session_event principal session "agent_session_state"
    (<[u "session_id" := VString (s_session_id session)]>
     (<[u "runtime_status" := VString (runtime_status_name (s_runtime_status session))]>
      (<[u "agent_session" := session_value projection]> ∅))) now.

Definition append_state_event (principal : AuthenticatedPrincipal) (session : AgentSession) (now : instant) : rtx RoomEvent :=
  reconcile_session_in session now ;; append_state_projection_event principal session now.

Definition append_error_event (principal : AuthenticatedPrincipal) (session : AgentSession) (error_code message : str)
    (now : instant) : rtx RoomEvent :=
  event ← append_session_event principal session "error" (<[u "error_code" := VString error_code]> ∅) now;
  let event := event <| ev_content := Some message |> in
  modifies (fun st => st <| st_events := <[(pr_room_id principal, ev_seq event) := event]> (st_events st) |>) ;;
  mret event.

Definition events_fields (events : list RoomEvent) : object :=
  [(u "events", VArray (map serialize_event events));
   (u "event", match last events with Some event => serialize_event event | None => VNull end)].

(** [result[key] = v] on a JSON object *)
Definition put_field (key : str) (v : value) (fields : object) : object :=
  filter (fun e : str * value => e.1 <> key) fields ++ [(key, v)].

Definition store_result (principal : AuthenticatedPrincipal) (request_id action payload_hash : str) (result : object)
    (events : list RoomEvent) : rtx CommandOutcome :=
  event ← lift (ok_or (last events) (invalid_state "Command outcome has no event."));
  let result := VObject (put_field (u "event_seq") (VInt (ev_seq event)) result) in
  store_command_result (command_key principal request_id) action payload_hash result ;;
  mret (MkCommandOutcome result event events false).

(** agent_launch_events.rs *)
Definition append_launch_events (principal : AuthenticatedPrincipal) (session : DurableAgentSession) (participant : Participant)
    (joined : bool) (now : instant) : rtx (list RoomEvent) :=
  let public := d_public session in
  joins ← (if joined then
             event ← append_session_event principal public "participant_joined"
               (<[u "participant" := participant_value participant]> ∅) now;
             mret [event]
           else mret []);
  attached ← append_session_event principal public "session_attached" ∅ now;
  state ← append_state_event principal public now;
  mret (joins ++ [attached; state]).

Definition launch_result (session : DurableAgentSession) (runtime_reused : bool) (events : list RoomEvent) : object :=
  [(u "agent_session", session_value (d_public session)); (u "runtime_reused", VBool runtime_reused)] ++ events_fields events.

Definition commit_launch_result (principal : AuthenticatedPrincipal) (request_id payload_hash : str)
    (session : DurableAgentSession) (participant : Participant) (joined runtime_reused : bool) (command_action : str)
    (now : instant) : rtx CommandOutcome :=
  events ← append_launch_events principal session participant joined now;
  let result := launch_result session runtime_reused events in
  let result := if str_eqb command_action READD
                then result ++ [(u "status", VString (u "readded")); (u "participant", participant_value participant)]
                else result in
  store_result principal request_id command_action payload_hash result events.

(** agent_readd.rs *)
Definition readd_session (now : instant) (session : DurableAgentSession) : DurableAgentSession :=
  session <| d_public := (d_public session)
    <| s_status := SessionAvailable |> <| s_runtime_status := RuntimeStopped |> <| s_last_error := [] |>
    <| s_last_error_code := [] |> <| s_updated_at := now |> |>.

Definition commit_readd_listing (principal : AuthenticatedPrincipal) (request_id payload_hash : str)
    (session : DurableAgentSession) (participant : Participant) (now : instant) : rtx CommandOutcome :=
  let session := readd_session now session in
  let participant := participant <| pt_status := Detached |> <| pt_updated_at := now |> in
  save_session session ;;
  save_participant participant ;;
  event ← append_session_event principal (d_public session) "agent_session_reactivated"
    (<[u "session_id" := VString (s_session_id (d_public session))]>
     (<[u "agent_session" := session_value (d_public session)]> (<[u "participant" := participant_value participant]> ∅))) now;
  store_result principal request_id READD payload_hash
    ([(u "status", VString (u "readded")); (u "agent_session", session_value (d_public session));
      (u "participant", participant_value participant)] ++ events_fields [event]) [event].

(** room_runtime_cleanup.rs *)
Definition require_server_custody (session : DurableAgentSession) : tx unit :=
  reject_if (s_external_owned (d_public session) || negb (str_eqb (s_process_ownership (d_public session)) (u "server")))
    (rejected_tx "external_runtime_owned" "This provider runtime is owned by its external attendee.").

Definition load_launch_session (room_id session_id : str) (st : RoomStore) : tx DurableAgentSession :=
  reject_if (cleanup_exists room_id session_id st)
    (rejected_tx "runtime_cleanup_pending" "Removed runtime custody must be resolved before this Agent Session can launch.") ;;
  session ← load_session room_id session_id st;
  require_server_custody session ;;
  mret session.

(** ** The transactions of a launch *)

Variable generation : str.

(** agent_lifecycle.rs *)
Definition prepare_agent_launch (authority : RoomStore -> tx AuthenticatedPrincipal) (request_id : str) (payload : value)
    (command_action : str) (now : instant) : rtx AgentStartPlan :=
  principal ← reads authority;
  lift (authorize_control principal) ;;
  '(agent_id, start_requested) ← lift (launch_payload payload command_action);
  let payload_hash := canonical_payload_hash payload in
  let operation_id := lifecycle_operation_id principal request_id command_action in
  let room_id := pr_room_id principal in
  reads (active_room_for_principal principal) ;;
  outcome ← reads (existing_command (command_key principal request_id) command_action payload_hash);
  match outcome with
  | Some outcome => mret (StartOutcome outcome)
  | None =>
      let reservation := new_reservation principal request_id command_action payload_hash agent_id operation_id in
      claim_lifecycle_command generation reservation payload true now ;;
      session ← reads (load_launch_session room_id agent_id);
      lift (require_valid_turn_authority session) ;;
      participant ← reads (load_agent_participant room_id agent_id);
      lift (reject_if (bool_decide (pt_status participant = Exported))
        (rejected_tx "participant_exported" "This agent was exported from the room and cannot be started.")) ;;
      lift (reject_if (negb (str_eqb command_action READD) && bool_decide (pt_status participant = Kicked))
        (rejected_tx "participant_kicked" "This agent was removed from the room and cannot be started.")) ;;
      lift (require (d_runtime_profile_version session =? CURRENT_RUNTIME_PROFILE_VERSION)%N
        (rejected_tx "runtime_profile_unsupported"
           "This Agent Session runtime profile is not supported by the current runtime.")) ;;
      incomplete ← lift (matching_start_intent session operation_id);
      lift (if str_eqb command_action READD && negb incomplete then require_readdable session participant else Ok tt) ;;
      if negb start_requested then
        finish_lifecycle_command reservation ;;
        outcome ← commit_readd_listing principal request_id payload_hash session participant now;
        mret (StartOutcome outcome)
      else
        let session := if incomplete : bool then session else prepare_launch_session operation_id now session in
        save_session session ;;
        mret (StartRuntime (MkStartEffect operation_id session))
  end.

Definition stale_start_authorization : PersistenceError :=
  rejected_tx "stale_start_authorization" "Provider start authorization does not match its request.".

(** agent_lifecycle_effect_authority.rs: the reservation this runtime made *)
Definition owned_reservation (r : LifecycleReservation) (row : LifecycleRow) : bool :=
  reservation_pending r row && str_eqb (lr_supervisor_generation row) generation.

Definition require_owned_reservation (r : LifecycleReservation) (missing not_owned : string) (st : RoomStore) : tx unit :=
  row ← ok_or (load_lifecycle_reservation (reservation_key r) st) (rejected_tx "stale_lifecycle_reservation" missing);
  require (owned_reservation r row) (rejected_tx "stale_lifecycle_reservation" not_owned).

Definition authorize_agent_start_effect (authority : RoomStore -> tx AuthenticatedPrincipal) (request_id : str) (payload : value)
    (operation_id command_action runtime_handle_id runtime_owner_id runtime_lease_token : str) : rtx AgentStartEffect :=
  principal ← reads authority;
  '(agent_id, _) ← lift (launch_payload payload command_action);
  let payload_hash := canonical_payload_hash payload in
  lift (require (str_eqb operation_id (lifecycle_operation_id principal request_id command_action)) stale_start_authorization) ;;
  reads (active_room_for_principal principal) ;;
  reads (require_owned_reservation (new_reservation principal request_id command_action payload_hash agent_id operation_id)
    "Provider start reservation is missing." "Provider start reservation is not owned by this runtime.") ;;
  session ← reads (load_launch_session (pr_room_id principal) agent_id);
  session ← lift (authorize_start_effect session operation_id runtime_handle_id runtime_owner_id runtime_lease_token);
  save_session session ;;
  mret (MkStartEffect operation_id session).

Definition complete_agent_launch (principal : AuthenticatedPrincipal) (request_id : str) (payload : value) (operation_id : str)
    (started : AgentRuntimeStarted) (command_action : str) (now : instant) : rtx CommandOutcome :=
  '(agent_id, _) ← lift (launch_payload payload command_action);
  let payload_hash := canonical_payload_hash payload in
  let expected_operation_id := lifecycle_operation_id principal request_id command_action in
  lift (require (str_eqb operation_id expected_operation_id)
    (rejected_tx "stale_start_confirmation" "Provider start confirmation does not match its request.")) ;;
  reads (active_room_for_principal principal) ;;
  outcome ← reads (existing_command (command_key principal request_id) command_action payload_hash);
  match outcome with
  | Some outcome => mret outcome
  | None =>
      session ← reads (load_launch_session (pr_room_id principal) agent_id);
      lift (validate_runtime_started session started) ;;
      lift (require_intent session ActionStart expected_operation_id IntentEffectInflight "stale_start_confirmation") ;;
      finish_lifecycle_command (new_reservation principal request_id command_action payload_hash agent_id expected_operation_id) ;;
      let session := apply_runtime_started started now session in
      save_session session ;;
      participant ← reads (load_agent_participant (pr_room_id principal) agent_id);
      let joined := negb (bool_decide (pt_status participant = Joined)) in
      let participant := participant <| pt_status := Joined |> <| pt_updated_at := now |> in
      save_participant participant ;;
      commit_launch_result principal request_id payload_hash session participant joined (rt_runtime_reused started)
        command_action now
  end.

(** agent_start_failure.rs *)
Definition public_lifecycle_error (message : str) (unnamed : string) : str :=
  let text := redact_persisted_diagnostic_text message PUBLIC_LIFECYCLE_ERROR_LIMIT in
  if str_empty text then u unnamed else text.

Definition failed_launch (clear_runtime_identity : bool) (error_code message : str) (now : instant)
    (session : DurableAgentSession) : DurableAgentSession :=
  let gone := clear_runtime_identity || (str_empty (d_runtime_handle_id session) && str_empty (d_runtime_owner_id session)
                                         && str_empty (d_runtime_lease_token session)) in
  let public := d_public session in
  let public := if gone then public <| s_status := SessionUnavailable |> <| s_enabled := false |>
                               <| s_runtime_status := RuntimeError |> <| s_provider_session_active := false |>
                else public in
  let public := public <| s_last_error := public_lifecycle_error message "Provider launch failed." |>
                       <| s_last_error_code := error_code |> <| s_updated_at := now |> in
  clear_intent ((if clear_runtime_identity then clear_custody session else session) <| d_public := public |>).

Definition commit_agent_launch_failure (principal : AuthenticatedPrincipal)
    (request_id payload_hash agent_id operation_id error_code message command_action reservation_phase prepared_result : str)
    (expected_status : AgentLifecycleIntentStatus) (clear_runtime_identity : bool) (now : instant) :
    rtx AgentLaunchFailureCommit :=
  reads (active_room_for_principal principal) ;;
  session ← reads (load_session (pr_room_id principal) agent_id);
  lift (require_intent session ActionStart operation_id expected_status "stale_start_confirmation") ;;
  let session := failed_launch clear_runtime_identity error_code message now session in
  let public := d_public session in
  reject_lifecycle_command
    (MkReservation principal request_id command_action payload_hash agent_id operation_id reservation_phase prepared_result)
    (s_last_error_code public) (s_last_error public) ;;
  save_session session ;;
  error ← append_error_event principal public error_code (s_last_error public) now;
  state ← append_state_event principal public now;
  mret (MkLaunchFailure [error; state] (s_last_error_code public) (s_last_error public)).

Definition fail_agent_start_before_effect (principal : AuthenticatedPrincipal) (request_id : str) (payload : value)
    (operation_id error_code message command_action : str) (now : instant) : rtx AgentLaunchFailureCommit :=
  '(agent_id, _) ← lift (launch_payload payload command_action);
  commit_agent_launch_failure principal request_id (canonical_payload_hash payload) agent_id operation_id error_code message
    command_action (u "lifecycle_prepared") (u "{}") IntentPrepared false now.

Definition fail_agent_launch (principal : AuthenticatedPrincipal) (request_id : str) (payload : value)
    (operation_id error_code message command_action : str) (now : instant) : rtx AgentLaunchFailureCommit :=
  '(agent_id, _) ← lift (launch_payload payload command_action);
  commit_agent_launch_failure principal request_id (canonical_payload_hash payload) agent_id operation_id error_code message
    command_action (u "lifecycle_prepared") (u "{}") IntentEffectInflight true now.

Definition unconfirmed_launch (error_code message : str) (now : instant) (session : DurableAgentSession) : DurableAgentSession :=
  session <| d_public := (d_public session)
      <| s_status := SessionUnavailable |> <| s_enabled := false |> <| s_runtime_status := RuntimeDisconnected |>
      <| s_provider_session_active := false |> <| s_provider_session_reused := false |>
      <| s_last_error := public_lifecycle_error message "Provider launch could not be confirmed." |>
      <| s_last_error_code := error_code |> <| s_recovery_required := true |> <| s_updated_at := now |> |>
    <| d_lifecycle_intent_status := IntentUnconfirmed |>.

Definition mark_agent_start_unconfirmed (principal : AuthenticatedPrincipal)
    (agent_id operation_id runtime_handle_id runtime_owner_id error_code message : str) (now : instant) :
    rtx (list RoomEvent) :=
  reads (active_room_for_principal principal) ;;
  session ← reads (load_session (pr_room_id principal) agent_id);
  lift (require_intent session ActionStart operation_id IntentEffectInflight "stale_start_confirmation") ;;
  lift (reject_if (str_empty runtime_handle_id || str_empty runtime_owner_id
                   || negb (str_eqb runtime_handle_id (d_runtime_handle_id session))
                   || negb (str_eqb runtime_owner_id (d_runtime_owner_id session)))
    (rejected_tx "runtime_owner_mismatch" "Unconfirmed provider start does not match its durable runtime authority.")) ;;
  let session := unconfirmed_launch error_code message now session in
  save_session session ;;
  error ← append_error_event principal (d_public session) error_code (s_last_error (d_public session)) now;
  state ← append_state_event principal (d_public session) now;
  mret [error; state].
End launch.
