(* ===== verification/Stop.v ===== *)
(** * Stopping an agent (agentsassemble-persistence/src/agent_stop_lifecycle.rs,
    agent_lifecycle_effect_authority.rs, agent_lifecycle_events.rs, provider_turn_stop.rs,
    attendee_stop.rs, attendee_cleanup.rs, room_runtime_cleanup.rs)

    A stop of a runtime the server owns is prepared, authorized, and finished when
    the runtime is known to be gone: the turn it was running is ended, its inputs
    wait again, and the session is detached. A stop of an attendee's runtime, and
    the removal of an agent, leave a cleanup that its owner reports. *)

From Stdlib Require Import String.
From stdpp Require Import gmap.
From S2P Require Import Prelude Text Diagnostic Json Bytes Model Command Vote Projection Settings Store Budget Turn Routing RoomStore.
From S2P Require Import Authority Requests Execution Observation VoteStore Scheduler Completion Messages Reservations Launch.

Record AgentStopEffect : Type := MkStopEffect {
  sp_operation_id : str;
  sp_session_id : str;
  sp_runtime_handle_id : str;
  sp_runtime_owner_id : str;
  sp_runtime_lease_token : str
}.
Inductive AgentStopPlan : Type :=
| StopPlanOutcome (outcome : CommandOutcome)
| StopRuntime (effect : AgentStopEffect)
| ExternalPending (events : list RoomEvent)
| Finalize.

Definition stop_effect (session : DurableAgentSession) : tx AgentStopEffect :=
  reject_if (str_empty (d_runtime_handle_id session) || str_empty (d_runtime_owner_id session)
             || str_empty (d_runtime_lease_token session))
    (rejected_tx "runtime_handle_unavailable" "Provider shutdown requires an exact handle owned by the current supervisor.") ;;
  mret (MkStopEffect (d_lifecycle_intent_id session) (s_session_id (d_public session)) (d_runtime_handle_id session)
          (d_runtime_owner_id session) (d_runtime_lease_token session)).

(** ** provider_turn_stop.rs *)

Definition runtime_unassigned (session : DurableAgentSession) : bool :=
  str_empty (d_runtime_handle_id session) && str_empty (d_runtime_owner_id session) && str_empty (d_runtime_lease_token session).

Definition failed_session_has_confirmed_runtime_exit (session : DurableAgentSession) (st : RoomStore) : tx bool :=
  let public := d_public session in
  if negb (bool_decide (s_runtime_status public = RuntimeError)) || s_provider_session_active public
     || negb (runtime_unassigned session) then Ok false
  else
    active ← authority_or invalid_stop_turn (active_turn_authority session);
    if active : bool then Ok false
    else if bool_decide (s_status public = SessionUnavailable) && negb (s_enabled public) && negb (s_recovery_required public)
    then Ok true
    else if negb (s_recovery_required public) || (d_turn_generation session =? 0)%N then Ok false
    else
      execution ← load_execution_in (session_execution_key session) st;
      mret (phase_in [ExecFailed] execution
            && str_eqb (pe_participant_id execution) (s_participant_id public)
            && negb (str_empty (pe_runtime_handle_id execution)) && negb (str_empty (pe_runtime_owner_id execution))
            && negb (str_empty (pe_runtime_lease_token execution))).

Section stop.
Context `{UnicodeGeneralCategory, CharCase, UnicodeCase, Caseless, Sha256, Chrono, Entropy, PersonaLibrary, UuidCrate, ChronoRange,
  AttendeeParent, RequestSerde, RegexCrate, ByteDigest}.

(** ** Removal of a runtime (room_runtime_cleanup.rs, attendee_cleanup.rs) *)

(** attendee_cleanup.rs: [request_in] *)
Definition request_attendee_cleanup (session : DurableAgentSession) : rtx DurableAgentSession :=
  cleanup_id ← draw_uuid;
  modifies (fun st => st <| st_cleanup_ids := <[session_key session := cleanup_id]> (st_cleanup_ids st) |>) ;;
  mret (if runtime_unassigned session && negb (s_provider_session_active (d_public session))
        then session <| d_public := (d_public session) <| s_runtime_status := RuntimeStopped |> |> else session).

Definition cleanup_session (now : instant) (session : DurableAgentSession) : DurableAgentSession :=
  session <| d_public := (d_public session) <| s_enabled := false |> <| s_status := SessionDetached |> <| s_updated_at := now |> |>
          <| d_schedule_requested := false |> <| d_pending_inputs := [] |>.

(** The session it leaves is also what the caller goes on with. *)
Definition request_runtime_cleanup (session : DurableAgentSession) (now : instant) : rtx DurableAgentSession :=
  let '(room_id, session_id) := session_key session in
  lift (require_valid_turn_authority session) ;;
  existed ← reads (fun st => Ok (cleanup_exists room_id session_id st));
  modifies (fun st => st <| st_cleanups := {[(room_id, session_id)]} ∪ st_cleanups st |>) ;;
  session ← (if negb existed && is_external (d_public session) then request_attendee_cleanup session else mret session);
  let session := cleanup_session now session in
  save_session session ;;
  mret session.

Definition finished_cleanup_session (joined : bool) (now : instant) (session : DurableAgentSession) : DurableAgentSession :=
  session <| d_public := (d_public session)
      <| s_status := if joined then SessionAvailable else SessionDetached |> <| s_runtime_status := RuntimeStopped |>
      <| s_enabled := false |> <| s_provider_session_active := false |> <| s_provider_session_reused := false |>
      <| s_recovery_required := false |> <| s_last_error := [] |> <| s_last_error_code := [] |> <| s_updated_at := now |> |>
    <| d_pending_inputs := [] |> <| d_inflight_inputs := [] |> <| d_schedule_requested := false |>.

(** Whether the runtime and its turn are known to be gone. *)
Definition cleanup_is_resolved (session : DurableAgentSession) (st : RoomStore) : bool :=
  let public := d_public session in
  lifecycle_intent_is_empty session
  && contains [RuntimeStopped; RuntimeError] (s_runtime_status public)
  && negb (s_recovery_required public) && negb (s_provider_session_active public) && negb (s_provider_session_reused public)
  && runtime_unassigned session && str_empty (s_active_turn_id public)
  && negb (blocking_execution_exists (s_room_id public) (s_session_id public) st).

Definition finish_cleanup_in (room_id session_id : str) (now : instant) : rtx (option AgentTurnCommit) :=
  exists_ ← reads (fun st => Ok (cleanup_exists room_id session_id st));
  if negb exists_ then mret (Some (MkTurnCommit [] []))
  else
    session ← reads (load_session room_id session_id);
    lift (require_valid_turn_authority session) ;;
    resolved ← reads (fun st => Ok (cleanup_is_resolved session st));
    if negb resolved then mret None
    else
      participant ← reads (load_agent_participant room_id session_id);
      let session := finished_cleanup_session (bool_decide (pt_status participant = Joined)) now session in
      save_session session ;;
      modifies (fun st => st <| st_cleanups := st_cleanups st ∖ {[(room_id, session_id)]} |>) ;;
      event ← session_state_event session now;
      '(room, settings) ← reads (load_room_with_settings room_id);
      commit ← (if bool_decide (rm_status room = RoomActive) then assign_pending_in room settings now
                else mret (MkTurnCommit [] []));
      mret (Some (MkTurnCommit (event :: tcm_events commit) (tcm_next_assignments commit))).

(** ** attendee_stop.rs *)

Definition invalid_stop : PersistenceError :=
  rejected_tx "external_stop_changed" "The pending external stop authority changed.".

Definition stop_intent (operation_id : str) (status : AgentLifecycleIntentStatus) (session : DurableAgentSession) :
    DurableAgentSession :=
  session <| d_lifecycle_intent_action := ActionStop |> <| d_lifecycle_intent_id := operation_id |>
          <| d_lifecycle_intent_status := status |>.
Definition with_runtime_status (status : AgentRuntimeStatus) (session : DurableAgentSession) : DurableAgentSession :=
  session <| d_public := (d_public session) <| s_runtime_status := status |> |>.

Definition prepare_external_stop (principal : AuthenticatedPrincipal) (session : DurableAgentSession) (operation_id : str)
    (now : instant) : rtx (list RoomEvent) :=
  if negb (lifecycle_intent_is_empty session) then
    lift (require_matching_operation session ActionStop operation_id) ;;
    pending ← reads (fun st => Ok (bool_decide (d_lifecycle_intent_status session = IntentEffectInflight)
      && cleanup_exists (s_room_id (d_public session)) (s_session_id (d_public session)) st));
    lift (require pending invalid_stop) ;;
    mret []
  else
    session ← request_runtime_cleanup (with_runtime_status RuntimeStopping (stop_intent operation_id IntentEffectInflight session)) now;
    event ← append_state_event principal (d_public session) now;
    mret [event].

(** ** agent_lifecycle_events.rs *)

Definition commit_already_stopped (principal : AuthenticatedPrincipal) (request_id payload_hash : str) (session : AgentSession)
    (now : instant) : rtx CommandOutcome :=
  event ← append_state_event principal session now;
  store_result principal request_id STOP payload_hash
    ([(u "agent_session", session_value session);
      (u "process", VObject [(u "stopped", VBool true); (u "alive", VBool false); (u "ownership", VString (u "server"));
                             (u "already_stopped", VBool true)]);
      (u "revoked_sessions", VInt 0)] ++ events_fields [event]) [event].

(** ** agent_stop_lifecycle.rs *)

Variable generation : str.

Definition touch (now : instant) (session : DurableAgentSession) : DurableAgentSession :=
  session <| d_public := (d_public session) <| s_updated_at := now |> |>.

Definition stop_plan (session : DurableAgentSession) (operation_id : str) : tx AgentStopPlan :=
  require_matching_operation session ActionStop operation_id ;;
  match d_lifecycle_intent_status session with
  | IntentEffectApplied => Ok Finalize
  | IntentPrepared => StopRuntime <$> stop_effect session
  | IntentEffectInflight | IntentUnconfirmed => Err unresolved_effect
  | IntentNone => Err (invalid_state "Stored provider stop intent is invalid.")
  end.

Definition prepare_agent_stop (authority : RoomStore -> tx AuthenticatedPrincipal) (request_id : str) (payload : value)
    (now : instant) : rtx AgentStopPlan :=
  principal ← reads authority;
  lift (authorize_control principal) ;;
  agent_id ← lift (payload_agent_id payload);
  let payload_hash := canonical_payload_hash payload in
  let operation_id := lifecycle_operation_id principal request_id STOP in
  reads (active_room_for_principal principal) ;;
  outcome ← reads (existing_command (command_key principal request_id) STOP payload_hash);
  match outcome with
  | Some outcome => mret (StopPlanOutcome outcome)
  | None =>
      let reservation := new_reservation principal request_id STOP payload_hash agent_id operation_id in
      session ← reads (load_session (pr_room_id principal) agent_id);
      lift (require_valid_turn_authority session) ;;
      let cleanup_required := agent_stop_requires_cleanup session in
      claim_lifecycle_command generation reservation payload (negb cleanup_required) now ;;
      if negb cleanup_required then
        finish_lifecycle_command reservation ;;
        outcome ← commit_already_stopped principal request_id payload_hash (d_public session) now;
        mret (StopPlanOutcome outcome)
      else if is_external (d_public session) then
        events ← prepare_external_stop principal session operation_id now;
        mret (ExternalPending events)
      else
        lift (require_server_custody session) ;;
        if negb (lifecycle_intent_is_empty session) then lift (stop_plan session operation_id)
        else
          exited ← reads (failed_session_has_confirmed_runtime_exit session);
          let session := touch now (stop_intent operation_id (if exited : bool then IntentEffectApplied else IntentPrepared) session) in
          save_session session ;;
          if exited then mret Finalize else lift (StopRuntime <$> stop_effect session)
  end.

(** agent_lifecycle_effect_authority.rs *)
Definition authorize_agent_stop_effect (authority : RoomStore -> tx AuthenticatedPrincipal) (request_id : str) (payload : value)
    (operation_id : str) (now : instant) : rtx AgentStopEffect :=
  principal ← reads authority;
  agent_id ← lift (payload_agent_id payload);
  let payload_hash := canonical_payload_hash payload in
  lift (require (str_eqb operation_id (lifecycle_operation_id principal request_id STOP))
    (rejected_tx "stale_stop_authorization" "Provider stop authorization does not match its request.")) ;;
  reads (active_room_for_principal principal) ;;
  reads (require_owned_reservation generation (new_reservation principal request_id STOP payload_hash agent_id operation_id)
    "Provider stop reservation is missing." "Provider stop reservation is not owned by this runtime.") ;;
  session ← reads (load_session (pr_room_id principal) agent_id);
  lift (require_intent session ActionStop operation_id IntentPrepared "stale_stop_authorization") ;;
  effect ← lift (stop_effect session);
  save_session (session
    <| d_public := (d_public session) <| s_runtime_status := RuntimeStopping |> <| s_enabled := false |> <| s_updated_at := now |> |>
    <| d_lifecycle_intent_status := IntentEffectInflight |>) ;;
  mret effect.

Definition fail_agent_stop_before_effect (principal : AuthenticatedPrincipal) (request_id : str) (payload : value)
    (operation_id reason_code reason_message : str) (now : instant) : rtx (list RoomEvent) :=
  agent_id ← lift (payload_agent_id payload);
  session ← reads (load_session (pr_room_id principal) agent_id);
  lift (require_intent session ActionStop operation_id IntentPrepared "stale_stop_confirmation") ;;
  let message := redact_persisted_diagnostic_text reason_message PUBLIC_LIFECYCLE_ERROR_LIMIT in
  reject_lifecycle_command
    (new_reservation principal request_id STOP (canonical_payload_hash payload) agent_id operation_id) reason_code message ;;
  let session := clear_intent session in
  let session := session <| d_public := (d_public session) <| s_last_error := message |> <| s_last_error_code := reason_code |>
                                          <| s_updated_at := now |> |> in
  save_session session ;;
  error ← append_error_event principal (d_public session) reason_code message now;
  state ← append_state_event principal (d_public session) now;
  mret [error; state].

Definition record_agent_stop_effect (room_id session_id operation_id : str) (now : instant) : rtx unit :=
  session ← reads (load_session room_id session_id);
  let expected_status := if bool_decide (d_lifecycle_intent_status session = IntentEffectApplied)
                         then IntentEffectApplied else IntentEffectInflight in
  lift (require_intent session ActionStop operation_id expected_status "stale_stop_confirmation") ;;
  terminalize_confirmed_stop_turn session now ;;
  save_session (touch now (session <| d_lifecycle_intent_status := IntentEffectApplied |>)).

(** The turn fields of a session whose runtime is gone. *)
Definition released (restored : list QueuedRoomInput) (session : DurableAgentSession) : DurableAgentSession :=
  clear_active_turn_fields (session
    <| d_pending_inputs := restored |> <| d_inflight_inputs := [] |>
    <| d_public := (d_public session) <| s_active_turn_id := [] |> <| s_turn_phase := PhaseNone |>
         <| s_provider_session_active := false |> |>).

Definition detach_participant (room_id agent_id : str) (now : instant) : rtx unit :=
  participant ← reads (load_agent_participant room_id agent_id);
  save_participant (detach_runtime participant now).

Definition unconfirmed_stop (error_code message : str) (now : instant) (session : DurableAgentSession) : DurableAgentSession :=
  session <| d_public := (d_public session)
      <| s_status := SessionUnavailable |> <| s_enabled := false |>
      <| s_last_error := public_lifecycle_error message "Provider shutdown could not be confirmed." |>
      <| s_last_error_code := error_code |> <| s_recovery_required := true |> <| s_updated_at := now |> |>
    <| d_lifecycle_intent_status := IntentUnconfirmed |>.

Definition mark_agent_stop_unconfirmed (principal : AuthenticatedPrincipal) (agent_id operation_id error_code message : str)
    (now : instant) : rtx (list RoomEvent) :=
  reads (active_room_for_principal principal) ;;
  session ← reads (load_session (pr_room_id principal) agent_id);
  lift (require_intent session ActionStop operation_id IntentEffectInflight "stale_stop_confirmation") ;;
  active ← lift (map_err (fun _ => invalid_turn_queue) (active_turn_authority session));
  session ← (if active : bool then mret session
             else
               restored ← reads (merged_turn_queue session);
               let session := with_runtime_status RuntimeDisconnected (released restored session) in
               mret (session <| d_public := (d_public session) <| s_provider_session_reused := false |> |>));
  let session := unconfirmed_stop error_code message now session in
  save_session session ;;
  detach_participant (pr_room_id principal) agent_id now ;;
  error ← append_error_event principal (d_public session) error_code (s_last_error (d_public session)) now;
  state ← append_state_event principal (d_public session) now;
  mret [error; state].

Definition detached_session (restored : list QueuedRoomInput) (now : instant) (session : DurableAgentSession) : DurableAgentSession :=
  let session := clear_intent (clear_custody (with_runtime_status RuntimeStopped (released restored session))) in
  session <| d_public := (d_public session)
    <| s_status := SessionDetached |> <| s_enabled := false |> <| s_last_error := [] |> <| s_last_error_code := [] |>
    <| s_recovery_required := false |> <| s_updated_at := now |> |>.

Definition detach_confirmed_session (principal : AuthenticatedPrincipal) (agent_id : str) (session : DurableAgentSession)
    (now : instant) : rtx (AgentSession * list RoomEvent) :=
  restored ← reads (merged_turn_queue session);
  let session := detached_session restored now session in
  save_session session ;;
  detach_participant (pr_room_id principal) agent_id now ;;
  detached ← append_session_event principal (d_public session) "session_detached"
    (<[u "reason" := VString (u "operator stop")]> ∅) now;
  state ← append_state_event principal (d_public session) now;
  mret (d_public session, [detached; state]).

Definition finalize_stop_in (principal : AuthenticatedPrincipal) (request_id : str) (payload : value) (now : instant) :
    rtx CommandOutcome :=
  agent_id ← lift (payload_agent_id payload);
  let payload_hash := canonical_payload_hash payload in
  session ← reads (load_session (pr_room_id principal) agent_id);
  let operation_id := lifecycle_operation_id principal request_id STOP in
  lift (require_intent session ActionStop operation_id IntentEffectApplied "stale_stop_confirmation") ;;
  finish_lifecycle_command (new_reservation principal request_id STOP payload_hash agent_id operation_id) ;;
  '(public, events) ← detach_confirmed_session principal agent_id session now;
  store_result principal request_id STOP payload_hash
    ([(u "agent_session", session_value public);
      (u "process", VObject [(u "stopped", VBool true); (u "alive", VBool false);
                             (u "ownership", VString (s_process_ownership public)); (u "confirmed", VBool true)]);
      (u "revoked_sessions", VInt 0)] ++ events_fields events) events.

Definition finalize_agent_stop (principal : AuthenticatedPrincipal) (request_id : str) (payload : value) (now : instant) :
    rtx RoomCommandMutation :=
  let payload_hash := canonical_payload_hash payload in
  reads (active_room_for_principal principal) ;;
  outcome ← reads (existing_command (command_key principal request_id) STOP payload_hash);
  match outcome with
  | Some outcome => mret (MkCommandMutation outcome [])
  | None =>
      '(room, settings) ← reads (load_active_room (pr_room_id principal));
      outcome ← finalize_stop_in principal request_id payload now;
      scheduled ← assign_pending_in room settings now;
      mret (MkCommandMutation
        (MkCommandOutcome (co_result outcome) (co_event outcome) (co_events outcome ++ tcm_events scheduled) (co_deduplicated outcome))
        (tcm_next_assignments scheduled))
  end.
End stop.
