(* ===== verification/Pause.v ===== *)
(** * Pausing a resident runtime (agentsassemble-persistence/src/agent_pause.rs)

    A runtime that is up and idle is taken from the schedule, and given back to
    it, without calling its provider. Both changes are made only on a complete
    session whose runtime was just seen alive under the stored identity. *)

From Stdlib Require Import String.
From stdpp Require Import gmap.
From S2P Require Import Prelude Text Diagnostic Json Bytes Model Command Vote Projection Settings Store Budget Turn Routing RoomStore.
From S2P Require Import Authority Requests Execution Observation VoteStore Completion Messages Reservations Launch.

Definition PAUSE : str := u "agent.pause".

Record AgentResidentRuntime : Type := MkResidentRuntime {
  ar_runtime_handle_id : str;
  ar_runtime_owner_id : str;
  ar_runtime_lease_token : str;
  ar_runtime_profile_key : str
}.
Inductive AgentResidentPlan : Type :=
| ResidentOutcome (outcome : CommandOutcome)
| Resident (session : DurableAgentSession)
| ProviderLaunch.

Definition require_matching_runtime (session : DurableAgentSession) (runtime : AgentResidentRuntime) : tx unit :=
  require (session_custody_is session (ar_runtime_handle_id runtime) (ar_runtime_owner_id runtime) (ar_runtime_lease_token runtime)
           && str_eqb (d_runtime_profile_key session) (ar_runtime_profile_key runtime))
    (rejected_tx "resident_runtime_changed" "The resident provider runtime changed before the scheduling-state update.").

Section pause.
Context `{UnicodeGeneralCategory, CharCase, UnicodeCase, Caseless, Sha256, Chrono, Entropy, PersonaLibrary, UuidCrate, ChronoRange,
  AttendeeParent, RequestSerde, RegexCrate, ByteDigest}.

Definition invalid_request_owner : PersistenceError := invalid_state "A room request lost its durable result owner.".

Definition resident_state_valid (session : DurableAgentSession) (participant : Participant) (agent_id : str)
    (runtime_status : AgentRuntimeStatus) (enabled : bool) : bool :=
  let public := d_public session in
  str_eqb (s_session_id public) agent_id && str_eqb (s_participant_id public) agent_id
  && str_eqb (pt_room_id participant) (s_room_id public) && str_eqb (pt_participant_id participant) agent_id
  && bool_decide (pt_status participant = Joined)
  && bool_decide (s_status public = SessionAttached)
  && bool_decide (s_runtime_status public = runtime_status)
  && Bool.eqb (s_enabled public) enabled
  && s_provider_session_active public
  && negb (s_recovery_required public)
  && negb (s_external_owned public)
  && str_eqb (s_process_ownership public) (u "server")
  && negb (str_empty (d_provider_session_id session))
  && negb (str_empty (d_runtime_handle_id session))
  && negb (str_empty (d_runtime_owner_id session))
  && negb (str_empty (d_runtime_lease_token session))
  && lifecycle_intent_is_empty session
  && match active_turn_authority session with Ok active => negb active | Err _ => false end.

Definition require_resident_state (session : DurableAgentSession) (agent_id : str) (runtime_status : AgentRuntimeStatus)
    (enabled : bool) (st : RoomStore) : tx unit :=
  participant ← load_agent_participant (s_room_id (d_public session)) (s_participant_id (d_public session)) st;
  require (resident_state_valid session participant agent_id runtime_status enabled)
    (invalid_state "Only a complete idle or paused resident Agent Session can change scheduling state.").

Definition prepare_resident_action (authority : RoomStore -> tx AuthenticatedPrincipal) (request_id : str) (payload : value)
    (action : str) (resume : bool) (st : RoomStore) : tx AgentResidentPlan :=
  principal ← authority st;
  authorize_control principal ;;
  agent_id ← payload_agent_id payload;
  let payload_hash := canonical_payload_hash payload in
  let key := command_key principal request_id in
  active_room_for_principal principal st ;;
  decided ← (if resume then
               identity ← existing_request_identity key action payload_hash st;
               match identity with
               | Some CommittedResult =>
                   outcome ← existing_command key action payload_hash st;
                   outcome ← ok_or outcome invalid_request_owner;
                   mret (Some (ResidentOutcome outcome))
               | Some _ => mret (Some ProviderLaunch)
               | None => mret None
               end
             else
               outcome ← inspect_non_lifecycle_command key action payload_hash st;
               mret (ResidentOutcome <$> outcome));
  match decided with
  | Some plan => Ok plan
  | None =>
      session ← load_session (pr_room_id principal) agent_id st;
      if resume && negb (bool_decide (s_runtime_status (d_public session) = RuntimePaused)) then Ok ProviderLaunch
      else
        require_resident_state session agent_id (if resume then RuntimePaused else RuntimeIdle) (negb resume) st ;;
        mret (Resident session)
  end.

Definition prepare_agent_pause (authority : RoomStore -> tx AuthenticatedPrincipal) (request_id : str) (payload : value) :
    RoomStore -> tx AgentResidentPlan := prepare_resident_action authority request_id payload PAUSE false.
Definition prepare_paused_agent_resume (authority : RoomStore -> tx AuthenticatedPrincipal) (request_id : str) (payload : value) :
    RoomStore -> tx AgentResidentPlan := prepare_resident_action authority request_id payload RESUME true.

(** The change of schedule, and the answer that records it. *)
Definition scheduled_session (enabled : bool) (status : AgentRuntimeStatus) (now : instant) (session : DurableAgentSession) :
    DurableAgentSession :=
  session <| d_public := (d_public session) <| s_enabled := enabled |> <| s_runtime_status := status |> <| s_updated_at := now |> |>.

Definition execute_agent_pause (authority : RoomStore -> tx AuthenticatedPrincipal) (request_id : str) (payload : value)
    (runtime : AgentResidentRuntime) (now : instant) : rtx CommandOutcome :=
  principal ← reads authority;
  lift (authorize_control principal) ;;
  agent_id ← lift (payload_agent_id payload);
  let payload_hash := canonical_payload_hash payload in
  reads (active_room_for_principal principal) ;;
  outcome ← admit_non_lifecycle_command (command_key principal request_id) PAUSE payload_hash
              (command_size request_id PAUSE payload) now;
  match outcome with
  | Some outcome => mret outcome
  | None =>
      session ← reads (load_session (pr_room_id principal) agent_id);
      reads (require_resident_state session agent_id RuntimeIdle true) ;;
      lift (require_matching_runtime session runtime) ;;
      let session := scheduled_session false RuntimePaused now session in
      save_session session ;;
      event ← append_state_event principal (d_public session) now;
      store_result principal request_id PAUSE payload_hash
        [(u "agent_session", session_value (d_public session)); (u "runtime_reused", VBool true);
         (u "process_preserved", VBool true); (u "events", VArray [serialize_event event]); (u "event", serialize_event event)]
        [event]
  end.

Definition resume_paused_agent (authority : RoomStore -> tx AuthenticatedPrincipal) (request_id : str) (payload : value)
    (runtime : AgentResidentRuntime) (now : instant) : rtx (option CommandOutcome) :=
  principal ← reads authority;
  lift (authorize_control principal) ;;
  agent_id ← lift (payload_agent_id payload);
  let payload_hash := canonical_payload_hash payload in
  let key := command_key principal request_id in
  reads (active_room_for_principal principal) ;;
  outcome ← reads (inspect_non_lifecycle_command key RESUME payload_hash);
  match outcome with
  | Some outcome => mret (Some outcome)
  | None =>
      session ← reads (load_session (pr_room_id principal) agent_id);
      if negb (bool_decide (s_runtime_status (d_public session) = RuntimePaused)) then mret None
      else
        outcome ← admit_non_lifecycle_command key RESUME payload_hash (command_size request_id RESUME payload) now;
        match outcome with
        | Some outcome => mret (Some outcome)
        | None =>
            reads (require_resident_state session agent_id RuntimePaused false) ;;
            lift (require_matching_runtime session runtime) ;;
            let session := scheduled_session true RuntimeIdle now session in
            save_session session ;;
            event ← append_state_event principal (d_public session) now;
            outcome ← store_result principal request_id RESUME payload_hash
              [(u "agent_session", session_value (d_public session)); (u "runtime_reused", VBool true);
               (u "process_reused", VBool true); (u "events", VArray [serialize_event event]); (u "event", serialize_event event)]
              [event];
            mret (Some outcome)
        end
  end.
End pause.
