(* ===== verification/Interrupt.v ===== *)
(** * Interrupting a turn from the room (agent_interrupt.rs, participant_mute.rs)

    An operator interrupts the turn of an agent, or mutes it. Both prepare, in the
    transaction that answers the command, the one interrupt that the turn may have: the
    provider is told afterwards (TurnRuntime.v). Unmuting an agent puts it back on the
    floor. *)

From Stdlib Require Import String.
From stdpp Require Import gmap.
From S2P Require Import Prelude Text Diagnostic Json Bytes Model Command Vote Projection Settings Store Budget Turn Routing RoomStore.
From S2P Require Import Authority Requests Execution Observation VoteStore Scheduler Completion Messages Reservations Launch Stop Pause.

Definition INTERRUPT : str := u "agent.interrupt".
Definition MUTE : str := u "participant.mute".

Record AgentInterruptMutation : Type := MkAgentInterruptMutation {
  aim_outcome : CommandOutcome;
  aim_host_interrupt_effect : option ProviderTurnInterruptEffect
}.
Inductive AgentInterruptPlan : Type :=
| InterruptExternal
| InterruptOutcome (outcome : CommandOutcome)
| Interruptible (session : DurableAgentSession) (durable_turn_is_assigned : bool).

Record ParticipantMute : Type := MkParticipantMute { mu_participant_id : str; mu_muted : bool }.
Record PreparedParticipantMute : Type := MkPreparedParticipantMute {
  pm_participant : Participant;
  pm_event : RoomEvent;
  pm_scheduling : AgentTurnCommit;
  pm_host_interrupt_effect : option ProviderTurnInterruptEffect
}.
Record ParticipantMuteMutation : Type := MkParticipantMuteMutation {
  pmm_outcome : CommandOutcome;
  pmm_assignments : list AgentTurnAssignment;
  pmm_host_interrupt_effect : option ProviderTurnInterruptEffect
}.

(** ** agent_interrupt.rs *)

Definition require_busy_session (session : DurableAgentSession) (participant : Participant) : tx unit :=
  let public := d_public session in
  reject_if
    (negb (bool_decide (s_status public = SessionAttached))
     || negb (bool_decide (s_runtime_status public = RuntimeBusy))
     || negb (s_enabled public) || negb (s_provider_session_active public)
     || str_empty (d_provider_session_id session)
     || negb (bool_decide (pt_status participant = Joined)) || pt_muted participant)
    (rejected_tx "agent_not_busy" "The Agent Session does not own an interruptible busy turn.").

Definition require_interruptible (session : DurableAgentSession) (key : execution_key) (execution : ProviderTurnExecution)
    (agent_id : str) : tx unit :=
  let public := d_public session in
  reject_if
    (negb (match active_turn_authority session with Ok active => active | Err _ => false end)
     || negb (lifecycle_intent_is_empty session)
     || str_empty (d_runtime_handle_id session) || str_empty (d_runtime_owner_id session)
     || str_empty (d_runtime_lease_token session)
     || negb (str_eqb key.1.1 (s_room_id public)) || negb (str_eqb key.1.2 agent_id)
     || negb (str_eqb (pe_participant_id execution) agent_id) || negb (key.2 =? d_turn_generation session)%N
     || negb (str_eqb (pe_turn_id execution) (s_active_turn_id public))
     || negb (str_eqb (pe_runtime_handle_id execution) (d_runtime_handle_id session))
     || negb (str_eqb (pe_runtime_owner_id execution) (d_runtime_owner_id session))
     || negb (str_eqb (pe_runtime_lease_token execution) (d_runtime_lease_token session))
     || negb (phase_in [ExecAssigned; ExecStartDispatching; ExecRunning] execution))
    (rejected_tx "stale_provider_turn" "The provider turn no longer matches durable room authority.").

Definition externally_run (session : DurableAgentSession) : bool :=
  s_external_owned (d_public session) && str_eqb (s_process_ownership (d_public session)) (u "external").

Definition load_interruptible_session (room_id agent_id : str) (st : RoomStore) :
    tx (DurableAgentSession * ProviderTurnExecution) :=
  session ← load_session room_id agent_id st;
  participant ← load_agent_participant room_id (s_participant_id (d_public session)) st;
  require_busy_session session participant ;;
  (if externally_run session then
     require (retained_interrupt_supported_in room_id agent_id st)
       (rejected_tx "provider_turn_interrupt_unsupported"
          "The external runtime has not reported retained-turn interrupt capability.")
   else require_server_custody session) ;;
  let key := (room_id, agent_id, d_turn_generation session) in
  execution ← load_execution_in key st;
  effect ← load_optional_effect_in key st;
  reject_if (bool_decide (effect <> None))
    (rejected_tx "provider_turn_interrupt_in_progress" "The exact provider turn already has an interrupt owner.") ;;
  require_interruptible session key execution agent_id ;;
  mret (session, execution).

Section interrupt.
Context `{UnicodeGeneralCategory, CharCase, UnicodeCase, Caseless, Sha256, Chrono, Entropy, PersonaLibrary, UuidCrate, ChronoRange,
  AttendeeParent, RequestSerde, RegexCrate, ByteDigest}.

Definition prepare_agent_interrupt (authority : RoomStore -> tx AuthenticatedPrincipal) (request_id : str) (payload : value)
    (st : RoomStore) : tx AgentInterruptPlan :=
  principal ← authority st;
  authorize_control principal ;;
  agent_id ← payload_agent_id payload;
  let payload_hash := canonical_payload_hash payload in
  active_room_for_principal principal st ;;
  outcome ← inspect_non_lifecycle_command (command_key principal request_id) INTERRUPT payload_hash st;
  match outcome with
  | Some outcome => mret (InterruptOutcome outcome)
  | None =>
      '(session, execution) ← load_interruptible_session (pr_room_id principal) agent_id st;
      if s_external_owned (d_public session) then mret InterruptExternal
      else mret (Interruptible session (phase_in [ExecAssigned] execution))
  end.

Definition execute_agent_interrupt (authority : RoomStore -> tx AuthenticatedPrincipal) (request_id : str) (payload : value)
    (now : instant) : rtx AgentInterruptMutation :=
  principal ← reads authority;
  lift (authorize_control principal) ;;
  agent_id ← lift (payload_agent_id payload);
  let payload_hash := canonical_payload_hash payload in
  reads (active_room_for_principal principal) ;;
  outcome ← admit_non_lifecycle_command (command_key principal request_id) INTERRUPT payload_hash
              (command_size request_id INTERRUPT payload) now;
  match outcome with
  | Some outcome => mret (MkAgentInterruptMutation outcome None)
  | None =>
      '(session, execution) ← reads (load_interruptible_session (pr_room_id principal) agent_id);
      effect ← prepare_interrupt_effect (pr_room_id principal, agent_id, d_turn_generation session) execution AgentInterrupt;
      let session := session <| d_public := (d_public session) <| s_updated_at := now |> |> in
      save_session session ;;
      event ← append_state_event principal (d_public session) now;
      outcome ← store_result principal request_id INTERRUPT payload_hash
        [(u "agent_session", session_value (d_public session)); (u "interrupt_requested", VBool true);
         (u "events", VArray [serialize_event event]); (u "event", serialize_event event)]
        [event];
      mret (MkAgentInterruptMutation outcome (if s_external_owned (d_public session) then None else Some effect))
  end.

(** ** participant_mute.rs *)

(** connector_session.rs *)
Definition owns_participant (room_id participant_id : str) (st : RoomStore) : bool :=
  bool_decide ((room_id, participant_id) ∈ st_connectors st).

Definition deserialize_mute (payload : value) : option ParticipantMute :=
  fields ← struct_fields [u "participant_id"; u "muted"] payload;
  match fields with
  | [VString participant_id; VBool muted] => Some (MkParticipantMute participant_id muted)
  | _ => None
  end.
Definition parse_update (payload : value) : tx ParticipantMute :=
  update ← ok_or (deserialize_mute payload)
    (rejected_tx "invalid_participant_mute" "participant.mute requires exactly participant_id and muted.");
  let id := mu_participant_id update in
  reject_if (str_empty id || bool_decide (128 < byte_len id)%nat || negb (str_eqb (trim id) id) || any is_control id)
    (rejected_tx "invalid_participant_mute" "participant_id is invalid.") ;;
  mret update.

Definition require_target_membership (participant : Participant) (room_id participant_id : str) : tx unit :=
  require (str_eqb (pt_room_id participant) room_id && str_eqb (pt_participant_id participant) participant_id)
    (rejected_tx "stored_participant_invalid" "Stored participant identity does not match its room key.") ;;
  require (bool_decide (pt_status participant = Joined))
    (rejected_tx "participant_not_active" "Only a joined room participant can be muted.").

Definition load_agent_session_for_participant (room_id participant_id : str) (st : RoomStore) : tx DurableAgentSession :=
  sessions ← load_room_sessions room_id st;
  match filter (fun session => s_participant_id (d_public session) = participant_id) sessions with
  | [] => Err (rejected_tx "agent_session_missing" "The canonical Agent participant has no Agent Session authority.")
  | [session] => mret session
  | _ => Err (rejected_tx "agent_session_ambiguous" "More than one Agent Session owns the same room participant.")
  end.

Definition muted_event (principal : AuthenticatedPrincipal) (participant : Participant) (now : instant) : rtx RoomEvent :=
  id ← draw_uuid;
  seq ← reads (fun st => Ok (next_sequence (pr_room_id principal) st));
  mret {| ev_v := 1; ev_id := id; ev_seq := seq; ev_created_at := now; ev_room_id := pr_room_id principal;
          ev_event_type := u "participant_muted"; ev_actor := MkActor (pr_participant_id principal) (u "human");
          ev_participant_id := Some (pt_participant_id participant); ev_participant_type := Some (pt_participant_type participant);
          ev_actor_id := Some (pr_participant_id principal); ev_actor_type := Some (u "human");
          ev_display_name := Some (pt_display_name participant); ev_content := None; ev_message_kind := None;
          ev_extra := <[u "muted" := VBool (pt_muted participant)]> ∅ |}.

Definition stored_turn_invalid : PersistenceError :=
  rejected_tx "stored_turn_authority_invalid" "Stored Agent Session turn authority is inconsistent.".

(** The session a muted participant runs: none for a human, or for an agent that a connector runs. *)
Definition muted_session (room_id : str) (participant : Participant) (st : RoomStore) : tx (option DurableAgentSession) :=
  if str_eqb (pt_participant_type participant) (u "human") then Ok None
  else if str_eqb (pt_participant_type participant) (u "agent") then
    if owns_participant room_id (pt_participant_id participant) st then Ok None
    else Some <$> load_agent_session_for_participant room_id (pt_participant_id participant) st
  else Err (rejected_tx "stored_participant_invalid" "Stored participant type is not canonical.").

(** What becomes of the session: its turn is interrupted, or it goes back on the floor. *)
Definition mute_session (room_id : str) (muted : bool) (session : DurableAgentSession) (now : instant) :
    rtx (AgentTurnCommit * option ProviderTurnInterruptEffect) :=
  let external := externally_run session in
  lift (if external then Ok tt else require_server_custody session) ;;
  active ← lift (if muted then authority_or stored_turn_invalid (active_turn_authority session) else Ok false);
  if muted && active then
    let key := (room_id, s_session_id (d_public session), d_turn_generation session) in
    execution ← reads (load_execution_in key);
    effect ← prepare_interrupt_effect key execution ParticipantMuted;
    mret (MkTurnCommit [] [], if external then None else Some effect)
  else if negb muted then
    save_session (session <| d_schedule_requested := true |> <| d_public := (d_public session) <| s_updated_at := now |> |>) ;;
    '(room, settings) ← reads (load_active_room room_id);
    scheduling ← assign_pending_in room settings now;
    mret (scheduling, None)
  else mret (MkTurnCommit [] [], None).

Definition prepare_participant_mute (principal : AuthenticatedPrincipal) (update : ParticipantMute) (now : instant) :
    rtx PreparedParticipantMute :=
  let room_id := pr_room_id principal in
  participant ← reads (fun st => map_err (fun error =>
    match error with
    | ParticipantMissing => rejected_tx "participant_not_found" "The participant does not exist in this room."
    | other => other
    end) (load_participant room_id (mu_participant_id update) st));
  lift (require_target_membership participant room_id (mu_participant_id update)) ;;
  agent_session ← reads (muted_session room_id participant);
  let participant := participant <| pt_muted := mu_muted update |> <| pt_updated_at := now |> in
  event ← muted_event principal participant now;
  save_participant participant ;;
  insert_event event ;;
  (if mu_muted update then cancel_participant_in room_id (pt_participant_id participant) now else mret tt) ;;
  '(scheduling, host_interrupt_effect) ←
    match agent_session with
    | Some session => mute_session room_id (mu_muted update) session now
    | None => mret (MkTurnCommit [] [], None)
    end;
  mret (MkPreparedParticipantMute participant event scheduling host_interrupt_effect).

Definition execute_participant_mute (authority : RoomStore -> tx AuthenticatedPrincipal) (request_id : str) (payload : value)
    (now : instant) : rtx ParticipantMuteMutation :=
  principal ← reads authority;
  let payload_hash := canonical_payload_hash payload in
  reads (active_room_for_principal principal) ;;
  lift (require (cap_participant_mute (pr_capabilities principal))
    (rejected_tx "permission_denied" "This room session cannot mute participants.")) ;;
  outcome ← admit_non_lifecycle_command (command_key principal request_id) MUTE payload_hash
              (command_size request_id MUTE payload) now;
  match outcome with
  | Some outcome => mret (MkParticipantMuteMutation outcome [] None)
  | None =>
      update ← lift (parse_update payload);
      prepared ← prepare_participant_mute principal update now;
      let event := pm_event prepared in
      let result := VObject [(u "participant", participant_value (pm_participant prepared)); (u "event", serialize_event event);
                             (u "event_seq", VInt (ev_seq event))] in
      store_command_result (command_key principal request_id) MUTE payload_hash result ;;
      mret (MkParticipantMuteMutation
        (MkCommandOutcome result event (event :: tcm_events (pm_scheduling prepared)) false)
        (tcm_next_assignments (pm_scheduling prepared)) (pm_host_interrupt_effect prepared))
  end.
End interrupt.
