(* ===== verification/Lifecycle.v ===== *)
(** * The lifecycle of agents

    What the transactions of Launch.v, Stop.v and Pause.v do to the requests they
    serve: an abstract machine of intents, reservations and answers that every one
    of them follows, and what holds of it over any history. *)

From Stdlib Require Import String.
From stdpp Require Import gmap.
From S2P Require Import Prelude Text Diagnostic Json Bytes Model Command Vote Projection Settings Store Budget Turn Routing RoomStore.
From S2P Require Import Authority Requests Execution Observation VoteStore Scheduler Completion Calm Messages.
From S2P Require Import Reservations Launch Stop Pause.

(** ** What announcing a change leaves alone *)

Record settled (st st' : RoomStore) : Prop := MkSettled {
  sl_rooms : st_rooms st' = st_rooms st;
  sl_sessions : st_sessions st' = st_sessions st;
  sl_executions : st_executions st' = st_executions st;
  sl_effects : st_effects st' = st_effects st;
  sl_commands : st_commands st' = st_commands st;
  sl_reservations : st_reservations st' = st_reservations st;
  sl_deleted : st_deleted st' = st_deleted st;
  sl_cleanups : st_cleanups st' = st_cleanups st;
  sl_drawn : (st_drawn st <= st_drawn st')%nat;
  sl_ok : store_ok st -> store_ok st'
}.
#[global] Instance settled_preorder : PreOrder settled.
Proof. split; [by intros st; split|]. intros a b c [] []. split; try congruence; [lia|by eauto]. Qed.

Lemma appends_settled st st' : appends st st' -> calm st st' -> settled st st'.
Proof. intros Ha Hc. split; try apply Ha; apply Hc. Qed.

Section neutral.
Context `{UnicodeGeneralCategory, CharCase, UnicodeCase, Caseless, Sha256, Chrono, Entropy, PersonaLibrary, UuidCrate, ChronoRange,
  AttendeeParent, RequestSerde, RegexCrate, ByteDigest}.

Lemma reserve_budget_settled room_id now bytes : keeps settled (reserve_budget room_id now bytes).
Proof. intros st t st'. unfold reserve_budget. intros (? & _ & [= _ <-])%bind_Ok. split; try done. by intros [Hk Hp]. Qed.

Lemma save_participant_settled participant : keeps settled (save_participant participant).
Proof.
  intros st t st'. unfold save_participant. case_match; [|done]. intros [= _ <-]. split; try done. by intros [Hk Hp].
Qed.

Lemma append_session_event_Ok principal session event_type extra at_ st e st' :
  append_session_event principal session event_type extra at_ st = Ok (e, st') ->
  ev_room_id e = pr_room_id principal /\ ev_event_type e = u event_type /\ ev_seq e = next_sequence (pr_room_id principal) st /\
  st_events st' = <[(pr_room_id principal, ev_seq e) := e]> (st_events st) /\ settled st st'.
Proof.
  unfold append_session_event. intros Hr. apply rtx_bind_Ok in Hr as (id & st1 & [-> ->]%draw_uuid_Ok & Hr).
  apply rtx_bind_Ok in Hr as (seq & st2 & Hs & Hr). apply reads_Ok in Hs as [[= <-] <-]. cbv zeta in Hr.
  apply rtx_bind_Ok in Hr as (? & st3 & Hi & Hr). apply rtx_ret_Ok in Hr as [<- <-].
  apply insert_event_Ok in Hi as [_ ->]. split_and!; try done. split; simpl; try done; [lia|].
  intros [Hk Hp]. split; [done|]. simpl. intros k e [[<- _]|[_ He]]%lookup_insert_Some; [|by eapply Hp].
  by apply (next_sequence_pos (pr_room_id principal) st).
Qed.
Lemma append_session_event_settled principal session event_type extra at_ :
  keeps settled (append_session_event principal session event_type extra at_).
Proof. intros st e st' He. by apply append_session_event_Ok in He as (_ & _ & _ & _ & ?). Qed.
#[local] Hint Resolve append_session_event_settled : keeps.

Lemma append_state_event_settled principal session now : keeps settled (append_state_event principal session now).
Proof.
  unfold append_state_event. apply (keeps_bind _).
  - intros st t st' Hr. apply appends_settled; [by eapply reconcile_session_appends|by eapply reconcile_session_calm].
  - intros _. unfold append_state_projection_event. keeps.
Qed.
#[local] Hint Resolve append_state_event_settled reserve_budget_settled save_participant_settled : keeps.

Lemma append_error_event_settled principal session code message now :
  keeps settled (append_error_event principal session code message now).
Proof.
  intros st e st'. unfold append_error_event. intros (event & st1 & He & Hr)%rtx_bind_Ok. cbv zeta in Hr.
  apply rtx_bind_Ok in Hr as (? & st2 & Hm & Hr). apply rtx_ret_Ok in Hr as [_ <-]. apply modifies_Ok in Hm as ->.
  apply append_session_event_Ok in He as (_ & _ & Hseq & Hev & Hs). etrans; [exact Hs|]. split; try done.
  intros [Hk Hp]. split; [done|]. simpl. intros k e' [[<- _]|[_ He']]%lookup_insert_Some; [|by eapply Hp].
  apply (Hp (pr_room_id principal, ev_seq event) event). rewrite Hev. apply lookup_insert_eq.
Qed.
Lemma append_launch_events_settled principal session participant joined now :
  keeps settled (append_launch_events principal session participant joined now).
Proof. unfold append_launch_events. keeps. Qed.
Lemma detach_participant_settled room_id agent_id now : keeps settled (detach_participant room_id agent_id now).
Proof. unfold detach_participant. keeps. Qed.

(** What leaves the sessions alone but may end turns. *)
Record still (st st' : RoomStore) : Prop := MkStill {
  si_sessions : st_sessions st' = st_sessions st;
  si_ok : store_ok st -> store_ok st';
  si_calm : calm st st'
}.
#[global] Instance still_preorder : PreOrder still.
Proof. split; [by intros st; split|]. intros a b c [] []. split; [congruence|by eauto|by etrans]. Qed.
Lemma update_execution_still key p f stale : keeps still (update_execution key p f stale).
Proof.
  intros st t st' Hr. split; [| |by eapply update_execution_calm]; revert Hr; unfold update_execution;
    repeat case_match; try done; intros [= _ <-]; [done|by intros [Hk Hp]].
Qed.
Lemma update_effect_still room_id effect_id p f stale : keeps still (update_effect room_id effect_id p f stale).
Proof.
  intros st t st' Hr. split; [| |by eapply update_effect_calm]; revert Hr; unfold update_effect;
    intros (? & _ & [= _ <-])%bind_Ok; [done|by intros [Hk Hp]].
Qed.
Lemma turn_finished_event_still session turn_id status provider reason now :
  keeps still (turn_finished_event session turn_id status provider reason now).
Proof.
  intros st e st' Hr. pose proof (turn_finished_event_appends _ _ _ _ _ _ _ _ _ Hr) as Ha.
  split; [apply Ha|apply Ha|by eapply turn_finished_event_calm].
Qed.
#[local] Hint Resolve update_execution_still update_effect_still turn_finished_event_still : keeps.

(** A new answer is recorded under its request, which had none. *)
Lemma store_result_Ok principal request_id action hash result events st outcome st' :
  store_result principal request_id action hash result events st = Ok (outcome, st') ->
  st_commands st !! command_key principal request_id = None /\
  exists row, cr_action row = action /\ cr_payload_hash row = hash /\
    st' = st <| st_commands := <[command_key principal request_id := row]> (st_commands st) |>.
Proof.
  unfold store_result. intros (event & st1 & [_ <-]%lift_Ok & Hr)%rtx_bind_Ok. cbv zeta in Hr.
  apply rtx_bind_Ok in Hr as (? & st2 & Hs & Hr). apply rtx_ret_Ok in Hr as [_ <-]. unfold store_command_result in Hs.
  apply bind_Ok in Hs as (commands & [Hn ->]%insert_row_Ok & [= _ <-]). split; [done|]. by eexists (MkCommandResult _ _ _).
Qed.

(** *** Requests *)

Definition claimed (generation : str) (r : LifecycleReservation) (payload : value) (st st' : RoomStore) : Prop :=
  st_reservations st !! reservation_key r = None /\
  st_reservations st' = <[reservation_key r := reserved_row generation r payload]> (st_reservations st) /\
  st_sessions st' = st_sessions st /\ st_commands st' = st_commands st /\
  st_rooms st' = st_rooms st /\ (st_drawn st <= st_drawn st')%nat /\ (store_ok st -> store_ok st').

Lemma claim_Ok generation r payload budget now st t st' :
  claim_lifecycle_command generation r payload budget now st = Ok (t, st') ->
  (exists row, st_reservations st !! reservation_key r = Some row /\ reservation_pending r row = true /\ st' = st) \/
  claimed generation r payload st st'.
Proof.
  unfold claim_lifecycle_command. intros (existing & st1 & [[= <-] <-]%reads_Ok & Hr)%rtx_bind_Ok.
  unfold load_lifecycle_reservation in Hr. destruct (st_reservations st !! reservation_key r) as [row|] eqn:E; [left|right].
  - apply reads_Ok in Hr as [Hr <-]. exists row. split; [done|]. split; [|done]. unfold reuse_reservation in Hr. res_inv.
    unfold reservation_pending. bool_to_prop. destruct (str_eqb (lr_status row) PENDING); [|by case_match]. by rewrite andb_true_r.
  - apply rtx_bind_Ok in Hr as (? & st2 & [_ <-]%reads_Ok & Hr). apply rtx_bind_Ok in Hr as (? & st3 & Hb & Hr).
    apply modifies_Ok in Hr as ->.
    assert (settled st st3) as [].
    { revert Hb. case_match; [apply reserve_budget_settled|]. by intros [_ <-]%rtx_ret_Ok. }
    unfold claimed. simpl. rewrite sl_reservations0. split_and!; try done. intros Hok. destruct (sl_ok0 Hok). by split.
Qed.

Lemma finish_Ok r st t st' :
  finish_lifecycle_command r st = Ok (t, st') ->
  exists row, st_reservations st !! reservation_key r = Some row /\ reservation_pending r row = true /\
    st' = st <| st_reservations := delete (reservation_key r) (st_reservations st) |>.
Proof.
  unfold finish_lifecycle_command. intros (existing & st1 & [[= <-] <-]%reads_Ok & Hr)%rtx_bind_Ok.
  apply rtx_bind_Ok in Hr as (? & st2 & [Hq%require_Ok <-]%lift_Ok & ->%modifies_Ok). unfold load_lifecycle_reservation in Hq.
  destruct (st_reservations st !! reservation_key r) as [row|]; [|done]. by exists row.
Qed.

Lemma reject_Ok r code message st t st' :
  reject_lifecycle_command r code message st = Ok (t, st') ->
  validate_stored_rejection code message = Ok tt /\
  exists row, st_reservations st !! reservation_key r = Some row /\ reservation_pending r row = true /\
    st' = st <| st_reservations := <[reservation_key r := rejected_row code message row]> (st_reservations st) |>.
Proof.
  unfold reject_lifecycle_command. intros ([] & st1 & [Hv <-]%lift_Ok & Hr)%rtx_bind_Ok.
  apply rtx_bind_Ok in Hr as (existing & st2 & [[= <-] <-]%reads_Ok & Hr). unfold load_lifecycle_reservation in Hr.
  destruct (st_reservations st !! reservation_key r) as [row|]; [|by apply lift_Ok in Hr as [? _]].
  apply rtx_bind_Ok in Hr as (? & st3 & [Hq%require_Ok <-]%lift_Ok & ->%modifies_Ok). split; [done|]. by exists row.
Qed.
End neutral.
#[export] Hint Resolve update_execution_still update_effect_still turn_finished_event_still append_session_event_settled
  append_state_event_settled append_error_event_settled append_launch_events_settled detach_participant_settled
  reserve_budget_settled save_participant_settled : keeps.

(** ** Launches with the same hash (canonical_json.rs)

    A launch reads its payload through the keys of an object, so payloads with the
    same canonical encoding ask for the same launch. *)

Section same_payload.
Definition same_value (v w : option value) : Prop := normalize <$> v = normalize <$> w.

Lemma same_as_str v w : normalize v = normalize w -> as_str v = as_str w.
Proof. destruct v, w; simpl; congruence. Qed.
Lemma same_as_bool v w : normalize v = normalize w -> as_bool v = as_bool w.
Proof. destruct v, w; simpl; congruence. Qed.
Lemma any_perm {A} (p : A -> bool) l l' : l ≡ₚ l' -> any p l = any p l'.
Proof. intros Hl. apply eq_iff_eq_true. rewrite !any_true_Exists. by rewrite Hl. Qed.
Lemma normalize_keys m m' : normalize (VObject m) = normalize (VObject m') -> keys m ≡ₚ keys m'.
Proof.
  intros H. injection H as H. transitivity (keys (map (fun e => (e.1, normalize e.2)) m)).
  { unfold keys. rewrite map_map. done. }
  transitivity (keys (map (fun e => (e.1, normalize e.2)) m')); [|unfold keys; by rewrite map_map].
  unfold keys. apply (fmap_Permutation fst). by rewrite <- (sort_by_key_perm (map _ m)), H, sort_by_key_perm.
Qed.

Inductive same_payload : value -> value -> Prop :=
| SameObject m m' : keys m ≡ₚ keys m' -> (forall k, same_value (get m k) (get m' k)) -> same_payload (VObject m) (VObject m')
| SameOther v w : as_object v = None -> as_object w = None -> same_payload v w.

Lemma normalize_same v w : value_wf v -> value_wf w -> normalize v = normalize w -> same_payload v w.
Proof.
  intros Hv Hw E. destruct v as [| | | | |m]; try (apply SameOther; [done|]; destruct w; done).
  destruct w as [| | | | |m']; try done. apply SameObject; [by apply normalize_keys|]. intros k.
  inversion Hv; inversion Hw; subst. by apply normalize_object_get.
Qed.

Lemma same_value_cases v w : same_value v w ->
  (v = None /\ w = None) \/ exists a b, v = Some a /\ w = Some b /\ normalize a = normalize b.
Proof. unfold same_value. destruct v as [a|], w as [b|]; simpl; [|done..|by left]. intros [= E]. right. by exists a, b. Qed.

Lemma same_agent_id p p' fields : same_payload p p' -> payload_agent_id_with_fields p fields = payload_agent_id_with_fields p' fields.
Proof.
  intros [m m' Hk Hg|v w Hv Hw]; unfold payload_agent_id_with_fields; [|by rewrite Hv, Hw]. simpl.
  rewrite (any_perm _ _ _ Hk). destruct (reject_if _ _) as [[]|]; simpl; [|done].
  pose proof (Hg (u "agent_id")) as H1. pose proof (Hg (u "participant_id")) as H2. pose proof (Hg (u "session_id")) as H3.
  revert H1 H2 H3. generalize (get m (u "agent_id")) (get m (u "participant_id")) (get m (u "session_id")).
  generalize (get m' (u "agent_id")) (get m' (u "participant_id")) (get m' (u "session_id")).
  intros w1 w2 w3 v1 v2 v3 E1%same_value_cases E2%same_value_cases E3%same_value_cases.
  destruct E1 as [[-> ->]|(a1 & b1 & -> & -> & E1)], E2 as [[-> ->]|(a2 & b2 & -> & -> & E2)],
    E3 as [[-> ->]|(a3 & b3 & -> & -> & E3)]; simpl; try done; by erewrite same_as_str.
Qed.

Lemma same_start_flag p p' : same_payload p p' -> start_flag (default [] (as_object p)) = start_flag (default [] (as_object p')).
Proof.
  intros [m m' _ Hg|v w Hv Hw]; [|by rewrite Hv, Hw]. unfold start_flag. simpl.
  destruct (same_value_cases _ _ (Hg (u "start"))) as [[-> ->]|(a1 & b1 & -> & -> & E1)];
    destruct (same_value_cases _ _ (Hg (u "start_now"))) as [[-> ->]|(a2 & b2 & -> & -> & E2)]; simpl; try done;
    rewrite ?(same_as_bool _ _ E1), ?(same_as_bool _ _ E2); done.
Qed.

Lemma same_launch p p' action : same_payload p p' -> launch_payload p action = launch_payload p' action.
Proof.
  intros Hs. unfold launch_payload, payload_agent_id. by rewrite !(same_agent_id p p'), (same_start_flag p p').
Qed.

Lemma hash_same_payload `{Sha256} p p' :
  (forall a b, sha256_hex a = sha256_hex b -> a = b) -> value_wf p -> value_wf p' ->
  canonical_payload_hash p = canonical_payload_hash p' -> same_payload p p'.
Proof. intros Hinj Hp Hp' E%Hinj. apply normalize_same; [done..|]. by apply encode_normalize_iff. Qed.
End same_payload.

(** ** The abstract machine

    A session's intent names the request it serves; a request is fresh, reserved
    while its effect is under way, refused, or answered. *)

Definition action_kind (action : str) : AgentLifecycleAction := if str_eqb action STOP then ActionStop else ActionStart.

(** What a step rests on: the word of a command, an observation that the runtime of the session is gone, or the
    observation of a runtime whose start may be tried again. *)
Inductive Evidence : Type := Commanded | Observed | Retried.
Definition observed (e : Evidence) : bool := match e with Commanded => false | _ => true end.
Definition retried (e : Evidence) : bool := match e with Retried => true | _ => false end.

(** How an effect begins, goes on, and ends. *)
Definition claim_status (a : AgentLifecycleAction) (s : AgentLifecycleIntentStatus) : bool :=
  match a, s with
  | ActionStart, IntentPrepared => true
  | ActionStop, (IntentPrepared | IntentEffectInflight | IntentEffectApplied) => true
  | _, _ => false
  end.
Definition intent_next (e : Evidence) (a : AgentLifecycleAction) (s s' : AgentLifecycleIntentStatus) : bool :=
  match a, s, s' with
  | (ActionStart | ActionStop), IntentPrepared, IntentEffectInflight => true
  | (ActionStart | ActionStop), IntentEffectInflight, IntentUnconfirmed => true
  | ActionStop, IntentEffectInflight, IntentEffectApplied => true
  | ActionStop, IntentUnconfirmed, IntentEffectApplied => observed e
  | ActionStart, (IntentEffectInflight | IntentUnconfirmed), IntentPrepared => retried e
  | _, _, _ => false
  end.
Definition intent_answers (e : Evidence) (a : AgentLifecycleAction) (s : AgentLifecycleIntentStatus) : bool :=
  match a, s with
  | ActionStart, IntentEffectInflight | ActionStop, IntentEffectApplied => true
  | ActionStop, (IntentEffectInflight | IntentUnconfirmed) => observed e
  | _, _ => false
  end.
Definition intent_refuses (e : Evidence) (a : AgentLifecycleAction) (s : AgentLifecycleIntentStatus) : bool :=
  match a, s with
  | ActionStart, (IntentPrepared | IntentEffectInflight) | ActionStop, IntentPrepared => true
  | ActionStart, IntentUnconfirmed => observed e
  | _, _ => false
  end.
Definition intent_allowed (a : AgentLifecycleAction) (s : AgentLifecycleIntentStatus) : bool :=
  match a, s with
  | ActionStart, (IntentPrepared | IntentEffectInflight | IntentUnconfirmed) => true
  | ActionStop, (IntentPrepared | IntentEffectInflight | IntentUnconfirmed | IntentEffectApplied) => true
  | _, _ => false
  end.

Abbreviation request_key := (str * str * str)%type (only parsing).
Abbreviation session_id_pair := (str * str)%type (only parsing).

Record LifecycleView : Type := MkView {
  vw_intents : gmap (str * str) Intent;
  vw_reservations : gmap (str * str * str) LifecycleRow;
  vw_commands : gset (str * str * str)
}.
Definition view (st : RoomStore) : LifecycleView :=
  MkView (intent_of <$> st_sessions st) (st_reservations st) (dom (st_commands st)).

Definition row_session (key : request_key) (row : LifecycleRow) : session_id_pair := (key.1.1, lr_session_id row).

(** The intent of a session is the one the row reserves. *)
Record serves (row : LifecycleRow) (i : Intent) : Prop := MkServes {
  sv_action : in_action i = action_kind (lr_action row);
  sv_operation : in_operation i = lr_operation_id row;
  sv_allowed : intent_allowed (in_action i) (in_status i) = true
}.

Section machine.
Context `{Sha256, ByteDigest}.

(** A launch keeps the hash of the payload it was asked with, which does ask for a start. *)
Definition row_launches (row : LifecycleRow) : Prop :=
  lr_action row <> STOP -> lr_phase row = u "lifecycle_prepared" -> exists payload,
    value_wf payload /\ lr_payload_hash row = canonical_payload_hash payload /\
    launch_payload payload (lr_action row) = Ok (lr_session_id row, true).

(** [lifecycle_operation_id], of the key of a request *)
Definition key_operation (key : request_key) (action : str) : str :=
  stable_identity_hash [u "agentsassemble-lifecycle-operation-v1"; key.1.1; key.1.2; key.2; action].

(** What every Rust string is: Unicode text of a bounded length. *)
Definition key_ok (key : request_key) : Prop := field_ok key.1.1 /\ field_ok key.1.2 /\ field_ok key.2.

(** A session that is new, or serves nothing. *)
Definition free (v : LifecycleView) (k : session_id_pair) : Prop := default no_intent (vw_intents v !! k) = no_intent.

Inductive view_step (e : Evidence) (v : LifecycleView) : LifecycleView -> Prop :=
| VwClaim key row status :
    key_ok key -> field_ok (lr_action row) ->
    key ∉ vw_commands v -> vw_reservations v !! key = None -> free v (row_session key row) ->
    lr_operation_id row = key_operation key (lr_action row) -> lr_status row = PENDING -> row_launches row ->
    claim_status (action_kind (lr_action row)) status = true ->
    view_step e v (MkView
      (<[row_session key row := MkIntent (action_kind (lr_action row)) (lr_operation_id row) status]> (vw_intents v))
      (<[key := row]> (vw_reservations v)) (vw_commands v))
| VwMove k i status :
    vw_intents v !! k = Some i -> intent_next e (in_action i) (in_status i) status = true ->
    view_step e v (MkView (<[k := MkIntent (in_action i) (in_operation i) status]> (vw_intents v))
      (vw_reservations v) (vw_commands v))
| VwFinish key row i :
    vw_reservations v !! key = Some row -> lr_status row = PENDING -> vw_intents v !! row_session key row = Some i ->
    serves row i -> intent_answers e (in_action i) (in_status i) = true ->
    view_step e v (MkView (<[row_session key row := no_intent]> (vw_intents v)) (delete key (vw_reservations v))
      ({[key]} ∪ vw_commands v))
| VwRefuse key row i code message :
    vw_reservations v !! key = Some row -> lr_status row = PENDING -> vw_intents v !! row_session key row = Some i ->
    serves row i -> intent_refuses e (in_action i) (in_status i) = true ->
    view_step e v (MkView (<[row_session key row := no_intent]> (vw_intents v))
      (<[key := rejected_row code message row]> (vw_reservations v)) (vw_commands v))
| VwOther v' :
    (forall k i, vw_intents v !! k = Some i -> vw_intents v' !! k = Some i) ->
    (forall k i, vw_intents v' !! k = Some i -> vw_intents v !! k = None -> i = no_intent) ->
    vw_reservations v' = vw_reservations v -> vw_commands v ⊆ vw_commands v' ->
    (forall key, key ∈ vw_commands v' -> key ∉ vw_commands v -> vw_reservations v !! key = None) ->
    view_step e v v'.

(** Every request under way is served by one session, and every session at work serves one request. *)
Record view_ok (v : LifecycleView) : Prop := MkViewOk {
  vo_row : forall key row, vw_reservations v !! key = Some row ->
    key_ok key /\ field_ok (lr_action row) /\ lr_operation_id row = key_operation key (lr_action row) /\
    (lr_status row = PENDING \/ lr_status row = REJECTED);
  vo_pending : forall key row, vw_reservations v !! key = Some row -> lr_status row = PENDING ->
    row_launches row /\ exists i, vw_intents v !! row_session key row = Some i /\ serves row i;
  vo_intent : forall k i, vw_intents v !! k = Some i -> i = no_intent \/
    exists key row, vw_reservations v !! key = Some row /\ lr_status row = PENDING /\ k = row_session key row /\ serves row i;
  vo_answered : forall key, key ∈ vw_commands v -> vw_reservations v !! key = None
}.

(** The digest does not collide, so the operations of different requests differ. *)
Hypothesis bytes_inj : forall a b, sha256_bytes a = sha256_bytes b -> a = b.

Lemma short_field s : Forall code_point s -> (length s <= 100)%nat -> field_ok s.
Proof.
  intros Hs Hl. split; [done|]. assert (byte_len s <= 4 * length s)%nat.
  { clear. unfold byte_len. induction s as [|c s IH]; simpl; [lia|]. pose proof (char_len_pos c). lia. }
  lia.
Qed.
Lemma operation_tag : field_ok (u "agentsassemble-lifecycle-operation-v1").
Proof. apply short_field; [repeat constructor|vm_compute; lia]. Qed.
Lemma operation_inj key key' action action' :
  key_ok key -> key_ok key' -> field_ok action -> field_ok action' ->
  key_operation key action = key_operation key' action' -> key = key'.
Proof.
  intros (H1 & H2 & H3) (H1' & H2' & H3') Ha Ha' E%app_inv_head%bytes_inj. apply hash_list_inj in E; [|repeat (apply Forall_cons_2; [assumption || apply operation_tag|]); apply Forall_nil_2..|done].
  destruct key as [[? ?] ?], key' as [[? ?] ?]. simpl in *. congruence.
Qed.

Lemma serves_some_intent row i : serves row i -> i <> no_intent.
Proof. intros [_ _ Ha] ->. done. Qed.

Lemma view_ok_exclusive v key key' row row' :
  view_ok v -> vw_reservations v !! key = Some row -> vw_reservations v !! key' = Some row' ->
  lr_status row = PENDING -> lr_status row' = PENDING -> row_session key row = row_session key' row' -> key = key'.
Proof.
  intros Hok Hr Hr' Hp Hp' Hs. destruct (vo_pending _ Hok _ _ Hr Hp) as (Hlaunch & i & Hi & [_ Ho _]).
  destruct (vo_pending _ Hok _ _ Hr' Hp') as (Hlaunch' & i' & Hi' & [_ Ho' _]). rewrite Hs, Hi' in Hi. injection Hi as ->.
  destruct (vo_row _ Hok _ _ Hr) as (Hk & Ha & E & _). destruct (vo_row _ Hok _ _ Hr') as (Hk' & Ha' & E' & _).
  eapply (operation_inj key key' (lr_action row) (lr_action row')); try done. rewrite <- E, <- E', <- Ho. exact Ho'.
Qed.

Lemma pending_not_rejected : PENDING <> REJECTED.
Proof. done. Qed.

Lemma intent_next_allowed e a s s' : intent_next e a s s' = true -> intent_allowed a s' = true.
Proof. by destruct a, s, s'. Qed.
Lemma claim_allowed a s : claim_status a s = true -> intent_allowed a s = true.
Proof. by destruct a, s. Qed.

(** When the request of [key] ends, its session is free and every other request stays. *)
Lemma view_ok_release (v : LifecycleView) (key : request_key) (row : LifecycleRow) (i : Intent) (reservations : gmap request_key LifecycleRow) (commands : gset request_key) :
  view_ok v -> vw_reservations v !! key = Some row -> lr_status row = PENDING ->
  vw_intents v !! row_session key row = Some i -> serves row i ->
  (forall key', key' <> key -> reservations !! key' = vw_reservations v !! key') ->
  (forall row', reservations !! key = Some row' -> key_ok key /\ field_ok (lr_action row') /\
     lr_operation_id row' = key_operation key (lr_action row') /\ lr_status row' = REJECTED) ->
  (forall key', key' ∈ commands -> reservations !! key' = None) ->
  view_ok (MkView (<[row_session key row := no_intent]> (vw_intents v)) reservations commands).
Proof.
  intros Hok Hr Hp Hi Hs Hother Hkey Hans. split; simpl.
  - intros key' row' Hr'. destruct (decide (key' = key)) as [->|Hne]; [destruct (Hkey _ Hr') as (? & ? & ? & ?); split_and!; try done; by right|].
    rewrite Hother in Hr' by done. by eapply vo_row.
  - intros key' row' Hr' Hp'. destruct (decide (key' = key)) as [->|Hne].
    { destruct (Hkey _ Hr') as (_ & _ & _ & E). rewrite E in Hp'. done. }
    rewrite Hother in Hr' by done. destruct (vo_pending _ Hok _ _ Hr' Hp') as (Hlaunch' & i' & Hi' & Hs'). split; [done|]. exists i'. split; [|done].
    rewrite lookup_insert_ne; [done|]. intros E. apply Hne. by eapply view_ok_exclusive.
  - intros k i' [[<- <-]|[Hne Hi']]%lookup_insert_Some; [by left|]. destruct (vo_intent _ Hok _ _ Hi') as [->|(key' & row' & Hr' & Hp' & -> & Hs')];
      [by left|right]. exists key', row'. split_and!; try done. rewrite Hother; [done|]. intros ->.
    rewrite Hr in Hr'. injection Hr' as <-. done.
  - done.
Qed.

Lemma free_serves (v : LifecycleView) k row i : free v k -> vw_intents v !! k = Some i -> serves row i -> False.
Proof. unfold free. intros Hf Hi Hs. rewrite Hi in Hf. by destruct (serves_some_intent _ _ Hs). Qed.

Lemma view_step_ok e v v' : view_step e v v' -> view_ok v -> view_ok v'.
Proof.
  intros Hstep Hok. destruct Hstep as [key row status Hkok Hakt Hcmd Hnone Hfree Hop Hpend Hlaunches Hcl|k i status Hi Hnext
    |key row i Hr Hp Hi Hs _|key row i code message Hr Hp Hi Hs _|v' Hold Hnew Hres Hcmds Hfresh].
  - split; simpl.
    + intros key' row' [[<- <-]|[_ Hr']]%lookup_insert_Some; [split_and!; try done; by left|by eapply vo_row].
    + intros key' row' [[<- <-]|[Hne Hr']]%lookup_insert_Some Hp'.
      * split; [done|]. eexists. rewrite lookup_insert_eq. split; [done|]. split; simpl; [done..|]. by apply claim_allowed.
      * destruct (vo_pending _ Hok _ _ Hr' Hp') as (Hlaunch' & i & Hi & Hs). split; [done|]. exists i. split; [|done].
        rewrite lookup_insert_ne; [done|]. intros E. rewrite <- E in Hi. by eapply free_serves.
    + intros k i [[<- <-]|[Hne Hi]]%lookup_insert_Some.
      * right. exists key, row. rewrite lookup_insert_eq. split_and!; try done. split; simpl; [done..|]. by apply claim_allowed.
      * destruct (vo_intent _ Hok _ _ Hi) as [->|(key' & row' & Hr' & Hp' & -> & Hs')]; [by left|right]. exists key', row'.
        split_and!; try done. rewrite lookup_insert_ne; [done|]. intros ->. congruence.
    + intros key' Hk. rewrite lookup_insert_ne; [by eapply vo_answered|]. by intros ->.
  - assert (serves' : forall row, serves row i -> serves row (MkIntent (in_action i) (in_operation i) status)).
    { intros row [? ? ?]. split; try done. by eapply intent_next_allowed. }
    split; simpl; [apply Hok| | |apply Hok].
    + intros key row Hr Hp. destruct (vo_pending _ Hok _ _ Hr Hp) as (Hlaunch & i' & Hi' & Hs).
      split; [done|]. destruct (decide (row_session key row = k)) as [E|Hne]; [|exists i'; by rewrite lookup_insert_ne].
      rewrite E, Hi in Hi'. injection Hi' as <-. rewrite E, lookup_insert_eq. eexists. split; [done|by apply serves'].
    + intros k' i' [[<- <-]|[_ Hi']]%lookup_insert_Some; [|by eapply vo_intent].
      destruct (vo_intent _ Hok _ _ Hi) as [->|(key & row & Hr & Hp & -> & Hs)]; [done|right]. exists key, row.
      split_and!; try done. by apply serves'.
  - eapply view_ok_release; try done.
    + intros key' Hne. by rewrite lookup_delete_ne.
    + intros row' Hr'. by rewrite lookup_delete_eq in Hr'.
    + intros key' [->%elem_of_singleton|Hk]%elem_of_union; [apply lookup_delete_eq|].
      apply lookup_delete_None. right. by eapply vo_answered.
  - eapply view_ok_release; try done.
    + intros key' Hne. by rewrite lookup_insert_ne.
    + intros row'. rewrite lookup_insert_eq. intros [= <-]. destruct (vo_row _ Hok _ _ Hr) as (? & ? & ? & _). by split_and!.
    + intros key' Hk. rewrite lookup_insert_ne; [by eapply vo_answered|]. intros <-.
      pose proof (vo_answered _ Hok _ Hk). congruence.
  - split.
    + rewrite Hres. apply Hok.
    + rewrite Hres. intros key row Hr Hp. destruct (vo_pending _ Hok _ _ Hr Hp) as (Hlaunch & i & Hi & Hs). split; [done|]. exists i. eauto.
    + intros k i Hi. destruct (vw_intents v !! k) as [i0|] eqn:E; [|left; by eapply Hnew].
      pose proof (Hold _ _ E) as Hi0. rewrite Hi in Hi0. injection Hi0 as <-. rewrite Hres. by eapply vo_intent.
    + intros key Hk. rewrite Hres. destruct (decide (key ∈ vw_commands v)) as [Hin|Hn]; [by eapply vo_answered|by apply Hfresh].
Qed.

(** What a command may do, an observation may too. *)
Lemma commanded_observed e v v' : view_step Commanded v v' -> view_step e v v'.
Proof.
  assert (Hn : forall a s s', intent_next Commanded a s s' = true -> intent_next e a s s' = true) by (by intros [] [] []).
  assert (Ha : forall a s, intent_answers Commanded a s = true -> intent_answers e a s = true) by (by intros [] []).
  assert (Hf : forall a s, intent_refuses Commanded a s = true -> intent_refuses e a s = true) by (by intros [] []).
  intros Hs. destruct Hs; [eapply VwClaim|eapply VwMove|eapply VwFinish|eapply VwRefuse|eapply VwOther]; eauto.
Qed.

(** *** The phases of one request *)

Inductive RequestPhase : Type :=
| RequestFresh | RequestUnderWay (a : AgentLifecycleAction) (s : AgentLifecycleIntentStatus) | RequestRefused | RequestAnswered.
#[global] Instance Intent_eq_dec : EqDecision Intent.
Proof. solve_decision. Defined.
#[global] Instance RequestPhase_eq_dec : EqDecision RequestPhase.
Proof. solve_decision. Defined.

Definition phase (key : request_key) (v : LifecycleView) : RequestPhase :=
  match vw_reservations v !! key with
  | Some row =>
      if str_eqb (lr_status row) PENDING then
        match vw_intents v !! row_session key row with
        | Some i => RequestUnderWay (in_action i) (in_status i)
        | None => RequestFresh
        end
      else RequestRefused
  | None => if bool_decide (key ∈ vw_commands v) then RequestAnswered else RequestFresh
  end.

Inductive phase_step (e : Evidence) : RequestPhase -> RequestPhase -> Prop :=
| PhClaim a s : claim_status a s = true -> phase_step e RequestFresh (RequestUnderWay a s)
| PhNext a s s' : intent_next e a s s' = true -> phase_step e (RequestUnderWay a s) (RequestUnderWay a s')
| PhAnswer a s : intent_answers e a s = true -> phase_step e (RequestUnderWay a s) RequestAnswered
| PhRefuse a s : intent_refuses e a s = true -> phase_step e (RequestUnderWay a s) RequestRefused
| PhDirect : phase_step e RequestFresh RequestAnswered.

Lemma phase_pending v key row i :
  vw_reservations v !! key = Some row -> lr_status row = PENDING -> vw_intents v !! row_session key row = Some i ->
  phase key v = RequestUnderWay (in_action i) (in_status i).
Proof. intros Hr Hp Hi. unfold phase. rewrite Hr, Hp, Hi. done. Qed.

Lemma phase_other v v' key :
  vw_reservations v' !! key = vw_reservations v !! key -> (key ∈ vw_commands v' <-> key ∈ vw_commands v) ->
  (forall row, vw_reservations v !! key = Some row -> lr_status row = PENDING ->
     vw_intents v' !! row_session key row = vw_intents v !! row_session key row) -> phase key v' = phase key v.
Proof.
  intros Hr Hc Hi. unfold phase. rewrite Hr, (bool_decide_ext _ _ Hc). destruct (vw_reservations v !! key) as [row|] eqn:E; [|done].
  destruct (str_eqb (lr_status row) PENDING) eqn:Ep; [|done]. rewrite Hi; [done|done|]. by apply str_eqb_true.
Qed.

Lemma view_step_phase e v v' key : view_ok v -> view_step e v v' -> phase key v' = phase key v \/ phase_step e (phase key v) (phase key v').
Proof.
  intros Hok Hstep.
  assert (Hfreed : forall key0 row0 row, vw_reservations v !! key0 = Some row0 -> lr_status row0 = PENDING -> key <> key0 ->
    vw_reservations v !! key = Some row -> lr_status row = PENDING -> row_session key row <> row_session key0 row0).
  { intros key0 row0 row Hr0 Hp0 Hne Hr Hp E. apply Hne. by eapply view_ok_exclusive. }
  destruct Hstep as [key0 row status Hkok Hakt Hcmd Hnone Hfree Hop Hpend Hlaunches Hcl|k i status Hi Hnext
    |key0 row i Hr Hp Hi Hs Hans|key0 row i code message Hr Hp Hi Hs Href|v' Hold Hnew Hres Hcmds Hfresh].
  - destruct (decide (key = key0)) as [->|Hne].
    + right. assert (phase key0 v = RequestFresh) as ->.
      { unfold phase. rewrite Hnone. by rewrite bool_decide_eq_false_2. }
      erewrite phase_pending; [| |exact Hpend|]; simpl; [|apply lookup_insert_eq..]. by constructor.
    + left. apply phase_other; simpl; [by rewrite lookup_insert_ne|done|]. intros row' Hr' Hp'. rewrite lookup_insert_ne; [done|].
      intros E. destruct (vo_pending _ Hok _ _ Hr' Hp') as (Hlaunch' & i & Hi & Hs). rewrite <- E in Hi.
      by eapply free_serves.
  - destruct (vw_reservations v !! key) as [row|] eqn:Hr; [destruct (decide (lr_status row = PENDING)) as [Hp|Hp];
      [destruct (decide (row_session key row = k)) as [E|Hne]|]|].
    + right. erewrite (phase_pending v key row i); [|done|done|congruence].
      erewrite phase_pending; [| |exact Hp|]; simpl; [|exact Hr|rewrite E; apply lookup_insert_eq]. by constructor.
    + left. apply phase_other; simpl; [done..|]. rewrite Hr. intros row' [= <-] _. by rewrite lookup_insert_ne.
    + left. apply phase_other; simpl; [done..|]. rewrite Hr. intros row' [= <-] ?. done.
    + left. apply phase_other; simpl; [done..|]. by rewrite Hr.
  - destruct (decide (key = key0)) as [->|Hne].
    + right. erewrite (phase_pending v); [|done..]. unfold phase. simpl. rewrite lookup_delete_eq, bool_decide_eq_true_2 by set_solver.
      by constructor.
    + left. apply phase_other; simpl; [by rewrite lookup_delete_ne|set_solver|]. intros row' Hr' Hp'.
      rewrite lookup_insert_ne; [done|]. intros E. symmetry in E. revert E. by apply Hfreed.
  - destruct (decide (key = key0)) as [->|Hne].
    + right. erewrite (phase_pending v); [|done..]. unfold phase. simpl. rewrite lookup_insert_eq. simpl. by econstructor.
    + left. apply phase_other; simpl; [by rewrite lookup_insert_ne|done|]. intros row' Hr' Hp'.
      rewrite lookup_insert_ne; [done|]. intros E. symmetry in E. revert E. by apply Hfreed.
  - destruct (decide (key ∈ vw_commands v' /\ key ∉ vw_commands v)) as [[Hin Hn]|Hsame].
    + right. unfold phase. rewrite Hres, (Hfresh _ Hin Hn), (bool_decide_eq_true_2 _ Hin), (bool_decide_eq_false_2 _ Hn). constructor.
    + left. apply phase_other; [by rewrite Hres| |].
      * split; [|apply Hcmds]. intros Hin. destruct (decide (key ∈ vw_commands v)); [done|]. by destruct Hsame.
      * intros row Hr Hp. destruct (vo_pending _ Hok _ _ Hr Hp) as (Hlaunch & i & Hi & _). rewrite Hi. by apply Hold.
Qed.

(** A request does not come back to a phase it left. *)
Definition phase_rank (p : RequestPhase) : nat :=
  match p with
  | RequestFresh => 0
  | RequestUnderWay _ IntentPrepared => 1
  | RequestUnderWay _ IntentEffectInflight => 2
  | RequestUnderWay _ IntentUnconfirmed => 3
  | RequestUnderWay _ _ => 4
  | RequestRefused | RequestAnswered => 5
  end.
(** Only a start goes back, to be prepared again. *)
Definition starts_again (p p' : RequestPhase) : Prop :=
  p' = RequestUnderWay ActionStart IntentPrepared /\
  (p = RequestUnderWay ActionStart IntentEffectInflight \/ p = RequestUnderWay ActionStart IntentUnconfirmed).
Lemma phase_step_rank e p p' :
  phase_step e p p' -> (phase_rank p < phase_rank p')%nat \/ e = Retried /\ starts_again p p'.
Proof.
  intros [a s Hs|a s s' Hs|a s Hs|a s Hs|].
  - left. destruct a, s; simpl in *; try done; lia.
  - destruct a, s, s'; simpl in *; try done; try (left; simpl; lia); right; (split; [by destruct e|]); (split; [done|]);
      [by left|by right].
  - left. destruct a, s; simpl in *; try done; lia.
  - left. destruct a, s; simpl in *; try done; lia.
  - left. simpl. lia.
Qed.
End machine.

(** ** The operations follow the machine *)

Section refinement.
Context `{UnicodeGeneralCategory, CharCase, UnicodeCase, Caseless, Sha256, Chrono, Entropy, PersonaLibrary, UuidCrate, ChronoRange,
  AttendeeParent, RequestSerde, RegexCrate, ByteDigest}.
Hypothesis bytes_inj : forall a b, sha256_bytes a = sha256_bytes b -> a = b.

Definition lifecycle_ok (st : RoomStore) : Prop := view_ok (view st) /\ store_ok st.

(** What a transaction must show. *)
Definition refined_by (e : Evidence) (st st' : RoomStore) : Prop := view_step e (view st) (view st') /\ store_ok st'.
Abbreviation refined := (refined_by Commanded).

Lemma same_view {e} st st' : view st' = view st -> store_ok st' -> refined_by e st st'.
Proof. intros E Hok. split; [|done]. rewrite E. apply VwOther; try done. by intros k i -> [=]. Qed.

Lemma settled_view st st' : settled st st' -> view st' = view st.
Proof. intros Hs. unfold view. by rewrite (sl_sessions _ _ Hs), (sl_reservations _ _ Hs), (sl_commands _ _ Hs). Qed.

(** What the machine does not see. *)
Definition hidden (st st' : RoomStore) : Prop := store_ok st -> view st' = view st /\ store_ok st'.
#[export] Instance hidden_preorder : PreOrder hidden.
Proof. split; [by intros st|]. intros a b c Hab Hbc Ha. destruct (Hab Ha) as [E Hb]. destruct (Hbc Hb). split; [congruence|done]. Qed.
Lemma settled_hidden st st' : settled st st' -> hidden st st'.
Proof. intros Hs Hok. split; [by apply settled_view|by apply (sl_ok _ _ Hs)]. Qed.
Lemma still_hidden st st' : still st st' -> hidden st st'.
Proof.
  intros [Es Hk Hc] Hok. split; [|by apply Hk]. unfold view. by rewrite Es, (ca_reservations _ _ Hc), (ca_commands _ _ Hc).
Qed.

Lemma view_lookup st k s : st_sessions st !! k = Some s -> vw_intents (view st) !! k = Some (intent_of s).
Proof. intros Hs. simpl. by rewrite lookup_fmap, Hs. Qed.
Lemma keyed {A} (m : gmap (str * str) A) a k s' : session_key s' = k -> m !! k = Some a -> m !! session_key s' = Some a.
Proof. by intros ->. Qed.
Lemma view_sessions st s :
  intent_of <$> <[session_key s := s]> (st_sessions st) = <[session_key s := intent_of s]> (vw_intents (view st)).
Proof. simpl. by rewrite fmap_insert. Qed.

Lemma intent_empty_iff s : lifecycle_intent_is_empty s = true <-> intent_of s = no_intent.
Proof.
  unfold lifecycle_intent_is_empty, intent_of, no_intent.
  by destruct (d_lifecycle_intent_action s), (d_lifecycle_intent_status s), (d_lifecycle_intent_id s).
Qed.

Lemma require_intent_Ok s action op status code t :
  require_intent s action op status code = Ok t -> intent_of s = MkIntent action op status.
Proof.
  unfold require_intent, intent_is, intent_of. intros Hr%require_Ok. bool_to_prop. unfold str_eqb in *. bool_to_prop. congruence.
Qed.
Lemma matching_operation_Ok s action op t :
  require_matching_operation s action op = Ok t -> in_action (intent_of s) = action /\ in_operation (intent_of s) = op.
Proof.
  unfold require_matching_operation, intent_is. intros Hr%require_Ok. bool_to_prop. unfold str_eqb in *. by bool_to_prop.
Qed.

Lemma existing_command_None key action hash st : existing_command key action hash st = Ok None -> st_commands st !! key = None.
Proof.
  unfold existing_command. intros (? & _ & Hr)%bind_Ok. destruct (st_commands st !! key); [|done].
  apply bind_Ok in Hr as (? & _ & Hr). by destruct (stored_outcome _).
Qed.

(** The row a reservation finds, and the session it is for. *)
Lemma pending_row r row st s :
  view_ok (view st) -> st_reservations st !! reservation_key r = Some row -> reservation_pending r row = true ->
  st_sessions st !! (pr_room_id (rv_principal r), rv_session_id r) = Some s ->
  lr_status row = PENDING /\ row_session (reservation_key r) row = (pr_room_id (rv_principal r), rv_session_id r) /\
  lr_operation_id row = rv_operation_id r /\ lr_action row = rv_action r /\ lr_payload_hash row = rv_payload_hash r /\
  lr_phase row = rv_phase r /\ row_launches row /\ serves row (intent_of s).
Proof.
  intros Hok Hr Hp Hs. unfold reservation_pending, reservation_matches in Hp. bool_to_prop. unfold str_eqb in *. bool_to_prop.
  assert (row_session (reservation_key r) row = (pr_room_id (rv_principal r), rv_session_id r)) as Hses.
  { unfold row_session. simpl. congruence. }
  destruct (vo_pending _ Hok (reservation_key r) row Hr) as (Hl & i & Hi & Hsv); [done|].
  rewrite Hses, (view_lookup _ _ _ Hs) in Hi. injection Hi as <-. by split_and!.
Qed.

(** Without a row for its key, no session serves an operation. *)
Lemma no_row_no_intent st key action k s :
  key_ok key -> field_ok action -> view_ok (view st) -> st_reservations st !! key = None -> st_sessions st !! k = Some s ->
  in_operation (intent_of s) = key_operation key action -> intent_of s = no_intent.
Proof.
  intros Hk Ha Hok Hn Hs Ho. destruct (vo_intent _ Hok k (intent_of s)) as [->|(key' & row & Hr & Hp & -> & Hsv)]; [by apply view_lookup|done|].
  exfalso. destruct (vo_row _ Hok _ _ Hr) as (Hk' & Ha' & E & _). rewrite (sv_operation _ _ Hsv), E in Ho.
  apply operation_inj in Ho as ->; [|done..].
  simpl in Hr. congruence.
Qed.

(** An intent that goes on. *)
Lemma refined_move e st st1 st' s s' :
  store_ok st -> st_sessions st !! session_key s' = Some s -> in_action (intent_of s') = in_action (intent_of s) ->
  in_operation (intent_of s') = in_operation (intent_of s) ->
  intent_next e (in_action (intent_of s)) (in_status (intent_of s)) (in_status (intent_of s')) = true ->
  save_session s' st = Ok (tt, st1) -> settled st1 st' -> refined_by e st st'.
Proof.
  intros Hok Hs Ha Ho Hn [_ ->]%save_session_Ok Hset. split.
  - rewrite (settled_view _ _ Hset). unfold view at 2. simpl st_sessions. rewrite view_sessions.
    replace (intent_of s') with (MkIntent (in_action (intent_of s)) (in_operation (intent_of s)) (in_status (intent_of s'))).
    + eapply VwMove; [by eapply view_lookup|done].
    + rewrite <- Ha, <- Ho. by destruct (intent_of s').
  - apply (sl_ok _ _ Hset), (store_ok_save s'), Hok.
Qed.

(** A session that keeps its intent. *)
Lemma same_intent_view st s s' :
  st_sessions st !! session_key s' = Some s -> intent_of s' = intent_of s ->
  view (st <| st_sessions := <[session_key s' := s']> (st_sessions st) |>) = view st.
Proof.
  intros Hs Hi. unfold view. simpl. f_equal. rewrite fmap_insert, Hi. apply insert_id. by rewrite lookup_fmap, Hs.
Qed.
Lemma save_hidden s s' st st' :
  st_sessions st !! session_key s' = Some s -> intent_of s' = intent_of s -> save_session s' st = Ok (tt, st') -> hidden st st'.
Proof. intros Hs Hi [_ ->]%save_session_Ok Hok. split; [by apply (same_intent_view st s)|by apply store_ok_save]. Qed.

(** An effect that took place answers its request. *)
Lemma refined_finish e r st st1 st2 st3 st' s s' principal request_id action hash result events outcome t :
  lifecycle_ok st -> st_sessions st !! session_key s' = Some s ->
  session_key s' = (pr_room_id (rv_principal r), rv_session_id r) -> intent_of s' = no_intent ->
  intent_answers e (in_action (intent_of s)) (in_status (intent_of s)) = true ->
  finish_lifecycle_command r st = Ok (t, st1) -> save_session s' st1 = Ok (tt, st2) -> settled st2 st3 ->
  command_key principal request_id = reservation_key r ->
  store_result principal request_id action hash result events st3 = Ok (outcome, st') -> refined_by e st st'.
Proof.
  intros [Hv Hok] Hs Hkey Hno Hans (row & Hr & Hp & ->)%finish_Ok [_ ->]%save_session_Ok Hset Hk (_ & c & _ & _ & ->)%store_result_Ok.
  rewrite Hkey in Hs. destruct (pending_row _ _ _ _ Hv Hr Hp Hs) as (Hpend & Hses & _ & _ & _ & _ & _ & Hsv). split.
  - destruct Hset. unfold view at 2. simpl.
    rewrite sl_sessions0, sl_reservations0, sl_commands0, dom_insert_L, Hk. simpl. rewrite fmap_insert, Hno.
    rewrite Hkey, <- Hses. eapply VwFinish; try done. rewrite Hses. by apply view_lookup.
  - simpl. assert (store_ok st3) as [? ?]; [|done]. apply (sl_ok _ _ Hset), (store_ok_save s'). by destruct Hok.
Qed.

(** An effect that did not take place refuses it. *)
Lemma refined_refuse e r code message st st1 st2 st' s s' t :
  lifecycle_ok st -> st_sessions st !! session_key s' = Some s ->
  session_key s' = (pr_room_id (rv_principal r), rv_session_id r) -> intent_of s' = no_intent ->
  intent_refuses e (in_action (intent_of s)) (in_status (intent_of s)) = true ->
  reject_lifecycle_command r code message st = Ok (t, st1) -> save_session s' st1 = Ok (tt, st2) -> settled st2 st' ->
  refined_by e st st'.
Proof.
  intros [Hv Hok] Hs Hkey Hno Href (_ & row & Hr & Hp & ->)%reject_Ok [_ ->]%save_session_Ok Hset.
  rewrite Hkey in Hs. destruct (pending_row _ _ _ _ Hv Hr Hp Hs) as (Hpend & Hses & _ & _ & _ & _ & _ & Hsv). split.
  - rewrite (settled_view _ _ Hset). unfold view at 2. simpl. rewrite fmap_insert, Hno, Hkey, <- Hses.
    eapply VwRefuse; try done. rewrite Hses. by apply view_lookup.
  - apply (sl_ok _ _ Hset), (store_ok_save s'). by destruct Hok.
Qed.

(** A request that is answered at once. *)
Lemma record_refined e key row st :
  store_ok st -> st_reservations st !! key = None -> refined_by e st (st <| st_commands := <[key := row]> (st_commands st) |>).
Proof.
  intros [Hk Hp] Hn. split; [|done]. unfold view at 2. simpl. rewrite dom_insert_L. apply VwOther; simpl; try done; [|set_solver|].
  - by intros k i ->.
  - by intros key' [->%elem_of_singleton|?]%elem_of_union.
Qed.
Lemma refined_answer st st1 st' principal request_id action hash result events outcome :
  lifecycle_ok st -> view st1 = view st -> store_ok st1 -> st_reservations st !! command_key principal request_id = None ->
  store_result principal request_id action hash result events st1 = Ok (outcome, st') -> refined st st'.
Proof.
  intros _ E Hok1 Hn (_ & c & _ & _ & ->)%store_result_Ok. unfold refined_by. rewrite <- E. apply record_refined; [done|].
  unfold view in E. by injection E as _ -> _.
Qed.

(** A reservation and the intent of a session that was free. *)
Lemma refined_claim generation r payload st st1 st2 st' s s' :
  lifecycle_ok st -> st_commands st !! reservation_key r = None -> st_sessions st !! session_key s' = Some s ->
  session_key s' = (pr_room_id (rv_principal r), rv_session_id r) -> intent_of s = no_intent ->
  in_action (intent_of s') = action_kind (rv_action r) -> in_operation (intent_of s') = rv_operation_id r ->
  rv_operation_id r = key_operation (reservation_key r) (rv_action r) ->
  claim_status (in_action (intent_of s')) (in_status (intent_of s')) = true ->
  key_ok (reservation_key r) -> field_ok (rv_action r) -> row_launches (reserved_row generation r payload) ->
  claimed generation r payload st st1 -> save_session s' st1 = Ok (tt, st2) -> settled st2 st' -> refined st st'.
Proof.
  intros [Hv Hok] Hc Hs Hkey Hno Ha Ho Hop Hcl Hko Hao Hl (Hn & Hres & Hses & Hcmd & _ & _ & Hok1) [_ ->]%save_session_Ok Hset. split.
  - rewrite (settled_view _ _ Hset). unfold view at 2. simpl. rewrite Hres, Hses, Hcmd, fmap_insert, Hkey.
    assert (intent_of s' = MkIntent (action_kind (rv_action r)) (rv_operation_id r) (in_status (intent_of s'))) as ->.
    { rewrite <- Ha, <- Ho. by destruct (intent_of s'). }
    rewrite Hkey in Hs.
    apply (VwClaim _ (view st) (reservation_key r) (reserved_row generation r payload)); simpl; try done.
    + by apply not_elem_of_dom.
    + unfold free, row_session. simpl. by rewrite lookup_fmap, Hs, <- Hno.
    + by rewrite <- Ha.
  - by apply (sl_ok _ _ Hset), (store_ok_save s'), Hok1.
Qed.

(** ** Starting *)

Lemma load_launch_Ok room_id session_id st s :
  load_launch_session room_id session_id st = Ok s ->
  st_sessions st !! (room_id, session_id) = Some s /\ session_key s = (room_id, session_id) /\
  cleanup_exists room_id session_id st = false /\
  s_external_owned (d_public s) = false /\ s_process_ownership (d_public s) = u "server".
Proof.
  unfold load_launch_session, require_server_custody. intros Hr. res_inv. bool_to_prop. unfold str_eqb in *. bool_to_prop.
  rename select (load_session _ _ _ = _) into Hl. apply load_session_Ok in Hl as [? ?]. by split_and!.
Qed.

Lemma start_effect_intent s op h o l s' :
  authorize_start_effect s op h o l = Ok s' ->
  session_key s' = session_key s /\ intent_of s = MkIntent ActionStart op IntentPrepared /\
  intent_of s' = MkIntent ActionStart op IntentEffectInflight.
Proof.
  unfold authorize_start_effect. intros (? & Hi%require_intent_Ok & Hr)%bind_Ok. apply bind_Ok in Hr as (? & _ & [= <-]).
  split_and!; [done|done|]. unfold intent_of in *. simpl. by injection Hi as -> -> _.
Qed.

Lemma authorize_start_refined generation authority request_id payload op action h o l st e st' :
  authorize_agent_start_effect generation authority request_id payload op action h o l st = Ok (e, st') ->
  lifecycle_ok st -> refined st st'.
Proof.
  unfold authorize_agent_start_effect. intros (principal & st1 & [_ <-]%reads_Ok & Hr)%rtx_bind_Ok [_ Hok].
  apply rtx_bind_Ok in Hr as ([agent_id start] & st1 & [_ <-]%lift_Ok & Hr). cbv zeta in Hr.
  apply rtx_bind_Ok in Hr as (? & st1 & [_ <-]%lift_Ok & Hr). apply rtx_bind_Ok in Hr as (? & st1 & [_ <-]%reads_Ok & Hr).
  apply rtx_bind_Ok in Hr as (? & st1 & [_ <-]%reads_Ok & Hr).
  apply rtx_bind_Ok in Hr as (s & st1 & [Hl%load_launch_Ok <-]%reads_Ok & Hr). destruct Hl as (Hs & Hkey & _).
  apply rtx_bind_Ok in Hr as (s' & st1 & [(Hk' & Hi & Hi')%start_effect_intent <-]%lift_Ok & Hr).
  apply rtx_bind_Ok in Hr as ([] & st1 & Hsave & Hr). apply rtx_ret_Ok in Hr as [_ <-].
  eapply (refined_move Commanded st st1 st1 s s'); rewrite ?Hi, ?Hi'; try done. congruence.
Qed.

Lemma started_intent started now s : intent_of (apply_runtime_started started now s) = no_intent.
Proof. done. Qed.

Lemma complete_refined principal request_id payload op started action now st outcome st' :
  complete_agent_launch principal request_id payload op started action now st = Ok (outcome, st') ->
  lifecycle_ok st -> refined st st'.
Proof.
  unfold complete_agent_launch. intros ([agent_id start] & st1 & [_ <-]%lift_Ok & Hr)%rtx_bind_Ok Hok. cbv zeta in Hr.
  apply rtx_bind_Ok in Hr as (? & st1 & [_ <-]%lift_Ok & Hr). apply rtx_bind_Ok in Hr as (? & st1 & [_ <-]%reads_Ok & Hr).
  apply rtx_bind_Ok in Hr as (replay & st1 & [_ <-]%reads_Ok & Hr).
  destruct replay; [apply rtx_ret_Ok in Hr as [_ <-]; by apply same_view; [|apply Hok]|].
  apply rtx_bind_Ok in Hr as (s & st1 & [Hl%load_launch_Ok <-]%reads_Ok & Hr). destruct Hl as (Hs & Hkey & _).
  apply rtx_bind_Ok in Hr as (? & st1 & [_ <-]%lift_Ok & Hr).
  apply rtx_bind_Ok in Hr as (? & st1 & [Hi%require_intent_Ok <-]%lift_Ok & Hr).
  apply rtx_bind_Ok in Hr as (? & st1 & Hfin & Hr). apply rtx_bind_Ok in Hr as ([] & st2 & Hsave & Hr).
  apply rtx_bind_Ok in Hr as (p & st3 & [_ <-]%reads_Ok & Hr).
  apply rtx_bind_Ok in Hr as (? & st4 & Hsp%save_participant_settled & Hr).
  unfold commit_launch_result in Hr. apply rtx_bind_Ok in Hr as (events & st5 & He%append_launch_events_settled & Hr). cbv zeta in Hr.
  eapply refined_finish; [exact Hok| | | | |exact Hfin|exact Hsave| | |exact Hr].
  - by eapply keyed.
  - exact Hkey.
  - apply started_intent.
  - by rewrite Hi.
  - by etrans.
  - done.
Qed.

Lemma failed_launch_intent clear code message now s :
  session_key (failed_launch clear code message now s) = session_key s /\ intent_of (failed_launch clear code message now s) = no_intent.
Proof. unfold failed_launch. by repeat case_match. Qed.

Lemma fail_launch_refined principal request_id hash agent_id op code message action ph prepared status clear now st c st' :
  intent_refuses Commanded ActionStart status = true ->
  commit_agent_launch_failure principal request_id hash agent_id op code message action ph prepared status clear now st = Ok (c, st') ->
  lifecycle_ok st -> refined st st'.
Proof.
  intros Hst. unfold commit_agent_launch_failure. intros (? & st1 & [_ <-]%reads_Ok & Hr)%rtx_bind_Ok Hok.
  apply rtx_bind_Ok in Hr as (s & st1 & [Hl%load_session_Ok <-]%reads_Ok & Hr). destruct Hl as [Hs Hkey].
  apply rtx_bind_Ok in Hr as (? & st1 & [Hi%require_intent_Ok <-]%lift_Ok & Hr). cbv zeta in Hr.
  apply rtx_bind_Ok in Hr as (? & st1 & Hrej & Hr). apply rtx_bind_Ok in Hr as ([] & st2 & Hsave & Hr).
  apply rtx_bind_Ok in Hr as (e & st3 & He%append_error_event_settled & Hr).
  apply rtx_bind_Ok in Hr as (e' & st4 & He'%append_state_event_settled & Hr). apply rtx_ret_Ok in Hr as [_ <-].
  destruct (failed_launch_intent clear code message now s) as [Hk Hno].
  eapply refined_refuse; [exact Hok| | | | |exact Hrej|exact Hsave|by etrans]; rewrite ?Hk, ?Hi, ?Hkey; done.
Qed.

Lemma start_unconfirmed_refined principal agent_id op h o code message now st events st' :
  mark_agent_start_unconfirmed principal agent_id op h o code message now st = Ok (events, st') -> lifecycle_ok st -> refined st st'.
Proof.
  unfold mark_agent_start_unconfirmed. intros (? & st1 & [_ <-]%reads_Ok & Hr)%rtx_bind_Ok [_ Hok].
  apply rtx_bind_Ok in Hr as (s & st1 & [Hl%load_session_Ok <-]%reads_Ok & Hr). destruct Hl as [Hs Hkey].
  apply rtx_bind_Ok in Hr as (? & st1 & [Hi%require_intent_Ok <-]%lift_Ok & Hr).
  apply rtx_bind_Ok in Hr as (? & st1 & [_ <-]%lift_Ok & Hr). cbv zeta in Hr.
  apply rtx_bind_Ok in Hr as ([] & st1 & Hsave & Hr). apply rtx_bind_Ok in Hr as (e & st3 & He%append_error_event_settled & Hr).
  apply rtx_bind_Ok in Hr as (e' & st4 & He'%append_state_event_settled & Hr). apply rtx_ret_Ok in Hr as [_ <-].
  eapply (refined_move Commanded st st1 st4 s); [exact Hok| | | | |exact Hsave|by etrans].
  - by eapply keyed.
  - done.
  - done.
  - by rewrite Hi.
Qed.

Hypothesis digest_inj : forall a b, sha256_hex a = sha256_hex b -> a = b.

Lemma matching_start_cases s op incomplete :
  matching_start_intent s op = Ok incomplete ->
  (incomplete = false /\ intent_of s = no_intent) \/ (incomplete = true /\ intent_of s = MkIntent ActionStart op IntentPrepared).
Proof.
  unfold matching_start_intent. destruct (lifecycle_intent_is_empty s) eqn:E; [intros [= <-]; left; by rewrite <- intent_empty_iff|].
  intros (? & [Ha Ho]%matching_operation_Ok & Hr)%bind_Ok. destruct (d_lifecycle_intent_status s) eqn:Es; try done.
  injection Hr as <-. right. split; [done|]. unfold intent_of in *. simpl in *. by rewrite Ha, Ho, Es.
Qed.

Lemma stop_field : field_ok STOP.
Proof. apply short_field; [repeat constructor|simpl; lia]. Qed.
Lemma launch_action payload action id start :
  launch_payload payload action = Ok (id, start) -> action_kind action = ActionStart /\ action <> STOP /\ field_ok action.
Proof.
  unfold launch_payload. destruct (contains [START; RESUME] action) eqn:E.
  - intros _. apply contains_true in E. apply elem_of_cons in E as [->|E]; [|apply list_elem_of_singleton in E as ->];
      (split_and!; [done|done|apply short_field; [repeat constructor|simpl; lia]]).
  - destruct (str_eqb action READD) eqn:E'; [|done]. unfold str_eqb in E'. bool_to_prop. subst.
    intros _. split_and!; [done|done|apply short_field; [repeat constructor|simpl; lia]].
Qed.

Lemma finish_claimed generation r payload st st1 st2 t :
  claimed generation r payload st st1 -> finish_lifecycle_command r st1 = Ok (t, st2) ->
  view st2 = view st /\ (store_ok st -> store_ok st2).
Proof.
  intros (Hn & Hres & Hses & Hcmd & _ & _ & Hok) (row & _ & _ & ->)%finish_Ok. split.
  - unfold view. simpl. by rewrite Hres, Hses, Hcmd, delete_insert_id.
  - intros [? ?]%Hok. by split.
Qed.

(** The strings that name a request are Rust strings. *)
Definition asked_by (authority : RoomStore -> tx AuthenticatedPrincipal) (request_id : str) (st : RoomStore) : Prop :=
  forall principal, authority st = Ok principal -> key_ok (command_key principal request_id).

Lemma readd_listing_refined principal request_id hash s p now st st1 outcome st' :
  lifecycle_ok st -> view st1 = view st -> store_ok st1 -> st_reservations st !! command_key principal request_id = None ->
  st_sessions st1 !! session_key s = Some s ->
  commit_readd_listing principal request_id hash s p now st1 = Ok (outcome, st') -> refined st st'.
Proof.
  intros Hok E Hok1 Hn Hs. unfold commit_readd_listing. cbv zeta. intros ([] & st2 & [_ ->]%save_session_Ok & Hr)%rtx_bind_Ok.
  apply rtx_bind_Ok in Hr as (? & st3 & Hp%save_participant_settled & Hr).
  apply rtx_bind_Ok in Hr as (e & st4 & He%append_session_event_settled & Hr).
  assert (settled (st1 <| st_sessions := <[session_key (readd_session now s) := readd_session now s]> (st_sessions st1) |>) st4)
    as Hset by (by etrans).
  eapply refined_answer; [exact Hok| | |exact Hn|exact Hr].
  - rewrite (settled_view _ _ Hset), <- E. by apply (same_intent_view st1 s).
  - apply (sl_ok _ _ Hset), (store_ok_save (readd_session now s)), Hok1.
Qed.

Lemma prepare_launch_refined generation authority request_id payload action now st plan st' :
  value_wf payload -> asked_by authority request_id st ->
  prepare_agent_launch generation authority request_id payload action now st = Ok (plan, st') ->
  lifecycle_ok st -> refined st st'.
Proof.
  intros Hwf Hasked. unfold prepare_agent_launch. intros (principal & st1 & [Hby <-]%reads_Ok & Hr)%rtx_bind_Ok Hok.
  apply Hasked in Hby.
  apply rtx_bind_Ok in Hr as (? & st1 & [_ <-]%lift_Ok & Hr).
  apply rtx_bind_Ok in Hr as ([agent_id start] & st1 & [Hlaunch <-]%lift_Ok & Hr). cbv zeta in Hr.
  destruct (launch_action _ _ _ _ Hlaunch) as (Hkind & Hnstop & Haction).
  apply rtx_bind_Ok in Hr as (? & st1 & [_ <-]%reads_Ok & Hr).
  apply rtx_bind_Ok in Hr as (replay & st1 & [Hcmd <-]%reads_Ok & Hr).
  destruct replay; [apply rtx_ret_Ok in Hr as [_ <-]; by apply same_view; [|apply Hok]|].
  apply existing_command_None in Hcmd. set (op := lifecycle_operation_id principal request_id action) in *.
  set (r := new_reservation principal request_id action (canonical_payload_hash payload) agent_id op) in *.
  apply rtx_bind_Ok in Hr as (? & st1 & Hclaim%claim_Ok & Hr).
  assert (Hses1 : st_sessions st1 = st_sessions st).
  { destruct Hclaim as [(? & _ & _ & ->)|(_ & _ & ? & _)]; done. }
  apply rtx_bind_Ok in Hr as (s & st2 & [Hl%load_launch_Ok <-]%reads_Ok & Hr). destruct Hl as (Hs & Hkey & _).
  apply rtx_bind_Ok in Hr as (? & st2 & [_ <-]%lift_Ok & Hr). apply rtx_bind_Ok in Hr as (p & st2 & [_ <-]%reads_Ok & Hr).
  apply rtx_bind_Ok in Hr as (? & st2 & [_ <-]%lift_Ok & Hr). apply rtx_bind_Ok in Hr as (? & st2 & [_ <-]%lift_Ok & Hr).
  apply rtx_bind_Ok in Hr as (? & st2 & [_ <-]%lift_Ok & Hr).
  apply rtx_bind_Ok in Hr as (incomplete & st2 & [Hm%matching_start_cases <-]%lift_Ok & Hr).
  apply rtx_bind_Ok in Hr as (? & st2 & [_ <-]%lift_Ok & Hr). rewrite Hses1 in Hs.
  destruct Hclaim as [(row & Hrow & Hp & ->)|Hclaim].
  - destruct (pending_row r row st s (proj1 Hok) Hrow Hp Hs) as (_ & _ & _ & Hact & Hhash & Hph & Hl & Hsv).
    destruct Hm as [[_ E]|[-> _]]; [by destruct (serves_some_intent _ _ Hsv)|].
    assert (start = true) as ->.
    { destruct Hl as (p' & Hwf' & Hh & Hl'); [by rewrite Hact|done|]. rewrite Hhash in Hh. rewrite Hact in Hl'. simpl in Hl'.
      rewrite (same_launch payload p') in Hlaunch by (by apply hash_same_payload). rewrite Hlaunch in Hl'. by injection Hl'. }
    simpl in Hr. apply rtx_bind_Ok in Hr as ([] & st2 & [_ ->]%save_session_Ok & Hr). apply rtx_ret_Ok in Hr as [_ <-].
    apply same_view; [apply (same_intent_view st s); [by eapply keyed|done]|apply (store_ok_save s), Hok].
  - pose proof Hclaim as (Hnone & _). destruct Hm as [[-> Hfree]|[-> E]].
    2:{ exfalso. assert (intent_of s = no_intent) as Hno; [|by rewrite Hno in E].
        apply (no_row_no_intent st (reservation_key r) action _ s Hby Haction (proj1 Hok) Hnone Hs). by rewrite E. }
    destruct start; simpl in Hr.
    + apply rtx_bind_Ok in Hr as ([] & st2 & Hsave & Hr). apply rtx_ret_Ok in Hr as [_ <-].
      eapply (refined_claim generation r payload st st1 st2 st2 s);
        [exact Hok|exact Hcmd| | |exact Hfree| | |exact eq_refl| |exact Hby|exact Haction| |exact Hclaim|exact Hsave|done].
      * by eapply keyed.
      * exact Hkey.
      * exact (eq_sym Hkind).
      * done.
      * done.
      * intros _ _. by exists payload.
    + apply rtx_bind_Ok in Hr as (? & st2 & Hfin & Hr). apply rtx_bind_Ok in Hr as (outcome & st3 & Hlist & Hr).
      apply rtx_ret_Ok in Hr as [_ <-]. destruct (finish_claimed _ _ _ _ _ _ _ Hclaim Hfin) as [E Hok2].
      eapply readd_listing_refined; [exact Hok|exact E|apply Hok2, Hok|exact Hnone| |exact Hlist].
      apply finish_Ok in Hfin as (? & _ & _ & ->). simpl. rewrite Hses1. by eapply keyed.
Qed.

(** ** Stopping *)

Lemma request_runtime_cleanup_Ok s now st s' st' :
  request_runtime_cleanup s now st = Ok (s', st') -> exists st1,
  st_sessions st1 = st_sessions st /\ st_reservations st1 = st_reservations st /\ st_commands st1 = st_commands st /\
  (st_drawn st <= st_drawn st1)%nat /\ (store_ok st -> store_ok st1) /\ st_rooms st1 = st_rooms st /\
  save_session s' st1 = Ok (tt, st') /\
  (s' = cleanup_session now s \/ s' = cleanup_session now (with_runtime_status RuntimeStopped s)) /\
  is_ok (active_turn_authority s) = true.
Proof.
  unfold request_runtime_cleanup, session_key. intros (? & st1 & [Hv%require_Ok <-]%lift_Ok & Hr)%rtx_bind_Ok.
  apply rtx_bind_Ok in Hr as (existed & st1 & [_ <-]%reads_Ok & Hr). apply rtx_bind_Ok in Hr as (? & st1 & ->%modifies_Ok & Hr).
  apply rtx_bind_Ok in Hr as (s1 & st2 & Hreq & Hr). cbv zeta in Hr. apply rtx_bind_Ok in Hr as ([] & st3 & Hsave & Hr).
  apply rtx_ret_Ok in Hr as [<- <-]. exists st2. revert Hreq. case_match.
  - unfold request_attendee_cleanup. intros (id & st4 & [_ ->]%draw_uuid_Ok & Hr)%rtx_bind_Ok.
    apply rtx_bind_Ok in Hr as (? & st5 & ->%modifies_Ok & Hr). apply rtx_ret_Ok in Hr as [<- <-].
    split_and!; simpl; try done; [lia|by intros [Hk Hp]|]. case_match; [by right|by left].
  - intros [<- <-]%rtx_ret_Ok. split_and!; simpl; try done; [by intros [Hk Hp]|]. by left.
Qed.

Lemma prepare_stop_refined generation authority request_id payload now st plan st' :
  asked_by authority request_id st -> prepare_agent_stop generation authority request_id payload now st = Ok (plan, st') ->
  lifecycle_ok st -> refined st st'.
Proof.
  intros Hasked. unfold prepare_agent_stop. intros (principal & st1 & [Hby <-]%reads_Ok & Hr)%rtx_bind_Ok Hok. apply Hasked in Hby.
  apply rtx_bind_Ok in Hr as (? & st1 & [_ <-]%lift_Ok & Hr). apply rtx_bind_Ok in Hr as (agent_id & st1 & [_ <-]%lift_Ok & Hr).
  cbv zeta in Hr. apply rtx_bind_Ok in Hr as (? & st1 & [_ <-]%reads_Ok & Hr).
  apply rtx_bind_Ok in Hr as (replay & st1 & [Hcmd <-]%reads_Ok & Hr).
  destruct replay; [apply rtx_ret_Ok in Hr as [_ <-]; by apply same_view; [|apply Hok]|].
  apply existing_command_None in Hcmd. set (op := lifecycle_operation_id principal request_id STOP) in *.
  set (r := new_reservation principal request_id STOP (canonical_payload_hash payload) agent_id op) in *.
  apply rtx_bind_Ok in Hr as (s & st1 & [Hl%load_session_Ok <-]%reads_Ok & Hr). destruct Hl as (Hs & Hkey).
  apply rtx_bind_Ok in Hr as (? & st1 & [_ <-]%lift_Ok & Hr). apply rtx_bind_Ok in Hr as (? & st1 & Hclaim%claim_Ok & Hr).
  destruct Hclaim as [(row & Hrow & Hp & ->)|Hclaim].
  - (* the request is already under way *)
    destruct (pending_row r row st s (proj1 Hok) Hrow Hp Hs) as (_ & _ & _ & _ & _ & _ & _ & Hsv).
    assert (lifecycle_intent_is_empty s = false) as Hne.
    { apply not_true_is_false. intros E%intent_empty_iff. by destruct (serves_some_intent _ _ Hsv). }
    unfold agent_stop_requires_cleanup in Hr. rewrite Hne, !orb_true_r in Hr. simpl in Hr. case_match.
    + apply rtx_bind_Ok in Hr as (events & st2 & He & Hr). apply rtx_ret_Ok in Hr as [_ <-].
      unfold prepare_external_stop in He. rewrite Hne in He. simpl in He. apply rtx_bind_Ok in He as (? & st1 & [_ <-]%lift_Ok & He).
      apply rtx_bind_Ok in He as (? & st1 & [_ <-]%reads_Ok & He). apply rtx_bind_Ok in He as (? & st1 & [_ <-]%lift_Ok & He).
      apply rtx_ret_Ok in He as [_ <-]. by apply same_view; [|apply Hok].
    + apply rtx_bind_Ok in Hr as (? & st1 & [_ <-]%lift_Ok & Hr). apply lift_Ok in Hr as [_ <-]. by apply same_view; [|apply Hok].
  - pose proof Hclaim as (Hnone & _ & Hses1 & _).
    assert (Hop : in_operation (intent_of s) = op -> intent_of s = no_intent).
    { intros E. by apply (no_row_no_intent st (reservation_key r) STOP _ s Hby stop_field (proj1 Hok) Hnone Hs). }
    assert (Hrefine : forall s' st0 st2 st3, session_key s' = session_key s ->
      in_action (intent_of s') = ActionStop -> in_operation (intent_of s') = op -> intent_of s = no_intent ->
      claim_status ActionStop (in_status (intent_of s')) = true -> claimed generation r payload st st0 ->
      save_session s' st0 = Ok (tt, st2) -> settled st2 st3 -> refined st st3).
    { intros s' st0 st2 st3 Hk Ha Ho Hfree Hst Hcl0 Hsave Hset.
      eapply (refined_claim generation r payload st st0 st2 st3 s); [exact Hok|exact Hcmd| | |exact Hfree| | |exact eq_refl| |exact Hby|exact stop_field| |exact Hcl0|exact Hsave|done].
      - rewrite Hk. by eapply keyed.
      - by rewrite Hk.
      - by rewrite Ha.
      - done.
      - by rewrite Ha.
      - by intros []. }
    destruct (agent_stop_requires_cleanup s) eqn:Hc; simpl in Hr.
    + case_match.
      * (* an attendee's runtime *)
        apply rtx_bind_Ok in Hr as (events & st2 & He & Hr). apply rtx_ret_Ok in Hr as [_ <-]. unfold prepare_external_stop in He.
        destruct (lifecycle_intent_is_empty s) eqn:Hempty; simpl in He.
        -- apply rtx_bind_Ok in He as (s' & st3 & (st4 & Es & Er & Ec & Hd4 & Hok4 & Hrooms4 & Hsave & Hs' & _)%request_runtime_cleanup_Ok & He).
           apply rtx_bind_Ok in He as (e & st5 & Hset%append_state_event_settled & He). apply rtx_ret_Ok in He as [_ <-].
           assert (session_key s' = session_key s /\ intent_of s' = MkIntent ActionStop op IntentEffectInflight) as [Hk Hi]
             by (destruct Hs' as [->| ->]; done).
           eapply (Hrefine s' st4 st3 st5); rewrite ?Hi; try done; [by apply intent_empty_iff|].
           destruct Hclaim as (? & Hres & _ & Hcmd1 & Hrooms & Hdrawn & Hok1). split_and!; try congruence; [lia|by auto].
        -- apply rtx_bind_Ok in He as (? & st3 & [[_ Ho]%matching_operation_Ok <-]%lift_Ok & He).
           apply Hop, intent_empty_iff in Ho. congruence.
      * (* a runtime of the server *)
        apply rtx_bind_Ok in Hr as (? & st3 & [_ <-]%lift_Ok & Hr). destruct (lifecycle_intent_is_empty s) eqn:Hempty; simpl in Hr.
        -- apply rtx_bind_Ok in Hr as (exited & st3 & [_ <-]%reads_Ok & Hr). apply rtx_bind_Ok in Hr as ([] & st3 & Hsave & Hr).
           assert (st' = st3) as ->.
           { destruct exited; [by apply rtx_ret_Ok in Hr as [_ <-]|by apply lift_Ok in Hr as [_ <-]]. }
           eapply (Hrefine _ st1); [| | |by apply intent_empty_iff| |exact Hclaim|exact Hsave|done]; try done. by destruct exited.
        -- apply lift_Ok in Hr as [Hr <-]. unfold stop_plan in Hr. apply bind_Ok in Hr as (? & [_ Ho]%matching_operation_Ok & _).
           apply Hop, intent_empty_iff in Ho. congruence.
    + (* already stopped *)
      apply rtx_bind_Ok in Hr as (? & st2 & Hfin & Hr). apply rtx_bind_Ok in Hr as (outcome & st3 & Hc' & Hr).
      apply rtx_ret_Ok in Hr as [_ <-]. destruct (finish_claimed _ _ _ _ _ _ _ Hclaim Hfin) as [E Hok2].
      unfold commit_already_stopped in Hc'. apply rtx_bind_Ok in Hc' as (e & st4 & Hset%append_state_event_settled & Hc').
      eapply refined_answer; [exact Hok| | |exact Hnone|exact Hc'].
      * by rewrite (settled_view _ _ Hset).
      * apply (sl_ok _ _ Hset), Hok2, Hok.
Qed.

Lemma authorize_stop_refined generation authority request_id payload op now st e st' :
  authorize_agent_stop_effect generation authority request_id payload op now st = Ok (e, st') -> lifecycle_ok st -> refined st st'.
Proof.
  unfold authorize_agent_stop_effect. intros (principal & st1 & [_ <-]%reads_Ok & Hr)%rtx_bind_Ok [_ Hok].
  apply rtx_bind_Ok in Hr as (agent_id & st1 & [_ <-]%lift_Ok & Hr). cbv zeta in Hr.
  apply rtx_bind_Ok in Hr as (? & st1 & [_ <-]%lift_Ok & Hr). apply rtx_bind_Ok in Hr as (? & st1 & [_ <-]%reads_Ok & Hr).
  apply rtx_bind_Ok in Hr as (? & st1 & [_ <-]%reads_Ok & Hr).
  apply rtx_bind_Ok in Hr as (s & st1 & [Hl%load_session_Ok <-]%reads_Ok & Hr). destruct Hl as [Hs Hkey].
  apply rtx_bind_Ok in Hr as (? & st1 & [Hi%require_intent_Ok <-]%lift_Ok & Hr).
  apply rtx_bind_Ok in Hr as (effect & st1 & [_ <-]%lift_Ok & Hr). apply rtx_bind_Ok in Hr as ([] & st1 & Hsave & Hr).
  apply rtx_ret_Ok in Hr as [_ <-]. eapply (refined_move Commanded st st1 st1 s); [exact Hok| | | | |exact Hsave|done]; try done.
  - by eapply keyed.
  - by rewrite Hi.
Qed.

Lemma fail_stop_refined principal request_id payload op code message now st events st' :
  fail_agent_stop_before_effect principal request_id payload op code message now st = Ok (events, st') ->
  lifecycle_ok st -> refined st st'.
Proof.
  unfold fail_agent_stop_before_effect. intros (agent_id & st1 & [_ <-]%lift_Ok & Hr)%rtx_bind_Ok Hok.
  apply rtx_bind_Ok in Hr as (s & st1 & [Hl%load_session_Ok <-]%reads_Ok & Hr). destruct Hl as [Hs Hkey].
  apply rtx_bind_Ok in Hr as (? & st1 & [Hi%require_intent_Ok <-]%lift_Ok & Hr). cbv zeta in Hr.
  apply rtx_bind_Ok in Hr as (? & st1 & Hrej & Hr). apply rtx_bind_Ok in Hr as ([] & st2 & Hsave & Hr).
  apply rtx_bind_Ok in Hr as (e & st3 & He%append_error_event_settled & Hr).
  apply rtx_bind_Ok in Hr as (e' & st4 & He'%append_state_event_settled & Hr). apply rtx_ret_Ok in Hr as [_ <-].
  eapply refined_refuse; [exact Hok| | | | |exact Hrej|exact Hsave|by etrans]; try done.
  - by eapply keyed.
  - by rewrite Hi.
Qed.

(** Ending the turn of a stopped runtime leaves the sessions to its caller. *)
Lemma terminalize_stop_still session now : keeps still (terminalize_confirmed_stop_turn session now).
Proof. unfold terminalize_confirmed_stop_turn, finalize_pair. keeps. Qed.

Lemma record_stop_refined room_id session_id op now st t st' :
  record_agent_stop_effect room_id session_id op now st = Ok (t, st') -> lifecycle_ok st -> refined st st'.
Proof.
  unfold record_agent_stop_effect. intros (s & st1 & [Hl%load_session_Ok <-]%reads_Ok & Hr)%rtx_bind_Ok [_ Hok]. cbv zeta in Hr.
  destruct Hl as [Hs Hkey]. apply rtx_bind_Ok in Hr as (? & st1 & [Hi%require_intent_Ok <-]%lift_Ok & Hr).
  apply rtx_bind_Ok in Hr as (event & st1 & [Es Hok1 Hc]%terminalize_stop_still & Hsave).
  assert (E : view st1 = view st) by (unfold view; by rewrite Es, (ca_reservations _ _ Hc), (ca_commands _ _ Hc)).
  unfold refined_by. rewrite <- E. assert (Hs1 : st_sessions st1 !! session_key s = Some s) by (rewrite Es; by eapply keyed).
  destruct t. case_bool_decide as Hd.
  - apply save_session_Ok in Hsave as [_ ->]. apply same_view; [|apply (store_ok_save (touch now (s <| d_lifecycle_intent_status := _ |>))), Hok1, Hok].
    apply (same_intent_view st1 s); [done|]. unfold intent_of. simpl. by rewrite Hd.
  - eapply (refined_move Commanded st1 st' st' s); [by apply Hok1| | | | |exact Hsave|done]; [exact Hs1|done|done|by rewrite Hi].
Qed.

Lemma stop_unconfirmed_refined principal agent_id op code message now st events st' :
  mark_agent_stop_unconfirmed principal agent_id op code message now st = Ok (events, st') -> lifecycle_ok st -> refined st st'.
Proof.
  unfold mark_agent_stop_unconfirmed. intros (? & st1 & [_ <-]%reads_Ok & Hr)%rtx_bind_Ok [_ Hok].
  apply rtx_bind_Ok in Hr as (s & st1 & [Hl%load_session_Ok <-]%reads_Ok & Hr). destruct Hl as [Hs Hkey].
  apply rtx_bind_Ok in Hr as (? & st1 & [Hi%require_intent_Ok <-]%lift_Ok & Hr).
  apply rtx_bind_Ok in Hr as (active & st1 & [_ <-]%lift_Ok & Hr). apply rtx_bind_Ok in Hr as (s1 & st1 & Hs1 & Hr).
  assert (st1 = st /\ session_key s1 = session_key s /\ intent_of s1 = intent_of s) as (-> & Hk & Hi1).
  { destruct active; [by apply rtx_ret_Ok in Hs1 as [<- <-]|].
    apply rtx_bind_Ok in Hs1 as (? & st2 & [_ <-]%reads_Ok & Hs1). by apply rtx_ret_Ok in Hs1 as [<- <-]. }
  cbv zeta in Hr. apply rtx_bind_Ok in Hr as ([] & st2 & Hsave & Hr). apply rtx_bind_Ok in Hr as (? & st3 & Hd%detach_participant_settled & Hr).
  apply rtx_bind_Ok in Hr as (e & st4 & He%append_error_event_settled & Hr).
  apply rtx_bind_Ok in Hr as (e' & st5 & He'%append_state_event_settled & Hr). apply rtx_ret_Ok in Hr as [_ <-].
  eapply (refined_move Commanded st st2 st5 s (unconfirmed_stop code message now s1)); [exact Hok| | | | |exact Hsave|etrans; [exact Hd|by etrans]].
  - change (st_sessions st !! session_key s1 = Some s). rewrite Hk. by eapply keyed.
  - change (in_action (intent_of s1) = in_action (intent_of s)). by rewrite Hi1.
  - change (in_operation (intent_of s1) = in_operation (intent_of s)). by rewrite Hi1.
  - by rewrite Hi.
Qed.

(** Assigning turns does not touch what sessions serve. *)
Lemma changes_view st st' :
  calm st st' -> changes (fun s s' => intent_of s' = intent_of s) st st' -> view st' = view st.
Proof.
  intros Hc [_ Hs]. unfold view. rewrite (ca_reservations _ _ Hc), (ca_commands _ _ Hc). f_equal. apply map_eq. intros k.
  rewrite !lookup_fmap. destruct (Hs k) as [s s' E|]; simpl; congruence.
Qed.

Lemma assign_pending_view room settings now st commit st' :
  assign_pending_in room settings now st = Ok (commit, st') -> store_ok st -> view st' = view st /\ store_ok st'.
Proof.
  unfold assign_pending_in. intros (prepared & st1 & Ha & Hr)%rtx_bind_Ok Hok. apply rtx_ret_Ok in Hr as [_ <-].
  pose proof (assign_available_pending_calm _ _ _ _ _ _ Ha) as Hc.
  apply assign_available_pending_Ok in Ha as [(_ & -> & _)|[cs Hround]]; [done| |done].
  split; [|apply Hround]. apply changes_view; [done|]. eapply round_changes_with; [|apply bg_intent| |done|exact Hround]; done.
Qed.
Lemma assign_pending_hidden room settings now : keeps hidden (assign_pending_in room settings now).
Proof. intros st c st' Ha Hok. by eapply assign_pending_view. Qed.

Lemma detach_confirmed_Ok principal agent_id session now st t st' :
  detach_confirmed_session principal agent_id session now st = Ok (t, st') -> exists s' st1,
  session_key s' = session_key session /\ intent_of s' = no_intent /\ save_session s' st = Ok (tt, st1) /\ settled st1 st'.
Proof.
  unfold detach_confirmed_session. intros (restored & st1 & [_ <-]%reads_Ok & Hd)%rtx_bind_Ok. cbv zeta in Hd.
  apply rtx_bind_Ok in Hd as ([] & st2 & Hsave & Hd). apply rtx_bind_Ok in Hd as (? & st4 & Hp%detach_participant_settled & Hd).
  apply rtx_bind_Ok in Hd as (e & st5 & He%append_session_event_settled & Hd).
  apply rtx_bind_Ok in Hd as (e' & st6 & He'%append_state_event_settled & Hd). apply rtx_ret_Ok in Hd as [_ <-].
  eexists _, st2. split_and!; [| |exact Hsave|etrans; [exact Hp|by etrans]]; done.
Qed.

Lemma finalize_in_refined principal request_id payload now st outcome st' :
  finalize_stop_in principal request_id payload now st = Ok (outcome, st') -> lifecycle_ok st -> refined st st'.
Proof.
  unfold finalize_stop_in. intros (agent_id & st1 & [_ <-]%lift_Ok & Hr)%rtx_bind_Ok Hok. cbv zeta in Hr.
  apply rtx_bind_Ok in Hr as (s & st1 & [Hl%load_session_Ok <-]%reads_Ok & Hr). destruct Hl as [Hs Hkey].
  apply rtx_bind_Ok in Hr as (? & st1 & [Hi%require_intent_Ok <-]%lift_Ok & Hr).
  apply rtx_bind_Ok in Hr as (? & st1 & Hfin & Hr).
  apply rtx_bind_Ok in Hr as ([public events] & st2 & (s' & st3 & Hk & Hno & Hsave & Hset)%detach_confirmed_Ok & Hr).
  eapply refined_finish; [exact Hok| | | | |exact Hfin|exact Hsave|exact Hset| |exact Hr].
  - eapply keyed; [by rewrite Hk|exact Hs].
  - by rewrite Hk.
  - exact Hno.
  - by rewrite Hi.
  - done.
Qed.
Lemma finalize_in_reservations principal request_id payload now st outcome st' key :
  finalize_stop_in principal request_id payload now st = Ok (outcome, st') ->
  st_reservations st !! key = None -> st_reservations st' !! key = None.
Proof.
  unfold finalize_stop_in. intros (agent_id & st1 & [_ <-]%lift_Ok & Hr)%rtx_bind_Ok Hn. cbv zeta in Hr.
  apply rtx_bind_Ok in Hr as (s & st1 & [_ <-]%reads_Ok & Hr). apply rtx_bind_Ok in Hr as (? & st1 & [_ <-]%lift_Ok & Hr).
  apply rtx_bind_Ok in Hr as (? & st1 & (row & _ & _ & ->)%finish_Ok & Hr).
  apply rtx_bind_Ok in Hr as ([public events] & st2 & (s' & st3 & _ & _ & [_ ->]%save_session_Ok & Hset)%detach_confirmed_Ok & Hr).
  apply store_result_Ok in Hr as (_ & c & _ & _ & ->). simpl. rewrite (sl_reservations _ _ Hset). simpl.
  apply lookup_delete_None. by right.
Qed.

Lemma finalize_refined principal request_id payload now st m st' :
  finalize_agent_stop principal request_id payload now st = Ok (m, st') -> lifecycle_ok st -> refined st st'.
Proof.
  unfold finalize_agent_stop. cbv zeta. intros (? & st1 & [_ <-]%reads_Ok & Hr)%rtx_bind_Ok Hok.
  apply rtx_bind_Ok in Hr as (replay & st1 & [_ <-]%reads_Ok & Hr).
  destruct replay; [apply rtx_ret_Ok in Hr as [_ <-]; by apply same_view; [|apply Hok]|].
  apply rtx_bind_Ok in Hr as ([room settings] & st1 & [_ <-]%reads_Ok & Hr).
  apply rtx_bind_Ok in Hr as (outcome & st1 & Hf & Hr). apply rtx_bind_Ok in Hr as (commit & st2 & Ha & Hr).
  apply rtx_ret_Ok in Hr as [_ <-]. destruct (finalize_in_refined _ _ _ _ _ _ _ Hf Hok) as [Hstep Hok1].
  destruct (assign_pending_view _ _ _ _ _ _ Ha Hok1) as [E Hok2]. split; [by rewrite E|done].
Qed.

Lemma finish_cleanup_hidden room_id session_id now st commit st' :
  finish_cleanup_in room_id session_id now st = Ok (commit, st') -> hidden st st'.
Proof.
  unfold finish_cleanup_in. intros (present & st1 & [_ <-]%reads_Ok & Hr)%rtx_bind_Ok Hok.
  destruct present; simpl in Hr; [|apply rtx_ret_Ok in Hr as [_ <-]; done].
  apply rtx_bind_Ok in Hr as (s & st1 & [Hl%load_session_Ok <-]%reads_Ok & Hr). destruct Hl as [Hs Hkey].
  apply rtx_bind_Ok in Hr as (? & st1 & [_ <-]%lift_Ok & Hr). apply rtx_bind_Ok in Hr as (resolved & st1 & [_ <-]%reads_Ok & Hr).
  destruct resolved; simpl in Hr; [|apply rtx_ret_Ok in Hr as [_ <-]; done].
  apply rtx_bind_Ok in Hr as (p & st1 & [_ <-]%reads_Ok & Hr). cbv zeta in Hr.
  apply rtx_bind_Ok in Hr as ([] & st1 & [_ Hst1]%save_session_Ok & Hr). apply rtx_bind_Ok in Hr as (? & st2 & ->%modifies_Ok & Hr).
  apply rtx_bind_Ok in Hr as (e & st3 & He & Hr).
  assert (Hset : settled (st1 <| st_cleanups := st_cleanups st1 ∖ {[(room_id, session_id)]} |>) st3).
  { apply appends_settled; [by eapply session_state_event_appends|by eapply session_state_event_calm]. }
  assert (view st3 = view st /\ store_ok st3) as [E Hok3].
  { subst st1. rewrite (settled_view _ _ Hset). split; [apply (same_intent_view st s); [by eapply keyed|done]|].
    apply (sl_ok _ _ Hset). destruct (store_ok_save (finished_cleanup_session (bool_decide (pt_status p = Joined)) now s) st Hok). by split. }
  apply rtx_bind_Ok in Hr as ([room settings] & st4 & [_ <-]%reads_Ok & Hr). apply rtx_bind_Ok in Hr as (c & st4 & Ha & Hr).
  apply rtx_ret_Ok in Hr as [_ <-]. case_bool_decide.
  - destruct (assign_pending_view _ _ _ _ _ _ Ha Hok3) as [E' Hok4]. split; [by rewrite E'|done].
  - by apply rtx_ret_Ok in Ha as [_ <-].
Qed.

Lemma finish_cleanup_refined room_id session_id now st commit st' :
  finish_cleanup_in room_id session_id now st = Ok (commit, st') -> lifecycle_ok st -> refined st st'.
Proof. intros Hr%finish_cleanup_hidden [_ Hok]. destruct (Hr Hok). by apply same_view. Qed.

(** ** Pausing *)

Lemma admit_settled key action hash bytes now st st' :
  admit_non_lifecycle_command key action hash bytes now st = Ok (None, st') ->
  st_reservations st !! key = None /\ settled st st'.
Proof.
  unfold admit_non_lifecycle_command. intros (outcome & st1 & [Hi <-]%reads_Ok & Hr)%rtx_bind_Ok.
  destruct outcome; [by apply rtx_ret_Ok in Hr as [? _]|].
  apply rtx_bind_Ok in Hr as (? & st1 & Hb%reserve_budget_settled & Hr). apply rtx_ret_Ok in Hr as [_ <-]. split; [|done].
  unfold inspect_non_lifecycle_command in Hi. apply bind_Ok in Hi as (? & _ & Hi). apply bind_Ok in Hi as (? & Hr & _).
  unfold reject_reserved_request_id in Hr. apply reject_if_Ok in Hr. by apply bool_decide_eq_false, dec_stable in Hr.
Qed.
Lemma inspect_replayed key action hash st o : inspect_non_lifecycle_command key action hash st = Ok (Some o) -> co_deduplicated o = true.
Proof.
  unfold inspect_non_lifecycle_command, existing_command. intros (outcome & Hq & Hr)%bind_Ok.
  apply bind_Ok in Hr as (? & _ & Hr). apply bind_Ok in Hr as (? & _ & [= ->]). apply bind_Ok in Hq as (? & _ & Hq).
  destruct (st_commands st !! key) as [row|]; [|done]. apply bind_Ok in Hq as (? & _ & Hq). unfold stored_outcome in Hq.
  apply fmap_Ok in Hq as (o' & Ho & [= ->]). apply bind_Ok in Ho as (? & _ & Ho). by apply bind_Ok in Ho as (? & _ & [= <-]).
Qed.
Lemma admit_replayed key action hash bytes now st o st' :
  admit_non_lifecycle_command key action hash bytes now st = Ok (Some o, st') -> st' = st /\ co_deduplicated o = true.
Proof.
  unfold admit_non_lifecycle_command. intros (outcome & st1 & [Hi <-]%reads_Ok & Hr)%rtx_bind_Ok.
  destruct outcome; [apply rtx_ret_Ok in Hr as [[= ->] <-]; split; [done|by eapply inspect_replayed]|].
  apply rtx_bind_Ok in Hr as (? & st1 & _ & Hr). by apply rtx_ret_Ok in Hr as [? _].
Qed.

(** A change of schedule, recorded under its request. *)
Lemma reschedule_refined principal request_id action hash fields enabled status now s st st1 st2 st3 e outcome st' :
  lifecycle_ok st -> st_reservations st !! command_key principal request_id = None -> settled st st1 ->
  st_sessions st !! session_key s = Some s -> save_session (scheduled_session enabled status now s) st1 = Ok (tt, st2) ->
  append_state_event principal (d_public (scheduled_session enabled status now s)) now st2 = Ok (e, st3) ->
  store_result principal request_id action hash fields [e] st3 = Ok (outcome, st') -> refined st st'.
Proof.
  intros Hok Hn Hset Hs [_ ->]%save_session_Ok He%append_state_event_settled Hr.
  eapply refined_answer; [exact Hok| | |exact Hn|exact Hr].
  - rewrite (settled_view _ _ He), <- (settled_view _ _ Hset). apply (same_intent_view st1 s); [|done].
    by rewrite (sl_sessions _ _ Hset).
  - apply (sl_ok _ _ He), (store_ok_save (scheduled_session enabled status now s)), (sl_ok _ _ Hset), Hok.
Qed.

(** The session of [agent_id], idle or paused as [enabled] tells, is given the other schedule, and nothing else of the
    sessions changes. *)
Definition rescheduled (principal : AuthenticatedPrincipal) (agent_id : str) (enabled : bool) (runtime : AgentResidentRuntime)
    (now : instant) (st st' : RoomStore) : Prop :=
  let status (b : bool) := if b then RuntimeIdle else RuntimePaused in
  exists s participant, st_sessions st !! (pr_room_id principal, agent_id) = Some s /\ session_key s = (pr_room_id principal, agent_id) /\
    resident_state_valid s participant agent_id (status enabled) enabled = true /\
    require_matching_runtime s runtime = Ok tt /\
    st_sessions st' = <[session_key s := scheduled_session (negb enabled) (status (negb enabled)) now s]> (st_sessions st).

Lemma reschedule_Ok principal request_id action hash fields agent_id enabled runtime now s st st1 st2 st3 e outcome st' :
  settled st st1 -> st_sessions st !! (pr_room_id principal, agent_id) = Some s -> session_key s = (pr_room_id principal, agent_id) ->
  let status (b : bool) := if b then RuntimeIdle else RuntimePaused in
  require_resident_state s agent_id (status enabled) enabled st1 = Ok tt -> require_matching_runtime s runtime = Ok tt ->
  save_session (scheduled_session (negb enabled) (status (negb enabled)) now s) st1 = Ok (tt, st2) ->
  append_state_event principal (d_public (scheduled_session (negb enabled) (status (negb enabled)) now s)) now st2 = Ok (e, st3) ->
  store_result principal request_id action hash fields [e] st3 = Ok (outcome, st') ->
  rescheduled principal agent_id enabled runtime now st st' /\
  (lifecycle_ok st -> st_reservations st !! command_key principal request_id = None -> refined st st').
Proof.
  intros Hset Hs Hkey status Hres Hrt Hsave He Hr. split.
  - unfold require_resident_state in Hres. apply bind_Ok in Hres as (p & _ & Hres%require_Ok). exists s, p. split_and!; try done.
    apply save_session_Ok in Hsave as [_ ->]. apply append_state_event_settled in He.
    apply store_result_Ok in Hr as (_ & row & _ & _ & ->). simpl. by rewrite (sl_sessions _ _ He), <- (sl_sessions _ _ Hset).
  - intros Hok Hn. eapply reschedule_refined; try done. by rewrite Hkey.
Qed.

Lemma pause_Ok authority request_id payload runtime now st outcome st' :
  execute_agent_pause authority request_id payload runtime now st = Ok (outcome, st') ->
  (st' = st /\ co_deduplicated outcome = true) \/
  exists principal agent_id, authority st = Ok principal /\ payload_agent_id payload = Ok agent_id /\
    rescheduled principal agent_id true runtime now st st' /\ (lifecycle_ok st -> refined st st').
Proof.
  unfold execute_agent_pause. intros (principal & st1 & [Ha <-]%reads_Ok & Hr)%rtx_bind_Ok.
  apply rtx_bind_Ok in Hr as (? & st1 & [_ <-]%lift_Ok & Hr). apply rtx_bind_Ok in Hr as (agent_id & st1 & [Hid <-]%lift_Ok & Hr).
  cbv zeta in Hr. apply rtx_bind_Ok in Hr as (? & st1 & [_ <-]%reads_Ok & Hr). apply rtx_bind_Ok in Hr as (replay & st1 & Hadm & Hr).
  destruct replay as [o|].
  { apply admit_replayed in Hadm as [-> Hd]. apply rtx_ret_Ok in Hr as [<- <-]. by left. }
  right. exists principal, agent_id. split_and!; [done|done|..]; apply admit_settled in Hadm as [Hn Hset];
    apply rtx_bind_Ok in Hr as (s & st2 & [[Hs Hkey]%load_session_Ok <-]%reads_Ok & Hr); rewrite (sl_sessions _ _ Hset) in Hs;
    apply rtx_bind_Ok in Hr as ([] & st2 & [Hres <-]%reads_Ok & Hr);
    apply rtx_bind_Ok in Hr as ([] & st2 & [Hrt <-]%lift_Ok & Hr); apply rtx_bind_Ok in Hr as ([] & st2 & Hsave & Hr);
    apply rtx_bind_Ok in Hr as (e & st3 & He & Hr);
    destruct (reschedule_Ok _ _ _ _ _ _ true runtime _ _ _ _ _ _ _ _ _ Hset Hs Hkey Hres Hrt Hsave He Hr); auto.
Qed.

Lemma resume_Ok authority request_id payload runtime now st outcome st' :
  resume_paused_agent authority request_id payload runtime now st = Ok (Some outcome, st') ->
  (st' = st /\ co_deduplicated outcome = true) \/
  exists principal agent_id, authority st = Ok principal /\ payload_agent_id payload = Ok agent_id /\
    rescheduled principal agent_id false runtime now st st' /\ (lifecycle_ok st -> refined st st').
Proof.
  unfold resume_paused_agent. intros (principal & st1 & [Ha <-]%reads_Ok & Hr)%rtx_bind_Ok.
  apply rtx_bind_Ok in Hr as (? & st1 & [_ <-]%lift_Ok & Hr). apply rtx_bind_Ok in Hr as (agent_id & st1 & [Hid <-]%lift_Ok & Hr).
  cbv zeta in Hr. apply rtx_bind_Ok in Hr as (? & st1 & [_ <-]%reads_Ok & Hr). apply rtx_bind_Ok in Hr as (replay & st1 & [Hq <-]%reads_Ok & Hr).
  destruct replay as [o|]; [apply rtx_ret_Ok in Hr as [[= ->] <-]; left; split; [done|by eapply inspect_replayed]|].
  apply rtx_bind_Ok in Hr as (s & st2 & [[Hs Hkey]%load_session_Ok <-]%reads_Ok & Hr).
  destruct (negb _); [by apply rtx_ret_Ok in Hr as [? _]|]. apply rtx_bind_Ok in Hr as (replay & st1 & Hadm & Hr).
  destruct replay as [o|]; [apply admit_replayed in Hadm as [-> Hd]; apply rtx_ret_Ok in Hr as [[= ->] <-]; by left|].
  right. exists principal, agent_id. split_and!; [done|done|..]; apply admit_settled in Hadm as [Hn Hset];
    apply rtx_bind_Ok in Hr as ([] & st2 & [Hres <-]%reads_Ok & Hr);
    apply rtx_bind_Ok in Hr as ([] & st2 & [Hrt <-]%lift_Ok & Hr); apply rtx_bind_Ok in Hr as ([] & st2 & Hsave & Hr);
    apply rtx_bind_Ok in Hr as (e & st3 & He & Hr); apply rtx_bind_Ok in Hr as (o & st4 & Hst & Hr); apply rtx_ret_Ok in Hr as [_ <-];
    destruct (reschedule_Ok _ _ _ _ _ _ false runtime _ _ _ _ _ _ _ _ _ Hset Hs Hkey Hres Hrt Hsave He Hst); auto.
Qed.

Lemma pause_refined authority request_id payload runtime now st outcome st' :
  execute_agent_pause authority request_id payload runtime now st = Ok (outcome, st') -> lifecycle_ok st -> refined st st'.
Proof.
  intros [[-> _]|(principal & agent_id & _ & _ & _ & Href)]%pause_Ok Hok; [|by apply Href]. by apply same_view; [|apply Hok].
Qed.
Lemma resume_refined authority request_id payload runtime now st outcome st' :
  resume_paused_agent authority request_id payload runtime now st = Ok (Some outcome, st') -> lifecycle_ok st -> refined st st'.
Proof.
  intros [[-> _]|(principal & agent_id & _ & _ & _ & Href)]%resume_Ok Hok; [|by apply Href]. by apply same_view; [|apply Hok].
Qed.
End refinement.
Abbreviation refined := (refined_by Commanded).
