(* ===== verification/Create.v ===== *)
(** * Creating an agent (agentsassemble-persistence/src/agent_create_start.rs, agent_creation_records.rs,
    agent_sessions.rs)

    An agent is created with its session and its participant, or an agent with
    the same profile is taken again, and is started at once when asked for: then
    the request is reserved with the result its creation already has. *)

From Stdlib Require Import String.
From stdpp Require Import gmap.
From S2P Require Import Prelude Text Diagnostic Json Bytes Model Command Vote Projection Settings Store Budget Turn Routing RoomStore.
From S2P Require Import Authority Requests Execution Observation VoteStore Scheduler Completion Calm Messages.
From S2P Require Import Reservations Launch Stop Pause Lifecycle.

(** serde_json's text of a value, as the columns hold it, and what is read back from it. *)
Class JsonText : Type := { json_text : value -> str; json_from_text : str -> option value }.
(** The summary of a card of the persona library (persona_library.rs). *)
Class PersonaSummaries : Type := load_persona_summary : str -> RoomStore -> tx PersonaAssetSummary.

Definition CREATE : str := u "agent.create".
Definition CREATION_COMMITTED : str := u "creation_committed".

Record AgentCreationRecords : Type := MkCreationRecords {
  cn_session : DurableAgentSession;
  cn_result : object;
  cn_committed_events : list RoomEvent
}.
Record AgentCreateStartEffect : Type := MkCreateStartEffect {
  ce_operation_id : str;
  ce_session : DurableAgentSession;
  ce_committed_events : list RoomEvent;
  ce_newly_committed_events : list RoomEvent;
  ce_prepared_result_json : str
}.
Inductive AgentCreateStartPlan : Type :=
| CreateOutcome (outcome : CommandOutcome)
| CreateSelect
| CreateStart (effect : AgentCreateStartEffect).
Record AgentCreateStartCommit : Type := MkCreateStartCommit {
  cs_outcome : CommandOutcome;
  cs_committed_events : list RoomEvent;
  cs_newly_committed_events : list RoomEvent
}.

(** [LifecycleReservation::creation] *)
Definition creation_reservation (principal : AuthenticatedPrincipal)
    (request_id payload_hash session_id operation_id prepared_result : str) : LifecycleReservation :=
  MkReservation principal request_id CREATE payload_hash session_id operation_id CREATION_COMMITTED prepared_result.

(** ** agent_creation_records.rs *)

Definition prepare_start (operation_id : str) (now : instant) (session : DurableAgentSession) : DurableAgentSession :=
  session <| d_public := (d_public session) <| s_status := SessionAvailable |> <| s_runtime_status := RuntimeStarting |>
               <| s_enabled := true |> <| s_last_error := [] |> <| s_last_error_code := [] |>
               <| s_recovery_required := false |> <| s_updated_at := now |> |>
          <| d_lifecycle_intent_action := ActionStart |> <| d_lifecycle_intent_id := operation_id |>
          <| d_lifecycle_intent_status := IntentPrepared |>.

Definition optionally_prepared (start : option str) (now : instant) (session : DurableAgentSession) : DurableAgentSession :=
  match start with Some operation_id => prepare_start operation_id now session | None => session end.

(** The identifier and the place of the last message of the room. *)
Definition room_messages (room_id : str) (st : RoomStore) : list RoomEvent :=
  map snd (filter (fun e : str * Z * RoomEvent => e.1.1 = room_id /\ ev_event_type e.2 = u "message_final") (map_to_list (st_events st))).
Definition later_event (a b : RoomEvent) : RoomEvent := if ev_seq a <? ev_seq b then b else a.
Definition latest_message_cursor (room_id : str) (st : RoomStore) : str * Z :=
  match room_messages room_id st with
  | [] => ([], 0)
  | e :: l => let event := foldr later_event e l in (ev_id event, ev_seq event)
  end.

Definition room_session_count (room_id : str) (st : RoomStore) : nat :=
  length (filter (fun e : str * str * DurableAgentSession => e.1.1 = room_id) (map_to_list (st_sessions st))).

Definition resolve_persona_selection `{PersonaSummaries} (persona_id : str) (st : RoomStore) : tx (option PersonaAssetSummary) :=
  if str_empty persona_id then Ok None else Some <$> load_persona_summary persona_id st.

Definition session_exists : PersistenceError :=
  rejected_tx "session_exists" "An Agent Session with this identity already exists.".

Section create.
Context `{UnicodeGeneralCategory, CharCase, UnicodeCase, Caseless, Sha256, Chrono, Entropy, PersonaLibrary, UuidCrate, ChronoRange,
  AttendeeParent, RequestSerde, RegexCrate, ByteDigest, JsonText, PersonaSummaries}.

Definition base_result (session : AgentSession) (participant : Participant) (events : list RoomEvent) : object :=
  [(u "status", VString (u "created")); (u "agent_session", session_value session); (u "participant", participant_value participant)]
  ++ match last events with
     | Some event =>
         [(u "event_seq", VInt (ev_seq event)); (u "event", serialize_event event); (u "events", VArray (map serialize_event events))]
     | None => []
     end.

Definition created_participant (principal : AuthenticatedPrincipal) (draft : AgentSessionDraft) (now : instant) : Participant :=
  {| pt_room_id := pr_room_id principal; pt_participant_id := dr_agent_id draft; pt_display_name := dr_display_name draft;
     pt_avatar_image_url := []; pt_participant_type := u "agent"; pt_status := Detached; pt_role := AgentRole;
     pt_owner_id := pr_participant_id principal; pt_muted := false; pt_created_at := now; pt_updated_at := now |}.

(** The session begins after the last message of the room. *)
Definition created_session (room_id : str) (draft : AgentSessionDraft) (persona : option PersonaAssetSummary) (cursor : str * Z)
    (now : instant) : DurableAgentSession :=
  let session := initial_session draft room_id CustodyServer now in
  session <| d_public := (d_public session) <| s_persona_card := persona |>
    <| s_last_seen_event_id := cursor.1 |> <| s_last_seen_seq := cursor.2 |>
    <| s_last_provider_sync_event_id := cursor.1 |> <| s_last_provider_sync_seq := cursor.2 |>
    <| s_bootstrap_cutoff_seq := cursor.2 |> |>.

Definition insert_agent_authority (principal : AuthenticatedPrincipal) (participant : Participant) (session : DurableAgentSession) :
    rtx unit := fun st =>
  participants ← insert_row (pr_room_id principal, pt_participant_id participant) participant (st_participants st);
  sessions ← insert_row (pr_room_id principal, s_session_id (d_public session)) session (st_sessions st);
  Ok (tt, st <| st_participants := participants |> <| st_sessions := sessions |>).

Definition append_creation_event (principal : AuthenticatedPrincipal) (participant : Participant) (session : AgentSession)
    (now : instant) : rtx RoomEvent :=
  append_session_event principal session "agent_session_created"
    (<[u "session_id" := VString (s_session_id session)]>
     (<[u "provider_kind" := VString (s_provider_kind session)]>
      (<[u "participant" := participant_value participant]> (<[u "agent_session" := session_value session]> ∅)))) now.

Definition create_agent_records (principal : AuthenticatedPrincipal) (draft : AgentSessionDraft) (start : option str) (now : instant) :
    rtx AgentCreationRecords :=
  count ← reads (fun st => Ok (room_session_count (pr_room_id principal) st));
  lift (reject_if (MAX_ROOM_SESSIONS <=? count)%nat
    (rejected_tx "agent_session_capacity" "This room has reached its Agent Session capacity.")) ;;
  let participant := created_participant principal draft now in
  cursor ← reads (fun st => Ok (latest_message_cursor (pr_room_id principal) st));
  persona ← reads (resolve_persona_selection (dr_persona_card_id draft));
  let created := created_session (pr_room_id principal) draft persona cursor now in
  let session := optionally_prepared start now created in
  insert_agent_authority principal participant session ;;
  event ← append_creation_event principal participant (d_public session) now;
  mret (MkCreationRecords session (base_result (d_public created) participant [event]) [event]).

(** The same agent, asked for again by its owner. *)
Definition reuses (allow_exact_reuse : bool) (principal : AuthenticatedPrincipal) (draft : AgentSessionDraft)
    (session : DurableAgentSession) (participant : Participant) : bool :=
  allow_exact_reuse && str_eqb (s_process_ownership (d_public session)) (u "server")
  && str_eqb (d_runtime_profile_key session) (dr_runtime_profile_key draft)
  && str_eqb (pt_owner_id participant) (pr_participant_id principal).

Definition create_or_reuse_agent_records (principal : AuthenticatedPrincipal) (draft : AgentSessionDraft) (start : option str)
    (allow_exact_reuse : bool) (now : instant) : rtx AgentCreationRecords :=
  let key := (pr_room_id principal, dr_agent_id draft) in
  existing_session ← reads (fun st => match st_sessions st !! key with
                                      | Some session => Some <$> read_session session | None => Ok None end);
  existing_participant ← reads (fun st => Ok (st_participants st !! key));
  match existing_session, existing_participant with
  | None, None => create_agent_records principal draft start now
  | Some session, Some participant =>
      if reuses allow_exact_reuse principal draft session participant then
        lift (require (lifecycle_intent_is_empty session)
          (rejected_tx "operation_in_progress" "Another provider lifecycle operation is still in progress.")) ;;
        let session := optionally_prepared start now session in
        (if bool_decide (start = None) then mret tt else save_session session) ;;
        mret (MkCreationRecords session (base_result (d_public session) participant []) [])
      else lift (Err session_exists)
  | _, _ => lift (Err session_exists)
  end.

(** ** agent_sessions.rs

    [authorized] is what the check of the workspace and the executable on the file system says
    (filesystem_authority.rs). *)

(** The transaction before that check. *)
Definition replay_agent_create (authority : RoomStore -> tx AuthenticatedPrincipal) (request_id : str) (payload : value) (st : RoomStore) :
    tx (option CommandOutcome) :=
  principal ← authority st;
  authorize_control principal ;;
  active_room_for_principal principal st ;;
  inspect_non_lifecycle_command (command_key principal request_id) CREATE (canonical_payload_hash payload) st.

(** The transaction after it. *)
Definition execute_agent_create (authorized : tx unit) (authority : RoomStore -> tx AuthenticatedPrincipal) (request_id : str)
    (payload : value) (draft : AgentSessionDraft) (now : instant) : rtx CommandOutcome :=
  lift authorized ;;
  principal ← reads authority;
  lift (authorize_control principal) ;;
  reads (active_room_for_principal principal) ;;
  let payload_hash := canonical_payload_hash payload in
  outcome ← admit_non_lifecycle_command (command_key principal request_id) CREATE payload_hash
              (command_size request_id CREATE payload) now;
  match outcome with
  | Some outcome => mret outcome
  | None =>
      records ← create_or_reuse_agent_records principal draft None false now;
      store_result principal request_id CREATE payload_hash (cn_result records) (cn_committed_events records)
  end.

(** ** agent_create_start.rs *)

Definition creation_rejected (message : string) : PersistenceError := rejected_tx "stale_lifecycle_reservation" message.

Definition validate_create_reservation (stored : LifecycleRow) (payload_hash : str) : tx unit :=
  require (str_eqb (lr_action stored) CREATE && str_eqb (lr_payload_hash stored) payload_hash) CommandConflict ;;
  require (str_eqb (lr_phase stored) CREATION_COMMITTED) (creation_rejected "Create/start reservation phase is inconsistent.") ;;
  if str_eqb (lr_status stored) PENDING then Ok tt
  else if str_eqb (lr_status stored) REJECTED then Err (stored_rejection (lr_failure_code stored) (lr_failure_message stored))
  else Err (creation_rejected "Create/start reservation status is invalid.").

(** [Value::pointer] with two keys *)
Definition pointer (v : value) (a b : string) : option value :=
  m ← as_object v; w ← get m (u a); m ← as_object w; get m (u b).

Definition names_session (result : value) (session_id : str) : bool :=
  bool_decide ((get (default [] (as_object result)) (u "status") ≫= as_str) = Some (u "created"))
  && bool_decide ((pointer result "agent_session" "session_id" ≫= as_str) = Some session_id)
  && bool_decide ((pointer result "participant" "participant_id" ≫= as_str) = Some session_id).

Definition validate_prepared_result (result : value) (session_id : str) : tx unit :=
  require (names_session result session_id) (creation_rejected "Prepared create result is inconsistent with its Agent Session.").

Definition read_event (v : value) : tx RoomEvent := ok_or (deserialize_event v) StoredJson.
Definition prepared_events (result : value) : tx (list RoomEvent) :=
  let fields := default [] (as_object result) in
  match get fields (u "events") with
  | Some (VArray events) => traverse read_event events
  | Some _ => Err StoredJson
  | None => match get fields (u "event") with
            | Some event => (fun e => [e]) <$> read_event event
            | None => Ok []
            end
  end.

Definition read_prepared (stored : LifecycleRow) : tx value := ok_or (json_from_text (lr_prepared_result stored)) StoredJson.

(** Whether a start under way may go on. *)
Definition resumable_start (session : DurableAgentSession) (operation_id : str) : tx unit :=
  require (intent_is ActionStart operation_id session)
    (rejected_tx "operation_in_progress" "The stored create/start operation does not own this Agent Session.") ;;
  match d_lifecycle_intent_status session with
  | IntentPrepared => Ok tt
  | IntentEffectInflight | IntentUnconfirmed =>
      Err (CommandUnresolved (u "runtime_effect_unconfirmed")
        (u "The original provider start effect remains unresolved. Wait for authoritative runtime observation before retrying it."))
  | _ => Err (invalid_state "Stored provider create/start intent is invalid.")
  end.

Variable generation : str.

Definition resume_create_start (principal : AuthenticatedPrincipal) (request_id payload_hash : str) (st : RoomStore) :
    tx (option AgentCreateStartEffect) :=
  match load_lifecycle_reservation (command_key principal request_id) st with
  | None => Ok None
  | Some stored =>
      validate_create_reservation stored payload_hash ;;
      reject_if (str_eqb (lr_status stored) PENDING && negb (str_eqb (lr_supervisor_generation stored) generation))
        awaits_reconciliation ;;
      prepared ← read_prepared stored;
      validate_prepared_result prepared (lr_session_id stored) ;;
      session ← load_session (pr_room_id principal) (lr_session_id stored) st;
      resumable_start session (lr_operation_id stored) ;;
      events ← prepared_events prepared;
      mret (Some (MkCreateStartEffect (lr_operation_id stored) session events [] (lr_prepared_result stored)))
  end.

Definition inspect_agent_create_start (authority : RoomStore -> tx AuthenticatedPrincipal) (request_id : str) (payload : value)
    (st : RoomStore) : tx AgentCreateStartPlan :=
  principal ← authority st;
  authorize_control principal ;;
  let payload_hash := canonical_payload_hash payload in
  active_room_for_principal principal st ;;
  outcome ← existing_command (command_key principal request_id) CREATE payload_hash st;
  match outcome with
  | Some outcome => mret (CreateOutcome outcome)
  | None =>
      effect ← resume_create_start principal request_id payload_hash st;
      mret (match effect with Some effect => CreateStart effect | None => CreateSelect end)
  end.

Definition prepare_agent_create_start (authorized : tx unit) (authority : RoomStore -> tx AuthenticatedPrincipal) (request_id : str)
    (payload : value) (draft : AgentSessionDraft) (now : instant) : rtx AgentCreateStartPlan :=
  lift authorized ;;
  principal ← reads authority;
  lift (authorize_control principal) ;;
  let payload_hash := canonical_payload_hash payload in
  let operation_id := lifecycle_operation_id principal request_id CREATE in
  reads (active_room_for_principal principal) ;;
  outcome ← reads (existing_command (command_key principal request_id) CREATE payload_hash);
  match outcome with
  | Some outcome => mret (CreateOutcome outcome)
  | None =>
      effect ← reads (resume_create_start principal request_id payload_hash);
      match effect with
      | Some effect => mret (CreateStart effect)
      | None =>
          records ← create_or_reuse_agent_records principal draft (Some operation_id) true now;
          let prepared := json_text (VObject (cn_result records)) in
          claim_lifecycle_command generation
            (creation_reservation principal request_id payload_hash (s_session_id (d_public (cn_session records))) operation_id prepared)
            payload true now ;;
          mret (CreateStart (MkCreateStartEffect operation_id (cn_session records) (cn_committed_events records)
            (cn_committed_events records) prepared))
      end
  end.

Definition required_create_reservation (principal : AuthenticatedPrincipal) (request_id payload_hash : str) (st : RoomStore) :
    tx LifecycleRow :=
  stored ← ok_or (load_lifecycle_reservation (command_key principal request_id) st)
             (creation_rejected "Create/start reservation is missing.");
  validate_create_reservation stored payload_hash ;;
  mret stored.

(** The events are read after the commit: what is returned may be an error although the effect is authorized. *)
Definition authorize_agent_create_start_effect (authority : RoomStore -> tx AuthenticatedPrincipal) (request_id : str)
    (payload : value) (operation_id runtime_handle_id runtime_owner_id runtime_lease_token : str) : rtx (tx AgentCreateStartEffect) :=
  principal ← reads authority;
  lift (authorize_control principal) ;;
  let payload_hash := canonical_payload_hash payload in
  lift (require (str_eqb operation_id (lifecycle_operation_id principal request_id CREATE))
    (rejected_tx "stale_start_authorization" "Provider start authorization does not match its create request.")) ;;
  reads (active_room_for_principal principal) ;;
  stored ← reads (required_create_reservation principal request_id payload_hash);
  lift (require (str_eqb (lr_operation_id stored) operation_id && str_eqb (lr_supervisor_generation stored) generation)
    (creation_rejected "Create/start reservation is not owned by this runtime.")) ;;
  prepared ← lift (read_prepared stored);
  lift (validate_prepared_result prepared (lr_session_id stored)) ;;
  session ← reads (load_launch_session (pr_room_id principal) (lr_session_id stored));
  session ← lift (authorize_start_effect session operation_id runtime_handle_id runtime_owner_id runtime_lease_token);
  save_session session ;;
  mret (events ← prepared_events prepared;
        mret (MkCreateStartEffect operation_id session events [] (lr_prepared_result stored))).

(** The result of the creation with the result of its start nested in it. *)
Definition started_result (prepared : value) (session : DurableAgentSession) (runtime_reused : bool)
    (launch_events committed_events : list RoomEvent) : object :=
  put_field (u "start") (VObject (launch_result session runtime_reused launch_events))
    (put_field (u "events") (VArray (map serialize_event committed_events))
      (put_field (u "event") (match last committed_events with Some event => serialize_event event | None => VNull end)
        (put_field (u "event_seq") (match last committed_events with Some event => VInt (ev_seq event) | None => VNull end)
          (default [] (as_object prepared))))).

Definition complete_agent_create_start (principal : AuthenticatedPrincipal) (request_id : str) (payload : value) (operation_id : str)
    (started : AgentRuntimeStarted) (now : instant) : rtx AgentCreateStartCommit :=
  let payload_hash := canonical_payload_hash payload in
  let expected_operation_id := lifecycle_operation_id principal request_id CREATE in
  lift (require (str_eqb operation_id expected_operation_id)
    (rejected_tx "stale_start_confirmation" "Provider start confirmation does not match its create request.")) ;;
  reads (active_room_for_principal principal) ;;
  outcome ← reads (existing_command (command_key principal request_id) CREATE payload_hash);
  match outcome with
  | Some outcome => mret (MkCreateStartCommit outcome [] [])
  | None =>
      stored ← reads (required_create_reservation principal request_id payload_hash);
      lift (require (str_eqb (lr_operation_id stored) expected_operation_id) CommandConflict) ;;
      prepared ← lift (read_prepared stored);
      lift (validate_prepared_result prepared (lr_session_id stored)) ;;
      session ← reads (load_launch_session (pr_room_id principal) (lr_session_id stored));
      lift (validate_runtime_started session started) ;;
      lift (require_intent session ActionStart expected_operation_id IntentEffectInflight "stale_start_confirmation") ;;
      finish_lifecycle_command (creation_reservation principal request_id payload_hash (lr_session_id stored) expected_operation_id
        (lr_prepared_result stored)) ;;
      let session := apply_runtime_started started now session in
      save_session session ;;
      participant ← reads (load_agent_participant (pr_room_id principal) (lr_session_id stored));
      let joined := negb (bool_decide (pt_status participant = Joined)) in
      let participant := participant <| pt_status := Joined |> <| pt_updated_at := now |> in
      save_participant participant ;;
      launch_events ← append_launch_events principal session participant joined now;
      events ← lift (prepared_events prepared);
      let committed_events := events ++ launch_events in
      outcome ← store_result principal request_id CREATE payload_hash
        (started_result prepared session (rt_runtime_reused started) launch_events committed_events) committed_events;
      mret (MkCreateStartCommit outcome committed_events launch_events)
  end.

Definition fail_agent_create_start (principal : AuthenticatedPrincipal) (request_id : str) (payload : value)
    (effect : AgentCreateStartEffect) (error_code message : str) (now : instant) : rtx AgentLaunchFailureCommit :=
  commit_agent_launch_failure principal request_id (canonical_payload_hash payload) (s_session_id (d_public (ce_session effect)))
    (ce_operation_id effect) error_code message CREATE CREATION_COMMITTED (ce_prepared_result_json effect) IntentEffectInflight true now.

Definition fail_agent_create_start_before_effect (principal : AuthenticatedPrincipal) (request_id : str) (payload : value)
    (effect : AgentCreateStartEffect) (error_code message : str) (now : instant) : rtx AgentLaunchFailureCommit :=
  commit_agent_launch_failure principal request_id (canonical_payload_hash payload) (s_session_id (d_public (ce_session effect)))
    (ce_operation_id effect) error_code message CREATE CREATION_COMMITTED (ce_prepared_result_json effect) IntentPrepared false now.
End create.

(** ** The creation follows the machine of Lifecycle.v *)

Section refinement.
Context `{UnicodeGeneralCategory, CharCase, UnicodeCase, Caseless, Sha256, Chrono, Entropy, PersonaLibrary, UuidCrate, ChronoRange,
  AttendeeParent, RequestSerde, RegexCrate, ByteDigest, JsonText, PersonaSummaries}.

Lemma create_field : field_ok CREATE.
Proof. apply short_field; [repeat constructor|simpl; lia]. Qed.

Definition start_intent (start : option str) : Intent :=
  match start with Some operation_id => MkIntent ActionStart operation_id IntentPrepared | None => no_intent end.

Lemma optionally_prepared_intent start now s :
  intent_of s = no_intent ->
  intent_of (optionally_prepared start now s) = start_intent start /\ session_key (optionally_prepared start now s) = session_key s.
Proof. by destruct start. Qed.

(** The session of the agent was new or served nothing, and has the intent of its start. *)
Definition has_agent (principal : AuthenticatedPrincipal) (session_id : str) (intent : Intent) (st st' : RoomStore) : Prop :=
  free (view st) (pr_room_id principal, session_id) /\
  view st' = MkView (<[(pr_room_id principal, session_id) := intent]> (vw_intents (view st))) (st_reservations st)
               (dom (st_commands st)) /\ store_ok st'.

Lemma insert_authority_Ok principal participant s st t st' :
  insert_agent_authority principal participant s st = Ok (t, st') -> store_ok st -> s_room_id (d_public s) = pr_room_id principal ->
  has_agent principal (s_session_id (d_public s)) (intent_of s) st st'.
Proof.
  unfold insert_agent_authority. intros (p & _ & Hr)%bind_Ok [Hk Hp] Hroom. apply bind_Ok in Hr as (m & [Hn ->]%insert_row_Ok & [= _ <-]).
  split_and!.
  - unfold free. simpl. by rewrite lookup_fmap, Hn.
  - unfold view. simpl. by rewrite fmap_insert.
  - split; [|done]. simpl. intros k s' [[<- <-]|[_ Hs]]%lookup_insert_Some; [|by eapply Hk]. unfold session_key. by rewrite Hroom.
Qed.

Lemma create_records_Ok principal draft start now st records st' :
  create_agent_records principal draft start now st = Ok (records, st') -> store_ok st ->
  has_agent principal (s_session_id (d_public (cn_session records))) (start_intent start) st st'.
Proof.
  unfold create_agent_records. intros (count & st1 & [_ <-]%reads_Ok & Hr)%rtx_bind_Ok Hok.
  apply rtx_bind_Ok in Hr as (? & st1 & [_ <-]%lift_Ok & Hr). cbv zeta in Hr.
  apply rtx_bind_Ok in Hr as (cursor & st1 & [_ <-]%reads_Ok & Hr). apply rtx_bind_Ok in Hr as (persona & st1 & [_ <-]%reads_Ok & Hr).
  set (created := created_session (pr_room_id principal) draft persona cursor now) in *.
  destruct (optionally_prepared_intent start now created eq_refl) as [Hi Hkey].
  apply rtx_bind_Ok in Hr as (? & st1 & Hins & Hr). apply rtx_bind_Ok in Hr as (e & st2 & Hset%append_session_event_settled & Hr).
  apply rtx_ret_Ok in Hr as [<- <-]. simpl. unfold session_key in Hkey. injection Hkey as Hroom _.
  destruct (insert_authority_Ok _ _ _ _ _ _ Hins Hok Hroom) as (Hf & E & Hok1). rewrite Hi in E. split_and!; [done| |].
  - by rewrite (settled_view _ _ Hset).
  - by apply (sl_ok _ _ Hset).
Qed.

Lemma records_Ok principal draft start reuse now st records st' :
  create_or_reuse_agent_records principal draft start reuse now st = Ok (records, st') -> store_ok st ->
  has_agent principal (s_session_id (d_public (cn_session records))) (start_intent start) st st'.
Proof.
  unfold create_or_reuse_agent_records. cbv zeta. intros (existing & st1 & [Hs <-]%reads_Ok & Hr)%rtx_bind_Ok Hok.
  apply rtx_bind_Ok in Hr as (participant & st1 & [_ <-]%reads_Ok & Hr).
  destruct existing as [s|], participant as [p|]; try (by apply lift_Ok in Hr as [? _]); [|by eapply create_records_Ok].
  destruct (reuses _ _ _ _ _); [|by apply lift_Ok in Hr as [? _]].
  apply rtx_bind_Ok in Hr as (? & st1 & [Hempty%require_Ok <-]%lift_Ok & Hr). apply intent_empty_iff in Hempty.
  apply rtx_bind_Ok in Hr as ([] & st1 & Hsave & Hr). apply rtx_ret_Ok in Hr as [<- <-]. simpl.
  destruct (st_sessions st !! (pr_room_id principal, dr_agent_id draft)) as [s0|] eqn:Hs0; [|done].
  apply fmap_Ok in Hs as (s1 & Hread%read_session_Ok & [= Hs1]). subst s s1. pose proof (so_keyed _ Hok _ _ Hs0) as Hkey.
  destruct (optionally_prepared_intent start now s0 Hempty) as [Hi Hk].
  assert (Hk' : (pr_room_id principal, s_session_id (d_public (optionally_prepared start now s0))) = session_key s0).
  { pose proof (eq_trans Hk Hkey) as Hroom. unfold session_key in Hroom. injection Hroom as Hroom _. rewrite <- Hk. unfold session_key. by rewrite Hroom. }
  unfold has_agent. rewrite Hk'. assert (Hs0' : st_sessions st !! session_key s0 = Some s0) by (by rewrite Hkey).
  split_and!.
  - unfold free. by rewrite (view_lookup _ _ _ Hs0').
  - case_bool_decide as Hn.
    + apply rtx_ret_Ok in Hsave as [_ <-]. subst start. unfold view. simpl. f_equal. symmetry. apply insert_id.
      by rewrite lookup_fmap, Hs0', <- Hempty.
    + apply save_session_Ok in Hsave as [_ ->]. unfold view at 1. simpl. by rewrite fmap_insert, Hi, Hk.
  - case_bool_decide; [by apply rtx_ret_Ok in Hsave as [_ <-]|]. apply save_session_Ok in Hsave as [_ ->]. by apply store_ok_save.
Qed.

Lemma resume_create_None generation principal request_id hash st :
  resume_create_start generation principal request_id hash st = Ok None ->
  st_reservations st !! command_key principal request_id = None.
Proof.
  unfold resume_create_start, load_lifecycle_reservation. destruct (st_reservations st !! command_key principal request_id) as [row|]; [|done].
  intros Hr. by res_inv.
Qed.

Lemma prepare_create_refined generation authorized authority request_id payload draft now st plan st' :
  asked_by authority request_id st ->
  prepare_agent_create_start generation authorized authority request_id payload draft now st = Ok (plan, st') ->
  lifecycle_ok st -> refined st st'.
Proof.
  intros Hasked. unfold prepare_agent_create_start. intros (? & st1 & [_ <-]%lift_Ok & Hr)%rtx_bind_Ok Hok.
  apply rtx_bind_Ok in Hr as (principal & st1 & [Hby <-]%reads_Ok & Hr). apply Hasked in Hby.
  apply rtx_bind_Ok in Hr as (? & st1 & [_ <-]%lift_Ok & Hr). cbv zeta in Hr.
  apply rtx_bind_Ok in Hr as (? & st1 & [_ <-]%reads_Ok & Hr).
  apply rtx_bind_Ok in Hr as (replay & st1 & [Hcmd <-]%reads_Ok & Hr).
  destruct replay; [apply rtx_ret_Ok in Hr as [_ <-]; by apply same_view; [|apply Hok]|].
  apply existing_command_None in Hcmd.
  apply rtx_bind_Ok in Hr as (effect & st1 & [Hres <-]%reads_Ok & Hr).
  destruct effect; [apply rtx_ret_Ok in Hr as [_ <-]; by apply same_view; [|apply Hok]|]. apply resume_create_None in Hres.
  apply rtx_bind_Ok in Hr as (records & st1 & Hrec & Hr). destruct (records_Ok _ _ _ _ _ _ _ _ Hrec (proj2 Hok)) as (Hf & E & Hok1).
  apply rtx_bind_Ok in Hr as (? & st2 & Hclaim%claim_Ok & Hr). apply rtx_ret_Ok in Hr as [_ <-].
  unfold view at 1 in E. injection E as Es Er Ec.
  destruct Hclaim as [(row & Hrow & _ & _)|(_ & Hr2 & Hs2 & Hc2 & _ & _ & Hok2)].
  { exfalso. rewrite Er in Hrow. unfold reservation_key, creation_reservation in Hrow. simpl in Hrow. congruence. }
  split; [|by apply Hok2]. unfold view at 2. rewrite Hr2, Hs2, Hc2, Es, Er, Ec.
  set (r := creation_reservation _ _ _ _ _ _) in *.
  apply (VwClaim _ (view st) (reservation_key r) (reserved_row generation r payload) IntentPrepared);
    [exact Hby|exact create_field| |exact Hres|exact Hf|done|done|by intros _|done].
  simpl. by apply not_elem_of_dom.
Qed.

Lemma required_reservation_Ok principal request_id hash st row :
  required_create_reservation principal request_id hash st = Ok row ->
  st_reservations st !! command_key principal request_id = Some row /\ lr_action row = CREATE /\ lr_status row = PENDING.
Proof.
  unfold required_create_reservation, load_lifecycle_reservation, validate_create_reservation. intros Hr. res_inv. bool_to_prop. unfold str_eqb in *. bool_to_prop.
  split_and!; [done|done|]. by repeat case_bool_decide.
Qed.

Lemma authorize_create_refined generation authority request_id payload op h o l st e st' :
  authorize_agent_create_start_effect generation authority request_id payload op h o l st = Ok (e, st') ->
  lifecycle_ok st -> refined st st'.
Proof.
  unfold authorize_agent_create_start_effect. intros (principal & st1 & [_ <-]%reads_Ok & Hr)%rtx_bind_Ok [_ Hok].
  apply rtx_bind_Ok in Hr as (? & st1 & [_ <-]%lift_Ok & Hr). cbv zeta in Hr.
  apply rtx_bind_Ok in Hr as (? & st1 & [_ <-]%lift_Ok & Hr). apply rtx_bind_Ok in Hr as (? & st1 & [_ <-]%reads_Ok & Hr).
  apply rtx_bind_Ok in Hr as (row & st1 & [_ <-]%reads_Ok & Hr). apply rtx_bind_Ok in Hr as (? & st1 & [_ <-]%lift_Ok & Hr).
  apply rtx_bind_Ok in Hr as (v & st1 & [_ <-]%lift_Ok & Hr). apply rtx_bind_Ok in Hr as (? & st1 & [_ <-]%lift_Ok & Hr).
  apply rtx_bind_Ok in Hr as (s & st1 & [Hl%load_launch_Ok <-]%reads_Ok & Hr). destruct Hl as (Hs & Hkey & _).
  apply rtx_bind_Ok in Hr as (s' & st1 & [(Hk' & Hi & Hi')%start_effect_intent <-]%lift_Ok & Hr).
  apply rtx_bind_Ok in Hr as ([] & st1 & Hsave & Hr). apply rtx_ret_Ok in Hr as [_ <-].
  eapply (refined_move Commanded st st1 st1 s s'); rewrite ?Hi, ?Hi'; try done. congruence.
Qed.

Lemma complete_create_refined principal request_id payload op started now st c st' :
  complete_agent_create_start principal request_id payload op started now st = Ok (c, st') -> lifecycle_ok st -> refined st st'.
Proof.
  unfold complete_agent_create_start. cbv zeta. intros (? & st1 & [_ <-]%lift_Ok & Hr)%rtx_bind_Ok Hok.
  apply rtx_bind_Ok in Hr as (? & st1 & [_ <-]%reads_Ok & Hr). apply rtx_bind_Ok in Hr as (replay & st1 & [_ <-]%reads_Ok & Hr).
  destruct replay; [apply rtx_ret_Ok in Hr as [_ <-]; by apply same_view; [|apply Hok]|].
  apply rtx_bind_Ok in Hr as (row & st1 & [_ <-]%reads_Ok & Hr). apply rtx_bind_Ok in Hr as (? & st1 & [_ <-]%lift_Ok & Hr).
  apply rtx_bind_Ok in Hr as (v & st1 & [_ <-]%lift_Ok & Hr). apply rtx_bind_Ok in Hr as (? & st1 & [_ <-]%lift_Ok & Hr).
  apply rtx_bind_Ok in Hr as (s & st1 & [Hl%load_launch_Ok <-]%reads_Ok & Hr). destruct Hl as (Hs & Hkey & _).
  apply rtx_bind_Ok in Hr as (? & st1 & [_ <-]%lift_Ok & Hr).
  apply rtx_bind_Ok in Hr as (? & st1 & [Hi%require_intent_Ok <-]%lift_Ok & Hr).
  apply rtx_bind_Ok in Hr as (? & st1 & Hfin & Hr). apply rtx_bind_Ok in Hr as ([] & st2 & Hsave & Hr).
  apply rtx_bind_Ok in Hr as (p & st3 & [_ <-]%reads_Ok & Hr).
  apply rtx_bind_Ok in Hr as (? & st4 & Hsp%save_participant_settled & Hr).
  apply rtx_bind_Ok in Hr as (events & st5 & He%append_launch_events_settled & Hr).
  apply rtx_bind_Ok in Hr as (prepared & st6 & [_ <-]%lift_Ok & Hr). apply rtx_bind_Ok in Hr as (outcome & st6 & Hst & Hr).
  apply rtx_ret_Ok in Hr as [_ <-].
  eapply (refined_finish Commanded); [exact Hok| | | | |exact Hfin|exact Hsave| |exact eq_refl|exact Hst]; try done.
  - by eapply keyed.
  - by rewrite Hi.
  - by etrans.
Qed.

Lemma execute_create_refined authorized authority request_id payload draft now st outcome st' :
  execute_agent_create authorized authority request_id payload draft now st = Ok (outcome, st') -> lifecycle_ok st -> refined st st'.
Proof.
  unfold execute_agent_create. intros (? & st1 & [_ <-]%lift_Ok & Hr)%rtx_bind_Ok Hok.
  apply rtx_bind_Ok in Hr as (principal & st1 & [_ <-]%reads_Ok & Hr). apply rtx_bind_Ok in Hr as (? & st1 & [_ <-]%lift_Ok & Hr).
  apply rtx_bind_Ok in Hr as (? & st1 & [_ <-]%reads_Ok & Hr). cbv zeta in Hr.
  apply rtx_bind_Ok in Hr as (replay & st1 & Hadm & Hr).
  destruct replay; [apply admit_replayed in Hadm as [-> _]; apply rtx_ret_Ok in Hr as [_ <-]; by apply same_view; [|apply Hok]|].
  apply admit_settled in Hadm as [Hn Hset]. apply rtx_bind_Ok in Hr as (records & st2 & Hrec & Hr).
  destruct (records_Ok _ _ _ _ _ _ _ _ Hrec (sl_ok _ _ Hset (proj2 Hok))) as (Hf & E & Hok2).
  apply store_result_Ok in Hr as (_ & row & _ & _ & ->). split; [|by destruct Hok2].
  rewrite (settled_view _ _ Hset) in Hf, E. unfold view at 1 in E. injection E as Es Er Ec.
  unfold view at 2. simpl. rewrite Es, Er, dom_insert_L, Ec, (sl_reservations _ _ Hset), (sl_commands _ _ Hset).
  apply VwOther; simpl.
  - intros k i Hi. destruct (decide (k = (pr_room_id principal, s_session_id (d_public (cn_session records))))) as [->|Hne].
    + unfold free in Hf. simpl in Hf. rewrite Hi in Hf. simpl in Hf. rewrite Hf. apply lookup_insert_eq.
    + by rewrite lookup_insert_ne.
  - intros k i [[<- <-]|[_ Hi]]%lookup_insert_Some Hnone; [done|]. rewrite Hi in Hnone. done.
  - done.
  - set_solver.
  - intros key [->%elem_of_singleton|?]%elem_of_union ?; done.
Qed.
End refinement.
