(* ===== verification/Reconcile.v ===== *)
(** * Reconciling runtimes (agentsassemble-persistence/src/agent_reconciliation.rs,
    agent_reconciliation_live.rs, agent_reconciliation_recovery.rs,
    agent_reconciliation_scan.rs)

    When the server does not know any more whether the runtime of a session is up,
    it observes it without a transaction, and records what it observed only if the
    session and the requests it serves are still the ones it read. *)

From Stdlib Require Import String.
From stdpp Require Import gmap sorting.
From S2P Require Import Prelude Text Diagnostic Json Bytes Model Command Vote Projection Settings Store Budget Turn Routing RoomStore.
From S2P Require Import Authority Requests Execution Observation VoteStore ProviderRequest Scheduler Completion Calm Messages.
From S2P Require Import Reservations Launch Stop Pause Lifecycle Create.

(** What serde_json writes of a session and of a principal. *)
Class SessionSerde : Type := { durable_value : DurableAgentSession -> value; principal_text : AuthenticatedPrincipal -> str }.

#[global] Instance PersonaAssetKind_eq_dec : EqDecision PersonaAssetKind.
Proof. solve_decision. Defined.
#[global] Instance PersonaAssetSummary_eq_dec : EqDecision PersonaAssetSummary.
Proof. solve_decision. Defined.
#[global] Instance AgentSession_eq_dec : EqDecision AgentSession.
Proof. solve_decision. Defined.
#[global] Instance DurableAgentSession_eq_dec : EqDecision DurableAgentSession.
Proof. solve_decision. Defined.

Definition ACTIVE_RUNTIME_STATES : list AgentRuntimeStatus :=
  [RuntimeStarting; RuntimeIdle; RuntimeBusy; RuntimePaused; RuntimeRecovering; RuntimeStopping].

Record RuntimeReconciliationReservation : Type := MkReconciliationReservation {
  rc_principal : AuthenticatedPrincipal;
  rc_request_id : str;
  rc_action : str;
  rc_payload_hash : str;
  rc_payload : value;
  rc_supervisor_generation : str;
  rc_session_id : str;
  rc_operation_id : str;
  rc_phase : str;
  rc_prepared_result : str
}.
Record RuntimeReconciliationCandidate : Type := MkReconciliationCandidate {
  rn_session : DurableAgentSession;
  rn_reservation : option RuntimeReconciliationReservation;
  rn_cas_token : str
}.
Inductive RuntimeReconciliationObservation : Type :=
| Adopted (handle_id previous_owner_id new_owner_id runtime_profile_key : str)
| Gone
| LeaseUncertain (handle_id owner_id reason_code : str)
| Ambiguous (reason_code : str).
Inductive LiveRuntimeReconciliation : Type := RetryOriginalEffect | StillUnresolved.

Definition stale_candidate : PersistenceError :=
  rejected_tx "stale_reconciliation_candidate" "Provider runtime reconciliation candidate changed during observation.".
Definition invalid_observation : PersistenceError :=
  rejected_tx "invalid_runtime_observation" "Provider runtime observation does not match durable authority.".
Definition invalid_stored_authority : PersistenceError :=
  rejected_tx "invalid_stored_runtime_authority" "Stored provider runtime authority is incomplete or inconsistent.".

(** A pending row with the rest of its key. *)
Record PendingReservation : Type := MkPendingReservation {
  pd_principal_id : str;
  pd_request_id : str;
  pd_row : LifecycleRow
}.

(** The order of two columns. *)
Definition pair_leb (a b : str * str) : bool := if str_eqb a.1 b.1 then str_leb a.2 b.2 else str_leb a.1 b.1.
Definition pending_le (a b : PendingReservation) : Prop :=
  pair_leb (pd_principal_id a, pd_request_id a) (pd_principal_id b, pd_request_id b) = true.
#[global] Instance pending_le_dec : RelDecision pending_le.
Proof. intros a b. unfold pending_le. apply _. Defined.

Definition load_pending_reservations (room_id session_id : str) (st : RoomStore) : list PendingReservation :=
  merge_sort pending_le
    (map (fun e : str * str * str * LifecycleRow => MkPendingReservation e.1.1.2 e.1.2 e.2)
      (filter (fun e : str * str * str * LifecycleRow =>
         e.1.1.1 = room_id /\ lr_session_id e.2 = session_id /\ lr_status e.2 = PENDING) (map_to_list (st_reservations st)))).

(** ** What a row must say of the session it is for *)

Definition reservation_matches_intent (row : LifecycleRow) (action : AgentLifecycleAction) : bool :=
  match action with
  | ActionStart => contains [START; RESUME; READD] (lr_action row) && str_eqb (lr_phase row) (u "lifecycle_prepared")
                   || str_eqb (lr_action row) CREATE && str_eqb (lr_phase row) CREATION_COMMITTED
  | ActionStop => str_eqb (lr_action row) STOP && str_eqb (lr_phase row) (u "lifecycle_prepared")
  | ActionNone => false
  end.

Definition runtime_identity_partial (session : DurableAgentSession) : bool :=
  let empty := map str_empty [d_runtime_handle_id session; d_runtime_owner_id session; d_runtime_lease_token session] in
  negb (all id empty) && negb (all negb empty).

Section reconcile.
Context `{UnicodeGeneralCategory, CharCase, UnicodeCase, Caseless, Sha256, Chrono, Entropy, PersonaLibrary, UuidCrate, ChronoRange,
  AttendeeParent, RequestSerde, RegexCrate, ByteDigest, JsonText, SessionSerde}.

Definition payload_session_id (action : str) (payload : value) (prepared_result_json : str) (session : DurableAgentSession) : tx str :=
  if str_eqb action CREATE then
    prepared ← ok_or (json_from_text prepared_result_json) invalid_stored_authority;
    require (names_session prepared (s_session_id (d_public session))) invalid_stored_authority ;;
    mret (s_session_id (d_public session))
  else if str_eqb action READD then map_err (fun _ => invalid_stored_authority) (fst <$> launch_payload payload action)
  else map_err (fun _ => invalid_stored_authority) (payload_agent_id payload).

Definition decode_reservation (session : DurableAgentSession) (matching : PendingReservation) : tx RuntimeReconciliationReservation :=
  let row := pd_row matching in
  let principal := lr_principal row in
  reject_if (str_empty (lr_supervisor_generation row)) invalid_stored_authority ;;
  reject_if (negb (str_eqb (pr_room_id principal) (s_room_id (d_public session)))
             || negb (str_eqb (pr_principal_id principal) (pd_principal_id matching))
             || negb (cap_agent_control (pr_capabilities principal)) || str_empty (pr_participant_id principal)
             || negb (str_eqb (canonical_payload_hash (lr_payload row)) (lr_payload_hash row))) invalid_stored_authority ;;
  session_id ← payload_session_id (lr_action row) (lr_payload row) (lr_prepared_result row) session;
  reject_if (negb (str_eqb session_id (s_session_id (d_public session)))
             || negb (str_empty (lr_failure_code row)) || negb (str_empty (lr_failure_message row))) invalid_stored_authority ;;
  mret (MkReconciliationReservation principal (pd_request_id matching) (lr_action row) (lr_payload_hash row) (lr_payload row)
          (lr_supervisor_generation row) (s_session_id (d_public session)) (lr_operation_id row) (lr_phase row)
          (lr_prepared_result row)).

Definition is_pending (r : PendingReservation) : bool := str_eqb (lr_status (pd_row r)) PENDING.
Definition matches_session (session : DurableAgentSession) (r : PendingReservation) : bool :=
  reservation_matches_intent (pd_row r) (d_lifecycle_intent_action session)
  && str_eqb (lr_operation_id (pd_row r)) (d_lifecycle_intent_id session) && is_pending r.

Definition validate_candidate_authority (session : DurableAgentSession) (reservations : list PendingReservation) :
    tx (option RuntimeReconciliationReservation) :=
  require (is_ok (active_turn_authority session)) invalid_stored_authority ;;
  reject_if (runtime_identity_partial session) invalid_stored_authority ;;
  let empty := [bool_decide (d_lifecycle_intent_action session = ActionNone); str_empty (d_lifecycle_intent_id session);
                bool_decide (d_lifecycle_intent_status session = IntentNone)] in
  let pending := length (filter (fun r => is_pending r = true) reservations) in
  if all id empty then require (pending =? 0)%nat invalid_stored_authority ;; mret None
  else
    reject_if (any id empty || negb (intent_allowed (d_lifecycle_intent_action session) (d_lifecycle_intent_status session)))
      invalid_stored_authority ;;
    match filter (fun r => matches_session session r = true) reservations with
    | [] => Err invalid_stored_authority
    | matching :: others =>
        reject_if (negb (pending =? 1)%nat || negb (list_empty others)) invalid_stored_authority ;;
        Some <$> decode_reservation session matching
    end.

(** What the candidate is compared by. *)
Definition reservation_value (r : PendingReservation) : value :=
  let row := pd_row r in
  VObject [(u "principal_id", VString (pd_principal_id r)); (u "request_id", VString (pd_request_id r));
           (u "action", VString (lr_action row)); (u "payload_hash", VString (lr_payload_hash row));
           (u "principal_json", VString (principal_text (lr_principal row)));
           (u "payload_json", VString (json_text (lr_payload row)));
           (u "supervisor_generation", VString (lr_supervisor_generation row));
           (u "operation_id", VString (lr_operation_id row)); (u "status", VString (lr_status row));
           (u "phase", VString (lr_phase row)); (u "prepared_result_json", VString (lr_prepared_result row));
           (u "failure_code", VString (lr_failure_code row)); (u "failure_message", VString (lr_failure_message row))].

Definition load_candidate (room_id session_id : str) (st : RoomStore) : tx (option RuntimeReconciliationCandidate) :=
  match st_sessions st !! (room_id, session_id), st_rooms st !! room_id with
  | Some session, Some (room, _) =>
      if bool_decide (rm_status room = RoomClosed) && negb (cleanup_exists room_id session_id st) then Ok None
      else
        session ← read_session session;
        if is_external (d_public session) then Ok None
        else
          require_server_custody session ;;
          let reservations := load_pending_reservations room_id session_id st in
          reservation ← validate_candidate_authority session reservations;
          let token := canonical_payload_hash (VObject
            [(u "session", durable_value session); (u "reservations", VArray (map reservation_value reservations))]) in
          mret (Some (MkReconciliationCandidate session reservation token))
  | _, _ => Ok None
  end.

(** ** What an observation makes of the session *)

Definition confirmed_stop_needs_reconciliation (session : DurableAgentSession) : bool :=
  let public := d_public session in
  bool_decide (d_lifecycle_intent_action session = ActionStop)
  && bool_decide (d_lifecycle_intent_status session = IntentEffectApplied)
  && (negb (str_empty (d_runtime_handle_id session)) || negb (str_empty (d_runtime_owner_id session))
      || negb (str_empty (d_runtime_lease_token session)) || s_provider_session_active public || s_provider_session_reused public
      || negb (str_empty (s_active_turn_id public)) || negb (bool_decide (s_turn_phase public = PhaseNone))
      || negb (list_empty (d_inflight_inputs session)) || negb (bool_decide (s_status public = SessionUnavailable))).

Definition needs_reconciliation (session : DurableAgentSession) : bool :=
  if bool_decide (d_lifecycle_intent_action session = ActionStop)
     && bool_decide (d_lifecycle_intent_status session = IntentEffectApplied)
  then confirmed_stop_needs_reconciliation session
  else contains ACTIVE_RUNTIME_STATES (s_runtime_status (d_public session)) || negb (runtime_unassigned session)
       || negb (lifecycle_intent_is_empty session).

(** The inputs of the turn wait again. *)
Definition merge_inflight_events (session : DurableAgentSession) (st : RoomStore) : tx DurableAgentSession :=
  merged ← merged_turn_queue session st;
  mret (clear_active_turn_fields (session <| d_pending_inputs := merged |> <| d_inflight_inputs := [] |>)).

Definition end_turn (session : DurableAgentSession) : DurableAgentSession :=
  session <| d_public := (d_public session) <| s_provider_session_active := false |> <| s_provider_session_reused := false |>
                                           <| s_active_turn_id := [] |> <| s_turn_phase := PhaseNone |> |>.
Definition disable (status : AgentSessionStatus) (runtime : AgentRuntimeStatus) (session : DurableAgentSession) : DurableAgentSession :=
  session <| d_public := (d_public session) <| s_status := status |> <| s_enabled := false |> <| s_runtime_status := runtime |> |>.
Definition with_error (code message : string) (recovery_required : bool) (session : DurableAgentSession) : DurableAgentSession :=
  session <| d_public := (d_public session) <| s_last_error := u message |> <| s_last_error_code := u code |>
                                           <| s_recovery_required := recovery_required |> |>.

Definition reconcile_confirmed_stop (session : DurableAgentSession) (now : instant) (st : RoomStore) : tx DurableAgentSession :=
  session ← merge_inflight_events session st;
  mret (touch now (clear_custody (end_turn (disable SessionUnavailable RuntimeStopping session)))).

Definition retain_uncertain_runtime (session : DurableAgentSession) (now : instant) (st : RoomStore) : tx DurableAgentSession :=
  session ← merge_inflight_events session st;
  let unconfirmed := contains [ActionStart; ActionStop] (d_lifecycle_intent_action session)
                     && contains [IntentPrepared; IntentEffectInflight] (d_lifecycle_intent_status session) in
  let session := if unconfirmed then session <| d_lifecycle_intent_status := IntentUnconfirmed |> else session in
  mret (touch now (with_error "runtime_authority_uncertain" "Provider runtime authority could not be confirmed." true
    (end_turn (disable SessionUnavailable RuntimeDisconnected session)))).

Definition stop_after_confirmed_absence (session : DurableAgentSession) (now : instant) (st : RoomStore) : tx DurableAgentSession :=
  session ← merge_inflight_events session st;
  mret (touch now (clear_custody (with_error "" "" false (clear_intent
    (end_turn (disable SessionUnavailable RuntimeStopped session)))))).

Definition invalidate_previous_runtime_owner (session : DurableAgentSession) (now : instant) : DurableAgentSession * bool :=
  if runtime_unassigned session then (session, false) else (touch now (clear_custody session), true).

(** With whether the participant is detached. *)
Definition reconcile_gone (session : DurableAgentSession) (now : instant) (st : RoomStore) : tx (DurableAgentSession * bool) :=
  let unfinished := contains [IntentPrepared; IntentEffectInflight; IntentUnconfirmed] (d_lifecycle_intent_status session) in
  if bool_decide (d_lifecycle_intent_action session = ActionStop) && unfinished then
    session ← reconcile_confirmed_stop (session <| d_lifecycle_intent_status := IntentEffectApplied |>) now st;
    mret (session, true)
  else if bool_decide (d_lifecycle_intent_action session = ActionStart) && unfinished then
    let session := clear_custody session <| d_lifecycle_intent_status := IntentPrepared |> in
    let public := (d_public session) <| s_runtime_status := RuntimeStarting |> <| s_provider_session_active := false |> in
    Ok (touch now (session <| d_public := public |>), false)
  else if contains (RuntimeDisconnected :: ACTIVE_RUNTIME_STATES) (s_runtime_status (d_public session)) then
    session ← stop_after_confirmed_absence session now st; mret (session, true)
  else Ok (invalidate_previous_runtime_owner session now).

Definition validate_uncertain_lease (session : DurableAgentSession) (handle_id owner_id reason_code : str) : tx unit :=
  reject_if (str_empty handle_id || str_empty owner_id || str_empty reason_code
             || negb (str_eqb handle_id (d_runtime_handle_id session)) || negb (str_eqb owner_id (d_runtime_owner_id session)))
    invalid_observation.

Definition validate_adoption (session : DurableAgentSession) (handle_id previous_owner_id new_owner_id runtime_profile_key : str) :
    tx unit :=
  reject_if (str_empty handle_id || str_empty previous_owner_id || str_empty new_owner_id
             || negb (str_eqb handle_id (d_runtime_handle_id session))
             || negb (str_eqb previous_owner_id (d_runtime_owner_id session))
             || negb (str_eqb runtime_profile_key (d_runtime_profile_key session)))
    invalid_observation.

Definition adopt_runtime (handle_id new_owner_id : str) (session : DurableAgentSession) : DurableAgentSession :=
  session <| d_runtime_handle_id := handle_id |> <| d_runtime_owner_id := new_owner_id |>
          <| d_public := (d_public session) <| s_provider_session_active := false |> |>.

Definition interrupted_by_adoption (session : DurableAgentSession) : DurableAgentSession :=
  let session := disable SessionUnavailable RuntimeRecovering session in
  with_error "provider_turn_recovery_required" "A provider turn was interrupted while its runtime was adopted after restart." true
    (session <| d_public := (d_public session) <| s_active_turn_id := [] |> <| s_turn_phase := PhaseNone |> |>).

Definition reconcile_observation (session : DurableAgentSession) (observation : RuntimeReconciliationObservation) (now : instant)
    (st : RoomStore) : tx (DurableAgentSession * bool) :=
  if confirmed_stop_needs_reconciliation session then
    session ← reconcile_confirmed_stop session now st; mret (session, true)
  else
    match observation with
    | Adopted handle_id previous_owner_id new_owner_id runtime_profile_key =>
        validate_adoption session handle_id previous_owner_id new_owner_id runtime_profile_key ;;
        let session := adopt_runtime handle_id new_owner_id session in
        match active_turn_authority session with
        | Ok true =>
            session ← merge_inflight_events session st;
            mret (touch now (interrupted_by_adoption session), true)
        | _ => Ok (touch now session, false)
        end
    | Gone => reconcile_gone session now st
    | LeaseUncertain handle_id owner_id reason_code =>
        validate_uncertain_lease session handle_id owner_id reason_code ;;
        session ← retain_uncertain_runtime session now st; mret (session, true)
    | Ambiguous reason_code =>
        reject_if (str_empty reason_code) invalid_observation ;;
        session ← retain_uncertain_runtime session now st; mret (session, true)
    end.

Definition save_reconciled_session (session : DurableAgentSession) : rtx unit := fun st =>
  match st_sessions st !! session_key session with
  | None => Err stale_candidate
  | Some _ => save_session session st
  end.

(** The participant may be gone. *)
Definition detach_present_participant (room_id participant_id : str) (now : instant) : rtx unit :=
  participant ← reads (fun st => Ok (st_participants st !! (room_id, participant_id)));
  match participant with
  | None => mret tt
  | Some participant =>
      modifies (fun st => st <| st_participants := <[(room_id, participant_id) := detach_runtime participant now]> (st_participants st) |>)
  end.

Definition detach_if (detach : bool) (session : DurableAgentSession) (now : instant) : rtx unit :=
  if detach then detach_present_participant (s_room_id (d_public session)) (s_participant_id (d_public session)) now else mret tt.

(** ** agent_reconciliation_recovery.rs *)

Inductive FloorProgression : Type := Assign | Defer.

Definition current_candidate (candidate : RuntimeReconciliationCandidate) (st : RoomStore) : tx RuntimeReconciliationCandidate :=
  let public := d_public (rn_session candidate) in
  current ← load_candidate (s_room_id public) (s_session_id public) st;
  current ← ok_or current stale_candidate;
  require (str_eqb (rn_cas_token current) (rn_cas_token candidate) && bool_decide (rn_session current = rn_session candidate))
    stale_candidate ;;
  mret current.

Definition reservation_ref (r : RuntimeReconciliationReservation) : LifecycleReservation :=
  MkReservation (rc_principal r) (rc_request_id r) (rc_action r) (rc_payload_hash r) (rc_session_id r) (rc_operation_id r) (rc_phase r)
    (rc_prepared_result r).

Definition abandoned_rejection (action : AgentLifecycleAction) : tx (string * string) :=
  match action with
  | ActionStart => Ok ("runtime_start_abandoned_before_effect"%string,
      "The provider start owner ended before authorizing an external effect. Retry with a new request."%string)
  | ActionStop => Ok ("runtime_stop_abandoned_before_effect"%string,
      "The provider stop owner ended before authorizing an external effect. Retry with a new request."%string)
  | ActionNone => Err invalid_stored_authority
  end.

Definition abandoned_session (code message : string) (now : instant) (session : DurableAgentSession) : DurableAgentSession :=
  let session :=
    if bool_decide (d_lifecycle_intent_action session = ActionStart) && runtime_unassigned session
    then let session := disable SessionUnavailable RuntimeError session in
         session <| d_public := (d_public session) <| s_provider_session_active := false |> <| s_provider_session_reused := false |> |>
    else session in
  touch now (clear_intent (with_error code message false session)).

Definition reject_abandoned (current : RuntimeReconciliationCandidate) (now : instant) : rtx unit :=
  let session := rn_session current in
  lift (require (bool_decide (d_lifecycle_intent_status session = IntentPrepared)) stale_candidate) ;;
  reservation ← lift (ok_or (rn_reservation current) invalid_stored_authority);
  '(code, message) ← lift (abandoned_rejection (d_lifecycle_intent_action session));
  reject_lifecycle_command (reservation_ref reservation) (u code) (u message) ;;
  let session := abandoned_session code message now session in
  save_reconciled_session session ;;
  append_error_event (rc_principal reservation) (d_public session) (u code) (u message) now ;;
  append_state_event (rc_principal reservation) (d_public session) now ;;
  mret tt.

Definition reject_abandoned_lifecycle_before_effect (candidate : RuntimeReconciliationCandidate) (now : instant) : rtx unit :=
  current ← reads (current_candidate candidate);
  reject_abandoned current now.

Definition is_gone (observation : RuntimeReconciliationObservation) : bool := match observation with Gone => true | _ => false end.

Definition recovered_stop_is_terminal (session : DurableAgentSession) (observation : RuntimeReconciliationObservation) : bool :=
  bool_decide (d_lifecycle_intent_action session = ActionStop)
  && (bool_decide (d_lifecycle_intent_status session = IntentEffectApplied)
      || is_gone observation
         && contains [IntentPrepared; IntentEffectInflight; IntentUnconfirmed] (d_lifecycle_intent_status session)).
Definition recovered_start_is_gone (session : DurableAgentSession) (observation : RuntimeReconciliationObservation) : bool :=
  is_gone observation && bool_decide (d_lifecycle_intent_action session = ActionStart)
  && contains [IntentPrepared; IntentEffectInflight; IntentUnconfirmed] (d_lifecycle_intent_status session).

Definition RECOVERED_START_CODE : string := "runtime_start_recovered_gone".
Definition RECOVERED_START_MESSAGE : string :=
  "The original provider start did not complete before server recovery. Retry with a new request.".

Definition recovered_start_session (now : instant) (session : DurableAgentSession) : DurableAgentSession :=
  let session := disable SessionUnavailable RuntimeError session in
  let session := session <| d_public := (d_public session) <| s_provider_session_active := false |>
                                                          <| s_provider_session_reused := false |> |> in
  touch now (clear_intent (clear_custody (with_error RECOVERED_START_CODE RECOVERED_START_MESSAGE false session))).

Definition reject_recovered_start (current : RuntimeReconciliationCandidate) (now : instant) : rtx unit :=
  reservation ← lift (ok_or (rn_reservation current) invalid_stored_authority);
  reject_lifecycle_command (reservation_ref reservation) (u RECOVERED_START_CODE) (u RECOVERED_START_MESSAGE) ;;
  let session := recovered_start_session now (rn_session current) in
  save_reconciled_session session ;;
  append_error_event (rc_principal reservation) (d_public session) (u RECOVERED_START_CODE) (u RECOVERED_START_MESSAGE) now ;;
  append_state_event (rc_principal reservation) (d_public session) now ;;
  mret tt.

Definition recovered_stop_session (restored : list QueuedRoomInput) (now : instant) (session : DurableAgentSession) :
    DurableAgentSession :=
  let session := detached_session restored now session in
  session <| d_public := (d_public session) <| s_provider_session_reused := false |> |>.

Definition finalize_recovered_stop (current : RuntimeReconciliationCandidate) (progression : FloorProgression) (now : instant) :
    rtx (list AgentTurnAssignment) :=
  let session := rn_session current in
  reservation ← lift (ok_or (rn_reservation current) invalid_stored_authority);
  let principal := rc_principal reservation in
  finish_lifecycle_command (reservation_ref reservation) ;;
  restored ← reads (merged_turn_queue session);
  let session := recovered_stop_session restored now session in
  let public := d_public session in
  save_reconciled_session session ;;
  detach_present_participant (s_room_id public) (s_participant_id public) now ;;
  detached ← append_session_event principal public "session_detached" (<[u "reason" := VString (u "operator stop")]> ∅) now;
  state ← append_state_event principal public now;
  let events := [detached; state] in
  store_result principal (rc_request_id reservation) (rc_action reservation) (rc_payload_hash reservation)
    ([(u "agent_session", session_value public);
      (u "process", VObject [(u "stopped", VBool true); (u "alive", VBool false);
                             (u "ownership", VString (u "server")); (u "confirmed", VBool true)]);
      (u "revoked_sessions", VInt 0)] ++ events_fields events) events ;;
  match progression with
  | Defer => mret []
  | Assign =>
      '(room, settings) ← reads (load_active_room (s_room_id public));
      commit ← assign_pending_in room settings now;
      mret (tcm_next_assignments commit)
  end.

Definition after_cleanup (session : DurableAgentSession) : DurableAgentSession :=
  session <| d_public := (d_public session) <| s_runtime_status := RuntimeStopped |> <| s_recovery_required := false |> |>.

Definition apply_reconciliation (candidate : RuntimeReconciliationCandidate) (observation : RuntimeReconciliationObservation)
    (progression : FloorProgression) (now : instant) : rtx (list AgentTurnAssignment) :=
  current ← reads (current_candidate candidate);
  let session := rn_session current in
  if bool_decide (d_lifecycle_intent_status session = IntentPrepared) then reject_abandoned current now ;; mret []
  else if recovered_stop_is_terminal session observation then finalize_recovered_stop current progression now
  else if recovered_start_is_gone session observation then reject_recovered_start current now ;; mret []
  else
    '(session, detach) ← reads (reconcile_observation session observation now);
    removed ← reads (fun st => Ok (is_gone observation
                                   && cleanup_exists (s_room_id (d_public session)) (s_session_id (d_public session)) st));
    let session := if removed : bool then after_cleanup session else session in
    save_reconciled_session session ;;
    detach_if detach session now ;;
    mret [].

(** [apply_runtime_reconciliation], [apply_runtime_shutdown_reconciliation] *)
Definition apply_runtime_reconciliation (candidate : RuntimeReconciliationCandidate) (observation : RuntimeReconciliationObservation)
    (now : instant) : rtx (list AgentTurnAssignment) := apply_reconciliation candidate observation Assign now.
Definition apply_runtime_shutdown_reconciliation (candidate : RuntimeReconciliationCandidate)
    (observation : RuntimeReconciliationObservation) (now : instant) : rtx unit :=
  apply_reconciliation candidate observation Defer now ;; mret tt.

Variable generation : str.

(** The start may be tried again with the runtime that was adopted. *)
Definition adopted_start_session (handle_id new_owner_id : str) (now : instant) (session : DurableAgentSession) : DurableAgentSession :=
  let session := adopt_runtime handle_id new_owner_id session in
  let public := (d_public session) <| s_status := SessionAvailable |> <| s_enabled := true |> <| s_runtime_status := RuntimeStarting |>
    <| s_last_error := [] |> <| s_last_error_code := [] |> <| s_recovery_required := false |> in
  touch now (session <| d_public := public |> <| d_lifecycle_intent_status := IntentPrepared |>).

Definition apply_live_reconciliation (candidate : RuntimeReconciliationCandidate) (observation : RuntimeReconciliationObservation)
    (now : instant) : rtx LiveRuntimeReconciliation :=
  current ← reads (current_candidate candidate);
  reservation ← lift (ok_or (rn_reservation current) invalid_stored_authority);
  lift (require (str_eqb (rc_supervisor_generation reservation) generation) awaits_reconciliation) ;;
  let session := rn_session current in
  lift (require (contains [IntentEffectInflight; IntentUnconfirmed] (d_lifecycle_intent_status session)
                 && str_eqb (d_lifecycle_intent_id session) (rc_operation_id reservation)) stale_candidate) ;;
  match observation with
  | Gone =>
      '(session, detach) ← reads (reconcile_gone session now);
      save_reconciled_session session ;;
      detach_if detach session now ;;
      mret RetryOriginalEffect
  | Adopted handle_id previous_owner_id new_owner_id runtime_profile_key =>
      lift (validate_adoption session handle_id previous_owner_id new_owner_id runtime_profile_key) ;;
      if bool_decide (d_lifecycle_intent_action session = ActionStart) then
        save_reconciled_session (adopted_start_session handle_id new_owner_id now session) ;;
        mret RetryOriginalEffect
      else mret StillUnresolved
  | LeaseUncertain handle_id owner_id reason_code =>
      lift (validate_uncertain_lease session handle_id owner_id reason_code) ;; mret StillUnresolved
  | Ambiguous reason_code => lift (reject_if (str_empty reason_code) invalid_observation) ;; mret StillUnresolved
  end.

(** ** agent_reconciliation_live.rs *)

Definition record_idle_runtime_failure (candidate : RuntimeReconciliationCandidate) (now : instant) : rtx unit :=
  current ← reads (current_candidate candidate);
  let session := rn_session current in
  let public := d_public session in
  blocked ← reads (fun st => Ok (blocking_execution_exists (s_room_id public) (s_session_id public) st));
  if negb (bool_decide (d_lifecycle_intent_status session = IntentNone)) || s_recovery_required public || blocked then mret tt
  else
    session ← reads (retain_uncertain_runtime session now);
    let code := "managed_bridge_exited"%string in
    let message := "The managed provider bridge ended unexpectedly. Stop it before restarting."%string in
    let session := session <| d_public := (d_public session) <| s_last_error_code := u code |> <| s_last_error := u message |> |> in
    save_reconciled_session session ;;
    detach_present_participant (s_room_id public) (s_participant_id public) now ;;
    error_event session [] (u code) (u message) now ;;
    internal_event session "session_detached" false None (<[u "reason" := VString (u code)]> ∅) now ;;
    session_state_event session now ;;
    mret tt.

Definition same_principal_identity (stored current : AuthenticatedPrincipal) : bool :=
  str_eqb (pr_principal_id stored) (pr_principal_id current) && str_eqb (pr_participant_id stored) (pr_participant_id current)
  && str_eqb (pr_room_id stored) (pr_room_id current) && bool_decide (pr_client_kind stored = pr_client_kind current)
  && bool_decide (pr_invite_scope stored = pr_invite_scope current) && Bool.eqb (pr_is_operator stored) (pr_is_operator current).

Definition load_lifecycle_reconciliation_candidate (principal : AuthenticatedPrincipal) (request_id action : str) (payload : value)
    (st : RoomStore) : tx RuntimeReconciliationCandidate :=
  row ← ok_or (load_lifecycle_reservation (command_key principal request_id) st) CommandConflict;
  require (str_eqb (lr_action row) action && str_eqb (lr_payload_hash row) (canonical_payload_hash payload)
           && str_eqb (lr_status row) PENDING) CommandConflict ;;
  candidate ← load_candidate (pr_room_id principal) (lr_session_id row) st;
  candidate ← ok_or candidate stale_candidate;
  reservation ← ok_or (rn_reservation candidate) invalid_stored_authority;
  require (same_principal_identity (rc_principal reservation) principal && str_eqb (rc_request_id reservation) request_id
           && str_eqb (rc_action reservation) action && bool_decide (normalize (rc_payload reservation) = normalize payload)
           && contains [IntentEffectInflight; IntentUnconfirmed] (d_lifecycle_intent_status (rn_session candidate))) CommandConflict ;;
  require (str_eqb (rc_supervisor_generation reservation) generation) awaits_reconciliation ;;
  mret candidate.

Definition load_runtime_reconciliation_candidate (room_id session_id : str) (st : RoomStore) :
    tx (option RuntimeReconciliationCandidate) :=
  if blocking_execution_exists room_id session_id st then Ok None
  else
    candidate ← load_candidate room_id session_id st;
    mret (match candidate with
          | Some candidate => if needs_reconciliation (rn_session candidate) then Some candidate else None
          | None => None
          end).
End reconcile.

(** ** Reconciliation follows the machine of Lifecycle.v *)

Section refinement.
Context `{UnicodeGeneralCategory, CharCase, UnicodeCase, Caseless, Sha256, Chrono, Entropy, PersonaLibrary, UuidCrate, ChronoRange,
  AttendeeParent, RequestSerde, RegexCrate, ByteDigest, JsonText, SessionSerde}.

Lemma save_reconciled_Ok s st t st' : save_reconciled_session s st = Ok (t, st') -> t = tt /\ save_session s st = Ok (tt, st').
Proof.
  unfold save_reconciled_session. destruct (st_sessions st !! _); [|done]. intros Hs. split; [by destruct t|]. by destruct t.
Qed.

Lemma detach_present_settled room_id participant_id now : keeps settled (detach_present_participant room_id participant_id now).
Proof.
  unfold detach_present_participant. apply (keeps_bind _); [apply (keeps_reads _)|]. intros [p|]; [|apply (keeps_ret _)].
  apply (keeps_modifies _). intros st. split; try done. by intros [Hk Hp].
Qed.
Lemma detach_if_settled detach session now : keeps settled (detach_if detach session now).
Proof. unfold detach_if. destruct detach; [apply detach_present_settled|apply (keeps_ret _)]. Qed.

(** *** What a candidate says of its session *)

Lemma decode_Ok session matching r :
  decode_reservation session matching = Ok r ->
  pr_room_id (rc_principal r) = s_room_id (d_public session) /\ rc_session_id r = s_session_id (d_public session).
Proof.
  unfold decode_reservation. intros Hr. res_inv. bool_to_prop. unfold str_eqb in *. bool_to_prop. simpl. split; [|done]. congruence.
Qed.

(** The reservation is for the session, which serves nothing without one. *)
Definition serves_request (session : DurableAgentSession) (reservation : option RuntimeReconciliationReservation) : Prop :=
  match reservation with
  | None => intent_of session = no_intent
  | Some r => session_key session = (pr_room_id (rc_principal r), rc_session_id r) /\
      intent_allowed (d_lifecycle_intent_action session) (d_lifecycle_intent_status session) = true
  end.

Lemma validate_candidate_Ok session rows reservation :
  validate_candidate_authority session rows = Ok reservation -> serves_request session reservation.
Proof.
  unfold validate_candidate_authority. cbv zeta. intros (? & _ & Hr)%bind_Ok. apply bind_Ok in Hr as (? & _ & Hr).
  destruct (all id _) eqn:Hall.
  - apply bind_Ok in Hr as (? & _ & [= <-]). simpl in *. bool_to_prop. unfold intent_of, no_intent.
    destruct (d_lifecycle_intent_id session); [|done]. congruence.
  - apply bind_Ok in Hr as (? & Hrej%reject_if_Ok & Hr). destruct (filter _ rows) as [|m others]; [done|].
    apply bind_Ok in Hr as (? & _ & Hr). apply fmap_Ok in Hr as (r & [Hroom Hses]%decode_Ok & E). subst reservation. simpl.
    apply orb_false_iff in Hrej as [_ Hallow%negb_false_iff]. split; [|done]. unfold session_key. congruence.
Qed.

Lemma load_candidate_Ok room_id session_id st c :
  load_candidate room_id session_id st = Ok (Some c) ->
  st_sessions st !! (room_id, session_id) = Some (rn_session c) /\ serves_request (rn_session c) (rn_reservation c).
Proof.
  unfold load_candidate. destruct (st_sessions st !! (room_id, session_id)) as [s|]; [|done].
  destruct (st_rooms st !! room_id) as [[room settings]|]; [|done]. destruct (_ && _); [done|].
  intros (s' & Hs%read_session_Ok & Hr)%bind_Ok. subst s'. destruct (is_external _); [done|].
  apply bind_Ok in Hr as (? & _ & Hr). cbv zeta in Hr. apply bind_Ok in Hr as (reservation & Hv%validate_candidate_Ok & [= <-]). done.
Qed.

Lemma current_candidate_Ok c st current :
  current_candidate c st = Ok current ->
  st_sessions st !! session_key (rn_session current) = Some (rn_session current) /\ rn_session current = rn_session c /\
  serves_request (rn_session current) (rn_reservation current).
Proof.
  unfold current_candidate. intros (o & Hl & Hr)%bind_Ok. apply bind_Ok in Hr as (current' & ->%ok_or_Ok & Hr).
  apply bind_Ok in Hr as (? & Hq%require_Ok & [= <-]). apply andb_true_iff in Hq as [_ E%bool_decide_eq_true].
  apply load_candidate_Ok in Hl as [Hs Hv]. split_and!; [|done|done]. rewrite E in Hs |- *. exact Hs.
Qed.

(** *** What an observation does to the intent *)

Lemma merge_inflight_Ok s st s' :
  merge_inflight_events s st = Ok s' -> session_key s' = session_key s /\ intent_of s' = intent_of s.
Proof. unfold merge_inflight_events. by intros (? & _ & [= <-])%bind_Ok. Qed.

Lemma confirmed_stop_Ok s now st s' :
  reconcile_confirmed_stop s now st = Ok s' -> session_key s' = session_key s /\ intent_of s' = intent_of s.
Proof.
  unfold reconcile_confirmed_stop. intros (s1 & [Hk Hi]%merge_inflight_Ok & [= <-])%bind_Ok. split; [rewrite <- Hk|rewrite <- Hi]; done.
Qed.

Lemma retain_Ok s now st s' :
  retain_uncertain_runtime s now st = Ok s' -> session_key s' = session_key s /\
  in_action (intent_of s') = in_action (intent_of s) /\ in_operation (intent_of s') = in_operation (intent_of s) /\
  (in_status (intent_of s') = in_status (intent_of s) \/
   in_action (intent_of s) <> ActionNone /\ in_status (intent_of s') = IntentUnconfirmed /\
   (in_status (intent_of s) = IntentPrepared \/ in_status (intent_of s) = IntentEffectInflight)).
Proof.
  unfold retain_uncertain_runtime. intros (s1 & [Hk Hi]%merge_inflight_Ok & [= <-])%bind_Ok. rewrite <- Hi, <- Hk.
  destruct (contains _ _ && contains _ _) eqn:Hc; (split_and!; [done|done|done|]); [right|by left].
  apply andb_true_iff in Hc as [Ha%contains_true Hs%contains_true]. simpl. split_and!; [|done|].
  - intros E. rewrite E in Ha. set_solver.
  - set_solver.
Qed.

Lemma absence_Ok s now st s' :
  stop_after_confirmed_absence s now st = Ok s' -> session_key s' = session_key s /\ intent_of s' = no_intent.
Proof.
  unfold stop_after_confirmed_absence. intros (s1 & [Hk Hi]%merge_inflight_Ok & [= <-])%bind_Ok. split; [by rewrite <- Hk|done].
Qed.

(** An observation that does not end the request leaves it as it was, or unconfirmed. *)
Lemma reconcile_observation_Ok s observation now st s' detach :
  reconcile_observation s observation now st = Ok (s', detach) ->
  intent_of s = no_intent \/ is_gone observation = false ->
  session_key s' = session_key s /\
  (intent_of s' = intent_of s \/
   in_action (intent_of s') = in_action (intent_of s) /\ in_operation (intent_of s') = in_operation (intent_of s) /\
   in_action (intent_of s) <> ActionNone /\ in_status (intent_of s') = IntentUnconfirmed /\
   (in_status (intent_of s) = IntentPrepared \/ in_status (intent_of s) = IntentEffectInflight)).
Proof.
  assert (Hretain : forall s1 d, (session ← retain_uncertain_runtime s now st; mret (session, true)) = Ok (s1, d) ->
    session_key s1 = session_key s /\
    (intent_of s1 = intent_of s \/
     in_action (intent_of s1) = in_action (intent_of s) /\ in_operation (intent_of s1) = in_operation (intent_of s) /\
     in_action (intent_of s) <> ActionNone /\ in_status (intent_of s1) = IntentUnconfirmed /\
     (in_status (intent_of s) = IntentPrepared \/ in_status (intent_of s) = IntentEffectInflight))).
  { intros s1 d (s2 & (Hk & Ha & Ho & Hst)%retain_Ok & [= <- <-])%bind_Ok. split; [done|].
    destruct Hst as [E|(? & ? & ?)]; [left|by right; split_and!]. destruct (intent_of s2), (intent_of s). simpl in *. congruence. }
  unfold reconcile_observation. destruct (confirmed_stop_needs_reconciliation s).
  { intros (s1 & [Hk Hi]%confirmed_stop_Ok & [= <- <-])%bind_Ok _. auto. }
  destruct observation as [h p n k| |h o r|r].
  - intros (? & _ & Hr)%bind_Ok _. destruct (active_turn_authority _) as [[]|]; [|by injection Hr as <- _; auto..].
    apply bind_Ok in Hr as (s1 & [Hk Hi]%merge_inflight_Ok & [= <- _]). split; [exact Hk|left; exact Hi].
  - intros Hr [Hno|?]; [|done]. unfold reconcile_gone in Hr. unfold intent_of, no_intent in Hno. injection Hno as Ha Ho Hs.
    rewrite Ha, Hs in Hr. simpl in Hr. case_match.
    + apply bind_Ok in Hr as (s1 & [Hk Hi]%absence_Ok & [= <- _]). split; [done|left]. rewrite Hi. unfold intent_of, no_intent. congruence.
    + unfold invalidate_previous_runtime_owner in Hr. destruct (runtime_unassigned s); injection Hr as <- _; auto.
  - intros (? & _ & Hr)%bind_Ok _. by eapply Hretain.
  - intros (? & _ & Hr)%bind_Ok _. by eapply Hretain.
Qed.

(** *** Each transaction is a step of the machine *)

Lemma unresolved_cases s : contains [IntentEffectInflight; IntentUnconfirmed] (d_lifecycle_intent_status s) = true ->
  d_lifecycle_intent_status s = IntentEffectInflight \/ d_lifecycle_intent_status s = IntentUnconfirmed.
Proof. by destruct (d_lifecycle_intent_status s); auto. Qed.

Lemma reject_abandoned_refined current now st t st' :
  st_sessions st !! session_key (rn_session current) = Some (rn_session current) ->
  serves_request (rn_session current) (rn_reservation current) ->
  reject_abandoned current now st = Ok (t, st') -> lifecycle_ok st -> refined st st'.
Proof.
  intros Hs Hserves. unfold reject_abandoned. cbv zeta.
  intros (? & st1 & [Hprep%require_Ok%bool_decide_eq_true <-]%lift_Ok & Hr)%rtx_bind_Ok Hok.
  apply rtx_bind_Ok in Hr as (r & st1 & [E%ok_or_Ok <-]%lift_Ok & Hr). rewrite E in Hserves. destruct Hserves as [Hkey Hallow].
  apply rtx_bind_Ok in Hr as ([code message] & st1 & [Hact <-]%lift_Ok & Hr).
  apply rtx_bind_Ok in Hr as (? & st1 & Hrej & Hr). apply rtx_bind_Ok in Hr as (? & st2 & [_ Hsave]%save_reconciled_Ok & Hr).
  apply rtx_bind_Ok in Hr as (e & st3 & He%append_error_event_settled & Hr).
  apply rtx_bind_Ok in Hr as (e' & st4 & He'%append_state_event_settled & Hr). apply rtx_ret_Ok in Hr as [_ <-].
  assert (Hk : session_key (abandoned_session code message now (rn_session current)) = session_key (rn_session current))
    by (unfold abandoned_session; by destruct (_ && _)).
  eapply refined_refuse; [exact Hok| | | | |exact Hrej|exact Hsave|by etrans].
  - by rewrite Hk.
  - by rewrite Hk, Hkey.
  - unfold abandoned_session. by destruct (_ && _).
  - simpl. rewrite Hprep. by destruct (d_lifecycle_intent_action (rn_session current)).
Qed.

Lemma abandoned_refined c now st t st' :
  reject_abandoned_lifecycle_before_effect c now st = Ok (t, st') -> lifecycle_ok st -> refined st st'.
Proof.
  unfold reject_abandoned_lifecycle_before_effect. intros (current & st1 & [(Hs & _ & Hv)%current_candidate_Ok <-]%reads_Ok & Hr)%rtx_bind_Ok.
  by eapply reject_abandoned_refined.
Qed.

Lemma recovered_stop_refined e current progression now st l st' :
  st_sessions st !! session_key (rn_session current) = Some (rn_session current) ->
  serves_request (rn_session current) (rn_reservation current) ->
  intent_answers e (in_action (intent_of (rn_session current))) (in_status (intent_of (rn_session current))) = true ->
  finalize_recovered_stop current progression now st = Ok (l, st') -> lifecycle_ok st -> refined_by e st st'.
Proof.
  intros Hs Hserves Hans. unfold finalize_recovered_stop. cbv zeta.
  intros (r & st1 & [E%ok_or_Ok <-]%lift_Ok & Hr)%rtx_bind_Ok Hok. rewrite E in Hserves. destruct Hserves as [Hkey Hallow].
  apply rtx_bind_Ok in Hr as (? & st1 & Hfin & Hr). apply rtx_bind_Ok in Hr as (restored & st2 & [_ <-]%reads_Ok & Hr).
  apply rtx_bind_Ok in Hr as (? & st2 & [_ Hsave]%save_reconciled_Ok & Hr).
  apply rtx_bind_Ok in Hr as (? & st3 & Hd%detach_present_settled & Hr).
  apply rtx_bind_Ok in Hr as (e1 & st4 & He%append_session_event_settled & Hr).
  apply rtx_bind_Ok in Hr as (e2 & st5 & He'%append_state_event_settled & Hr).
  apply rtx_bind_Ok in Hr as (o & st6 & Hst & Hr).
  assert (refined_by e st st6) as Href.
  { eapply refined_finish; [exact Hok| | | | |exact Hfin|exact Hsave| | |exact Hst].
    - exact Hs.
    - exact Hkey.
    - done.
    - exact Hans.
    - etrans; [exact Hd|by etrans].
    - done. }
  destruct progression.
  - apply rtx_bind_Ok in Hr as ([room settings] & st7 & [_ <-]%reads_Ok & Hr). apply rtx_bind_Ok in Hr as (commit & st7 & Has & Hr).
    apply rtx_ret_Ok in Hr as [_ <-]. destruct Href as [Hstep Hok6]. destruct (assign_pending_view _ _ _ _ _ _ Has Hok6) as [Ev Hok7].
    split; [by rewrite Ev|done].
  - by apply rtx_ret_Ok in Hr as [_ <-].
Qed.

Lemma recovered_start_refined current now st t st' :
  st_sessions st !! session_key (rn_session current) = Some (rn_session current) ->
  serves_request (rn_session current) (rn_reservation current) ->
  in_action (intent_of (rn_session current)) = ActionStart ->
  reject_recovered_start current now st = Ok (t, st') -> lifecycle_ok st -> refined_by Observed st st'.
Proof.
  intros Hs Hserves Ha. unfold reject_recovered_start. intros (r & st1 & [E%ok_or_Ok <-]%lift_Ok & Hr)%rtx_bind_Ok Hok.
  rewrite E in Hserves. destruct Hserves as [Hkey Hallow]. apply rtx_bind_Ok in Hr as (? & st1 & Hrej & Hr). cbv zeta in Hr.
  apply rtx_bind_Ok in Hr as (? & st2 & [_ Hsave]%save_reconciled_Ok & Hr).
  apply rtx_bind_Ok in Hr as (e & st3 & He%append_error_event_settled & Hr).
  apply rtx_bind_Ok in Hr as (e' & st4 & He'%append_state_event_settled & Hr). apply rtx_ret_Ok in Hr as [_ <-].
  eapply refined_refuse; [exact Hok| | | | |exact Hrej|exact Hsave|by etrans].
  - exact Hs.
  - exact Hkey.
  - done.
  - rewrite Ha. unfold intent_of in *. simpl in *. rewrite Ha in Hallow. by destruct (d_lifecycle_intent_status (rn_session current)).
Qed.

(** A session that goes on with what it served, or with its effect unconfirmed. *)
Lemma kept_refined e s s' st st1 st' :
  st_sessions st !! session_key s = Some s -> session_key s' = session_key s ->
  (intent_of s' = intent_of s \/
   in_action (intent_of s') = in_action (intent_of s) /\ in_operation (intent_of s') = in_operation (intent_of s) /\
   intent_next e (in_action (intent_of s)) (in_status (intent_of s)) (in_status (intent_of s')) = true) ->
  save_reconciled_session s' st = Ok (tt, st1) -> settled st1 st' -> lifecycle_ok st -> refined_by e st st'.
Proof.
  intros Hs Hk Hi [_ Hsave]%save_reconciled_Ok Hset [_ Hok]. destruct Hi as [E|(Ha & Ho & Hn)].
  - pose proof Hsave as [_ ->]%save_session_Ok. apply same_view.
    + rewrite (settled_view _ _ Hset). by apply (same_intent_view st s); [rewrite Hk|].
    + by apply (sl_ok _ _ Hset), store_ok_save.
  - eapply (refined_move e st st1 st' s); [exact Hok| |exact Ha|exact Ho|exact Hn|exact Hsave|exact Hset]. by rewrite Hk.
Qed.

Definition absence (observation : RuntimeReconciliationObservation) : Evidence := if is_gone observation then Observed else Commanded.

Lemma reconciliation_refined c observation progression now st l st' :
  apply_reconciliation c observation progression now st = Ok (l, st') -> lifecycle_ok st -> refined_by (absence observation) st st'.
Proof.
  unfold apply_reconciliation. intros (current & st1 & [(Hs & _ & Hv)%current_candidate_Ok <-]%reads_Ok & Hr)%rtx_bind_Ok Hok. cbv zeta in Hr.
  case_bool_decide as Hprep.
  { apply rtx_bind_Ok in Hr as (? & st1 & Hr & [_ <-]%rtx_ret_Ok).
    destruct (reject_abandoned_refined _ _ _ _ _ Hs Hv Hr Hok) as [Hstep Hok1]. split; [|done]. by apply commanded_observed. }
  destruct (recovered_stop_is_terminal _ _) eqn:Hstop.
  { apply andb_true_iff in Hstop as [Ha%bool_decide_eq_true Hst]. eapply recovered_stop_refined; [exact Hs|exact Hv| |exact Hr|exact Hok].
    simpl. rewrite Ha. unfold absence. revert Hprep Hst. by destruct observation, (d_lifecycle_intent_status (rn_session current)). }
  destruct (recovered_start_is_gone _ _) eqn:Hstart.
  { apply andb_true_iff in Hstart as [[Hgone Ha%bool_decide_eq_true]%andb_true_iff _]. unfold absence. rewrite Hgone.
    apply rtx_bind_Ok in Hr as (? & st1 & Hr & [_ <-]%rtx_ret_Ok). by eapply recovered_start_refined. }
  apply rtx_bind_Ok in Hr as ([s' detach] & st1 & [Hobs <-]%reads_Ok & Hr).
  apply rtx_bind_Ok in Hr as (removed & st1 & [_ <-]%reads_Ok & Hr). cbv zeta in Hr.
  apply rtx_bind_Ok in Hr as ([] & st1 & Hsave & Hr). apply rtx_bind_Ok in Hr as (? & st2 & Hd%detach_if_settled & Hr).
  apply rtx_ret_Ok in Hr as [_ <-].
  apply reconcile_observation_Ok in Hobs as [Hk Hi].
  2:{ destruct (rn_reservation current) as [r|]; simpl in Hv; [|by left]. right. destruct Hv as [_ Hallow].
      apply not_true_is_false. intros Hg. unfold recovered_stop_is_terminal, recovered_start_is_gone in *. rewrite Hg in *.
      destruct (d_lifecycle_intent_action (rn_session current)), (d_lifecycle_intent_status (rn_session current)); done. }
  eapply (kept_refined _ (rn_session current) (if removed then after_cleanup s' else s')); [exact Hs| | |exact Hsave|exact Hd|exact Hok].
  - by destruct removed.
  - assert (intent_of (if removed then after_cleanup s' else s') = intent_of s') as -> by (by destruct removed).
    destruct Hi as [E|(Ha & Ho & Hne & Hu & Hst)]; [by left|right]. split_and!; [done|done|]. rewrite Hu.
    destruct Hst as [Hst|Hst]; [by destruct Hprep|]. rewrite Hst. revert Hne. by destruct (in_action (intent_of (rn_session current))).
Qed.

(** A session in the store and nothing else of what sessions serve. *)
Definition only_session (k : str * str) (st st' : RoomStore) : Prop :=
  forall k', k' <> k -> vw_intents (view st') !! k' = vw_intents (view st) !! k'.
(** A transaction that changes what one session serves, and of no other. *)
Definition touches (k : str * str) (st st' : RoomStore) : Prop := store_ok st -> only_session k st st' /\ store_ok st'.
#[export] Instance touches_preorder k : PreOrder (touches k).
Proof.
  split; [by intros st|]. intros a b c Hab Hbc Ha. destruct (Hab Ha) as [Ka Hb]. destruct (Hbc Hb) as [Kb Hc].
  split; [|done]. intros k' Hne. by rewrite Kb, Ka.
Qed.
Lemma hidden_touches k st st' : hidden st st' -> touches k st st'.
Proof. intros Hh Hok. destruct (Hh Hok) as [E Hok']. split; [|done]. intros k' _. by rewrite E. Qed.
Lemma settled_touches k st st' : settled st st' -> touches k st st'.
Proof. intros Hs. by apply hidden_touches, settled_hidden. Qed.
Lemma still_touches k st st' : still st st' -> touches k st st'.
Proof. intros Hs. by apply hidden_touches, still_hidden. Qed.
Lemma save_touches k s st t st' : save_session s st = Ok (t, st') -> session_key s = k -> touches k st st'.
Proof.
  intros [_ ->]%save_session_Ok Hk Hok. split; [|by apply store_ok_save]. intros k' Hne. simpl.
  rewrite !lookup_fmap, lookup_insert_ne; [done|congruence].
Qed.
Lemma save_reconciled_touches k s st t st' : save_reconciled_session s st = Ok (t, st') -> session_key s = k -> touches k st st'.
Proof. intros [_ Hs]%save_reconciled_Ok. by eapply save_touches. Qed.
Lemma reject_touches k r code message st t st' : reject_lifecycle_command r code message st = Ok (t, st') -> touches k st st'.
Proof. intros (_ & row & _ & _ & ->)%reject_Ok [Hk Hp]. by split. Qed.
Lemma finish_touches k r st t st' : finish_lifecycle_command r st = Ok (t, st') -> touches k st st'.
Proof. intros (row & _ & _ & ->)%finish_Ok [Hk Hp]. by split. Qed.
Lemma store_result_touches k principal request_id action hash result events st o st' :
  store_result principal request_id action hash result events st = Ok (o, st') -> touches k st st'.
Proof. intros (_ & row & _ & _ & ->)%store_result_Ok [Hk Hp]. by split. Qed.
Lemma assign_touches k room settings now st commit st' : assign_pending_in room settings now st = Ok (commit, st') -> touches k st st'.
Proof. intros Ha. by eapply hidden_touches, assign_pending_hidden. Qed.

Lemma abandoned_key code message now s : session_key (abandoned_session code message now s) = session_key s.
Proof. unfold abandoned_session. by case_match. Qed.

Lemma gone_key s now st s' detach : reconcile_gone s now st = Ok (s', detach) -> session_key s' = session_key s.
Proof.
  unfold reconcile_gone. cbv zeta. destruct (_ && _); [by intros (s1 & [Hk _]%confirmed_stop_Ok & [= <- _])%bind_Ok|].
  destruct (_ && _); [by intros [= <- _]|]. destruct (contains _ _); [by intros (s1 & [Hk _]%absence_Ok & [= <- _])%bind_Ok|].
  unfold invalidate_previous_runtime_owner. by case_match; intros [= <- _].
Qed.
Lemma observation_key s observation now st s' detach :
  reconcile_observation s observation now st = Ok (s', detach) -> session_key s' = session_key s.
Proof.
  intros Hr. destruct (is_gone observation) eqn:Hg; [|by apply reconcile_observation_Ok in Hr as [? _]; [|right]].
  destruct observation; try done. unfold reconcile_observation in Hr. case_match; [|by eapply gone_key].
  by apply bind_Ok in Hr as (s1 & [Hk _]%confirmed_stop_Ok & [= <- _]).
Qed.

Lemma reconciliation_touches c observation progression now st l st' :
  apply_reconciliation c observation progression now st = Ok (l, st') -> touches (session_key (rn_session c)) st st'.
Proof.
  unfold apply_reconciliation. intros (current & st1 & [(_ & <- & Hv)%current_candidate_Ok <-]%reads_Ok & Hr)%rtx_bind_Ok. cbv zeta in Hr.
  case_bool_decide.
  { apply rtx_bind_Ok in Hr as (? & st1 & Hr & [_ <-]%rtx_ret_Ok). unfold reject_abandoned in Hr. cbv zeta in Hr.
    apply rtx_bind_Ok in Hr as (? & sta & [_ <-]%lift_Ok & Hr). apply rtx_bind_Ok in Hr as (r & sta & [_ <-]%lift_Ok & Hr).
    apply rtx_bind_Ok in Hr as ([code message] & sta & [_ <-]%lift_Ok & Hr).
    apply rtx_bind_Ok in Hr as (? & sta & Hrej%(reject_touches (session_key (rn_session current))) & Hr).
    apply rtx_bind_Ok in Hr as (? & stb & Hsave & Hr). apply rtx_bind_Ok in Hr as (e & stc & He%append_error_event_settled & Hr).
    apply rtx_bind_Ok in Hr as (e' & std & He'%append_state_event_settled & Hr). apply rtx_ret_Ok in Hr as [_ <-].
    etrans; [exact Hrej|]. etrans; [eapply save_reconciled_touches; [exact Hsave|apply abandoned_key]|]. apply settled_touches. by etrans. }
  destruct (recovered_stop_is_terminal _ _).
  { unfold finalize_recovered_stop in Hr. cbv zeta in Hr. apply rtx_bind_Ok in Hr as (r & sta & [_ <-]%lift_Ok & Hr).
    apply rtx_bind_Ok in Hr as (? & sta & Hfin%(finish_touches (session_key (rn_session current))) & Hr).
    apply rtx_bind_Ok in Hr as (restored & stb & [_ <-]%reads_Ok & Hr). apply rtx_bind_Ok in Hr as (? & stb & Hsave & Hr).
    apply rtx_bind_Ok in Hr as (? & stc & Hd%detach_present_settled & Hr).
    apply rtx_bind_Ok in Hr as (e1 & std & He%append_session_event_settled & Hr).
    apply rtx_bind_Ok in Hr as (e2 & ste & He'%append_state_event_settled & Hr).
    apply rtx_bind_Ok in Hr as (o & stf & Hst%(store_result_touches (session_key (rn_session current))) & Hr).
    etrans; [exact Hfin|]. etrans; [by eapply save_reconciled_touches|]. etrans; [apply settled_touches; etrans; [exact Hd|by etrans]|].
    etrans; [exact Hst|]. destruct progression; [|by apply rtx_ret_Ok in Hr as [_ <-]].
    apply rtx_bind_Ok in Hr as ([room settings] & stg & [_ <-]%reads_Ok & Hr). apply rtx_bind_Ok in Hr as (commit & stg & Has & Hr).
    apply rtx_ret_Ok in Hr as [_ <-]. by eapply assign_touches. }
  destruct (recovered_start_is_gone _ _).
  { apply rtx_bind_Ok in Hr as (? & st1 & Hr & [_ <-]%rtx_ret_Ok). unfold reject_recovered_start in Hr. cbv zeta in Hr.
    apply rtx_bind_Ok in Hr as (r & sta & [_ <-]%lift_Ok & Hr).
    apply rtx_bind_Ok in Hr as (? & sta & Hrej%(reject_touches (session_key (rn_session current))) & Hr).
    apply rtx_bind_Ok in Hr as (? & stb & Hsave & Hr). apply rtx_bind_Ok in Hr as (e & stc & He%append_error_event_settled & Hr).
    apply rtx_bind_Ok in Hr as (e' & std & He'%append_state_event_settled & Hr). apply rtx_ret_Ok in Hr as [_ <-].
    etrans; [exact Hrej|]. etrans; [by eapply save_reconciled_touches|]. apply settled_touches. by etrans. }
  apply rtx_bind_Ok in Hr as ([s' detach] & sta & [Hobs <-]%reads_Ok & Hr).
  apply rtx_bind_Ok in Hr as (removed & sta & [_ <-]%reads_Ok & Hr). cbv zeta in Hr.
  apply rtx_bind_Ok in Hr as ([] & sta & Hsave & Hr). apply rtx_bind_Ok in Hr as (? & stb & Hd%detach_if_settled & Hr).
  apply rtx_ret_Ok in Hr as [_ <-].
  etrans; [|by apply settled_touches]. eapply save_reconciled_touches; [exact Hsave|].
  assert (session_key s' = session_key (rn_session current)) as <- by (by eapply observation_key). by destruct removed.
Qed.

Lemma live_touches generation c observation now st outcome st' :
  apply_live_reconciliation generation c observation now st = Ok (outcome, st') -> touches (session_key (rn_session c)) st st'.
Proof.
  unfold apply_live_reconciliation. intros (current & st1 & [(_ & <- & Hv)%current_candidate_Ok <-]%reads_Ok & Hr)%rtx_bind_Ok.
  apply rtx_bind_Ok in Hr as (r & sta & [_ <-]%lift_Ok & Hr). apply rtx_bind_Ok in Hr as (? & sta & [_ <-]%lift_Ok & Hr). cbv zeta in Hr.
  apply rtx_bind_Ok in Hr as (? & sta & [_ <-]%lift_Ok & Hr). destruct observation.
  - apply rtx_bind_Ok in Hr as (? & sta & [_ <-]%lift_Ok & Hr). case_bool_decide; [|by apply rtx_ret_Ok in Hr as [_ <-]].
    apply rtx_bind_Ok in Hr as (? & sta & Hsave & Hr). apply rtx_ret_Ok in Hr as [_ <-]. by eapply save_reconciled_touches.
  - apply rtx_bind_Ok in Hr as ([s' detach] & sta & [Hg%gone_key <-]%reads_Ok & Hr). apply rtx_bind_Ok in Hr as (? & sta & Hsave & Hr).
    apply rtx_bind_Ok in Hr as (? & stb & Hd%detach_if_settled & Hr). apply rtx_ret_Ok in Hr as [_ <-].
    etrans; [|by apply settled_touches]. by eapply save_reconciled_touches.
  - apply rtx_bind_Ok in Hr as (? & sta & [_ <-]%lift_Ok & Hr). by apply rtx_ret_Ok in Hr as [_ <-].
  - apply rtx_bind_Ok in Hr as (? & sta & [_ <-]%lift_Ok & Hr). by apply rtx_ret_Ok in Hr as [_ <-].
Qed.

(** The reservation of a stop names the session it is for. *)
Lemma validate_stop_payload s rows r :
  validate_candidate_authority s rows = Ok (Some r) -> d_lifecycle_intent_action s = ActionStop ->
  pr_room_id (rc_principal r) = s_room_id (d_public s) /\ payload_agent_id (rc_payload r) = Ok (s_session_id (d_public s)).
Proof.
  unfold validate_candidate_authority. cbv zeta. intros (? & _ & Hr)%bind_Ok Ha. apply bind_Ok in Hr as (? & _ & Hr).
  destruct (all id _); [by apply bind_Ok in Hr as (? & _ & [= ?])|]. apply bind_Ok in Hr as (? & _ & Hr).
  destruct (filter _ rows) as [|m others] eqn:E; [done|].
  assert (m ∈ filter (fun r => matches_session s r = true) rows) as [Hm _]%list_elem_of_filter by (rewrite E; left).
  unfold matches_session in Hm. rewrite Ha in Hm. simpl in Hm. bool_to_prop. unfold str_eqb in *. bool_to_prop.
  apply bind_Ok in Hr as (? & _ & Hr). apply fmap_Ok in Hr as (r' & Hd & E'). injection E' as ->.
  unfold decode_reservation, payload_session_id in Hd. res_inv. bool_to_prop.
  repeat match goal with Hx : lr_action (pd_row m) = STOP |- _ => rewrite Hx in * end.
  change (str_eqb STOP CREATE) with false in *. change (str_eqb STOP READD) with false in *. cbv iota in *.
  unfold str_eqb in *. bool_to_prop. simpl. split; [done|].
  match goal with Hx : map_err _ _ = Ok _ |- _ => destruct (payload_agent_id (lr_payload (pd_row m))); [|done]; injection Hx as Hx end. congruence.
Qed.

(** A live observation that asks for the start of its session again. *)
Record retried_start (c : RuntimeReconciliationCandidate) (observation : RuntimeReconciliationObservation) (st st' : RoomStore) : Prop :=
  MkRetriedStart {
    rs_session : st_sessions st !! session_key (rn_session c) = Some (rn_session c);
    rs_only : only_session (session_key (rn_session c)) st st';
    rs_reservations : st_reservations st' = st_reservations st;
    rs_commands : st_commands st' = st_commands st;
    rs_before : d_lifecycle_intent_action (rn_session c) = ActionStart /\
      (d_lifecycle_intent_status (rn_session c) = IntentEffectInflight \/ d_lifecycle_intent_status (rn_session c) = IntentUnconfirmed);
    rs_after : vw_intents (view st') !! session_key (rn_session c) =
      Some (MkIntent ActionStart (d_lifecycle_intent_id (rn_session c)) IntentPrepared);
    rs_observed : observation = Gone \/ exists h p o k, observation = Adopted h p o k
  }.

Lemma saved_retried c observation s' st st1 st' :
  save_reconciled_session s' st = Ok (tt, st1) -> settled st1 st' ->
  st_sessions st !! session_key (rn_session c) = Some (rn_session c) -> session_key s' = session_key (rn_session c) ->
  intent_of s' = MkIntent ActionStart (d_lifecycle_intent_id (rn_session c)) IntentPrepared ->
  d_lifecycle_intent_action (rn_session c) = ActionStart ->
  (d_lifecycle_intent_status (rn_session c) = IntentEffectInflight \/ d_lifecycle_intent_status (rn_session c) = IntentUnconfirmed) ->
  (observation = Gone \/ exists h p o k, observation = Adopted h p o k) -> retried_start c observation st st'.
Proof.
  intros [_ [_ ->]%save_session_Ok]%save_reconciled_Ok Hset Hs Hk Hi Ha Hst Hobs.
  split; [done| |by rewrite (sl_reservations _ _ Hset)|by rewrite (sl_commands _ _ Hset)|done| |done].
  - intros k' Hne. rewrite (settled_view _ _ Hset). simpl. rewrite !lookup_fmap, lookup_insert_ne; [done|congruence].
  - rewrite (settled_view _ _ Hset). simpl. by rewrite lookup_fmap, Hk, lookup_insert_eq, <- Hi.
Qed.

Lemma live_refined generation c observation now st outcome st' :
  apply_live_reconciliation generation c observation now st = Ok (outcome, st') -> lifecycle_ok st ->
  refined_by (absence observation) st st' \/
  refined_by Retried st st' /\ outcome = RetryOriginalEffect /\ retried_start c observation st st'.
Proof.
  unfold apply_live_reconciliation. intros (current & st1 & [(Hs & Hcur & Hv)%current_candidate_Ok <-]%reads_Ok & Hr)%rtx_bind_Ok Hok.
  apply rtx_bind_Ok in Hr as (r & st1 & [E%ok_or_Ok <-]%lift_Ok & Hr). rewrite E in Hv. destruct Hv as [Hkey Hallow].
  apply rtx_bind_Ok in Hr as (? & st1 & [_ <-]%lift_Ok & Hr). cbv zeta in Hr.
  apply rtx_bind_Ok in Hr as (? & st1 & [[Hst%unresolved_cases _]%require_Ok%andb_true_iff <-]%lift_Ok & Hr).
  rewrite Hcur in *. clear Hcur E. set (s := rn_session c) in *. destruct observation as [h p n k| |h o rc|rc].
  - apply rtx_bind_Ok in Hr as (? & st1 & [_ <-]%lift_Ok & Hr).
    case_bool_decide as Ha; [|apply rtx_ret_Ok in Hr as [_ <-]; left; by apply same_view; [|apply Hok]].
    apply rtx_bind_Ok in Hr as ([] & st1 & Hsave & Hr). apply rtx_ret_Ok in Hr as [<- <-]. right.
    split_and!; [|done|eapply (saved_retried c); [exact Hsave|done|exact Hs|done|by rewrite <- Ha|exact Ha|exact Hst|right; by eexists _, _, _, _]].
    eapply (kept_refined _ s (adopted_start_session h n now s)); [exact Hs|done| |exact Hsave|done|exact Hok]. right. split_and!; [done|done|].
    simpl. rewrite Ha. by destruct Hst as [-> | ->].
  - apply rtx_bind_Ok in Hr as ([s' detach] & st1 & [Hg <-]%reads_Ok & Hr). apply rtx_bind_Ok in Hr as ([] & st1 & Hsave & Hr).
    apply rtx_bind_Ok in Hr as (? & st2 & Hd%detach_if_settled & Hr). apply rtx_ret_Ok in Hr as [<- <-].
    unfold reconcile_gone in Hg. cbv zeta in Hg.
    assert (contains [IntentPrepared; IntentEffectInflight; IntentUnconfirmed] (d_lifecycle_intent_status s) = true) as Hun.
    { by destruct Hst as [-> | ->]. }
    rewrite Hun, !andb_true_r in Hg. case_bool_decide as Hstop.
    + left. apply bind_Ok in Hg as (s1 & [Hk Hi]%confirmed_stop_Ok & [= <- <-]).
      eapply (kept_refined _ s); [exact Hs|exact Hk| |exact Hsave|exact Hd|exact Hok]. right. rewrite Hi. split_and!; [done|done|].
      simpl. rewrite Hstop. by destruct Hst as [-> | ->].
    + right. case_bool_decide as Hstart; [|by destruct (d_lifecycle_intent_action s)]. injection Hg as <- <-.
      split_and!; [|done|eapply (saved_retried c); [exact Hsave|exact Hd|exact Hs|done|by rewrite <- Hstart|exact Hstart|exact Hst|by left]].
      eapply (kept_refined _ s _ _ _ _ Hs); [| |exact Hsave|exact Hd|exact Hok]; [done|]. right. split_and!; [done|done|].
      simpl. rewrite Hstart. by destruct Hst as [-> | ->].
  - apply rtx_bind_Ok in Hr as (? & st1 & [_ <-]%lift_Ok & Hr). apply rtx_ret_Ok in Hr as [_ <-]. left. by apply same_view; [|apply Hok].
  - apply rtx_bind_Ok in Hr as (? & st1 & [_ <-]%lift_Ok & Hr). apply rtx_ret_Ok in Hr as [_ <-]. left. by apply same_view; [|apply Hok].
Qed.

Lemma idle_failure_refined c now st t st' :
  record_idle_runtime_failure c now st = Ok (t, st') -> lifecycle_ok st -> refined st st'.
Proof.
  unfold record_idle_runtime_failure. intros (current & st1 & [(Hs & _ & Hv)%current_candidate_Ok <-]%reads_Ok & Hr)%rtx_bind_Ok Hok.
  cbv zeta in Hr. apply rtx_bind_Ok in Hr as (blocked & st1 & [_ <-]%reads_Ok & Hr).
  destruct (_ || blocked) eqn:Hskip; [apply rtx_ret_Ok in Hr as [_ <-]; by apply same_view; [|apply Hok]|].
  apply orb_false_iff in Hskip as [[Hnone%negb_false_iff%bool_decide_eq_true _]%orb_false_iff _].
  apply rtx_bind_Ok in Hr as (s1 & st1 & [(Hk & Ha & Ho & Hst)%retain_Ok <-]%reads_Ok & Hr).
  apply rtx_bind_Ok in Hr as ([] & st1 & Hsave & Hr). apply rtx_bind_Ok in Hr as (? & st2 & Hd%detach_present_settled & Hr).
  apply rtx_bind_Ok in Hr as (e1 & st3 & He1 & Hr). apply rtx_bind_Ok in Hr as (e2 & st4 & He2 & Hr).
  apply rtx_bind_Ok in Hr as (e3 & st5 & He3 & Hr). apply rtx_ret_Ok in Hr as [_ <-].
  eapply (kept_refined _ (rn_session current)); [exact Hs| | |exact Hsave| |exact Hok].
  - exact Hk.
  - left. change (in_status (intent_of (rn_session current))) with (d_lifecycle_intent_status (rn_session current)) in Hst.
    destruct Hst as [E|(_ & _ & Hst)]; [|rewrite Hnone in Hst; by destruct Hst].
    unfold intent_of in *. simpl in *. congruence.
  - etrans; [exact Hd|]. etrans; [apply appends_settled; [by eapply error_event_appends|by eapply error_event_calm]|].
    etrans; [apply appends_settled; [by apply internal_event_Ok in He2 as (_ & _ & _ & _ & ?)|by eapply internal_event_calm]|].
    apply appends_settled; [by eapply session_state_event_appends|by eapply session_state_event_calm].
Qed.
End refinement.
