(* ===== verification/TurnRecovery.v ===== *)
(** * Recovering provider turns (agentsassemble-persistence/src/provider_turn_reconciliation.rs)

    A turn whose runtime is not known any more is found again by pages, its
    assignment is given out again when it was never dispatched, and it is ended
    when it provably never started or its runtime is gone. *)

From Stdlib Require Import String.
From stdpp Require Import gmap sorting.
From S2P Require Import Prelude Text Diagnostic Json Bytes Model Command Vote Projection Settings Store Budget Turn Routing RoomStore.
From S2P Require Import Authority Requests Execution Observation VoteStore Scheduler Completion Calm Messages.
From S2P Require Import Reservations Launch Stop Pause Lifecycle Create Reconcile.

#[global] Instance ProviderTurnAssignmentEnvelope_eq_dec : EqDecision ProviderTurnAssignmentEnvelope.
Proof. solve_decision. Defined.
#[global] Instance ProviderTurnExecution_eq_dec : EqDecision ProviderTurnExecution.
Proof. solve_decision. Defined.

Definition SCAN_LIMIT : nat := 64.
Definition MAX_ROOM_OBSERVATION_AGENT_ID_BYTES : nat := 128.
Definition is_room_observation_agent_id (value : str) : bool := canonical_bounded_id value MAX_ROOM_OBSERVATION_AGENT_ID_BYTES.

(** With the key of the execution, which is part of its row. *)
Record ProviderTurnReconciliationCandidate : Type := MkTurnCandidate {
  tc_session : DurableAgentSession;
  tc_key : execution_key;
  tc_execution : ProviderTurnExecution;
  tc_effect : option ProviderTurnInterruptEffect
}.
Record ProviderTurnReconciliationPage : Type := MkTurnPage {
  tp_candidates : list ProviderTurnReconciliationCandidate;
  tp_next_cursor : option execution_key
}.

(** What a candidate compares of the execution: all but the assignment. *)
Definition same_execution (x y : ProviderTurnExecution) : bool := bool_decide (x <| pe_assignment := pe_assignment y |> = y).

Definition validate_candidate (session : DurableAgentSession) (key : execution_key) (execution : ProviderTurnExecution) : tx unit :=
  let public := d_public session in
  active ← (if phase_is_blocking (pe_phase execution) then authority_or invalid_reconciliation (active_turn_authority session)
            else Ok false);
  require (active && str_eqb (s_room_id public) key.1.1 && str_eqb (s_session_id public) key.1.2
           && str_eqb (s_participant_id public) (pe_participant_id execution)
           && str_eqb (s_active_turn_id public) (pe_turn_id execution) && (d_turn_generation session =? key.2)%N
           && session_custody_is session (pe_runtime_handle_id execution) (pe_runtime_owner_id execution)
                (pe_runtime_lease_token execution)) invalid_reconciliation.

Definition blocking_rows (p : execution_key -> bool) (st : RoomStore) : list (execution_key * ProviderTurnExecution) :=
  matching (fun (k : execution_key) x => p k && phase_is_blocking (pe_phase x)) (st_executions st).

Section recovery.
Context `{UnicodeGeneralCategory, CharCase, UnicodeCase, Caseless, Sha256, Chrono, Entropy, PersonaLibrary, UuidCrate, ChronoRange,
  AttendeeParent, RequestSerde, RegexCrate, ByteDigest, JsonText, SessionSerde}.

Definition load_turn_candidate (key : execution_key) (st : RoomStore) : tx ProviderTurnReconciliationCandidate :=
  execution ← load_execution_in key st;
  session ← load_session key.1.1 key.1.2 st;
  validate_candidate session key execution ;;
  effect ← load_optional_effect_in key st;
  mret (MkTurnCandidate session key execution effect).

Definition load_active_candidate_in (room_id session_id : str) (st : RoomStore) : tx (option ProviderTurnReconciliationCandidate) :=
  match blocking_rows (fun k => str_eqb k.1.1 room_id && str_eqb k.1.2 session_id) st with
  | [] => Ok None
  | [(key, _)] => Some <$> load_turn_candidate key st
  | _ => Err invalid_reconciliation
  end.

(** The keys of a scan, in the order of their columns. *)
Definition key_leb (a b : execution_key) : bool :=
  if bool_decide (a.1 = b.1) then (a.2 <=? b.2)%N else pair_leb a.1 b.1.
Definition key_le (a b : execution_key) : Prop := key_leb a b = true.
#[global] Instance key_le_dec : RelDecision key_le.
Proof. intros a b. unfold key_le. apply _. Defined.
Definition after (cursor : option execution_key) (k : execution_key) : bool :=
  match cursor with Some c => key_leb c k && negb (bool_decide (c = k)) | None => true end.

Definition scanned_keys (cursor : option execution_key) (st : RoomStore) : list execution_key :=
  take SCAN_LIMIT (merge_sort key_le (map fst
    (blocking_rows (fun k => negb (cleanup_exists k.1.1 k.1.2 st) && after cursor k) st))).

(** A session of an attendee is left out of the page. *)
Definition page_candidate (key : execution_key) (st : RoomStore) : tx (option ProviderTurnReconciliationCandidate) :=
  execution ← load_execution_in key st;
  session ← load_session key.1.1 key.1.2 st;
  if is_external (d_public session) then Ok None
  else
    require_server_custody session ;;
    validate_candidate session key execution ;;
    effect ← load_optional_effect_in key st;
    mret (Some (MkTurnCandidate session key execution effect)).

Definition load_provider_turn_reconciliation_page (cursor : option execution_key) (st : RoomStore) :
    tx ProviderTurnReconciliationPage :=
  match cursor with Some k => generation_i64 k.2 invalid_reconciliation | None => Ok tt end ;;
  let keys := scanned_keys cursor st in
  candidates ← traverse (fun k => page_candidate k st) keys;
  mret (MkTurnPage (omap id candidates) (if bool_decide (length keys = SCAN_LIMIT) then last keys else None)).

(** ** Giving out an assignment again *)

Fixpoint inflight_events (room_id : str) (inputs : list QueuedRoomInput) (st : RoomStore) : tx (list RoomEvent) :=
  match inputs with
  | [] => Ok []
  | input :: inputs =>
      event ← load_event room_id (qi_event_id input) st;
      event ← ok_or event invalid_reconciliation;
      events ← inflight_events room_id inputs st;
      mret (event :: events)
  end.

Definition envelope_is_valid (session : DurableAgentSession) (attachment_ids : list str) (a : ProviderTurnAssignmentEnvelope) : bool :=
  (0 <? d_input_up_to_seq session) && negb (str_empty (d_active_source_event_id session))
  && str_eqb (d_input_up_to_event_id session) (d_active_source_event_id session)
  && negb (list_empty (d_inflight_inputs session))
  && all (fun input => bool_decide (qi_delivery_kind input = ae_delivery_kind a)) (d_inflight_inputs session)
  && is_provider_input (ae_provider_input a) && is_room_observation_view (ae_room_view a)
  && bool_decide (ae_attachment_ids a = attachment_ids)
  && bool_decide (length (ae_room_agent_ids a) <= MAX_ROOM_OBSERVATION_AGENT_IDS)%nat
  && bool_decide (length (remove_dups (ae_room_agent_ids a)) = length (ae_room_agent_ids a))
  && all is_room_observation_agent_id (ae_room_agent_ids a).

Definition validate_assignment_envelope (session : DurableAgentSession) (assignment : ProviderTurnAssignmentEnvelope)
    (st : RoomStore) : tx unit :=
  events ← inflight_events (s_room_id (d_public session)) (d_inflight_inputs session) st;
  attachment_ids ← map_err (fun _ => invalid_reconciliation) (message_attachment_ids_from_events events);
  require (envelope_is_valid session attachment_ids assignment) invalid_reconciliation.

Definition load_assignment_in (session : DurableAgentSession) (key : execution_key) (execution : ProviderTurnExecution)
    (st : RoomStore) : tx ProviderTurnAssignmentEnvelope :=
  generation_i64 key.2 invalid_reconciliation ;;
  row ← ok_or (st_executions st !! key) stale_reconciliation;
  require (str_eqb (pe_execution_id row) (pe_execution_id execution) && phase_in [pe_phase execution] row) stale_reconciliation ;;
  validate_assignment_envelope session (pe_assignment row) st ;;
  mret (pe_assignment row).

(** The session and the execution of a candidate, if they are still what it holds. *)
Definition current_turn (candidate : ProviderTurnReconciliationCandidate) (same_session : bool) (st : RoomStore) :
    tx DurableAgentSession :=
  let key := tc_key candidate in
  session ← load_session key.1.1 key.1.2 st;
  execution ← load_execution_in key st;
  validate_candidate session key execution ;;
  require ((negb same_session || bool_decide (session = tc_session candidate)) && same_execution execution (tc_execution candidate))
    stale_reconciliation ;;
  effect ← load_optional_effect_in key st;
  require (bool_decide (effect = None)) stale_reconciliation ;;
  mret session.

Definition recover_assigned_provider_turn (candidate : ProviderTurnReconciliationCandidate) (st : RoomStore) :
    tx AgentTurnAssignment :=
  let key := tc_key candidate in
  let expected := tc_execution candidate in
  require (phase_in [ExecAssigned] expected && bool_decide (tc_effect candidate = None)
           && str_empty (pe_start_dispatch_nonce expected) && str_empty (pe_provider_turn_id expected)
           && negb (pe_requeue_finalized expected)) stale_reconciliation ;;
  session ← current_turn candidate true st;
  participant ← load_participant key.1.1 (pe_participant_id expected) st;
  require (bool_decide (pt_status participant = Joined) && negb (pt_muted participant)) stale_reconciliation ;;
  assignment ← load_assignment_in session key expected st;
  mret (MkAgentTurnAssignment session (pe_turn_id expected) key.2 (pe_execution_id expected) assignment).

(** ** Ending a turn *)

Definition finalize_provider_turn_not_started (candidate : ProviderTurnReconciliationCandidate) (now : instant) :
    rtx AgentTurnCommit :=
  let key := tc_key candidate in
  let expected := tc_execution candidate in
  lift (require (bool_decide (tc_effect candidate = None) && phase_in [ExecAssigned; ExecStartDispatching] expected)
    stale_reconciliation) ;;
  session ← reads (current_turn candidate false);
  finalize_proven_no_effect_task_death session key expected now.

(** A stop of the same session is confirmed by the absence of its runtime. *)
Definition stop_effect_is_confirmed_by_runtime_gone (session : DurableAgentSession) (st : RoomStore) : tx bool :=
  if negb (bool_decide (d_lifecycle_intent_action session = ActionStop)
           && contains [IntentEffectInflight; IntentUnconfirmed; IntentEffectApplied] (d_lifecycle_intent_status session))
  then Ok false
  else
    lifecycle ← load_candidate (s_room_id (d_public session)) (s_session_id (d_public session)) st;
    lifecycle ← ok_or lifecycle invalid_reconciliation;
    reservation ← ok_or (rn_reservation lifecycle) invalid_reconciliation;
    require (bool_decide (rn_session lifecycle = session) && str_eqb (rc_action reservation) STOP
             && str_eqb (rc_operation_id reservation) (d_lifecycle_intent_id session)) invalid_reconciliation ;;
    mret true.

Definition gone_session (interrupted_by_agent : bool) (restored : list QueuedRoomInput) (now : instant) (session : DurableAgentSession) :
    DurableAgentSession :=
  let session := clear_custody (released restored session) in
  let public := (d_public session) <| s_status := SessionDetached |> <| s_runtime_status := RuntimeStopped |> <| s_enabled := false |>
    <| s_provider_session_reused := false |> <| s_recovery_required := false |> <| s_updated_at := now |> in
  let public := if interrupted_by_agent
                then public <| s_last_error := u INTERRUPTED_MESSAGE |> <| s_last_error_code := u INTERRUPTED_CODE |> else public in
  session <| d_public := public |> <| d_provider_session_id := [] |> <| d_schedule_requested := false |>.

(** [finalize_runtime_gone_session] *)
Definition end_gone_turn (session : DurableAgentSession) (key : execution_key) (turn_id : str)
    (cause : option ProviderTurnInterruptCause) (progression : FloorProgression) (now : instant) : rtx AgentTurnCommit :=
  let by_agent := bool_decide (cause = Some AgentInterrupt) in
  errors ← match cause with
           | None => event ← error_event session turn_id (u "provider_runtime_gone")
                               (u "The provider runtime exited before its exact turn could be recovered.") now; mret [event]
           | Some AgentInterrupt =>
               event ← error_event session turn_id (u INTERRUPTED_CODE) (u INTERRUPTED_MESSAGE) now; mret [event]
           | Some ParticipantMuted => mret []
           end;
  finished ← turn_finished_event session turn_id (match cause with Some _ => "interrupted" | None => "error" end) None
               (Some (match cause with Some c => cause_name c | None => u "provider_runtime_gone" end)) now;
  restored ← reads (merged_turn_queue session);
  let session := gone_session by_agent restored now session in
  save_session session ;;
  participant ← reads (load_participant (s_room_id (d_public session)) (s_participant_id (d_public session)));
  save_participant (detach_runtime participant now) ;;
  state ← session_state_event session now;
  scheduled ← (if match progression with Assign => negb by_agent | Defer => false end then
                 '(room, settings) ← reads (load_active_room key.1.1);
                 assign_pending_in room settings now
               else mret (MkTurnCommit [] []));
  mret (MkTurnCommit (errors ++ [finished; state] ++ tcm_events scheduled) (tcm_next_assignments scheduled)).

(** The interrupt of the candidate, if it is still the one that is stored. *)
Definition same_effect (expected current : option ProviderTurnInterruptEffect) : tx unit :=
  match expected, current with
  | Some expected, Some current =>
      require_exact_effect expected current ;;
      reject_if (bool_decide (ie_phase current = EffFinalized)) stale_reconciliation
  | None, None => Ok tt
  | _, _ => Err stale_reconciliation
  end.

Definition finalize_runtime_gone_in (candidate : ProviderTurnReconciliationCandidate) (progression : FloorProgression)
    (now : instant) : rtx AgentTurnCommit :=
  let key := tc_key candidate in
  session ← reads (load_session key.1.1 key.1.2);
  execution ← reads (load_execution_in key);
  lift (require (same_execution execution (tc_execution candidate)) stale_reconciliation) ;;
  lift (validate_candidate session key execution) ;;
  effect ← reads (load_optional_effect_in key);
  lift (same_effect (tc_effect candidate) effect) ;;
  stopped ← reads (stop_effect_is_confirmed_by_runtime_gone session);
  if stopped : bool then
    terminalize_confirmed_stop_turn session now ;;
    save_session (touch now (session <| d_lifecycle_intent_status := IntentEffectApplied |>)) ;;
    mret (MkTurnCommit [] [])
  else
    terminalize_runtime_gone_authority key execution effect (match effect with Some _ => ExecInterrupted | None => ExecFailed end) ;;
    end_gone_turn session key (pe_turn_id execution) (ie_cause <$> tc_effect candidate) progression now.

Definition finalize_provider_turn_runtime_gone (candidate : ProviderTurnReconciliationCandidate) (now : instant) : rtx AgentTurnCommit :=
  finalize_runtime_gone_in candidate Assign now.
Definition finalize_provider_turn_runtime_gone_for_shutdown (candidate : ProviderTurnReconciliationCandidate) (now : instant) :
    rtx unit := finalize_runtime_gone_in candidate Defer now ;; mret tt.
End recovery.

(** ** Recovery follows the machine of Lifecycle.v *)

Section refinement.
Context `{UnicodeGeneralCategory, CharCase, UnicodeCase, Caseless, Sha256, Chrono, Entropy, PersonaLibrary, UuidCrate, ChronoRange,
  AttendeeParent, RequestSerde, RegexCrate, ByteDigest, JsonText, SessionSerde}.

Lemma error_event_still session turn_id code message now : keeps still (error_event session turn_id code message now).
Proof. intros st e st' Hr. pose proof (error_event_appends _ _ _ _ _ _ _ _ Hr) as Ha. split; [apply Ha|apply Ha|by eapply error_event_calm]. Qed.
Lemma session_state_still session now : keeps still (session_state_event session now).
Proof. intros st e st' Hr. pose proof (session_state_event_appends _ _ _ _ _ Hr) as Ha. split; [apply Ha|apply Ha|by eapply session_state_event_calm]. Qed.
#[local] Hint Resolve error_event_still session_state_still : keeps.

Lemma gone_session_Ok by_agent restored now s :
  session_key (gone_session by_agent restored now s) = session_key s /\ intent_of (gone_session by_agent restored now s) = intent_of s.
Proof. by destruct by_agent. Qed.

Lemma end_gone_hidden session key turn_id cause progression now st c st' :
  end_gone_turn session key turn_id cause progression now st = Ok (c, st') ->
  st_sessions st !! session_key session = Some session -> hidden st st'.
Proof.
  unfold end_gone_turn. cbv zeta. intros (errors & st1 & He & Hr)%rtx_bind_Ok Hs.
  assert (still st st1) as Hst1 by (refine ((fun K : keeps still _ => K _ _ _ He) _); keeps).
  apply rtx_bind_Ok in Hr as (fin & st2 & Hf%turn_finished_event_still & Hr).
  assert (Hst : still st st2) by (by etrans). clear Hst1 Hf.
  apply rtx_bind_Ok in Hr as (restored & st3 & [_ <-]%reads_Ok & Hr). apply rtx_bind_Ok in Hr as ([] & st3 & Hsave & Hr).
  destruct (gone_session_Ok (bool_decide (cause = Some AgentInterrupt)) restored now session) as [Hk Hi].
  apply rtx_bind_Ok in Hr as (p & st4 & [_ <-]%reads_Ok & Hr).
  apply rtx_bind_Ok in Hr as (? & st4 & Hp%save_participant_settled%settled_hidden & Hr).
  apply rtx_bind_Ok in Hr as (e & st5 & Hse%session_state_still%still_hidden & Hr).
  apply rtx_bind_Ok in Hr as (scheduled & st6 & Ha & Hr). apply rtx_ret_Ok in Hr as [_ <-].
  etrans; [by apply still_hidden|]. etrans; [eapply save_hidden; [|exact Hi|exact Hsave]; by rewrite Hk, (si_sessions _ _ Hst)|].
  etrans; [exact Hp|]. etrans; [exact Hse|]. destruct (match progression with Assign => _ | Defer => _ end).
  - apply rtx_bind_Ok in Ha as ([room settings] & st7 & [_ <-]%reads_Ok & Ha). by eapply assign_pending_hidden.
  - by apply rtx_ret_Ok in Ha as [_ <-].
Qed.

Lemma stop_confirmed_Ok session st :
  stop_effect_is_confirmed_by_runtime_gone session st = Ok true ->
  d_lifecycle_intent_action session = ActionStop /\
  (d_lifecycle_intent_status session = IntentEffectInflight \/ d_lifecycle_intent_status session = IntentUnconfirmed \/
   d_lifecycle_intent_status session = IntentEffectApplied).
Proof.
  unfold stop_effect_is_confirmed_by_runtime_gone. case_bool_decide as Ha; [|done]. simpl.
  destruct (contains _ _) eqn:Hc; [|done]. intros _. split; [done|]. by destruct (d_lifecycle_intent_status session); auto.
Qed.

(** What an execution's end leaves: the intent of the session, or its confirmed stop. *)
Lemma runtime_gone_refined c progression now st commit st' :
  finalize_runtime_gone_in c progression now st = Ok (commit, st') -> store_ok st ->
  refined_by Observed st st' /\ st_reservations st' = st_reservations st.
Proof.
  unfold finalize_runtime_gone_in. intros (s & st1 & [Hl%load_session_Ok <-]%reads_Ok & Hr)%rtx_bind_Ok Hok. destruct Hl as [Hs Hkey].
  cbv zeta in Hr. apply rtx_bind_Ok in Hr as (execution & st1 & [_ <-]%reads_Ok & Hr).
  apply rtx_bind_Ok in Hr as (? & st1 & [_ <-]%lift_Ok & Hr). apply rtx_bind_Ok in Hr as (? & st1 & [_ <-]%lift_Ok & Hr).
  apply rtx_bind_Ok in Hr as (effect & st1 & [_ <-]%reads_Ok & Hr). apply rtx_bind_Ok in Hr as (? & st1 & [_ <-]%lift_Ok & Hr).
  apply rtx_bind_Ok in Hr as (stopped & st1 & [Hstop <-]%reads_Ok & Hr). destruct stopped.
  - apply stop_confirmed_Ok in Hstop as [Ha Hst]. apply rtx_bind_Ok in Hr as (e & st1 & Hstill%terminalize_stop_still & Hr).
    apply rtx_bind_Ok in Hr as ([] & st2 & Hsave & Hr). apply rtx_ret_Ok in Hr as [_ <-].
    destruct (still_hidden _ _ Hstill Hok) as [E Hok1]. split.
    + unfold refined_by. rewrite <- E. assert (Hs1 : st_sessions st1 !! session_key s = Some s).
      { rewrite (si_sessions _ _ Hstill). by rewrite Hkey. }
      destruct (decide (d_lifecycle_intent_status s = IntentEffectApplied)) as [Hd|Hd].
      * assert (hidden st1 st2) as Hh by (eapply (save_hidden s (touch now (s <| d_lifecycle_intent_status := IntentEffectApplied |>))); [exact Hs1| |exact Hsave]; unfold intent_of; simpl; by rewrite Hd).
        destruct (Hh Hok1). by apply same_view.
      * eapply (refined_move Observed st1 st2 st2 s (touch now (s <| d_lifecycle_intent_status := IntentEffectApplied |>))); [exact Hok1|exact Hs1|done|done| |exact Hsave|done].
        simpl. rewrite Ha. by destruct Hst as [-> | [-> | ?]].
    + apply save_session_Ok in Hsave as [_ ->]. apply (ca_reservations _ _ (si_calm _ _ Hstill)).
  - apply rtx_bind_Ok in Hr as (? & st1 & Hterm & Hr).
    assert (Hstill : still st st1).
    { refine ((fun K : keeps still _ => K _ _ _ Hterm) _). unfold terminalize_runtime_gone_authority, finalize_pair. keeps. }
    assert (hidden st st') as Hh.
    { etrans; [by apply still_hidden|]. eapply end_gone_hidden; [exact Hr|]. rewrite (si_sessions _ _ Hstill). by rewrite Hkey. }
    destruct (Hh Hok) as [E Hok']. split; [by apply same_view|]. unfold view in E. by injection E.
Qed.

(** The candidate of a session is one of its executions. *)
Lemma active_candidate_key room_id session_id st c :
  load_active_candidate_in room_id session_id st = Ok (Some c) -> (tc_key c).1 = (room_id, session_id).
Proof.
  unfold load_active_candidate_in. destruct (blocking_rows _ _) as [|[key x] [|? ?]] eqn:E; [done| |done].
  intros Hr. apply fmap_Ok in Hr as (c' & Hc & Ec). injection Ec as ->. unfold load_turn_candidate in Hc.
  do 4 (apply bind_Ok in Hc as (? & _ & Hc)). injection Hc as <-. simpl.
  assert ((key, x) ∈ blocking_rows (fun k => str_eqb k.1.1 room_id && str_eqb k.1.2 session_id) st) as Hin by (rewrite E; left).
  unfold blocking_rows, matching in Hin. apply list_elem_of_filter in Hin as [Hp _]. simpl in Hp. bool_to_prop. unfold str_eqb in *.
  bool_to_prop. destruct key as [[]]. simpl in *. congruence.
Qed.
Lemma runtime_gone_touches c progression now st commit st' :
  finalize_runtime_gone_in c progression now st = Ok (commit, st') -> touches (tc_key c).1 st st'.
Proof.
  unfold finalize_runtime_gone_in. cbv zeta. intros (s & st1 & [[Hs Hkey]%load_session_Ok <-]%reads_Ok & Hr)%rtx_bind_Ok.
  assert (session_key s = (tc_key c).1) as Hk by (by rewrite Hkey; destruct (tc_key c) as [[]]).
  apply rtx_bind_Ok in Hr as (execution & st1 & [_ <-]%reads_Ok & Hr).
  apply rtx_bind_Ok in Hr as (? & st1 & [_ <-]%lift_Ok & Hr). apply rtx_bind_Ok in Hr as (? & st1 & [_ <-]%lift_Ok & Hr).
  apply rtx_bind_Ok in Hr as (effect & st1 & [_ <-]%reads_Ok & Hr). apply rtx_bind_Ok in Hr as (? & st1 & [_ <-]%lift_Ok & Hr).
  apply rtx_bind_Ok in Hr as (stopped & st1 & [_ <-]%reads_Ok & Hr). destruct stopped.
  - apply rtx_bind_Ok in Hr as (e & st1 & Hstill%terminalize_stop_still%(still_touches (tc_key c).1) & Hr).
    apply rtx_bind_Ok in Hr as ([] & st2 & Hsave & Hr). apply rtx_ret_Ok in Hr as [_ <-]. etrans; [exact Hstill|].
    by eapply save_touches.
  - apply rtx_bind_Ok in Hr as (? & st1 & Hterm & Hr).
    assert (Hstill : still st st1).
    { refine ((fun K : keeps still _ => K _ _ _ Hterm) _). unfold terminalize_runtime_gone_authority, finalize_pair. keeps. }
    apply hidden_touches. etrans; [by apply still_hidden|]. eapply end_gone_hidden; [exact Hr|].
    rewrite (si_sessions _ _ Hstill), Hkey. exact Hs.
Qed.
End refinement.

