(* ===== verification/Custody.v ===== *)
(** * The transactions that end or hand over a turn, as histories of its custody

    Execution.v says what one operation on the rows of executions and effects does. The
    transactions of Completion.v, TurnRecovery.v and the floor do several things in one:
    each is a sequence of those operations, and what it promises of the phase of its turn
    holds in every later store. *)

From Stdlib Require Import String.
From stdpp Require Import gmap.
From S2P Require Import Prelude Text Diagnostic Json Bytes Model Command Vote Projection Settings Store Budget Turn Routing RoomStore.
From S2P Require Import Authority Requests Execution Observation Attachments VoteStore Scheduler Completion Calm Messages.
From S2P Require Import Reservations Launch Stop Pause Lifecycle Create Reconcile TurnRecovery.

(** The rows of custody as they were. *)
Definition aside (st st' : RoomStore) : Prop := st_executions st' = st_executions st /\ st_effects st' = st_effects st.
#[global] Instance aside_preorder : PreOrder aside.
Proof. split; [by intros st|]. intros a b c [] []. split; congruence. Qed.

#[local] Abbreviation pair_phases := (option ProviderTurnExecutionPhase * option ProviderTurnEffectPhase)%type (only parsing).

(** A turn that has ended. *)
Definition is_ended (a : pair_phases) : bool := match a.1 with Some p => negb (phase_is_blocking p) | None => false end.
Definition turn_ended (key : execution_key) (st : RoomStore) : Prop := is_ended (phases st key) = true.

(** A turn that its provider is not driving any more, whose result is not waited for. *)
Definition is_settled (a : pair_phases) : bool :=
  match a.1 with Some p => negb (contains [ExecAssigned; ExecStartDispatching; ExecRunning] p) | None => false end.
Definition turn_settled (key : execution_key) (st : RoomStore) : Prop := is_settled (phases st key) = true.

(** A turn whose interrupt was given to its provider. *)
Definition is_dispatched (a : pair_phases) : bool :=
  match a.2 with Some e => negb (contains [EffPrepared; EffClaimed] e) | None => false end.
Definition interrupt_dispatched (key : execution_key) (st : RoomStore) : Prop := is_dispatched (phases st key) = true.

Section custody.
Context `{UnicodeGeneralCategory, CharCase, UnicodeCase, Caseless, Sha256, Chrono, Entropy, PersonaLibrary, UuidCrate, ChronoRange,
  AttendeeParent, RequestSerde, RegexCrate, ByteDigest, JsonText, SessionSerde}.

Definition custodial (st st' : RoomStore) : Prop := rtc custody_step st st'.
#[local] Instance custodial_preorder : PreOrder custodial.
Proof. split; [by intros st; constructor|]. intros a b c. unfold custodial. by etrans. Qed.

Lemma custodial_once st st' : custody_step st st' -> custodial st st'.
Proof. apply rtc_once. Qed.
Lemma aside_custodial st st' : aside st st' -> custodial st st'.
Proof. intros []. by apply custodial_once, CsOther. Qed.
Lemma keeps_aside_custodial {A} (m : rtx A) : keeps aside m -> keeps custodial m.
Proof. intros Hm st a st' Hr. by eapply aside_custodial, Hm. Qed.

(** What the automaton keeps of a turn. *)
Ltac automaton_cases :=
  intros before after_ Hpair Hholds Hn; destruct before as [[[]|] [[]|]]; try done; clear Hpair Hholds;
  destruct after_ as [[p|] [e|]]; try done;
  revert Hn; simpl; try destruct p; try destruct e; done.
Lemma ended_stable key st st' : custody_ok st -> custodial st st' -> turn_ended key st -> turn_ended key st'.
Proof. apply custody_stable. automaton_cases. Qed.
Lemma settled_stable key st st' : custody_ok st -> custodial st st' -> turn_settled key st -> turn_settled key st'.
Proof. apply custody_stable. automaton_cases. Qed.
Lemma dispatched_stable key st st' : custody_ok st -> custodial st st' -> interrupt_dispatched key st -> interrupt_dispatched key st'.
Proof. apply custody_stable. automaton_cases. Qed.
Lemma ended_settled key st : turn_ended key st -> turn_settled key st.
Proof. unfold turn_ended, turn_settled, is_ended, is_settled. by destruct (phases st key).1 as [[]|]. Qed.

(** ** Operations on other rows *)

Lemma save_session_aside s : keeps aside (save_session s).
Proof. intros st t st' [_ ->]%save_session_Ok. by split. Qed.
Lemma draw_uuid_aside : keeps aside draw_uuid.
Proof. intros st t st' [_ ->]%draw_uuid_Ok. by split. Qed.
Lemma draw_seed_aside : keeps aside draw_seed.
Proof. intros st t st' [= _ <-]. by split. Qed.
Lemma insert_event_aside e : keeps aside (insert_event e).
Proof. intros st t st' [_ ->]%insert_event_Ok. by split. Qed.
Lemma update_request_aside room_id request_id f : keeps aside (update_request room_id request_id f).
Proof. intros st t st' ->%modifies_Ok. by split. Qed.
Lemma save_participant_aside p : keeps aside (save_participant p).
Proof. intros st t st'. unfold save_participant. case_match; [|done]. intros [= _ <-]. by split. Qed.
#[local] Hint Resolve save_session_aside draw_uuid_aside draw_seed_aside insert_event_aside update_request_aside
  save_participant_aside : keeps.
Lemma internal_event_aside session event_type agent content extra now : keeps aside (internal_event session event_type agent content extra now).
Proof. unfold internal_event. keeps. Qed.
#[local] Hint Resolve internal_event_aside : keeps.
Lemma close_in_aside room_id request_id row state now : keeps aside (close_in room_id request_id row state now).
Proof. unfold close_in. keeps. Qed.
#[local] Hint Resolve close_in_aside : keeps.
Lemma reconcile_session_aside session now : keeps aside (reconcile_session_in session now).
Proof. unfold reconcile_session_in. keeps. Qed.
#[local] Hint Resolve reconcile_session_aside : keeps.
Lemma session_state_event_aside session now : keeps aside (session_state_event session now).
Proof. unfold session_state_event. keeps. Qed.
Lemma turn_started_event_aside session now : keeps aside (turn_started_event session now).
Proof. unfold turn_started_event. keeps. Qed.
Lemma turn_state_event_aside session now : keeps aside (turn_state_event session now).
Proof. unfold turn_state_event. keeps. Qed.
Lemma turn_finished_event_aside session turn_id status provider reason now :
  keeps aside (turn_finished_event session turn_id status provider reason now).
Proof. unfold turn_finished_event. keeps. Qed.
Lemma error_event_aside session turn_id code message now : keeps aside (error_event session turn_id code message now).
Proof. unfold error_event. keeps. Qed.
#[local] Hint Resolve session_state_event_aside turn_started_event_aside turn_state_event_aside turn_finished_event_aside
  error_event_aside : keeps.
Lemma agent_final_event_aside session turn_id provider_turn_id source content target now :
  keeps aside (agent_final_event session turn_id provider_turn_id source content target now).
Proof. unfold agent_final_event. keeps. Qed.
Lemma queue_input_aside event now target : keeps aside (queue_input event now target).
Proof. unfold queue_input. keeps. Qed.
#[local] Hint Resolve agent_final_event_aside queue_input_aside : keeps.
Lemma route_message_aside settings event now : keeps aside (route_message settings event now).
Proof. unfold route_message, ordered_targets, sample_speaker. keeps. Qed.
#[local] Hint Resolve route_message_aside : keeps.

Lemma bind_message_attachments_aside principal ids seq now : keeps aside (bind_message_attachments principal ids seq now).
Proof.
  unfold bind_message_attachments. apply (keeps_for_each _). intros id st t st'. unfold bind_message_attachment.
  repeat case_match; try done. intros [= _ <-]. by split.
Qed.
Lemma insert_vote_state_aside e : keeps aside (insert_vote_state e).
Proof. intros st t st' (k & seq & n & _ & ->)%insert_vote_state_Ok. by split. Qed.
Lemma save_vote_state_aside stored : keeps aside (save_vote_state stored).
Proof. intros st t st' (row & _ & ->)%save_vote_state_Ok. by split. Qed.
Lemma replace_ballot_aside participant stored i : keeps aside (replace_ballot participant stored i).
Proof. intros st t st' (previous & _ & -> & _)%replace_ballot_Ok. case_match; by split. Qed.
Lemma remove_ballot_aside participant stored : keeps aside (remove_ballot participant stored).
Proof. intros st t st' ([j|] & _ & _ & _ & Hst)%remove_ballot_Ok; destruct Hst as [-> _]; by split. Qed.
#[local] Hint Resolve bind_message_attachments_aside insert_vote_state_aside save_vote_state_aside replace_ballot_aside
  remove_ballot_aside : keeps.
Lemma apply_vote_command_aside principal participant command sequence now :
  keeps aside (apply_vote_command principal participant command sequence now).
Proof. unfold apply_vote_command. keeps. Qed.

(** ** Operations on the rows of custody, and what is made of them *)

#[local] Hint Extern 5 (keeps custodial _) => apply keeps_aside_custodial : keeps.

Lemma insert_assigned_execution_custodial session turn_id assignment : keeps custodial (insert_assigned_execution session turn_id assignment).
Proof. intros st t st' Hr. by eapply custodial_once, CsInsert. Qed.
#[local] Hint Resolve insert_assigned_execution_custodial : keeps.
Lemma prepare_assignment_custodial room settings now session : keeps custodial (prepare_assignment room settings now session).
Proof. unfold prepare_assignment. keeps. Qed.
#[local] Hint Resolve prepare_assignment_custodial : keeps.
Lemma assign_available_pending_custodial room settings now : keeps custodial (assign_available_pending room settings now).
Proof. unfold assign_available_pending. keeps. Qed.
#[local] Hint Resolve assign_available_pending_custodial : keeps.
Lemma assign_pending_in_custodial room settings now : keeps custodial (assign_pending_in room settings now).
Proof. unfold assign_pending_in. keeps. Qed.
#[local] Hint Resolve assign_pending_in_custodial : keeps.
Lemma finalization_apply_custodial room settings turn_id provider_turn_id disposition session events now :
  keeps custodial (finalization_apply room settings turn_id provider_turn_id disposition session events now).
Proof. unfold finalization_apply. keeps. Qed.
#[local] Hint Resolve finalization_apply_custodial : keeps.
Lemma quarantine_started_custodial authority : keeps custodial (quarantine_started_execution authority).
Proof. intros st t st' Hr. by eapply custodial_once, CsQuarantine. Qed.
#[local] Hint Resolve quarantine_started_custodial : keeps.

(** *** Transactions that end a turn *)

(** What every later store has, too. *)
Definition kept (P : RoomStore -> Prop) : Prop := forall st st', custody_ok st -> custodial st st' -> P st -> P st'.
(** From [st], the store gets to [st'], of which [P] holds. *)
Record reaches (P : RoomStore -> Prop) (st st' : RoomStore) : Prop := MkReaches {
  re_steps : custodial st st';
  re_reached : custody_ok st -> P st'
}.
Lemma reaches_before P a b c : custodial a b -> reaches P b c -> reaches P a c.
Proof. intros Hab [Hbc He]. split; [by etrans|]. intros Hok. by apply He, (custody_history_ok a). Qed.
Lemma reaches_after P a b c : kept P -> reaches P a b -> custodial b c -> reaches P a c.
Proof. intros Hk [Hab He] Hbc. split; [by etrans|]. intros Hok. eapply Hk; [by eapply custody_history_ok|exact Hbc|by apply He]. Qed.
Lemma reaches_bind_before {A B} P (m : rtx A) (k : A -> rtx B) :
  keeps custodial m -> (forall a, keeps (reaches P) (k a)) -> keeps (reaches P) (m ≫= k).
Proof. intros Hm Hk st b st' (a & st1 & Hfst & Hsnd)%rtx_bind_Ok. eapply reaches_before; [by eapply Hm|by eapply Hk]. Qed.
Lemma reaches_bind_after {A B} P (m : rtx A) (k : A -> rtx B) :
  kept P -> keeps (reaches P) m -> (forall a, keeps custodial (k a)) -> keeps (reaches P) (m ≫= k).
Proof. intros HP Hm Hk st b st' (a & st1 & Hfst & Hsnd)%rtx_bind_Ok. eapply reaches_after; [done|by eapply Hm|by eapply Hk]. Qed.
Lemma reaches_error {A} P e : keeps (reaches P) (lift (Err e) : rtx A).
Proof. by intros st a st'. Qed.
Lemma reaches_once P st st' : custody_step st st' -> P st' -> reaches P st st'.
Proof. intros Hs He. split; [by apply custodial_once|done]. Qed.

Create HintDb ends.
Lemma ended_kept key : kept (turn_ended key).
Proof. intros st st'. apply ended_stable. Qed.
Lemma settled_kept key : kept (turn_settled key).
Proof. intros st st'. apply settled_stable. Qed.
Lemma dispatched_kept key : kept (interrupt_dispatched key).
Proof. intros st st'. apply dispatched_stable. Qed.
#[local] Hint Resolve ended_kept settled_kept dispatched_kept : ends.

(** Walks to the operation that reaches what is claimed, and past it. *)
Ltac reaches :=
  cbv zeta;
  repeat first
    [ solve [eauto with ends] | apply reaches_error
    | apply reaches_bind_after; [solve [eauto with ends]..|intros ?; solve [keeps]]
    | apply reaches_bind_before; [solve [keeps]|intros ?]
    | match goal with |- keeps (reaches _) (match ?x with _ => _ end) => destruct x eqn:? end ].

Lemma terminalize_ordinary_ends session authority phase :
  keeps (reaches (turn_ended (ta_key authority))) (terminalize_ordinary_execution session authority phase).
Proof.
  intros st t st' Hr. apply reaches_once; [by eapply CsEnd|].
  destruct (terminalize_ordinary_phases _ _ _ _ _ _ Hr) as (_ & p & _ & _ & Hb & E). unfold turn_ended, is_ended. by rewrite E, Hb.
Qed.
#[local] Hint Resolve terminalize_ordinary_ends : ends.

Lemma complete_message_ends room_id session_id authority content target now :
  keeps (reaches (turn_ended (ta_key authority))) (complete_message room_id session_id authority content target now).
Proof. unfold complete_message. reaches. Qed.
Lemma decline_ends room_id session_id authority reason now : keeps (reaches (turn_ended (ta_key authority))) (decline room_id session_id authority reason now).
Proof. unfold decline. reaches. Qed.
Lemma fail_ends room_id session_id authority code message stop now :
  keeps (reaches (turn_ended (ta_key authority))) (fail room_id session_id authority code message stop now).
Proof. unfold fail. reaches. Qed.
Lemma keeps_attempt {A} (R : relation RoomStore) `{!Reflexive R} (m : rtx A) : keeps R m -> keeps R (attempt m).
Proof. intros Hm st a st'. unfold attempt. destruct (m st) as [[b st1]|e] eqn:E; intros [= _ <-]; [by eapply Hm|done]. Qed.
Lemma complete_vote_ends room_id session_id authority command now :
  keeps (reaches (turn_ended (ta_key authority))) (complete_vote room_id session_id authority command now).
Proof.
  unfold complete_vote. assert (Hvote : forall principal participant sequence,
    keeps custodial (attempt (apply_vote_command principal participant command sequence now))).
  { intros. apply (keeps_attempt _), keeps_aside_custodial, apply_vote_command_aside. }
  reaches.
Qed.

(** *** An interrupt that ends *)

Lemma ended_row (st : RoomStore) key x : phase_is_blocking (pe_phase x) = false ->
  turn_ended key (st <| st_executions := <[key := x]> (st_executions st) |>).
Proof. intros Hb. unfold turn_ended, is_ended. rewrite phases_execution, decide_True by done. simpl. by rewrite Hb. Qed.
Lemma ended_effect (st : RoomStore) f key : turn_ended key (st <| st_effects := f |>) <-> turn_ended key st.
Proof. done. Qed.

Lemma terminalize_retained_ends expected : keeps (reaches (turn_ended (ie_key expected))) (terminalize_retained_interrupt expected).
Proof.
  intros st t st' Hr. apply reaches_once; [by eapply CsRetained|]. unfold terminalize_retained_interrupt in Hr.
  do 6 (apply rtx_bind_Ok in Hr as (? & ? & _ & Hr)). apply rtx_bind_Ok in Hr as (? & ? & _ & Hr).
  apply update_execution_Ok in Hr as (row & _ & _ & ->). by apply ended_row.
Qed.
#[local] Hint Resolve terminalize_retained_ends : ends.
Lemma finalize_retained_ends expected now : keeps (reaches (turn_ended (ie_key expected))) (finalize_retained_in expected now).
Proof. unfold finalize_retained_in. reaches. Qed.

Lemma finalize_pair_ended key x effect phase invalid stale st t st' :
  phase_is_blocking phase = false -> finalize_pair key x effect phase invalid stale st = Ok (t, st') -> turn_ended key st'.
Proof.
  intros Hb. unfold finalize_pair. intros (? & st1 & [_ <-]%lift_Ok & Hr)%rtx_bind_Ok. apply rtx_bind_Ok in Hr as (? & st1 & Hu & Hr).
  apply update_execution_Ok in Hu as (row & _ & _ & ->). destruct effect as [effect|].
  - apply update_effect_Ok in Hr as (k & e & _ & _ & _ & _ & ->). by apply ended_effect, ended_row.
  - apply rtx_ret_Ok in Hr as [_ <-]. by apply ended_row.
Qed.

(** A candidate that was validated is the active turn of its session. *)
Lemma candidate_is_active session key x :
  validate_candidate session key x = Ok tt ->
  phase_is_blocking (pe_phase x) = true /\ authority_or invalid_stop_turn (active_turn_authority session) = Ok true /\
  session_execution_key session = key.
Proof.
  unfold validate_candidate. intros (active & Ha & Hr%require_Ok)%bind_Ok. bool_to_prop. subst active.
  destruct (phase_is_blocking _); [|done]. split; [done|]. split.
  - unfold authority_or in *. by destruct (active_turn_authority session); simpl in *; simplify_eq.
  - repeat match goal with
    | Hs : str_eqb _ _ = true |- _ => apply str_eqb_true in Hs
    | Hs : (_ =? _)%N = true |- _ => apply N.eqb_eq in Hs
    end. destruct key as [[r i] g]. unfold session_execution_key, session_key. simpl in *. congruence.
Qed.

Lemma stop_ends session key x now st event st' :
  st_executions st !! key = Some x -> validate_candidate session key x = Ok tt ->
  terminalize_confirmed_stop_turn session now st = Ok (event, st') -> reaches (turn_ended key) st st'.
Proof.
  intros Hx (Hb & Hactive & Hkey)%candidate_is_active Hr. assert (custody_step st st') as Hs by (by eapply CsStop).
  unfold terminalize_confirmed_stop_turn in Hr. rewrite Hactive in Hr. apply rtx_bind_Ok in Hr as (? & st1 & [[= <-] <-]%lift_Ok & Hr).
  simpl in Hr. apply rtx_bind_Ok in Hr as (y & st1 & [Hy%load_execution_in_Ok <-]%reads_Ok & Hr). rewrite Hkey in *.
  assert (y = x) as -> by congruence. apply rtx_bind_Ok in Hr as (effect & st1 & [_ <-]%reads_Ok & Hr).
  apply rtx_bind_Ok in Hr as (terminal & st1 & [Ht <-]%lift_Ok & Hr). apply reaches_once; [done|]. destruct terminal.
  - exfalso. unfold exact_stop_turn_is_terminal in Ht. destruct (_ || _); [done|]. destruct (phase_in [ExecInterrupted] x && _) eqn:E.
    + bool_to_prop. revert Hb. rename select (phase_in _ x = true) into Hp. revert Hp. unfold phase_in. by destruct (pe_phase x).
    + by apply bind_Ok in Ht as (? & _ & ?).
  - apply rtx_bind_Ok in Hr as ([] & st1 & Hf & Hr). apply rtx_bind_Ok in Hr as (e & st2 & He & Hr). apply rtx_ret_Ok in Hr as [_ <-].
    apply finalize_pair_ended in Hf; [|done]. apply turn_finished_event_aside in He as [He1 He2]. unfold turn_ended, phases in *.
    by rewrite He1, He2.
Qed.

Lemma end_gone_turn_custodial session key turn_id cause progression now :
  keeps custodial (end_gone_turn session key turn_id cause progression now).
Proof. unfold end_gone_turn. keeps. Qed.
#[local] Hint Resolve end_gone_turn_custodial : keeps.

Lemma runtime_gone_ends candidate progression now : keeps (reaches (turn_ended (tc_key candidate))) (finalize_runtime_gone_in candidate progression now).
Proof.
  unfold finalize_runtime_gone_in. cbv zeta. intros st c st' (session & st1 & [Hs <-]%reads_Ok & Hr)%rtx_bind_Ok.
  apply rtx_bind_Ok in Hr as (x & st1 & [Hx%load_execution_in_Ok <-]%reads_Ok & Hr).
  apply rtx_bind_Ok in Hr as (? & st1 & [_ <-]%lift_Ok & Hr). apply rtx_bind_Ok in Hr as ([] & st1 & [Hv <-]%lift_Ok & Hr).
  apply rtx_bind_Ok in Hr as (effect & st1 & [He <-]%reads_Ok & Hr). apply rtx_bind_Ok in Hr as (? & st1 & [_ <-]%lift_Ok & Hr).
  apply rtx_bind_Ok in Hr as (stopped & st1 & [_ <-]%reads_Ok & Hr). destruct stopped.
  - apply rtx_bind_Ok in Hr as (event & st1 & Ht & Hr). eapply reaches_after; [apply ended_kept|by eapply stop_ends|].
    revert Hr. apply (fun Hk : keeps custodial _ => Hk st1 c st'). keeps.
  - apply rtx_bind_Ok in Hr as (? & st1 & Ht & Hr). eapply reaches_after; [apply ended_kept| |by eapply end_gone_turn_custodial]. apply reaches_once.
    + eapply CsGone; [exact Hx|by apply candidate_is_active in Hv as [? _]|exact He|exact Ht].
    + eapply finalize_pair_ended; [|exact Ht]. by destruct effect.
Qed.

(** *** A turn that never started, or whose owner died *)

Lemma fail_unstarted_ends key x st t st' :
  st_executions st !! key = Some x -> phase_in [ExecAssigned; ExecStartDispatching] x = true ->
  fail_unstarted_execution key x st = Ok (t, st') -> reaches (turn_ended key) st st'.
Proof.
  intros Hx Hp Hr. apply reaches_once; [by eapply CsFailUnstarted|]. unfold fail_unstarted_execution in Hr.
  do 2 (apply rtx_bind_Ok in Hr as (? & ? & _ & Hr)). apply update_execution_Ok in Hr as (y & _ & _ & ->). by apply ended_row.
Qed.
Lemma proven_no_effect_ends session key x now st c st' :
  st_executions st !! key = Some x -> phase_in [ExecAssigned; ExecStartDispatching] x = true ->
  finalize_proven_no_effect_task_death session key x now st = Ok (c, st') -> reaches (turn_ended key) st st'.
Proof.
  intros Hx Hp. unfold finalize_proven_no_effect_task_death. intros ([room settings] & st1 & [_ <-]%reads_Ok & Hr)%rtx_bind_Ok.
  apply rtx_bind_Ok in Hr as (? & st1 & Hf & Hr). eapply reaches_after; [apply ended_kept|by eapply fail_unstarted_ends|].
  revert Hr. apply (fun Hk : keeps custodial _ => Hk st1 c st'). keeps.
Qed.

(** The row of a candidate, but for its assignment: the operations that end it do not read the assignment. *)
Lemma proven_no_effect_same session key x y now : same_execution x y = true ->
  finalize_proven_no_effect_task_death session key x now = finalize_proven_no_effect_task_death session key y now /\
  phase_in [ExecAssigned; ExecStartDispatching] x = phase_in [ExecAssigned; ExecStartDispatching] y.
Proof. unfold same_execution. intros Hs. apply bool_decide_eq_true_1 in Hs. rewrite <- Hs. by destruct x. Qed.

Lemma not_started_ends candidate now : keeps (reaches (turn_ended (tc_key candidate))) (finalize_provider_turn_not_started candidate now).
Proof.
  unfold finalize_provider_turn_not_started. cbv zeta. intros st c st' ([] & st1 & [Hreq%require_Ok <-]%lift_Ok & Hr)%rtx_bind_Ok.
  bool_to_prop. apply rtx_bind_Ok in Hr as (session & st1 & [Hc <-]%reads_Ok & Hr). unfold current_turn in Hc.
  apply bind_Ok in Hc as (s & _ & Hc). apply bind_Ok in Hc as (x & Hx%load_execution_in_Ok & Hc). apply bind_Ok in Hc as (? & _ & Hc).
  apply bind_Ok in Hc as ([] & Hsame%require_Ok & Hc). bool_to_prop.
  match goal with Hs : same_execution _ _ = true |- _ => destruct (proven_no_effect_same session (tc_key candidate) _ _ now Hs) as [E Ep] end.
  rewrite <- E in Hr. eapply proven_no_effect_ends; [exact Hx|by rewrite Ep|exact Hr].
Qed.

Lemma task_death_custodial room_id session_id generation execution_id now :
  keeps custodial (record_provider_turn_task_death room_id session_id generation execution_id now).
Proof.
  unfold record_provider_turn_task_death. cbv zeta. intros st c st' (x & st1 & [Hx%load_execution_in_Ok <-]%reads_Ok & Hr)%rtx_bind_Ok.
  apply rtx_bind_Ok in Hr as (session & st1 & [_ <-]%reads_Ok & Hr). apply rtx_bind_Ok in Hr as (? & st1 & [_ <-]%lift_Ok & Hr).
  apply rtx_bind_Ok in Hr as (? & st1 & [_ <-]%lift_Ok & Hr). destruct (phase_in [ExecAssigned] x) eqn:Ep.
  - eapply re_steps, proven_no_effect_ends; [exact Hx| |exact Hr]. revert Ep. unfold phase_in. by destruct (pe_phase x).
  - destruct (phase_in [ExecStartDispatching; ExecRunning; ExecInterruptPending; ExecQuiescing] x) eqn:Eq; [|done]. unfold quarantine_dispatched_task_death in Hr.
    apply rtx_bind_Ok in Hr as (? & st1 & Hq & Hr). etrans; [by eapply custodial_once, CsQuarantineDispatched|].
    revert Hr. apply (fun Hk : keeps custodial _ => Hk st1 c st'). cbv zeta. keeps.
Qed.

(** *** A turn that starts, runs and is quarantined *)

(** The start of a turn is authorized. *)
Definition authorizes_turn (key : execution_key) (st st' : RoomStore) : Prop :=
  exists turn_id authority, authorize_start_in key.1.1 key.1.2 key.2 turn_id st = Ok (authority, st').

(** A turn whose start was authorized is not waiting for it any more, and one that waits for it has no interrupt. *)
Lemma authorized_not_assigned key a b c : custody_ok a -> authorizes_turn key a b -> custodial b c -> (phases c key).1 <> Some ExecAssigned.
Proof.
  intros Hok (turn & authority & Ha) Hbc Hc. destruct key as [[room session] generation]. simpl in Ha.
  destruct (authorize_start_phases _ _ _ _ _ _ _ Ha) as [_ Hb].
  assert (custody_ok b) as Hokb by (by eapply custody_step_ok; [exact Hok|eapply CsStart]).
  pose proof (custody_stable (fun p => negb (bool_decide (p.1 = Some ExecAssigned) || bool_decide (p.1 = None)))
    b c (room, session, generation)) as Hs. cbv beta in Hs. rewrite Hb, Hc in Hs.
  discriminate Hs; [automaton_cases|done..].
Qed.
Lemma assigned_no_interrupt key st : custody_ok st -> (phases st key).1 = Some ExecAssigned -> (phases st key).2 = None.
Proof. intros Hok Hp. pose proof (co_pairs _ Hok key) as Hpair. destruct (phases st key) as [x [e|]]; [|done]. simpl in *. subst. by destruct e. Qed.
Lemma authorizes_assigned key a b : authorizes_turn key a b -> (phases a key).1 = Some ExecAssigned /\ (phases b key).1 <> Some ExecAssigned.
Proof.
  intros (turn & authority & Ha). destruct key as [[room session] generation]. simpl in Ha.
  destruct (authorize_start_phases _ _ _ _ _ _ _ Ha) as [Hp Hb]. split; [done|]. by rewrite Hb.
Qed.
Lemma authorizes_effects key a b : authorizes_turn key a b -> (phases b key).2 = (phases a key).2.
Proof.
  intros (turn & authority & Ha). unfold authorize_start_in in Ha. cbv zeta in Ha.
  apply rtx_bind_Ok in Ha as (s & st1 & [_ <-]%reads_Ok & Ha). apply rtx_bind_Ok in Ha as (p & st1 & [_ <-]%reads_Ok & Ha).
  do 2 (apply rtx_bind_Ok in Ha as (? & st1 & [_ <-]%lift_Ok & Ha)). apply rtx_bind_Ok in Ha as (nonce & st1 & [_ ->]%draw_uuid_Ok & Ha).
  apply rtx_bind_Ok in Ha as (? & st1 & [_ <-]%lift_Ok & Ha). apply rtx_bind_Ok in Ha as (idle & st1 & [_ <-]%reads_Ok & Ha).
  apply rtx_bind_Ok in Ha as ([] & st2 & Hu & Ha). apply rtx_bind_Ok in Ha as (execution & st3 & [_ <-]%reads_Ok & Ha).
  apply rtx_ret_Ok in Ha as [_ <-]. by apply update_execution_Ok in Hu as (row & _ & _ & ->).
Qed.
Lemma authorizes_turn_once key a b c d : custody_ok a -> authorizes_turn key a b -> custodial b c -> ~ authorizes_turn key c d.
Proof. intros Hok Ha Hbc [Hc _]%authorizes_assigned. by eapply authorized_not_assigned. Qed.
Lemma interrupt_stays key st st' : custody_ok st -> custodial st st' -> (phases st key).2 <> None -> (phases st' key).2 <> None.
Proof.
  intros Hok Hs He. unfold phases in *. destruct (st_effects st !! key) as [e|] eqn:E; [|done].
  destruct (custody_effect_kept _ _ _ _ Hok Hs E) as (e' & E' & _). by rewrite E'.
Qed.

Lemma mark_recovery_required_settles authority now :
  keeps (reaches (turn_settled (sa_key authority))) (mark_provider_turn_recovery_required authority now).
Proof.
  assert (keeps (reaches (turn_settled (sa_key authority))) (quarantine_started_execution authority)) as Hq.
  { intros st t st' Hr. apply reaches_once; [by eapply CsQuarantine|]. unfold quarantine_started_execution in Hr.
    apply rtx_bind_Ok in Hr as (? & ? & _ & Hr). apply update_execution_Ok in Hr as (row & _ & _ & ->).
    unfold turn_settled, is_settled. by rewrite phases_execution, decide_True. }
  unfold mark_provider_turn_recovery_required. reaches.
Qed.

(** *** The operations of an interrupt *)

(** The effect that a task holds is the stored one's. *)
Definition holds_effect (effect : ProviderTurnInterruptEffect) (st : RoomStore) : Prop :=
  exists e, st_effects st !! ie_key effect = Some e /\ ef_effect_id e = ie_effect_id effect.
Lemma holds_effect_kept effect : kept (holds_effect effect).
Proof.
  intros st st' Hok Hs (e & He & Hid). destruct (custody_effect_kept _ _ _ _ Hok Hs He) as (e' & He' & Hid'). exists e'. split; [done|congruence].
Qed.
Lemma holds_names effect st : custody_ok st -> holds_effect effect st -> names_effect st effect.
Proof. intros Hok (e & He & Hid) k e' He' Hroom Hid'. by apply (co_unique _ Hok _ _ _ _ He' He); [|congruence]. Qed.
Lemma load_holds key effect st : load_effect_in key st = Ok effect -> ie_key effect = key /\ holds_effect effect st.
Proof. intros (e & x & He & Hx & ->)%load_effect_in_Ok. destruct key as [[r i] g]. split; [done|]. exists e. by split. Qed.

Lemma claim_holds expected owner now st claim st' : claim_provider_turn_interrupt expected owner now st = Ok (claim, st') ->
  custody_step st st' /\ ie_key (cl_effect claim) = ie_key expected /\ holds_effect (cl_effect claim) st'.
Proof.
  intros Hr. split; [by eapply CsClaim|]. unfold claim_provider_turn_interrupt in Hr. apply rtx_bind_Ok in Hr as (? & st1 & [_ <-]%lift_Ok & Hr).
  apply rtx_bind_Ok in Hr as (current & st1 & [Hl <-]%reads_Ok & Hr). apply load_holds in Hl as [Hk _].
  do 2 (apply rtx_bind_Ok in Hr as (? & ? & _ & Hr)). apply rtx_bind_Ok in Hr as (effect & st2 & [Hl <-]%reads_Ok & Hr).
  apply rtx_ret_Ok in Hr as [<- <-]. apply load_holds in Hl as [Hk' Hh]. simpl. split; [congruence|done].
Qed.
Lemma claim_recovery_holds expected owner now st claim st' : claim_provider_turn_interrupt_recovery expected owner now st = Ok (claim, st') ->
  custody_step st st' /\ ie_key (cl_effect claim) = ie_key expected /\ holds_effect (cl_effect claim) st'.
Proof.
  intros Hr. split; [by eapply CsClaimRecovery|]. unfold claim_provider_turn_interrupt_recovery in Hr.
  apply rtx_bind_Ok in Hr as (? & st1 & [_ <-]%lift_Ok & Hr).
  apply rtx_bind_Ok in Hr as (current & st1 & [Hl <-]%reads_Ok & Hr). apply load_holds in Hl as [Hk _].
  do 4 (apply rtx_bind_Ok in Hr as (? & ? & _ & Hr)). apply rtx_bind_Ok in Hr as (effect & st2 & [Hl <-]%reads_Ok & Hr).
  apply rtx_ret_Ok in Hr as [<- <-]. apply load_holds in Hl as [Hk' Hh]. simpl. split; [congruence|done].
Qed.

(** An effect whose row was written with a phase. *)
Lemma dispatched_row (st : RoomStore) key e : negb (contains [EffPrepared; EffClaimed] (ef_phase e)) = true ->
  interrupt_dispatched key (st <| st_effects := <[key := e]> (st_effects st) |>).
Proof. intros Hp. unfold interrupt_dispatched, is_dispatched. by rewrite phases_effect, decide_True. Qed.
Lemma update_effect_dispatched effect p f stale st t st' :
  custody_ok st -> holds_effect effect st -> (forall e, negb (contains [EffPrepared; EffClaimed] (ef_phase (f e))) = true) ->
  update_effect (ie_room_id effect) (ie_effect_id effect) p f stale st = Ok (t, st') -> interrupt_dispatched (ie_key effect) st'.
Proof.
  intros Hok Hh Hf (k & e & He & Hroom & Hid & _ & ->)%update_effect_Ok. rewrite (holds_names _ _ Hok Hh _ _ He Hroom Hid).
  by apply dispatched_row.
Qed.

(** The effect that an operation on [effect] returns is the stored one, given to the provider. *)
Record issued (effect result : ProviderTurnInterruptEffect) (st st' : RoomStore) : Prop := MkIssued {
  is_step : custody_step st st';
  is_key : ie_key result = ie_key effect;
  is_held : holds_effect result st';
  is_given : interrupt_dispatched (ie_key effect) st'
}.

Lemma waiting_issued expected owner now st effect st' : custody_ok st -> holds_effect expected st ->
  transition_to_waiting_in expected owner now st = Ok (effect, st') -> issued expected effect st st'.
Proof.
  intros Hok Hh Hr. assert (custody_step st st') as Hs by (by eapply CsWaiting; [by apply holds_names|exact Hr]).
  unfold transition_to_waiting_in in Hr. apply rtx_bind_Ok in Hr as (? & st1 & Hu & Hr).
  apply rtx_bind_Ok in Hr as (? & st2 & [_ <-]%lift_Ok & Hr). apply rtx_bind_Ok in Hr as (? & st2 & Hx & Hr).
  apply reads_Ok in Hr as [[Hk Hl]%load_holds <-]. apply update_effect_dispatched in Hu; [|done..].
  apply update_execution_Ok in Hx as (row & _ & _ & ->). split; [done..|]. unfold interrupt_dispatched, is_dispatched in *.
  rewrite phases_execution. by rewrite decide_True.
Qed.
Lemma dispatch_given claim now st t st' : custody_ok st -> holds_effect (cl_effect claim) st ->
  fence_interrupt_dispatch claim now st = Ok (t, st') ->
  custody_step st st' /\ holds_effect (cl_effect claim) st' /\ interrupt_dispatched (ie_key (cl_effect claim)) st'.
Proof.
  intros Hok Hh Hr. assert (custody_step st st') as Hs by (by eapply CsDispatch).
  split_and!; [done|exact (holds_effect_kept (cl_effect claim) _ _ Hok (custodial_once _ _ Hs) Hh)|]. unfold fence_interrupt_dispatch in Hr.
  apply rtx_bind_Ok in Hr as (nonce & st1 & [_ ->]%draw_uuid_Ok & Hu).
  apply update_effect_Ok in Hu as (k & e & He & Hroom & Hid & _ & ->). rewrite (holds_names _ _ Hok Hh _ _ He Hroom Hid).
  by apply dispatched_row.
Qed.
Lemma recovery_wait_issued claim now st effect st' : custody_ok st ->
  authorize_provider_interrupt_recovery_wait claim now st = Ok (effect, st') -> issued (cl_effect claim) effect st st'.
Proof.
  intros Hok Hr. assert (custody_step st st') as Hs by (by eapply CsRecoveryWait).
  unfold authorize_provider_interrupt_recovery_wait in Hr. cbv zeta in Hr.
  apply rtx_bind_Ok in Hr as (current & st1 & [[Hk Hl]%load_holds <-]%reads_Ok & Hr).
  do 2 (apply rtx_bind_Ok in Hr as (? & ? & [_ <-]%lift_Ok & Hr) || apply rtx_bind_Ok in Hr as (? & ? & [_ <-]%reads_Ok & Hr)).
  apply rtx_bind_Ok in Hr as (? & ? & [_ <-]%lift_Ok & Hr). apply rtx_bind_Ok in Hr as (? & st1 & Hu & Hr).
  apply rtx_bind_Ok in Hr as (? & ? & [_ <-]%lift_Ok & Hr). apply rtx_bind_Ok in Hr as (? & st2 & Hx & Hr).
  apply rtx_ret_Ok in Hr as [<- <-].
  assert (ie_key (current <| ie_phase := EffIssuedWaitingQuiescence |>) = ie_key current) as E by done.
  split; [done|congruence| |].
  - destruct (holds_effect_kept current _ _ Hok (custodial_once _ _ Hs) Hl) as (e & He & Hid). by exists e.
  - rewrite <- Hk. apply update_effect_dispatched in Hu; [|done..]. apply update_execution_Ok in Hx as (row & _ & _ & ->).
    unfold interrupt_dispatched, is_dispatched in *. rewrite phases_execution. by rewrite decide_True.
Qed.
Lemma ambiguous_step dispatched st t st' : custody_ok st -> holds_effect dispatched st ->
  mark_provider_interrupt_ambiguous dispatched st = Ok (t, st') -> custody_step st st'.
Proof. intros Hok Hh Hr. eapply CsAmbiguous; [by apply holds_names|exact Hr]. Qed.

(** An interrupt that has ended has ended its turn. *)
Lemma finalized_ended key effect st : custody_ok st -> load_effect_in key st = Ok effect -> ie_phase effect = EffFinalized -> turn_ended key st.
Proof.
  intros Hok (e & x & He & Hx & ->)%load_effect_in_Ok Hp. simpl in Hp. pose proof (co_pairs _ Hok key) as Hpair.
  unfold turn_ended, phases in *. rewrite He, Hx in *. simpl in *. rewrite Hp in *. by destruct (pe_phase x).
Qed.
Lemma past_claim_settled key effect st : custody_ok st -> load_effect_in key st = Ok effect -> turn_settled key st.
Proof.
  intros Hok (e & x & He & Hx & ->)%load_effect_in_Ok. pose proof (co_pairs _ Hok key) as Hpair.
  unfold turn_settled, phases in *. rewrite He, Hx in *. simpl in *. unfold is_settled. simpl. destruct (pe_phase x); try done; by destruct (ef_phase e).
Qed.

(** ** A message that is posted *)

Lemma reserve_budget_aside room_id now bytes : keeps aside (reserve_budget room_id now bytes).
Proof. intros st t st'. unfold reserve_budget. intros (? & _ & [= _ <-])%bind_Ok. by split. Qed.
Lemma store_command_result_aside key action hash result : keeps aside (store_command_result key action hash result).
Proof. intros st t st'. unfold store_command_result. intros (commands & _ & [= _ <-])%bind_Ok. by split. Qed.
#[local] Hint Resolve reserve_budget_aside store_command_result_aside apply_vote_command_aside : keeps.
Lemma prepare_human_message_aside principal participant payload sequence now :
  keeps aside (prepare_human_message_event principal participant payload sequence now).
Proof. unfold prepare_human_message_event. keeps. Qed.
Lemma admit_aside key action hash bytes now : keeps aside (admit_non_lifecycle_command key action hash bytes now).
Proof. unfold admit_non_lifecycle_command. keeps. Qed.
#[local] Hint Resolve prepare_human_message_aside admit_aside : keeps.
Lemma execute_message_custodial principal request_id action payload now :
  keeps custodial (execute_message_in principal request_id action payload now).
Proof. unfold execute_message_in. keeps. Qed.
End custody.
