(* ===== verification/Muting.v ===== *)
(** * What an interrupt from the room promises

    The commands of Interrupt.v as histories of custody, and what the room may rely on
    once they were committed: the turn has one interrupt, with one cause, it never ends
    in the ordinary way, and an agent that is muted neither starts a turn nor ends one. *)

From Stdlib Require Import String.
From stdpp Require Import gmap.
From S2P Require Import Prelude Text Diagnostic Json Bytes Model Command Vote Projection Settings Store Budget Turn Routing RoomStore.
From S2P Require Import Authority Requests Execution Observation VoteStore Scheduler Completion Calm Messages.
From S2P Require Import Reservations Launch Stop Pause Interrupt Lifecycle Create Reconcile TurnRecovery Custody.

(** The participant is in the room, muted. *)
Definition is_muted (room_id participant_id : str) (st : RoomStore) : Prop :=
  exists p, st_participants st !! (room_id, participant_id) = Some p /\ pt_muted p = true.

Section muting.
Context `{UnicodeGeneralCategory, CharCase, UnicodeCase, Caseless, Sha256, Chrono, Entropy, PersonaLibrary, UuidCrate, ChronoRange,
  AttendeeParent, RequestSerde, RegexCrate, ByteDigest, JsonText, SessionSerde}.
#[local] Existing Instance custodial_preorder.

(** ** The commands as histories of custody *)

#[local] Hint Resolve draw_uuid_aside insert_event_aside save_participant_aside close_in_aside reconcile_session_aside
  save_session_aside admit_aside store_command_result_aside : keeps.
#[local] Hint Extern 5 (keeps custodial _) => apply keeps_aside_custodial : keeps.
#[local] Hint Resolve assign_pending_in_custodial : keeps.

Lemma cancel_participant_aside room_id participant_id now : keeps aside (cancel_participant_in room_id participant_id now).
Proof. unfold cancel_participant_in, close_all. keeps. Qed.
Lemma append_state_event_aside principal session now : keeps aside (append_state_event principal session now).
Proof. unfold append_state_event, append_state_projection_event, append_session_event. keeps. Qed.
Lemma store_result_aside principal request_id action hash result events :
  keeps aside (store_result principal request_id action hash result events).
Proof. unfold store_result. keeps. Qed.
Lemma muted_event_aside principal participant now : keeps aside (muted_event principal participant now).
Proof. unfold muted_event. keeps. Qed.
#[local] Hint Resolve cancel_participant_aside append_state_event_aside store_result_aside muted_event_aside : keeps.

Lemma prepare_custodial key x cause st effect st' :
  st_executions st !! key = Some x -> prepare_interrupt_effect key x cause st = Ok (effect, st') -> custodial st st'.
Proof. intros Hx Hr. by eapply custodial_once, CsPrepare. Qed.

(** The interrupt of [key] is there, for [cause], and the turn is its. *)
Definition interrupted_for (cause : ProviderTurnInterruptCause) (key : execution_key) (st : RoomStore) : Prop :=
  (exists e, st_effects st !! key = Some e /\ ef_cause e = cause) /\ turn_settled key st.
Lemma prepare_interrupts key x cause st effect st' :
  custody_ok st -> st_executions st !! key = Some x -> prepare_interrupt_effect key x cause st = Ok (effect, st') ->
  interrupted_for cause key st'.
Proof.
  intros Hok Hx Hr. assert (custody_ok st') as Hok' by (eapply custody_history_ok; [exact Hok|by eapply prepare_custodial]).
  unfold prepare_interrupt_effect in Hr. do 4 (apply rtx_bind_Ok in Hr as (? & ? & _ & Hr)).
  apply rtx_bind_Ok in Hr as (loaded & st1 & [Hl <-]%reads_Ok & Hr). apply rtx_bind_Ok in Hr as ([] & st1 & [Hc%require_Ok <-]%lift_Ok & Hr).
  apply bool_decide_eq_true_1 in Hc. apply rtx_bind_Ok in Hr as ([] & st1 & Hu & Hr).
  apply reads_Ok in Hr as [Hl' <-]. split; [|by eapply past_claim_settled].
  apply load_effect_in_Ok in Hl as (e & y & He & Hy & ->). exists e. split; [|done]. revert Hu. case_match; intros Hu.
  - by apply update_execution_Ok in Hu as (row & _ & _ & ->).
  - by apply rtx_ret_Ok in Hu as [_ <-].
Qed.

Lemma execute_agent_interrupt_custodial authority request_id payload now :
  keeps custodial (execute_agent_interrupt authority request_id payload now).
Proof.
  unfold execute_agent_interrupt. cbv zeta. do 4 (apply (keeps_bind _); [keeps|intros ?]).
  apply (keeps_bind _); [keeps|intros [outcome|]]; [keeps|].
  intros st m st' ([session execution] & st1 & [Hl <-]%reads_Ok & Hr)%rtx_bind_Ok.
  apply rtx_bind_Ok in Hr as (effect & st1 & Hp & Hr). etrans.
  - eapply prepare_custodial, Hp. unfold load_interruptible_session in Hl. do 4 (apply bind_Ok in Hl as (? & _ & Hl)).
    apply bind_Ok in Hl as (? & Hx & Hl). do 2 (apply bind_Ok in Hl as (? & _ & Hl)). apply bind_Ok in Hl as (? & _ & Hl).
    injection Hl as <- <-. by apply load_execution_in_Ok.
  - revert Hr. apply (fun Hk : keeps custodial _ => Hk st1 m st'). keeps.
Qed.
#[local] Hint Resolve execute_agent_interrupt_custodial : keeps.

Lemma mute_session_custodial room_id muted session now : keeps custodial (mute_session room_id muted session now).
Proof.
  unfold mute_session. cbv zeta. do 2 (apply (keeps_bind _); [keeps|intros ?]). case_match; [|keeps].
  intros st r st' (x & st1 & [Hx%load_execution_in_Ok <-]%reads_Ok & Hr)%rtx_bind_Ok.
  apply rtx_bind_Ok in Hr as (effect & st1 & Hp & Hr). apply rtx_ret_Ok in Hr as [_ <-]. by eapply prepare_custodial.
Qed.
#[local] Hint Resolve mute_session_custodial : keeps.
Lemma prepare_participant_mute_custodial principal update now : keeps custodial (prepare_participant_mute principal update now).
Proof. unfold prepare_participant_mute. keeps. Qed.
#[local] Hint Resolve prepare_participant_mute_custodial : keeps.
Lemma execute_participant_mute_custodial authority request_id payload now :
  keeps custodial (execute_participant_mute authority request_id payload now).
Proof. unfold execute_participant_mute. keeps. Qed.

(** ** What was done when a mute is answered *)

(** The admission of a command and the record of its answer write only their own tables. *)
Definition counted (st st' : RoomStore) : Prop :=
  (st_sessions st' = st_sessions st /\ st_participants st' = st_participants st) /\ st_connectors st' = st_connectors st /\ aside st st'.
#[local] Instance counted_preorder : PreOrder counted.
Proof. split; [by intros st|]. intros a b c ([] & ? & []) ([] & ? & []). split_and!; try congruence. split; congruence. Qed.
Lemma reserve_budget_counted room_id now bytes : keeps counted (reserve_budget room_id now bytes).
Proof. intros st t st'. unfold reserve_budget. intros (? & _ & [= _ <-])%bind_Ok. by split_and!. Qed.
Lemma store_command_result_counted key action hash result : keeps counted (store_command_result key action hash result).
Proof. intros st t st'. unfold store_command_result. intros (commands & _ & [= _ <-])%bind_Ok. by split_and!. Qed.
#[local] Hint Resolve reserve_budget_counted store_command_result_counted : keeps.
Lemma admit_counted key action hash bytes now : keeps counted (admit_non_lifecycle_command key action hash bytes now).
Proof. unfold admit_non_lifecycle_command. keeps. Qed.

Lemma mute_Ok authority request_id payload now st m st' :
  execute_participant_mute authority request_id payload now st = Ok (m, st') -> co_deduplicated (pmm_outcome m) = false ->
  exists principal update st1 prepared st2, authority st = Ok principal /\ parse_update payload = Ok update /\ counted st st1 /\
    prepare_participant_mute principal update now st1 = Ok (prepared, st2) /\ counted st2 st'.
Proof.
  intros Hr Hfresh. unfold execute_participant_mute in Hr. cbv zeta in Hr.
  apply rtx_bind_Ok in Hr as (principal & st0 & [Hp <-]%reads_Ok & Hr). apply rtx_bind_Ok in Hr as (? & st0 & [_ <-]%reads_Ok & Hr).
  apply rtx_bind_Ok in Hr as (? & st0 & [_ <-]%lift_Ok & Hr). apply rtx_bind_Ok in Hr as (outcome & st1 & Ha & Hr).
  pose proof (admit_counted _ _ _ _ _ _ _ _ Ha) as Hc1. destruct outcome as [outcome|].
  - apply rtx_ret_Ok in Hr as [<- <-]. apply admit_Some in Ha as (_ & _ & _ & row & _ & _ & _ & Ho). simpl in Hfresh.
    unfold stored_outcome in Ho. do 2 (apply bind_Ok in Ho as (? & _ & Ho)). by injection Ho as <-.
  - apply rtx_bind_Ok in Hr as (update & st2 & [Hu <-]%lift_Ok & Hr). apply rtx_bind_Ok in Hr as (prepared & st2 & Hm & Hr).
    apply rtx_bind_Ok in Hr as ([] & st3 & Hc2%store_command_result_counted & Hr). apply rtx_ret_Ok in Hr as [_ <-].
    by exists principal, update, st1, prepared, st2.
Qed.

(** The session that is found is the agent's. *)
Lemma muted_session_is room_id p st r s sid :
  muted_session room_id p st = Ok r -> pt_participant_type p = u "agent" -> owns_participant room_id (pt_participant_id p) st = false ->
  st_sessions st !! (room_id, sid) = Some s -> s_participant_id (d_public s) = pt_participant_id p -> r = Some s.
Proof.
  intros Hm Htype Howner Hs Hid. unfold muted_session in Hm. rewrite Htype, Howner in Hm. simpl in Hm.
  apply fmap_Ok in Hm as (session & Hl & <-). f_equal. unfold load_agent_session_for_participant in Hl.
  apply bind_Ok in Hl as (l & ->%load_room_sessions_Ok & Hl).
  assert (s ∈ filter (fun session => s_participant_id (d_public session) = pt_participant_id p) (room_rows room_id st)) as Hin.
  { apply list_elem_of_filter. split; [done|]. apply elem_of_room_rows. by exists sid. }
  destruct (filter _ _) as [|sole [|? ?]]; [done| |done]. injection Hl as <-. by apply list_elem_of_singleton in Hin.
Qed.

(** ** How a turn ends when nothing interrupts it *)

Inductive ordinary_end (room_id session_id : str) (authority : ProviderTurnAuthority) : rtx AgentTurnCommit -> Prop :=
| EndMessage content target now : ordinary_end room_id session_id authority (complete_message room_id session_id authority content target now)
| EndVote command now : ordinary_end room_id session_id authority (complete_vote room_id session_id authority command now)
| EndDecline reason now : ordinary_end room_id session_id authority (decline room_id session_id authority reason now)
| EndFail code message stop now : ordinary_end room_id session_id authority (fail room_id session_id authority code message stop now).

(** Past the checks of an end, which read. *)
Ltac past_checks Hr :=
  cbv zeta in Hr; repeat (apply rtx_bind_Ok in Hr as (? & ? & [_ <-]%lift_Ok & Hr) || apply rtx_bind_Ok in Hr as (? & ? & [_ <-]%reads_Ok & Hr)
    || match type of Hr with (match ?x with (_, _) => _ end) _ = _ => destruct x end).

Lemma ordinary_end_terminalizes room_id session_id authority op st c st' :
  ordinary_end room_id session_id authority op -> op st = Ok (c, st') ->
  exists session phase st1 t st2, aside st st1 /\ terminalize_ordinary_execution session authority phase st1 = Ok (t, st2).
Proof.
  intros [] Hr.
  - unfold complete_message in Hr. past_checks Hr. apply rtx_bind_Ok in Hr as (t & st2 & Ht & _). by eexists _, _, _, t, st2.
  - unfold complete_vote in Hr. past_checks Hr. apply rtx_bind_Ok in Hr as (vote & st1 & Hv & Hr).
    assert (aside st st1) as Ha.
    { revert Hv. apply (fun Hk : keeps aside _ => Hk st vote st1), (keeps_attempt _), apply_vote_command_aside. }
    destruct vote as [event|error].
    + apply rtx_bind_Ok in Hr as (t & st2 & Ht & _). by eexists _, _, _, t, st2.
    + destruct error; try done. destruct (is_terminal_vote_rejection _); [|done].
      apply rtx_bind_Ok in Hr as (t & st2 & Ht & _). by eexists _, _, _, t, st2.
  - unfold decline in Hr. past_checks Hr. apply rtx_bind_Ok in Hr as (t & st2 & Ht & _). by eexists _, _, _, t, st2.
  - unfold fail in Hr. past_checks Hr. apply rtx_bind_Ok in Hr as (t & st2 & Ht & _). by eexists _, _, _, t, st2.
Qed.

Lemma interrupt_blocks_end room_id session_id authority op st e :
  custody_ok st -> st_effects st !! ta_key authority = Some e -> ordinary_end room_id session_id authority op -> is_ok (op st) = false.
Proof.
  intros Hok He Hend. destruct (op st) as [[c st']|] eqn:Hr; [exfalso|done].
  destruct (ordinary_end_terminalizes _ _ _ _ _ _ _ Hend Hr) as (session & phase & st1 & t & st2 & Ha & Ht).
  assert (custody_ok st1) as Hok1 by (eapply custody_history_ok; [exact Hok|by apply aside_custodial]).
  destruct Ha as [_ Ha]. rewrite <- Ha in He. exact (effect_blocks_end _ _ _ _ _ _ _ Hok1 He Ht).
Qed.

(** *** While the agent is muted *)

Lemma load_session_keys room_id session_id st s : load_session room_id session_id st = Ok s ->
  s_room_id (d_public s) = room_id /\ s_participant_id (d_public s) = session_id.
Proof.
  unfold load_session. intros (x & _ & Hr)%bind_Ok. apply bind_Ok in Hr as (y & _ & Hr). cbv zeta in Hr.
  apply bind_Ok in Hr as ([] & Hk%require_Ok & [= <-]). bool_to_prop. unfold str_eqb in *. by bool_to_prop.
Qed.
Lemma muted_terminalize session authority phase st : is_muted (s_room_id (d_public session)) (s_participant_id (d_public session)) st ->
  is_ok (terminalize_ordinary_execution session authority phase st) = false.
Proof.
  intros (p & Hp & Hm). destruct (terminalize_ordinary_execution _ _ _ _) as [[t st']|] eqn:Hr; [exfalso|done].
  unfold terminalize_ordinary_execution in Hr. cbv zeta in Hr. apply rtx_bind_Ok in Hr as ([] & st1 & [Hk%reject_if_Ok <-]%lift_Ok & Hr).
  apply rtx_bind_Ok in Hr as (q & st1 & [Hq <-]%reads_Ok & Hr). apply rtx_bind_Ok in Hr as ([] & st1 & [Hc%reject_if_Ok <-]%lift_Ok & Hr).
  bool_to_prop. unfold str_eqb in *. bool_to_prop. unfold load_participant in Hq.
  match goal with E : s_room_id _ = ta_room_id _ |- _ => rewrite <- E in Hq end. rewrite Hp in Hq. injection Hq as <-. congruence.
Qed.
Lemma muted_end_refused room_id session_id authority op st :
  is_muted room_id session_id st -> ordinary_end room_id session_id authority op -> is_ok (op st) = false.
Proof.
  intros Hm Hend. destruct (op st) as [[c st']|] eqn:Hr; [exfalso|done].
  assert (forall session phase t st2, load_session room_id session_id st = Ok session ->
    ~ terminalize_ordinary_execution session authority phase st = Ok (t, st2)) as Hno.
  { intros session phase t st2 [Ek Ep]%load_session_keys Ht.
    enough (is_ok (terminalize_ordinary_execution session authority phase st) = false) as E by by rewrite Ht in E.
    apply muted_terminalize. by rewrite Ek, Ep. }
  destruct Hend.
  - unfold complete_message in Hr. cbv zeta in Hr. do 2 (apply rtx_bind_Ok in Hr as (? & ? & [_ <-]%lift_Ok & Hr)).
    apply rtx_bind_Ok in Hr as ([room settings] & ? & [_ <-]%reads_Ok & Hr). apply rtx_bind_Ok in Hr as (s & ? & [Hs <-]%reads_Ok & Hr).
    apply rtx_bind_Ok in Hr as (? & ? & [_ <-]%lift_Ok & Hr). apply rtx_bind_Ok in Hr as (t & st2 & Ht & _). by eapply Hno.
  - unfold complete_vote in Hr. cbv zeta in Hr. do 2 (apply rtx_bind_Ok in Hr as (? & ? & [_ <-]%lift_Ok & Hr)).
    apply rtx_bind_Ok in Hr as ([room settings] & ? & [_ <-]%reads_Ok & Hr). apply rtx_bind_Ok in Hr as (s & ? & [Hs <-]%reads_Ok & Hr).
    apply rtx_bind_Ok in Hr as (? & ? & [_ <-]%lift_Ok & Hr). apply rtx_bind_Ok in Hr as (? & ? & [_ <-]%reads_Ok & Hr).
    apply rtx_bind_Ok in Hr as (s' & ? & [Ht <-]%lift_Ok & Hr). apply rtx_bind_Ok in Hr as (p & ? & [Hp <-]%reads_Ok & Hr).
    apply rtx_bind_Ok in Hr as (principal & ? & [Hprincipal%bind_Ok <-]%lift_Ok & _).
    destruct Hprincipal as ([] & Hc%reject_if_Ok & _). apply load_session_keys in Hs as [Er Ep].
    assert (s_room_id (d_public s') = s_room_id (d_public s) /\ s_participant_id (d_public s') = s_participant_id (d_public s)) as [Er' Ep'].
    { revert Ht. unfold apply_provider_session_transition. case_match; [|by intros [= <-]]. case_match; [done|]. by intros [= <-]. }
    unfold load_participant in Hp. rewrite Er', Ep', Er, Ep in Hp. destruct Hm as (q & Hq & Hm). rewrite Hq in Hp. injection Hp as <-.
    bool_to_prop. congruence.
  - unfold decline in Hr. cbv zeta in Hr. do 2 (apply rtx_bind_Ok in Hr as (? & ? & [_ <-]%lift_Ok & Hr)).
    apply rtx_bind_Ok in Hr as ([room settings] & ? & [_ <-]%reads_Ok & Hr). apply rtx_bind_Ok in Hr as (s & ? & [Hs <-]%reads_Ok & Hr).
    apply rtx_bind_Ok in Hr as (? & ? & [_ <-]%lift_Ok & Hr). apply rtx_bind_Ok in Hr as (t & st2 & Ht & _). by eapply Hno.
  - unfold fail in Hr. cbv zeta in Hr.
    apply rtx_bind_Ok in Hr as ([room settings] & ? & [_ <-]%reads_Ok & Hr). apply rtx_bind_Ok in Hr as (s & ? & [Hs <-]%reads_Ok & Hr).
    apply rtx_bind_Ok in Hr as (? & ? & [_ <-]%lift_Ok & Hr). apply rtx_bind_Ok in Hr as (t & st2 & Ht & _). by eapply Hno.
Qed.

Lemma muted_start_refused room_id session_id generation turn_id st :
  is_muted room_id session_id st -> is_ok (authorize_start_in room_id session_id generation turn_id st) = false.
Proof.
  intros (p & Hp & Hm). destruct (authorize_start_in _ _ _ _ _) as [[a st']|] eqn:Hr; [exfalso|done]. unfold authorize_start_in in Hr.
  apply rtx_bind_Ok in Hr as (s & ? & [[Er Ep]%load_session_keys <-]%reads_Ok & Hr). rewrite Ep in Hr.
  apply rtx_bind_Ok in Hr as (q & ? & [Hq <-]%reads_Ok & Hr). unfold load_participant in Hq. rewrite Hp in Hq. injection Hq as <-.
  apply rtx_bind_Ok in Hr as (active & ? & [Ha <-]%lift_Ok & Hr). apply rtx_bind_Ok in Hr as ([] & ? & [->%require_Ok <-]%lift_Ok & _).
  revert Ha. rewrite Hm, !orb_true_r. done.
Qed.

Lemma prepare_interrupt_calm key x cause : keeps calm (prepare_interrupt_effect key x cause).
Proof.
  unfold prepare_interrupt_effect. do 3 (apply (keeps_bind _); [keeps|intros ?]). apply (keeps_bind _); [|intros ?; keeps].
  apply (keeps_modifies _). intros st. repeat case_match; [done|..|done]. by split.
Qed.

(** A turn that is interrupted already is not interrupted for another cause. *)
Lemma prepare_same_cause key x cause st effect st' e :
  prepare_interrupt_effect key x cause st = Ok (effect, st') -> st_effects st !! key = Some e -> ef_cause e = cause.
Proof.
  intros Hr He. unfold prepare_interrupt_effect in Hr. apply rtx_bind_Ok in Hr as (? & st1 & [_ <-]%lift_Ok & Hr).
  apply rtx_bind_Ok in Hr as (id & st1 & [_ ->]%draw_uuid_Ok & Hr). apply rtx_bind_Ok in Hr as (? & st1 & [_ <-]%lift_Ok & Hr).
  apply rtx_bind_Ok in Hr as ([] & st1 & Hm%modifies_Ok & Hr). simpl in Hm. rewrite He in Hm.
  apply rtx_bind_Ok in Hr as (loaded & st2 & [(e' & y & He' & _ & ->)%load_effect_in_Ok <-]%reads_Ok & Hr).
  apply rtx_bind_Ok in Hr as ([] & st2 & [Hc%require_Ok _]%lift_Ok & _). apply bool_decide_eq_true_1 in Hc.
  rewrite Hm in He'. simpl in *. congruence.
Qed.

(** What a committed mute of an agent leaves of its turn. *)
Lemma muted_turn_interrupted room_id principal now st prepared st' p s sid :
  custody_ok st -> pr_room_id principal = room_id -> prepare_participant_mute principal (MkParticipantMute sid true) now st = Ok (prepared, st') ->
  st_participants st !! (room_id, sid) = Some p -> pt_participant_type p = u "agent" -> owns_participant room_id sid st = false ->
  st_sessions st !! (room_id, sid) = Some s -> s_participant_id (d_public s) = sid -> s_session_id (d_public s) = sid ->
  active_turn_authority s = Ok true ->
  is_muted room_id sid st' /\ interrupted_for ParticipantMuted (room_id, sid, d_turn_generation s) st' /\
  forall e, st_effects st !! (room_id, sid, d_turn_generation s) = Some e -> ef_cause e = ParticipantMuted.
Proof.
  intros Hok Hroom Hr Hp Htype Howner Hs Hpid Hsid Hactive. unfold prepare_participant_mute in Hr. cbv zeta in Hr. simpl in Hr. rewrite Hroom in Hr.
  apply rtx_bind_Ok in Hr as (q & st0 & [Hq <-]%reads_Ok & Hr). unfold load_participant in Hq. rewrite Hp in Hq. injection Hq as <-.
  apply rtx_bind_Ok in Hr as (? & st0 & [Hmember <-]%lift_Ok & Hr). unfold require_target_membership in Hmember.
  apply bind_Ok in Hmember as ([] & Hkey%require_Ok & _). bool_to_prop. unfold str_eqb in *. bool_to_prop.
  apply rtx_bind_Ok in Hr as (found & st0 & [Hfound <-]%reads_Ok & Hr).
  apply (muted_session_is _ _ _ _ s sid) in Hfound as ->; [|congruence..]. 
  apply rtx_bind_Ok in Hr as (event & st1 & He & Hr). apply rtx_bind_Ok in Hr as ([] & st2 & Hsave & Hr).
  apply rtx_bind_Ok in Hr as ([] & st3 & Hi & Hr). apply rtx_bind_Ok in Hr as ([] & st4 & Hc & Hr).
  apply rtx_bind_Ok in Hr as ([scheduling effect] & st5 & Hm & Hr). apply rtx_ret_Ok in Hr as [_ <-].
  assert (st_participants st4 !! (room_id, sid) = Some (p <| pt_muted := true |> <| pt_updated_at := now |>)) as Hp4.
  { assert (st_participants st4 = st_participants st3) as -> by (apply ca_participants; eapply (fun Hk : keeps calm _ => Hk _ _ _ Hc);
      unfold cancel_participant_in, close_all; keeps). apply insert_event_Ok in Hi as [_ ->].
    revert Hsave. unfold save_participant. simpl. destruct (st_participants st1 !! _); [|done]. intros [= <-].
    simpl. replace (room_id, sid) with (pt_room_id p, pt_participant_id p) by congruence. apply lookup_insert_eq. }
  assert (aside st st4) as Ha.
  { etrans; [by eapply muted_event_aside|]. etrans; [by eapply save_participant_aside|]. etrans; [by eapply insert_event_aside|].
    by eapply cancel_participant_aside. }
  unfold mute_session in Hm. cbv zeta in Hm. apply rtx_bind_Ok in Hm as (? & st6 & [_ <-]%lift_Ok & Hm).
  apply rtx_bind_Ok in Hm as (active & st6 & [Hact <-]%lift_Ok & Hm). rewrite Hactive in Hact. injection Hact as <-. simpl in Hm. rewrite Hsid in Hm.
  apply rtx_bind_Ok in Hm as (execution & st6 & [Hx%load_execution_in_Ok <-]%reads_Ok & Hm).
  apply rtx_bind_Ok in Hm as (found & st6 & Hprep & Hm).
  apply rtx_ret_Ok in Hm as [_ <-]. split_and!.
  - exists (p <| pt_muted := true |> <| pt_updated_at := now |>). split; [|done]. 
    by rewrite (ca_participants _ _ (prepare_interrupt_calm _ _ _ _ _ _ Hprep)).
  - eapply prepare_interrupts; [|exact Hx|exact Hprep]. eapply custody_history_ok; [exact Hok|by apply aside_custodial].
  - intros e. rewrite <- (proj2 Ha). by eapply prepare_same_cause.
Qed.

(** *** The one interrupt of a turn *)

Lemma load_session_counted room_id session_id st st' : counted st st' -> load_session room_id session_id st' = load_session room_id session_id st.
Proof. intros ([E _] & _). unfold load_session. by rewrite E. Qed.

(** An interrupt that is not a repeated request: what it found, and what it left. *)
Lemma interrupt_Ok authority request_id payload now st m st' principal sid s :
  execute_agent_interrupt authority request_id payload now st = Ok (m, st') -> authority st = Ok principal ->
  payload_agent_id payload = Ok sid -> load_session (pr_room_id principal) sid st = Ok s ->
  let key := (pr_room_id principal, sid, d_turn_generation s) in
  (co_deduplicated (aim_outcome m) = true /\ aim_host_interrupt_effect m = None /\ aside st st') \/
  (st_effects st !! key = None /\ exists e, st_effects st' !! key = Some e).
Proof.
  intros Hr Ha Hagent Hs. cbv zeta. unfold execute_agent_interrupt in Hr. cbv zeta in Hr.
  apply rtx_bind_Ok in Hr as (principal' & st0 & [Hp <-]%reads_Ok & Hr). rewrite Ha in Hp. injection Hp as <-.
  apply rtx_bind_Ok in Hr as (? & st0 & [_ <-]%lift_Ok & Hr). apply rtx_bind_Ok in Hr as (sid' & st0 & [Hsid <-]%lift_Ok & Hr).
  rewrite Hagent in Hsid. injection Hsid as <-. apply rtx_bind_Ok in Hr as (? & st0 & [_ <-]%reads_Ok & Hr).
  apply rtx_bind_Ok in Hr as (outcome & st1 & Hadmit & Hr). pose proof (admit_counted _ _ _ _ _ _ _ _ Hadmit) as Hc.
  pose proof Hc as (_ & _ & Haside). destruct outcome as [outcome|].
  { apply rtx_ret_Ok in Hr as [<- <-]. left. split_and!; [|done..]. apply admit_Some in Hadmit as (_ & _ & _ & row & _ & _ & _ & Ho).
    unfold stored_outcome in Ho. do 2 (apply bind_Ok in Ho as (? & _ & Ho)). by injection Ho as <-. }
  right. apply rtx_bind_Ok in Hr as ([s' execution] & st2 & [Hl <-]%reads_Ok & Hr). unfold load_interruptible_session in Hl.
  rewrite (load_session_counted _ _ _ _ Hc), Hs in Hl. apply bind_Ok in Hl as (s0 & [= <-] & Hl). cbv zeta in Hl.
  do 3 (apply bind_Ok in Hl as (? & _ & Hl)). apply bind_Ok in Hl as (row & Hrow & Hl). apply bind_Ok in Hl as (found & Hfound & Hl).
  apply bind_Ok in Hl as ([] & Hnone%reject_if_Ok & Hl). apply bind_Ok in Hl as (? & _ & [= <- <-]).
  apply bool_decide_eq_false_1, dec_stable in Hnone as ->. split.
  { unfold load_optional_effect_in in Hfound. apply bind_Ok in Hfound as (? & _ & Hfound).
    destruct (st_effects st1 !! _) eqn:E; [by apply fmap_Ok in Hfound as (? & _ & ?)|]. by rewrite <- (proj2 Haside). }
  apply rtx_bind_Ok in Hr as (effect & st2 & Hprep & Hr).
  assert (aside st2 st') as [_ Ee] by (revert Hr; apply (fun Hk : keeps aside _ => Hk st2 m st'); keeps).
  unfold prepare_interrupt_effect in Hprep. do 7 (apply rtx_bind_Ok in Hprep as (? & ? & _ & Hprep)).
  apply reads_Ok in Hprep as [(e & y & He & _ & _)%load_effect_in_Ok ->]. exists e. by rewrite Ee.
Qed.

(** ** What the room may rely on *)

(** a. *)

(** C9: when an operator has muted an agent that had a turn, the turn is interrupted in the
    same commit; it never ends in the ordinary way any more, also not after the agent is
    unmuted; and as long as the agent is muted it neither starts a turn nor ends one with a
    message, a vote, a decline or a failure. *)
Theorem muted_agent_is_silent (authority : RoomStore -> tx AuthenticatedPrincipal) (request_id : str) (payload : value) (now : instant)
    (st st1 : RoomStore) (m : ParticipantMuteMutation) (principal : AuthenticatedPrincipal) (sid : str) (p : Participant)
    (s : DurableAgentSession) (Hok : custody_ok st)
    (Hmute : execute_participant_mute authority request_id payload now st = Ok (m, st1))
    (Hfresh : co_deduplicated (pmm_outcome m) = false) (Hauthority : authority st = Ok principal)
    (Hupdate : parse_update payload = Ok (MkParticipantMute sid true))
    (Hp : st_participants st !! (pr_room_id principal, sid) = Some p) (Htype : pt_participant_type p = u "agent")
    (Howner : owns_participant (pr_room_id principal) sid st = false)
    (Hs : load_session (pr_room_id principal) sid st = Ok s) (Hactive : active_turn_authority s = Ok true) :
  let room_id := pr_room_id principal in
  let key := (room_id, sid, d_turn_generation s) in
  is_muted room_id sid st1 /\ interrupted_for ParticipantMuted key st1 /\
  (forall st2 turn op, rtc custody_step st1 st2 -> ta_key turn = key -> ordinary_end room_id sid turn op -> is_ok (op st2) = false) /\
  (forall st2, is_muted room_id sid st2 ->
    (forall turn op, ordinary_end room_id sid turn op -> is_ok (op st2) = false) /\
    (forall generation turn_id, is_ok (authorize_start_in room_id sid generation turn_id st2) = false)).
Proof.
  cbv zeta. destruct (mute_Ok _ _ _ _ _ _ _ Hmute Hfresh) as (principal' & update & st0 & prepared & st2 & Ha & Hu & Hbefore & Hprep & Hafter).
  assert (principal' = principal) as -> by congruence. assert (update = MkParticipantMute sid true) as -> by congruence.
  destruct Hbefore as ([Es Ep] & Ec & Hb), Hafter as ([_ Ep'] & _ & Hb'). pose proof (load_session_keys _ _ _ _ Hs) as [_ Hpid].
  apply load_session_Ok in Hs as [Hs Hkey].
  assert (custody_ok st0) as Hok0 by (eapply custody_history_ok; [exact Hok|by apply aside_custodial]).
  destruct (muted_turn_interrupted _ _ _ _ _ _ p s sid Hok0 eq_refl Hprep) as (Hm & Hi & _); try done.
  { by rewrite Ep. } { unfold owns_participant in *. by rewrite Ec. } { by rewrite Es. } { by injection Hkey. }
  assert (is_muted (pr_room_id principal) sid st1) as Hm1 by (unfold is_muted; by rewrite Ep').
  destruct Hb' as [Ex Ee]. destruct Hi as [(e & He & Hcause) Hsettled]. split_and!.
  - done.
  - split; [exists e; by rewrite Ee|]. unfold turn_settled, phases in *. by rewrite Ex, Ee.
  - intros st3 turn op Hsteps Hk Hend. rewrite <- Ee in He.
    assert (custody_ok st1) as Hok1.
    { eapply custody_history_ok; [exact Hok|]. exact (execute_participant_mute_custodial _ _ _ _ _ _ _ Hmute). }
    destruct (custody_effect_kept _ _ _ _ Hok1 Hsteps He) as (e3 & He3 & _). rewrite <- Hk in He3.
    exact (interrupt_blocks_end _ _ _ _ _ _ (custody_history_ok _ _ Hok1 Hsteps) He3 Hend).
  - intros st3 Hm3. split; [|intros; by apply muted_start_refused]. intros turn op Hend. by eapply muted_end_refused.
Qed.

(** b. *)

(** C10: when an operator's interrupt of a turn was accepted, every later one of the same
    turn is answered only as the repetition of a request: it asks nothing of the provider
    and changes nothing of the turn. *)
Theorem one_interrupt_per_turn (authority authority' : RoomStore -> tx AuthenticatedPrincipal) (request_id request_id' : str)
    (payload payload' : value) (now now' : instant) (st st1 st2 st3 : RoomStore) (m m' : AgentInterruptMutation)
    (principal principal' : AuthenticatedPrincipal) (sid : str) (s s' : DurableAgentSession)
    (Hok : custody_ok st) (Hfirst : execute_agent_interrupt authority request_id payload now st = Ok (m, st1))
    (Hfresh : co_deduplicated (aim_outcome m) = false) (Hauthority : authority st = Ok principal)
    (Hagent : payload_agent_id payload = Ok sid) (Hs : load_session (pr_room_id principal) sid st = Ok s)
    (Hhistory : rtc custody_step st1 st2)
    (Hsecond : execute_agent_interrupt authority' request_id' payload' now' st2 = Ok (m', st3))
    (Hauthority' : authority' st2 = Ok principal') (Hroom : pr_room_id principal' = pr_room_id principal)
    (Hagent' : payload_agent_id payload' = Ok sid) (Hs' : load_session (pr_room_id principal) sid st2 = Ok s')
    (Hturn : d_turn_generation s' = d_turn_generation s) :
  co_deduplicated (aim_outcome m') = true /\ aim_host_interrupt_effect m' = None /\
  st_executions st3 = st_executions st2 /\ st_effects st3 = st_effects st2.
Proof.
  destruct (interrupt_Ok _ _ _ _ _ _ _ _ _ _ Hfirst Hauthority Hagent Hs) as [(? & _)|[_ [e He]]]; [congruence|].
  assert (custody_ok st1) as Hok1.
  { eapply custody_history_ok; [exact Hok|]. exact (execute_agent_interrupt_custodial _ _ _ _ _ _ _ Hfirst). }
  destruct (custody_effect_kept _ _ _ _ Hok1 Hhistory He) as (e2 & He2 & _). rewrite <- Hroom in Hs'.
  destruct (interrupt_Ok _ _ _ _ _ _ _ _ _ _ Hsecond Hauthority' Hagent' Hs') as [(? & ? & [])|[Hn _]]; [done|].
  rewrite Hroom, Hturn in Hn. congruence.
Qed.

(** c. *)

(** An agent whose turn has an interrupt for another cause cannot be muted until the
    turn ended: the command is answered only as the repetition of an earlier one. *)
Theorem mute_waits_for_interrupt (authority : RoomStore -> tx AuthenticatedPrincipal) (request_id : str) (payload : value) (now : instant)
    (st : RoomStore) (principal : AuthenticatedPrincipal) (sid : str) (p : Participant)
    (s : DurableAgentSession) (e : ProviderTurnEffect) (Hok : custody_ok st) (Hauthority : authority st = Ok principal)
    (Hupdate : parse_update payload = Ok (MkParticipantMute sid true))
    (Hp : st_participants st !! (pr_room_id principal, sid) = Some p) (Htype : pt_participant_type p = u "agent")
    (Howner : owns_participant (pr_room_id principal) sid st = false)
    (Hs : load_session (pr_room_id principal) sid st = Ok s) (Hactive : active_turn_authority s = Ok true)
    (He : st_effects st !! (pr_room_id principal, sid, d_turn_generation s) = Some e) (Hcause : ef_cause e <> ParticipantMuted) :
  match execute_participant_mute authority request_id payload now st with
  | Ok (m, _) => co_deduplicated (pmm_outcome m) = true
  | Err _ => True
  end.
Proof.
  destruct (execute_participant_mute _ _ _ _ st) as [[m st1]|] eqn:Hmute; [|done].
  destruct (co_deduplicated (pmm_outcome m)) eqn:Hfresh; [done|exfalso].
  destruct (mute_Ok _ _ _ _ _ _ _ Hmute Hfresh) as (principal' & update & st0 & prepared & st2 & Ha & Hu & Hbefore & Hprep & _).
  assert (principal' = principal) as -> by congruence. assert (update = MkParticipantMute sid true) as -> by congruence.
  destruct Hbefore as ([Es Ep] & Ec & Hb). pose proof (load_session_keys _ _ _ _ Hs) as [_ Hpid].
  apply load_session_Ok in Hs as [Hs Hkey].
  assert (custody_ok st0) as Hok0 by (eapply custody_history_ok; [exact Hok|by apply aside_custodial]).
  destruct (muted_turn_interrupted _ _ _ _ _ _ p s sid Hok0 eq_refl Hprep) as (_ & _ & Hsame); try done.
  { by rewrite Ep. } { unfold owns_participant in *. by rewrite Ec. } { by rewrite Es. } { by injection Hkey. }
  apply Hcause, Hsame. by rewrite (proj2 Hb).
Qed.
End muting.

(** ** Concrete inputs *)

#[local] Existing Instances ascii_general_category ascii_uppercase ascii_unicode_case plain_case identity_digest demo_entropy
  demo_persona accept_uuid every_instant no_parent demo_serde no_matches plain_clock.

Definition demo_operator : RoomStore -> tx AuthenticatedPrincipal := fun _ => Ok demo_ann.
Definition demo_mute_payload (muted : bool) : value :=
  VObject [(u "participant_id", VString (u "agent-1")); (u "muted", VBool muted)].
Definition no_outcome : CommandOutcome := MkCommandOutcome VNull (demo_message "m" 1 "m") [] true.
Definition no_mute : ParticipantMuteMutation := MkParticipantMuteMutation no_outcome [] None.
Abbreviation demo_muting := (execute_participant_mute demo_operator (u "mute-1") (demo_mute_payload true) 20) (only parsing).
Definition muted_room : RoomStore := step no_mute demo_muting demo_posted.
Definition demo_mute : ParticipantMuteMutation := value_of no_mute demo_muting demo_posted.

(** The agent answers in a provider session of its own, and is interrupted. *)
Definition demo_busy_agent : DurableAgentSession :=
  let s := default (idle_session "agent-1") (st_sessions demo_posted !! (u "room", u "agent-1")) in
  s <| d_provider_session_id := u "provider-session" |> <| d_public := (d_public s) <| s_provider_session_active := true |> |>.
Definition demo_busy : RoomStore := demo_posted <| st_sessions := <[(u "room", u "agent-1") := demo_busy_agent]> (st_sessions demo_posted) |>.
Definition demo_interrupt_payload : value := VObject [(u "agent_id", VString (u "agent-1"))].
Definition no_interrupt : AgentInterruptMutation := MkAgentInterruptMutation no_outcome None.
Abbreviation demo_interrupting := (execute_agent_interrupt demo_operator (u "stop-1") demo_interrupt_payload) (only parsing).
Definition interrupted_room : RoomStore := step no_interrupt (demo_interrupting 20) demo_busy.
Definition demo_interrupt : AgentInterruptMutation := value_of no_interrupt (demo_interrupting 20) demo_busy.
Definition demo_agent_key : str := u "agent-1".
Definition demo_muted_agent : DurableAgentSession := default (idle_session "agent-1") (st_sessions demo_posted !! (u "room", demo_agent_key)).

Lemma demo_posted_custody : custody_ok demo_posted.
Proof.
  eapply custody_history_ok; [|exact (execute_message_custodial _ _ _ _ _ _ _ _ demo_posted_Ok)].
  by apply fresh_custody_ok; vm_compute.
Qed.
Lemma sessions_aside st sessions : aside st (st <| st_sessions := sessions |>).
Proof. by split. Qed.
Lemma demo_busy_custody : custody_ok demo_busy.
Proof. exact (custody_history_ok _ _ demo_posted_custody (aside_custodial _ _ (sessions_aside demo_posted _))). Qed.
Lemma muted_room_Ok : demo_muting demo_posted = Ok (demo_mute, muted_room).
Proof. unfold demo_mute, muted_room. apply step_Ok. by vm_compute. Qed.
Lemma interrupted_room_Ok : demo_interrupting 20 demo_busy = Ok (demo_interrupt, interrupted_room).
Proof. unfold demo_interrupt, interrupted_room. apply step_Ok. by vm_compute. Qed.
Lemma demo_agent_load : load_session (pr_room_id demo_ann) demo_agent_key demo_posted = Ok demo_muted_agent.
Proof. vm_compute. reflexivity. Qed.
Lemma demo_busy_load : load_session (pr_room_id demo_ann) demo_agent_key demo_busy = Ok demo_busy_agent.
Proof. vm_compute. reflexivity. Qed.

Lemma muted_agent_is_silent_witness :
  is_muted (u "room") demo_agent_key muted_room /\
  interrupted_for ParticipantMuted (u "room", demo_agent_key, d_turn_generation demo_muted_agent) muted_room.
Proof.
  destruct (muted_agent_is_silent demo_operator (u "mute-1") (demo_mute_payload true) 20 demo_posted muted_room demo_mute demo_ann
    demo_agent_key (demo_participant "agent-1" "agent" AgentRole) demo_muted_agent demo_posted_custody muted_room_Ok)
    as (Hm & Hi & _); [by vm_compute|done|by vm_compute..|exact demo_agent_load|by vm_compute|exact (conj Hm Hi)].
Defined.

(** The interrupt is asked for again, under the same request, after the first. *)
Definition demo_interrupted_again : RoomStore := step no_interrupt (demo_interrupting 30) interrupted_room.
Definition demo_interrupt_again : AgentInterruptMutation := value_of no_interrupt (demo_interrupting 30) interrupted_room.
Definition demo_interrupted_agent : DurableAgentSession := default (idle_session "agent-1") (st_sessions interrupted_room !! (u "room", demo_agent_key)).
Lemma demo_interrupted_again_Ok : demo_interrupting 30 interrupted_room = Ok (demo_interrupt_again, demo_interrupted_again).
Proof. unfold demo_interrupt_again, demo_interrupted_again. apply step_Ok. by vm_compute. Qed.
Lemma demo_interrupted_load : load_session (pr_room_id demo_ann) demo_agent_key interrupted_room = Ok demo_interrupted_agent.
Proof. vm_compute. reflexivity. Qed.
Lemma one_interrupt_per_turn_witness :
  co_deduplicated (aim_outcome demo_interrupt_again) = true /\ aim_host_interrupt_effect demo_interrupt_again = None /\
  st_executions demo_interrupted_again = st_executions interrupted_room /\ st_effects demo_interrupted_again = st_effects interrupted_room.
Proof.
  apply (one_interrupt_per_turn demo_operator demo_operator (u "stop-1") (u "stop-1") demo_interrupt_payload demo_interrupt_payload 20 30
    demo_busy interrupted_room interrupted_room demo_interrupted_again demo_interrupt demo_interrupt_again demo_ann demo_ann demo_agent_key
    demo_busy_agent demo_interrupted_agent demo_busy_custody interrupted_room_Ok);
    [by vm_compute|done|by vm_compute|exact demo_busy_load|constructor|exact demo_interrupted_again_Ok|done|done|by vm_compute
    |exact demo_interrupted_load|by vm_compute].
Defined.

Definition no_effect_row : ProviderTurnEffect := MkProviderTurnEffect [] AgentInterrupt EffPrepared [] None [].
Definition demo_interrupt_row : ProviderTurnEffect :=
  default no_effect_row (st_effects interrupted_room !! (u "room", demo_agent_key, d_turn_generation demo_interrupted_agent)).
Lemma demo_interrupt_row_Some :
  st_effects interrupted_room !! (u "room", demo_agent_key, d_turn_generation demo_interrupted_agent) = Some demo_interrupt_row.
Proof. vm_compute. reflexivity. Qed.
Lemma demo_interrupted_custody : custody_ok interrupted_room.
Proof.
  eapply custody_history_ok; [exact demo_busy_custody|]. exact (execute_agent_interrupt_custodial _ _ _ _ _ _ _ interrupted_room_Ok).
Qed.
Lemma mute_waits_for_interrupt_witness :
  is_ok (demo_muting interrupted_room) = false /\
  match demo_muting interrupted_room with
  | Ok (m, _) => co_deduplicated (pmm_outcome m) = true
  | Err _ => True
  end.
Proof.
  split; [by vm_compute|].
  apply (mute_waits_for_interrupt demo_operator (u "mute-1") (demo_mute_payload true) 20 interrupted_room demo_ann demo_agent_key
    (demo_participant "agent-1" "agent" AgentRole) demo_interrupted_agent demo_interrupt_row demo_interrupted_custody eq_refl);
    [by vm_compute|by vm_compute|done|by vm_compute|exact demo_interrupted_load|by vm_compute|exact demo_interrupt_row_Some|by vm_compute].
Defined.
