(* ===== verification/Cleanup.v ===== *)
(** * Removing a runtime (agentsassemble-persistence/src/attendee_cleanup.rs, attendee_stop.rs,
    room_runtime_cleanup.rs, agent_reconciliation.rs, agent_reconciliation_scan.rs)

    The removal of an agent is finished when its runtime is known to be gone: an
    attendee reports the absence of its own runtime, the server observes it of the
    runtimes it owns, which it finds by pages. *)

From Stdlib Require Import String.
From stdpp Require Import gmap sorting.
From S2P Require Import Prelude Text Diagnostic Json Bytes Model Command Vote Projection Settings Store Budget Turn Routing RoomStore.
From S2P Require Import Authority Requests Execution Observation VoteStore Scheduler Completion Calm Messages.
From S2P Require Import Reservations Launch Stop Pause Lifecycle Create Reconcile TurnRecovery.

(** The right to report the end of a runtime, also after the session of the attendee ended. *)
Record AttendeeCleanupAuthorization : Type := MkCleanupAuthorization {
  cl_fingerprint : str;
  cl_room_uid : str;
  cl_key : str * str
}.
Record AttendeeCleanupDelivery : Type := MkCleanupDelivery {
  dl_cleanup_id : str;
  dl_runtime_handle_id : str;
  dl_runtime_owner_id : str;
  dl_runtime_lease_token : str
}.
#[global] Instance AttendeeCleanupDelivery_eq_dec : EqDecision AttendeeCleanupDelivery.
Proof. solve_decision. Defined.
Record AttendeeCleanupReport : Type := MkCleanupReport { rp_request_id : str; rp_stopped : AttendeeCleanupDelivery }.

Definition NIL_UUID : str := u "00000000-0000-0000-0000-000000000000".
Definition CLEANUP_REPORT : str := u "bridge.cleanup.report".
Definition CLEANUP_PAGE_LIMIT : nat := 64.
Definition RECONCILIATION_SCAN_LIMIT : nat := 64.

Definition stale_cleanup : PersistenceError :=
  rejected_tx "external_cleanup_changed" "The exact external cleanup authority is unavailable or changed.".

Definition delivery_value (d : AttendeeCleanupDelivery) : value :=
  VObject [(u "cleanup_id", VString (dl_cleanup_id d)); (u "runtime_handle_id", VString (dl_runtime_handle_id d));
           (u "runtime_owner_id", VString (dl_runtime_owner_id d)); (u "runtime_lease_token", VString (dl_runtime_lease_token d))].
Definition report_value (r : AttendeeCleanupReport) : value :=
  VObject [(u "request_id", VString (rp_request_id r)); (u "stopped", delivery_value (rp_stopped r))].

Definition runtime_identity_unassigned (session : DurableAgentSession) : bool :=
  runtime_unassigned session && negb (s_provider_session_active (d_public session)).

Section cleanup.
Context `{UnicodeGeneralCategory, CharCase, UnicodeCase, Caseless, Sha256, Chrono, Entropy, PersonaLibrary, UuidCrate, ChronoRange,
  AttendeeParent, RequestSerde, RegexCrate, ByteDigest, JsonText, SessionSerde}.

(** ** attendee_cleanup.rs *)

(** [authorize_in] *)
Definition authorize_cleanup_in (fingerprint : str) (st : RoomStore) : tx AttendeeCleanupAuthorization :=
  row ← ok_or (st_invites st !! fingerprint) stale_cleanup;
  let key := (ai_room_id row, ai_participant_id row) in
  session ← load_session key.1 key.2 st;
  room_uid ← attendee_uuid (ai_room_uid row);
  '(room, _) ← load_room_with_settings key.1 st;
  require (str_eqb room_uid (rm_room_uid room) && is_external (d_public session)
           && str_eqb (s_participant_id (d_public session)) key.2
           && str_eqb (s_provider_kind (d_public session)) (ai_provider_kind row)) stale_cleanup ;;
  mret (MkCleanupAuthorization fingerprint room_uid key).

(** [revalidate_in] *)
Definition revalidate_cleanup_in (expected : AttendeeCleanupAuthorization) (st : RoomStore) : tx unit :=
  current ← authorize_cleanup_in (cl_fingerprint expected) st;
  require (bool_decide (cl_key current = cl_key expected) && str_eqb (cl_room_uid current) (cl_room_uid expected)) stale_cleanup.

Definition load_delivery (key : str * str) (st : RoomStore) : tx (option AttendeeCleanupDelivery) :=
  if negb (cleanup_exists key.1 key.2 st) then Ok None
  else
    session ← load_session key.1 key.2 st;
    if runtime_identity_unassigned session then Ok None
    else
      cleanup_id ← ok_or (st_cleanup_ids st !! key) Database;
      cleanup_id ← attendee_uuid cleanup_id;
      mret (Some (MkCleanupDelivery cleanup_id (d_runtime_handle_id session) (d_runtime_owner_id session)
                    (d_runtime_lease_token session))).

Definition load_attendee_cleanup (authority : AttendeeCleanupAuthorization) (st : RoomStore) : tx (option AttendeeCleanupDelivery) :=
  revalidate_cleanup_in authority st ;; load_delivery (cl_key authority) st.

(** attendee_stop.rs: [confirm_in] *)
Definition confirm_stop_in (session : DurableAgentSession) (now : instant) : rtx AgentTurnCommit :=
  let public := d_public session in
  lift (require (bool_decide (d_lifecycle_intent_status session = IntentEffectInflight)) invalid_stop) ;;
  reservation ← reads (fun st => validate_candidate_authority session
                                   (load_pending_reservations (s_room_id public) (s_session_id public) st));
  reservation ← lift (ok_or reservation invalid_stop);
  terminal ← terminalize_confirmed_stop_turn session now;
  let session := touch now (session <| d_lifecycle_intent_status := IntentEffectApplied |>) in
  save_session (session <| d_public := (d_public session) <| s_provider_session_reused := false |> |>) ;;
  outcome ← finalize_stop_in (rc_principal reservation) (rc_request_id reservation) (rc_payload reservation) now;
  mret (MkTurnCommit (match terminal with Some event => [event] | None => [] end ++ co_events outcome) []).

Definition checkpoint_absence (key : str * str) (now : instant) : rtx AgentTurnCommit :=
  session ← reads (load_session key.1 key.2);
  if bool_decide (d_lifecycle_intent_action session = ActionStop) then confirm_stop_in session now
  else
    candidate ← reads (load_active_candidate_in key.1 key.2);
    match candidate with
    | Some candidate => finalize_runtime_gone_in candidate Defer now
    | None =>
        lift (require (lifecycle_intent_is_empty session) stale_cleanup) ;;
        session ← reads (stop_after_confirmed_absence session now);
        save_session session ;;
        detach_participant key.1 key.2 now ;;
        mret (MkTurnCommit [] [])
    end.

Definition record_attendee_cleanup (authority : AttendeeCleanupAuthorization) (report : AttendeeCleanupReport) (now : instant) :
    rtx RoomCommandMutation :=
  let payload := report_value report in
  let hash := canonical_payload_hash payload in
  let request := rp_request_id report in
  let key := cl_key authority in
  lift (reject_if (str_eqb request NIL_UUID) (rejected_tx "bad_request" "A cleanup report UUID is required.")) ;;
  reads (revalidate_cleanup_in authority) ;;
  outcome ← admit_non_lifecycle_command (key.1, key.2, request) CLEANUP_REPORT hash (command_size request CLEANUP_REPORT payload) now;
  match outcome with
  | Some outcome => mret (MkCommandMutation outcome [])
  | None =>
      expected ← reads (load_delivery key);
      expected ← lift (ok_or expected stale_cleanup);
      lift (require (bool_decide (rp_stopped report = expected)) stale_cleanup) ;;
      commit ← checkpoint_absence key now;
      finished ← finish_cleanup_in key.1 key.2 now;
      finished ← lift (ok_or finished stale_cleanup);
      let events := tcm_events commit ++ tcm_events finished in
      event ← lift (ok_or (last events) stale_cleanup);
      let result := VObject [(u "event", serialize_event event); (u "events", VArray (map serialize_event events))] in
      store_command_result (key.1, key.2, request) CLEANUP_REPORT hash result ;;
      mret (MkCommandMutation (MkCommandOutcome result event events false)
              (tcm_next_assignments commit ++ tcm_next_assignments finished))
  end.

(** ** room_runtime_cleanup.rs *)

Definition load_room_runtime_cleanup_turn (key : str * str) (st : RoomStore) : tx (option ProviderTurnReconciliationCandidate) :=
  if negb (cleanup_exists key.1 key.2 st) then Ok None
  else
    candidate ← load_active_candidate_in key.1 key.2 st;
    match candidate with
    | Some candidate =>
        if is_external (d_public (tc_session candidate)) then Ok None
        else require_server_custody (tc_session candidate) ;; mret (Some candidate)
    | None => Ok None
    end.

Definition load_room_runtime_cleanup_candidate (key : str * str) (st : RoomStore) : tx (option RuntimeReconciliationCandidate) :=
  if negb (cleanup_exists key.1 key.2 st) || blocking_execution_exists key.1 key.2 st then Ok None
  else load_candidate key.1 key.2 st.

(** ** Pages

    The keys after the cursor, in the order of their columns, up to a limit; the cursor of the next page is the last key
    of a full one. *)
Definition pair_le (a b : str * str) : Prop := pair_leb a b = true.
#[global] Instance pair_le_dec : RelDecision pair_le.
Proof. intros a b. unfold pair_le. apply _. Defined.
Definition after_pair (cursor : option (str * str)) (k : str * str) : bool :=
  match cursor with Some c => pair_leb c k && negb (bool_decide (c = k)) | None => true end.
Definition page_keys (limit : nat) (cursor : option (str * str)) (keys : list (str * str)) : list (str * str) :=
  take limit (merge_sort pair_le (filter (fun k => after_pair cursor k = true) keys)).
Definition next_cursor (limit : nat) (keys : list (str * str)) : option (str * str) :=
  if bool_decide (length keys = limit) then last keys else None.

Definition load_room_runtime_cleanup_page (cursor : option (str * str)) (st : RoomStore) : list (str * str) * option (str * str) :=
  let keys := page_keys CLEANUP_PAGE_LIMIT cursor (elements (st_cleanups st)) in (keys, next_cursor CLEANUP_PAGE_LIMIT keys).

(** agent_reconciliation.rs: [load_runtime_reconciliation_candidates] *)
Definition reconcilable_sessions (st : RoomStore) : list (str * str) :=
  merge_sort pair_le (filter (fun k : str * str => is_Some (st_rooms st !! k.1) /\ cleanup_exists k.1 k.2 st = false)
    (map fst (map_to_list (st_sessions st)))).
Definition load_runtime_reconciliation_candidates (st : RoomStore) : tx (list RuntimeReconciliationCandidate) :=
  candidates ← traverse (fun k : str * str => load_runtime_reconciliation_candidate k.1 k.2 st) (reconcilable_sessions st);
  Ok (omap (M:=list) id candidates).

(** agent_reconciliation_scan.rs: one row of a page for each pending request. *)
Definition pending_keys (st : RoomStore) : list (str * str) :=
  map (fun e : str * str * str * LifecycleRow => (e.1.1.1, lr_session_id e.2))
    (filter (fun e : str * str * str * LifecycleRow =>
       lr_status e.2 = PENDING /\ is_Some (st_sessions st !! (e.1.1.1, lr_session_id e.2))
       /\ cleanup_exists e.1.1.1 (lr_session_id e.2) st = false
       /\ blocking_execution_exists e.1.1.1 (lr_session_id e.2) st = false) (map_to_list (st_reservations st))).

Definition scanned_candidate (k : str * str) (st : RoomStore) : tx (option RuntimeReconciliationCandidate) :=
  candidate ← load_candidate k.1 k.2 st;
  mret (match candidate with
        | Some candidate =>
            if negb (bool_decide (d_lifecycle_intent_status (rn_session candidate) = IntentNone))
               && bool_decide (is_Some (rn_reservation candidate)) then Some candidate else None
        | None => None
        end).

Definition load_runtime_reconciliation_page (cursor : option (str * str)) (st : RoomStore) :
    tx (list RuntimeReconciliationCandidate * option (str * str)) :=
  let keys := page_keys RECONCILIATION_SCAN_LIMIT cursor (pending_keys st) in
  candidates ← traverse (fun k => scanned_candidate k st) keys;
  mret (omap (M:=list) id candidates, next_cursor RECONCILIATION_SCAN_LIMIT keys).
End cleanup.

(** ** A report follows the machine of Lifecycle.v *)

Section refinement.
Context `{UnicodeGeneralCategory, CharCase, UnicodeCase, Caseless, Sha256, Chrono, Entropy, PersonaLibrary, UuidCrate, ChronoRange,
  AttendeeParent, RequestSerde, RegexCrate, ByteDigest, JsonText, SessionSerde}.
Hypothesis bytes_inj : forall a b, sha256_bytes a = sha256_bytes b -> a = b.

(** Steps on the word of an attendee, or of the server, that a runtime is gone; they add no reservation. *)
Definition reported (st st' : RoomStore) : Prop :=
  lifecycle_ok st -> rtc (view_step Observed) (view st) (view st') /\ lifecycle_ok st' /\
    (forall key, st_reservations st !! key = None -> st_reservations st' !! key = None).
#[export] Instance reported_preorder : PreOrder reported.
Proof.
  split; [by intros st|]. intros a b c Hab Hbc Ha. destruct (Hab Ha) as (Sab & Hb & Rab). destruct (Hbc Hb) as (Sbc & Hc & Rbc).
  split_and!; [by etrans|done|]. eauto.
Qed.

Lemma refined_reported e st st' :
  refined_by e st st' -> e <> Retried -> (forall key, st_reservations st !! key = None -> st_reservations st' !! key = None) -> reported st st'.
Proof.
  intros [Hv Hok'] He Hres Hok. assert (view_step Observed (view st) (view st')) as Hstep.
  { destruct e; [by apply commanded_observed|done|done]. }
  split_and!; [by apply rtc_once|split; [by eapply (view_step_ok bytes_inj); [|apply Hok]|done]|done].
Qed.
Lemma hidden_reported st st' : hidden st st' -> reported st st'.
Proof.
  intros Hh [Hv Hok]. destruct (Hh Hok) as [E Hok']. split_and!; [by rewrite E|split; [by rewrite E|done]|].
  unfold view in E. injection E as _ -> _. done.
Qed.

Lemma confirm_stop_reported s now st c st' :
  confirm_stop_in s now st = Ok (c, st') -> st_sessions st !! session_key s = Some s -> d_lifecycle_intent_action s = ActionStop ->
  reported st st'.
Proof.
  unfold confirm_stop_in. cbv zeta. intros (? & st1 & [Hst%require_Ok%bool_decide_eq_true <-]%lift_Ok & Hr)%rtx_bind_Ok Hs Ha.
  apply rtx_bind_Ok in Hr as (o & st1 & [_ <-]%reads_Ok & Hr). apply rtx_bind_Ok in Hr as (r & st1 & [_ <-]%lift_Ok & Hr).
  apply rtx_bind_Ok in Hr as (e & st1 & Hstill%terminalize_stop_still & Hr).
  apply rtx_bind_Ok in Hr as ([] & st2 & Hsave & Hr). apply rtx_bind_Ok in Hr as (o' & st3 & Hf & Hr). apply rtx_ret_Ok in Hr as [_ <-].
  etrans; [by apply hidden_reported, still_hidden|]. etrans.
  - intros Hok. eapply (refined_reported Commanded); [|done| |exact Hok].
    + eapply (refined_move Commanded st1 st2 st2 s); [apply Hok| | | | |exact Hsave|done]; [by rewrite (si_sessions _ _ Hstill)|done|done|].
      simpl. by rewrite Ha, Hst.
    + by apply save_session_Ok in Hsave as [_ ->].
  - intros Hok. eapply (refined_reported Commanded); [|done| |exact Hok]; [by eapply finalize_in_refined|].
    intros key. by eapply finalize_in_reservations.
Qed.

Lemma checkpoint_reported key now st c st' : checkpoint_absence key now st = Ok (c, st') -> reported st st'.
Proof.
  unfold checkpoint_absence. intros (s & st1 & [[Hs Hkey]%load_session_Ok <-]%reads_Ok & Hr)%rtx_bind_Ok. rewrite <- Hkey in Hs.
  case_bool_decide as Ha; [by eapply confirm_stop_reported|].
  apply rtx_bind_Ok in Hr as (candidate & st1 & [_ <-]%reads_Ok & Hr). destruct candidate as [candidate|].
  - intros Hok. destruct (runtime_gone_refined _ _ _ _ _ _ Hr (proj2 Hok)) as [Href Eres].
    eapply (refined_reported Observed); [exact Href|done| |exact Hok]. by rewrite Eres.
  - apply rtx_bind_Ok in Hr as (? & st1 & [Hempty%require_Ok%intent_empty_iff <-]%lift_Ok & Hr).
    apply rtx_bind_Ok in Hr as (s' & st1 & [[Hk Hi]%absence_Ok <-]%reads_Ok & Hr).
    apply rtx_bind_Ok in Hr as ([] & st1 & Hsave & Hr).
    apply rtx_bind_Ok in Hr as (? & st2 & Hd%detach_participant_settled%settled_hidden & Hr). apply rtx_ret_Ok in Hr as [_ <-].
    apply hidden_reported. etrans; [|exact Hd]. eapply (save_hidden s s'); [by rewrite Hk|by rewrite Hi|exact Hsave].
Qed.

Lemma cleanup_reported authority report now st m st' :
  record_attendee_cleanup authority report now st = Ok (m, st') -> reported st st'.
Proof.
  unfold record_attendee_cleanup. cbv zeta. intros (? & st1 & [_ <-]%lift_Ok & Hr)%rtx_bind_Ok.
  apply rtx_bind_Ok in Hr as (? & st1 & [_ <-]%reads_Ok & Hr). apply rtx_bind_Ok in Hr as (o & st1 & Hadm & Hr).
  destruct o as [o|]; [apply admit_replayed in Hadm as [-> _]; by apply rtx_ret_Ok in Hr as [_ <-]|].
  apply admit_settled in Hadm as [Hn Hset]. apply rtx_bind_Ok in Hr as (expected & st2 & [_ <-]%reads_Ok & Hr).
  apply rtx_bind_Ok in Hr as (d & st2 & [_ <-]%lift_Ok & Hr). apply rtx_bind_Ok in Hr as (? & st2 & [_ <-]%lift_Ok & Hr).
  apply rtx_bind_Ok in Hr as (c & st2 & Hc%checkpoint_reported & Hr).
  apply rtx_bind_Ok in Hr as (fin & st3 & Hfin%finish_cleanup_hidden%hidden_reported & Hr).
  apply rtx_bind_Ok in Hr as (f & st4 & [_ <-]%lift_Ok & Hr). apply rtx_bind_Ok in Hr as (e & st4 & [_ <-]%lift_Ok & Hr).
  apply rtx_bind_Ok in Hr as (? & st4 & Hst & Hr). apply rtx_ret_Ok in Hr as [_ <-].
  assert (reported st st3) as H03.
  { etrans; [by apply hidden_reported, settled_hidden|]. by etrans. }
  intros Hok. destruct (H03 Hok) as (Hsteps & Hok3 & Hres). specialize (Hres _ Hn).
  unfold store_command_result in Hst. apply bind_Ok in Hst as (commands & [_ ->]%insert_row_Ok & [= _ <-]).
  destruct (record_refined bytes_inj Observed ((cl_key authority).1, (cl_key authority).2, rp_request_id report)
    (MkCommandResult CLEANUP_REPORT (canonical_payload_hash (report_value report))
       (VObject [(u "event", serialize_event e); (u "events", VArray (map serialize_event (tcm_events c ++ tcm_events f)))])) st3
    (proj2 Hok3) Hres) as [Hv4 Hok4].
  destruct (H03 Hok) as (_ & _ & Hres3). split_and!; [eapply rtc_r; [exact Hsteps|exact Hv4]| |exact Hres3].
  split; [by eapply (view_step_ok bytes_inj); [exact Hv4|apply Hok3]|exact Hok4].
Qed.

(** What a report says is of the session of the attendee, and of no other. *)
Lemma finalize_in_touches principal request_id payload now agent_id st outcome st' :
  finalize_stop_in principal request_id payload now st = Ok (outcome, st') -> payload_agent_id payload = Ok agent_id ->
  touches (pr_room_id principal, agent_id) st st'.
Proof.
  unfold finalize_stop_in. intros Hr Hpay. rewrite Hpay in Hr. apply rtx_bind_Ok in Hr as (? & st1 & [[= <-] <-]%lift_Ok & Hr). cbv zeta in Hr.
  apply rtx_bind_Ok in Hr as (s & st1 & [[_ Hkey]%load_session_Ok <-]%reads_Ok & Hr).
  apply rtx_bind_Ok in Hr as (? & st1 & [_ <-]%lift_Ok & Hr).
  apply rtx_bind_Ok in Hr as (? & st1 & Hfin%(finish_touches (pr_room_id principal, agent_id)) & Hr).
  apply rtx_bind_Ok in Hr as ([public events] & st2 & (s' & st3 & Hk & _ & Hsave & Hset)%detach_confirmed_Ok & Hr).
  etrans; [exact Hfin|]. etrans; [eapply save_touches; [exact Hsave|by rewrite Hk]|].
  etrans; [by apply settled_touches|]. by eapply store_result_touches.
Qed.
Lemma confirm_stop_touches s now st c st' :
  confirm_stop_in s now st = Ok (c, st') -> d_lifecycle_intent_action s = ActionStop -> touches (session_key s) st st'.
Proof.
  unfold confirm_stop_in. cbv zeta. intros (? & st1 & [_ <-]%lift_Ok & Hr)%rtx_bind_Ok Ha.
  apply rtx_bind_Ok in Hr as (o & st1 & [Hv <-]%reads_Ok & Hr). apply rtx_bind_Ok in Hr as (r & st1 & [->%ok_or_Ok <-]%lift_Ok & Hr).
  destruct (validate_stop_payload _ _ _ Hv Ha) as [Hroom Hpay].
  apply rtx_bind_Ok in Hr as (e & st1 & Hstill%terminalize_stop_still%(still_touches (session_key s)) & Hr).
  apply rtx_bind_Ok in Hr as ([] & st2 & Hsave & Hr). apply rtx_bind_Ok in Hr as (o' & st3 & Hf & Hr). apply rtx_ret_Ok in Hr as [_ <-].
  etrans; [exact Hstill|]. etrans; [by eapply save_touches|].
  assert (session_key s = (pr_room_id (rc_principal r), s_session_id (d_public s))) as -> by (by rewrite Hroom).
  by eapply finalize_in_touches.
Qed.
Lemma checkpoint_touches key now st c st' : checkpoint_absence key now st = Ok (c, st') -> touches key st st'.
Proof.
  unfold checkpoint_absence. intros (s & st1 & [[Hs Hkey]%load_session_Ok <-]%reads_Ok & Hr)%rtx_bind_Ok.
  assert (session_key s = key) as Hk by (by rewrite Hkey; destruct key).
  case_bool_decide as Ha; [rewrite <- Hk; by eapply confirm_stop_touches|].
  apply rtx_bind_Ok in Hr as (candidate & st1 & [Hc <-]%reads_Ok & Hr). destruct candidate as [candidate|].
  - apply active_candidate_key in Hc. apply runtime_gone_touches in Hr. rewrite Hc in Hr. by destruct key.
  - apply rtx_bind_Ok in Hr as (? & st1 & [_ <-]%lift_Ok & Hr). apply rtx_bind_Ok in Hr as (s' & st1 & [[Hk' _]%absence_Ok <-]%reads_Ok & Hr).
    apply rtx_bind_Ok in Hr as ([] & st1 & Hsave & Hr).
    apply rtx_bind_Ok in Hr as (? & st2 & Hd%detach_participant_settled%(settled_touches key) & Hr). apply rtx_ret_Ok in Hr as [_ <-].
    etrans; [|exact Hd]. eapply save_touches; [exact Hsave|congruence].
Qed.
Lemma cleanup_touches authority report now st m st' :
  record_attendee_cleanup authority report now st = Ok (m, st') -> touches (cl_key authority) st st'.
Proof.
  unfold record_attendee_cleanup. cbv zeta. intros (? & st1 & [_ <-]%lift_Ok & Hr)%rtx_bind_Ok.
  apply rtx_bind_Ok in Hr as (? & st1 & [_ <-]%reads_Ok & Hr). apply rtx_bind_Ok in Hr as (o & st1 & Hadm & Hr).
  destruct o as [o|]; [apply admit_replayed in Hadm as [-> _]; by apply rtx_ret_Ok in Hr as [_ <-]|].
  apply admit_settled in Hadm as [_ Hset%(settled_touches (cl_key authority))]. apply rtx_bind_Ok in Hr as (expected & st2 & [_ <-]%reads_Ok & Hr).
  apply rtx_bind_Ok in Hr as (d & st2 & [_ <-]%lift_Ok & Hr). apply rtx_bind_Ok in Hr as (? & st2 & [_ <-]%lift_Ok & Hr).
  apply rtx_bind_Ok in Hr as (c & st2 & Hc%checkpoint_touches & Hr).
  apply rtx_bind_Ok in Hr as (fin & st3 & Hfin%finish_cleanup_hidden%(hidden_touches (cl_key authority)) & Hr).
  apply rtx_bind_Ok in Hr as (f & st4 & [_ <-]%lift_Ok & Hr). apply rtx_bind_Ok in Hr as (e & st4 & [_ <-]%lift_Ok & Hr).
  apply rtx_bind_Ok in Hr as (? & st4 & Hst & Hr). apply rtx_ret_Ok in Hr as [_ <-].
  etrans; [exact Hset|]. etrans; [exact Hc|]. etrans; [exact Hfin|]. unfold store_command_result in Hst.
  apply bind_Ok in Hst as (commands & [_ ->]%insert_row_Ok & [= _ <-]). intros [Hk Hp]. by split.
Qed.
End refinement.
