(* ===== verification/Agents.v ===== *)
(** * Histories of the lifecycle of agents

    The transactions of Launch.v, Stop.v, Pause.v, Create.v, Reconcile.v,
    TurnRecovery.v and Cleanup.v in any order, under servers that come and go, and
    what holds of every such history: an effect outside the store is authorized
    once, or again when its runtime was observed, a session serves one request at a
    time, a stop is only answered when the end of its runtime is known, and what was
    answered or refused stays. *)

From Stdlib Require Import String.
From stdpp Require Import gmap.
From S2P Require Import Prelude Text Diagnostic Json Bytes Model Command Vote Projection Settings Store Budget Turn Routing RoomStore.
From S2P Require Import Authority Requests Execution Observation VoteStore Scheduler Completion Calm Messages.
From S2P Require Import Reservations Launch Stop Pause Lifecycle Create Reconcile TurnRecovery Cleanup.

Section histories.
Context `{UnicodeGeneralCategory, CharCase, UnicodeCase, Caseless, Sha256, Chrono, Entropy, PersonaLibrary, UuidCrate, ChronoRange,
  AttendeeParent, RequestSerde, RegexCrate, ByteDigest, JsonText, PersonaSummaries, SessionSerde}.

(** A committed transaction of a command, or of a server that gives up what it did not begin, or that could not tell
    whether a runtime is gone. [generation] is the server that runs it; the authority is how it resolves the
    principal. Any other operation leaves the requests of the lifecycle alone: new sessions serve none, and answers
    are only given to requests that are not reserved. *)
Inductive lifecycle_step (st st' : RoomStore) : Prop :=
| LsPrepareLaunch generation authority request_id payload action now plan :
    value_wf payload -> asked_by authority request_id st ->
    prepare_agent_launch generation authority request_id payload action now st = Ok (plan, st') -> lifecycle_step st st'
| LsAuthorizeStart generation authority request_id payload operation action handle owner lease effect :
    authorize_agent_start_effect generation authority request_id payload operation action handle owner lease st = Ok (effect, st') ->
    lifecycle_step st st'
| LsCompleteLaunch principal request_id payload operation started action now outcome :
    complete_agent_launch principal request_id payload operation started action now st = Ok (outcome, st') -> lifecycle_step st st'
| LsFailBeforeStart principal request_id payload operation code message action now commit :
    fail_agent_start_before_effect principal request_id payload operation code message action now st = Ok (commit, st') ->
    lifecycle_step st st'
| LsFailLaunch principal request_id payload operation code message action now commit :
    fail_agent_launch principal request_id payload operation code message action now st = Ok (commit, st') -> lifecycle_step st st'
| LsStartUnconfirmed principal agent_id operation handle owner code message now events :
    mark_agent_start_unconfirmed principal agent_id operation handle owner code message now st = Ok (events, st') ->
    lifecycle_step st st'
| LsPrepareStop generation authority request_id payload now plan :
    asked_by authority request_id st ->
    prepare_agent_stop generation authority request_id payload now st = Ok (plan, st') -> lifecycle_step st st'
| LsAuthorizeStop generation authority request_id payload operation now effect :
    authorize_agent_stop_effect generation authority request_id payload operation now st = Ok (effect, st') -> lifecycle_step st st'
| LsFailBeforeStop principal request_id payload operation code message now events :
    fail_agent_stop_before_effect principal request_id payload operation code message now st = Ok (events, st') -> lifecycle_step st st'
| LsRecordStop room_id session_id operation now t :
    record_agent_stop_effect room_id session_id operation now st = Ok (t, st') -> lifecycle_step st st'
| LsStopUnconfirmed principal agent_id operation code message now events :
    mark_agent_stop_unconfirmed principal agent_id operation code message now st = Ok (events, st') -> lifecycle_step st st'
| LsFinalizeStop principal request_id payload now mutation :
    finalize_agent_stop principal request_id payload now st = Ok (mutation, st') -> lifecycle_step st st'
| LsFinishCleanup room_id session_id now commit :
    finish_cleanup_in room_id session_id now st = Ok (commit, st') -> lifecycle_step st st'
| LsPause authority request_id payload runtime now outcome :
    execute_agent_pause authority request_id payload runtime now st = Ok (outcome, st') -> lifecycle_step st st'
| LsResume authority request_id payload runtime now outcome :
    resume_paused_agent authority request_id payload runtime now st = Ok (Some outcome, st') -> lifecycle_step st st'
| LsCreate authorized authority request_id payload draft now outcome :
    execute_agent_create authorized authority request_id payload draft now st = Ok (outcome, st') -> lifecycle_step st st'
| LsPrepareCreate generation authorized authority request_id payload draft now plan :
    asked_by authority request_id st ->
    prepare_agent_create_start generation authorized authority request_id payload draft now st = Ok (plan, st') -> lifecycle_step st st'
| LsAuthorizeCreate generation authority request_id payload operation handle owner lease effect :
    authorize_agent_create_start_effect generation authority request_id payload operation handle owner lease st = Ok (effect, st') ->
    lifecycle_step st st'
| LsCompleteCreate principal request_id payload operation started now commit :
    complete_agent_create_start principal request_id payload operation started now st = Ok (commit, st') -> lifecycle_step st st'
| LsFailCreate principal request_id payload effect code message now commit :
    fail_agent_create_start principal request_id payload effect code message now st = Ok (commit, st') -> lifecycle_step st st'
| LsFailBeforeCreate principal request_id payload effect code message now commit :
    fail_agent_create_start_before_effect principal request_id payload effect code message now st = Ok (commit, st') ->
    lifecycle_step st st'
| LsAbandon candidate now t :
    reject_abandoned_lifecycle_before_effect candidate now st = Ok (t, st') -> lifecycle_step st st'
| LsReconcile candidate observation progression now l :
    is_gone observation = false ->
    apply_reconciliation candidate observation progression now st = Ok (l, st') -> lifecycle_step st st'
| LsIdleFailure candidate now t :
    record_idle_runtime_failure candidate now st = Ok (t, st') -> lifecycle_step st st'
| LsOther :
    store_ok st' ->
    (forall k s, st_sessions st !! k = Some s -> exists s', st_sessions st' !! k = Some s' /\ intent_of s' = intent_of s) ->
    (forall k s', st_sessions st' !! k = Some s' -> st_sessions st !! k = None -> intent_of s' = no_intent) ->
    st_reservations st' = st_reservations st -> dom (st_commands st) ⊆ dom (st_commands st') ->
    (forall key, st_commands st !! key = None -> st_commands st' !! key <> None -> st_reservations st !! key = None) ->
    lifecycle_step st st'.

Lemma other_refined st st' :
  store_ok st' ->
  (forall k s, st_sessions st !! k = Some s -> exists s', st_sessions st' !! k = Some s' /\ intent_of s' = intent_of s) ->
  (forall k s', st_sessions st' !! k = Some s' -> st_sessions st !! k = None -> intent_of s' = no_intent) ->
  st_reservations st' = st_reservations st -> dom (st_commands st) ⊆ dom (st_commands st') ->
  (forall key, st_commands st !! key = None -> st_commands st' !! key <> None -> st_reservations st !! key = None) ->
  refined st st'.
Proof.
  intros Hok Hold Hnew Hres Hsub Hfresh. split; [|done]. apply VwOther; simpl; try done.
  - intros k i. rewrite !lookup_fmap. destruct (st_sessions st !! k) as [s|] eqn:Hs; [|done]. intros [= <-].
    destruct (Hold k s Hs) as (s' & -> & E). simpl. by rewrite E.
  - intros k i. rewrite !lookup_fmap. destruct (st_sessions st' !! k) as [s'|] eqn:Hs; [|done]. intros [= <-] Hn.
    apply fmap_None in Hn. by eapply Hnew.
  - intros key Hin Hn. apply elem_of_dom in Hin as [c Hc]. apply not_elem_of_dom in Hn. apply Hfresh; [done|by rewrite Hc].
Qed.

(** What a view does not see. *)
Lemma same_view_other st st' : view st' = view st -> store_ok st' -> lifecycle_step st st'.
Proof.
  intros Hv Hok. pose proof (f_equal vw_intents Hv) as Hi. pose proof (f_equal vw_reservations Hv) as Hr.
  pose proof (f_equal vw_commands Hv) as Hc. simpl in *. apply LsOther; [done| | |done|by rewrite Hc|].
  - intros k s Hs. apply (f_equal (.!! k)) in Hi. rewrite !lookup_fmap, Hs in Hi. simpl in Hi.
    destruct (st_sessions st' !! k) as [s'|]; [|done]. exists s'. split; [done|by apply (inj Some) in Hi].
  - intros k s' Hs Hn. apply (f_equal (.!! k)) in Hi. by rewrite !lookup_fmap, Hs, Hn in Hi.
  - intros key Hn Hsome. exfalso. apply Hsome, not_elem_of_dom. rewrite Hc. by apply not_elem_of_dom.
Qed.
Lemma hidden_step st st' : hidden st st' -> store_ok st -> lifecycle_step st st'.
Proof. intros Hh Hok. destruct (Hh Hok). by apply same_view_other. Qed.

Hypothesis bytes_inj : forall a b, sha256_bytes a = sha256_bytes b -> a = b.
Hypothesis digest_inj : forall a b, sha256_hex a = sha256_hex b -> a = b.

Lemma step_refined st st' : lifecycle_step st st' -> lifecycle_ok st -> refined st st'.
Proof.
  intros Hstep Hok. destruct Hstep.
  - by eapply prepare_launch_refined.
  - by eapply authorize_start_refined.
  - by eapply complete_refined.
  - match goal with Hr : fail_agent_start_before_effect _ _ _ _ _ _ _ _ _ = _ |- _ => unfold fail_agent_start_before_effect in Hr;
      apply rtx_bind_Ok in Hr as ([agent_id start] & st1 & [_ <-]%lift_Ok & Hr) end. by eapply (fail_launch_refined _ _ _ _ _ _ _ _ _ _ IntentPrepared).
  - match goal with Hr : fail_agent_launch _ _ _ _ _ _ _ _ _ = _ |- _ => unfold fail_agent_launch in Hr;
      apply rtx_bind_Ok in Hr as ([agent_id start] & st1 & [_ <-]%lift_Ok & Hr) end. by eapply (fail_launch_refined _ _ _ _ _ _ _ _ _ _ IntentEffectInflight).
  - by eapply start_unconfirmed_refined.
  - by eapply prepare_stop_refined.
  - by eapply authorize_stop_refined.
  - by eapply fail_stop_refined.
  - by eapply record_stop_refined.
  - by eapply stop_unconfirmed_refined.
  - by eapply finalize_refined.
  - by eapply finish_cleanup_refined.
  - by eapply pause_refined.
  - by eapply resume_refined.
  - by eapply execute_create_refined.
  - by eapply prepare_create_refined.
  - by eapply authorize_create_refined.
  - by eapply complete_create_refined.
  - match goal with Hr : fail_agent_create_start _ _ _ _ _ _ _ _ = _ |- _ => unfold fail_agent_create_start in Hr end.
    by eapply (fail_launch_refined _ _ _ _ _ _ _ _ _ _ IntentEffectInflight).
  - match goal with Hr : fail_agent_create_start_before_effect _ _ _ _ _ _ _ _ = _ |- _ => unfold fail_agent_create_start_before_effect in Hr end.
    by eapply (fail_launch_refined _ _ _ _ _ _ _ _ _ _ IntentPrepared).
  - by eapply abandoned_refined.
  - match goal with Hg : is_gone _ = false, Hr : apply_reconciliation _ _ _ _ _ = _ |- _ =>
      apply reconciliation_refined in Hr; [|exact Hok]; unfold absence in Hr; by rewrite Hg in Hr end.
  - by eapply idle_failure_refined.
  - by apply other_refined.
Qed.

(** The runtime of a session is found gone: by the server that owns it, or by the attendee that ran it. *)
Inductive absence_step (st st' : RoomStore) : Prop :=
| AbReconcile candidate progression now l :
    apply_reconciliation candidate Gone progression now st = Ok (l, st') -> absence_step st st'
| AbLive generation candidate now outcome :
    apply_live_reconciliation generation candidate Gone now st = Ok (outcome, st') -> absence_step st st'
| AbRuntimeGone candidate progression now commit :
    finalize_runtime_gone_in candidate progression now st = Ok (commit, st') -> absence_step st st'
| AbReport authority report now mutation :
    record_attendee_cleanup authority report now st = Ok (mutation, st') -> absence_step st st'.

(** The same, of the runtime of one session. *)
Inductive absence_of (k : str * str) (st st' : RoomStore) : Prop :=
| AoReconcile candidate progression now l :
    session_key (rn_session candidate) = k ->
    apply_reconciliation candidate Gone progression now st = Ok (l, st') -> absence_of k st st'
| AoLive generation candidate now outcome :
    session_key (rn_session candidate) = k ->
    apply_live_reconciliation generation candidate Gone now st = Ok (outcome, st') -> absence_of k st st'
| AoRuntimeGone candidate progression now commit :
    (tc_key candidate).1 = k ->
    finalize_runtime_gone_in candidate progression now st = Ok (commit, st') -> absence_of k st st'
| AoReport authority report now mutation :
    cl_key authority = k ->
    record_attendee_cleanup authority report now st = Ok (mutation, st') -> absence_of k st st'.
Lemma absence_session st st' : absence_step st st' -> exists k, absence_of k st st' /\ touches k st st'.
Proof.
  intros [c p now l Hr|g c now o Hr|c p now k Hr|a r now m Hr]; eexists; split.
  - by eapply AoReconcile.
  - by eapply reconciliation_touches.
  - by eapply AoLive.
  - by eapply live_touches.
  - by eapply AoRuntimeGone.
  - by eapply runtime_gone_touches.
  - by eapply AoReport.
  - by eapply cleanup_touches.
Qed.

Inductive history_step (st st' : RoomStore) : Prop :=
| HsCommand : lifecycle_step st st' -> history_step st st'
| HsAbsence : absence_step st st' -> history_step st st'
| HsLive generation candidate observation now outcome :
    is_gone observation = false ->
    apply_live_reconciliation generation candidate observation now st = Ok (outcome, st') -> history_step st st'.

(** A live observation of the runtime of an operation asked for its start again. *)
Definition observed_again (operation : str) (st st' : RoomStore) : Prop :=
  exists generation candidate observation now,
    apply_live_reconciliation generation candidate observation now st = Ok (RetryOriginalEffect, st') /\
    (observation = Gone \/ exists h p o k, observation = Adopted h p o k) /\
    intent_of (rn_session candidate) = MkIntent ActionStart operation (d_lifecycle_intent_status (rn_session candidate)).

(** The same, as the machine sees it. *)
Definition retry_step (st st' : RoomStore) : Prop :=
  exists generation candidate observation now,
    apply_live_reconciliation generation candidate observation now st = Ok (RetryOriginalEffect, st') /\
    refined_by Retried st st' /\ retried_start candidate observation st st'.

Lemma live_cases generation candidate observation now st outcome st' :
  apply_live_reconciliation generation candidate observation now st = Ok (outcome, st') -> lifecycle_ok st ->
  refined_by (absence observation) st st' \/ retry_step st st'.
Proof.
  intros Hr Hok. destruct (live_refined _ _ _ _ _ _ _ Hr Hok) as [?|(Href & -> & Hs)]; [by left|right].
  by exists generation, candidate, observation, now.
Qed.

(** What a step that asks for nothing again is to the machine. *)
Definition steps_by (e : Evidence) (st st' : RoomStore) : Prop := rtc (view_step e) (view st) (view st') /\ lifecycle_ok st'.

Lemma refined_steps e st st' : lifecycle_ok st -> refined_by e st st' -> steps_by e st st'.
Proof.
  intros Hok [Hv Hst]. split; [by apply rtc_once|]. split; [by eapply (view_step_ok bytes_inj); [exact Hv|apply Hok]|done].
Qed.

Lemma history_cases st st' :
  history_step st st' -> lifecycle_ok st ->
  refined st st' \/ absence_step st st' /\ steps_by Observed st st' \/ retry_step st st'.
Proof.
  intros [Hs|Hs|generation c o now outcome Hg Hr] Hok.
  - left. by apply step_refined.
  - pose proof Hs as Habs. destruct Hs as [c p now l Hr|g c now o Hr|c p now k Hr|a r now m Hr].
    + right; left. split; [done|]. apply refined_steps; [done|]. by apply reconciliation_refined in Hr.
    + right. destruct (live_cases _ _ _ _ _ _ _ Hr Hok); [left|by right]. split; [done|]. by apply refined_steps.
    + right; left. split; [done|]. apply refined_steps; [done|]. by apply runtime_gone_refined in Hr as [? _]; [|apply Hok].
    + right; left. split; [done|]. by destruct (cleanup_reported bytes_inj _ _ _ _ _ _ Hr Hok) as (? & ? & _).
  - destruct (live_cases _ _ _ _ _ _ _ Hr Hok) as [Hl|]; [left|by right; right].
    unfold absence in Hl. by rewrite Hg in Hl.
Qed.

Lemma step_lifecycle_ok st st' : history_step st st' -> lifecycle_ok st -> lifecycle_ok st'.
Proof.
  intros Hstep Hok. destruct (history_cases _ _ Hstep Hok) as [Href|[[_ [_ ?]]|(g & c & o & n & _ & Href & _)]]; [|done|];
    by eapply refined_steps.
Qed.
Lemma steps_lifecycle_ok st st' : rtc history_step st st' -> lifecycle_ok st -> lifecycle_ok st'.
Proof. induction 1 as [|a b c Hab _ IH]; [done|]. intros Hok. by apply IH, (step_lifecycle_ok a). Qed.

(** The phases a request goes through in one transaction. *)
Lemma steps_phase e v v' key :
  rtc (view_step e) v v' -> view_ok v -> rtc (phase_step e) (phase key v) (phase key v') /\ view_ok v'.
Proof.
  induction 1 as [|a b c Hab _ IH]; [done|]. intros Hok. destruct IH as [IH Hc]; [by eapply view_step_ok|]. split; [|done].
  destruct (view_step_phase bytes_inj e a b key Hok Hab) as [E|Hp]; [by rewrite <- E|by eapply rtc_l].
Qed.
Lemma phase_steps_rank e p p' : rtc (phase_step e) p p' -> e <> Retried -> p = p' \/ (phase_rank p < phase_rank p')%nat.
Proof.
  intros Hs He. induction Hs as [|a b c Hab _ [<-|IH]]; [by left|..]; right;
    destruct (phase_step_rank e _ _ Hab) as [?|[? _]]; done || lia.
Qed.

(** The row of a request, and what it asked for, until it is answered. *)
Definition asked_for (key : request_key) (action : str) (v : LifecycleView) : Prop :=
  (exists row, vw_reservations v !! key = Some row /\ lr_action row = action) \/ key ∈ vw_commands v.
Lemma asked_for_step e key action v v' : view_step e v v' -> asked_for key action v -> asked_for key action v'.
Proof.
  intros Hstep [(row & Hr & Ha)|Hin]; [|right].
  - destruct Hstep as [key0 row0 status _ _ _ Hnone|k i status|key0 row0 i|key0 row0 i code message Hr0|v' _ _ Hres]; simpl.
    + left. exists row. simpl. rewrite lookup_insert_ne; [done|congruence].
    + left. by exists row.
    + destruct (decide (key = key0)) as [->|]; [right; set_solver|left; exists row]. simpl. by rewrite lookup_delete_ne.
    + left. destruct (decide (key = key0)) as [->|]; [|exists row; simpl; by rewrite lookup_insert_ne].
      exists (rejected_row code message row0). simpl. rewrite lookup_insert_eq. split; [done|]. simpl. congruence.
    + left. exists row. by rewrite Hres.
  - destruct Hstep as [| | | |v' _ _ _ Hsub]; simpl; set_solver.
Qed.
Lemma asked_for_steps e key action v v' : rtc (view_step e) v v' -> asked_for key action v -> asked_for key action v'.
Proof. induction 1 as [|a b c Hab _ IH]; [done|]. intros Ha. by eapply IH, asked_for_step. Qed.

(** *** Where a request is when its effect is authorized *)

Lemma owned_pending generation r row : owned_reservation generation r row = true -> reservation_pending r row = true.
Proof. unfold owned_reservation. by intros [? _]%andb_true_iff. Qed.

Lemma require_owned_Ok generation r missing not_owned st t :
  require_owned_reservation generation r missing not_owned st = Ok t ->
  exists row, st_reservations st !! reservation_key r = Some row /\ reservation_pending r row = true.
Proof.
  unfold require_owned_reservation, load_lifecycle_reservation. intros (row & Hr%ok_or_Ok & Ho%require_Ok)%bind_Ok.
  exists row. split; [done|]. by eapply owned_pending.
Qed.

(** The effect of an operation is authorized, to start or to stop a runtime. *)
Definition authorizes_start (operation : str) (st st' : RoomStore) : Prop :=
  (exists generation authority request_id payload action handle owner lease effect,
     authorize_agent_start_effect generation authority request_id payload operation action handle owner lease st = Ok (effect, st')) \/
  (exists generation authority request_id payload handle owner lease effect,
     authorize_agent_create_start_effect generation authority request_id payload operation handle owner lease st = Ok (effect, st')).
Definition authorizes_stop (operation : str) (st st' : RoomStore) : Prop :=
  exists generation authority request_id payload now effect,
    authorize_agent_stop_effect generation authority request_id payload operation now st = Ok (effect, st').
Definition authorizes (operation : str) (st st' : RoomStore) : Prop :=
  authorizes_start operation st st' \/ authorizes_stop operation st st'.

Lemma authorizes_step operation st st' : authorizes operation st st' -> history_step st st'.
Proof.
  intros [[(generation & authority & request_id & payload & action & h & o & l & e & Hr)|
           (generation & authority & request_id & payload & h & o & l & e & Hr)]|
          (generation & authority & request_id & payload & now & e & Hr)]; apply HsCommand;
    [by eapply LsAuthorizeStart|by eapply LsAuthorizeCreate|by eapply LsAuthorizeStop].
Qed.

(** The row that authorizes it, and the session before and after. *)
Lemma moved_phase st st1 st' key row s s' a op :
  view_ok (view st) -> st_reservations st !! key = Some row -> lr_status row = PENDING -> row_session key row = session_key s' ->
  st_sessions st !! session_key s' = Some s -> intent_of s = MkIntent a op IntentPrepared ->
  intent_of s' = MkIntent a op IntentEffectInflight -> save_session s' st = Ok (tt, st1) -> settled st1 st' ->
  phase key (view st) = RequestUnderWay a IntentPrepared /\ phase key (view st') = RequestUnderWay a IntentEffectInflight /\
  asked_for key (lr_action row) (view st').
Proof.
  intros Hv Hr Hp Hses Hs Hi Hi' [_ ->]%save_session_Ok Hset. split_and!.
  - erewrite phase_pending; [|exact Hr|exact Hp|rewrite Hses; by eapply view_lookup]. by rewrite Hi.
  - rewrite (settled_view _ _ Hset). erewrite phase_pending; [|exact Hr|exact Hp|].
    2:{ rewrite Hses. eapply view_lookup. simpl. apply lookup_insert_eq. }
    by rewrite Hi'.
  - left. exists row. by rewrite (settled_view _ _ Hset).
Qed.

(** The request an operation is authorized for. *)
Definition authorized_request (operation : str) (a : AgentLifecycleAction) (st st' : RoomStore) : Prop :=
  exists key action, key_ok key /\ field_ok action /\ operation = key_operation key action /\
    phase key (view st) = RequestUnderWay a IntentPrepared /\ phase key (view st') = RequestUnderWay a IntentEffectInflight /\
    asked_for key action (view st').

Lemma authorized_start_request operation st st' :
  authorizes_start operation st st' -> lifecycle_ok st -> authorized_request operation ActionStart st st'.
Proof.
  intros [(generation & authority & request_id & payload & action & h & o & l & e & Hr)|
          (generation & authority & request_id & payload & h & o & l & e & Hr)] [Hv Hok].
  - unfold authorize_agent_start_effect in Hr. apply rtx_bind_Ok in Hr as (principal & st1 & [_ <-]%reads_Ok & Hr).
    apply rtx_bind_Ok in Hr as ([agent_id start] & st1 & [_ <-]%lift_Ok & Hr). cbv zeta in Hr.
    apply rtx_bind_Ok in Hr as (? & st1 & [Hop%require_Ok <-]%lift_Ok & Hr). unfold str_eqb in Hop. apply bool_decide_eq_true in Hop.
    apply rtx_bind_Ok in Hr as (? & st1 & [_ <-]%reads_Ok & Hr).
    apply rtx_bind_Ok in Hr as (? & st1 & [(row & Hrow & Hp)%require_owned_Ok <-]%reads_Ok & Hr).
    apply rtx_bind_Ok in Hr as (s & st1 & [Hl%load_launch_Ok <-]%reads_Ok & Hr). destruct Hl as (Hs & Hkey & _).
    destruct (pending_row _ _ _ _ Hv Hrow Hp Hs) as (Hpend & Hses & _ & Ha & _).
    apply rtx_bind_Ok in Hr as (s' & st1 & [(Hk' & Hi & Hi')%start_effect_intent <-]%lift_Ok & Hr).
    apply rtx_bind_Ok in Hr as ([] & st1 & Hsave & Hr). apply rtx_ret_Ok in Hr as [_ <-].
    destruct (vo_row _ Hv _ _ Hrow) as (Hko & Hact & _). simpl in Ha. rewrite Ha in Hact.
    eexists (command_key principal request_id), action. split; [done|]. split; [done|]. split; [done|]. rewrite <- Ha.
    eapply (moved_phase st st1 st1 _ row s s'); [done|exact Hrow|done| | |exact Hi|exact Hi'|exact Hsave|done]; by rewrite Hk', Hkey.
  - unfold authorize_agent_create_start_effect in Hr. apply rtx_bind_Ok in Hr as (principal & st1 & [_ <-]%reads_Ok & Hr).
    apply rtx_bind_Ok in Hr as (? & st1 & [_ <-]%lift_Ok & Hr). cbv zeta in Hr.
    apply rtx_bind_Ok in Hr as (? & st1 & [Hop%require_Ok <-]%lift_Ok & Hr). unfold str_eqb in Hop. apply bool_decide_eq_true in Hop.
    apply rtx_bind_Ok in Hr as (? & st1 & [_ <-]%reads_Ok & Hr).
    apply rtx_bind_Ok in Hr as (row & st1 & [(Hrow & Ha & Hpend)%required_reservation_Ok <-]%reads_Ok & Hr).
    apply rtx_bind_Ok in Hr as (? & st1 & [_ <-]%lift_Ok & Hr). apply rtx_bind_Ok in Hr as (v & st1 & [_ <-]%lift_Ok & Hr).
    apply rtx_bind_Ok in Hr as (? & st1 & [_ <-]%lift_Ok & Hr).
    apply rtx_bind_Ok in Hr as (s & st1 & [Hl%load_launch_Ok <-]%reads_Ok & Hr). destruct Hl as (Hs & Hkey & _).
    apply rtx_bind_Ok in Hr as (s' & st1 & [(Hk' & Hi & Hi')%start_effect_intent <-]%lift_Ok & Hr).
    apply rtx_bind_Ok in Hr as ([] & st1 & Hsave & Hr). apply rtx_ret_Ok in Hr as [_ <-].
    destruct (vo_row _ Hv _ _ Hrow) as (Hko & Hact & _). rewrite Ha in Hact.
    eexists (command_key principal request_id), CREATE. split; [done|]. split; [done|]. split; [done|]. rewrite <- Ha.
    eapply (moved_phase st st1 st1 _ row s s'); [done|exact Hrow|done| | |exact Hi|exact Hi'|exact Hsave|done]; by rewrite Hk', Hkey.
Qed.

Lemma authorized_stop_request operation st st' :
  authorizes_stop operation st st' -> lifecycle_ok st -> authorized_request operation ActionStop st st'.
Proof.
  intros (generation & authority & request_id & payload & now & e & Hr) [Hv Hok].
  unfold authorize_agent_stop_effect in Hr. apply rtx_bind_Ok in Hr as (principal & st1 & [_ <-]%reads_Ok & Hr).
  apply rtx_bind_Ok in Hr as (agent_id & st1 & [_ <-]%lift_Ok & Hr). cbv zeta in Hr.
  apply rtx_bind_Ok in Hr as (? & st1 & [Hop%require_Ok <-]%lift_Ok & Hr). unfold str_eqb in Hop. apply bool_decide_eq_true in Hop.
  apply rtx_bind_Ok in Hr as (? & st1 & [_ <-]%reads_Ok & Hr).
  apply rtx_bind_Ok in Hr as (? & st1 & [(row & Hrow & Hp)%require_owned_Ok <-]%reads_Ok & Hr).
  apply rtx_bind_Ok in Hr as (s & st1 & [Hl%load_session_Ok <-]%reads_Ok & Hr). destruct Hl as (Hs & Hkey).
  destruct (pending_row _ _ _ _ Hv Hrow Hp Hs) as (Hpend & Hses & _ & Ha & _).
  apply rtx_bind_Ok in Hr as (? & st1 & [Hi%require_intent_Ok <-]%lift_Ok & Hr).
  apply rtx_bind_Ok in Hr as (effect & st1 & [_ <-]%lift_Ok & Hr). apply rtx_bind_Ok in Hr as ([] & st1 & Hsave & Hr).
  apply rtx_ret_Ok in Hr as [_ <-]. destruct (vo_row _ Hv _ _ Hrow) as (Hko & Hact & _). simpl in Ha. rewrite Ha in Hact.
  eexists (command_key principal request_id), STOP. split; [done|]. split; [done|]. split; [done|]. rewrite <- Ha.
  eapply (moved_phase st st1 st1 _ row s); [done|exact Hrow|done| | |exact Hi| |exact Hsave|done];
    [by etrans; [exact Hses|symmetry; exact Hkey]|by eapply keyed|by unfold intent_of in *; simpl; injection Hi as -> ->].
Qed.

Lemma authorizes_request operation st st' :
  authorizes operation st st' -> lifecycle_ok st -> exists a, authorized_request operation a st st'.
Proof.
  intros [Ha|Ha] Hok; [exists ActionStart; by apply authorized_start_request|exists ActionStop; by apply authorized_stop_request].
Qed.

(** *** What comes after an effect was authorized *)

(** The one request whose phase a retry changes is the start of the session that was observed. *)
Lemma retried_phase key st st' : lifecycle_ok st -> retry_step st st' ->
  phase key (view st') = phase key (view st) \/
  exists row, st_reservations st !! key = Some row /\ observed_again (key_operation key (lr_action row)) st st' /\
    starts_again (phase key (view st)) (phase key (view st')).
Proof.
  intros [Hv Hok] (g & c & o & now & Hr & _ & [Hs Honly Hres Hcmd [Ha Hst] Hafter Hobs]).
  assert (Hsame : (forall row, st_reservations st !! key = Some row -> lr_status row = PENDING ->
    row_session key row <> session_key (rn_session c)) -> phase key (view st') = phase key (view st)).
  { intros Hne. apply phase_other; simpl; [by rewrite Hres|by rewrite Hcmd|]. intros row Hrow Hp. by apply Honly, Hne. }
  destruct (st_reservations st !! key) as [row|] eqn:Hrow; [|by left; apply Hsame].
  destruct (decide (lr_status row = PENDING /\ row_session key row = session_key (rn_session c))) as [[Hpend Hk]|Hne];
    [right|left; apply Hsame; intros row' [= <-] Hp E; by apply Hne].
  exists row. split; [done|].
  destruct (vo_pending _ Hv key row Hrow Hpend) as (_ & i & Hi & Hsv). destruct (vo_row _ Hv key row Hrow) as (_ & _ & Hop & _).
  pose proof (phase_pending (view st) key row i Hrow Hpend Hi) as Ephase.
  pose proof (phase_pending (view st') key row (MkIntent ActionStart (d_lifecycle_intent_id (rn_session c)) IntentPrepared)) as Ephase'.
  rewrite Hk, (view_lookup _ _ _ Hs) in Hi. injection Hi as <-. split.
  - exists g, c, o, now. split_and!; [done|done|]. destruct Hsv as [_ Ho _]. unfold intent_of in *. simpl in *. congruence.
  - rewrite Ephase, Ephase'; simpl; [|by rewrite Hres|done|by rewrite Hk]. split; [done|]. rewrite Ha. by destruct Hst as [-> | ->]; [left|right].
Qed.

(** Until its start is asked for again, the effect of an operation is behind. *)
Definition behind (key : request_key) (action : str) (st : RoomStore) : Prop :=
  lifecycle_ok st /\ asked_for key action (view st) /\ (2 <= phase_rank (phase key (view st)))%nat.

Lemma behind_step key action st st' :
  history_step st st' -> behind key action st -> behind key action st' \/ observed_again (key_operation key action) st st'.
Proof.
  intros Hstep (Hok & Hasked & Hrank). pose proof (step_lifecycle_ok _ _ Hstep Hok) as Hok1.
  assert (Hby : forall e, e <> Retried -> rtc (view_step e) (view st) (view st') -> behind key action st').
  { intros e He Hs. split; [done|]. split; [by eapply asked_for_steps|]. destruct (steps_phase _ _ _ key Hs (proj1 Hok)) as [Hph _].
    destruct (phase_steps_rank _ _ _ Hph He) as [<-|?]; [done|lia]. }
  destruct (history_cases _ _ Hstep Hok) as [[Hs%rtc_once _]|[[_ [Hs _]]|Hretry]];
    [left; by apply (Hby Commanded)|left; by apply (Hby Observed)|].
  pose proof Hretry as (_ & _ & _ & _ & _ & [Hv _] & _). pose proof (asked_for_step _ _ _ _ _ Hv Hasked) as Hasked1.
  destruct (retried_phase key _ _ Hok Hretry) as [E|(row & Hrow & Ho & _)]; [left; split; [done|by rewrite E]|right].
  destruct Hasked as [(row' & Hrow' & <-)|Hin];
    [|pose proof (vo_answered _ (proj1 Hok) _ Hin) as E0; simpl in E0; congruence].
  by assert (row' = row) as -> by (unfold view in Hrow'; simpl in Hrow'; congruence).
Qed.
Lemma effect_behind key action st st' :
  rtc history_step st st' -> behind key action st ->
  behind key action st' \/
  exists before after, rtc history_step st before /\ observed_again (key_operation key action) before after /\
    rtc history_step after st'.
Proof.
  induction 1 as [st|st st1 st' Hstep Hsteps IH]; intros Hb; [by left|].
  destruct (behind_step _ _ _ _ Hstep Hb) as [Hb1|Ho]; [|right; by exists st, st1].
  destruct (IH Hb1) as [?|(b & a & Hto & Ho & Hf)]; [by left|right]. exists b, a. split_and!; try done. by eapply rtc_l.
Qed.

(** What was authorized is behind, and is not authorized while it is. *)
Lemma authorized_behind operation st st' :
  authorizes operation st st' -> lifecycle_ok st ->
  exists key action, key_ok key /\ field_ok action /\ operation = key_operation key action /\ behind key action st'.
Proof.
  intros Ha Hok. destruct (authorizes_request _ _ _ Ha Hok) as (a & key & action & Hk & Hf & -> & _ & Hp & Hasked).
  exists key, action. do 3 (split; [done|]). split; [by eapply step_lifecycle_ok; [eapply authorizes_step|]|]. by rewrite Hp.
Qed.
Lemma behind_not_authorized key action st st' :
  key_ok key -> field_ok action -> behind key action st -> ~ authorizes (key_operation key action) st st'.
Proof.
  intros Hk Ha (Hok & _ & Hr) Hauth. destruct (authorizes_request _ _ _ Hauth Hok) as (a' & key' & action' & Hk' & Ha' & E & Hp' & _).
  pose proof (operation_inj bytes_inj _ _ _ _ Hk Hk' Ha Ha' E) as <-. rewrite Hp' in Hr. simpl in Hr. lia.
Qed.

(** A stop that began, and what becomes of it. *)
Definition stop_behind (p : RequestPhase) : bool :=
  match p with
  | RequestUnderWay ActionStop s => negb (bool_decide (s = IntentPrepared))
  | RequestRefused | RequestAnswered => true
  | _ => false
  end.
Lemma stop_behind_step e p p' : phase_step e p p' -> stop_behind p = true -> stop_behind p' = true.
Proof. intros [a s Hs|a s s' Hs|a s Hs|a s Hs|]; simpl; try done. by destruct a, s, s'. Qed.
(** A request that is over. *)
Definition over (p : RequestPhase) : bool := match p with RequestRefused | RequestAnswered => true | _ => false end.
Lemma over_step e p p' : phase_step e p p' -> over p = true -> over p' = true.
Proof. by intros []. Qed.

(** What every step keeps of the phase of a request, every history does. *)
Lemma kept_history (P : RequestPhase -> bool) key st st' :
  (forall e p p', phase_step e p p' -> P p = true -> P p' = true) ->
  rtc history_step st st' -> lifecycle_ok st -> P (phase key (view st)) = true -> P (phase key (view st')) = true.
Proof.
  intros HP. induction 1 as [|st st1 st' Hstep _ IH]; [done|]. intros Hok Hb. apply IH; [by eapply step_lifecycle_ok|].
  assert (Hby : forall e, rtc (view_step e) (view st) (view st1) -> P (phase key (view st1)) = true).
  { intros e Hs. destruct (steps_phase _ _ _ key Hs (proj1 Hok)) as [Hph _]. clear -HP Hph Hb. induction Hph; [done|].
    by eapply IHHph, HP. }
  destruct (history_cases _ _ Hstep Hok) as [[Hs%rtc_once _]|[[_ [Hs _]]|(_ & _ & _ & _ & _ & [Hs%rtc_once _] & _)]];
    by eapply Hby.
Qed.

(** A stop whose effect is not recorded. *)
Definition unrecorded (p : RequestPhase) : bool :=
  match p with
  | RequestUnderWay ActionStop IntentPrepared | RequestUnderWay ActionStop IntentEffectInflight
  | RequestUnderWay ActionStop IntentUnconfirmed | RequestRefused => true
  | _ => false
  end.
Lemma unrecorded_next p p' :
  phase_step Commanded p p' -> unrecorded p = true -> p' = RequestUnderWay ActionStop IntentEffectApplied \/ unrecorded p' = true.
Proof.
  intros [a s Hs|a s s' Hs|a s Hs|a s Hs|]; simpl; try done; destruct a; try done; destruct s; try done; try destruct s'; try done; auto.
Qed.
(** What the phase of a request under way says of its row. *)
Lemma unrecorded_row key v :
  unrecorded (phase key v) = true -> exists row, vw_reservations v !! key = Some row /\
    (lr_status row = PENDING \/ phase key v = RequestRefused).
Proof.
  unfold phase. destruct (vw_reservations v !! key) as [row|]; [|by case_bool_decide]. intros _. exists row. split; [done|].
  destruct (str_eqb (lr_status row) PENDING) eqn:E; [left; by apply str_eqb_true|by right].
Qed.
Lemma refused_stays e p p' : rtc (phase_step e) p p' -> p = RequestRefused -> p' = RequestRefused.
Proof. induction 1 as [|a b c Hab _ IH]; [done|]. intros ->. inversion Hab. Qed.

(** A request stays in its phase while what its session serves is left alone. *)
Lemma phase_by_session v v' key row :
  view_ok v -> view_ok v' -> vw_reservations v !! key = Some row -> lr_status row = PENDING ->
  vw_intents v' !! row_session key row = vw_intents v !! row_session key row -> phase key v' = phase key v.
Proof.
  intros Hv Hv' Hr Hp E. destruct (vo_pending _ Hv _ _ Hr Hp) as (_ & i & Hi & Hs). rewrite Hi in E.
  destruct (vo_intent _ Hv' _ _ E) as [->|(key' & row' & Hr' & Hp' & Ek & Hs')]; [by destruct (serves_some_intent _ _ Hs)|].
  destruct (vo_row _ Hv _ _ Hr) as (Hk & Ha & Eo & _). destruct (vo_row _ Hv' _ _ Hr') as (Hk' & Ha' & Eo' & _).
  assert (key = key') as <-.
  { eapply (operation_inj bytes_inj key key'); [exact Hk|exact Hk'|exact Ha|exact Ha'|]. rewrite <- Eo, <- Eo'.
    by rewrite <- (sv_operation _ _ Hs), <- (sv_operation _ _ Hs'). }
  rewrite (phase_pending v key row i) by done. rewrite Ek in E. by rewrite (phase_pending v' key row' i).
Qed.
(** ** Theorems *)

(** The effect of an operation is authorized again only after the start was asked for again. *)

(** C12: the effect of a lifecycle operation on a provider runtime is authorized a second
    time, by whichever server, only after a live observation of that very start found its
    runtime gone, or adopted it, and asked for the start again. *)
Theorem effect_authorized_again (operation : str) (st0 st1 st2 st3 : RoomStore)
    (Hok : lifecycle_ok st0) (Hauth : authorizes operation st0 st1) (Hsteps : rtc history_step st1 st2)
    (Hagain : authorizes operation st2 st3) :
  exists before after, rtc history_step st1 before /\ observed_again operation before after /\ rtc history_step after st2.
Proof.
  destruct (authorized_behind _ _ _ Hauth Hok) as (key & action & Hk & Ha & -> & Hb).
  destruct (effect_behind key action st1 st2 Hsteps Hb) as [Hb2|?]; [|done]. by destruct (behind_not_authorized key action st2 st3 Hk Ha Hb2).
Qed.

(** A stop is not even then. *)

Theorem stop_authorized_once (operation : str) (st0 st1 st2 st3 : RoomStore)
    (Hok : lifecycle_ok st0) (Hauth : authorizes_stop operation st0 st1) (Hsteps : rtc history_step st1 st2) :
  ~ authorizes operation st2 st3.
Proof.
  intros Hagain. pose proof (step_lifecycle_ok _ _ (authorizes_step _ _ _ (or_intror Hauth)) Hok) as Hok1.
  destruct (authorized_stop_request _ _ _ Hauth Hok) as (key & action & Hk & Ha & -> & _ & Hp & _).
  destruct (authorizes_request _ _ _ Hagain (steps_lifecycle_ok _ _ Hsteps Hok1)) as (a' & key' & action' & Hk' & Ha' & E & Hp' & _).
  pose proof (operation_inj bytes_inj _ _ _ _ Hk Hk' Ha Ha' E) as <-.
  pose proof (kept_history _ key _ _ stop_behind_step Hsteps Hok1) as Hb. rewrite Hp, Hp' in Hb. specialize (Hb eq_refl). by destruct a'.
Qed.

(** A session serves at most one request at a time. *)

(** C20: whatever lifecycle commands are prepared, answered, refused, left unconfirmed or
    reconciled, a session serves at most one request at a time. *)
Theorem one_request_per_session (st0 st : RoomStore) (key key' : str * str * str) (row row' : LifecycleRow)
    (Hok : lifecycle_ok st0) (Hsteps : rtc history_step st0 st)
    (Hrow : st_reservations st !! key = Some row) (Hrow' : st_reservations st !! key' = Some row')
    (Hp : lr_status row = PENDING) (Hp' : lr_status row' = PENDING)
    (Hsession : (key.1.1, lr_session_id row) = (key'.1.1, lr_session_id row')) : key = key'.
Proof. pose proof (steps_lifecycle_ok _ _ Hsteps Hok) as [Hv _]. by eapply (view_ok_exclusive bytes_inj). Qed.

(** A stop that was prepared is answered only after its effect was recorded, or because its runtime was found gone. *)

(** C21: a stop that was prepared leaves the phases in which its end is unknown, and so is
    answered, only in a transaction that records that end, or in one by which the server or
    the attendee that runs the runtime of the very session of the request found that runtime
    gone. *)
Theorem stop_answered_when_recorded (st0 st : RoomStore) (key : str * str * str)
    (Hok : lifecycle_ok st0) (Hsteps : rtc history_step st0 st)
    (Hprepared : phase key (view st0) = RequestUnderWay ActionStop IntentPrepared) (Hanswered : st_commands st !! key <> None) :
  exists before after row, rtc history_step st0 before /\ history_step before after /\ rtc history_step after st /\
    unrecorded (phase key (view before)) = true /\ unrecorded (phase key (view after)) = false /\
    st_reservations before !! key = Some row /\
    (phase key (view after) = RequestUnderWay ActionStop IntentEffectApplied \/ absence_of (row_session key row) before after).
Proof.
  assert (Hp : unrecorded (phase key (view st0)) = true) by (by rewrite Hprepared).
  clear Hprepared. induction Hsteps as [st|st0 st1 st Hstep Hsteps IH].
  - exfalso. destruct Hok as [Hv _]. apply not_eq_None_Some in Hanswered as [c Hc]. apply elem_of_dom_2 in Hc.
    unfold phase in Hp. by rewrite (vo_answered _ Hv _ Hc), bool_decide_eq_true_2 in Hp.
  - pose proof (step_lifecycle_ok _ _ Hstep Hok) as Hok1. destruct (unrecorded (phase key (view st1))) eqn:Hp1.
    { destruct IH as (b & a & row & Hto & Hrest); [done..|]. exists b, a, row. split; [by eapply rtc_l|exact Hrest]. }
    destruct (unrecorded_row _ _ Hp) as (row & Hrow & Hpend). exists st0, st1, row. split_and!; try done.
    destruct (history_cases _ _ Hstep Hok) as [[Hs _]|[[Habs [Hs _]]|Hretry]].
    + left. destruct (view_step_phase bytes_inj _ _ _ key (proj1 Hok) Hs) as [E|Hph]; [by rewrite E, Hp in Hp1|].
      by destruct (unrecorded_next _ _ Hph Hp) as [E|E]; [|rewrite E in Hp1].
    + right. destruct (absence_session _ _ Habs) as (k & Hk & Ht). destruct (decide (row_session key row = k)) as [->|Hne]; [done|].
      exfalso. destruct Hpend as [Hpend|E].
      * destruct (Ht (proj2 Hok)) as [Honly _]. by rewrite (phase_by_session (view st0) (view st1) key row (proj1 Hok) (proj1 Hok1) Hrow Hpend (Honly _ Hne)), Hp in Hp1.
      * destruct (steps_phase _ _ _ key Hs (proj1 Hok)) as [Hph _]. by rewrite (refused_stays _ _ _ Hph E) in Hp1.
    + exfalso. destruct (retried_phase key _ _ Hok Hretry) as [E|(row' & _ & _ & [_ [E|E]])]; [by rewrite E, Hp in Hp1|by rewrite E in Hp..].
Qed.

(** Every history of the transactions is a history of the machine that only knows the intents of the sessions and the
    rows of the requests, and keeps its invariant. *)

(** C11: the transactions that create, start, stop, pause, resume and re-add agents, that
    reconcile what a restart or a lost runtime left, and that record the reports of
    attendees, under servers that come and go, implement a machine that only knows the
    intents of the sessions and the rows of the requests: every history is one of the
    machine and keeps its invariant. *)
Theorem lifecycle_refines_machine (st0 st : RoomStore) (Hok : lifecycle_ok st0) (Hsteps : rtc history_step st0 st) :
  rtc (fun v v' => exists e, view_step e v v') (view st0) (view st) /\ lifecycle_ok st.
Proof.
  induction Hsteps as [|a b c Hab _ IH]; [done|]. destruct IH as [IH ?]; [by eapply step_lifecycle_ok|]. split; [|done].
  assert (Hby : forall e, rtc (view_step e) (view a) (view b) -> rtc (fun v v' => exists e, view_step e v v') (view a) (view b)).
  { intros e. apply rtc_subrel. intros v v' ?. by exists e. }
  etrans; [|exact IH]. destruct (history_cases _ _ Hab Hok) as [[Hs%rtc_once _]|[[_ [Hs _]]|(_ & _ & _ & _ & _ & [Hs%rtc_once _] & _)]];
    by eapply Hby.
Qed.

(** A request that was answered or refused has no effect outside the store any more. *)

(** a lifecycle request that was answered or refused never has an effect on a provider
    runtime again. *)
Theorem settled_request_has_no_effect (key : str * str * str) (action : str) (st0 st st' : RoomStore)
    (Hok : lifecycle_ok st0) (Hsteps : rtc history_step st0 st) (Hkey : key_ok key) (Haction : field_ok action)
    (Hsettled : st_commands st0 !! key <> None \/ (lr_status <$> st_reservations st0 !! key) = Some REJECTED) :
  ~ authorizes (key_operation key action) st st'.
Proof.
  assert (over (phase key (view st0)) = true) as Hover.
  { destruct Hok as [Hv _]. unfold phase. destruct Hsettled as [Hc|Hr].
    - apply not_eq_None_Some in Hc as [c Hc%elem_of_dom_2]. by rewrite (vo_answered _ Hv _ Hc), bool_decide_eq_true_2.
    - simpl. destruct (st_reservations st0 !! key) as [row|]; [|done]. injection Hr as Hr. by rewrite Hr. }
  intros Hauth.
  destruct (authorizes_request _ _ _ Hauth (steps_lifecycle_ok _ _ Hsteps Hok)) as (a & key' & action' & Hk' & Ha' & E & Hp & _).
  pose proof (operation_inj bytes_inj _ _ _ _ Hkey Hk' Haction Ha' E) as <-.
  pose proof (kept_history _ key _ _ over_step Hsteps Hok Hover) as Hb. by rewrite Hp in Hb.
Qed.

(** A pause that is resumed leaves every session as it was, but for the time of the change. *)

(** C22: a pause is only made of an idle session without a turn, and resuming it leaves
    every session of the store as it was, but for the time of the change. *)
Theorem pause_resume_restores authority authority' request_id request_id' payload payload' runtime runtime' now now'
    (outcome outcome' : CommandOutcome) (agent_id room_id : str) (st st1 st2 : RoomStore)
    (Hpause : execute_agent_pause authority request_id payload runtime now st = Ok (outcome, st1))
    (Hresume : resume_paused_agent authority' request_id' payload' runtime' now' st1 = Ok (Some outcome', st2))
    (Hnew : co_deduplicated outcome = false) (Hnew' : co_deduplicated outcome' = false)
    (Hagent : payload_agent_id payload = Ok agent_id) (Hagent' : payload_agent_id payload' = Ok agent_id)
    (Hroom : pr_room_id <$> authority st = Ok room_id) (Hroom' : pr_room_id <$> authority' st1 = Ok room_id) :
  exists s, st_sessions st !! (room_id, agent_id) = Some s /\ s_runtime_status (d_public s) = RuntimeIdle /\
    active_turn_authority s = Ok false /\
    (d_public <$> st_sessions st1 !! (room_id, agent_id)) =
      Some ((d_public s) <| s_enabled := false |> <| s_runtime_status := RuntimePaused |> <| s_updated_at := now |>) /\
    st_sessions st2 = <[(room_id, agent_id) := s <| d_public := (d_public s) <| s_updated_at := now' |> |>]> (st_sessions st).
Proof.
  apply (pause_Ok bytes_inj) in Hpause as [[_ ?]|(principal & id & Ha & Hid & (s & p & Hs & Hkey & Hval & _ & E) & _)]; [congruence|].
  apply (resume_Ok bytes_inj) in Hresume as [[_ ?]|(principal' & id' & Ha' & Hid' & (s' & p' & Hs' & Hkey' & _ & _ & E') & _)]; [congruence|].
  assert (id = agent_id) as -> by congruence. assert (id' = agent_id) as -> by congruence.
  rewrite Ha in Hroom. rewrite Ha' in Hroom'. injection Hroom as Hroom. injection Hroom' as Hroom'. rewrite Hroom in *. rewrite Hroom' in *.
  rewrite E, Hkey, lookup_insert_eq in Hs'. injection Hs' as <-. unfold resident_state_valid in Hval. cbv zeta in Hval. bool_to_prop.
  exists s. rewrite E', Hkey', E, Hkey, lookup_insert_eq, insert_insert_eq. split_and!; try done.
  - by destruct (active_turn_authority s) as [[]|].
  - f_equal. unfold scheduled_session. match goal with He : Bool.eqb _ _ = true |- _ => apply Bool.eqb_prop in He end.
    destruct s as [[]]. simpl in *. by subst.
Qed.

(** A start that fails after its effect, of a session whose turn runs, leaves a turn that is neither running nor
    over. *)

(** The turn of a session, which a launch leaves alone. *)
Definition same_turn (s s' : DurableAgentSession) : Prop :=
  s_active_turn_id (d_public s') = s_active_turn_id (d_public s) /\ d_inflight_inputs s' = d_inflight_inputs s /\
  d_pending_inputs s' = d_pending_inputs s.
#[local] Instance same_turn_preorder : PreOrder same_turn.
Proof. split; [done|]. intros a b c (? & ? & ?) (? & ? & ?). split_and!; congruence. Qed.

Lemma launch_needs_authority generation authority request_id payload action now st plan st' principal agent_id start :
  authority st = Ok principal -> launch_payload payload action = Ok (agent_id, start) ->
  prepare_agent_launch generation authority request_id payload action now st = Ok (plan, st') ->
  (st' = st /\ exists outcome, plan = StartOutcome outcome) \/
  exists s, st_sessions st !! (pr_room_id principal, agent_id) = Some s /\ is_ok (active_turn_authority s) = true /\
    forall effect, plan = StartRuntime effect ->
      exists s', st_sessions st' !! (pr_room_id principal, agent_id) = Some s' /\ same_turn s s'.
Proof.
  intros Hby Hpay. unfold prepare_agent_launch. rewrite Hpay. intros (principal' & st1 & [Hby' <-]%reads_Ok & Hr)%rtx_bind_Ok.
  assert (principal' = principal) as -> by congruence.
  apply rtx_bind_Ok in Hr as (? & st1 & [_ <-]%lift_Ok & Hr). apply rtx_bind_Ok in Hr as (? & st1 & [[= <-] <-]%lift_Ok & Hr).
  cbv zeta in Hr. apply rtx_bind_Ok in Hr as (? & st1 & [_ <-]%reads_Ok & Hr).
  apply rtx_bind_Ok in Hr as (replay & st1 & [_ <-]%reads_Ok & Hr).
  destruct replay as [outcome|]; [left; apply rtx_ret_Ok in Hr as [<- <-]; split; [done|by exists outcome]|right].
  apply rtx_bind_Ok in Hr as (? & st1 & Hclaim%claim_Ok & Hr).
  assert (Hses1 : st_sessions st1 = st_sessions st) by (destruct Hclaim as [(? & _ & _ & ->)|(_ & _ & ? & _)]; done).
  apply rtx_bind_Ok in Hr as (s & st2 & [Hl%load_launch_Ok <-]%reads_Ok & Hr). destruct Hl as (Hs & Hkey & _). rewrite Hses1 in Hs.
  apply rtx_bind_Ok in Hr as (? & st2 & [Hv%require_Ok <-]%lift_Ok & Hr). exists s. split_and!; [done..|]. intros effect ->.
  apply rtx_bind_Ok in Hr as (p & st2 & [_ <-]%reads_Ok & Hr). apply rtx_bind_Ok in Hr as (? & st2 & [_ <-]%lift_Ok & Hr).
  apply rtx_bind_Ok in Hr as (? & st2 & [_ <-]%lift_Ok & Hr). apply rtx_bind_Ok in Hr as (? & st2 & [_ <-]%lift_Ok & Hr).
  apply rtx_bind_Ok in Hr as (incomplete & st2 & [_ <-]%lift_Ok & Hr). apply rtx_bind_Ok in Hr as (? & st2 & [_ <-]%lift_Ok & Hr).
  destruct start; simpl in Hr.
  - apply rtx_bind_Ok in Hr as ([] & st2 & [_ ->]%save_session_Ok & Hr). apply rtx_ret_Ok in Hr as [_ <-]. simpl.
    exists (if incomplete then s else prepare_launch_session (lifecycle_operation_id principal request_id action) now s).
    split; [|by destruct incomplete]. rewrite <- Hkey. destruct incomplete; apply lookup_insert_eq.
  - apply rtx_bind_Ok in Hr as (? & st2 & _ & Hr). apply rtx_bind_Ok in Hr as (? & st3 & _ & Hr). by apply rtx_ret_Ok in Hr as [? _].
Qed.

Lemma stop_needs_authority generation authority request_id payload now st plan st' principal agent_id :
  authority st = Ok principal -> payload_agent_id payload = Ok agent_id ->
  prepare_agent_stop generation authority request_id payload now st = Ok (plan, st') ->
  (st' = st /\ exists outcome, plan = StopPlanOutcome outcome) \/
  exists s, st_sessions st !! (pr_room_id principal, agent_id) = Some s /\ is_ok (active_turn_authority s) = true.
Proof.
  intros Hby Hpay. unfold prepare_agent_stop. rewrite Hpay. intros (principal' & st1 & [Hby' <-]%reads_Ok & Hr)%rtx_bind_Ok.
  assert (principal' = principal) as -> by congruence.
  apply rtx_bind_Ok in Hr as (? & st1 & [_ <-]%lift_Ok & Hr). apply rtx_bind_Ok in Hr as (? & st1 & [[= <-] <-]%lift_Ok & Hr).
  cbv zeta in Hr. apply rtx_bind_Ok in Hr as (? & st1 & [_ <-]%reads_Ok & Hr).
  apply rtx_bind_Ok in Hr as (replay & st1 & [_ <-]%reads_Ok & Hr).
  destruct replay as [outcome|]; [left; apply rtx_ret_Ok in Hr as [<- <-]; split; [done|by exists outcome]|right].
  apply rtx_bind_Ok in Hr as (s & st2 & [[Hs _]%load_session_Ok <-]%reads_Ok & Hr).
  apply rtx_bind_Ok in Hr as (? & st2 & [Hv%require_Ok <-]%lift_Ok & _). by exists s.
Qed.

Lemma authorize_start_turn generation authority request_id payload operation action h o l st e st' principal agent_id start :
  authority st = Ok principal -> launch_payload payload action = Ok (agent_id, start) ->
  authorize_agent_start_effect generation authority request_id payload operation action h o l st = Ok (e, st') ->
  exists s s', st_sessions st !! (pr_room_id principal, agent_id) = Some s /\
    st_sessions st' !! (pr_room_id principal, agent_id) = Some s' /\ same_turn s s'.
Proof.
  intros Hby Hpay. unfold authorize_agent_start_effect. rewrite Hpay. intros (principal' & st1 & [Hby' <-]%reads_Ok & Hr)%rtx_bind_Ok.
  assert (principal' = principal) as -> by congruence.
  apply rtx_bind_Ok in Hr as (? & st1 & [[= <-] <-]%lift_Ok & Hr). cbv zeta in Hr.
  apply rtx_bind_Ok in Hr as (? & st1 & [_ <-]%lift_Ok & Hr). apply rtx_bind_Ok in Hr as (? & st1 & [_ <-]%reads_Ok & Hr).
  apply rtx_bind_Ok in Hr as (? & st1 & [_ <-]%reads_Ok & Hr).
  apply rtx_bind_Ok in Hr as (s & st1 & [Hl%load_launch_Ok <-]%reads_Ok & Hr). destruct Hl as (Hs & Hkey & _).
  apply rtx_bind_Ok in Hr as (s' & st1 & [He <-]%lift_Ok & Hr). pose proof (start_effect_intent _ _ _ _ _ _ He) as (Hk' & _).
  apply rtx_bind_Ok in Hr as ([] & st2 & [_ ->]%save_session_Ok & Hr). apply rtx_ret_Ok in Hr as [_ <-].
  exists s, s'. split_and!; [done|simpl; rewrite Hk', Hkey; apply lookup_insert_eq|].
  unfold authorize_start_effect in He. cbv zeta in He. by res_inv.
Qed.

(** A session with a turn whose runtime is in error. *)
Lemma error_with_turn (s : DurableAgentSession) :
  s_runtime_status (d_public s) = RuntimeError -> s_active_turn_id (d_public s) <> [] -> active_turn_authority s = Err MkInvalidTurnAuthority.
Proof.
  intros He Ht. unfold active_turn_authority. cbv zeta. rewrite He. destruct (s_active_turn_id (d_public s)); [done|].
  destruct (negb (room_input_queue_is_canonical _)); [done|]. simpl. done.
Qed.
Lemma fail_launch_turn principal request_id payload operation code message action now st commit st' agent_id start :
  launch_payload payload action = Ok (agent_id, start) ->
  fail_agent_launch principal request_id payload operation code message action now st = Ok (commit, st') ->
  exists s s', st_sessions st !! (pr_room_id principal, agent_id) = Some s /\
    st_sessions st' !! (pr_room_id principal, agent_id) = Some s' /\ same_turn s s' /\ s_runtime_status (d_public s') = RuntimeError.
Proof.
  intros Hpay. unfold fail_agent_launch, commit_agent_launch_failure. rewrite Hpay.
  intros (? & st1 & [[= <-] <-]%lift_Ok & Hr)%rtx_bind_Ok. apply rtx_bind_Ok in Hr as (? & st1 & [_ <-]%reads_Ok & Hr).
  apply rtx_bind_Ok in Hr as (s & st1 & [[Hs Hkey]%load_session_Ok <-]%reads_Ok & Hr).
  apply rtx_bind_Ok in Hr as (? & st1 & [_ <-]%lift_Ok & Hr). cbv zeta in Hr.
  apply rtx_bind_Ok in Hr as (? & st1 & Hrej & Hr). apply rtx_bind_Ok in Hr as ([] & st2 & [_ ->]%save_session_Ok & Hr).
  apply rtx_bind_Ok in Hr as (e & st3 & He%append_error_event_settled & Hr).
  apply rtx_bind_Ok in Hr as (e' & st4 & He'%append_state_event_settled & Hr). apply rtx_ret_Ok in Hr as [_ <-].
  exists s, (failed_launch true code message now s). split_and!; [done| |done|done].
  rewrite (sl_sessions _ _ He'), (sl_sessions _ _ He). destruct (failed_launch_intent true code message now s) as [-> _].
  rewrite Hkey. apply lookup_insert_eq.
Qed.

(** No start, resume, re-addition or stop of an agent is accepted, but for repetitions of requests that were answered,
    and no end of its turn. *)
Record stranded (room_id agent_id : str) (st : RoomStore) : Prop := MkStranded {
  sd_launch generation authority request_id payload action now plan st' principal start :
    authority st = Ok principal -> pr_room_id principal = room_id -> launch_payload payload action = Ok (agent_id, start) ->
    prepare_agent_launch generation authority request_id payload action now st = Ok (plan, st') ->
    st' = st /\ exists outcome, plan = StartOutcome outcome;
  sd_stop generation authority request_id payload now plan st' principal :
    authority st = Ok principal -> pr_room_id principal = room_id -> payload_agent_id payload = Ok agent_id ->
    prepare_agent_stop generation authority request_id payload now st = Ok (plan, st') ->
    st' = st /\ exists outcome, plan = StopPlanOutcome outcome;
  sd_message authority content target now : is_ok (complete_message room_id agent_id authority content target now st) = false;
  sd_vote authority command now : is_ok (complete_vote room_id agent_id authority command now st) = false;
  sd_decline authority reason now : is_ok (decline room_id agent_id authority reason now st) = false;
  sd_fail authority code message stop now : is_ok (fail room_id agent_id authority code message stop now st) = false
}.

(** An end of a turn loads the session and requires its turn, after checks of what it was told. *)
Tactic Notation "refuses_end" reference(f) hyp(Hnever) :=
  let r := fresh "r" in let st' := fresh "st'" in let Hr := fresh "Hr" in
  intros; match goal with |- is_ok ?m = false => destruct m as [[r st']|] eqn:Hr end; [|done]; exfalso; unfold f in Hr; cbv zeta in Hr;
  repeat match type of Hr with (lift _ ≫= _) _ = _ => apply rtx_bind_Ok in Hr as (? & ? & [_ <-]%lift_Ok & Hr) end;
  apply rtx_bind_Ok in Hr as ([? ?] & ? & [_ <-]%reads_Ok & Hr); by apply Hnever in Hr.
Lemma invalid_turn_stranded room_id agent_id s st :
  st_sessions st !! (room_id, agent_id) = Some s -> active_turn_authority s = Err MkInvalidTurnAuthority ->
  stranded room_id agent_id st.
Proof.
  intros Hs Ha.
  assert (Hturn : forall turn_id s', load_session room_id agent_id st = Ok s' -> require_active_turn s' turn_id <> Ok tt).
  { intros turn_id s' [Hs' _]%load_session_Ok. assert (s' = s) as -> by congruence.
    unfold require_active_turn, turn_authority_is_active. rewrite Ha. by repeat case_match. }
  assert (Hnever : forall A turn_id (k : DurableAgentSession -> rtx A) r,
    (session ← reads (load_session room_id agent_id); lift (require_active_turn session turn_id) ;; k session) st <> Ok r).
  { intros A turn_id k [a st'] Hr. apply rtx_bind_Ok in Hr as (s' & st1 & [Hl <-]%reads_Ok & Hr).
    apply rtx_bind_Ok in Hr as ([] & ? & [Hq _]%lift_Ok & _). by eapply Hturn. }
  split.
  - intros generation authority request_id payload action now plan st' principal start Hby <- Hpay Hr.
    destruct (launch_needs_authority _ _ _ _ _ _ _ _ _ _ _ _ Hby Hpay Hr) as [?|(s' & Hs' & Hv & _)]; [done|].
    assert (s' = s) as -> by congruence. by rewrite Ha in Hv.
  - intros generation authority request_id payload now plan st' principal Hby <- Hpay Hr.
    destruct (stop_needs_authority _ _ _ _ _ _ _ _ _ _ Hby Hpay Hr) as [?|(s' & Hs' & Hv)]; [done|].
    assert (s' = s) as -> by congruence. by rewrite Ha in Hv.
  - refuses_end complete_message Hnever.
  - refuses_end complete_vote Hnever.
  - refuses_end decline Hnever.
  - refuses_end fail Hnever.
Qed.

(** C23: when the start of an agent whose turn runs is prepared, its effect authorized and
    then reported as failed, the session keeps the fields of a turn that is neither running
    nor over: as long as it stays so, no later start, resume, re-addition or stop of the
    agent is accepted, and no message, vote, decline or failure ends the turn. *)
Theorem failed_start_strands_turn generation generation' (authority authority' : RoomStore -> tx AuthenticatedPrincipal)
    (principal : AuthenticatedPrincipal) (request_id : str) (payload : value) (action operation handle owner lease code message agent_id : str)
    (now now' : instant) (st0 st1 st1' st2 st2' st3 : RoomStore) (s : DurableAgentSession) effect effect' commit
    (Hby : authority st0 = Ok principal) (Hby' : authority' st1' = Ok principal)
    (Hpayload : launch_payload payload action = Ok (agent_id, true))
    (Hs : st_sessions st0 !! (pr_room_id principal, agent_id) = Some s) (Hrunning : active_turn_authority s = Ok true)
    (Hprepare : prepare_agent_launch generation authority request_id payload action now st0 = Ok (StartRuntime effect, st1))
    (Hkept1 : st_sessions st1' !! (pr_room_id principal, agent_id) = st_sessions st1 !! (pr_room_id principal, agent_id))
    (Hauthorize : authorize_agent_start_effect generation' authority' request_id payload operation action handle owner lease st1' =
      Ok (effect', st2))
    (Hkept2 : st_sessions st2' !! (pr_room_id principal, agent_id) = st_sessions st2 !! (pr_room_id principal, agent_id))
    (Hfail : fail_agent_launch principal request_id payload operation code message action now' st2' = Ok (commit, st3)) :
  exists s3, st_sessions st3 !! (pr_room_id principal, agent_id) = Some s3 /\
    s_active_turn_id (d_public s3) = s_active_turn_id (d_public s) /\ active_turn_authority s3 = Err MkInvalidTurnAuthority /\
    forall st, st_sessions st !! (pr_room_id principal, agent_id) = Some s3 -> stranded (pr_room_id principal) agent_id st.
Proof.
  destruct (launch_needs_authority _ _ _ _ _ _ _ _ _ _ _ _ Hby Hpayload Hprepare) as [[_ [? ?]]|(s0 & Hs0 & _ & Hs1)]; [done|].
  destruct (Hs1 effect eq_refl) as (s1 & Hs1' & Ht1).
  destruct (authorize_start_turn _ _ _ _ _ _ _ _ _ _ _ _ _ _ _ Hby' Hpayload Hauthorize) as (sa & s2 & Hsa & Hs2 & Ht2).
  destruct (fail_launch_turn _ _ _ _ _ _ _ _ _ _ _ _ _ Hpayload Hfail) as (sb & s3 & Hsb & Hs3 & Ht3 & Herr).
  assert (s0 = s) as -> by congruence. assert (sa = s1) as -> by congruence. assert (sb = s2) as -> by congruence.
  assert (same_turn s s3) as Ht by (etrans; [exact Ht1|]; by etrans).
  assert (Hinvalid : active_turn_authority s3 = Err MkInvalidTurnAuthority).
  { apply error_with_turn; [done|]. rewrite (proj1 Ht). apply authority_true_iff in Hrunning as [_ [? _ _ _ _ _]]. done. }
  exists s3. split_and!; [done|apply Ht|done|]. intros st Hst. by eapply invalid_turn_stranded.
Qed.
End histories.

(** ** When a failed launch is recorded (agent_start_failure.rs, agent_lifecycle_reservations.rs) *)

Section cut_failures.
Context `{UnicodeGeneralCategory, CharCase, UnicodeCase, Caseless, Sha256, Chrono, Entropy, PersonaLibrary, UuidCrate, ChronoRange,
  AttendeeParent, RequestSerde, RegexCrate, ByteDigest}.

(** The four transactions that record a failed launch of an agent of a room, as functions of the message. *)
Inductive launch_failure (room_id agent_id : str) : (str -> rtx AgentLaunchFailureCommit) -> Prop :=
| FailsLaunch principal request_id payload operation code action now start :
    pr_room_id principal = room_id -> launch_payload payload action = Ok (agent_id, start) ->
    launch_failure room_id agent_id (fun message => fail_agent_launch principal request_id payload operation code message action now)
| FailsBeforeLaunch principal request_id payload operation code action now start :
    pr_room_id principal = room_id -> launch_payload payload action = Ok (agent_id, start) ->
    launch_failure room_id agent_id
      (fun message => fail_agent_start_before_effect principal request_id payload operation code message action now)
| FailsCreate principal request_id payload effect code now :
    pr_room_id principal = room_id -> s_session_id (d_public (ce_session effect)) = agent_id ->
    launch_failure room_id agent_id (fun message => fail_agent_create_start principal request_id payload effect code message now)
| FailsBeforeCreate principal request_id payload effect code now :
    pr_room_id principal = room_id -> s_session_id (d_public (ce_session effect)) = agent_id ->
    launch_failure room_id agent_id
      (fun message => fail_agent_create_start_before_effect principal request_id payload effect code message now).

(** No request of the provider of an agent waits for an answer. *)
Definition no_request_waits (room_id agent_id : str) (st : RoomStore) : Prop :=
  map_Forall (fun k r => k.1 = room_id -> rr_session_id r = agent_id -> pending r = false) (st_requests st).

(** Appending an event of a session never fails. *)
Lemma append_session_event_run principal session event_type extra now st :
  exists e st', append_session_event principal session event_type extra now st = Ok (e, st') /\ st_requests st' = st_requests st.
Proof.
  assert (Hn : st_events st !! (pr_room_id principal, next_sequence (pr_room_id principal) st) = None).
  { destruct (st_events st !! _) as [e|] eqn:E; [|done]. apply next_sequence_max in E. lia. }
  eexists _, _. split; [|shelve]. unfold append_session_event. apply rtx_bind_Ok. eexists _, _. split; [reflexivity|].
  apply rtx_bind_Ok. exists (next_sequence (pr_room_id principal) st). eexists. split; [by apply reads_Ok|]. cbv zeta.
  apply rtx_bind_Ok. eexists tt, _. split; [|apply rtx_ret_Ok; split; reflexivity]. unfold insert_event.
  rewrite insert_row_fresh; [reflexivity|exact Hn].
  Unshelve. done.
Qed.
Lemma append_error_event_run principal session code message now st :
  exists e st', append_error_event principal session code message now st = Ok (e, st') /\ st_requests st' = st_requests st.
Proof.
  destruct (append_session_event_run principal session "error" (<[u "error_code" := VString code]> ∅) now st) as (e & st1 & He & Hr).
  eexists _, _. split; [|shelve]. unfold append_error_event. apply rtx_bind_Ok. eexists _, _. split; [exact He|]. cbv zeta.
  apply rtx_bind_Ok. eexists tt, _. split; [apply modifies_Ok; reflexivity|]. apply rtx_ret_Ok; split; reflexivity.
  Unshelve. exact Hr.
Qed.
Lemma append_state_event_run principal session now st :
  no_request_waits (s_room_id session) (s_session_id session) st ->
  exists e st', append_state_event principal session now st = Ok (e, st').
Proof.
  intros Hno. unfold append_state_event, append_state_projection_event.
  destruct (append_session_event_run principal session "agent_session_state"
    (<[u "session_id" := VString (s_session_id session)]>
     (<[u "runtime_status" := VString (runtime_status_name (s_runtime_status session))]>
      (<[u "agent_session" := session_value (project_session_in session st)]> ∅))) now st) as (e & st1 & He & _).
  exists e, st1. apply rtx_bind_Ok. exists tt, st. split.
  - unfold reconcile_session_in. apply rtx_bind_Ok. eexists _, st. split; [by apply reads_Ok|].
    destruct (select_requests _ st) as [|[k r] rows] eqn:E; [by apply rtx_ret_Ok|]. exfalso.
    assert ((k, r) ∈ select_requests (fun k r => str_eqb k.1 (s_room_id session) && str_eqb (rr_session_id r) (s_session_id session)
      && pending r) st) as [Hin Hp]%select_requests_rows by (rewrite E; by left).
    cbn beta iota in Hp. unfold str_eqb in Hp. bool_to_prop.
    assert (pending r = false) by (by eapply (Hno k)). simpl in *. congruence.
  - apply rtx_bind_Ok. eexists _, st. split; [by apply reads_Ok|]. exact He.
Qed.

Lemma failed_launch_error clear code message now s :
  s_last_error (d_public (failed_launch clear code message now s)) = public_lifecycle_error message "Provider launch failed." /\
  s_last_error_code (d_public (failed_launch clear code message now s)) = code.
Proof. unfold failed_launch. by repeat case_match. Qed.

(** The text that is shown is never longer than the limit, so a refusal with a valid code is stored unless a second
    redaction changes its text. *)
Lemma public_error_length message : (length (public_lifecycle_error message "Provider launch failed.") <= 512)%nat.
Proof.
  unfold public_lifecycle_error. case_match; [by vm_compute; lia|].
  etrans; [apply redact_length|]. unfold PUBLIC_LIFECYCLE_ERROR_LIMIT. lia.
Qed.
Lemma public_error_nonempty message : str_empty (public_lifecycle_error message "Provider launch failed.") = false.
Proof. unfold public_lifecycle_error. by case_match. Qed.
Lemma validate_public code message0 message :
  validate_stored_rejection code (public_lifecycle_error message0 "Provider launch failed.") = Ok tt ->
  let text := public_lifecycle_error message "Provider launch failed." in
  validate_stored_rejection code text =
    if bool_decide (redact_persisted_diagnostic_text text 512 = text) then Ok tt else Err stored_rejection_invalid.
Proof.
  unfold validate_stored_rejection. intros F. apply reject_if_Ok in F. bool_to_prop. cbv zeta.
  rewrite public_error_nonempty. pose proof (public_error_length message).
  rewrite (proj2 (Nat.ltb_ge _ _)) by done. unfold str_eqb.
  repeat match goal with Hb : _ = _ |- _ => rewrite Hb end. by case_bool_decide.
Qed.

Lemma reject_run r code message row st :
  validate_stored_rejection code message = Ok tt -> st_reservations st !! reservation_key r = Some row -> reservation_pending r row = true ->
  reject_lifecycle_command r code message st =
    Ok (tt, st <| st_reservations := <[reservation_key r := rejected_row code message row]> (st_reservations st) |>).
Proof.
  intros Hv Hrow Hp. unfold reject_lifecycle_command. apply rtx_bind_Ok. exists tt, st. split; [by rewrite Hv|].
  apply rtx_bind_Ok. exists (Some row), st. split; [by unfold reads, lift, load_lifecycle_reservation; rewrite Hrow|].
  cbv beta iota. apply rtx_bind_Ok. exists tt, st. split; [by rewrite Hp|]. by apply modifies_Ok.
Qed.
Lemma commit_failure_recorded principal request_id hash agent_id op code action ph prepared status clear now message0 message st :
  is_ok (commit_agent_launch_failure principal request_id hash agent_id op code message0 action ph prepared status clear now st) = true ->
  no_request_waits (pr_room_id principal) agent_id st ->
  let run := commit_agent_launch_failure principal request_id hash agent_id op code message action ph prepared status clear now st in
  let text := public_lifecycle_error message "Provider launch failed." in
  if bool_decide (redact_persisted_diagnostic_text text 512 = text)
  then exists commit st' s', run = Ok (commit, st') /\ lf_message commit = text /\
    st_sessions st' !! (pr_room_id principal, agent_id) = Some s' /\ s_last_error (d_public s') = text
  else run = Err stored_rejection_invalid.
Proof.
  intros Hok Hno. cbv zeta. destruct (commit_agent_launch_failure _ _ _ _ _ _ message0 _ _ _ _ _ _ _) as [[c0 st0]|] eqn:Hr; [|done].
  unfold commit_agent_launch_failure in Hr. apply rtx_bind_Ok in Hr as (room & st1 & Hroom & Hr).
  pose proof Hroom as [_ <-]%reads_Ok. apply rtx_bind_Ok in Hr as (s & st1 & Hl & Hr).
  pose proof Hl as [[Hs Hkey]%load_session_Ok <-]%reads_Ok. apply rtx_bind_Ok in Hr as ([] & st1 & Hi & Hr).
  pose proof Hi as [_ <-]%lift_Ok. cbv zeta in Hr. apply rtx_bind_Ok in Hr as ([] & st1 & Hrej & _).
  apply reject_Ok in Hrej as (Hval & row & Hrow & Hpend & _). simpl in Hrow. unfold reservation_key in Hrow. simpl in Hrow.
  destruct (failed_launch_error clear code message0 now s) as [E0 E0']. rewrite E0, E0' in Hval.
  apply (validate_public _ _ message) in Hval. cbv zeta in Hval.
  destruct (failed_launch_error clear code message now s) as [E E'].
  destruct (failed_launch_intent clear code message now s) as [Hk _]. rewrite Hkey in Hk.
  remember (failed_launch clear code message now s) as failed eqn:Ef.
  set (r := MkReservation principal request_id action hash agent_id op ph prepared).
  set (rejected := st <| st_reservations := <[reservation_key r := rejected_row (s_last_error_code (d_public failed))
    (s_last_error (d_public failed)) row]> (st_reservations st) |>).
  case_bool_decide as Hst.
  - set (saved := rejected <| st_sessions := <[session_key failed := failed]> (st_sessions rejected) |>).
    destruct (append_error_event_run principal (d_public failed) code (s_last_error (d_public failed)) now saved) as (e1 & sta & He1 & Hreq).
    destruct (append_state_event_run principal (d_public failed) now sta) as (e2 & stb & He2).
    { unfold session_key in Hk. injection Hk as Hroomk Hidk. unfold no_request_waits. by rewrite Hroomk, Hidk, Hreq. }
    exists (MkLaunchFailure [e1; e2] (s_last_error_code (d_public failed)) (s_last_error (d_public failed))), stb, failed.
    split_and!; [|done| |done].
    + unfold commit_agent_launch_failure. apply rtx_bind_Ok. exists room, st. split; [exact Hroom|]. apply rtx_bind_Ok. exists s, st.
      split; [exact Hl|]. apply rtx_bind_Ok. exists tt, st. split; [exact Hi|]. cbv zeta. rewrite <- Ef. fold r.
      apply rtx_bind_Ok. exists tt, rejected. split; [apply reject_run; [by rewrite E, E'|exact Hrow|exact Hpend]|].
      apply rtx_bind_Ok. exists tt, saved. split; [unfold save_session, saved; rewrite !Hk; change (st_sessions rejected) with (st_sessions st); by rewrite Hs|].
      apply rtx_bind_Ok. exists e1, sta. split; [exact He1|]. apply rtx_bind_Ok. exists e2, stb. split; [exact He2|]. by apply rtx_ret_Ok.
    + rewrite (sl_sessions _ _ (append_state_event_settled _ _ _ _ _ _ He2)), (sl_sessions _ _ (append_error_event_settled _ _ _ _ _ _ _ _ He1)).
      simpl. rewrite Hk. apply lookup_insert_eq.
  - unfold commit_agent_launch_failure, mbind, rtx_bind. rewrite Hroom, Hl, Hi. cbv zeta. rewrite <- Ef.
    unfold reject_lifecycle_command, mbind, rtx_bind. by rewrite E, E', Hval.
Qed.

(** A launch fails with a message. In a state in which the failure is recorded under some message, and the provider
    of the agent waits for no answer, the failure with another message is recorded, and the text that is shown of it
    stored, if a second redaction leaves that text alone, and is otherwise refused: the text is redacted before it is
    cut to its last [PUBLIC_LIFECYCLE_ERROR_LIMIT] characters, and what the cut leaves may read as a credential or a
    path. *)

(** C24: the failure of a start or a creation, before its effect or after it: in a state in
    which it is recorded under one message, and the provider of the agent waits for no
    answer, it is recorded under another, with its public text, exactly when redacting that
    text again leaves it alone; otherwise the transaction fails. *)
Theorem launch_failure_recorded_iff (room_id agent_id : str) (report : str -> rtx AgentLaunchFailureCommit) (message0 message : str)
    (st : RoomStore) (Hreport : launch_failure room_id agent_id report) (Hrecords : is_ok (report message0 st) = true)
    (Hno : no_request_waits room_id agent_id st) :
  let text := public_lifecycle_error message "Provider launch failed." in
  if bool_decide (redact_persisted_diagnostic_text text 512 = text)
  then exists commit st' s', report message st = Ok (commit, st') /\ lf_message commit = text /\
    st_sessions st' !! (room_id, agent_id) = Some s' /\ s_last_error (d_public s') = text
  else report message st = Err stored_rejection_invalid.
Proof.
  destruct Hreport as [principal ? payload ? ? ? ? start <- Hp|principal ? payload ? ? ? ? start <- Hp|principal ? ? ? ? ? <- <-|principal ? ? ? ? ? <- <-];
    cbv beta in Hrecords |- *.
  - unfold fail_agent_launch in Hrecords |- *. rewrite Hp in Hrecords |- *. exact (commit_failure_recorded _ _ _ _ _ _ _ _ _ _ _ _ _ _ _ Hrecords Hno).
  - unfold fail_agent_start_before_effect in Hrecords |- *. rewrite Hp in Hrecords |- *. exact (commit_failure_recorded _ _ _ _ _ _ _ _ _ _ _ _ _ _ _ Hrecords Hno).
  - exact (commit_failure_recorded _ _ _ _ _ _ _ _ _ _ _ _ _ _ _ Hrecords Hno).
  - exact (commit_failure_recorded _ _ _ _ _ _ _ _ _ _ _ _ _ _ _ Hrecords Hno).
Qed.
End cut_failures.

(** ** Concrete inputs *)

Definition demo_json : JsonText := {| json_text := encode; json_from_text := fun _ => None |}.
Definition demo_summaries : PersonaSummaries := fun _ _ => Err Database.
Definition demo_session_serde : SessionSerde := {| durable_value := fun s => VString (s_session_id (d_public s)); principal_text := pr_principal_id |}.
#[local] Existing Instances ascii_general_category ascii_uppercase ascii_unicode_case plain_case identity_digest plain_clock demo_entropy
  demo_persona accept_uuid every_instant no_parent demo_serde no_matches demo_json demo_summaries demo_session_serde.
Definition identity_bytes : ByteDigest := fun l => l.
#[local] Existing Instance identity_bytes.

Definition demo_server : str := u "server-1".
Definition demo_control : RoomStore -> tx AuthenticatedPrincipal := fun _ => Ok demo_ann.
Definition demo_agent : value := VObject [(u "agent_id", VString (u "agent-1"))].
Definition demo_start_operation : str := lifecycle_operation_id demo_ann (u "s1") START.
Definition demo_stop_operation : str := lifecycle_operation_id demo_ann (u "s2") STOP.
Definition demo_room_store : RoomStore := demo_store "ordered".

Definition no_start_plan : AgentStartPlan := StartOutcome (MkCommandOutcome VNull no_event [] false).
Definition no_start_effect : AgentStartEffect := MkStartEffect [] demo_turn.
Abbreviation demo_prepare_start := (prepare_agent_launch demo_server demo_control (u "s1") demo_agent START 5) (only parsing).
Abbreviation demo_authorize_start :=
  (authorize_agent_start_effect demo_server demo_control (u "s1") demo_agent demo_start_operation START (u "h-agent-1") (u "o") (u "l"))
  (only parsing).
Abbreviation demo_fail_start :=
  (fail_agent_launch demo_ann (u "s1") demo_agent demo_start_operation (u "provider_exited") (u "It exited.") START 6) (only parsing).
Definition start_prepared : RoomStore := step no_start_plan demo_prepare_start demo_room_store.
Definition start_authorized : RoomStore := step no_start_effect demo_authorize_start start_prepared.
Definition start_failed : RoomStore := step (MkLaunchFailure [] [] []) demo_fail_start start_authorized.

Abbreviation demo_prepare_stop := (prepare_agent_stop demo_server demo_control (u "s2") demo_agent 7) (only parsing).
Abbreviation demo_authorize_stop :=
  (authorize_agent_stop_effect demo_server demo_control (u "s2") demo_agent demo_stop_operation 8) (only parsing).
Abbreviation demo_record_stop := (record_agent_stop_effect (u "room") (u "agent-1") demo_stop_operation 9) (only parsing).
Abbreviation demo_finalize_stop := (finalize_agent_stop demo_ann (u "s2") demo_agent 10) (only parsing).
Definition stop_prepared : RoomStore := step Finalize demo_prepare_stop demo_room_store.
Definition stop_authorized : RoomStore := step (MkStopEffect [] [] [] [] []) demo_authorize_stop stop_prepared.
Definition stop_recorded : RoomStore := step tt demo_record_stop stop_authorized.
Definition stop_finalized : RoomStore := step no_mutation demo_finalize_stop stop_recorded.

Definition resident_session : DurableAgentSession :=
  (idle_session "agent-1"%string) <| d_provider_session_id := u "p" |> <| d_runtime_profile_key := u "profile" |>.
Definition demo_runtime : AgentResidentRuntime := MkResidentRuntime (u "h-agent-1") (u "o") (u "l") (u "profile").
Definition demo_resident : RoomStore := demo_with "ordered" [resident_session].
Abbreviation demo_pause := (execute_agent_pause demo_control (u "p1") demo_agent demo_runtime 5) (only parsing).
Abbreviation demo_resume := (resume_paused_agent demo_control (u "p2") demo_agent demo_runtime 6) (only parsing).
Definition demo_paused : RoomStore := step (MkCommandOutcome VNull no_event [] false) demo_pause demo_resident.
Definition demo_resumed : RoomStore := step None demo_resume demo_paused.

Example demo_stops :
  map (fun st => phase (command_key demo_ann (u "s2")) (view st)) [demo_room_store; stop_prepared; stop_authorized; stop_recorded; stop_finalized] =
  [RequestFresh; RequestUnderWay ActionStop IntentPrepared; RequestUnderWay ActionStop IntentEffectInflight;
   RequestUnderWay ActionStop IntentEffectApplied; RequestAnswered].
Proof. by vm_compute. Qed.

Lemma fresh_lifecycle_ok st :
  store_ok st -> st_reservations st = ∅ -> map_Forall (fun _ s => intent_of s = no_intent) (st_sessions st) -> lifecycle_ok st.
Proof.
  intros Hok Hr Hi. split; [|done]. split; simpl; rewrite ?Hr; try done.
  intros k i. rewrite lookup_fmap. destruct (st_sessions st !! k) as [s|] eqn:Hs; [|done]. intros [= <-]. left. by eapply Hi.
Qed.
Lemma demo_lifecycle_ok : lifecycle_ok demo_room_store.
Proof. apply fresh_lifecycle_ok; [apply demo_store_ok|done|]. apply (bool_decide_unpack _). by vm_compute. Qed.
Lemma short_text s : bool_decide (Forall code_point s /\ (length s <= 100)%nat) = true -> field_ok s.
Proof. intros [? ?]%bool_decide_eq_true. by apply short_field. Qed.
Lemma demo_key_ok id : id = u "s1" \/ id = u "s2" -> key_ok (command_key demo_ann id).
Proof.
  intros Hid. refine (conj (short_text _ _) (conj (short_text _ _) (short_text _ _))); [by vm_compute|by vm_compute|].
  destruct Hid as [-> | ->]; by vm_compute.
Qed.
Lemma demo_asked id : id = u "s1" \/ id = u "s2" -> asked_by demo_control id demo_room_store.
Proof. intros Hid principal [= <-]. by apply demo_key_ok. Qed.
Lemma demo_agent_wf : value_wf demo_agent.
Proof. json_wf. Qed.

Lemma start_prepared_Ok : demo_prepare_start demo_room_store = Ok (value_of no_start_plan demo_prepare_start demo_room_store, start_prepared).
Proof. refine (step_Ok no_start_plan demo_prepare_start demo_room_store _). by vm_compute. Qed.
Lemma start_authorized_Ok : demo_authorize_start start_prepared = Ok (value_of no_start_effect demo_authorize_start start_prepared, start_authorized).
Proof. refine (step_Ok no_start_effect demo_authorize_start start_prepared _). by vm_compute. Qed.
Lemma start_failed_Ok : demo_fail_start start_authorized = Ok (value_of (MkLaunchFailure [] [] []) demo_fail_start start_authorized, start_failed).
Proof. refine (step_Ok (MkLaunchFailure [] [] []) demo_fail_start start_authorized _). by vm_compute. Qed.
Lemma stop_prepared_Ok : demo_prepare_stop demo_room_store = Ok (value_of Finalize demo_prepare_stop demo_room_store, stop_prepared).
Proof. refine (step_Ok Finalize demo_prepare_stop demo_room_store _). by vm_compute. Qed.
Lemma stop_authorized_Ok : demo_authorize_stop stop_prepared = Ok (value_of (MkStopEffect [] [] [] [] []) demo_authorize_stop stop_prepared, stop_authorized).
Proof. refine (step_Ok (MkStopEffect [] [] [] [] []) demo_authorize_stop stop_prepared _). by vm_compute. Qed.
Lemma stop_recorded_Ok : demo_record_stop stop_authorized = Ok (value_of tt demo_record_stop stop_authorized, stop_recorded).
Proof. refine (step_Ok tt demo_record_stop stop_authorized _). by vm_compute. Qed.
Lemma stop_finalized_Ok : demo_finalize_stop stop_recorded = Ok (value_of no_mutation demo_finalize_stop stop_recorded, stop_finalized).
Proof. refine (step_Ok no_mutation demo_finalize_stop stop_recorded _). by vm_compute. Qed.

Lemma start_prepared_step : history_step demo_room_store start_prepared.
Proof. exact (HsCommand _ _ (LsPrepareLaunch _ _ _ _ _ _ _ _ _ demo_agent_wf (demo_asked _ (or_introl eq_refl)) start_prepared_Ok)). Qed.
Lemma start_authorized_step : history_step start_prepared start_authorized.
Proof. exact (HsCommand _ _ (LsAuthorizeStart _ _ _ _ _ _ _ _ _ _ _ _ start_authorized_Ok)). Qed.
Lemma start_failed_step : history_step start_authorized start_failed.
Proof. exact (HsCommand _ _ (LsFailLaunch _ _ _ _ _ _ _ _ _ _ _ start_failed_Ok)). Qed.
Lemma stop_authorized_step : history_step stop_prepared stop_authorized.
Proof. exact (HsCommand _ _ (LsAuthorizeStop _ _ _ _ _ _ _ _ _ stop_authorized_Ok)). Qed.
Lemma stop_later_steps : rtc history_step stop_authorized stop_finalized.
Proof.
  eapply rtc_l; [exact (HsCommand _ _ (LsRecordStop _ _ _ _ _ _ _ stop_recorded_Ok))|].
  apply rtc_once. exact (HsCommand _ _ (LsFinalizeStop _ _ _ _ _ _ _ stop_finalized_Ok)).
Qed.
Lemma stop_steps : rtc history_step stop_prepared stop_finalized.
Proof. eapply rtc_l; [exact stop_authorized_step|exact stop_later_steps]. Qed.
Lemma start_prepared_ok : lifecycle_ok start_prepared.
Proof. exact (step_lifecycle_ok (fun _ _ E => E) (fun _ _ E => E) _ _ start_prepared_step demo_lifecycle_ok). Qed.
Lemma stop_prepared_ok : lifecycle_ok stop_prepared.
Proof.
  exact (step_lifecycle_ok (fun _ _ E => E) (fun _ _ E => E) _ _
    (HsCommand _ _ (LsPrepareStop _ _ _ _ _ _ _ _ (demo_asked _ (or_intror eq_refl)) stop_prepared_Ok)) demo_lifecycle_ok).
Qed.
Lemma start_authorizes : authorizes demo_start_operation start_prepared start_authorized.
Proof. left. left. do 9 eexists. exact start_authorized_Ok. Qed.
Lemma stop_authorizes : authorizes_stop demo_stop_operation stop_prepared stop_authorized.
Proof. do 6 eexists. exact stop_authorized_Ok. Qed.

(** The server finds the runtime of the start gone, and the start is asked for again. *)
Definition demo_candidate : RuntimeReconciliationCandidate :=
  run_tx (MkReconciliationCandidate demo_turn None []) (c ← load_candidate (u "room") (u "agent-1") start_authorized; ok_or c Database).
Abbreviation demo_gone := (apply_live_reconciliation demo_server demo_candidate Gone 6) (only parsing).
Definition start_gone : RoomStore := step StillUnresolved demo_gone start_authorized.
Definition start_again : RoomStore := step no_start_effect demo_authorize_start start_gone.
Lemma start_gone_Ok : demo_gone start_authorized = Ok (value_of StillUnresolved demo_gone start_authorized, start_gone).
Proof. refine (step_Ok StillUnresolved demo_gone start_authorized _). by vm_compute. Qed.
Lemma start_again_Ok : demo_authorize_start start_gone = Ok (value_of no_start_effect demo_authorize_start start_gone, start_again).
Proof. refine (step_Ok no_start_effect demo_authorize_start start_gone _). by vm_compute. Qed.
Lemma start_gone_step : history_step start_authorized start_gone.
Proof. exact (HsAbsence _ _ (AbLive _ _ _ _ _ _ start_gone_Ok)). Qed.
Lemma start_authorizes_again : authorizes demo_start_operation start_gone start_again.
Proof. left. left. do 9 eexists. exact start_again_Ok. Qed.

(** *** Witnesses *)

Lemma effect_authorized_again_witness : exists before after,
  rtc history_step start_authorized before /\ observed_again demo_start_operation before after /\ rtc history_step after start_gone.
Proof.
  exact (effect_authorized_again (fun _ _ E => E) (fun _ _ E => E) demo_start_operation start_prepared start_authorized start_gone
    start_again start_prepared_ok start_authorizes (rtc_once _ _ start_gone_step) start_authorizes_again).
Defined.

Lemma stop_authorized_once_witness : ~ authorizes demo_stop_operation stop_finalized stop_finalized.
Proof.
  exact (stop_authorized_once (fun _ _ E => E) (fun _ _ E => E) demo_stop_operation stop_prepared stop_authorized stop_finalized
    stop_finalized stop_prepared_ok stop_authorizes stop_later_steps).
Defined.

Definition demo_start_row : LifecycleRow :=
  reserved_row demo_server (new_reservation demo_ann (u "s1") START (canonical_payload_hash demo_agent) (u "agent-1") demo_start_operation)
    demo_agent.
Lemma one_request_per_session_witness : command_key demo_ann (u "s1") = command_key demo_ann (u "s1").
Proof.
  apply (one_request_per_session (fun _ _ E => E) (fun _ _ E => E) demo_room_store start_prepared _ _ demo_start_row demo_start_row
    demo_lifecycle_ok (rtc_once _ _ start_prepared_step)); by vm_compute.
Defined.

Lemma stop_answered_when_recorded_witness : exists before after row,
  rtc history_step stop_prepared before /\ history_step before after /\ rtc history_step after stop_finalized /\
  unrecorded (phase (command_key demo_ann (u "s2")) (view before)) = true /\
  unrecorded (phase (command_key demo_ann (u "s2")) (view after)) = false /\
  st_reservations before !! command_key demo_ann (u "s2") = Some row /\
  (phase (command_key demo_ann (u "s2")) (view after) = RequestUnderWay ActionStop IntentEffectApplied \/
   absence_of (row_session (command_key demo_ann (u "s2")) row) before after).
Proof.
  apply (stop_answered_when_recorded (fun _ _ E => E) (fun _ _ E => E) stop_prepared stop_finalized (command_key demo_ann (u "s2"))
    stop_prepared_ok stop_steps); [by vm_compute|]. apply (bool_decide_unpack _). by vm_compute.
Defined.

Lemma lifecycle_refines_machine_witness :
  rtc (fun v v' => exists e, view_step e v v') (view stop_prepared) (view stop_finalized) /\ lifecycle_ok stop_finalized.
Proof. exact (lifecycle_refines_machine (fun _ _ E => E) (fun _ _ E => E) stop_prepared stop_finalized stop_prepared_ok stop_steps). Defined.

Lemma start_failed_ok : lifecycle_ok start_failed.
Proof.
  refine (steps_lifecycle_ok (fun _ _ E => E) (fun _ _ E => E) start_prepared _ _ start_prepared_ok).
  eapply rtc_l; [exact start_authorized_step|]. apply rtc_once, start_failed_step.
Qed.
Lemma settled_request_has_no_effect_witness :
  ~ authorizes (key_operation (command_key demo_ann (u "s1")) START) start_failed start_failed.
Proof.
  apply (settled_request_has_no_effect (fun _ _ E => E) (fun _ _ E => E) (command_key demo_ann (u "s1")) START start_failed start_failed
    start_failed start_failed_ok (rtc_refl _ _)).
  - apply demo_key_ok. by left.
  - apply short_text. by vm_compute.
  - right. by vm_compute.
Defined.

Lemma demo_paused_Ok :
  demo_pause demo_resident = Ok (value_of (MkCommandOutcome VNull no_event [] false) demo_pause demo_resident, demo_paused).
Proof. refine (step_Ok (MkCommandOutcome VNull no_event [] false) demo_pause demo_resident _). by vm_compute. Qed.
Definition demo_resume_outcome : CommandOutcome := default (MkCommandOutcome VNull no_event [] true) (value_of None demo_resume demo_paused).
Lemma demo_resume_Ok : demo_resume demo_paused = Ok (value_of None demo_resume demo_paused, demo_resumed).
Proof. refine (step_Ok None demo_resume demo_paused _). by vm_compute. Qed.
Lemma demo_resume_Some : value_of None demo_resume demo_paused = Some demo_resume_outcome.
Proof.
  assert (bool_decide (is_Some (value_of None demo_resume demo_paused)) = true) as [o E]%bool_decide_eq_true by (by vm_compute).
  unfold demo_resume_outcome. by rewrite E.
Qed.
Lemma demo_resumed_Ok : demo_resume demo_paused = Ok (Some demo_resume_outcome, demo_resumed).
Proof. rewrite <- demo_resume_Some. exact demo_resume_Ok. Qed.
Lemma demo_paused_new : co_deduplicated (value_of (MkCommandOutcome VNull no_event [] false) demo_pause demo_resident) = false.
Proof. by vm_compute. Qed.
Lemma demo_resumed_new : co_deduplicated demo_resume_outcome = false.
Proof. by vm_compute. Qed.
Lemma demo_agent_id : payload_agent_id demo_agent = Ok (u "agent-1").
Proof. by vm_compute. Qed.
Lemma pause_resume_restores_witness :
  exists s, st_sessions demo_resident !! (u "room", u "agent-1") = Some s /\ s_runtime_status (d_public s) = RuntimeIdle /\
    active_turn_authority s = Ok false /\
    (d_public <$> st_sessions demo_paused !! (u "room", u "agent-1")) =
      Some ((d_public s) <| s_enabled := false |> <| s_runtime_status := RuntimePaused |> <| s_updated_at := 5 |>) /\
    st_sessions demo_resumed =
      <[(u "room", u "agent-1") := s <| d_public := (d_public s) <| s_updated_at := 6 |> |>]> (st_sessions demo_resident).
Proof.
  exact (pause_resume_restores (fun _ _ E => E) demo_control demo_control (u "p1") (u "p2") demo_agent demo_agent demo_runtime demo_runtime
    5 6 _ _ (u "agent-1") (u "room") demo_resident demo_paused demo_resumed demo_paused_Ok demo_resumed_Ok demo_paused_new demo_resumed_new
    demo_agent_id demo_agent_id eq_refl eq_refl).
Defined.

(** A long message with a slash in the middle of a word: its last [PUBLIC_LIFECYCLE_ERROR_LIMIT] characters begin with
    the slash. None of the expressions but [unix_path] matches in it or in what is left of it. *)
Definition long_failure : str := u "provider exited: see logs" ++ [47%N] ++ repeat 98%N 511.
Section cut_message.
#[local] Existing Instance only_unix_paths.
Abbreviation demo_fail_start_with :=
  (fun message => fail_agent_launch demo_ann (u "s1") demo_agent demo_start_operation (u "provider_exited") message START 6) (only parsing).
Lemma demo_failure : launch_failure (u "room") (u "agent-1") demo_fail_start_with.
Proof. by apply (FailsLaunch _ _ demo_ann (u "s1") demo_agent demo_start_operation (u "provider_exited") START 6 true); vm_compute. Qed.
Lemma long_failure_cut :
  bool_decide (redact_persisted_diagnostic_text (public_lifecycle_error long_failure "Provider launch failed.") 512 =
    public_lifecycle_error long_failure "Provider launch failed.") = false.
Proof. by vm_compute. Qed.
Lemma demo_no_request : no_request_waits (u "room") (u "agent-1") start_authorized.
Proof. unfold no_request_waits. apply (bool_decide_unpack _). by vm_compute. Qed.
Lemma launch_failure_recorded_iff_witness : demo_fail_start_with long_failure start_authorized = Err stored_rejection_invalid.
Proof.
  pose proof (launch_failure_recorded_iff (u "room") (u "agent-1") demo_fail_start_with (u "It exited.") long_failure start_authorized
    demo_failure ltac:(by vm_compute) demo_no_request) as Hw.
  cbv zeta in Hw. rewrite long_failure_cut in Hw. exact Hw.
Defined.
End cut_message.

(** The agent whose turn runs is started again, and the start fails after its effect. *)
Definition demo_running : RoomStore := demo_with "ordered" [demo_turn].
Definition running_start : RoomStore := step no_start_plan demo_prepare_start demo_running.
Definition running_authorized : RoomStore := step no_start_effect demo_authorize_start running_start.
Definition running_failed : RoomStore := step (MkLaunchFailure [] [] []) demo_fail_start running_authorized.
Definition running_effect : AgentStartEffect :=
  match value_of no_start_plan demo_prepare_start demo_running with StartRuntime e => e | StartOutcome _ => no_start_effect end.
Lemma running_start_Ok : demo_prepare_start demo_running = Ok (StartRuntime running_effect, running_start).
Proof. by vm_compute. Qed.
Lemma running_authorized_Ok :
  demo_authorize_start running_start = Ok (value_of no_start_effect demo_authorize_start running_start, running_authorized).
Proof. refine (step_Ok no_start_effect demo_authorize_start running_start _). by vm_compute. Qed.
Lemma running_failed_Ok :
  demo_fail_start running_authorized = Ok (value_of (MkLaunchFailure [] [] []) demo_fail_start running_authorized, running_failed).
Proof. refine (step_Ok (MkLaunchFailure [] [] []) demo_fail_start running_authorized _). by vm_compute. Qed.
Lemma failed_start_strands_turn_witness :
  exists s3, st_sessions running_failed !! (u "room", u "agent-1") = Some s3 /\
    s_active_turn_id (d_public s3) = u "turn-1" /\ active_turn_authority s3 = Err MkInvalidTurnAuthority /\
    forall st, st_sessions st !! (u "room", u "agent-1") = Some s3 -> stranded (u "room") (u "agent-1") st.
Proof.
  apply (failed_start_strands_turn demo_server demo_server demo_control demo_control demo_ann (u "s1") demo_agent START demo_start_operation
    (u "h-agent-1") (u "o") (u "l") (u "provider_exited") (u "It exited.") (u "agent-1") 5 6 demo_running running_start running_start
    running_authorized running_authorized running_failed demo_turn running_effect
    (value_of no_start_effect demo_authorize_start running_start)
    (value_of (MkLaunchFailure [] [] []) demo_fail_start running_authorized)).
  - done.
  - done.
  - by vm_compute.
  - by vm_compute.
  - by vm_compute.
  - exact running_start_Ok.
  - done.
  - exact running_authorized_Ok.
  - done.
  - exact running_failed_Ok.
Defined.
