(* ===== verification/System.v ===== *)
(** * The room at work

    The transactions of the floor, composed: messages are posted, changed and
    deleted, turns are assigned, completed, declined, failed, interrupted and
    quarantined. Over any history each session follows the turn machine of
    Turn.v, whose ledgers a transaction moves only as it answers and deletes
    ([grows]): a message leaves the queue of an agent once. And a room that stays
    in ordered conversation never has two agents at work. *)

From Stdlib Require Import String.
From stdpp Require Import gmap sorting.
From S2P Require Import Prelude Text Diagnostic Json Model Command Vote Mutation Projection Settings Store Budget Turn.
From S2P Require Import Routing RoomStore Authority Requests Execution Observation Attachments VoteStore.
From S2P Require Import Scheduler Completion Calm Messages Launch Interrupt.

(** ** Paths of one session *)

(** What a session becomes without a new message for it. On the way the inputs of a turn are answered only if [P], and
    only what satisfies [G] is dropped. *)
Definition path (P : Prop) (G : str -> Prop) (s s' : DurableAgentSession) : Prop := forall enq ack del,
  machine_ok (MkTurnMachine s enq ack del) -> exists answered dropped,
    rtc turn_step (MkTurnMachine s enq ack del) (MkTurnMachine s' enq (ack ++ answered) (del ++ dropped)) /\
    (answered = [] \/ P) /\ Forall G dropped.
Lemma path_plain P G s s' :
  (forall enq ack del, machine_ok (MkTurnMachine s enq ack del) ->
    turn_step (MkTurnMachine s enq ack del) (MkTurnMachine s' enq ack del)) -> path P G s s'.
Proof. intros Hs enq ack del Hok. exists [], []. rewrite !app_nil_r. split_and!; [by apply rtc_once, Hs|by left|done]. Qed.
Lemma path_weaken (P P' : Prop) (G G' : str -> Prop) s s' :
  (P -> P') -> (forall e, G e -> G' e) -> path P G s s' -> path P' G' s s'.
Proof.
  intros HP HG Hp enq ack del Hok. destruct (Hp enq ack del Hok) as (a & d & Hs & Ha & Hd). exists a, d.
  split_and!; [done|tauto|by eapply Forall_impl].
Qed.

(** The stored turn tuple is consistent. *)
Definition consistent (s : DurableAgentSession) : Prop := is_ok (active_turn_authority s) = true.

Lemma machine_steps m m' : rtc turn_step m m' -> machine_ok m -> machine_ok m'.
Proof. induction 1 as [|x y z Hxy _ IH]; [done|]. intros Hok. apply IH. by eapply machine_step. Qed.

(** A consistent session is where some machine is. *)
Lemma consistent_machine s :
  consistent s -> machine_ok (MkTurnMachine s (input_ids (d_inflight_inputs s ++ d_pending_inputs s)) [] []).
Proof.
  intros Ha. split; simpl.
  - exact Ha.
  - unfold input_ids. rewrite map_app. symmetry. apply filter_all, Forall_forall. intros ? _. apply not_elem_of_nil.
  - by apply (qo_nodup _ (authority_queue _ Ha)).
  - intros ? []%elem_of_nil.
Qed.
Lemma path_consistent P G s s' : path P G s s' -> consistent s -> consistent s'.
Proof.
  intros Hp Hs. pose proof (consistent_machine s Hs) as Hm. destruct (Hp _ _ _ Hm) as (ack & del & Hsteps & _).
  exact (mk_authority _ (machine_steps _ _ Hsteps Hm)).
Qed.

Lemma path_refl P G s : path P G s s.
Proof. intros enq ack del _. exists [], []. rewrite !app_nil_r. split_and!; [done|by left|constructor]. Qed.
#[global] Instance path_preorder P G : PreOrder (path P G).
Proof.
  split; [intros s; by apply path_refl|]. intros a b c Hab Hbc enq ack del Hok.
  destruct (Hab enq ack del Hok) as (a1 & d1 & Hs1 & Ha1 & Hd1).
  destruct (Hbc _ _ _ (machine_steps _ _ Hs1 Hok)) as (a2 & d2 & Hs2 & Ha2 & Hd2). exists (a1 ++ a2), (d1 ++ d2).
  rewrite !app_assoc. split_and!; [by etrans| |by apply Forall_app]. destruct Ha1 as [->|?], Ha2 as [->|?]; auto.
Qed.

(** A path on which no turn begins. *)
Record turns (P : Prop) (G : str -> Prop) (s s' : DurableAgentSession) : Prop := MkTurns {
  tn_path : path P G s s';
  tn_running : consistent s -> is_running s' = true -> is_running s = true
}.
#[global] Instance turns_preorder P G : PreOrder (turns P G).
Proof.
  split; [by split|]. intros a b c [Hab Rab] [Hbc Rbc]. split; [by etrans|]. intros Ha Hc.
  apply Rab, Rbc; [done| |done]. by eapply path_consistent.
Qed.

Lemma clear_not_running s : turn_clear s -> is_running s = false.
Proof.
  intros Hc. unfold is_running, turn_authority_is_active. destruct (active_turn_authority s) as [[]|] eqn:E; try done.
  apply authority_true_iff in E as [_ [Ht _ _ _ _ _]]. by destruct (Ht (tc_turn _ Hc)).
Qed.
Lemma consistent_cases s : consistent s -> (turn_running s /\ is_running s = true) \/ (turn_clear s /\ is_running s = false).
Proof.
  intros Hc. pose proof (proj1 (authority_cases s) Hc) as [[Hq Hr]|[Hq Hr]]; [left|right].
  - split; [done|]. unfold is_running, turn_authority_is_active.
    assert (active_turn_authority s = Ok true) as -> by (by apply authority_true_iff). done.
  - split; [done|]. by apply clear_not_running.
Qed.

Lemma lifecycle_turns P G s s' : lifecycle_change s s' -> turns P G s s'.
Proof.
  intros Hl. split; [apply path_plain; intros; by apply TurnLifecycle|].
  intros Hc Hrun. destruct (consistent_cases s Hc) as [[_ ?]|[Hclear _]]; [done|]. exfalso.
  destruct Hl as (_ & _ & _ & _ & _ & Ht & _). unfold is_running, turn_authority_is_active in Hrun.
  destruct (active_turn_authority s') as [[]|] eqn:E; try done. apply authority_true_iff in E as [_ [Hs' _ _ _ _ _]].
  rewrite Ht, (tc_turn _ Hclear) in Hs'. done.
Qed.

Lemma ended_turns P G s s' : path P G s s' -> turn_clear s' -> turns P G s s'.
Proof. intros Hp Hc. split; [done|]. intros _. by rewrite clear_not_running. Qed.

Lemma complete_turns (P : Prop) G turn_id now s : P ->
  require_active_turn s turn_id = Ok tt -> turns P G s (complete_session_state (d_input_up_to_event_id s) (d_input_up_to_seq s) now s).
Proof.
  intros HP Hr. apply ended_turns; [|apply complete_clear]. intros enq ack del _. exists (input_ids (d_inflight_inputs s)), [].
  rewrite app_nil_r. split_and!; [by eapply rtc_once, TurnComplete|by right|done].
Qed.

Lemma fail_turns P (G : str -> Prop) turn_id deleted merged code message now s :
  require_active_turn s turn_id = Ok tt -> merge_room_inputs (d_inflight_inputs s ++ d_pending_inputs s) = Ok merged ->
  Forall G deleted ->
  turns P G s (fail_session_state (filter (fun i => qi_event_id i ∉ (deleted : list str)) merged) code message now s).
Proof.
  intros Hr Hm Hd. apply ended_turns; [|apply fail_clear]. intros enq ack del _. exists [], (filter (fun e => e ∈ deleted) (input_ids merged)).
  rewrite app_nil_r. split_and!; [by eapply rtc_once, TurnFail|by left|]. apply Forall_forall. intros e [He _]%list_elem_of_filter.
  by eapply (proj1 (Forall_forall _ _)).
Qed.

Lemma running_same_turn s s' :
  consistent s' -> s_active_turn_id (d_public s') = s_active_turn_id (d_public s) -> consistent s ->
  is_running s' = true -> is_running s = true.
Proof.
  intros Hc' Ht Hc Hr. destruct (consistent_cases s Hc) as [[_ ?]|[Hclear _]]; [done|].
  destruct (consistent_cases s' Hc') as [[Hrun _]|[_ ?]]; [|congruence]. destruct (tr_turn _ Hrun). rewrite Ht. apply Hclear.
Qed.

Lemma remove_turns P (G : str -> Prop) e s : G e -> turns P G s (remove_pending e s).
Proof.
  intros He. assert (path P G s (remove_pending e s)) as Hp.
  { intros enq ack del _. exists [], (filter (fun e' => e' = e) (input_ids (d_pending_inputs s))). rewrite app_nil_r.
    split_and!; [apply rtc_once, TurnRemove|by left|]. by apply Forall_forall; intros ? [-> _]%list_elem_of_filter. }
  split; [done|]. intros Hc. apply running_same_turn; [by eapply path_consistent|done|done].
Qed.

Lemma begun_path P G s s' : begun s s' -> path P G s s'.
Proof. intros Hb. apply path_plain. intros. apply (bg_step _ _ Hb). Qed.

(** A change that keeps the turn fields and the status of the runtime. *)
Lemma same_runtime_turns P G s s' :
  d_pending_inputs s' = d_pending_inputs s -> d_inflight_inputs s' = d_inflight_inputs s ->
  d_active_source_event_id s' = d_active_source_event_id s -> d_input_up_to_event_id s' = d_input_up_to_event_id s ->
  d_input_up_to_seq s' = d_input_up_to_seq s -> s_active_turn_id (d_public s') = s_active_turn_id (d_public s) ->
  s_turn_phase (d_public s') = s_turn_phase (d_public s) -> s_runtime_status (d_public s') = s_runtime_status (d_public s) ->
  turns P G s s'.
Proof.
  intros Hp Hi Ha He Hq Ht Hph Hr.
  assert (consistent s -> lifecycle_change s s') as Hl.
  { intros Hc. unfold lifecycle_change. rewrite Hr. split_and!; [done..| |];
      destruct (consistent_cases s Hc) as [[Hrun _]|[Hclear _]]; try (by destruct Hrun); by destruct Hclear. }
  split.
  - intros enq ack del Hok. by apply (lifecycle_turns P G s s' (Hl (mk_authority _ Hok))).
  - intros Hc. by apply (lifecycle_turns P G s s' (Hl Hc)).
Qed.

(** ** What a transaction does to the sessions

    [tracks b k st m]: the session under [k] is where the machine [m] is, and everything queued for it was drawn
    among the first [b] values. [floors] are rooms in ordered conversation; [lone st]: in none of them two agents
    have a turn. [ends k]: the turn of the session may be answered; [gone k e]: the message may be dropped from what
    is queued for the session. *)

Section system.
Context `{UnicodeGeneralCategory, CharCase, UnicodeCase, Caseless, Sha256, Chrono, Entropy, PersonaLibrary, UuidCrate, ChronoRange,
  AttendeeParent, RequestSerde, RegexCrate}.

Definition drawn_before (b : nat) (e : str) : Prop := exists n, (n < b)%nat /\ e = uuid_at n.
(** Drawn by the transaction. *)
Definition fresh (b b' : nat) (e : str) : Prop := exists n, (b <= n < b')%nat /\ e = uuid_at n.
Lemma fresh_wider a b b' c e : (a <= b)%nat -> (b' <= c)%nat -> fresh b b' e -> fresh a c e.
Proof. intros Ha Hc (n & Hn & ->). exists n. split; [lia|done]. Qed.

Record tracks (b : nat) (k : str * str) (st : RoomStore) (m : turn_machine) : Prop := MkTracks {
  tk_session : st_sessions st !! k = Some (tm_session m);
  tk_machine : machine_ok m;
  tk_drawn : Forall (drawn_before b) (tm_enqueued m)
}.

Variable floors : str -> Prop.
Variable ends : str * str -> Prop.
Variable gone : str * str -> str -> Prop.

(** What a machine did on the way. *)
Definition grows (k : str * str) (b b' : nat) (m m' : turn_machine) : Prop := exists answered dropped new,
  tm_acknowledged m' = tm_acknowledged m ++ answered /\ tm_dropped m' = tm_dropped m ++ dropped /\
  tm_enqueued m' = tm_enqueued m ++ new /\ (answered = [] \/ ends k) /\ Forall (gone k) dropped /\ Forall (fresh b b') new.
Lemma grows_refl k b b' m m' :
  tm_acknowledged m' = tm_acknowledged m -> tm_dropped m' = tm_dropped m -> tm_enqueued m' = tm_enqueued m -> grows k b b' m m'.
Proof. intros Ha Hd He. exists [], [], []. rewrite !app_nil_r. split_and!; auto. Qed.
Lemma grows_trans k a b c m1 m2 m3 :
  (a <= b)%nat -> (b <= c)%nat -> grows k a b m1 m2 -> grows k b c m2 m3 -> grows k a c m1 m3.
Proof.
  intros Hab Hbc (a1 & d1 & n1 & Ea1 & Ed1 & En1 & Ha1 & Hd1 & Hn1) (a2 & d2 & n2 & Ea2 & Ed2 & En2 & Ha2 & Hd2 & Hn2).
  exists (a1 ++ a2), (d1 ++ d2), (n1 ++ n2). rewrite !app_assoc. split_and!; [congruence..| |by apply Forall_app|].
  - destruct Ha1 as [->|?], Ha2 as [->|?]; auto.
  - apply Forall_app. split; (eapply Forall_impl; [eassumption|]); intros e; apply fresh_wider; lia.
Qed.
Lemma grows_later k b b' b'' m m' : (b' <= b'')%nat -> grows k b b' m m' -> grows k b b'' m m'.
Proof.
  intros Hb (a & d & n & Ea & Ed & En & Ha & Hd & Hn). exists a, d, n. split_and!; try done.
  eapply Forall_impl; [exact Hn|]. intros e. by apply fresh_wider.
Qed.

Definition runs (st : RoomStore) (k : str * str) : Prop := exists s, st_sessions st !! k = Some s /\ is_running s = true.
Record lone (st : RoomStore) : Prop := MkLone {
  ln_consistent : forall k s, st_sessions st !! k = Some s -> consistent s;
  ln_one : forall k1 k2, floors k1.1 -> k1.1 = k2.1 -> runs st k1 -> runs st k2 -> k1 = k2
}.
Definition floor_settings (room : Room) (settings : RoomSettings) : Prop :=
  floors (rm_room_id room) -> is_ordered settings = true.
Definition floors_ordered (st : RoomStore) : Prop := forall room_id room settings,
  load_active_room room_id st = Ok (room, settings) -> floor_settings room settings.

Record followed (b b' : nat) (st st' : RoomStore) : Prop := MkFollowed {
  fo_ok : store_ok st';
  fo_rooms : st_rooms st' = st_rooms st;
  fo_le : (b <= b')%nat;
  fo_lone : lone st -> lone st';
  fo_tracks : forall k m, tracks b k st m -> exists m', rtc turn_step m m' /\ tracks b' k st' m' /\ grows k b b' m m'
}.
Definition follows (b b' : nat) (st st' : RoomStore) : Prop := store_ok st -> followed b b' st st'.

Lemma follows_trans a b c st1 st2 st3 : follows a b st1 st2 -> follows b c st2 st3 -> follows a c st1 st3.
Proof.
  intros F12 F23 Hok. destruct (F12 Hok) as [Hok2 Hr2 Hb2 Hl2 Ht2]. destruct (F23 Hok2) as [Hok3 Hr3 Hb3 Hl3 Ht3].
  split; [done|by rewrite Hr3|lia|by auto|]. intros k m Hm. destruct (Ht2 k m Hm) as (m1 & Hs1 & Hm1 & Hg1).
  destruct (Ht3 k m1 Hm1) as (m2 & Hs2 & Hm2 & Hg2). exists m2. split_and!; [by etrans|done|by eapply grows_trans].
Qed.
#[local] Instance follows_preorder b : PreOrder (follows b b).
Proof.
  split; [|intros st1 st2 st3; apply follows_trans]. intros st Hok. split; [done..|]. intros k m Hm. exists m.
  split_and!; [done..|by apply grows_refl].
Qed.

Lemma follows_later b b' b'' st st' : (b' <= b'')%nat -> follows b b' st st' -> follows b b'' st st'.
Proof.
  intros Hb Hf Hok. destruct (Hf Hok) as [Hok' Hr Hle Hl Hm]. split; [done|done|lia|done|]. intros k m Ht.
  destruct (Hm k m Ht) as (m' & Hs & [? ? Hd] & Hg). exists m'. split_and!; [done| |by eapply grows_later]. split; [done..|].
  eapply Forall_impl; [exact Hd|]. intros e (n & Hn & ->). exists n. split; [lia|done].
Qed.

Lemma same_rooms_ordered st st' : st_rooms st' = st_rooms st -> floors_ordered st -> floors_ordered st'.
Proof. intros Hr Hf room_id room settings. unfold load_active_room, load_room_with_settings. rewrite Hr. apply Hf. Qed.

(** Sessions that stay as they are. *)
Record quiet (st st' : RoomStore) : Prop := MkQuiet {
  qu_sessions : st_sessions st' = st_sessions st;
  qu_ok : store_ok st -> store_ok st';
  qu_drawn : (st_drawn st <= st_drawn st')%nat;
  qu_rooms : st_rooms st' = st_rooms st
}.
#[local] Instance quiet_preorder : PreOrder quiet.
Proof. split; [by intros st; split|]. intros a b c [] []. split; try congruence; [by eauto|lia]. Qed.

Lemma quiet_follows b st st' : quiet st st' -> follows b b st st'.
Proof.
  intros [Hs Hok _ Hr] Hst. split; [by apply Hok|done|done| |].
  - intros [Hc Ho]. split; unfold runs; by rewrite Hs.
  - intros k m [Hk Hm Hd]. exists m. split_and!; [done| |by apply grows_refl]. split; [by rewrite Hs|done..].
Qed.

Lemma appends_quiet st st' : appends st st' -> calm st st' -> quiet st st'.
Proof. intros Ha Hc. split; [apply Ha|apply Ha|apply Hc|apply Ha]. Qed.

(** Sessions that change. *)
Lemma changes_tracks R b b' st st' :
  store_ok st ->
  (forall s s' enq ack del, R s s' -> machine_ok (MkTurnMachine s enq ack del) -> Forall (drawn_before b) enq ->
     exists m', rtc turn_step (MkTurnMachine s enq ack del) m' /\ tm_session m' = s' /\ Forall (drawn_before b') (tm_enqueued m') /\
       grows (session_key s) b b' (MkTurnMachine s enq ack del) m') ->
  changes R st st' -> forall k m, tracks b k st m -> exists m', rtc turn_step m m' /\ tracks b' k st' m' /\ grows k b b' m m'.
Proof.
  intros Hst HR [Hok Hc] k [s enq ack del] [Hk Hm Hd]. simpl in *. specialize (Hc k). rewrite Hk in Hc.
  inversion Hc as [? s' Hs Heq1 Heq2|]; subst. destruct (HR s s' enq ack del Hs Hm Hd) as (m' & Hsteps & <- & Hd' & Hg).
  exists m'. rewrite <- (so_keyed _ Hst _ _ Hk). split_and!; [done| |done].
  split; [by rewrite (so_keyed _ Hst _ _ Hk)|by eapply machine_steps|done].
Qed.

(** What a session may become. *)
Definition path_of (s s' : DurableAgentSession) : Prop := path (ends (session_key s)) (gone (session_key s)) s s'.
Definition turns_of (s s' : DurableAgentSession) : Prop := turns (ends (session_key s)) (gone (session_key s)) s s'.
#[local] Instance turns_of_refl : Reflexive turns_of.
Proof. intros s. apply (turns_preorder _ _). Qed.

Lemma path_tracks b st st' :
  store_ok st ->
  changes path_of st st' -> forall k m, tracks b k st m -> exists m', rtc turn_step m m' /\ tracks b k st' m' /\ grows k b b m m'.
Proof.
  intros Hst. apply changes_tracks; [done|]. intros s s' enq ack del Ht Hm Hd.
  destruct (Ht enq ack del Hm) as (a & d & Hs & Ha & Hg).
  eexists. split_and!; [exact Hs|done|done|]. exists a, d, []. simpl. rewrite app_nil_r. by split_and!.
Qed.

(** When no session begins a turn, the floors stay exclusive. *)
Lemma changes_lone (R : DurableAgentSession -> DurableAgentSession -> Prop) st st' :
  (forall s s', R s s' -> consistent s -> consistent s' /\ (is_running s' = true -> is_running s = true)) ->
  changes R st st' -> lone st -> lone st'.
Proof.
  intros HR [_ Hc] [Hall Hone].
  assert (forall k, runs st' k -> runs st k) as Hruns.
  { intros k (s' & Hs' & Hr). specialize (Hc k). rewrite Hs' in Hc. inversion Hc as [s ? Hs Heq|]; subst. exists s. split; [done|].
    by eapply HR; [exact Hs|eapply Hall|]. }
  split; [|by eauto]. intros k s' Hs'. specialize (Hc k). rewrite Hs' in Hc. inversion Hc as [s ? Hs Heq|]; subst.
  by eapply HR; [|eapply Hall].
Qed.

Lemma turns_follows b st st' : st_rooms st' = st_rooms st -> changes turns_of st st' -> follows b b st st'.
Proof.
  intros Hr Hc Hst. split; [apply Hc|done|done| |].
  - eapply changes_lone; [|exact Hc]. intros s s' [Hp Hrun] Hs. split; [by eapply path_consistent|by apply Hrun].
  - apply path_tracks; [done|]. eapply changes_impl; [|exact Hc]. intros s s'. apply tn_path.
Qed.

Lemma save_follows b s s' st t st' :
  st_sessions st !! session_key s' = Some s -> turns (ends (session_key s')) (gone (session_key s')) s s' ->
  save_session s' st = Ok (t, st') -> follows b b st st'.
Proof.
  intros Hs Ht [_ ->]%save_session_Ok Hok. apply turns_follows; [done| |done]. eapply changes_save; [apply _|done|done|].
  unfold turns_of. by rewrite (so_keyed _ Hok _ _ Hs).
Qed.

(** Identifiers are drawn once and are never empty. *)
Hypothesis uuid_inj : Inj (=) (=) uuid_at.
Hypothesis uuid_some : forall n, uuid_at n <> [].

Lemma enqueued_rests n s s' :
  enqueued (uuid_at n) s s' -> consistent s -> consistent s' /\ (is_running s' = true -> is_running s = true).
Proof.
  intros [->|(kind & now & Hq & He)] Hc; [done|]. pose proof (consistent_machine s Hc) as Hm.
  assert (turn_step (MkTurnMachine s (input_ids (d_inflight_inputs s ++ d_pending_inputs s)) [] [])
    (MkTurnMachine s' (input_ids (d_inflight_inputs s ++ d_pending_inputs s) ++ [uuid_at n]) [] [])) as Hstep.
  { eapply TurnEnqueue; [apply uuid_some| |exact He]. by apply queues_event_false. }
  pose proof (mk_authority _ (machine_step _ _ Hstep Hm)) as Hc'. simpl in Hc'. split; [exact Hc'|].
  apply running_same_turn; [done| |done]. unfold enqueue in He. rewrite Hq in He. case_match; [done|]. by injection He as <-.
Qed.

Lemma route_follows b b' n settings event now st t st' :
  ev_id event = uuid_at n -> (b <= n < b')%nat ->
  route_message settings event now st = Ok (t, st') -> follows b b' st st'.
Proof.
  intros Hid Hn Hrun Hok. pose proof (ca_rooms _ _ (route_message_calm _ _ _ _ _ _ Hrun)) as Hrooms.
  apply route_message_changes in Hrun; [|done]. rewrite Hid in Hrun. split; [apply Hrun|done|lia| |].
  { eapply changes_lone; [|exact Hrun]. apply enqueued_rests. }
  eapply changes_tracks; [done| |exact Hrun]. intros s s' enq ack del He Hm Hd.
  assert (Forall (drawn_before b') enq) as Hd'.
  { eapply Forall_impl; [exact Hd|]. intros e (i & Hi & ->). exists i. split; [lia|done]. }
  destruct He as [->|(kind & at_ & _ & He)].
  - eexists. split_and!; [done..|by apply grows_refl].
  - eexists. split_and!; [apply rtc_once; eapply TurnEnqueue; [apply uuid_some| |exact He]|done| |].
    + intros Hin. rewrite Forall_forall in Hd. apply Hd in Hin as (i & Hi & Heq%uuid_inj). lia.
    + simpl. apply Forall_app. split; [done|]. constructor; [|done]. exists n. split; [lia|done].
    + exists [], [], [uuid_at n]. simpl. rewrite !app_nil_r. split_and!; auto. constructor; [by exists n|constructor].
Qed.

Lemma clear_request_turns P G now s : turns P G s (clear_schedule_request now s).
Proof. by apply same_runtime_turns. Qed.

Lemma round_changes room_id settings now prepared st st' cs :
  store_ok st -> assignment_round room_id settings now prepared st st' cs -> changes (path False (fun _ => False)) st st'.
Proof. apply round_changes_with; [apply _|intros s s'; apply begun_path|intros s; apply clear_request_turns]. Qed.

(** Outside the chosen sessions of a round, those that have a turn had it. *)
Lemma round_runs room_id settings now prepared st st' cs k :
  assignment_round room_id settings now prepared st st' cs -> k ∉ map session_key (chosen_of settings cs) ->
  runs st' k -> runs st k.
Proof.
  intros Hround Hk (s' & Hs' & Hr). rewrite (rd_frame _ _ _ _ _ _ _ Hround k Hk) in Hs'.
  destruct (st_sessions st !! k) as [s|] eqn:Hs; [|done]. exists s. split; [done|]. injection Hs' as <-. revert Hr.
  case_match; [by rewrite clear_request_running|done].
Qed.

Lemma round_lone room settings now prepared st st' cs :
  store_ok st -> floor_settings room settings -> assignment_round (rm_room_id room) settings now prepared st st' cs ->
  lone st -> lone st'.
Proof.
  intros Hok Hfloor Hround [Hall Hone]. split.
  - destruct (round_changes _ _ _ _ _ _ _ Hok Hround) as [_ Hc]. intros k s' Hs'. specialize (Hc k). rewrite Hs' in Hc.
    inversion Hc as [s ? Hp Heq|]; subst. by eapply path_consistent; [|eapply Hall].
  - intros k1 k2 Hf Hk Hrun1 Hrun2. destruct (decide (k1.1 = rm_room_id room)) as [Hr|Hr].
    + rewrite Hr in Hf. specialize (Hfloor Hf).
      assert (forall k, k.1 = rm_room_id room -> runs st' k -> k ∈ map session_key (chosen_of settings cs)) as Hchosen.
      { intros k Hroom Hrun. destruct (decide (k ∈ map session_key (chosen_of settings cs))) as [|Hn]; [done|]. exfalso.
        destruct (round_runs _ _ _ _ _ _ _ _ Hround Hn Hrun) as (s & Hs & Hrs).
        pose proof (rd_floor _ _ _ _ _ _ _ Hround Hfloor) as Hidle. rewrite any_false_Forall, Forall_forall in Hidle.
        rewrite (Hidle s) in Hrs; [done|]. apply elem_of_room_rows. destruct k as [r sid]. simpl in Hroom. subst. by exists sid. }
      apply Hchosen in Hrun1; [|done]. apply Hchosen in Hrun2; [|congruence]. revert Hrun1 Hrun2. unfold chosen_of. rewrite Hfloor.
      destruct (merge_sort candidate_order cs) as [|c l]; simpl; [by intros ?%elem_of_nil|].
      by intros ->%list_elem_of_singleton ->%list_elem_of_singleton.
    + assert (forall k, k.1 = k1.1 -> runs st' k -> runs st k) as Hkeep.
      { intros k Hroom. eapply round_runs; [done|]. intros (c & -> & Hc)%list_elem_of_fmap.
        apply (round_key _ _ _ _ _ _ _ _ Hok Hround) in Hc as (_ & _ & Hc). congruence. }
      apply Hone; [done|done|by apply Hkeep|by apply Hkeep].
Qed.

Lemma assign_follows b room settings now st prepared st' :
  floor_settings room settings -> assign_available_pending room settings now st = Ok (prepared, st') -> follows b b st st'.
Proof.
  intros Hfloor Hr Hok. pose proof (ca_rooms _ _ (assign_available_pending_calm _ _ _ _ _ _ Hr)) as Hrooms.
  apply assign_available_pending_Ok in Hr as [(_ & -> & _)|[cs Hround]]; [by apply (follows_preorder b)| |done].
  split; [apply Hround|done|done|by eapply round_lone|]. apply path_tracks; [done|].
  eapply changes_impl; [|by eapply round_changes]. intros s s'. by apply path_weaken.
Qed.

(** ** Operations that leave the sessions alone *)

Lemma keeps_quiet {A} (m : rtx A) : keeps appends m -> keeps calm m -> keeps quiet m.
Proof. intros Ha Hc st a st' Hr. apply appends_quiet; [by eapply Ha|by eapply Hc]. Qed.

Lemma draw_uuid_quiet : keeps quiet draw_uuid.
Proof. apply keeps_quiet; [exact draw_uuid_appends|keeps]. Qed.
Lemma internal_event_quiet session event_type agent content extra now : keeps quiet (internal_event session event_type agent content extra now).
Proof. apply keeps_quiet; [|keeps]. by intros st e st' (_ & _ & _ & _ & ?)%internal_event_Ok. Qed.
Lemma session_state_event_quiet session now : keeps quiet (session_state_event session now).
Proof. apply keeps_quiet; [|keeps]. intros st e st'. apply session_state_event_appends. Qed.
Lemma error_event_quiet session turn_id code message now : keeps quiet (error_event session turn_id code message now).
Proof. apply internal_event_quiet. Qed.
Lemma turn_finished_event_quiet session turn_id status provider reason now :
  keeps quiet (turn_finished_event session turn_id status provider reason now).
Proof. apply internal_event_quiet. Qed.
Lemma update_execution_quiet key p f stale : keeps quiet (update_execution key p f stale).
Proof.
  intros st t st'. unfold update_execution. repeat case_match; [|done..]. intros [= _ <-]. split; try done. by intros [].
Qed.
Lemma update_effect_quiet room_id effect_id p f stale : keeps quiet (update_effect room_id effect_id p f stale).
Proof. intros st t st'. unfold update_effect. intros (? & _ & [= _ <-])%bind_Ok. split; try done. by intros []. Qed.
Lemma effects_quiet f : keeps quiet (modifies (fun st => st <| st_effects := f (st_effects st) |>)).
Proof. apply (keeps_modifies _). intros st. split; try done. by intros []. Qed.
#[local] Hint Resolve draw_uuid_quiet internal_event_quiet session_state_event_quiet error_event_quiet turn_finished_event_quiet
  update_execution_quiet update_effect_quiet effects_quiet : keeps.

Lemma terminalize_ordinary_execution_quiet session authority phase : keeps quiet (terminalize_ordinary_execution session authority phase).
Proof. unfold terminalize_ordinary_execution. keeps. Qed.
Lemma terminalize_retained_interrupt_quiet expected : keeps quiet (terminalize_retained_interrupt expected).
Proof. unfold terminalize_retained_interrupt. keeps. Qed.
Lemma fail_unstarted_execution_quiet key execution : keeps quiet (fail_unstarted_execution key execution).
Proof. unfold fail_unstarted_execution. keeps. Qed.
Lemma quarantine_dispatched_quiet key execution : keeps quiet (quarantine_dispatched key execution).
Proof. unfold quarantine_dispatched. keeps. Qed.
Lemma quarantine_started_execution_quiet authority : keeps quiet (quarantine_started_execution authority).
Proof. unfold quarantine_started_execution. keeps. Qed.

Lemma insert_event_quiet e st t st' : 0 < ev_seq e -> insert_event e st = Ok (t, st') -> quiet st st'.
Proof.
  intros Hpos [_ ->]%insert_event_Ok. split; try done. intros [Hk Hp]. split; [done|]. simpl. intros k e'.
  intros [[<- _] | [_ Hin]]%lookup_insert_Some; [done|by eapply Hp].
Qed.

(** The event a turn publishes is named by the next value drawn. *)
Lemma agent_final_event_Ok session turn_id provider_turn_id source content target now st e st' :
  store_ok st -> agent_final_event session turn_id provider_turn_id source content target now st = Ok (e, st') ->
  quiet st st' /\ ev_id e = uuid_at (st_drawn st) /\ (st_drawn st < st_drawn st')%nat.
Proof.
  intros Hok Hr. unfold agent_final_event in Hr. cbv zeta in Hr.
  apply rtx_bind_Ok in Hr as ([] & st1 & Hl & Hr). apply lift_Ok in Hl as [_ <-].
  apply rtx_bind_Ok in Hr as (id & st1 & Hu & Hr). pose proof (draw_uuid_quiet _ _ _ Hu) as Hq. apply draw_uuid_Ok in Hu as [-> Hst1].
  apply rtx_bind_Ok in Hr as (seq & st2 & Hl & Hr). apply reads_Ok in Hl as [[= <-] <-].
  apply rtx_bind_Ok in Hr as ([] & st2 & Hi & Hr). apply rtx_ret_Ok in Hr as [<- <-].
  apply insert_event_quiet in Hi as Hi'; [|simpl; apply next_sequence_pos; by apply (qu_ok _ _ Hq)].
  split; [by etrans|]. split; [done|]. pose proof (qu_drawn _ _ Hi') as Hd. rewrite Hst1 in Hd. simpl in Hd. lia.
Qed.

(** ** The end of a turn *)

(** The same queue, and the same inputs of the turn. *)
Definition same_inputs (s s' : DurableAgentSession) : Prop :=
  d_inflight_inputs s' = d_inflight_inputs s /\ d_pending_inputs s' = d_pending_inputs s.

Lemma transition_Ok next s s' turn_id :
  apply_provider_session_transition next s = Ok s' ->
  session_key s' = session_key s /\ (forall P G, turns P G s s') /\ require_active_turn s' turn_id = require_active_turn s turn_id /\
  same_inputs s s'.
Proof.
  unfold apply_provider_session_transition. destruct next; [|by intros [= <-]]. case_match; [done|]. intros [= <-].
  split_and!; try done. intros. by apply same_runtime_turns.
Qed.

(** A turn is over once its session is saved; the rest of the transaction routes what it said and gives turns. *)
Lemma finalization_parts b b' room settings turn_id provider_turn_id disposition session events now st commit st' :
  store_ok st -> floor_settings room settings -> (b <= b')%nat ->
  (forall e, (disposition_parts disposition).2 = true -> head events = Some e -> exists n, ev_id e = uuid_at n /\ (b <= n < b')%nat) ->
  finalization_apply room settings turn_id provider_turn_id disposition session events now st = Ok (commit, st') ->
  exists st2 st3, quiet st st2 /\
    save_session (complete_session_state (d_input_up_to_event_id session) (d_input_up_to_seq session) now session) st2 = Ok (tt, st3) /\
    follows b b' st3 st'.
Proof.
  intros Hok Hfloor Hb Hevent Hr. unfold finalization_apply in Hr.
  apply rtx_bind_Ok in Hr as (errors & st1 & He & Hr).
  assert (quiet st st1 /\ ((disposition_parts disposition).2 = true -> errors = [])) as [Hq1 Herr].
  { destruct disposition; simpl; try (apply rtx_ret_Ok in He as [<- <-]; by split).
    apply rtx_bind_Ok in He as (err & st2 & Herr & He). apply rtx_ret_Ok in He as [<- <-]. split; [by eapply error_event_quiet|done]. }
  destruct (disposition_parts disposition) as [[status reason] route] eqn:Ed. simpl in Hevent, Herr.
  apply rtx_bind_Ok in Hr as (finished & st2 & Hq2%turn_finished_event_quiet & Hr). cbv zeta in Hr.
  apply rtx_bind_Ok in Hr as ([] & st3 & Hsave & Hr). assert (quiet st st2) as Hq02 by (by etrans).
  exists st2, st3. split_and!; [done|exact Hsave|].
  assert (store_ok st3) as Hok3 by (apply save_session_Ok in Hsave as [_ ->]; by apply store_ok_save, (qu_ok _ _ Hq02)).
  apply rtx_bind_Ok in Hr as (state & st4 & Hq4%session_state_event_quiet & Hr).
  assert (store_ok st4) as Hok4 by (by apply (qu_ok _ _ Hq4)).
  apply rtx_bind_Ok in Hr as ([] & st5 & Hroute & Hr). apply rtx_bind_Ok in Hr as (prepared & st6 & Ha & Hr).
  apply rtx_ret_Ok in Hr as [_ <-].
  assert (follows b b' st4 st5) as H45.
  { destruct route.
    - apply rtx_bind_Ok in Hroute as (event & st7 & Hl & Hroute). apply lift_Ok in Hl as [Hl%ok_or_Ok <-].
      rewrite Herr, app_nil_r in Hl by done. destruct (Hevent event eq_refl Hl) as (n & Hid & Hn).
      by eapply route_follows.
    - apply rtx_ret_Ok in Hroute as [_ <-]. apply (follows_later b b b'); [done|]. by apply (follows_preorder b). }
  eapply (follows_trans b b b'); [by apply quiet_follows|].
  eapply (follows_trans b b' b'); [exact H45|]. by eapply assign_follows.
Qed.

(** A transaction that ends the turn of a session with an answer. *)
Record answered (k : str * str) (now : instant) (st st' : RoomStore) (s session : DurableAgentSession) (turn_id : str)
    (st2 st3 : RoomStore) : Prop := MkAnswered {
  aw_stored : st_sessions st !! k = Some s;
  aw_key : session_key session = k;
  aw_inputs : same_inputs s session;
  aw_turns : forall P G, turns P G s session;
  aw_active : require_active_turn session turn_id = Ok tt;
  aw_quiet : quiet st st2;
  aw_saved : save_session (complete_session_state (d_input_up_to_event_id session) (d_input_up_to_seq session) now session) st2 = Ok (tt, st3);
  aw_follows : follows (st_drawn st) (st_drawn st') st3 st';
  aw_drawn : (st_drawn st <= st_drawn st')%nat
}.
(** *** The queue a failed turn leaves *)

Definition deleted_in (room_id : str) (st : RoomStore) (e : str) : bool :=
  match load_event room_id e st with Ok (Some event) => is_deleted event | _ => false end.

Lemma restored_inputs_Ok room_id inputs st restored :
  restored_inputs room_id inputs st = Ok restored ->
  restored = filter (fun i => qi_event_id i ∉ filter (fun e => deleted_in room_id st e = true) (input_ids inputs)) inputs.
Proof.
  intros Hr. assert (restored = filter (fun i => deleted_in room_id st (qi_event_id i) = false) inputs) as ->.
  { revert restored Hr. induction inputs as [|i l IH]; intros restored Hr; simpl in Hr; [by injection Hr as <-|].
    apply bind_Ok in Hr as (event & He & Hr). apply bind_Ok in Hr as (e & ->%ok_or_Ok & Hr).
    apply bind_Ok in Hr as (rest & ->%IH & [= <-]). rewrite filter_cons.
    assert (deleted_in room_id st (qi_event_id i) = is_deleted e) as Hd by (unfold deleted_in; by rewrite He).
    destruct (is_deleted e); [by rewrite decide_False by congruence|by rewrite decide_True by congruence]. }
  apply filter_same_on. intros i Hi. rewrite list_elem_of_filter. split.
  - intros Hd [Ht _]. congruence.
  - intros Hn. apply not_true_is_false. intros Ht. apply Hn. split; [done|]. by apply list_elem_of_fmap_2.
Qed.

(** A message of a room that was deleted. *)
Definition erased_in (room_id : str) (e : str) (st : RoomStore) : Prop :=
  exists seq event, st_events st !! (room_id, seq) = Some event /\ ev_id event = e /\ is_deleted event = true.
Lemma load_event_identity room_id event_id st event :
  load_event room_id event_id st = Ok (Some event) -> ev_room_id event = room_id /\ ev_id event = event_id.
Proof.
  unfold load_event. destruct (filter _ _) as [|[[r seq] event'] [|? ?]]; [done| |done].
  intros ([] & Hr%require_Ok & [= ->])%bind_Ok. apply andb_true_iff in Hr as [[Hr Hi]%andb_true_iff _].
  by rewrite str_eqb_true in Hr, Hi.
Qed.
Lemma deleted_marked target kind now : is_deleted (prepare_deleted_message target kind now) = true.
Proof. unfold is_deleted. apply bool_decide_eq_true_2. destruct kind; simpl; simplify_map_eq; done. Qed.
Lemma deleted_in_erased room_id st e : deleted_in room_id st e = true -> erased_in room_id e st.
Proof.
  unfold deleted_in. destruct (load_event room_id e st) as [[event|]|] eqn:El; try done. intros Hd. unfold load_event in El.
  destruct (filter _ _) as [|[[r seq] event'] [|? ?]] eqn:Ef; [done| |done]. apply bind_Ok in El as (? & _ & [= ->]).
  assert (((r, seq), event) ∈ filter (fun e0 : str * Z * RoomEvent => e0.1.1 = room_id /\ ev_id e0.2 = e) (map_to_list (st_events st)))
    as [[Hr Hid] Hin%elem_of_map_to_list]%list_elem_of_filter by (rewrite Ef; left). simpl in *. subst r. by exists seq, event.
Qed.
(** Events are only added. *)
Definition remembers (st st' : RoomStore) : Prop := st_events st ⊆ st_events st'.
#[local] Instance remembers_preorder : PreOrder remembers.
Proof. unfold remembers. split; [intros st; reflexivity|]. intros a b c Hab Hbc. by etrans. Qed.
Lemma keeps_appends_remembers {A} (m : rtx A) : keeps appends m -> keeps remembers m.
Proof. intros Hm st a st' Hr. apply (ap_events _ _ (Hm _ _ _ Hr)). Qed.
Lemma save_session_remembers session : keeps remembers (save_session session).
Proof. intros st t st' [_ ->]%save_session_Ok. unfold remembers. reflexivity. Qed.
Lemma session_state_event_remembers session now : keeps remembers (session_state_event session now).
Proof. apply keeps_appends_remembers. intros st e st'. apply session_state_event_appends. Qed.
Lemma draw_uuid_remembers : keeps remembers draw_uuid.
Proof. apply keeps_appends_remembers. exact draw_uuid_appends. Qed.
Lemma internal_event_remembers session event_type agent content extra now :
  keeps remembers (internal_event session event_type agent content extra now).
Proof. apply keeps_appends_remembers. by intros st e st' (_ & _ & _ & _ & ?)%internal_event_Ok. Qed.
Lemma insert_assigned_execution_remembers session turn_id envelope : keeps remembers (insert_assigned_execution session turn_id envelope).
Proof.
  unfold insert_assigned_execution. intros st t st'. case_match; [done|]. cbv zeta. intros ([] & _ & (rows & _ & [= _ <-])%bind_Ok)%bind_Ok.
  unfold remembers. reflexivity.
Qed.
#[local] Hint Resolve save_session_remembers session_state_event_remembers draw_uuid_remembers internal_event_remembers insert_assigned_execution_remembers : keeps.
Lemma assign_remembers room settings now : keeps remembers (assign_available_pending room settings now).
Proof. unfold assign_available_pending, prepare_assignment, turn_started_event, turn_state_event. keeps. Qed.
Lemma remembers_erased room_id e st st' : remembers st st' -> erased_in room_id e st -> erased_in room_id e st'.
Proof. intros Hm (seq & event & Hin & Hid & Hd). exists seq, event. split_and!; [by eapply lookup_weaken|done..]. Qed.
(** What the room deleted may be dropped. *)
Definition gone_after (st' : RoomStore) : Prop := forall k e, erased_in k.1 e st' -> gone k e.

Lemma merged_turn_queue_Ok session st restored :
  merged_turn_queue session st = Ok restored ->
  exists merged deleted, merge_room_inputs (d_inflight_inputs session ++ d_pending_inputs session) = Ok merged /\
    Forall (fun e => erased_in (s_room_id (d_public session)) e st) deleted /\
    restored = filter (fun i => qi_event_id i ∉ (deleted : list str)) merged.
Proof.
  unfold merged_turn_queue. intros Hr. apply bind_Ok in Hr as (merged & Hm & Hr). exists merged, 
    (filter (fun e => deleted_in (s_room_id (d_public session)) st e = true) (input_ids merged)). split.
  - unfold map_err in Hm. destruct (merge_room_inputs _); [by injection Hm as ->|done].
  - split; [|by apply restored_inputs_Ok]. apply Forall_forall. intros e [He _]%list_elem_of_filter. by apply deleted_in_erased.
Qed.

(** Saving a session whose turn failed, its inputs restored. *)
Lemma fail_save_follows b s session turn_id restored code message now st0 st t st' final :
  gone_after final -> remembers st0 final ->
  st_sessions st !! session_key session = Some s -> (forall P G, turns P G s session) -> require_active_turn session turn_id = Ok tt ->
  merged_turn_queue session st0 = Ok restored ->
  save_session (fail_session_state restored code message now session) st = Ok (t, st') -> follows b b st st'.
Proof.
  intros Hgone Hrem Hs Ht Ha (merged & deleted & Hm & Hdel & ->)%merged_turn_queue_Ok Hsave. eapply save_follows; [|  |exact Hsave].
  - exact Hs.
  - etrans; [apply Ht|]. eapply fail_turns; [exact Ha|exact Hm|]. eapply Forall_impl; [exact Hdel|]. intros e He.
    apply Hgone. simpl. by eapply remembers_erased.
Qed.

Lemma interrupted_turns P G cause restored now session code message :
  turns P G (fail_session_state restored code message now session) (interrupted_session cause restored now session).
Proof. by apply lifecycle_turns. Qed.
Lemma recovery_turns P G now session : turns P G session (require_recovery now session).
Proof. by apply same_runtime_turns. Qed.
Lemma confirm_runtime_stop_Ok confirmed session session' turn_id :
  confirm_runtime_stop confirmed session = Ok session' ->
  session_key session' = session_key session /\ (forall P G, turns P G session session') /\
  require_active_turn session' turn_id = require_active_turn session turn_id.
Proof.
  unfold confirm_runtime_stop. destruct confirmed as [[[handle owner] lease]|]; [|by intros [= <-]].
  intros ([] & _ & [= <-])%bind_Ok. split_and!; try done. intros. by apply same_runtime_turns.
Qed.

(** An active turn, as the effects of interrupts and deaths check it. *)
Lemma active_authority_turn s :
  active_turn_authority s = Ok true -> require_active_turn s (s_active_turn_id (d_public s)) = Ok tt.
Proof.
  intros Ha. unfold require_active_turn, turn_authority_is_active. rewrite Ha. apply authority_true_iff in Ha as [_ [Ht _ _ _ _ _]].
  destruct (s_active_turn_id (d_public s)) as [|c l] eqn:E; [done|]. simpl. by rewrite (proj2 (str_eqb_true _ _) eq_refl).
Qed.
(** ** The transactions *)

(** A transaction moves every session along its machine. *)
Definition moves (st st' : RoomStore) : Prop :=
  (st_drawn st <= st_drawn st')%nat /\ follows (st_drawn st) (st_drawn st') st st'.

Lemma moves_intro st st' : calm st st' -> follows (st_drawn st) (st_drawn st) st st' -> moves st st'.
Proof. intros Hc Hf. split; [apply Hc|]. eapply follows_later; [apply Hc|done]. Qed.

#[local] Hint Resolve terminalize_ordinary_execution_quiet terminalize_retained_interrupt_quiet fail_unstarted_execution_quiet
  quarantine_dispatched_quiet quarantine_started_execution_quiet : keeps.

Lemma finalization_calm_drawn room settings turn_id provider_turn_id disposition session events now st commit st' :
  finalization_apply room settings turn_id provider_turn_id disposition session events now st = Ok (commit, st') ->
  (st_drawn st <= st_drawn st')%nat.
Proof. intros Hr. apply ca_drawn. by eapply finalization_apply_calm. Qed.

(** The answered turn ends, whatever else the transaction does. *)
Lemma answered_moves k now st st' s session turn_id st2 st3 :
  answered k now st st' s session turn_id st2 st3 -> ends k -> moves st st'.
Proof.
  intros [Hs Hkey _ Ht Ha Hq Hsave Hf Hd] He. split; [done|].
  eapply (follows_trans _ (st_drawn st)); [by apply quiet_follows|]. eapply (follows_trans _ (st_drawn st)); [|exact Hf].
  refine (save_follows (st_drawn st) s _ _ _ _ _ _ Hsave).
  - change (st_sessions st2 !! session_key session = Some s). by rewrite (qu_sessions _ _ Hq), Hkey.
  - etrans; [apply Ht|]. eapply complete_turns; [|exact Ha]. change (ends (session_key session)). by rewrite Hkey.
Qed.

Lemma complete_message_answers room_id session_id authority content target now st commit st' :
  store_ok st -> floors_ordered st -> complete_message room_id session_id authority content target now st = Ok (commit, st') ->
  exists s session turn_id st2 st3, answered (room_id, session_id) now st st' s session turn_id st2 st3.
Proof.
  intros Hok Hfloors Hr. unfold complete_message in Hr. cbv zeta in Hr.
  apply rtx_bind_Ok in Hr as ([] & st1 & Hl & Hr). apply lift_Ok in Hl as [_ <-].
  apply rtx_bind_Ok in Hr as ([] & st1 & Hl & Hr). apply lift_Ok in Hl as [_ <-].
  apply rtx_bind_Ok in Hr as ([room settings] & st1 & Hl & Hr). apply reads_Ok in Hl as [Hfloor%Hfloors <-].
  apply rtx_bind_Ok in Hr as (s & st1 & Hl & Hr). apply reads_Ok in Hl as [[Hs Hkey]%load_session_Ok <-].
  apply rtx_bind_Ok in Hr as ([] & st1 & Hl & Hr). apply lift_Ok in Hl as [Hactive <-].
  apply rtx_bind_Ok in Hr as ([] & st1 & Hq%terminalize_ordinary_execution_quiet & Hr).
  do 2 (apply rtx_bind_Ok in Hr as ([] & st2 & Hl & Hr); apply reads_Ok in Hl as [_ <-]).
  apply rtx_bind_Ok in Hr as (session & st2 & Hl & Hr). apply lift_Ok in Hl as [Ht <-].
  destruct (transition_Ok _ _ _ (ta_turn_id authority) Ht) as (Hkey' & Hturns & Hreq & Hin).
  apply rtx_bind_Ok in Hr as (event & st2 & He & Hr).
  apply agent_final_event_Ok in He as (Hq2 & Hid & Hlt); [|by apply (qu_ok _ _ Hq)].
  pose proof (qu_drawn _ _ Hq) as Hd1. pose proof (finalization_calm_drawn _ _ _ _ _ _ _ _ _ _ _ Hr) as Hd2.
  apply (finalization_parts (st_drawn st) (st_drawn st')) in Hr as (sta & stb & Hqa & Hsave & Hf).
  - exists s, session, (ta_turn_id authority), sta, stb. split; [done|congruence|done|done|by rewrite Hreq| |exact Hsave|exact Hf|lia].
    etrans; [exact Hq|by etrans].
  - apply (qu_ok _ _ Hq2), (qu_ok _ _ Hq), Hok.
  - exact Hfloor.
  - lia.
  - intros e _ [= <-]. exists (st_drawn st1). split; [done|]. lia.
Qed.
Lemma complete_message_moves room_id session_id authority content target now st commit st' :
  ends (room_id, session_id) ->
  store_ok st -> floors_ordered st -> complete_message room_id session_id authority content target now st = Ok (commit, st') -> moves st st'.
Proof. intros He Hok Hf Hr. destruct (complete_message_answers _ _ _ _ _ _ _ _ _ Hok Hf Hr) as (? & ? & ? & ? & ? & Ha). by eapply answered_moves. Qed.

Lemma decline_answers room_id session_id authority reason now st commit st' :
  store_ok st -> floors_ordered st -> decline room_id session_id authority reason now st = Ok (commit, st') ->
  exists s session turn_id st2 st3, answered (room_id, session_id) now st st' s session turn_id st2 st3.
Proof.
  intros Hok Hfloors Hr. unfold decline in Hr. cbv zeta in Hr.
  do 2 (apply rtx_bind_Ok in Hr as ([] & st1 & Hl & Hr); apply lift_Ok in Hl as [_ <-]).
  apply rtx_bind_Ok in Hr as ([room settings] & st1 & Hl & Hr). apply reads_Ok in Hl as [Hfloor%Hfloors <-].
  apply rtx_bind_Ok in Hr as (s & st1 & Hl & Hr). apply reads_Ok in Hl as [[Hs Hkey]%load_session_Ok <-].
  apply rtx_bind_Ok in Hr as ([] & st1 & Hl & Hr). apply lift_Ok in Hl as [Hactive <-].
  apply rtx_bind_Ok in Hr as ([] & st1 & Hq%terminalize_ordinary_execution_quiet & Hr).
  apply rtx_bind_Ok in Hr as ([] & st2 & Hl & Hr). apply reads_Ok in Hl as [_ <-].
  apply rtx_bind_Ok in Hr as (session & st2 & Hl & Hr). apply lift_Ok in Hl as [Ht <-].
  destruct (transition_Ok _ _ _ (ta_turn_id authority) Ht) as (Hkey' & Hturns & Hreq & Hin).
  pose proof (qu_drawn _ _ Hq) as Hd1. pose proof (finalization_calm_drawn _ _ _ _ _ _ _ _ _ _ _ Hr) as Hd2.
  apply (finalization_parts (st_drawn st) (st_drawn st')) in Hr as (sta & stb & Hqa & Hsave & Hf); [|apply (qu_ok _ _ Hq), Hok|exact Hfloor|lia|done].
  exists s, session, (ta_turn_id authority), sta, stb. split; [done|congruence|done|done|by rewrite Hreq|by etrans|exact Hsave|exact Hf|lia].
Qed.
Lemma decline_moves room_id session_id authority reason now st commit st' :
  ends (room_id, session_id) ->
  store_ok st -> floors_ordered st -> decline room_id session_id authority reason now st = Ok (commit, st') -> moves st st'.
Proof. intros He Hok Hf Hr. destruct (decline_answers _ _ _ _ _ _ _ _ Hok Hf Hr) as (? & ? & ? & ? & ? & Ha). by eapply answered_moves. Qed.

Lemma fail_moves room_id session_id authority code message stop now st commit st' :
  gone_after st' -> store_ok st -> floors_ordered st -> fail room_id session_id authority code message stop now st = Ok (commit, st') -> moves st st'.
Proof.
  intros Hgone Hok Hfloors Hr. apply moves_intro; [by eapply fail_calm|]. unfold fail in Hr. cbv zeta in Hr.
  apply rtx_bind_Ok in Hr as ([room settings] & st1 & Hl & Hr). apply reads_Ok in Hl as [Hfloor%Hfloors <-].
  apply rtx_bind_Ok in Hr as (s & st1 & Hl & Hr). apply reads_Ok in Hl as [[Hs Hkey]%load_session_Ok <-].
  apply rtx_bind_Ok in Hr as ([] & st1 & Hl & Hr). apply lift_Ok in Hl as [Hactive <-].
  apply rtx_bind_Ok in Hr as ([] & st1 & Hq%terminalize_ordinary_execution_quiet & Hr).
  apply rtx_bind_Ok in Hr as (session & st2 & Hl & Hr). apply lift_Ok in Hl as [Hc <-].
  destruct (confirm_runtime_stop_Ok _ _ _ (ta_turn_id authority) Hc) as (Hkey' & Hturns & Hreq).
  apply rtx_bind_Ok in Hr as (error & st2 & Hq2%error_event_quiet & Hr).
  apply rtx_bind_Ok in Hr as (finished & st3 & Hq3%turn_finished_event_quiet & Hr).
  apply rtx_bind_Ok in Hr as (restored & st4 & Hl & Hr). apply reads_Ok in Hl as [Hrest <-].
  assert (quiet st st3) as Hq03 by (etrans; [exact Hq|]; by etrans).
  apply rtx_bind_Ok in Hr as ([] & st4 & Hsave & Hr). pose proof (save_session_remembers _ _ _ _ Hsave) as Hm4.
  apply rtx_bind_Ok in Hr as (state & st5 & Hq5 & Hr). pose proof (session_state_event_remembers _ _ _ _ _ Hq5) as Hm5.
  apply session_state_event_quiet in Hq5.
  apply rtx_bind_Ok in Hr as (prepared & st6 & Ha & Hr). apply rtx_ret_Ok in Hr as [_ <-].
  eapply (fail_save_follows _ s _ _ _ _ _ _ st3 _ _ _ st6) in Hsave;
    [|exact Hgone|by do 2 (etrans; [eassumption|]); by eapply assign_remembers|by rewrite Hkey', Hkey, (qu_sessions _ _ Hq03)|exact Hturns|by rewrite Hreq|exact Hrest].
  assert (follows (st_drawn st) (st_drawn st) st st5) as H05.
  { transitivity st3; [by apply quiet_follows|]. transitivity st4; [exact Hsave|by apply quiet_follows]. }
  transitivity st5; [exact H05|]. by eapply assign_follows.
Qed.
Lemma authority_or_active {A} invalid (r : result InvalidTurnAuthority A) a : authority_or invalid r = Ok a -> r = Ok a.
Proof. unfold authority_or, map_err. destruct r; [by intros [= ->]|done]. Qed.

Lemma finalize_retained_in_moves expected now st commit st' :
  gone_after st' -> store_ok st -> floors_ordered st -> finalize_retained_in expected now st = Ok (commit, st') -> moves st st'.
Proof.
  intros Hgone Hok Hfloors Hr. apply moves_intro; [by eapply finalize_retained_in_calm|]. unfold finalize_retained_in in Hr.
  apply rtx_bind_Ok in Hr as (s & st1 & Hl & Hr). apply reads_Ok in Hl as [[Hs Hkey]%load_session_Ok <-].
  apply rtx_bind_Ok in Hr as (active & st1 & Hl & Hr). apply lift_Ok in Hl as [Hactive%authority_or_active <-].
  apply rtx_bind_Ok in Hr as ([] & st1 & Hl & Hr). apply lift_Ok in Hl as [Hl%reject_if_Ok <-].
  assert (active_turn_authority s = Ok true) as Hrunning by (by destruct active; [|discriminate Hl]). clear Hl Hactive.
  apply active_authority_turn in Hrunning.
  apply rtx_bind_Ok in Hr as ([] & st1 & Hq%terminalize_retained_interrupt_quiet & Hr). cbv zeta in Hr.
  apply rtx_bind_Ok in Hr as (error & st2 & He & Hr).
  assert (quiet st1 st2) as Hq2.
  { destruct (bool_decide _) in He; [|by apply rtx_ret_Ok in He as [_ <-]].
    apply rtx_bind_Ok in He as (event & st3 & He & Hret). apply rtx_ret_Ok in Hret as [_ <-]. by eapply error_event_quiet. }
  apply rtx_bind_Ok in Hr as (finished & st3 & Hq3%turn_finished_event_quiet & Hr).
  apply rtx_bind_Ok in Hr as (restored & st4 & Hl & Hr). apply reads_Ok in Hl as [Hrest <-].
  assert (quiet st st3) as Hq03 by (etrans; [exact Hq|]; by etrans).
  apply rtx_bind_Ok in Hr as ([] & st4 & Hsave & Hr). pose proof (save_session_remembers _ _ _ _ Hsave) as Hm4.
  apply rtx_bind_Ok in Hr as (state & st5 & Hq5 & Hr). pose proof (session_state_event_remembers _ _ _ _ _ Hq5) as Hm5.
  apply session_state_event_quiet in Hq5.
  apply rtx_bind_Ok in Hr as (scheduled & st6 & Ha & Hr). apply rtx_ret_Ok in Hr as [_ <-].
  assert (remembers st3 st6) as Hm.
  { do 2 (etrans; [eassumption|]). revert Ha. match goal with |- ?op _ = _ -> _ => enough (keeps remembers op) as Hk by apply Hk end.
    unfold assign_pending_in. keeps. }
  assert (follows (st_drawn st) (st_drawn st) st3 st4) as H34.
  { apply merged_turn_queue_Ok in Hrest as (merged & deleted & Hm' & Hdel & ->).
    refine (save_follows (st_drawn st) s _ _ _ _ _ _ Hsave).
    - change (st_sessions st3 !! session_key s = Some s). by rewrite (qu_sessions _ _ Hq03), Hkey.
    - etrans; [|apply (interrupted_turns _ _ _ _ _ _ [] [])]. eapply fail_turns; [exact Hrunning|exact Hm'|].
      eapply Forall_impl; [exact Hdel|]. intros e Hx. apply Hgone. simpl. by eapply remembers_erased. }
  assert (follows (st_drawn st) (st_drawn st) st st5) as H05.
  { transitivity st3; [by apply quiet_follows|]. transitivity st4; [exact H34|by apply quiet_follows]. }
  transitivity st5; [exact H05|]. destruct (bool_decide _) in Ha.
  - apply rtx_bind_Ok in Ha as ([room settings] & st7 & Hl & Ha). apply reads_Ok in Hl as [Hfloor <-].
    apply (same_rooms_ordered st st5 (fo_rooms _ _ _ _ (H05 Hok)) Hfloors) in Hfloor. unfold assign_pending_in in Ha.
    apply rtx_bind_Ok in Ha as (prepared & st7 & Ha & Hret). apply rtx_ret_Ok in Hret as [_ <-].
    by eapply assign_follows.
  - by apply rtx_ret_Ok in Ha as [_ <-].
Qed.

(** A session saved as waiting for recovery. *)
Lemma recovery_save_follows b s s' now st t st' :
  st_sessions st !! session_key s = Some s -> session_key s' = session_key s -> (forall P G, turns P G (require_recovery now s) s') ->
  save_session s' st = Ok (t, st') -> follows b b st st'.
Proof.
  intros Hs Hkey Ht Hsave. eapply save_follows; [by rewrite Hkey| |exact Hsave]. etrans; [|apply Ht]. apply recovery_turns.
Qed.

Lemma record_provider_turn_task_death_moves room_id session_id generation execution_id now st commit st' :
  gone_after st' -> store_ok st -> floors_ordered st -> record_provider_turn_task_death room_id session_id generation execution_id now st = Ok (commit, st') -> moves st st'.
Proof.
  intros Hgone Hok Hfloors Hr. apply moves_intro; [by eapply record_provider_turn_task_death_calm|]. unfold record_provider_turn_task_death in Hr.
  cbv zeta in Hr. apply rtx_bind_Ok in Hr as (execution & st1 & Hl & Hr). apply reads_Ok in Hl as [_ <-].
  apply rtx_bind_Ok in Hr as (s & st1 & Hl & Hr). apply reads_Ok in Hl as [[Hs Hkey]%load_session_Ok <-].
  apply rtx_bind_Ok in Hr as (active & st1 & Hl & Hr). apply lift_Ok in Hl as [Hactive%authority_or_active <-].
  apply rtx_bind_Ok in Hr as ([] & st1 & Hl & Hr). apply lift_Ok in Hl as [Hl%require_Ok <-]. subst active.
  assert (active_turn_authority s = Ok true) as Hrunning by (destruct (_ || _) in Hactive; done).
  apply active_authority_turn in Hrunning. rewrite <- Hkey in Hs.
  destruct (phase_in [ExecAssigned] execution).
  - unfold finalize_proven_no_effect_task_death in Hr.
    apply rtx_bind_Ok in Hr as ([room settings] & st1 & Hl & Hr). apply reads_Ok in Hl as [Hfloor%Hfloors <-].
    apply rtx_bind_Ok in Hr as ([] & st1 & Hq%fail_unstarted_execution_quiet & Hr).
    apply rtx_bind_Ok in Hr as (error & st2 & Hq2%error_event_quiet & Hr).
    apply rtx_bind_Ok in Hr as (finished & st3 & Hq3%turn_finished_event_quiet & Hr).
    apply rtx_bind_Ok in Hr as (restored & st4 & Hl & Hr). apply reads_Ok in Hl as [Hrest <-]. cbv zeta in Hr.
    assert (quiet st st3) as Hq03 by (etrans; [exact Hq|]; by etrans).
    apply rtx_bind_Ok in Hr as ([] & st4 & Hsave & Hr). pose proof (save_session_remembers _ _ _ _ Hsave) as Hm4.
    apply rtx_bind_Ok in Hr as (state & st5 & Hq5 & Hr). pose proof (session_state_event_remembers _ _ _ _ _ Hq5) as Hm5.
    apply session_state_event_quiet in Hq5.
    apply rtx_bind_Ok in Hr as (scheduled & st6 & Ha & Hr). apply rtx_ret_Ok in Hr as [_ <-].
    unfold assign_pending_in in Ha. apply rtx_bind_Ok in Ha as (prepared & st7 & Ha & Hret). apply rtx_ret_Ok in Hret as [_ <-].
    eapply (fail_save_follows _ s _ _ _ _ _ _ st3 _ _ _ st7) in Hsave;
      [|exact Hgone|by do 2 (etrans; [eassumption|]); by eapply assign_remembers|by rewrite (qu_sessions _ _ Hq03)|done|exact Hrunning|exact Hrest].
    assert (follows (st_drawn st) (st_drawn st) st st5) as H05.
    { transitivity st3; [by apply quiet_follows|]. transitivity st4; [exact Hsave|by apply quiet_follows]. }
    transitivity st5; [exact H05|]. by eapply assign_follows.
  - destruct (phase_in _ execution) in Hr; [|by apply lift_Ok in Hr as [? _]]. unfold quarantine_dispatched_task_death in Hr.
    apply rtx_bind_Ok in Hr as ([] & st1 & Hq%quarantine_dispatched_quiet & Hr). cbv zeta in Hr.
    apply rtx_bind_Ok in Hr as ([] & st2 & Hsave & Hr).
    eapply (recovery_save_follows _ s) in Hsave; [|by rewrite (qu_sessions _ _ Hq)|done|done].
    apply rtx_bind_Ok in Hr as (state & st3 & Hq3%session_state_event_quiet & Hr). apply rtx_ret_Ok in Hr as [_ <-].
    transitivity st1; [by apply quiet_follows|]. transitivity st2; [exact Hsave|by apply quiet_follows].
Qed.

Lemma mark_provider_turn_recovery_required_moves authority now st commit st' :
  store_ok st -> mark_provider_turn_recovery_required authority now st = Ok (commit, st') -> moves st st'.
Proof.
  intros Hok Hr. apply moves_intro; [by eapply mark_provider_turn_recovery_required_calm|].
  unfold mark_provider_turn_recovery_required in Hr.
  apply rtx_bind_Ok in Hr as (s & st1 & Hl & Hr). apply reads_Ok in Hl as [[Hs Hkey]%load_session_Ok <-]. rewrite <- Hkey in Hs.
  apply rtx_bind_Ok in Hr as (execution & st1 & Hl & Hr). apply reads_Ok in Hl as [_ <-].
  apply rtx_bind_Ok in Hr as (active & st1 & Hl & Hr). apply lift_Ok in Hl as [_ <-].
  apply rtx_bind_Ok in Hr as ([] & st1 & Hl & Hr). apply lift_Ok in Hl as [_ <-].
  apply rtx_bind_Ok in Hr as ([] & st1 & Hq%quarantine_started_execution_quiet & Hr). cbv zeta in Hr.
  apply rtx_bind_Ok in Hr as ([] & st2 & Hsave & Hr).
  eapply (recovery_save_follows _ s _ now) in Hsave; [|by rewrite (qu_sessions _ _ Hq)|done|by intros; apply same_runtime_turns].
  apply rtx_bind_Ok in Hr as (state & st3 & Hq3%session_state_event_quiet & Hr). apply rtx_ret_Ok in Hr as [_ <-].
  transitivity st1; [by apply quiet_follows|]. transitivity st2; [exact Hsave|by apply quiet_follows].
Qed.

Lemma assign_pending_turn_moves room_id now st commit st' :
  store_ok st -> floors_ordered st -> assign_pending_turn room_id now st = Ok (commit, st') -> moves st st'.
Proof.
  intros Hok Hfloors Hr. apply moves_intro; [by eapply assign_pending_turn_calm|]. unfold assign_pending_turn, assign_pending_in in Hr.
  apply rtx_bind_Ok in Hr as ([room settings] & st1 & Hl & Hr). apply reads_Ok in Hl as [Hfloor%Hfloors <-].
  apply rtx_bind_Ok in Hr as (c & st1 & Ha & Hr). apply rtx_ret_Ok in Hr as [_ <-].
  apply rtx_bind_Ok in Ha as (prepared & st2 & Ha & Hret). apply rtx_ret_Ok in Hret as [_ <-]. by eapply assign_follows.
Qed.
(** *** Messages and votes *)

(** A step whose result is known to satisfy [P]. *)
Lemma keeps_bind_with {A B} (P : A -> Prop) (R : relation RoomStore) `{!PreOrder R} (m : rtx A) (k : A -> rtx B) :
  keeps R m -> (forall st a st', m st = Ok (a, st') -> P a) -> (forall a, P a -> keeps R (k a)) -> keeps R (m ≫= k).
Proof. intros Hm Hp Hk st b st' (a & st1 & Ha & Hb)%rtx_bind_Ok. etrans; [by eapply Hm|]. eapply Hk; [by eapply Hp|done]. Qed.

Definition positive (e : RoomEvent) : Prop := 0 < ev_seq e.
Lemma insert_positive_quiet e : positive e -> keeps quiet (insert_event e).
Proof. intros Hp st t st'. by apply insert_event_quiet. Qed.
Lemma positive_with_attachments attachments e : positive e -> positive (with_attachments attachments e).
Proof. unfold with_attachments. by case_match. Qed.
Lemma positive_minimized e : positive e -> positive (privacy_minimized_vote_transition e).
Proof. unfold privacy_minimized_vote_transition. by case_match. Qed.
#[local] Hint Resolve insert_positive_quiet positive_with_attachments positive_minimized : keeps.

Lemma authorized_event_positive id participant sequence now content kind extra e :
  prepare_authorized_participant_message_event id participant sequence now content kind extra = Ok e -> positive e.
Proof.
  unfold prepare_authorized_participant_message_event. intros ([] & Hs%reject_if_Ok & [= <-])%bind_Ok.
  apply Z.leb_gt in Hs. exact Hs.
Qed.

Lemma bind_attachment_quiet principal seq now id : keeps quiet (bind_message_attachment principal seq now id).
Proof. intros st t st'. unfold bind_message_attachment. repeat case_match; [|done..]. intros [= _ <-]. split; try done. by intros []. Qed.
Lemma insert_vote_state_quiet e : keeps quiet (insert_vote_state e).
Proof. intros st t st' (k & seq & n & _ & ->)%insert_vote_state_Ok. split; try done. by intros []. Qed.
Lemma save_vote_state_quiet stored : keeps quiet (save_vote_state stored).
Proof. intros st t st' (row & _ & ->)%save_vote_state_Ok. split; try done. by intros []. Qed.
Lemma replace_ballot_quiet participant stored i : keeps quiet (replace_ballot participant stored i).
Proof. intros st t st' (previous & _ & -> & _)%replace_ballot_Ok. case_match; [done|]. split; try done. by intros []. Qed.
Lemma remove_ballot_quiet participant stored : keeps quiet (remove_ballot participant stored).
Proof. intros st t st' ([j|] & _ & _ & _ & Hst)%remove_ballot_Ok; destruct Hst as [-> _]; [|done]. split; try done. by intros []. Qed.
#[local] Hint Resolve bind_attachment_quiet insert_vote_state_quiet save_vote_state_quiet replace_ballot_quiet remove_ballot_quiet : keeps.

Lemma prepared_vote_positive principal participant command sequence now st e st' :
  (id ← draw_uuid; lift (lift_rejection (prepare_vote_event id principal participant command sequence now))) st = Ok (e, st') ->
  positive e.
Proof.
  intros Hr. apply rtx_bind_Ok in Hr as (id & st1 & _ & Hr). apply lift_Ok in Hr as [Hr%lift_rejection_Ok _].
  unfold prepare_vote_event in Hr. apply bind_Ok in Hr as ([] & _ & Hr). by apply authorized_event_positive in Hr.
Qed.

Ltac prepared_vote :=
  apply (keeps_bind_with positive _); [keeps|apply prepared_vote_positive|intros ? ?; keeps].

(** The command, as far as the event that is prepared, and the rest. *)
Lemma apply_vote_command_quiet principal participant command sequence now :
  keeps quiet (apply_vote_command principal participant command sequence now).
Proof.
  unfold apply_vote_command, bind_message_attachments. cbv zeta.
  destruct command.
  - apply (keeps_bind _); [keeps|intros ?]. prepared_vote.
  - do 4 (apply (keeps_bind _); [keeps|intros ?]). prepared_vote.
  - do 2 (apply (keeps_bind _); [keeps|intros ?]). prepared_vote.
  - do 3 (apply (keeps_bind _); [keeps|intros ?]). prepared_vote.
Qed.

Lemma prepare_human_message_event_quiet principal participant payload sequence now :
  keeps quiet (prepare_human_message_event principal participant payload sequence now).
Proof.
  unfold prepare_human_message_event, bind_message_attachments. destruct (bool_decide _).
  - apply (keeps_bind _); [keeps|intros ?]. cbv zeta. apply (keeps_bind _); [apply apply_vote_command_quiet|intros ?; keeps].
  - do 3 (apply (keeps_bind _); [keeps|intros ?]).
    apply (keeps_bind_with positive _); [keeps| |intros e He; keeps].
    intros st e st' [Hr%lift_rejection_Ok _]%lift_Ok. unfold prepare_message_event, prepare_participant_message_event in Hr.
    apply bind_Ok in Hr as ([] & _ & Hr). by apply authorized_event_positive in Hr.
Qed.

(** Making an event draws its identifier. *)
Definition draws {A} (m : rtx A) : Prop := forall st a st', m st = Ok (a, st') -> (st_drawn st < st_drawn st')%nat.
Definition drawn_le (st st' : RoomStore) : Prop := (st_drawn st <= st_drawn st')%nat.
#[local] Instance drawn_le_preorder : PreOrder drawn_le.
Proof. split; unfold drawn_le; [intros st|intros a b c]; lia. Qed.
Lemma draws_first {A B} (m : rtx A) (k : A -> rtx B) : draws m -> (forall a, keeps drawn_le (k a)) -> draws (m ≫= k).
Proof.
  intros Hm Hk st b st' (a & st1 & Ha & Hb)%rtx_bind_Ok. apply Hm in Ha. apply Hk in Hb. unfold drawn_le in Hb. lia.
Qed.
Lemma draws_later {A B} (m : rtx A) (k : A -> rtx B) : keeps drawn_le m -> (forall a, draws (k a)) -> draws (m ≫= k).
Proof.
  intros Hm Hk st b st' (a & st1 & Ha & Hb)%rtx_bind_Ok. apply Hm in Ha. apply Hk in Hb. unfold drawn_le in Ha. lia.
Qed.
Lemma draw_uuid_draws : draws draw_uuid.
Proof. intros st a st' [_ ->]%draw_uuid_Ok. simpl. lia. Qed.
Lemma keeps_posts_drawn {A} (m : rtx A) : keeps posts m -> keeps drawn_le m.
Proof. intros Hm st a st' Hr. apply (po_drawn _ _ (Hm _ _ _ Hr)). Qed.
Lemma keeps_calm_drawn {A} (m : rtx A) : keeps calm m -> keeps drawn_le m.
Proof. intros Hm st a st' Hr. apply (ca_drawn _ _ (Hm _ _ _ Hr)). Qed.
Lemma insert_event_drawn e : keeps drawn_le (insert_event e).
Proof. apply keeps_calm_drawn. keeps. Qed.
#[local] Hint Resolve insert_event_drawn : keeps.
#[local] Hint Extern 5 (keeps drawn_le _) => apply keeps_posts_drawn : keeps.
#[local] Hint Resolve bind_message_attachments_posts insert_vote_state_posts save_vote_state_posts replace_ballot_posts
  remove_ballot_posts : keeps.

Ltac draws_now := repeat (apply draws_first; [|intros ?; keeps]); exact draw_uuid_draws.

Lemma apply_vote_command_draws principal participant command sequence now :
  draws (apply_vote_command principal participant command sequence now).
Proof.
  unfold apply_vote_command. cbv zeta. destruct command.
  - apply draws_later; [keeps|intros ?]. by draws_now.
  - do 4 (apply draws_later; [keeps|intros ?]). by draws_now.
  - do 2 (apply draws_later; [keeps|intros ?]). by draws_now.
  - do 3 (apply draws_later; [keeps|intros ?]). by draws_now.
Qed.

Lemma prepare_human_message_event_draws principal participant payload sequence now :
  draws (prepare_human_message_event principal participant payload sequence now).
Proof.
  unfold prepare_human_message_event. destruct (bool_decide _).
  - apply draws_later; [keeps|intros ?]. apply draws_first; [apply apply_vote_command_draws|intros ?; keeps].
  - do 2 (apply draws_later; [keeps|intros ?]). by draws_now.
Qed.

Lemma attempt_Ok {A} (m : rtx A) st r st' :
  attempt m st = Ok (r, st') -> (exists a, r = Ok a /\ m st = Ok (a, st')) \/ (exists e, r = Err e /\ st' = st).
Proof. unfold attempt. destruct (m st) as [[a st1]|e]; intros [= <- <-]; [left|right]; by eexists. Qed.

Lemma complete_vote_answers room_id session_id authority command now st commit st' :
  store_ok st -> floors_ordered st -> complete_vote room_id session_id authority command now st = Ok (commit, st') ->
  exists s session turn_id st2 st3, answered (room_id, session_id) now st st' s session turn_id st2 st3.
Proof.
  intros Hok Hfloors Hr. unfold complete_vote in Hr. cbv zeta in Hr.
  do 2 (apply rtx_bind_Ok in Hr as ([] & st1 & Hl & Hr); apply lift_Ok in Hl as [_ <-]).
  apply rtx_bind_Ok in Hr as ([room settings] & st1 & Hl & Hr). apply reads_Ok in Hl as [Hfloor%Hfloors <-].
  apply rtx_bind_Ok in Hr as (s & st1 & Hl & Hr). apply reads_Ok in Hl as [[Hs Hkey]%load_session_Ok <-].
  apply rtx_bind_Ok in Hr as ([] & st1 & Hl & Hr). apply lift_Ok in Hl as [Hactive <-].
  apply rtx_bind_Ok in Hr as ([] & st1 & Hl & Hr). apply reads_Ok in Hl as [_ <-].
  apply rtx_bind_Ok in Hr as (session & st1 & Hl & Hr). apply lift_Ok in Hl as [Ht <-].
  destruct (transition_Ok _ _ _ (ta_turn_id authority) Ht) as (Hkey' & Hturns & Hreq & Hin).
  apply rtx_bind_Ok in Hr as (participant & st1 & Hl & Hr). apply reads_Ok in Hl as [_ <-].
  apply rtx_bind_Ok in Hr as (principal & st1 & Hl & Hr). apply lift_Ok in Hl as [_ <-].
  apply rtx_bind_Ok in Hr as (sequence & st1 & Hl & Hr). apply reads_Ok in Hl as [_ <-].
  apply rtx_bind_Ok in Hr as (vote & st1 & Hv & Hr).
  assert (forall phase disposition events,
    (terminalize_ordinary_execution session authority phase ;;
     finalization_apply room settings (ta_turn_id authority) (ta_provider_turn_id authority) disposition session events now) st1
      = Ok (commit, st') -> quiet st st1 ->
    (forall e, (disposition_parts disposition).2 = true -> head events = Some e ->
      exists n, ev_id e = uuid_at n /\ (st_drawn st <= n < st_drawn st1)%nat) ->
    exists s session turn_id st2 st3, answered (room_id, session_id) now st st' s session turn_id st2 st3) as Hend.
  { clear Hr. intros phase disposition events Hr Hq Hevent.
    apply rtx_bind_Ok in Hr as ([] & st2 & Hq2%terminalize_ordinary_execution_quiet & Hr).
    pose proof (qu_drawn _ _ Hq) as Hd1. pose proof (qu_drawn _ _ Hq2) as Hd2.
    pose proof (finalization_calm_drawn _ _ _ _ _ _ _ _ _ _ _ Hr) as Hd3. assert (quiet st st2) as Hq02 by (by etrans).
    apply (finalization_parts (st_drawn st) (st_drawn st')) in Hr as (sta & stb & Hqa & Hsave & Hf).
    - exists s, session, (ta_turn_id authority), sta, stb.
      split; [done|congruence|done|done|by rewrite Hreq|by etrans|exact Hsave|exact Hf|lia].
    - apply (qu_ok _ _ Hq02), Hok.
    - exact Hfloor.
    - lia.
    - intros e Hroute He. destruct (Hevent e Hroute He) as (n & Hid & Hn). exists n. split; [done|]. lia. }
  apply attempt_Ok in Hv as [(event & -> & Hv) | (error & -> & ->)].
  - eapply Hend; [exact Hr|by eapply apply_vote_command_quiet|]. intros e Hroute [= <-]. exists (st_drawn st).
    split; [by apply (me_id _ _ _ (apply_vote_command_made _ _ _ _ _ _ _ _ Hv))|]. split; [done|].
    by eapply apply_vote_command_draws.
  - destruct error; try (by apply lift_Ok in Hr as [? _]). destruct (is_terminal_vote_rejection _) in Hr; [|by apply lift_Ok in Hr as [? _]].
    by eapply Hend.
Qed.
Lemma complete_vote_moves room_id session_id authority command now st commit st' :
  ends (room_id, session_id) ->
  store_ok st -> floors_ordered st -> complete_vote room_id session_id authority command now st = Ok (commit, st') -> moves st st'.
Proof. intros He Hok Hf Hr. destruct (complete_vote_answers _ _ _ _ _ _ _ _ Hok Hf Hr) as (? & ? & ? & ? & ? & Ha). by eapply answered_moves. Qed.

Lemma admit_quiet key action hash bytes now : keeps quiet (admit_non_lifecycle_command key action hash bytes now).
Proof.
  unfold admit_non_lifecycle_command. apply (keeps_bind _); [keeps|intros [outcome|]]; [keeps|].
  apply (keeps_bind _); [|intros ?; keeps]. intros st t st'. unfold reserve_budget. intros (? & _ & [= _ <-])%bind_Ok.
  split; try done. by intros [].
Qed.
Lemma store_command_result_quiet key action hash result : keeps quiet (store_command_result key action hash result).
Proof.
  intros st t st'. unfold store_command_result. intros (? & _ & [= _ <-])%bind_Ok. split; try done. by intros [].
Qed.

Lemma execute_message_in_moves principal request_id action payload now st m st' :
  store_ok st -> floors_ordered st -> execute_message_in principal request_id action payload now st = Ok (m, st') -> moves st st'.
Proof.
  intros Hok Hfloors Hr. unfold execute_message_in in Hr. cbv zeta in Hr.
  apply rtx_bind_Ok in Hr as ([room settings] & st1 & Hl & Hr). apply reads_Ok in Hl as [Hfloor%Hfloors <-].
  apply rtx_bind_Ok in Hr as ([outcome|] & st1 & Hq%admit_quiet & Hr).
  { apply rtx_ret_Ok in Hr as [_ <-]. split; [apply Hq|]. eapply follows_later; [apply Hq|by apply quiet_follows]. }
  apply rtx_bind_Ok in Hr as ([] & st2 & Hl & Hr). apply lift_Ok in Hl as [_ <-].
  apply rtx_bind_Ok in Hr as (participant & st2 & Hl & Hr). apply reads_Ok in Hl as [_ <-].
  apply rtx_bind_Ok in Hr as (sequence & st2 & Hl & Hr). apply reads_Ok in Hl as [_ <-].
  apply rtx_bind_Ok in Hr as ([event route] & st2 & He & Hr).
  pose proof (me_id _ _ _ (human_event_made _ _ _ _ _ _ _ _ _ He)) as Hid.
  pose proof (prepare_human_message_event_draws _ _ _ _ _ _ _ _ He) as Hlt.
  apply prepare_human_message_event_quiet in He. assert (quiet st st2) as Hq2 by (by etrans).
  pose proof (qu_drawn _ _ Hq) as Hd1.
  apply rtx_bind_Ok in Hr as (prepared & st3 & Hp & Hr). cbv zeta in Hr.
  apply rtx_bind_Ok in Hr as ([] & st4 & Hs%store_command_result_quiet & Hr). apply rtx_ret_Ok in Hr as [_ <-].
  assert (follows (st_drawn st) (st_drawn st2) st2 st3 /\ (st_drawn st2 <= st_drawn st3)%nat) as [H23 Hd3].
  { destruct route; [|apply rtx_ret_Ok in Hp as [_ <-]; split; [|done]; eapply follows_later; [by apply qu_drawn|]; by apply follows_preorder].
    apply rtx_bind_Ok in Hp as ([] & st5 & Hroute & Ha).
    assert (calm st2 st3) as Hc.
    { etrans; [by eapply route_message_calm|by eapply assign_available_pending_calm]. }
    split; [|apply Hc].
    assert (follows (st_drawn st) (st_drawn st2) st2 st5) as H25.
    { eapply route_follows; [exact Hid|lia|exact Hroute]. }
    eapply follows_trans; [exact H25|]. by eapply assign_follows. }
  pose proof (qu_drawn _ _ Hs) as Hd4. split; [lia|].
  eapply (follows_trans _ (st_drawn st)); [by apply quiet_follows|].
  eapply follows_trans; [exact H23|]. eapply follows_later; [|by apply (quiet_follows (st_drawn st2))]. lia.
Qed.

Lemma replace_event_quiet e : keeps quiet (replace_event e).
Proof.
  intros st t st' [[e0 He0] ->]%replace_event_Ok. split; try done. intros [Hk Hp]. split; [done|]. simpl. intros k e'.
  intros [[<- _] | [_ Hin]]%lookup_insert_Some; [exact (Hp _ _ He0)|by eapply Hp].
Qed.
Lemma delete_bound_quiet event : keeps quiet (delete_bound_message_attachments event).
Proof. intros st ids st' ->%delete_bound_Ok. split; try done. by intros []. Qed.
Lemma remove_message_pin_quiet room_id event_id : keeps quiet (remove_message_pin room_id event_id).
Proof. apply (keeps_modifies _). intros st. split; try done. by intros []. Qed.
Lemma delete_vote_projection_quiet room_id vote_id seq : keeps quiet (delete_vote_projection room_id vote_id seq).
Proof. intros st t st' ->%delete_vote_projection_Ok. split; try done. by intros []. Qed.
#[local] Hint Resolve replace_event_quiet delete_bound_quiet remove_message_pin_quiet delete_vote_projection_quiet : keeps.

(** A mutation, as far as the room is concerned. *)
Lemma quiet_moves st st' : quiet st st' -> moves st st'.
Proof. intros Hq. split; [apply Hq|]. eapply follows_later; [apply Hq|by apply quiet_follows]. Qed.

Lemma moves_trans a b c : moves a b -> moves b c -> moves a c.
Proof. intros [Hab Fab] [Hbc Fbc]. split; [lia|]. by eapply follows_trans. Qed.
#[local] Instance moves_preorder : PreOrder moves.
Proof. split; [|exact moves_trans]. intros st. by apply quiet_moves. Qed.

Lemma keeps_quiet_moves {A} (m : rtx A) : keeps quiet m -> keeps moves m.
Proof. intros Hm st a st' Hr. by apply quiet_moves, (Hm _ a). Qed.
Lemma remove_pending_moves room_id event_id st t st' :
  (forall sid, gone (room_id, sid) event_id) ->
  store_ok st -> remove_pending_input_reference room_id event_id st = Ok (t, st') -> moves st st'.
Proof.
  intros Hgone Hok Hr. apply moves_intro; [by eapply remove_pending_input_reference_calm|].
  apply turns_follows; [by apply ca_rooms; eapply remove_pending_input_reference_calm|].
  apply remove_pending_input_reference_changes in Hr; [|done]. eapply changes_impl; [|exact Hr].
  intros s s' [->|[Hroom ->]]; [done|]. apply remove_turns. unfold session_key. rewrite Hroom. apply Hgone.
Qed.

(** A deletion leaves the message marked. *)
Lemma delete_message_marks principal target sequence now st r st' :
  ev_room_id target = pr_room_id principal -> delete_message principal target sequence now st = Ok (r, st') ->
  erased_in (pr_room_id principal) (ev_id target) st'.
Proof.
  intros Hroom Hr. unfold delete_message in Hr. do 6 (apply rtx_bind_Ok in Hr as (? & ? & _ & Hr)). cbv zeta in Hr.
  apply rtx_bind_Ok in Hr as ([] & st5 & [_ ->]%replace_event_Ok & Hr).
  apply rtx_bind_Ok in Hr as (id & st6 & Hm%draw_uuid_remembers & Hr). apply rtx_ret_Ok in Hr as [_ <-].
  eapply remembers_erased; [exact Hm|]. eexists _, (prepare_deleted_message target _ now).
  split_and!; [|done|apply deleted_marked]. simpl. rewrite Hroom. by rewrite lookup_insert_eq.
Qed.

Lemma delete_message_moves principal target sequence now st r st' :
  (forall sid, gone (pr_room_id principal, sid) (ev_id target)) ->
  store_ok st -> delete_message principal target sequence now st = Ok (r, st') -> moves st st'.
Proof.
  intros Hgone Hok Hr. unfold delete_message in Hr.
  apply rtx_bind_Ok in Hr as (author & st1 & Hl & Hr). apply reads_Ok in Hl as [_ <-].
  apply rtx_bind_Ok in Hr as (kind & st1 & Hl & Hr). apply lift_Ok in Hl as [_ <-].
  apply rtx_bind_Ok in Hr as (ids & st1 & Hq1%delete_bound_quiet & Hr).
  apply rtx_bind_Ok in Hr as ([] & st2 & Hq2%remove_message_pin_quiet & Hr).
  apply rtx_bind_Ok in Hr as ([] & st3 & Hv & Hr).
  assert (quiet st2 st3) as Hq3.
  { destruct (bool_decide _); [by eapply delete_vote_projection_quiet|by apply rtx_ret_Ok in Hv as [_ <-]]. }
  apply rtx_bind_Ok in Hr as ([] & st4 & Hp & Hr). cbv zeta in Hr. assert (quiet st st3) as Hq03 by (etrans; [exact Hq1|by etrans]).
  apply remove_pending_moves in Hp; [|done|by apply (qu_ok _ _ Hq03)].
  apply rtx_bind_Ok in Hr as ([] & st5 & Hq5%replace_event_quiet & Hr).
  apply rtx_bind_Ok in Hr as (id & st6 & Hq6%draw_uuid_quiet & Hr). apply rtx_ret_Ok in Hr as [_ <-].
  transitivity st3; [by apply quiet_moves|]. transitivity st4; [done|]. apply quiet_moves. by etrans.
Qed.

(** The mutation's event, and the rest of the transaction. *)
Lemma mutation_stored_remembers key action hash result mutation st st1 st2 t :
  insert_event mutation st = Ok (tt, st1) -> store_command_result key action hash result st1 = Ok (t, st2) -> remembers st st2.
Proof.
  intros [Hn ->]%insert_event_Ok Hs. unfold store_command_result in Hs. apply bind_Ok in Hs as (? & _ & [= _ <-]).
  unfold remembers. simpl. by apply insert_subseteq.
Qed.

Lemma execute_message_mutation_in_moves principal request_id action payload now st outcome st' :
  gone_after st' ->
  store_ok st -> execute_message_mutation_in principal request_id action payload now st = Ok (outcome, st') -> moves st st'.
Proof.
  intros Hgone Hok Hr. unfold execute_message_mutation_in in Hr. cbv zeta in Hr.
  apply rtx_bind_Ok in Hr as ([replay|] & st1 & Hq%admit_quiet & Hr).
  { apply rtx_ret_Ok in Hr as [_ <-]. by apply quiet_moves. }
  assert (store_ok st1) as Hok1 by (by apply (qu_ok _ _ Hq)).
  apply rtx_bind_Ok in Hr as ([target_id edit] & st2 & Hl & Hr). apply lift_Ok in Hl as [_ <-].
  apply rtx_bind_Ok in Hr as (found & st2 & Hl & Hr). apply reads_Ok in Hl as [Hfound <-].
  apply rtx_bind_Ok in Hr as (target & st2 & Hl & Hr). apply lift_Ok in Hl as [->%ok_or_Ok <-].
  apply rtx_bind_Ok in Hr as (sequence & st2 & Hl & Hr). apply reads_Ok in Hl as [[= <-] <-].
  apply rtx_bind_Ok in Hr as ([[updated mutation] result] & st2 & Hm & Hr).
  apply rtx_bind_Ok in Hr as ([] & st3 & Hi & Hr). apply rtx_bind_Ok in Hr as ([] & st4 & Hs & Hr). apply rtx_ret_Ok in Hr as [_ <-].
  pose proof (mutation_stored_remembers _ _ _ _ _ _ _ _ _ Hi Hs) as Hrem.
  assert (moves st1 st2 /\ positive mutation) as [H12 Hpos].
  { pose proof (next_sequence_pos (pr_room_id principal) _ Hok1) as Hseq. destruct edit as [edit|].
    - split.
      + apply quiet_moves. revert Hm. unfold edit_message. match goal with |- ?op _ = _ -> _ => enough (keeps quiet op) as Hk by apply Hk end.
        keeps.
      + unfold edit_message in Hm. do 3 (apply rtx_bind_Ok in Hm as (? & ? & _ & Hm)). cbv zeta in Hm.
        do 2 (apply rtx_bind_Ok in Hm as (? & ? & _ & Hm)). by apply rtx_ret_Ok in Hm as [[= _ <- _] _].
    - apply load_event_identity in Hfound as [Hroom _]. split.
      + eapply delete_message_moves; [|exact Hok1|exact Hm]. intros sid. apply Hgone. simpl.
        eapply remembers_erased; [exact Hrem|]. by eapply delete_message_marks.
      + unfold delete_message in Hm. do 7 (apply rtx_bind_Ok in Hm as (? & ? & _ & Hm)).
        cbv zeta in Hm. apply rtx_bind_Ok in Hm as (? & ? & _ & Hm). by apply rtx_ret_Ok in Hm as [[= _ <- _] _]. }
  apply insert_event_quiet in Hi; [|done]. apply store_command_result_quiet in Hs.
  transitivity st1; [by apply quiet_moves|]. transitivity st2; [done|]. apply quiet_moves. by etrans.
Qed.

(** *** Interrupts and mutes *)

Lemma save_participant_quiet p : keeps quiet (save_participant p).
Proof. intros st t st'. unfold save_participant. case_match; [|done]. intros [= _ <-]. split; try done. by intros []. Qed.
Lemma update_request_quiet room_id request_id f : keeps quiet (update_request room_id request_id f).
Proof. intros st t st' ->%modifies_Ok. split; try done. by intros []. Qed.
#[local] Hint Resolve save_participant_quiet update_request_quiet admit_quiet store_command_result_quiet : keeps.
Lemma close_in_quiet room_id request_id row state now : keeps quiet (close_in room_id request_id row state now).
Proof. unfold close_in. keeps. Qed.
#[local] Hint Resolve close_in_quiet : keeps.
Lemma reconcile_session_quiet session now : keeps quiet (reconcile_session_in session now).
Proof. unfold reconcile_session_in. keeps. Qed.
Lemma cancel_participant_quiet room_id participant_id now : keeps quiet (cancel_participant_in room_id participant_id now).
Proof. unfold cancel_participant_in, close_all. keeps. Qed.
Lemma prepare_interrupt_quiet key x cause : keeps quiet (prepare_interrupt_effect key x cause).
Proof.
  unfold prepare_interrupt_effect. do 3 (apply (keeps_bind _); [keeps|intros ?]). apply (keeps_bind _); [|intros ?; keeps].
  apply (keeps_modifies _). intros st. repeat case_match; [done|..|done]. split; try done. by intros [].
Qed.
#[local] Hint Resolve reconcile_session_quiet cancel_participant_quiet prepare_interrupt_quiet : keeps.

(** An event of the next sequence number. *)
Lemma insert_next_quiet room_id e st t st' :
  store_ok st -> ev_seq e = next_sequence room_id st -> insert_event e st = Ok (t, st') -> quiet st st'.
Proof. intros Hok E. apply insert_event_quiet. rewrite E. by apply next_sequence_pos. Qed.
Lemma append_session_event_quiet principal session event_type extra now st e st' :
  store_ok st -> append_session_event principal session event_type extra now st = Ok (e, st') -> quiet st st'.
Proof.
  intros Hok Hr. unfold append_session_event in Hr. apply rtx_bind_Ok in Hr as (id & st1 & Hd%draw_uuid_quiet & Hr).
  apply rtx_bind_Ok in Hr as (seq & st2 & [[= <-] <-]%reads_Ok & Hr). cbv zeta in Hr.
  apply rtx_bind_Ok in Hr as ([] & st3 & Hi & Hr). apply rtx_ret_Ok in Hr as [_ <-].
  eapply insert_next_quiet in Hi; [|by apply (qu_ok _ _ Hd)|done]. by etrans.
Qed.
Lemma append_state_event_quiet principal session now st e st' :
  store_ok st -> append_state_event principal session now st = Ok (e, st') -> quiet st st'.
Proof.
  intros Hok Hr. unfold append_state_event in Hr. apply rtx_bind_Ok in Hr as ([] & st1 & Hd%reconcile_session_quiet & Hr).
  unfold append_state_projection_event in Hr. apply rtx_bind_Ok in Hr as (projection & st2 & [_ <-]%reads_Ok & Hr).
  apply append_session_event_quiet in Hr; [|by apply (qu_ok _ _ Hd)]. by etrans.
Qed.

(** A session that is saved with its turn. *)
Lemma save_moves s s' st t st' :
  st_sessions st !! session_key s' = Some s -> (forall P G, turns P G s s') -> save_session s' st = Ok (t, st') -> moves st st'.
Proof.
  intros Hs Ht Hr. pose proof Hr as [_ E]%save_session_Ok. split; [by subst|]. eapply follows_later; [|by eapply save_follows]. by subst.
Qed.
Lemma moves_ok st st' : store_ok st -> moves st st' -> store_ok st'.
Proof. intros Hok [_ Hf]. by apply Hf. Qed.
Lemma moves_rooms st st' : store_ok st -> moves st st' -> st_rooms st' = st_rooms st.
Proof. intros Hok [_ Hf]. by apply Hf. Qed.

Lemma execute_agent_interrupt_moves authority request_id payload now st m st' :
  store_ok st -> execute_agent_interrupt authority request_id payload now st = Ok (m, st') -> moves st st'.
Proof.
  intros Hok Hr. unfold execute_agent_interrupt in Hr. cbv zeta in Hr.
  apply rtx_bind_Ok in Hr as (principal & st1 & [_ <-]%reads_Ok & Hr).
  do 2 (apply rtx_bind_Ok in Hr as (? & st1 & [_ <-]%lift_Ok & Hr)). apply rtx_bind_Ok in Hr as (? & st1 & [_ <-]%reads_Ok & Hr).
  apply rtx_bind_Ok in Hr as ([outcome|] & st1 & Hq%admit_quiet & Hr); [apply rtx_ret_Ok in Hr as [_ <-]; by apply quiet_moves|].
  apply rtx_bind_Ok in Hr as ([s execution] & st2 & [Hl <-]%reads_Ok & Hr). unfold load_interruptible_session in Hl.
  apply bind_Ok in Hl as (s0 & [Hs Hkey]%load_session_Ok & Hl). do 4 (apply bind_Ok in Hl as (? & _ & Hl)).
  cbv zeta in Hl. do 3 (apply bind_Ok in Hl as (? & _ & Hl)). injection Hl as <- <-.
  apply rtx_bind_Ok in Hr as (effect & st2 & Hq2%prepare_interrupt_quiet & Hr).
  apply rtx_bind_Ok in Hr as ([] & st3 & Hsave & Hr). apply rtx_bind_Ok in Hr as (event & st4 & He & Hr).
  assert (moves st2 st3) as Hm.
  { refine (save_moves s0 _ _ _ _ _ _ Hsave); [|by intros; apply (same_runtime_turns _ _ s0)]. change (st_sessions st2 !! session_key s0 = Some s0).
    by rewrite Hkey, (qu_sessions _ _ Hq2). }
  assert (quiet st st2) as Hq02 by (by etrans).
  apply append_state_event_quiet in He; [|eapply moves_ok, Hm; by apply (qu_ok _ _ Hq02)].
  apply rtx_bind_Ok in Hr as (outcome & st5 & Ho & Hr). apply rtx_ret_Ok in Hr as [_ <-]. unfold store_result in Ho.
  apply rtx_bind_Ok in Ho as (? & st6 & [_ <-]%lift_Ok & Ho). apply rtx_bind_Ok in Ho as ([] & st6 & Hc%store_command_result_quiet & Ho).
  apply rtx_ret_Ok in Ho as [_ <-]. transitivity st2; [by apply quiet_moves|]. transitivity st3; [done|]. apply quiet_moves. by etrans.
Qed.

Lemma mute_session_moves room_id muted session now st r st' :
  store_ok st -> floors_ordered st -> st_sessions st !! session_key session = Some session ->
  mute_session room_id muted session now st = Ok (r, st') -> moves st st'.
Proof.
  intros Hok Hfloors Hs Hr. unfold mute_session in Hr. cbv zeta in Hr.
  apply rtx_bind_Ok in Hr as (? & st1 & [_ <-]%lift_Ok & Hr). apply rtx_bind_Ok in Hr as (active & st1 & [_ <-]%lift_Ok & Hr).
  destruct (muted && active)%bool; [|destruct muted; simpl in Hr].
  - revert Hr. apply (fun Hk : keeps moves _ => Hk st r st'), keeps_quiet_moves. keeps.
  - apply rtx_ret_Ok in Hr as [_ <-]. by apply quiet_moves.
  - apply rtx_bind_Ok in Hr as ([] & st1 & Hsave & Hr). apply save_moves with (s := session) in Hsave; [|done|by intros; apply same_runtime_turns].
    apply rtx_bind_Ok in Hr as ([room settings] & st2 & [Hfloor <-]%reads_Ok & Hr).
    apply (same_rooms_ordered st st1) in Hfloor; [|by apply moves_rooms|done].
    apply rtx_bind_Ok in Hr as (scheduling & st2 & Ha & Hr). apply rtx_ret_Ok in Hr as [_ <-]. unfold assign_pending_in in Ha.
    apply rtx_bind_Ok in Ha as (prepared & st3 & Ha & Hret). apply rtx_ret_Ok in Hret as [_ <-]. etrans; [exact Hsave|].
    apply moves_intro; [by eapply assign_available_pending_calm|by eapply assign_follows].
Qed.

Lemma muted_session_stored room_id participant st session : store_ok st ->
  muted_session room_id participant st = Ok (Some session) -> st_sessions st !! session_key session = Some session.
Proof.
  intros Hok. unfold muted_session. case_match; [done|]. case_match; [|done]. case_match; [done|].
  intros [s [Hr [= ->]]]%fmap_Ok. unfold load_agent_session_for_participant in Hr.
  apply bind_Ok in Hr as (l & ->%load_room_sessions_Ok & Hr).
  assert (session ∈ room_rows room_id st) as Hin.
  { assert (session ∈ filter (fun session => s_participant_id (d_public session) = pt_participant_id participant) (room_rows room_id st)) as Hf.
    { destruct (filter _ _) as [|sole [|? ?]]; [done| |done]. injection Hr as ->. by left. }
    by apply list_elem_of_filter in Hf as [_ ?]. }
  apply elem_of_room_rows in Hin as (sid & Hs). by rewrite (so_keyed _ Hok _ _ Hs).
Qed.

Lemma execute_participant_mute_moves authority request_id payload now st m st' :
  store_ok st -> floors_ordered st -> execute_participant_mute authority request_id payload now st = Ok (m, st') -> moves st st'.
Proof.
  intros Hok Hfloors Hr. unfold execute_participant_mute in Hr. cbv zeta in Hr.
  apply rtx_bind_Ok in Hr as (principal & st1 & [_ <-]%reads_Ok & Hr). apply rtx_bind_Ok in Hr as (? & st1 & [_ <-]%reads_Ok & Hr).
  apply rtx_bind_Ok in Hr as (? & st1 & [_ <-]%lift_Ok & Hr).
  apply rtx_bind_Ok in Hr as ([outcome|] & st1 & Hq%admit_quiet & Hr); [apply rtx_ret_Ok in Hr as [_ <-]; by apply quiet_moves|].
  apply rtx_bind_Ok in Hr as (update & st2 & [_ <-]%lift_Ok & Hr). apply rtx_bind_Ok in Hr as (prepared & st2 & Hp & Hr).
  apply rtx_bind_Ok in Hr as ([] & st3 & Hc%store_command_result_quiet & Hr). apply rtx_ret_Ok in Hr as [_ <-].
  transitivity st2; [|by apply quiet_moves]. transitivity st1; [by apply quiet_moves|].
  assert (store_ok st1) as Hok1 by (by apply (qu_ok _ _ Hq)). clear Hc. unfold prepare_participant_mute in Hp. cbv zeta in Hp.
  apply rtx_bind_Ok in Hp as (participant & st3' & [_ <-]%reads_Ok & Hp). apply rtx_bind_Ok in Hp as (? & st3' & [_ <-]%lift_Ok & Hp).
  apply rtx_bind_Ok in Hp as (agent_session & st3' & [Hs <-]%reads_Ok & Hp).
  apply rtx_bind_Ok in Hp as (event & st4 & He & Hp). apply rtx_bind_Ok in Hp as ([] & st5 & Hsave & Hp).
  assert (quiet st1 st5 /\ ev_seq event = next_sequence (pr_room_id principal) st5) as [Hq5 Hseq].
  { unfold muted_event in He. apply rtx_bind_Ok in He as (id & st6 & [_ ->]%draw_uuid_Ok & He).
    apply rtx_bind_Ok in He as (seq & st6 & [[= <-] <-]%reads_Ok & He). apply rtx_ret_Ok in He as [<- <-].
    pose proof (save_participant_quiet _ _ _ _ Hsave) as Hq5. unfold save_participant in Hsave. revert Hsave. destruct (st_participants _ !! _) as [row|]; [|done]. intros Hsave.
    injection Hsave as <-. split; [|done]. etrans; [exact (draw_uuid_quiet st1 _ _ eq_refl)|exact Hq5]. }
  apply rtx_bind_Ok in Hp as ([] & st6 & Hi & Hp). eapply insert_next_quiet in Hi; [|by apply (qu_ok _ _ Hq5)|exact Hseq].
  apply rtx_bind_Ok in Hp as ([] & st7 & Hcancel & Hp). apply rtx_bind_Ok in Hp as ([scheduling effect] & st8 & Hm & Hp).
  apply rtx_ret_Ok in Hp as [_ <-].
  assert (quiet st6 st7) as Hq7 by (destruct (mu_muted update); [by eapply cancel_participant_quiet|by apply rtx_ret_Ok in Hcancel as [_ <-]]).
  assert (quiet st1 st7) as Hq17 by (etrans; [exact Hq5|by etrans]). transitivity st7; [by apply quiet_moves|].
  destruct agent_session as [session|]; [|apply rtx_ret_Ok in Hm as [_ <-]; by apply quiet_moves].
  assert (quiet st st7) as Hq07 by (by etrans).
  eapply mute_session_moves; [..|exact Hm]; [by apply (qu_ok _ _ Hq07)| |].
  - eapply same_rooms_ordered; [|exact Hfloors]. apply Hq07.
  - rewrite (qu_sessions _ _ Hq17). by eapply muted_session_stored.
Qed.
End system.

(** ** Histories of the floor *)

Section histories.
Context `{UnicodeGeneralCategory, CharCase, UnicodeCase, Caseless, Sha256, Chrono, Entropy, PersonaLibrary, UuidCrate, ChronoRange,
  AttendeeParent, RequestSerde, RegexCrate}.

(** A committed transaction: one of the floor, or another operation, which leaves the queues and the turn fields of
    the sessions alone and may add sessions that have never been asked anything. *)
Inductive floor_step (st st' : RoomStore) : Prop :=
| FsMessage principal request_id action payload now m :
    execute_message_in principal request_id action payload now st = Ok (m, st') -> floor_step st st'
| FsMutation principal request_id action payload now outcome :
    execute_message_mutation_in principal request_id action payload now st = Ok (outcome, st') -> floor_step st st'
| FsAssign room_id now commit : assign_pending_turn room_id now st = Ok (commit, st') -> floor_step st st'
| FsComplete room_id session_id authority content target now commit :
    complete_message room_id session_id authority content target now st = Ok (commit, st') -> floor_step st st'
| FsVote room_id session_id authority command now commit :
    complete_vote room_id session_id authority command now st = Ok (commit, st') -> floor_step st st'
| FsDecline room_id session_id authority reason now commit :
    decline room_id session_id authority reason now st = Ok (commit, st') -> floor_step st st'
| FsFail room_id session_id authority code message stop now commit :
    fail room_id session_id authority code message stop now st = Ok (commit, st') -> floor_step st st'
| FsInterrupted expected now commit : finalize_retained_in expected now st = Ok (commit, st') -> floor_step st st'
| FsDeath room_id session_id generation execution_id now commit :
    record_provider_turn_task_death room_id session_id generation execution_id now st = Ok (commit, st') -> floor_step st st'
| FsRecovery authority now commit :
    mark_provider_turn_recovery_required authority now st = Ok (commit, st') -> floor_step st st'
| FsAgentInterrupt authority request_id payload now m :
    execute_agent_interrupt authority request_id payload now st = Ok (m, st') -> floor_step st st'
| FsMute authority request_id payload now m :
    execute_participant_mute authority request_id payload now st = Ok (m, st') -> floor_step st st'
| FsOther :
    store_ok st' -> (st_drawn st <= st_drawn st')%nat ->
    (forall k s, st_sessions st !! k = Some s -> exists s', st_sessions st' !! k = Some s' /\ (s' = s \/ lifecycle_change s s')) ->
    (forall k s', st_sessions st' !! k = Some s' -> st_sessions st !! k = None -> turn_start s') -> floor_step st st'.

(** A transaction that stores the answer of the agent: its message, its vote or that it declined. *)
Inductive answers (k : str * str) (st st' : RoomStore) : Prop :=
| AnMessage authority content target now commit :
    complete_message k.1 k.2 authority content target now st = Ok (commit, st') -> answers k st st'
| AnVote authority command now commit : complete_vote k.1 k.2 authority command now st = Ok (commit, st') -> answers k st st'
| AnDecline authority reason now commit : decline k.1 k.2 authority reason now st = Ok (commit, st') -> answers k st st'.

(** What a transaction did to the queue of the session under [k], told by its machine. *)
Definition grew (k : str * str) (st st' : RoomStore) : turn_machine -> turn_machine -> Prop :=
  grows (fun k => answers k st st') (fun k e => erased_in k.1 e st') k (st_drawn st) (st_drawn st').

Record advanced (floors : str -> Prop) (st st' : RoomStore) : Prop := MkAdvanced {
  ad_ok : store_ok st';
  ad_lone : lone floors st -> lone floors st';
  ad_tracks : forall k m, tracks (st_drawn st) k st m ->
    exists m', rtc turn_step m m' /\ tracks (st_drawn st') k st' m' /\ grew k st st' m m'
}.

Lemma moves_advanced floors st st' : store_ok st ->
  moves floors (fun k => answers k st st') (fun k e => erased_in k.1 e st') st st' -> advanced floors st st'.
Proof. intros Hok [_ Hf]. destruct (Hf Hok) as [Hok' _ _ Hl Ht]. by split. Qed.

Lemma turn_start_consistent s : turn_start s -> consistent s.
Proof. intros Hs%machine_start. exact (mk_authority _ Hs). Qed.

Lemma other_advanced floors st st' :
  store_ok st' -> (st_drawn st <= st_drawn st')%nat ->
  (forall k s, st_sessions st !! k = Some s -> exists s', st_sessions st' !! k = Some s' /\ (s' = s \/ lifecycle_change s s')) ->
  (forall k s', st_sessions st' !! k = Some s' -> st_sessions st !! k = None -> turn_start s') -> advanced floors st st'.
Proof.
  intros Hok' Hd Hold Hnew.
  assert (forall k s, st_sessions st !! k = Some s -> exists s', st_sessions st' !! k = Some s' /\ forall P G, turns P G s s') as Hturns.
  { intros k s (s' & Hs' & Hc)%Hold. exists s'. split; [done|]. destruct Hc as [->|Hc]; intros P G; [reflexivity|by apply lifecycle_turns]. }
  split; [done| |].
  - intros [Hall Hone].
    assert (forall k, runs st' k -> runs st k) as Hruns.
    { intros k (s' & Hs' & Hr). destruct (st_sessions st !! k) as [s|] eqn:Hs.
      - destruct (Hturns k s Hs) as (s1 & Hs1 & Ht). rewrite Hs' in Hs1. injection Hs1 as <-. exists s. split; [done|].
        apply (tn_running _ _ _ _ (Ht False (fun _ => False))); [by eapply Hall|done].
      - destruct (Hnew k s' Hs' Hs) as [Hclear _]. by rewrite clear_not_running in Hr. }
    split; [|by eauto]. intros k s' Hs'. destruct (st_sessions st !! k) as [s|] eqn:Hs.
    + destruct (Hturns k s Hs) as (s1 & Hs1 & Ht). rewrite Hs' in Hs1. injection Hs1 as <-.
      eapply path_consistent; [apply (Ht False (fun _ => False))|by eapply Hall].
    + by eapply turn_start_consistent, Hnew.
  - intros k [s enq ack del] [Hs Hm Hdr]. simpl in *. destruct (Hturns k s Hs) as (s' & Hs' & Ht).
    destruct (tn_path _ _ _ _ (Ht (answers k st st') (fun e => erased_in k.1 e st')) enq ack del Hm) as (ack' & del' & Hrtc & Ha & Hg).
    eexists. split; [exact Hrtc|]. split; [split; [done|by eapply machine_steps|]|].
    + simpl. eapply Forall_impl; [exact Hdr|]. intros e (n & Hn & ->). exists n. split; [lia|done].
    + exists ack', del', []. simpl. rewrite app_nil_r. by split_and!.
Qed.

Hypothesis uuid_inj : Inj (=) (=) uuid_at.
Hypothesis uuid_some : forall n, uuid_at n <> [].

Lemma floor_step_advanced floors st st' :
  store_ok st -> floors_ordered floors st -> floor_step st st' -> advanced floors st st'.
Proof.
  intros Hok Hf Hstep.
  assert (gone_after (fun k e => erased_in k.1 e st') st') as Hgone by (by intros k e).
  destruct Hstep; [..|by apply other_advanced]; (apply moves_advanced; [done|]);
    [eapply execute_message_in_moves|eapply execute_message_mutation_in_moves|eapply assign_pending_turn_moves
    |eapply complete_message_moves|eapply complete_vote_moves|eapply decline_moves|eapply fail_moves
    |eapply finalize_retained_in_moves|eapply record_provider_turn_task_death_moves
    |eapply mark_provider_turn_recovery_required_moves|eapply execute_agent_interrupt_moves|eapply execute_participant_mute_moves];
    try eassumption; [by eapply AnMessage|by eapply AnVote|by eapply AnDecline].
Qed.

Lemma nowhere_ordered st : floors_ordered (fun _ => False) st.
Proof. intros ? ? ? _ []. Qed.

Lemma history_tracks st0 st k m :
  rtc floor_step st0 st -> store_ok st0 -> tracks (st_drawn st0) k st0 m ->
  exists m', rtc turn_step m m' /\ tracks (st_drawn st) k st m'.
Proof.
  intros Hsteps. revert m. induction Hsteps as [st|st0 st1 st Hstep _ IH]; intros m Hok Hm; [by exists m|].
  destruct (floor_step_advanced _ _ _ Hok (nowhere_ordered st0) Hstep) as [Hok1 _ Ht].
  destruct (Ht k m Hm) as (m1 & Hs1 & Hm1 & _).
  destruct (IH m1 Hok1 Hm1) as (m' & Hs' & Hm'). exists m'. split; [by etrans|done].
Qed.

Lemma history_ok st0 st : rtc floor_step st0 st -> store_ok st0 -> store_ok st.
Proof.
  induction 1 as [|st0 st1 st Hstep _ IH]; intros Hok; [done|]. apply IH.
  by apply (floor_step_advanced (fun _ => False) st0); [|apply nowhere_ordered|].
Qed.
Lemma history_lone floors st0 st :
  rtc (fun a b => floor_step a b /\ floors_ordered floors a) st0 st -> store_ok st0 -> lone floors st0 -> lone floors st.
Proof.
  intros Hsteps. induction Hsteps as [st|st0 st1 st [Hstep Hf] _ IH]; intros Hok Hl; [done|].
  destruct (floor_step_advanced _ _ _ Hok Hf Hstep) as [Hok1 Hl1 _]. by apply IH; [|apply Hl1].
Qed.

(** *** The queue of an agent *)

(** What is queued for an agent: the inputs of its turn, then those that wait. *)
Definition queue_of (s : DurableAgentSession) : list str := input_ids (d_inflight_inputs s ++ d_pending_inputs s).

Lemma machine_queue m : machine_ok m ->
  tm_acknowledged m ++ queue_of (tm_session m) = filter (fun e => e ∉ tm_dropped m) (tm_enqueued m).
Proof. intros Hm. unfold queue_of, input_ids. rewrite map_app. apply (mk_ledger _ Hm). Qed.

(** Nothing that was answered or dropped is forgotten. *)
Lemma ledgers_grow m m' : rtc turn_step m m' ->
  tm_acknowledged m ⊆ tm_acknowledged m' /\ tm_dropped m ⊆ tm_dropped m'.
Proof.
  induction 1 as [m|m m1 m' Hstep _ [IHa IHd]]; [done|].
  enough (tm_acknowledged m ⊆ tm_acknowledged m1 /\ tm_dropped m ⊆ tm_dropped m1) as [? ?] by (split; by etrans).
  destruct Hstep; simpl; split; intros x Hx; rewrite ?elem_of_app; auto.
Qed.

(** What left the queue stays out of it. *)
Lemma left_queue m m' e : machine_ok m -> e ∈ tm_enqueued m -> e ∉ queue_of (tm_session m) ->
  rtc turn_step m m' -> e ∉ queue_of (tm_session m').
Proof.
  intros Hm He Hq Hsteps Hq'. pose proof (machine_steps _ _ Hsteps Hm) as Hm'. destruct (ledgers_grow _ _ Hsteps) as [Ha Hd].
  pose proof (machine_queue _ Hm') as E'.
  assert (e ∈ filter (fun e => e ∉ tm_dropped m') (tm_enqueued m')) as [Hkept _]%list_elem_of_filter by (rewrite <- E', elem_of_app; by right).
  assert (e ∈ tm_acknowledged m ++ queue_of (tm_session m)) as [Hack|?]%elem_of_app; [|..|done].
  { rewrite (machine_queue _ Hm). apply list_elem_of_filter. split; [|done]. intros Hdr. by apply Hkept, Hd. }
  assert (NoDup (tm_acknowledged m' ++ queue_of (tm_session m'))) as (_ & Hdisj & _)%NoDup_app.
  { rewrite E'. apply NoDup_filter, (mk_enqueued _ Hm'). }
  by eapply Hdisj; [apply Ha|].
Qed.

(** A session reached: consistent, and with nothing queued that was not drawn. *)
Lemma reached_machine st0 st k s0 s :
  rtc floor_step st0 st -> store_ok st0 -> st_sessions st0 !! k = Some s0 -> turn_start s0 -> st_sessions st !! k = Some s ->
  tracks (st_drawn st) k st (MkTurnMachine s (queue_of s) [] []).
Proof.
  intros Hsteps Hok Hs0 Hstart Hs.
  destruct (history_tracks st0 st k (MkTurnMachine s0 [] [] []) Hsteps Hok) as (m & _ & [Hm Hmk Hdr]).
  { split; [done|by apply machine_start|constructor]. }
  rewrite Hs in Hm. injection Hm as ->. split; [done|apply consistent_machine; exact (mk_authority _ Hmk)|]. simpl.
  apply Forall_forall. intros e He. eapply (proj1 (Forall_forall _ _) Hdr).
  assert (e ∈ filter (fun e => e ∉ tm_dropped m) (tm_enqueued m)) as [_ ?]%list_elem_of_filter; [|done].
  rewrite <- (machine_queue _ Hmk), elem_of_app. by right.
Qed.

(** Without an answer and a deletion, a queue only grows at its end. *)
Lemma followed_queue floors b b' k st st' s :
  followed floors (fun _ => False) (fun _ _ => False) b b' st st' -> tracks b k st (MkTurnMachine s (queue_of s) [] []) ->
  exists s' new, st_sessions st' !! k = Some s' /\ queue_of s' = queue_of s ++ new /\ NoDup new /\ Forall (fresh b b') new.
Proof.
  intros [_ _ _ _ Ht] Hm. destruct (Ht k _ Hm) as (m' & _ & [Hs' Hmk' _] & (ack & del & new & Ea & Ed & En & Ha & Hd & Hn)).
  destruct Ha as [->|[]]. assert (del = []) as ->; [|].
  { destruct del as [|d l]; [done|]. by apply Forall_cons in Hd as [[] _]. }
  pose proof (mk_enqueued _ Hmk') as Hnd. rewrite En in Hnd. apply NoDup_app in Hnd as (_ & _ & Hnd).
  exists (tm_session m'), new. split_and!; [done| |done..]. pose proof (machine_queue _ Hmk') as E.
  rewrite Ea, Ed, En in E. simpl in E. rewrite E. apply filter_all, Forall_forall. intros e _. apply not_elem_of_nil.
Qed.

Lemma drawn_fresh_nodup b b' old new :
  NoDup old -> Forall (drawn_before b) old -> NoDup new -> Forall (fresh b b') new -> NoDup (old ++ new).
Proof.
  intros Ho Hdr Hn Hf. apply NoDup_app. split_and!; [done| |done]. intros e Ho' Hn'. rewrite Forall_forall in Hdr, Hf.
  destruct (Hdr e Ho') as (i & Hi & ->). destruct (Hf _ Hn') as (j & Hj & E%uuid_inj). lia.
Qed.

Lemma answered_queue floors now k st st' s s1 session turn_id st2 st3 :
  store_ok st -> answered floors (fun _ => False) (fun _ _ => False) k now st st' s session turn_id st2 st3 ->
  tracks (st_drawn st) k st (MkTurnMachine s1 (queue_of s1) [] []) ->
  exists s' new, st_sessions st' !! k = Some s' /\ input_ids (d_inflight_inputs s1) ++ queue_of s' = queue_of s1 ++ new /\
    NoDup (queue_of s1 ++ new) /\ Forall (fresh (st_drawn st) (st_drawn st')) new.
Proof.
  intros Hok [Hs Hkey [Hif Hpd] Ht Ha Hq Hsave Hf _] [Hs1 Hmk Hdr]. simpl in Hs1, Hdr. rewrite Hs in Hs1. injection Hs1 as <-.
  apply save_session_Ok in Hsave as [_ ->]. set (done_session := complete_session_state _ _ now session) in *.
  assert (queue_of done_session = input_ids (d_pending_inputs s)) as Hdone by (unfold queue_of; simpl; by rewrite Hpd).
  assert (store_ok (st2 <| st_sessions := <[session_key done_session := done_session]> (st_sessions st2) |>)) as Hok3
    by (by apply store_ok_save, (qu_ok _ _ Hq)).
  destruct (followed_queue floors (st_drawn st) (st_drawn st') k _ st' done_session (Hf Hok3)) as (s' & new & Hs' & Hnew & Hnd & Hfresh).
  - split.
    + simpl. rewrite <- Hkey. apply lookup_insert_eq.
    + apply consistent_machine. eapply (path_consistent True (fun _ => False) session).
      * by eapply (tn_path _ _ _ _ (complete_turns True (fun _ => False) turn_id now session I Ha)).
      * eapply path_consistent; [apply (Ht False (fun _ => False))|exact (mk_authority _ Hmk)].
    + simpl. rewrite Hdone. unfold queue_of, input_ids in Hdr. rewrite map_app in Hdr. by apply Forall_app in Hdr as [_ ?].
  - exists s', new. split_and!; [done| |by eapply drawn_fresh_nodup; [apply Hmk|..]|done].
    rewrite Hnew, Hdone. unfold queue_of, input_ids. by rewrite map_app, app_assoc.
Qed.

(** The answer acknowledges the inputs of the turn, and nothing else leaves the queue. *)
Lemma answers_queue k st st' s :
  store_ok st -> answers k st st' -> tracks (st_drawn st) k st (MkTurnMachine s (queue_of s) [] []) ->
  exists s' new, st_sessions st' !! k = Some s' /\ input_ids (d_inflight_inputs s) ++ queue_of s' = queue_of s ++ new /\
    NoDup (queue_of s ++ new) /\ Forall (fresh (st_drawn st) (st_drawn st')) new.
Proof.
  intros Hok Han Hm. destruct k as [room_id session_id].
  assert (exists now s1 session turn_id st2 st3,
    answered (fun _ => False) (fun _ => False) (fun _ _ => False) (room_id, session_id) now st st' s1 session turn_id st2 st3)
    as (now & s1 & session & turn_id & st2 & st3 & Ha); [|by eapply answered_queue].
  destruct Han as [? ? ? now ? Hr|? ? now ? Hr|? ? now ? Hr]; exists now; simpl in Hr;
    [eapply complete_message_answers|eapply complete_vote_answers|eapply decline_answers]; eauto using nowhere_ordered.
Qed.
End histories.

Section system_theorems.
Context `{UnicodeGeneralCategory, CharCase, UnicodeCase, Caseless, Sha256, Chrono, Entropy, PersonaLibrary, UuidCrate, ChronoRange,
  AttendeeParent, RequestSerde, RegexCrate}.

(** What is queued for an agent leaves the queue once: answered, by the very transaction that stores the answer, or
    deleted from the room. *)

(** C1: over any history of messages, edits, deletions, assignments, completions, votes,
    declines, failures, interrupts, mutes and lost tasks, what is queued for an agent (the
    inputs of its turn, then those that wait) leaves its queue only in a transaction that
    stores the answer of that agent, which takes exactly the inputs of the turn, or because
    the message is marked deleted in the room; what stays keeps its order, what comes is
    added at the end under an identifier the transaction drew, nothing is queued twice, and
    what has left never comes back, whatever happens next. *)
Theorem floor_exactly_once (st0 st st' : RoomStore) (k : str * str) (s0 s : DurableAgentSession)
    (Huuid : Inj (=) (=) uuid_at) (Hsome : forall n, uuid_at n <> []) (Hok : store_ok st0)
    (Hs0 : st_sessions st0 !! k = Some s0) (Hstart : turn_start s0) (Hsteps : rtc floor_step st0 st)
    (Hs : st_sessions st !! k = Some s) (Hstep : floor_step st st') :
  exists s', st_sessions st' !! k = Some s' /\
    (exists answered dropped new,
      answered ++ queue_of s' = filter (fun e => e ∉ dropped) (queue_of s ++ new) /\ NoDup (queue_of s ++ new) /\
      (answered = [] \/ answers k st st' /\ answered = input_ids (d_inflight_inputs s)) /\
      Forall (fun e => erased_in k.1 e st') dropped /\ Forall (fresh (st_drawn st) (st_drawn st')) new) /\
    (answers k st st' -> exists new,
      input_ids (d_inflight_inputs s) ++ queue_of s' = queue_of s ++ new /\ Forall (fresh (st_drawn st) (st_drawn st')) new) /\
    (forall e later s2, e ∈ queue_of s -> e ∉ queue_of s' -> rtc floor_step st' later ->
      st_sessions later !! k = Some s2 -> e ∉ queue_of s2).
Proof.
  pose proof (history_ok Huuid Hsome _ _ Hsteps Hok) as Hok1.
  pose proof (reached_machine Huuid Hsome _ _ _ _ _ Hsteps Hok Hs0 Hstart Hs) as Hm.
  destruct (floor_step_advanced Huuid Hsome _ _ _ Hok1 (nowhere_ordered st) Hstep) as [Hok2 _ Ht].
  destruct (Ht k _ Hm) as (m & Hto & Hm' & (ack & del & new & Ea & Ed & En & Ha & Hd & Hn)).
  pose proof (tk_machine _ _ _ _ Hm') as Hmk. pose proof (mk_enqueued _ Hmk) as Hnodup. pose proof (machine_queue _ Hmk) as Eq.
  rewrite En in Hnodup. rewrite Ea, Ed, En in Eq. simpl in *. exists (tm_session m). split; [apply Hm'|]. split_and!.
  - destruct Ha as [->|Han]; [exists [], del, new; split_and!; [done|done|by left|done|done]|].
    destruct (answers_queue Huuid Hsome _ _ _ _ Hok1 Han Hm) as (s' & new' & Hs' & E & Hnd & Hn').
    rewrite (tk_session _ _ _ _ Hm') in Hs'. injection Hs' as <-. exists (input_ids (d_inflight_inputs s)), [], new'.
    rewrite E. split_and!; [|done|by right|constructor|done].
    symmetry. apply filter_all, Forall_forall. intros e _. apply not_elem_of_nil.
  - intros Han. destruct (answers_queue Huuid Hsome _ _ _ _ Hok1 Han Hm) as (s' & new' & Hs' & E & _ & Hn').
    rewrite (tk_session _ _ _ _ Hm') in Hs'. injection Hs' as <-. by exists new'.
  - intros e later s2 He Hout Hlater Hs2.
    destruct (history_tracks Huuid Hsome _ _ _ _ Hlater Hok2 Hm') as (m2 & Hto2 & [Hm2 _ _]).
    rewrite Hs2 in Hm2. injection Hm2 as ->. apply (left_queue m m2 e); [done| |done|done]. rewrite En. by apply elem_of_app; left.
Qed.

(** In a room that stays in ordered conversation two agents never have a turn at once. *)

(** C2: in a room that stays in ordered conversation two agents never have a turn at once,
    whatever is posted, completed, failed, interrupted, muted or unmuted in whatever order.
    *)
Theorem ordered_room_one_turn (st0 st : RoomStore) (room_id : str)
    (Huuid : Inj (=) (=) uuid_at) (Hsome : forall n, uuid_at n <> []) (Hok : store_ok st0)
    (Hstart : forall k s, st_sessions st0 !! k = Some s -> turn_start s)
    (Hsteps : rtc (fun a b => floor_step a b /\ floors_ordered (eq room_id) a) st0 st) :
  forall sid1 sid2 s1 s2,
    st_sessions st !! (room_id, sid1) = Some s1 -> turn_authority_is_active s1 = Ok true ->
    st_sessions st !! (room_id, sid2) = Some s2 -> turn_authority_is_active s2 = Ok true -> sid1 = sid2.
Proof.
  assert (lone (eq room_id) st0) as Hlone.
  { split; [intros k s Hs; by eapply turn_start_consistent, Hstart|]. intros k1 k2 _ _ (s & Hs & Hr) _.
    destruct (Hstart _ _ Hs) as [Hclear _]. by rewrite clear_not_running in Hr. }
  destruct (history_lone Huuid Hsome _ _ _ Hsteps Hok Hlone) as [_ Hone]. intros sid1 sid2 s1 s2 Hs1 Ha1 Hs2 Ha2.
  assert ((room_id, sid1) = (room_id, sid2)) as Heq; [|congruence].
  apply Hone; [done|done| |]; [exists s1|exists s2]; (split; [done|]); unfold is_running; by rewrite ?Ha1, ?Ha2.
Qed.

(** The rows of the sessions stay well formed: stored under their own key, with a queue within its bounds, and with the
    fields of a turn either all set or all clear. *)

(** C19: over any history of the floor every stored session keeps its type: it is stored
    under its own key, its queue is bounded and holds no message twice, and the fields of
    its turn are either all set or all clear. *)
Theorem stored_sessions_well_formed (st0 st : RoomStore)
    (Huuid : Inj (=) (=) uuid_at) (Hsome : forall n, uuid_at n <> []) (Hok : store_ok st0)
    (Hstart : forall k s, st_sessions st0 !! k = Some s -> turn_start s) (Hsteps : rtc floor_step st0 st) :
  forall k s, st_sessions st !! k = Some s ->
    session_key s = k /\ queue_ok (d_inflight_inputs s ++ d_pending_inputs s) /\ (turn_running s \/ turn_clear s) /\
    is_ok (active_turn_authority s) = true.
Proof.
  assert (lone (fun _ => False) st0) as Hlone by (split; [intros k s Hs; by eapply turn_start_consistent, Hstart|by intros ? ? []]).
  intros k s Hs.
  destruct (history_lone Huuid Hsome (fun _ => False) st0 st) as [Hc _]; [|done|done|].
  { eapply rtc_subrel, Hsteps. intros a b Hab. split; [done|]. intros ? ? ? _ []. }
  assert (session_key s = k) as Hk by (by eapply so_keyed; [eapply history_ok|]).
  specialize (Hc k s Hs). split_and!; [done|by apply authority_queue| |done]. apply authority_cases in Hc. tauto.
Qed.
End system_theorems.

(** ** Concrete inputs *)

#[local] Existing Instances ascii_general_category ascii_uppercase ascii_unicode_case plain_case identity_digest demo_entropy
  demo_persona accept_uuid every_instant no_parent demo_serde no_matches plain_clock.

Lemma demo_uuid_inj : Inj (=) (=) (uuid_at : nat -> str).
Proof. intros m n. unfold uuid_at, demo_entropy, show_nat. intros Heq%app_inv_head%show_N_inj. lia. Qed.
Lemma demo_uuid_some n : uuid_at n <> [].
Proof. done. Qed.
Lemma demo_starts mode k s : st_sessions (demo_store mode) !! k = Some s -> turn_start s.
Proof.
  simpl. intros [[_ <-] | [_ [[_ <-] | [_ Hs]]%lookup_insert_Some]]%lookup_insert_Some; [by split; [by split|]..|].
  by rewrite lookup_empty in Hs.
Qed.

(** Ann posts a message in the ordered room, and an agent begins to answer it. *)
Lemma demo_history : floor_step (demo_store "ordered") demo_posted.
Proof. eapply FsMessage. exact demo_posted_Ok. Qed.
Lemma demo_floors : floors_ordered (eq (u "room")) (demo_store "ordered").
Proof.
  intros room_id room settings Hl _. unfold load_active_room, load_room_with_settings in Hl. simpl in Hl.
  match type of Hl with context [?m !! room_id] => destruct (m !! room_id) as [[r rs]|] eqn:E; [|done] end.
  apply lookup_singleton_Some in E as [<- [= <- <-]]. by injection Hl as _ <-.
Qed.

Definition demo_answering : DurableAgentSession :=
  default (idle_session "agent-1") (st_sessions demo_posted !! (u "room", u "agent-1")).
Lemma demo_answering_Some : st_sessions demo_posted !! (u "room", u "agent-1") = Some demo_answering.
Proof. vm_compute. reflexivity. Qed.
Lemma demo_answering_active : turn_authority_is_active demo_answering = Ok true.
Proof. vm_compute. reflexivity. Qed.

(** The agent is asked, and declines. *)
Definition asked (st : RoomStore) : RoomStore := st <| st_executions := (fun row =>
  row <| pe_phase := ExecStartDispatching |> <| pe_start_dispatch_nonce := u "nonce" |>) <$> st_executions st |>.
Lemma asked_step st : store_ok st -> floor_step st (asked st).
Proof.
  intros [Hk Hp]. apply FsOther; [by split|done| |].
  - intros k s Hs. exists s. split; [exact Hs|by left].
  - intros k s Hs Hn. simpl in Hs. congruence.
Qed.
Definition demo_asked : RoomStore := asked demo_posted.
Definition demo_reply : ProviderTurnAuthority :=
  MkTurnAuthority (u "room") (u "agent-1") (s_active_turn_id (d_public demo_answering)) (d_turn_generation demo_answering)
    (uuid_at 2) (u "nonce") (d_runtime_handle_id demo_answering) (d_runtime_owner_id demo_answering)
    (d_runtime_lease_token demo_answering) (u "provider-turn") None.
Abbreviation demo_decline := (decline (u "room") (u "agent-1") demo_reply (u "not_addressed") 5) (only parsing).
Definition no_turn_commit : AgentTurnCommit := MkTurnCommit [] [].
Definition demo_declined : RoomStore := step no_turn_commit demo_decline demo_asked.
Lemma demo_declined_Ok : demo_decline demo_asked = Ok (value_of no_turn_commit demo_decline demo_asked, demo_declined).
Proof. unfold demo_declined. apply step_Ok. by vm_compute. Qed.

Lemma demo_posted_ok : store_ok demo_posted.
Proof. exact (history_ok demo_uuid_inj demo_uuid_some _ _ (rtc_once _ _ demo_history) (demo_store_ok "ordered")). Qed.
Lemma demo_asked_step : floor_step demo_posted demo_asked.
Proof. exact (asked_step demo_posted demo_posted_ok). Qed.
Lemma demo_asked_Some : st_sessions demo_asked !! (u "room", u "agent-1") = Some demo_answering.
Proof. vm_compute. reflexivity. Qed.

(** The message leaves the queue of the agent with its answer, for good. *)
Lemma floor_exactly_once_witness :
  length (queue_of demo_answering) = 1%nat /\ answers (u "room", u "agent-1") demo_asked demo_declined /\
  exists s', st_sessions demo_declined !! (u "room", u "agent-1") = Some s' /\
    (exists new, input_ids (d_inflight_inputs demo_answering) ++ queue_of s' = queue_of demo_answering ++ new /\
      Forall (fresh (st_drawn demo_asked) (st_drawn demo_declined)) new) /\
    (forall e later s2, e ∈ queue_of demo_answering -> e ∉ queue_of s' -> rtc floor_step demo_declined later ->
      st_sessions later !! (u "room", u "agent-1") = Some s2 -> e ∉ queue_of s2).
Proof.
  assert (answers (u "room", u "agent-1") demo_asked demo_declined) as Ha by (eapply AnDecline; exact demo_declined_Ok).
  split; [by vm_compute|]. split; [exact Ha|].
  destruct (floor_exactly_once (demo_store "ordered") demo_asked demo_declined (u "room", u "agent-1") (idle_session "agent-1") demo_answering)
    as (s' & Hs' & _ & Hans & Hgone).
  - exact demo_uuid_inj.
  - exact demo_uuid_some.
  - exact (demo_store_ok "ordered").
  - vm_compute. reflexivity.
  - by split.
  - eapply rtc_l; [exact demo_history|]. apply rtc_once. exact demo_asked_step.
  - exact demo_asked_Some.
  - eapply FsDecline. exact demo_declined_Ok.
  - exists s'. split; [exact Hs'|]. split; [exact (Hans Ha)|exact Hgone].
Defined.

Lemma ordered_room_one_turn_witness :
  turn_authority_is_active demo_answering = Ok true /\
  forall sid s, st_sessions demo_posted !! (u "room", sid) = Some s -> turn_authority_is_active s = Ok true -> u "agent-1" = sid.
Proof.
  split; [exact demo_answering_active|]. intros sid s Hs Ha.
  apply (ordered_room_one_turn (demo_store "ordered") demo_posted (u "room")) with (s1 := demo_answering) (s2 := s).
  - exact demo_uuid_inj.
  - exact demo_uuid_some.
  - exact (demo_store_ok "ordered").
  - exact (demo_starts "ordered").
  - apply rtc_once. split; [exact demo_history|exact demo_floors].
  - exact demo_answering_Some.
  - exact demo_answering_active.
  - exact Hs.
  - exact Ha.
Defined.

Lemma stored_sessions_well_formed_witness :
  session_key demo_answering = (u "room", u "agent-1") /\ queue_ok (d_inflight_inputs demo_answering ++ d_pending_inputs demo_answering) /\
  (turn_running demo_answering \/ turn_clear demo_answering) /\ is_ok (active_turn_authority demo_answering) = true.
Proof.
  exact (stored_sessions_well_formed (demo_store "ordered") demo_posted demo_uuid_inj demo_uuid_some (demo_store_ok "ordered")
    (demo_starts "ordered") (rtc_once _ _ demo_history) (u "room", u "agent-1") demo_answering demo_answering_Some).
Defined.
