(* ===== verification/Selection.v ===== *)
(** * Selecting a provider for a new agent

    selection.rs, selection_input.rs, selection_controls.rs, profile.rs, the table of
    registration.rs, and the address of a custom endpoint (custom_api.rs, remote_https.rs),
    of src/crates/agentsassemble-provider: a creation payload is parsed strictly and
    matched against the catalog of discovered providers. *)

From Stdlib Require Import String.
From S2P Require Import Prelude Text Json Model Command Vote.

Record ProviderSelectionError : Type := MkSelectionError { sel_code : str; sel_message : str }.
Abbreviation sel A := (result ProviderSelectionError A) (only parsing).
Definition selection_error (code : string) (message : str) : ProviderSelectionError := MkSelectionError (u code) message.
Definition bad_create (message : str) : ProviderSelectionError := selection_error "bad_request" message.
Definition invalid_workspace : ProviderSelectionError :=
  selection_error "invalid_workspace" (u "An existing workspace directory is required.").

(** ** selection_input.rs *)

Record SelectionInput : Type := MkSelectionInput {
  si_catalog_revision : str;
  si_provider_id : str;
  si_model : option str;
  si_reasoning_effort : option str;
  si_service_tier : option str;
  si_variant : option str;
  si_permission_mode : option str;
  si_execution_harness : option str;
  si_display_name : str;
  si_workspace : str;
  si_provider_endpoint : option str;
  si_persona_card_id : option str;
  si_provider_session_id : option str;
  si_max_output_tokens : option N;
  si_start_requested : bool
}.

Definition CREATE_FIELDS : list str :=
  [u "catalog_revision"; u "provider_id"; u "provider_kind"; u "provider"; u "model"; u "model_id"; u "reasoning_effort"; u "effort";
   u "service_tier"; u "variant"; u "permission_mode"; u "permission_option"; u "execution_harness"; u "display_name"; u "workspace";
   u "provider_endpoint"; u "persona_card_id"; u "session_id"; u "max_output_tokens"; u "start"; u "start_now"].
Definition SERVER_OWNED_FIELDS : list str :=
  [u "agent_id"; u "participant_id"; u "owner_id"; u "created_by"; u "command"; u "executable"; u "runtime_kind"; u "transport";
   u "process_ownership"; u "runtime_profile_key"].

Definition reject_unknown_fields (values : object) : sel unit :=
  match List.find (fun key => negb (contains CREATE_FIELDS key)) (keys values) with
  | Some key => Err (bad_create (u "Unknown agent.create field: " ++ key ++ u "."))
  | None => Ok tt
  end.
Definition reject_server_owned_fields (values : object) : sel unit :=
  reject_if (any (contains_key values) SERVER_OWNED_FIELDS)
    (bad_create (u "Agent Session identity and runtime ownership are server-controlled.")).

(** The value of a field with several names, which must agree. *)
Fixpoint alias_from {A} `{EqDecision A} (values : object) (first : str) (parse : str -> value -> sel A) (names : list str)
    (selected : option A) : sel (option A) :=
  match names with
  | [] => Ok selected
  | name :: names =>
      match get values name with
      | None => alias_from values first parse names selected
      | Some value =>
          parsed ← parse name value;
          reject_if (match selected with Some current => negb (bool_decide (current = parsed)) | None => false end)
            (bad_create (first ++ u " aliases must have the same value.")) ;;
          alias_from values first parse names (Some parsed)
      end
  end.
Definition alias_value {A} `{EqDecision A} (values : object) (names : list str) (parse : str -> value -> sel A) : sel (option A) :=
  alias_from values (default (u "field") (head names)) parse names None.

Definition parse_identifier (limit : nat) (name : str) (value : value) : sel str :=
  raw ← ok_or (as_str value) (bad_create (name ++ u " must be a string."));
  reject_if (bool_decide (limit < byte_len raw)%nat || any is_control raw || negb (str_eqb (trim raw) raw))
    (bad_create (name ++ u " is invalid.")) ;;
  mret raw.
Definition optional_identifier (values : object) (names : list str) (limit : nat) : sel (option str) :=
  alias_value values names (parse_identifier limit).
Definition required_identifier (values : object) (names : list str) (limit : nat) : sel str :=
  found ← optional_identifier values names limit;
  ok_or found (bad_create (default (u "field") (head names) ++ u " is required.")).
Definition alias_bool (values : object) (names : list str) : sel (option bool) :=
  alias_value values names (fun name value => ok_or (as_bool value) (bad_create (name ++ u " must be a boolean."))).
Definition optional_u64 (values : object) (name : str) : sel (option N) :=
  match get values name with
  | None => Ok None
  | Some value => Some <$> ok_or (as_u64 value) (bad_create (name ++ u " must be a nonnegative integer."))
  end.
Definition required_display_name `{UnicodeGeneralCategory} (values : object) : sel str :=
  raw ← ok_or (value ← get values (u "display_name"); as_str value) (bad_create (u "display_name must be a string."));
  let display_name := clean_single_line raw 64 in
  require (has_visible_text display_name) (bad_create (u "display_name is required.")) ;;
  mret display_name.
Definition required_workspace (values : object) : sel str :=
  workspace ← ok_or (value ← get values (u "workspace"); as_str value) invalid_workspace;
  reject_if (bool_decide (4096 < byte_len workspace)%nat || any is_control workspace) invalid_workspace ;;
  mret workspace.

Definition MAX_PERSONA_ID_CHARACTERS : nat := 80.

(** [SelectionInput::parse] *)
Definition parse_selection `{UnicodeGeneralCategory} (payload : value) : sel SelectionInput :=
  values ← ok_or (as_object payload) (bad_create (u "payload must be an object."));
  reject_server_owned_fields values ;;
  reject_unknown_fields values ;;
  start ← alias_bool values [u "start"; u "start_now"];
  catalog_revision ← required_identifier values [u "catalog_revision"] 128;
  provider_id ← required_identifier values [u "provider_id"; u "provider_kind"; u "provider"] 64;
  model ← optional_identifier values [u "model"; u "model_id"] 128;
  reasoning_effort ← optional_identifier values [u "reasoning_effort"; u "effort"] 32;
  service_tier ← optional_identifier values [u "service_tier"] 32;
  variant ← optional_identifier values [u "variant"] 64;
  permission_mode ← optional_identifier values [u "permission_mode"; u "permission_option"] 64;
  execution_harness ← optional_identifier values [u "execution_harness"] 32;
  display_name ← required_display_name values;
  workspace ← required_workspace values;
  provider_endpoint ← optional_identifier values [u "provider_endpoint"] 1000;
  persona_card_id ← optional_identifier values [u "persona_card_id"] MAX_PERSONA_ID_CHARACTERS;
  provider_session_id ← optional_identifier values [u "session_id"] 128;
  max_output_tokens ← optional_u64 values (u "max_output_tokens");
  mret {| si_catalog_revision := catalog_revision; si_provider_id := provider_id; si_model := model;
          si_reasoning_effort := reasoning_effort; si_service_tier := service_tier; si_variant := variant;
          si_permission_mode := permission_mode; si_execution_harness := execution_harness; si_display_name := display_name;
          si_workspace := workspace; si_provider_endpoint := provider_endpoint; si_persona_card_id := persona_card_id;
          si_provider_session_id := provider_session_id; si_max_output_tokens := max_output_tokens;
          si_start_requested := default false start |}.

(** selection.rs *)
Definition creation_start_requested `{UnicodeGeneralCategory} (payload : value) : sel bool :=
  si_start_requested <$> parse_selection payload.

(** ** The catalog (model.rs, registration.rs) *)

Inductive ProviderTurnInterrupt : Type := InterruptUnsupported | InterruptRetainedRuntime.
Inductive ProviderConfigurationAuthority : Type := AuthorityCatalog | AuthorityCallerOpenAi.
#[global] Instance ProviderConfigurationAuthority_eq_dec : EqDecision ProviderConfigurationAuthority.
Proof. solve_decision. Defined.

Definition custom_endpoint (authority : ProviderConfigurationAuthority) : bool := bool_decide (authority = AuthorityCallerOpenAi).
Definition custom_model (authority : ProviderConfigurationAuthority) : bool := bool_decide (authority = AuthorityCallerOpenAi).

Record ProviderControlOption : Type := MkControlOption { op_value : str; op_metadata : object }.
Record ProviderControl : Type := MkControl { ctl_key : str; ctl_options : list ProviderControlOption; ctl_default_value : str }.
(** The fields of an availability that a selection reads. *)
Record ProviderAvailability : Type := MkAvailability {
  av_id : str;
  av_provider_kind : str;
  av_runtime_kind : str;
  av_catalog_group : str;
  av_connection_kind : str;
  av_executable : str;
  av_executable_identity : str;
  av_startable : bool;
  av_discovery_status : str;
  av_custom_endpoint : bool;
  av_custom_model : bool;
  av_controls : list ProviderControl
}.
Record ProviderCatalog : Type := MkCatalog { cat_status : str; cat_revision : str; cat_providers : list ProviderAvailability }.

(** What a registration says of a provider; how it is discovered and launched is outside. *)
Record ProviderRegistration : Type := MkRegistration {
  reg_id : str;
  reg_provider_kind : str;
  reg_runtime_kind : str;
  reg_transport : str;
  reg_catalog_group : str;
  reg_workspace_required : bool;
  reg_executable_required : bool;
  reg_turn_interrupt : ProviderTurnInterrupt;
  reg_configuration_authority : ProviderConfigurationAuthority
}.
Definition NATIVE_CLI_BRIDGE : str := u "native_cli_bridge".

Definition harness (id provider_kind runtime_kind transport : string) (interrupt : ProviderTurnInterrupt) : ProviderRegistration :=
  MkRegistration (u id) (u provider_kind) (u runtime_kind) (u transport) (u "harness") true true interrupt AuthorityCatalog.
Definition remote_api (id provider_kind : string) (authority : ProviderConfigurationAuthority) : ProviderRegistration :=
  MkRegistration (u id) (u provider_kind) (u "api") (u "https") (u "api") false false InterruptUnsupported authority.
Definition local_api (id provider_kind catalog_group : string) : ProviderRegistration :=
  MkRegistration (u id) (u provider_kind) (u "api") (u "http") (u catalog_group) false true InterruptUnsupported AuthorityCatalog.

Definition PROVIDER_REGISTRATIONS : list ProviderRegistration :=
  [harness "codex" "codex_live_session" "live_cli" "stdio_jsonl" InterruptRetainedRuntime;
   harness "claude" "claude_code" "live_cli" "agent_sdk_stdio" InterruptUnsupported;
   harness "opencode" "opencode_server" "opencode" "http" InterruptRetainedRuntime;
   harness "cursor" "cursor_live_session" "live_cli" "acp_stdio" InterruptRetainedRuntime;
   harness "grok" "grok_live_session" "live_cli" "acp_stdio" InterruptRetainedRuntime;
   remote_api "deepseek" "deepseek_api" AuthorityCatalog;
   remote_api "cerebras" "cerebras_api" AuthorityCatalog;
   remote_api "openrouter" "openrouter_api" AuthorityCatalog;
   remote_api "vercel" "vercel_ai_gateway" AuthorityCatalog;
   remote_api "llmgateway" "llm_gateway_api" AuthorityCatalog;
   remote_api "tokenrouter" "tokenrouter_api" AuthorityCatalog;
   remote_api "custom_api" "custom_openai_api" AuthorityCallerOpenAi;
   local_api "ollama" "ollama_api" "harness";
   local_api "lmstudio" "lmstudio_api" "local"].

Definition provider_registration_by_id (id : str) : option ProviderRegistration :=
  List.find (fun r => str_eqb (reg_id r) id) PROVIDER_REGISTRATIONS.
Definition provider_registration_by_profile (provider_kind runtime_kind transport : str) : option ProviderRegistration :=
  List.find (fun r => str_eqb (reg_provider_kind r) provider_kind && str_eqb (reg_runtime_kind r) runtime_kind
                      && str_eqb (reg_transport r) transport) PROVIDER_REGISTRATIONS.
Definition registered (provider : str) : option ProviderRegistration :=
  List.find (fun r => str_eqb (reg_id r) provider || str_eqb (reg_provider_kind r) provider) PROVIDER_REGISTRATIONS.
Definition registered_provider_kind (provider : str) : option str := reg_provider_kind <$> registered provider.
Definition registered_provider_id (provider : str) : option str := reg_id <$> registered provider.

(** ** selection_controls.rs *)

Definition find_control (provider : ProviderAvailability) (key : str) : option ProviderControl :=
  List.find (fun c => str_eqb (ctl_key c) key) (av_controls provider).
Definition find_option (control : ProviderControl) (value : str) : option ProviderControlOption :=
  List.find (fun o => str_eqb (op_value o) value) (ctl_options control).

Definition provider_message (provider : ProviderAvailability) (rest : str) : str := u "Provider " ++ av_id provider ++ rest.
Definition unsupported_control (provider : ProviderAvailability) (rest : str) : ProviderSelectionError :=
  selection_error "unsupported_control" (provider_message provider rest).
Definition inconsistent_catalog (provider : ProviderAvailability) (rest : str) : ProviderSelectionError :=
  selection_error "catalog_inconsistent" (provider_message provider rest).

Definition selected_value (provider : ProviderAvailability) (key : str) (requested : option str) : sel str :=
  match find_control provider key with
  | None =>
      match requested with
      | None | Some [] => Ok []
      | Some _ => Err (unsupported_control provider (u " does not support " ++ key ++ u "."))
      end
  | Some control =>
      let selected := default (ctl_default_value control) requested in
      require (any (fun option => str_eqb (op_value option) selected) (ctl_options control))
        (unsupported_control provider (u " rejected the selected " ++ key ++ u ".")) ;;
      mret selected
  end.

Definition selected_u32 (provider : ProviderAvailability) (key : str) (requested : option N) : sel N :=
  let requested := match requested with Some n => if (n =? 0)%N then None else Some (show_N n) | None => None end in
  selected ← selected_value provider key requested;
  if str_empty selected then Ok 0%N
  else ok_or (parse_unsigned u32_max selected) (inconsistent_catalog provider (u " has an invalid " ++ key ++ u " authority.")).

Definition model_option (provider : ProviderAvailability) (model : str) : option ProviderControlOption :=
  control ← find_control provider (u "model"); find_option control model.

Definition validate_model_relation (provider : ProviderAvailability) (model relation selected : str) : sel unit :=
  if str_eqb selected (u "default") then Ok tt
  else if str_empty selected then
    match (o ← model_option provider model; v ← get (op_metadata o) relation; as_array v) with
    | Some allowed =>
        if any (fun v => bool_decide (as_str v = Some [])) allowed then Ok tt
        else reject_if (any (fun v => match as_str v with Some s => negb (str_empty s) | None => false end) allowed)
               (unsupported_control provider (u " model " ++ model ++ u " does not support an empty " ++ relation ++ u " value."))
    | None => Ok tt
    end
  else
    o ← ok_or (model_option provider model) (inconsistent_catalog provider (u " has no selected model authority."));
    match get (op_metadata o) relation with
    | Some (VArray allowed) =>
        require (any (fun v => bool_decide (as_str v = Some selected)) allowed)
          (unsupported_control provider (u " model " ++ model ++ u " does not support " ++ selected ++ u "."))
    | _ =>
        reject_if (bool_decide (get (op_metadata o) (u "relation_scope") ≫= as_str = Some (u "per_model")))
          (inconsistent_catalog provider (u " has incomplete per-model controls."))
    end.

Definition matching_variant (reasoning_effort service_tier : str) (variant : value) : bool :=
  match as_object variant with
  | Some variant =>
      bool_decide (get variant (u "reasoning_effort") ≫= as_str = Some reasoning_effort)
      && bool_decide (get variant (u "service_tier") ≫= as_str = Some service_tier) && (length variant =? 2)%nat
  | None => false
  end.

Definition validate_runtime_variant (provider : ProviderAvailability) (model reasoning_effort service_tier : str) : sel unit :=
  match find_control provider (u "model") with
  | None => Ok tt
  | Some control =>
      o ← ok_or (find_option control model) (inconsistent_catalog provider (u " has no selected model authority."));
      match get (op_metadata o) (u "runtime_variants") with
      | None => Ok tt
      | Some variants =>
          variants ← ok_or (as_array variants) (inconsistent_catalog provider (u " has malformed runtime variants."));
          require (any (matching_variant reasoning_effort service_tier) variants)
            (unsupported_control provider (u " model " ++ model ++ u " does not support the selected runtime variant."))
      end
  end.

(** ** profile.rs *)

Section selection.
Context `{UnicodeGeneralCategory, Sha256}.

Definition NUL : str := [0%N].

Definition runtime_profile_key_with_output (fields : list str) (max_output_tokens : N) : str :=
  u "provider-profile-v2-" ++
  sha256_hex (if (max_output_tokens =? 0)%N then join NUL fields else join NUL fields ++ NUL ++ show_N max_output_tokens).

(** ** custom_api.rs, remote_https.rs

    The crates [url] and [ip_network] are parameters: how an address is parsed, and which
    networks are global. *)

Inductive IpAddr : Type := V4 (bits : N) | V6 (bits : N).
Inductive UrlHost : Type := HostDomain (name : str) | HostIp (address : IpAddr).
Record Url : Type := MkUrl {
  url_scheme : str;
  url_username : str;
  url_password : option str;
  url_host : option UrlHost;
  url_before_path : str;
  url_path : str;
  url_query : option str;
  url_fragment : option str
}.
Class UrlCrate : Type := { parse_url : str -> option Url; network_is_global : IpAddr -> bool }.

(** [Ipv6Addr::to_ipv4_mapped], [IpAddr::is_multicast] *)
Definition unmapped (address : IpAddr) : IpAddr :=
  match address with
  | V6 bits => if (N.shiftr bits 32 =? 65535)%N then V4 (N.land bits 4294967295) else address
  | V4 _ => address
  end.
Definition is_multicast (address : IpAddr) : bool :=
  match address with
  | V4 bits => (N.shiftr bits 28 =? 14)%N
  | V6 bits => (N.shiftr bits 120 =? 255)%N
  end.
Definition public_unicast `{UrlCrate} (address : IpAddr) : bool :=
  let address := unmapped address in negb (is_multicast address) && network_is_global address.

Inductive CustomEndpointError : Type := EndpointRequired | DirectHttps | EmbeddedAuthority | LocalNetwork.
Definition endpoint_message (e : CustomEndpointError) : str :=
  match e with
  | EndpointRequired => u "Custom API address is required."
  | DirectHttps => u "Custom API address must be a direct HTTPS URL."
  | EmbeddedAuthority => u "Custom API address cannot contain credentials, a query, or a fragment."
  | LocalNetwork => u "Use a Local provider for loopback or local-network endpoints."
  end.

Definition COMPLETION_SUFFIX : str := u "/chat/completions".
Definition is_slash (c : char) : bool := (c =? 47)%N.

(** [rsplit_once('.')]: what follows the last dot, if there is one *)
Fixpoint after_last_dot (s : str) : option str :=
  match s with
  | [] => None
  | c :: s' => match after_last_dot s' with
               | Some r => Some r
               | None => if (c =? 46)%N then Some s' else None
               end
  end.
Definition eq_ignore_ascii_case (a b : str) : bool := str_eqb (to_ascii_lowercase a) (to_ascii_lowercase b).
Definition local_dns_name (host : str) : bool :=
  eq_ignore_ascii_case host (u "localhost")
  || match after_last_dot host with
     | Some suffix => eq_ignore_ascii_case suffix (u "localhost") || eq_ignore_ascii_case suffix (u "local")
     | None => false
     end.

(** [str::contains] with a string *)
Fixpoint contains_text (s p : str) : bool :=
  starts_with s p || match s with [] => false | _ :: s' => contains_text s' p end.
Definition ends_with (s p : str) : bool := bool_decide (p `suffix_of` s).

(** The path that is kept: without the slashes at its end, and without one completion suffix. *)
Definition endpoint_path (path : str) : result CustomEndpointError str :=
  let path := trim_end is_slash path in
  let lowercase_path := to_ascii_lowercase path in
  if contains_text lowercase_path (u "http://") || contains_text lowercase_path (u "https://") then Err DirectHttps
  else if ends_with lowercase_path COMPLETION_SUFFIX
  then Ok (trim_end is_slash (take (length path - length COMPLETION_SUFFIX) path))
  else Ok path.

Definition normalize_endpoint `{UrlCrate} (value : str) : result CustomEndpointError str :=
  reject_if (str_empty value) EndpointRequired ;;
  parsed ← ok_or (parse_url value) DirectHttps;
  require (str_eqb (url_scheme parsed) (u "https")) DirectHttps ;;
  host ← ok_or (url_host parsed) DirectHttps;
  reject_if (negb (str_empty (url_username parsed)) || bool_decide (is_Some (url_password parsed))
             || bool_decide (is_Some (url_query parsed)) || bool_decide (is_Some (url_fragment parsed))) EmbeddedAuthority ;;
  reject_if (match host with
             | HostDomain name => local_dns_name name
             | HostIp address => negb (public_unicast address)
             end) LocalNetwork ;;
  path ← endpoint_path (url_path parsed);
  Ok (url_before_path parsed ++ path).

(** ** selection.rs *)

Record ProviderSelection : Type := MkProviderSelection {
  sl_draft : AgentSessionDraft;
  sl_provider_id : str;
  sl_start_requested : bool
}.

(** The file system (filesystem.rs) and the name-based identifiers of the crate [uuid]. *)
Inductive FilesystemFailure : Type := FilesystemTimeout | FilesystemFailed.
Class Filesystem : Type := {
  runtime_executable_identity : str -> str -> result FilesystemFailure str;
  canonical_workspace : str -> result FilesystemFailure (str * str);
  is_absolute_path : str -> bool
}.
Class UuidNames : Type := uuid_of_url : str -> str.

Definition unsupported_provider (provider_id : str) : ProviderSelectionError :=
  selection_error "unsupported_provider"
    (u "Provider " ++ (if str_empty provider_id then u "unknown" else provider_id) ++ u " is not available in the current catalog.").
Definition executable_validation_error (failure : FilesystemFailure) : ProviderSelectionError :=
  selection_error "catalog_inconsistent"
    (match failure with
     | FilesystemTimeout => u "Provider executable validation timed out."
     | FilesystemFailed => u "Provider executable authority could not be reopened."
     end).
Definition required_custom_model (requested : option str) : sel str :=
  match requested with
  | Some (c :: model) => Ok (c :: model)
  | _ => Err (selection_error "unsupported_model" (u "Custom API model ID is required."))
  end.

Context `{UrlCrate, Filesystem, UuidNames}.

(** The registration that agrees with what was discovered. *)
Definition agreeing_registration (provider : ProviderAvailability) : option ProviderRegistration :=
  registration ← provider_registration_by_id (av_id provider);
  if str_eqb (reg_provider_kind registration) (av_provider_kind provider)
     && str_eqb (reg_runtime_kind registration) (av_runtime_kind provider)
     && str_eqb NATIVE_CLI_BRIDGE (av_connection_kind provider)
     && Bool.eqb (custom_endpoint (reg_configuration_authority registration)) (av_custom_endpoint provider)
     && Bool.eqb (custom_model (reg_configuration_authority registration)) (av_custom_model provider)
  then Some registration else None.

Definition select_executable (registration : ProviderRegistration) (provider : ProviderAvailability) : sel str :=
  if reg_executable_required registration then
    require (is_absolute_path (av_executable provider))
      (selection_error "catalog_inconsistent" (u "Provider executable authority is not absolute.")) ;;
    identity ← map_err executable_validation_error (runtime_executable_identity (av_provider_kind provider) (av_executable provider));
    require (str_eqb identity (av_executable_identity provider))
      (selection_error "catalog_changed" (u "Provider executable identity changed; refresh discovery.")) ;;
    mret identity
  else
    require (str_empty (av_executable provider) && str_empty (av_executable_identity provider))
      (selection_error "catalog_inconsistent" (u "Provider executable authority is inconsistent.")) ;;
    mret [].

Definition select_endpoint (registration : ProviderRegistration) (requested : option str) : sel str :=
  if custom_endpoint (reg_configuration_authority registration) then
    map_err (fun e => selection_error "invalid_provider_endpoint" (endpoint_message e)) (normalize_endpoint (default [] requested))
  else
    reject_if (match requested with Some value => negb (str_empty value) | None => false end)
      (selection_error "unsupported_control" (u "This provider does not accept a custom endpoint.")) ;;
    mret [].

Definition select_workspace (required : bool) (workspace : str) : sel (str * str) :=
  if required then map_err (fun _ => invalid_workspace) (canonical_workspace workspace)
  else require (str_empty workspace) invalid_workspace ;; mret ([], []).

(** The identifier of the agent of a request. *)
Definition selected_agent_id (room_id principal_id request_id provider_id : str) : str :=
  let operation := room_id ++ NUL ++ principal_id ++ NUL ++ request_id ++ NUL ++ u "agent.create" in
  provider_id ++ u "-" ++ uuid_of_url (u "agentsassemble:" ++ sha256_hex operation).

(** [ProviderSelection::from_catalog] *)
Definition from_catalog (room_id principal_id request_id : str) (payload : value) (catalog : ProviderCatalog) :
    sel ProviderSelection :=
  input ← parse_selection payload;
  reject_if (negb (str_eqb (cat_status catalog) (u "ready")) || str_empty (cat_revision catalog))
    (selection_error "catalog_not_ready" (u "Provider catalog is not ready.")) ;;
  require (str_eqb (si_catalog_revision input) (cat_revision catalog))
    (selection_error "catalog_changed" (u "Provider catalog changed; refresh the selection before creating the session.")) ;;
  let provider_id := si_provider_id input in
  provider ← ok_or (List.find (fun p => str_eqb (av_id p) provider_id) (cat_providers catalog)) (unsupported_provider provider_id);
  reject_if (negb (av_startable provider) || negb (str_eqb (av_discovery_status provider) (u "ready")))
    (unsupported_provider provider_id) ;;
  registration ← ok_or (agreeing_registration provider) (unsupported_provider (av_id provider));
  executable_identity ← select_executable registration provider;
  model ← (if custom_model (reg_configuration_authority registration) then required_custom_model (si_model input)
           else selected_value provider (u "model") (si_model input));
  reasoning_effort ← selected_value provider (u "reasoning_effort") (si_reasoning_effort input);
  validate_model_relation provider model (u "reasoning_efforts") reasoning_effort ;;
  service_tier ← selected_value provider (u "service_tier") (si_service_tier input);
  validate_model_relation provider model (u "service_tiers") service_tier ;;
  validate_runtime_variant provider model reasoning_effort service_tier ;;
  variant ← selected_value provider (u "variant") (si_variant input);
  permission_mode ← selected_value provider (u "permission_mode") (si_permission_mode input);
  let execution_harness := default (u "builtin") (si_execution_harness input) in
  require (str_eqb execution_harness (u "builtin"))
    (selection_error "unsupported_control" (u "Alternate execution harnesses are not available in this runtime slice.")) ;;
  max_output_tokens ← selected_u32 provider (u "max_output_tokens") (si_max_output_tokens input);
  reject_if (match si_provider_session_id input with Some value => negb (str_empty value) | None => false end)
    (selection_error "unsupported_control" (u "This Agent Session option is not available in the current runtime slice.")) ;;
  let persona_card_id := default [] (si_persona_card_id input) in
  reject_if (negb (str_empty persona_card_id) && negb (contains [u "api"; u "local"] (av_catalog_group provider)))
    (selection_error "persona_provider_unsupported"
       (u "Bot cards and Risu modules are available only to API and Local Agent Sessions.")) ;;
  provider_endpoint ← select_endpoint registration (si_provider_endpoint input);
  '(workspace, workspace_identity) ←
    select_workspace (reg_workspace_required registration || str_eqb permission_mode (u "workspace_write")
                      || negb (str_eqb execution_harness (u "builtin"))) (si_workspace input);
  let profile_key :=
    runtime_profile_key_with_output
      [av_provider_kind provider; av_runtime_kind provider; av_executable provider; executable_identity; workspace; workspace_identity;
       provider_endpoint; model; reasoning_effort; service_tier; variant; execution_harness; permission_mode; persona_card_id;
       reg_transport registration] max_output_tokens in
  mret {| sl_draft :=
            {| dr_agent_id := selected_agent_id room_id principal_id request_id (av_id provider);
               dr_display_name := si_display_name input;
               dr_provider_kind := av_provider_kind provider;
               dr_runtime_kind := av_runtime_kind provider;
               dr_connection_kind := NATIVE_CLI_BRIDGE;
               dr_executable := av_executable provider;
               dr_executable_identity := executable_identity;
               dr_workspace := workspace;
               dr_workspace_identity := workspace_identity;
               dr_provider_endpoint := provider_endpoint;
               dr_model := model;
               dr_reasoning_effort := reasoning_effort;
               dr_service_tier := service_tier;
               dr_variant := variant;
               dr_execution_harness := execution_harness;
               dr_permission_mode := permission_mode;
               dr_max_output_tokens := max_output_tokens;
               dr_catalog_revision := si_catalog_revision input;
               dr_persona_card_id := persona_card_id;
               dr_runtime_profile_key := profile_key;
               dr_transport := reg_transport registration |};
          sl_provider_id := av_id provider;
          sl_start_requested := si_start_requested input |}.
End selection.

(** ** Facts *)

Section facts.
Context `{UnicodeGeneralCategory, Sha256, UrlCrate, Filesystem, UuidNames}.

(** What a control of a provider offers; a provider without the control offers the empty value. *)
Definition offers (provider : ProviderAvailability) (key value : str) : Prop :=
  match find_control provider key with
  | Some control => exists option, option ∈ ctl_options control /\ op_value option = value
  | None => value = []
  end.

Lemma selected_value_offered provider key requested selected :
  selected_value provider key requested = Ok selected -> offers provider key selected.
Proof.
  unfold selected_value, offers. destruct (find_control provider key) as [control|].
  - intros (t & Hs%require_Ok & [= <-])%bind_Ok. apply any_true in Hs as (option & Hin & E). exists option. split; [done|].
    unfold str_eqb in E. by apply bool_decide_eq_true in E.
  - by destruct requested as [[|]|]; intros [= <-].
Qed.

Lemma find_elem {A} (p : A -> bool) (l : list A) a : List.find p l = Some a -> a ∈ l /\ p a = true.
Proof. intros Hf. apply find_some in Hf as [Hin Hp]. split; [by apply list_elem_of_In|done]. Qed.

(** The bound of the output is an option of its control, read as a number; without an option, or with an empty one, there
    is none. *)
Definition offers_tokens (provider : ProviderAvailability) (tokens : N) : Prop :=
  exists option, offers provider (u "max_output_tokens") option /\
    (if str_empty option then tokens = 0%N else parse_unsigned u32_max option = Some tokens).
Lemma selected_u32_offered provider requested n :
  selected_u32 provider (u "max_output_tokens") requested = Ok n -> offers_tokens provider n.
Proof.
  unfold selected_u32. intros (selected & Hs%selected_value_offered & Hn)%bind_Ok. exists selected. split; [done|].
  destruct (str_empty selected); [by injection Hn as <-|]. by apply ok_or_Ok in Hn.
Qed.

(** What a selection says of its provider. *)
Record offered_selection (catalog : ProviderCatalog) (provider : ProviderAvailability) (draft : AgentSessionDraft) : Prop := {
  of_provider : provider ∈ cat_providers catalog /\ av_startable provider = true /\ av_discovery_status provider = u "ready";
  of_identity : dr_provider_kind draft = av_provider_kind provider /\ dr_runtime_kind draft = av_runtime_kind provider /\
    dr_executable draft = av_executable provider /\ dr_executable_identity draft = av_executable_identity provider;
  of_controls : offers provider (u "reasoning_effort") (dr_reasoning_effort draft) /\
    offers provider (u "service_tier") (dr_service_tier draft) /\ offers provider (u "variant") (dr_variant draft) /\
    offers provider (u "permission_mode") (dr_permission_mode draft);
  of_model : if av_custom_model provider then dr_model draft <> [] else offers provider (u "model") (dr_model draft);
  of_tokens : offers_tokens provider (dr_max_output_tokens draft);
  of_profile : dr_runtime_profile_key draft = runtime_profile_key_with_output
    [dr_provider_kind draft; dr_runtime_kind draft; dr_executable draft; dr_executable_identity draft; dr_workspace draft;
     dr_workspace_identity draft; dr_provider_endpoint draft; dr_model draft; dr_reasoning_effort draft; dr_service_tier draft;
     dr_variant draft; dr_execution_harness draft; dr_permission_mode draft; dr_persona_card_id draft; dr_transport draft]
    (dr_max_output_tokens draft)
}.

Lemma str_eqb_eq a b : str_eqb a b = true -> a = b.
Proof. apply bool_decide_eq_true. Qed.

Lemma required_model_some requested model : required_custom_model requested = Ok model -> model <> [].
Proof. destruct requested as [[|]|]; simpl; congruence. Qed.

Lemma agreeing_model provider registration :
  agreeing_registration provider = Some registration -> custom_model (reg_configuration_authority registration) = av_custom_model provider.
Proof.
  unfold agreeing_registration. destruct (provider_registration_by_id _) as [r|]; simpl; [|done]. case_match eqn:E; [|done].
  intros [= <-]. bool_to_prop. by apply Bool.eqb_prop.
Qed.

Lemma select_executable_identity registration provider identity :
  select_executable registration provider = Ok identity -> identity = av_executable_identity provider.
Proof.
  unfold select_executable. destruct (reg_executable_required registration); intros Hs; res_inv; [by apply str_eqb_eq|].
  bool_to_prop. by destruct (av_executable_identity provider).
Qed.

(** C34: what is selected for a new agent is what the catalog offers: a provider of the
    catalog that is ready and can be started, with its executable, options of its controls,
    the bound of its output included, a model its control offers (or, of a provider of
    custom models, any that is named), and the profile key of exactly that. *)
Theorem selection_is_offered (room_id principal_id request_id : str) (payload : value) (catalog : ProviderCatalog)
    (selection : ProviderSelection)
    (Hselected : from_catalog room_id principal_id request_id payload catalog = Ok selection) :
  exists provider, offered_selection catalog provider (sl_draft selection) /\
    dr_agent_id (sl_draft selection) = selected_agent_id room_id principal_id request_id (av_id provider).
Proof.
  unfold from_catalog in Hselected. cbv zeta in Hselected.
  apply bind_Ok in Hselected as (input & _ & Hs). apply bind_Ok in Hs as (? & _ & Hs).
  apply bind_Ok in Hs as (? & _ & Hs). apply bind_Ok in Hs as (provider & [Hin _]%ok_or_Ok%find_elem & Hs).
  apply bind_Ok in Hs as (? & Hready%reject_if_Ok & Hs). apply bind_Ok in Hs as (registration & Hreg%ok_or_Ok%agreeing_model & Hs).
  apply bind_Ok in Hs as (identity & Hid%select_executable_identity & Hs). apply bind_Ok in Hs as (model & Hmodel & Hs).
  apply bind_Ok in Hs as (effort & He%selected_value_offered & Hs). apply bind_Ok in Hs as (? & _ & Hs).
  apply bind_Ok in Hs as (tier & Ht%selected_value_offered & Hs). apply bind_Ok in Hs as (? & _ & Hs).
  apply bind_Ok in Hs as (? & _ & Hs). apply bind_Ok in Hs as (variant & Hv%selected_value_offered & Hs).
  apply bind_Ok in Hs as (mode & Hm%selected_value_offered & Hs). apply bind_Ok in Hs as (? & _ & Hs).
  apply bind_Ok in Hs as (tokens & Htok%selected_u32_offered & Hs). apply bind_Ok in Hs as (? & _ & Hs).
  apply bind_Ok in Hs as (? & _ & Hs). apply bind_Ok in Hs as (endpoint & _ & Hs).
  apply bind_Ok in Hs as ([workspace workspace_identity] & _ & Hs). injection Hs as <-.
  exists provider. split; [|done]. bool_to_prop. split; simpl; try done; [by split_and!; [| |apply str_eqb_eq]|].
  rewrite Hreg in Hmodel. destruct (av_custom_model provider); [by eapply required_model_some|by eapply selected_value_offered].
Qed.

(** *** The address of a custom endpoint *)

(** An address is used as it was normalized: a launch compares it with its own normal form (custom_api.rs:
    [completion_endpoint]). *)
Definition endpoint_is_launchable (base : str) : bool :=
  match normalize_endpoint base with Ok normalized => str_eqb normalized base | Err _ => false end.

(** The crate [url] reads back what it printed. An https address that it read begins with its scheme and host, and its
    path, in which every character is already written as the crate writes it, begins with a slash; the same address cut
    in its path before a slash, without a query and a fragment, has the path that is left, or [/] when none is. *)
Record reads_back (parsed : Url) : Prop := {
  rb_before : url_before_path parsed <> [];
  rb_path : exists rest, url_path parsed = 47%N :: rest;
  rb_again : forall path cut, url_path parsed = path ++ cut -> cut = [] \/ (exists rest, cut = 47%N :: rest) ->
    url_query parsed = None -> url_fragment parsed = None ->
    parse_url (url_before_path parsed ++ path) =
    Some (MkUrl (url_scheme parsed) (url_username parsed) (url_password parsed) (url_host parsed) (url_before_path parsed)
            (if str_empty path then [47%N] else path) None None)
}.

Lemma trim_start_idemp (p : char -> bool) l : trim_start p (trim_start p l) = trim_start p l.
Proof. induction l as [|a l IH]; simpl; [done|]. destruct (p a) eqn:E; [done|]. simpl. by rewrite E. Qed.
Lemma trim_end_idemp (p : char -> bool) l : trim_end p (trim_end p l) = trim_end p l.
Proof. unfold trim_end. by rewrite reverse_involutive, trim_start_idemp. Qed.
Lemma trimmed_prefix (p : char -> bool) l : trim_end p l `prefix_of` l.
Proof. destruct (trim_end_prefix p l) as (k & E & _). by exists k. Qed.

Lemma starts_with_app s p : starts_with s p = true <-> exists b, s = p ++ b.
Proof. unfold starts_with. by rewrite bool_decide_eq_true. Qed.
Lemma contains_text_spec s p : contains_text s p = true <-> exists a b, s = a ++ p ++ b.
Proof.
  induction s as [|c s IH]; simpl; rewrite orb_true_iff, starts_with_app.
  - split; [intros [(b & E)|]; [by exists [], b|done]|]. intros (a & b & E). left. exists b. by destruct a.
  - rewrite IH. split; [intros [(b & E)|(a & b & ->)]; [by exists [], b|by exists (c :: a), b]|].
    intros ([|a0 a] & b & E); [left; by exists b|right]. injection E as <- ->. by exists a, b.
Qed.
Lemma contains_text_prefix s s' p : s' `prefix_of` s -> contains_text s p = false -> contains_text s' p = false.
Proof.
  intros [k ->] Hf. apply not_true_iff_false. intros (a & b & ->)%contains_text_spec. apply not_true_iff_false in Hf. apply Hf.
  apply contains_text_spec. exists a, (b ++ k). by rewrite <- !app_assoc.
Qed.
Lemma lowercase_prefix s s' : s' `prefix_of` s -> to_ascii_lowercase s' `prefix_of` to_ascii_lowercase s.
Proof. intros [k ->]. exists (to_ascii_lowercase k). apply map_app. Qed.

(** The path that is kept: a prefix of the path, without slashes at its end. *)
Lemma endpoint_path_Ok path kept :
  endpoint_path path = Ok kept ->
  kept `prefix_of` path /\ trim_end is_slash kept = kept /\
  contains_text (to_ascii_lowercase kept) (u "http://") = false /\ contains_text (to_ascii_lowercase kept) (u "https://") = false.
Proof.
  unfold endpoint_path. cbv zeta. destruct (contains_text _ (u "http://")) eqn:E1; [done|].
  destruct (contains_text _ (u "https://")) eqn:E2; [done|].
  assert (forall kept, kept `prefix_of` trim_end is_slash path -> kept `prefix_of` path /\
    contains_text (to_ascii_lowercase kept) (u "http://") = false /\ contains_text (to_ascii_lowercase kept) (u "https://") = false) as Hgo.
  { intros k Hk. split; [etrans; [exact Hk|apply trimmed_prefix]|]. split; (eapply contains_text_prefix; [by apply lowercase_prefix|done]). }
  destruct (ends_with _ _); intros [= <-].
  - destruct (Hgo (trim_end is_slash (take (length (trim_end is_slash path) - length COMPLETION_SUFFIX) (trim_end is_slash path)))) as (? & ? & ?);
      [|by rewrite trim_end_idemp]. etrans; [apply trimmed_prefix|apply prefix_take].
  - destruct (Hgo (trim_end is_slash path)) as (? & ? & ?); [done|]. by rewrite trim_end_idemp.
Qed.

(** It is the path cut before a slash. *)
Definition slash_first (l : str) : Prop := l = [] \/ exists rest, l = 47%N :: rest.
Lemma slash_first_app a b : slash_first a -> slash_first b -> slash_first (a ++ b).
Proof. intros [-> |[ra ->]] Hb; [done|]. right. by exists (ra ++ b). Qed.
Lemma trim_slashes_cut l : exists cut, l = trim_end is_slash l ++ cut /\ slash_first cut.
Proof.
  destruct (trim_end_prefix is_slash l) as (k & E & Hk). exists k. split; [done|]. destruct k as [|c k]; [by left|right].
  apply Forall_cons in Hk as [Hc _]. apply N.eqb_eq in Hc as ->. by exists k.
Qed.
Lemma suffix_cut l : ends_with (to_ascii_lowercase l) COMPLETION_SUFFIX = true ->
  slash_first (drop (length l - length COMPLETION_SUFFIX) l).
Proof.
  unfold ends_with. intros [a Ha]%bool_decide_eq_true. assert (Hlen : length l = (length a + length COMPLETION_SUFFIX)%nat).
  { apply (f_equal length) in Ha. unfold to_ascii_lowercase in Ha. by rewrite length_map, length_app in Ha. }
  rewrite Hlen, Nat.add_sub. apply (f_equal (drop (length a))) in Ha. rewrite drop_app_length in Ha.
  unfold to_ascii_lowercase in Ha. rewrite skipn_map in Ha. destruct (drop (length a) l) as [|c rest]; [by left|right]. exists rest.
  f_equal. simpl in Ha. injection Ha as Hc _. revert Hc. unfold ascii_lower, is_ascii_upper. case_match; [|done]. bool_to_prop. lia.
Qed.
Lemma endpoint_path_cut path kept : endpoint_path path = Ok kept -> exists cut, path = kept ++ cut /\ slash_first cut.
Proof.
  unfold endpoint_path. cbv zeta. destruct (_ || _); [done|]. destruct (trim_slashes_cut path) as (k1 & E1 & F1).
  set (p := trim_end is_slash path) in *. destruct (ends_with _ _) eqn:Hs; intros [= <-]; [|by exists k1].
  apply suffix_cut in Hs. set (n := (length p - length COMPLETION_SUFFIX)%nat) in *.
  destruct (trim_slashes_cut (take n p)) as (k2 & E2 & F2). exists (k2 ++ drop n p ++ k1). split.
  - rewrite E1 at 1. rewrite <- (take_drop n p) at 1. rewrite E2 at 1. by rewrite <- !app_assoc.
  - apply slash_first_app; [done|]. by apply slash_first_app.
Qed.

(** Normalizing again keeps a path that is kept, unless it ends with the suffix once more. *)
Lemma endpoint_path_again path kept :
  endpoint_path path = Ok kept -> (exists rest, path = 47%N :: rest) ->
  (kept = [] \/ exists rest, kept = 47%N :: rest) /\
  exists again, endpoint_path (if str_empty kept then [47%N] else kept) = Ok again /\
    (again = kept <-> ends_with (to_ascii_lowercase kept) COMPLETION_SUFFIX = false).
Proof.
  intros Hk [rest ->]. destruct (endpoint_path_Ok _ _ Hk) as ([k Hpre] & Htrim & H1' & H2'). split.
  { destruct kept as [|c kept]; [by left|right]. injection Hpre as <- _. by exists kept. }
  assert (trim_end is_slash (if str_empty kept then [47%N] else kept) = kept) as E by (by destruct kept).
  unfold endpoint_path. rewrite E, H1', H2'. cbn [orb]. destruct (ends_with _ _) eqn:Hs.
  - eexists. split; [done|]. split; [|done]. intros Heq. exfalso.
    assert (length COMPLETION_SUFFIX <= length kept)%nat as Hlen.
    { unfold ends_with in Hs. apply bool_decide_eq_true, suffix_length in Hs. unfold to_ascii_lowercase in Hs. by rewrite length_map in Hs. }
    apply (f_equal length) in Heq.
    pose proof (prefix_length _ _ (trimmed_prefix is_slash (take (length kept - length COMPLETION_SUFFIX) kept))) as Hle.
    rewrite Heq, length_take in Hle. unfold COMPLETION_SUFFIX in Hle, Hlen. simpl in Hle, Hlen. lia.
  - by exists kept.
Qed.

(** C35: an accepted address of a custom endpoint passes the address check of a launch
    exactly when the path that is kept does not end with the completion suffix again: only
    one suffix is removed, and a launch wants an address whose normal form is itself. Of the
    url crate it is used that an address it printed, with a tail of its path cut off, is
    read back with that path and the same other parts. *)
Theorem custom_endpoint_launches_iff (value base : str) (parsed : Url)
    (Hparsed : parse_url value = Some parsed) (Hback : reads_back parsed) (Haccepted : normalize_endpoint value = Ok base) :
  exists path, endpoint_path (url_path parsed) = Ok path /\ base = url_before_path parsed ++ path /\
    (endpoint_is_launchable base = true <-> ends_with (to_ascii_lowercase path) COMPLETION_SUFFIX = false).
Proof.
  unfold normalize_endpoint in Haccepted. apply bind_Ok in Haccepted as (? & _ & Hn). rewrite Hparsed in Hn. simpl in Hn.
  apply bind_Ok in Hn as (t1 & Hscheme & Hn). apply bind_Ok in Hn as (host & Hhost & Hn).
  apply bind_Ok in Hn as (t2 & Hauth & Hn). apply bind_Ok in Hn as (t3 & Hlocal & Hn).
  apply bind_Ok in Hn as (path & Hpath & [= <-]). exists path. split; [done|]. split; [done|].
  destruct Hback as [Hbefore Hroot Hagain]. destruct (endpoint_path_again _ _ Hpath Hroot) as (_ & again & Hagain' & Hiff).
  destruct (endpoint_path_cut _ _ Hpath) as (cut & Hcut & Hfirst). apply reject_if_Ok in Hauth as Hplain. bool_to_prop.
  assert (url_query parsed = None /\ url_fragment parsed = None) as [Hq Hf].
  { split; apply eq_None_not_Some; by intros ?. }
  unfold endpoint_is_launchable, normalize_endpoint. rewrite (Hagain path cut Hcut Hfirst Hq Hf).
  assert (str_empty (url_before_path parsed ++ path) = false) as -> by (by destruct (url_before_path parsed)).
  simpl. rewrite Hscheme. simpl. rewrite Hhost. simpl. rewrite Hq, Hf in Hauth. change (bool_decide (is_Some (None : option str))) with false in *.
  rewrite Hauth. simpl. rewrite Hlocal. simpl. rewrite Hagain'. simpl.
  rewrite <- Hiff. unfold str_eqb. rewrite bool_decide_eq_true. split; [by intros ?%app_inv_head|by intros ->].
Qed.
End facts.

(** ** Concrete inputs *)

Definition demo_site : str := u "https://api.example.com".
Definition demo_url (path : str) : Url :=
  MkUrl (u "https") [] None (Some (HostDomain (u "api.example.com"))) demo_site path None None.
(** Reads the addresses of one site. *)
Definition demo_urls : UrlCrate := {|
  parse_url value :=
    match strip_prefix value demo_site with
    | Some [] => Some (demo_url [47%N])
    | Some (c :: rest) => if is_slash c then Some (demo_url (c :: rest)) else None
    | None => None
    end;
  network_is_global _ := true |}.
Definition no_filesystem : Filesystem := {|
  runtime_executable_identity _ _ := Err FilesystemFailed; canonical_workspace _ := Err FilesystemFailed; is_absolute_path _ := false |}.
Definition plain_names : UuidNames := fun name => name.
Definition plain_digest : Sha256 := fun s => s.
#[local] Existing Instances ascii_general_category demo_urls no_filesystem plain_names plain_digest.

Definition doubled_address : str := u "https://api.example.com/v1/chat/completions/Chat/Completions".
Definition accepted_address : str := u "https://api.example.com/v1/chat/completions".

Lemma demo_reads_back path : (exists rest, path = 47%N :: rest) -> reads_back (demo_url path).
Proof.
  intros Hpath. split; [done|exact Hpath|]. intros p cut Hp _ _ _. simpl in Hp. subst path.
  assert (parse_url (demo_site ++ p) = match p with [] => Some (demo_url [47%N]) | c :: _ => if is_slash c then Some (demo_url p) else None end) as E.
  { unfold parse_url, demo_urls, strip_prefix. rewrite take_app_length, drop_app_length, bool_decide_eq_true_2 by done. by destruct p. }
  unfold url_before_path, demo_url at 1. rewrite E. destruct Hpath as [rest Hrest]. destruct p; [done|]. by injection Hrest as -> _.
Qed.

(** It is accepted, and can never be launched. *)
Example doubled_address_is_stuck : normalize_endpoint doubled_address = Ok accepted_address /\ endpoint_is_launchable accepted_address = false.
Proof. split; by vm_compute. Qed.

Lemma custom_endpoint_launches_iff_witness : exists path,
  endpoint_path (u "/v1/chat/completions/Chat/Completions") = Ok path /\ accepted_address = demo_site ++ path /\
  (endpoint_is_launchable accepted_address = true <-> ends_with (to_ascii_lowercase path) COMPLETION_SUFFIX = false).
Proof.
  apply (custom_endpoint_launches_iff doubled_address accepted_address (demo_url (u "/v1/chat/completions/Chat/Completions")));
    [by vm_compute|apply demo_reads_back; by eexists|by vm_compute].
Defined.

Definition demo_provider : ProviderAvailability :=
  {| av_id := u "deepseek"; av_provider_kind := u "deepseek_api"; av_runtime_kind := u "api"; av_catalog_group := u "api";
     av_connection_kind := NATIVE_CLI_BRIDGE; av_executable := []; av_executable_identity := []; av_startable := true;
     av_discovery_status := u "ready"; av_custom_endpoint := false; av_custom_model := false;
     av_controls := [MkControl (u "model") [MkControlOption (u "chat") []; MkControlOption (u "reasoner") []] (u "chat")] |}.
Definition demo_catalog : ProviderCatalog := MkCatalog (u "ready") (u "revision-1") [demo_provider].
Definition demo_creation : value :=
  VObject [(u "catalog_revision", VString (u "revision-1")); (u "provider", VString (u "deepseek"));
           (u "model", VString (u "reasoner")); (u "model_id", VString (u "reasoner")); (u "display_name", VString (u "Ada"));
           (u "workspace", VString []); (u "start_now", VBool true)].
Definition demo_selection : ProviderSelection :=
  match from_catalog (u "room") (u "ann") (u "c1") demo_creation demo_catalog with
  | Ok selection => selection
  | Err _ => MkProviderSelection (MkAgentSessionDraft [] [] [] [] [] [] [] [] [] [] [] [] [] [] [] [] 0 [] [] [] []) [] false
  end.
Lemma demo_selection_Ok : from_catalog (u "room") (u "ann") (u "c1") demo_creation demo_catalog = Ok demo_selection.
Proof. by vm_compute. Qed.

Example aliases_must_agree :
  creation_start_requested (VObject [(u "start", VBool true); (u "start_now", VBool false)]) =
  Err (bad_create (u "start aliases must have the same value.")).
Proof. by vm_compute. Qed.

Lemma selection_is_offered_witness :
  exists provider, offered_selection demo_catalog provider (sl_draft demo_selection) /\
    dr_agent_id (sl_draft demo_selection) = selected_agent_id (u "room") (u "ann") (u "c1") (av_id provider).
Proof. exact (selection_is_offered (u "room") (u "ann") (u "c1") demo_creation demo_catalog demo_selection demo_selection_Ok). Defined.
