(* ===== verification/Server.v ===== *)
(** * Programs of the server

    The server (src/crates/agentsassemble-server) runs many tasks at once. A task is a
    sequence of transactions of the store and of calls to what is outside it: the
    provider adapter (src/crates/agentsassemble-provider), the room actors, the clock of
    the process. This file gives such programs a type, says what a server full of them
    does when it can be stopped at any point, and how to reason about one of them while
    the others run. *)

From Stdlib Require Import String.
From stdpp Require Import gmap.
From S2P Require Import Prelude Text Diagnostic Json Bytes Model Command Vote Projection Settings Store Budget Turn Routing RoomStore.
From S2P Require Import Authority Requests Execution Observation VoteStore Scheduler Completion Selection.

(** ** Values of the provider crate (runtime.rs, runtime_exact_turn.rs, driver.rs, room_portal.rs) *)

Record ProviderRuntimeStarted : Type := MkProviderStarted {
  ps_runtime_handle_id : str;
  ps_runtime_owner_id : str;
  ps_runtime_lease_token : str;
  ps_provider_session_id : str;
  ps_runtime_reused : bool;
  ps_provider_session_reused : bool;
  ps_provider_session_active : bool
}.
Record ProviderStartReservation : Type := MkStartReservation {
  sv_runtime_handle_id : str;
  sv_runtime_owner_id : str;
  sv_runtime_lease_token : str
}.
Record ProviderRuntimeGone : Type := MkRuntimeGone {
  rg_room_id : str;
  rg_session_id : str;
  rg_runtime_handle_id : str;
  rg_runtime_owner_id : str;
  rg_runtime_lease_token : str
}.
Record ProviderResidentRuntime : Type := MkProviderResident {
  pq_runtime_handle_id : str;
  pq_runtime_owner_id : str;
  pq_runtime_lease_token : str;
  pq_runtime_profile_key : str
}.
Inductive ProviderRuntimeObservation : Type :=
| ProviderAdopted (handle_id previous_owner_id new_owner_id runtime_profile_key : str)
| ProviderGone
| ProviderLeaseUncertain (handle_id owner_id reason_code : str)
| ProviderAmbiguous (reason_code : str).
Record ProviderAdapterError : Type := MkAdapterError {
  ae_code : str;
  ae_message : str;
  ae_effect_uncertain : bool;
  ae_runtime_handle_id : str;
  ae_runtime_owner_id : str;
  ae_runtime_lease_token : str;
  ae_runtime_stopped : bool
}.

Record ProviderExactTurnAuthority : Type := MkExactTurn {
  xt_room_id : str;
  xt_session_id : str;
  xt_execution_id : str;
  xt_turn_id : str;
  xt_turn_generation : N;
  xt_runtime_handle_id : str;
  xt_runtime_owner_id : str;
  xt_runtime_lease_token : str
}.
Inductive ProviderTurnInterruptDisposition : Type := DispositionNotStarted | DispositionStarted | DispositionQuiesced.
Inductive ProviderTurnQuiescence : Type := RuntimeRetained | RuntimeGone.
Inductive ProviderTurnOutcome : Type :=
| OutcomeMessage (content target_agent_id : str)
| OutcomeDeclined (reason_code : str)
| OutcomeVote (command : VoteCommand).
Record ProviderTurnCompleted : Type := MkProviderCompleted {
  pc_turn_id : str;
  pc_provider_turn_id : str;
  pc_provider_session_id : option str;
  pc_outcome : ProviderTurnOutcome
}.

(** What a turn gives to its provider. The ingresses of a request are handles to the actors of its room: whether the
    attachments can be read is kept of them. *)
Record ProviderRoomObservation : Type := MkRoomObservation {
  po_session_id : str;
  po_input_up_to_seq : Z;
  po_view : str;
  po_attachment_ids : list str;
  po_attachment_ingress : bool;
  po_allowed_agent_ids : list str;
  po_tabletop_tools : bool
}.
Record ProviderTurnRequest : Type := MkProviderTurnRequest {
  tq_turn_id : str;
  tq_turn_generation : N;
  tq_execution_id : str;
  tq_input : str;
  tq_room_observation : option ProviderRoomObservation
}.
Record ProviderPreparedTurn : Type := MkPreparedTurn {
  pp_room_id : str;
  pp_session_id : str;
  pp_execution_id : str;
  pp_turn_id : str;
  pp_turn_generation : N;
  pp_runtime_handle_id : str;
  pp_runtime_owner_id : str;
  pp_runtime_lease_token : str;
  pp_preparation_id : str
}.

(** event_publication.rs *)
Inductive PublicationAttempt : Type := Drained | PublicationRetry.

(** ** What is outside the store

    A call, indexed by what it returns. Its answer is not determined here: a program must
    be right for every answer. [ObserveWithin] is an observation under a timeout, and
    [ObserveUnordered] several of them at once, with the place of the session observed, in
    the order in which they end. [Panics] asks whether the task panics at this point. *)

Inductive Outside : Type -> Type :=
| ReserveStart (session : DurableAgentSession) : Outside (result ProviderAdapterError ProviderStartReservation)
| CancelStartReservation (room_id session_id : str) (reservation : ProviderStartReservation) : Outside unit
| StartReserved (session : DurableAgentSession) : Outside (result ProviderAdapterError ProviderRuntimeStarted)
| StopProvider (room_id session_id handle_id owner_id lease_token : str) : Outside (result ProviderAdapterError unit)
| ReleaseConfirmedStop (room_id session_id handle_id owner_id lease_token : str) : Outside unit
| ReleaseCheckpointedStartAbsence (session : DurableAgentSession) : Outside unit
| ProveResidentRuntime (session : DurableAgentSession) : Outside (result ProviderAdapterError ProviderResidentRuntime)
| Observe (session : DurableAgentSession) : Outside ProviderRuntimeObservation
| ObserveWithin (session : DurableAgentSession) : Outside (option ProviderRuntimeObservation)
| ObserveUnordered (sessions : list DurableAgentSession) : Outside (list (nat * ProviderRuntimeObservation))
| OwnsExactTurn (authority : ProviderExactTurnAuthority) : Outside bool
| RetainedTurnResult (authority : ProviderExactTurnAuthority) :
    Outside (option (result ProviderAdapterError ProviderTurnCompleted))
| RetainedNotStartedProof (authority : ProviderExactTurnAuthority) : Outside bool
| RequireRetainedInterrupt (session : DurableAgentSession) (durable_turn_is_assigned : bool) : Outside (result ProviderAdapterError unit)
| BeginExactTurn (authority : ProviderExactTurnAuthority) : Outside (result ProviderAdapterError ProviderTurnInterruptDisposition)
| RequestInterrupt (authority : ProviderExactTurnAuthority) : Outside unit
| WaitQuiesced (authority : ProviderExactTurnAuthority) : Outside (result ProviderAdapterError ProviderTurnQuiescence)
| ReleaseTerminalTurn (authority : ProviderExactTurnAuthority) : Outside unit
| PrepareTurn (session : DurableAgentSession) (request : ProviderTurnRequest) : Outside (result ProviderAdapterError ProviderPreparedTurn)
| SendPreparedTurn (prepared : ProviderPreparedTurn) (session : DurableAgentSession) (request : ProviderTurnRequest) :
    Outside (result ProviderAdapterError ProviderTurnCompleted)
| RetainUnstartedTurn (prepared : ProviderPreparedTurn) : Outside unit
| ValidateCreation (principal : AuthenticatedPrincipal) (request_id : str) (payload : value) :
    Outside (result ProviderSelectionError ProviderSelection)
| CheckDraft (draft : AgentSessionDraft) : Outside (tx unit)
| DrainRoomPublications (room_id : str) : Outside (tx unit)
| PublishRoomEvents (room_id : str) : Outside PublicationAttempt
| SpawnProviderTurn (assignment : AgentTurnAssignment) : Outside unit
| NotifyRoomPublication (room_id : str) : Outside unit
| NotifyCommittedEvents (events : list RoomEvent) : Outside unit
| ResumeAssignedTurns (room_id : str) (assignments : list AgentTurnAssignment) : Outside (tx unit)
| ClaimLifecycleCommand (room_id principal_id request_id action : str) : Outside bool
| Cancelled : Outside bool
| Panics : Outside bool
| FreshUuid : Outside str.

(** ** Programs *)

Inductive prog (A : Type) : Type :=
| Ret (a : A)
| Transact {B : Type} (t : instant -> rtx B) (k : tx B -> prog A)
| Call {B : Type} (c : Outside B) (k : B -> prog A).
Arguments Ret {A} a.
Arguments Transact {A B} t k.
Arguments Call {A B} c k.

Fixpoint prog_bind {A B} (p : prog A) (f : A -> prog B) : prog B :=
  match p with
  | Ret a => f a
  | Transact t k => Transact t (fun r => prog_bind (k r) f)
  | Call c k => Call c (fun r => prog_bind (k r) f)
  end.

Declare Scope prog_scope.
Delimit Scope prog_scope with prog.
Notation "x <- p ; q" := (prog_bind p (fun x => q)) (at level 20, p at level 100, q at level 200, right associativity) : prog_scope.
Notation "p ;; q" := (prog_bind p (fun _ => q)) : prog_scope.

(** A transaction that may write, a read, and a call. A transaction reads the clock when it runs. *)
Definition commits {B} (t : instant -> rtx B) : prog (tx B) := Transact t Ret.
Definition looks {B} (f : RoomStore -> tx B) : prog (tx B) := Transact (fun _ => reads f) Ret.
Definition outside {B} (c : Outside B) : prog B := Call c Ret.

(** [?] on the result of a step. *)
Definition try_prog {E A B} (r : result E A) (k : A -> prog (result E B)) : prog (result E B) :=
  match r with Ok a => k a | Err e => Ret (Err e) end.
Notation "x <-? p ; q" := (prog_bind p (fun r => try_prog r (fun x => q)))
  (at level 20, p at level 100, q at level 200, right associativity) : prog_scope.

(** A loop over a list, whose first error ends it. *)
Fixpoint each {E A} (l : list A) (f : A -> prog (result E unit)) : prog (result E unit) :=
  match l with
  | [] => Ret (Ok tt)
  | a :: l => prog_bind (f a) (fun r => try_prog r (fun _ => each l f))
  end.

(** ** Protocols

    A rule of the store that the programs keep together: an invariant, the changes they
    make to the store, the calls that may only follow a transaction that grants them, and
    what must hold of the store when a call is made. *)

Class Protocol : Type := {
  token : Type;
  token_eq_dec :: EqDecision token;
  protocol_ok : RoomStore -> Prop;
  protocol_step : RoomStore -> RoomStore -> Prop;
  needs : forall {B}, Outside B -> option token;
  grants : token -> RoomStore -> RoomStore -> Prop;
  requires : forall {B}, Outside B -> RoomStore -> Prop;
  protocol_step_same : forall st, protocol_ok st -> protocol_step st st;
  protocol_step_ok : forall st st', protocol_step st st' -> protocol_ok st -> protocol_ok st'
}.

Section protocol.
Context `{Protocol}.

(** The store after the other tasks took their steps. *)
Record later (st st' : RoomStore) : Prop := MkLater {
  lt_before : protocol_ok st;
  lt_steps : rtc protocol_step st st';
  lt_after : protocol_ok st'
}.

Definition granted (permit : option token) (st st' : RoomStore) : Prop :=
  match permit with Some x => grants x st st' | None => True end.

(** A call that needs a grant uses it up. *)
Definition left_of {B} (c : Outside B) (permit : option token) : option token := match needs c with Some _ => None | None => permit end.

(** [wp Q permit p st]: from the store [st], while the other tasks take their steps, the program [p] takes steps of the
    protocol, makes a call that needs a grant only after its last transaction gave it and it was not used, and a call at all
    only when what it requires holds, and ends in a store of which [Q] holds. A transaction can fail without being run, and its answer can be lost when it was. *)
Fixpoint wp {A} (Q : A -> RoomStore -> Prop) (permit : option token) (p : prog A) (st : RoomStore) : Prop :=
  forall st1, later st st1 ->
  match p with
  | Ret a => Q a st1
  | Transact t k => wp Q None (k (Err Database)) st1 /\ forall now,
      match t now st1 with
      | Ok (b, st2) => protocol_step st1 st2 /\ wp Q None (k (Err Database)) st2 /\
          exists permit', granted permit' st1 st2 /\ wp Q permit' (k (Ok b)) st2
      | Err e => wp Q None (k (Err e)) st1
      end
  | Call c k => (forall x, needs c = Some x -> permit = Some x) /\ requires c st1 /\ forall b, wp Q (left_of c permit) (k b) st1
  end.

Lemma later_trans a b c : later a b -> later b c -> later a c.
Proof. intros [Ha Hab _] [_ Hbc Hc]. split; [done|by etrans|done]. Qed.
Lemma later_refl st : protocol_ok st -> later st st.
Proof. by split. Qed.
Lemma later_step st st' : protocol_ok st -> protocol_step st st' -> later st st'.
Proof. intros Hok Hs. split; [done|by apply rtc_once|by eapply protocol_step_ok]. Qed.

Lemma wp_later {A} (Q : A -> RoomStore -> Prop) permit p st st' : later st st' -> wp Q permit p st -> wp Q permit p st'.
Proof. intros Hl Hp. destruct p; simpl in *; intros st1 Hl1; by apply Hp, (later_trans _ st'). Qed.

Lemma wp_mono {A} (P Q : A -> RoomStore -> Prop) permit p st :
  (forall a st', protocol_ok st' -> P a st' -> Q a st') -> wp P permit p st -> wp Q permit p st.
Proof.
  intros HPQ. revert permit st. induction p as [a|B t k IH|B c k IH]; simpl; intros permit st Hp st1 Hl; specialize (Hp st1 Hl).
  - apply HPQ; [apply Hl|done].
  - destruct Hp as [Hd Hp]. split; [by apply IH|]. intros now. specialize (Hp now). destruct (t now st1) as [[b st2]|e]; [|by apply IH].
    destruct Hp as (Hs & He & permit' & Hg & Hk). split_and!; [done|by apply IH|]. exists permit'. split; [done|by apply IH].
  - destruct Hp as (Hn & Hreq & Hp). split; [done|]. split; [done|]. intros b. by apply IH.
Qed.

(** A permit may be lost. *)
Lemma wp_weaken {A} (Q : A -> RoomStore -> Prop) permit p st : wp Q None p st -> wp Q permit p st.
Proof.
  revert permit st. induction p as [| |B c k IH]; simpl; [done..|]. intros permit st Hp st1 Hl. destruct (Hp st1 Hl) as (Hn & Hreq & Hb).
  split; [|split; [done|]]; [intros x Hx; by apply Hn in Hx|]. intros b. specialize (Hb b). unfold left_of in *.
  destruct (needs c); [done|by apply IH].
Qed.

Lemma wp_ret {A} (Q : A -> RoomStore -> Prop) permit a st :
  (forall st', later st st' -> Q a st') -> wp Q permit (Ret a) st.
Proof. done. Qed.

Lemma wp_bind {A B} (Q : B -> RoomStore -> Prop) permit (p : prog A) (f : A -> prog B) st :
  wp (fun a st' => wp Q None (f a) st') permit p st -> wp Q permit (prog_bind p f) st.
Proof.
  revert permit st. induction p as [a|C t k IH|C c k IH]; simpl; intros permit st Hp.
  - apply wp_weaken. destruct (f a) as [b|D t k|D c k]; simpl in *; intros st1 Hl;
      exact (Hp st1 Hl st1 (later_refl _ (lt_after _ _ Hl))).
  - intros st1 Hl. destruct (Hp st1 Hl) as [Hd Hr]. split; [by apply IH|]. intros now. specialize (Hr now).
    destruct (t now st1) as [[b st2]|e]; [|by apply IH].
    destruct Hr as (Hs & He & permit' & Hg & Hk). split_and!; [done|by apply IH|]. exists permit'. split; [done|by apply IH].
  - intros st1 Hl. destruct (Hp st1 Hl) as (Hn & Hreq & Hr). split; [done|]. split; [done|]. intros b. by apply IH.
Qed.

(** A transaction, and what is known of each answer. *)
Lemma wp_transact {A B} (Q : A -> RoomStore -> Prop) permit (t : instant -> rtx B) (k : tx B -> prog A) st :
  (forall now st1 b st2, later st st1 -> t now st1 = Ok (b, st2) ->
    protocol_step st1 st2 /\ exists permit', granted permit' st1 st2 /\ wp Q permit' (k (Ok b)) st2) ->
  (forall e st1, later st st1 -> e = Database \/ (exists now, t now st1 = Err e) -> wp Q None (k (Err e)) st1) ->
  wp Q permit (Transact t k) st.
Proof.
  intros Hok Herr. simpl. intros st1 Hl. split; [apply Herr; [done|by left]|]. intros now.
  destruct (t now st1) as [[b st2]|e] eqn:Ht; [|apply Herr; [done|right; by exists now]].
  destruct (Hok _ _ _ _ Hl Ht) as [Hs Hk]. split_and!; [done| |done]. apply Herr; [|by left].
  eapply later_trans; [exact Hl|]. apply later_step; [apply Hl|done].
Qed.

Lemma wp_call {A B} (Q : A -> RoomStore -> Prop) permit (c : Outside B) (k : B -> prog A) st :
  needs c = None \/ needs c = permit -> (forall st1, later st st1 -> requires c st1) ->
  (forall b st1, later st st1 -> wp Q None (k b) st1) -> wp Q permit (Call c k) st.
Proof.
  intros Hn Hreq Hk. simpl. intros st1 Hl. split; [|split; [by apply Hreq|intros b; by apply wp_weaken, Hk]].
  intros x Hx. destruct Hn as [E|E]; congruence.
Qed.

(** A program whose task can panic before each of its steps, and what is done then. *)
Fixpoint catching {A} (p handler : prog A) : prog A :=
  match p with
  | Ret a => Ret a
  | Transact t k => Call Panics (fun panics => if panics : bool then handler else Transact t (fun r => catching (k r) handler))
  | Call c k => Call Panics (fun panics => if panics : bool then handler else Call c (fun r => catching (k r) handler))
  end.

(** A property that every later store has, which a program keeps. *)
Definition stable (P : RoomStore -> Prop) : Prop := forall st st', later st st' -> P st -> P st'.

Lemma wp_frame {A} (Q : A -> RoomStore -> Prop) (P : RoomStore -> Prop) permit p st :
  stable P -> P st -> wp Q permit p st -> wp (fun a st' => Q a st' /\ P st') permit p st.
Proof.
  intros HP. revert permit st. induction p as [a|B t k IH|B c k IH]; simpl; intros permit st H0 Hp st1 Hl; specialize (Hp st1 Hl).
  - split; [done|by eapply HP].
  - pose proof (HP _ _ Hl H0) as H1. destruct Hp as [Hd Hp]. split; [by apply IH|]. intros now. specialize (Hp now).
    destruct (t now st1) as [[b st2]|e]; [|by apply IH]. destruct Hp as (Hs & He & permit' & Hg & Hk).
    pose proof (HP _ _ (later_step _ _ (lt_after _ _ Hl) Hs) H1) as H2.
    split_and!; [done|by apply IH|]. exists permit'. split; [done|by apply IH].
  - destruct Hp as (Hn & Hreq & Hp). split; [done|]. split; [done|]. intros b. apply IH; [by eapply HP|done].
Qed.
(** *** Programs that keep the protocol *)

(** A transaction of the protocol. *)
Definition transaction {B} (t : instant -> rtx B) : Prop :=
  forall now st b st', protocol_ok st -> t now st = Ok (b, st') -> protocol_step st st'.
(** A call that may be made at any time. *)
Definition free {B} (c : Outside B) : Prop := needs c = None /\ forall st, requires c st.
Definition safe {A} (p : prog A) : Prop := forall st, wp (fun _ _ => True) None p st.

Lemma wp_commits {A B} (Q : A -> RoomStore -> Prop) permit (t : instant -> rtx B) k st :
  transaction t -> (forall now st1 b st2, later st st1 -> t now st1 = Ok (b, st2) -> wp Q None (k (Ok b)) st2) ->
  (forall e st1, later st st1 -> wp Q None (k (Err e)) st1) -> wp Q permit (prog_bind (commits t) k) st.
Proof.
  intros Ht Hok Herr. apply wp_transact; [|by eauto]. intros now st1 b st2 Hl Hr.
  split; [eapply Ht; [apply Hl|exact Hr]|]. exists None. split; [done|by eapply Hok].
Qed.
Lemma wp_looks {A B} (Q : A -> RoomStore -> Prop) permit (f : RoomStore -> tx B) k st :
  (forall b st1, later st st1 -> f st1 = Ok b -> wp Q None (k (Ok b)) st1) ->
  (forall e st1, later st st1 -> wp Q None (k (Err e)) st1) -> wp Q permit (prog_bind (looks f) k) st.
Proof.
  intros Hok Herr. apply wp_transact; [|by eauto]. intros now st1 b st2 Hl [Hf <-]%reads_Ok.
  split; [apply protocol_step_same, Hl|]. exists None. split; [done|by apply Hok].
Qed.
Lemma wp_outside {A B} (Q : A -> RoomStore -> Prop) permit (c : Outside B) k st :
  free c -> (forall b st1, later st st1 -> wp Q None (k b) st1) -> wp Q permit (prog_bind (outside c) k) st.
Proof. intros [Hn Hreq] Hk. apply wp_call; [by left|by intros; apply Hreq|done]. Qed.

Lemma wp_catching {A} (Q : A -> RoomStore -> Prop) permit (p handler : prog A) st :
  free Panics -> (forall st', later st st' -> wp Q None handler st') -> wp Q permit p st -> wp Q permit (catching p handler) st.
Proof.
  intros [Hn Hreq] Hh. revert permit st Hh.
  assert (Hask : forall permit (q : prog A) st, (forall st', later st st' -> wp Q None handler st') -> wp Q permit q st ->
    wp Q permit (Call Panics (fun panics => if panics : bool then handler else q)) st).
  { intros permit q st Hh Hq st1 Hl. split; [intros x Hx; congruence|]. split; [apply Hreq|]. unfold left_of. rewrite Hn.
    intros []; [by apply wp_weaken, Hh|by eapply wp_later]. }
  induction p as [a|B t k IH|B c k IH]; intros permit st Hh Hp; [done|apply Hask..]; try done; simpl in *; intros st1 Hl;
    specialize (Hp st1 Hl); (assert (Hh1 : forall st', later st1 st' -> wp Q None handler st') by (intros st' Hl'; apply Hh; by eapply later_trans)).
  - destruct Hp as [Hd Hp]. split; [by apply IH|]. intros now. specialize (Hp now). destruct (t now st1) as [[b st2]|e]; [|by apply IH].
    destruct Hp as (Hs & He & permit' & Hg & Hk). pose proof (later_step _ _ (lt_after _ _ Hl) Hs) as Hl2.
    assert (forall st', later st2 st' -> wp Q None handler st') as Hh2 by (intros st' Hl'; apply Hh1; by eapply later_trans).
    split_and!; [done|by apply IH|]. exists permit'. split; [done|by apply IH].
  - destruct Hp as (Hn' & Hreq' & Hp). split; [done|]. split; [done|]. intros b. by apply IH.
Qed.

Lemma safe_ret {A} (a : A) : safe (Ret a).
Proof. intros st. by apply wp_ret. Qed.
Lemma safe_bind {A B} (p : prog A) (f : A -> prog B) : safe p -> (forall a, safe (f a)) -> safe (prog_bind p f).
Proof. intros Hp Hf st. apply wp_bind. eapply wp_mono; [|exact (Hp st)]. intros a st' _ _. apply Hf. Qed.
Lemma safe_commits {B} (t : instant -> rtx B) : transaction t -> safe (commits t).
Proof. intros Ht st. apply (wp_commits _ _ _ Ret); [done|by intros; apply wp_ret..]. Qed.
Lemma safe_looks {B} (f : RoomStore -> tx B) : safe (looks f).
Proof. intros st. apply (wp_looks _ _ _ Ret); by intros; apply wp_ret. Qed.
Lemma safe_outside {B} (c : Outside B) : free c -> safe (outside c).
Proof. intros Hn st. apply (wp_outside _ _ _ Ret); [done|by intros; apply wp_ret]. Qed.
Lemma safe_try {E A B} (r : result E A) (k : A -> prog (result E B)) : (forall a, safe (k a)) -> safe (try_prog r k).
Proof. intros Hk. destruct r; [apply Hk|apply safe_ret]. Qed.
End protocol.

Create HintDb transactions.
Create HintDb safe.
(** Walks through a program, a step at a time. *)
Ltac safe_step :=
  match goal with
  | |- safe (Ret _) => apply safe_ret
  | |- safe (prog_bind _ _) => apply safe_bind; [|intros ?]
  | |- safe (try_prog _ _) => apply safe_try; intros ?
  | |- safe (commits _) => apply safe_commits; auto with transactions
  | |- safe (looks _) => apply safe_looks
  | |- safe (outside _) => apply safe_outside; split; [reflexivity|intros ?; exact I]
  | |- safe (match ?x with _ => _ end) => destruct x
  | |- safe _ => solve [auto with safe]
  end.
Ltac safe_steps := repeat safe_step.

(** ** A server full of programs

    [Job] names what the server can be asked to run. Tasks are started at any time, take
    their steps in any order, and can be stopped at any point: a server that stops loses
    them all and the next one starts others. Transactions of the protocol happen elsewhere
    too. *)

Class Jobs : Type := { Job : Type; job_reply : Job -> Type; job_program : forall j, prog (job_reply j) }.

Record Event : Type := MkEvent { event_commits : option (RoomStore * RoomStore); event_call : option (RoomStore * {B : Type & Outside B}) }.
Abbreviation committed st st' := (MkEvent (Some (st, st')) None) (only parsing).
Abbreviation called st c := (MkEvent None (Some (st, existT _ c))) (only parsing).

Section pool.
Context `{Protocol, Jobs}.

Record Task : Type := MkTask { task_job : Job; task_rest : prog (job_reply task_job) }.

Inductive task_step {A} (st : RoomStore) : prog A -> list Event -> RoomStore -> prog A -> Prop :=
| TsCommit {B} (t : instant -> rtx B) k now b st' :
    t now st = Ok (b, st') -> task_step st (Transact t k) [committed st st'] st' (k (Ok b))
| TsLost {B} (t : instant -> rtx B) k now b st' :
    t now st = Ok (b, st') -> task_step st (Transact t k) [committed st st'] st' (k (Err Database))
| TsRefused {B} (t : instant -> rtx B) k now e : t now st = Err e -> task_step st (Transact t k) [] st (k (Err e))
| TsUnavailable {B} (t : instant -> rtx B) k : task_step st (Transact t k) [] st (k (Err Database))
| TsCall {B} (c : Outside B) k b : task_step st (Call c k) [called st c] st (k b).

Inductive server_step : RoomStore * list Task -> list Event -> RoomStore * list Task -> Prop :=
| SvStart st tasks j : server_step (st, tasks) [] (st, MkTask j (job_program j) :: tasks)
| SvStep st tasks1 tasks2 j p trace st' p' :
    task_step st p trace st' p' ->
    server_step (st, tasks1 ++ MkTask j p :: tasks2) trace (st', tasks1 ++ MkTask j p' :: tasks2)
| SvStop st tasks1 tasks2 task : server_step (st, tasks1 ++ task :: tasks2) [] (st, tasks1 ++ tasks2)
| SvElsewhere st tasks st' : protocol_step st st' -> server_step (st, tasks) [committed st st'] (st', tasks).

(** What the server does, and its trace, oldest first. *)
Inductive server_run (start : RoomStore * list Task) : list Event -> RoomStore * list Task -> Prop :=
| RunStart : server_run start [] start
| RunStep trace1 trace2 middle last :
    server_run start trace1 middle -> server_step middle trace2 last -> server_run start (trace1 ++ trace2) last.

Definition commits_of (trace : list Event) : list (RoomStore * RoomStore) := omap event_commits trace.
Definition needs_of (e : Event) : option token := c ← event_call e; needs (projT2 c.2).
(** A call was made when what it requires held. *)
Definition allowed (e : Event) : Prop := match event_call e with Some (st, existT _ c) => requires c st | None => True end.
(** The calls of a trace that need the grant [x]. *)
Definition calls_of (x : token) (trace : list Event) : list Event := filter (fun e => needs_of e = Some x) trace.

(** Every commit of a run is a step of the protocol from the store before. *)
Inductive chain : RoomStore -> list (RoomStore * RoomStore) -> RoomStore -> Prop :=
| ChainNil st : chain st [] st
| ChainCons st st1 st2 l : protocol_step st st1 -> chain st1 l st2 -> chain st ((st, st1) :: l) st2.

Lemma chain_snoc st l st1 st2 : chain st l st1 -> protocol_step st1 st2 -> chain st (l ++ [(st1, st2)]) st2.
Proof. induction 1; intros Hs; simpl; econstructor; [done|constructor|done|by apply IHchain]. Qed.
Lemma chain_steps st l st' : chain st l st' -> rtc protocol_step st st'.
Proof. induction 1; [done|by eapply rtc_l]. Qed.

(** Two commits of a chain, in their order. *)
Lemma chain_ordered st l st' a b rest :
  protocol_ok st -> chain st l st' -> sublist (a :: b :: rest) l ->
  protocol_ok a.1 /\ protocol_step a.1 a.2 /\ rtc protocol_step a.2 b.1 /\ protocol_step b.1 b.2.
Proof.
  assert (Hfirst : forall st l st', chain st l st' -> forall b rest, sublist (b :: rest) l -> rtc protocol_step st b.1 /\ protocol_step b.1 b.2).
  { clear. induction 1 as [|st st1 st2 l Hs _ IH]; intros b rest; [by intros ?%sublist_nil_r|].
    intros [Hsub|(? & [= -> ->] & Hsub)]%sublist_cons_r; [|done]. destruct (IH _ _ Hsub) as [Hr Hb]. split; [by eapply rtc_l|done]. }
  intros Hok Hc. induction Hc as [|st st1 st2 l Hs Hc IH]; [by intros ?%sublist_nil_r|].
  intros [Hsub|(? & [= -> <-] & Hsub)]%sublist_cons_r; [by apply IH; [by eapply protocol_step_ok|]|].
  simpl. split_and!; [done..| |]; by eapply Hfirst.
Qed.

Lemma chain_member st l st' a : protocol_ok st -> chain st l st' -> a ∈ l -> protocol_ok a.1 /\ protocol_step a.1 a.2.
Proof.
  intros Hok Hc. induction Hc as [|st st1 st2 l Hs _ IH]; [by intros ?%elem_of_nil|]. intros [->|Hin]%elem_of_cons; [done|].
  by apply IH; [eapply protocol_step_ok|].
Qed.

(** Two commits of a run, in one order or the other. *)
Lemma two_commits {A} (l : list A) x y : x ∈ l -> y ∈ l -> x = y \/ sublist [x; y] l \/ sublist [y; x] l.
Proof.
  assert (Hone : forall (l : list A) x, x ∈ l -> sublist [x] l).
  { clear. intros l x (l1 & l2 & ->)%list_elem_of_split. apply sublist_inserts_l, sublist_skip, sublist_nil_l. }
  induction l as [|z l IH]; [by intros ?%elem_of_nil|]. intros [->|Hx]%elem_of_cons [->|Hy]%elem_of_cons.
  - by left.
  - right. left. by apply sublist_skip, Hone.
  - right. right. by apply sublist_skip, Hone.
  - destruct (IH Hx Hy) as [?|[?|?]]; [by left|right; left|right; right]; by apply sublist_cons.
Qed.

(** *** What follows when every job keeps the protocol *)

Context (post : forall j, job_reply j -> RoomStore -> Prop).
Hypothesis job_wp : forall j st, protocol_ok st -> wp (post j) None (job_program j) st.

(** The permits that are out, in the order of the tasks, and the grants that are spent or out. *)
Definition holds (st : RoomStore) (permit : option token) (task : Task) : Prop := wp (post (task_job task)) permit (task_rest task) st.
Definition held (x : token) (permits : list (option token)) : nat := length (filter (.= Some x) permits).
Definition accounted (x : token) (trace : list Event) (permits : list (option token)) : Prop :=
  exists l, sublist l (commits_of trace) /\ Forall (fun c => grants x c.1 c.2) l /\ (length (calls_of x trace) + held x permits <= length l)%nat.

Record server_ok (start : RoomStore) (trace : list Event) (st : RoomStore) (tasks : list Task) : Prop := MkServerOk {
  so_ok : protocol_ok st;
  so_chain : chain start (commits_of trace) st;
  so_allowed : Forall allowed trace;
  so_tasks : exists permits, Forall2 (holds st) permits tasks /\ forall x, accounted x trace permits
}.

Lemma holds_later st st' permits tasks : later st st' -> Forall2 (holds st) permits tasks -> Forall2 (holds st') permits tasks.
Proof. intros Hl Ht. eapply Forall2_impl; [exact Ht|]. intros permit task. by apply wp_later. Qed.

Lemma calls_app x trace trace' : calls_of x (trace ++ trace') = calls_of x trace ++ calls_of x trace'.
Proof. unfold calls_of. apply filter_app. Qed.
Lemma commits_app trace trace' : commits_of (trace ++ trace') = commits_of trace ++ commits_of trace'.
Proof. unfold commits_of. apply omap_app. Qed.
Lemma held_app x l l' : held x (l ++ l') = (held x l + held x l')%nat.
Proof. unfold held. by rewrite filter_app, length_app. Qed.
Lemma held_cons x permit l : held x (permit :: l) = ((if decide (permit = Some x) then 1 else 0) + held x l)%nat.
Proof. unfold held. rewrite filter_cons. by destruct (decide (permit = Some x)). Qed.

(** An event that needs no grant, a change of the permits that adds none. *)
Lemma accounted_quiet x trace trace' permits permits' :
  calls_of x trace' = [] -> (held x permits' <= held x permits)%nat -> accounted x trace permits -> accounted x (trace ++ trace') permits'.
Proof.
  intros Hc Hh (l & Hl & Hg & Hn). exists l. rewrite commits_app, calls_app, Hc, app_nil_r. split_and!; [by apply sublist_inserts_r|done|lia].
Qed.

(** One step of a task: what it does to the store, the trace and its own permit. *)
Lemma task_step_ok st permit task trace st' p' :
  protocol_ok st -> holds st permit task -> task_step st (task_rest task) trace st' p' ->
  exists permit', holds st' permit' (MkTask (task_job task) p') /\ later st st' /\
    (commits_of trace = [] /\ st' = st \/ commits_of trace = [(st, st')] /\ protocol_step st st') /\ Forall allowed trace /\
    forall x, (length (calls_of x trace) + held x [permit'] <= held x [permit])%nat \/
      calls_of x trace = [] /\ permit' = Some x /\ grants x st st' /\ commits_of trace = [(st, st')].
Proof.
  intros Hok Hp Hstep. unfold holds in *. destruct task as [j p]. simpl in *.
  destruct Hstep as [B t k now b st' Ht|B t k now b st' Ht|B t k now e Ht|B t k|B c k b]; simpl in Hp;
    specialize (Hp st (later_refl _ Hok)).
  - destruct Hp as [_ Hp]. specialize (Hp now). rewrite Ht in Hp. destruct Hp as (Hs & _ & permit' & Hg & Hk). exists permit'.
    split; [done|]. split; [by apply later_step|]. split; [by right|]. split; [by repeat constructor|]. intros x. destruct (decide (permit' = Some x)) as [->|Hne];
      [right; by split_and!|left]. rewrite !held_cons, decide_False by done. simpl. unfold held. simpl. lia.
  - destruct Hp as [_ Hp]. specialize (Hp now). rewrite Ht in Hp. destruct Hp as (Hs & Hk & _). exists None.
    split; [done|]. split; [by apply later_step|]. split; [by right|]. split; [by repeat constructor|]. intros x. left. unfold held. simpl. lia.
  - destruct Hp as [_ Hp]. specialize (Hp now). rewrite Ht in Hp. exists None. split; [done|]. split; [by apply later_refl|].
    split; [by left|]. split; [by constructor|]. intros x. left. unfold held. simpl. lia.
  - exists None. split; [apply Hp|]. split; [by apply later_refl|]. split; [by left|]. split; [by constructor|]. intros x. left. unfold held. simpl. lia.
  - exists (left_of c permit). destruct Hp as (Hn & Hreq & Hk). split; [apply Hk|]. split; [by apply later_refl|]. split; [by left|].
    split; [by repeat constructor|]. intros x. left. unfold left_of.
    unfold calls_of. rewrite filter_cons. unfold needs_of. simpl. destruct (decide (needs c = Some x)) as [E|Hne].
    + rewrite E, (Hn x E), !held_cons, decide_False, decide_True by done. unfold held. simpl. lia.
    + rewrite !held_cons. unfold held. simpl. destruct (needs c); [rewrite decide_False by done|]; lia.
Qed.

Lemma server_step_ok start trace st tasks trace' st' tasks' :
  server_ok start trace st tasks -> server_step (st, tasks) trace' (st', tasks') -> server_ok start (trace ++ trace') st' tasks'.
Proof.
  intros [Hok Hchain Hall (permits & Hp & Hacc)] Hstep.
  inversion Hstep as [? ? j|? tasks1 tasks2 j p ? ? p' Hts|? tasks1 tasks2 task|? ? ? Hs]; subst.
  - rewrite app_nil_r. split; [done..|]. exists (None :: permits). split; [constructor; [by apply job_wp|done]|].
    intros x. rewrite <- (app_nil_r trace). by apply (accounted_quiet x trace [] permits).
  - apply Forall2_app_inv_r in Hp as (permits1 & rest & Hp1 & Hrest & ->).
    apply Forall2_cons_inv_r in Hrest as (permit & permits2 & Hp & Hp2 & ->).
    destruct (task_step_ok st permit (MkTask j p) trace' st' p' Hok Hp Hts) as (permit' & Hp' & Hl & Hcom & Hall' & Hacc').
    split; [apply Hl| |by apply Forall_app|].
    { rewrite commits_app. destruct Hcom as [[-> ->]|[-> Hs]]; [by rewrite app_nil_r|by apply chain_snoc]. }
    exists (permits1 ++ permit' :: permits2). split; [apply Forall2_app; [by eapply holds_later|constructor; [done|by eapply holds_later]]|].
    intros x. destruct (Hacc x) as (l & Hsub & Hg & Hn). rewrite held_app, held_cons in Hn.
    destruct (Hacc' x) as [Hle|(Hc & -> & Hgx & Hcs)].
    + exists l. rewrite commits_app, calls_app, length_app, held_app, held_cons. rewrite !held_cons in Hle. unfold held in Hle at 1 2.
      simpl in Hle. split_and!; [by apply sublist_inserts_r|done|lia].
    + exists (l ++ [(st, st')]). rewrite commits_app, Hcs, calls_app, Hc, app_nil_r, held_app, held_cons, decide_True, length_app by done.
      split_and!; [by apply sublist_app|by apply Forall_app; split; [|constructor]|simpl; lia].
  - apply Forall2_app_inv_r in Hp as (permits1 & rest & Hp1 & Hrest & ->).
    apply Forall2_cons_inv_r in Hrest as (permit & permits2 & Hp & Hp2 & ->). rewrite app_nil_r. split; [done..|].
    exists (permits1 ++ permits2). split; [by apply Forall2_app|]. intros x. rewrite <- (app_nil_r trace).
    eapply accounted_quiet; [done| |apply Hacc]. rewrite !held_app, held_cons. lia.
  - split; [by eapply protocol_step_ok|rewrite commits_app; by apply chain_snoc|apply Forall_app; split; [done|by repeat constructor]|]. exists permits.
    split; [eapply holds_later; [by apply later_step|done]|]. intros x. by eapply accounted_quiet.
Qed.

Lemma server_run_ok start trace st tasks :
  protocol_ok start -> server_run (start, []) trace (st, tasks) -> server_ok start trace st tasks.
Proof.
  intros Hok Hrun. remember (st, tasks) as last eqn:E. revert st tasks E. induction Hrun as [|trace1 trace2 [st1 tasks1] last Hrun IH Hstep].
  - intros st tasks [= <- <-]. split; [done|constructor|constructor|]. exists []. split; [constructor|]. intros x. exists []. by split_and!.
  - intros st tasks ->. by eapply server_step_ok; [apply IH|].
Qed.

(** Every call that needs a grant is paid by a transaction that gave it. *)
Lemma calls_are_granted start trace st tasks x :
  protocol_ok start -> server_run (start, []) trace (st, tasks) ->
  chain start (commits_of trace) st /\
  exists l, sublist l (commits_of trace) /\ Forall (fun c => grants x c.1 c.2) l /\ (length (calls_of x trace) <= length l)%nat.
Proof.
  intros Hok Hrun. destruct (server_run_ok _ _ _ _ Hok Hrun) as [_ Hchain _ (permits & _ & Hacc)]. split; [done|].
  destruct (Hacc x) as (l & Hsub & Hg & Hn). exists l. split_and!; [done..|lia].
Qed.

(** A job that ended has its post-condition, and the store its invariant. *)
Lemma replies_are_kept start trace st tasks task r :
  protocol_ok start -> server_run (start, []) trace (st, tasks) -> task ∈ tasks -> task_rest task = Ret r ->
  post (task_job task) r st.
Proof.
  intros Hok Hrun Hin Hr. destruct (server_run_ok _ _ _ _ Hok Hrun) as [Hokst _ _ (permits & Hp & _)].
  apply list_elem_of_lookup in Hin as [i Hi]. destruct (Forall2_lookup_r _ _ _ _ _ Hp Hi) as (permit & _ & Hh).
  unfold holds in Hh. rewrite Hr in Hh. exact (Hh st (later_refl _ Hokst)).
Qed.
Lemma run_keeps_ok start trace st tasks :
  protocol_ok start -> server_run (start, []) trace (st, tasks) -> protocol_ok st /\ rtc protocol_step start st.
Proof.
  intros Hok Hrun. destruct (server_run_ok _ _ _ _ Hok Hrun) as [Hokst Hchain _ _]. split; [done|by eapply chain_steps].
Qed.

(** No call is made when what it requires does not hold. *)
Lemma calls_are_allowed start trace st tasks : protocol_ok start -> server_run (start, []) trace (st, tasks) -> Forall allowed trace.
Proof. intros Hok Hrun. by destruct (server_run_ok _ _ _ _ Hok Hrun). Qed.

(** *** An interpreter

    A task alone, with the answers of what is outside given, for [fuel] steps: a run of the server. *)

Fixpoint run_prog {A} (fuel : nat) (answer : forall B, Outside B -> B) (now : instant) (st : RoomStore) (p : prog A) :
    list Event * RoomStore * prog A :=
  match fuel, p with
  | O, _ | _, Ret _ => ([], st, p)
  | S fuel, Transact t k =>
      match t now st with
      | Ok (b, st') => let '(trace, last, rest) := run_prog fuel answer now st' (k (Ok b)) in (committed st st' :: trace, last, rest)
      | Err e => run_prog fuel answer now st (k (Err e))
      end
  | S fuel, @Call _ B c k =>
      let '(trace, last, rest) := run_prog fuel answer now st (k (answer B c)) in (called st c :: trace, last, rest)
  end.

Lemma run_prog_run start fuel answer now trace st tasks1 tasks2 j p :
  server_run start trace (st, tasks1 ++ MkTask j p :: tasks2) ->
  let '(trace', st', p') := run_prog fuel answer now st p in
  server_run start (trace ++ trace') (st', tasks1 ++ MkTask j p' :: tasks2).
Proof.
  revert trace st p. induction fuel as [|fuel IH]; intros trace st p Hrun; [by destruct p; simpl; rewrite app_nil_r|].
  assert (Hstep : forall trace1 st1 p1, task_step st p trace1 st1 p1 ->
    server_run start (trace ++ trace1) (st1, tasks1 ++ MkTask j p1 :: tasks2)).
  { intros trace1 st1 p1 Hs. econstructor; [exact Hrun|by constructor]. }
  destruct p as [a|B t k|B c k]; simpl; [by rewrite app_nil_r| |].
  - destruct (t now st) as [[b st1]|e] eqn:Ht.
    + specialize (IH _ _ _ (Hstep _ _ _ (TsCommit _ _ _ _ _ _ Ht))). destruct (run_prog fuel answer now st1 _) as [[trace1 last] rest].
      by rewrite <- (assoc_L _) in IH.
    + specialize (IH _ _ _ (Hstep _ _ _ (TsRefused _ _ _ _ _ Ht))). destruct (run_prog fuel answer now st _) as [[trace1 last] rest].
      by rewrite app_nil_r in IH.
  - specialize (IH _ _ _ (Hstep _ _ _ (TsCall _ _ _ (answer B c)))). destruct (run_prog fuel answer now st _) as [[trace1 last] rest].
    by rewrite <- (assoc_L _) in IH.
Qed.

(** A task that is alone. *)
Lemma alone_run st j fuel answer now :
  let run := run_prog fuel answer now st (job_program j) in server_run (st, []) run.1.1 (run.1.2, [MkTask j run.2]).
Proof.
  pose proof (run_prog_run (st, []) fuel answer now _ st [] [] j _ (RunStep _ _ _ _ _ (RunStart _) (SvStart st [] j))) as Hrun.
  by destruct (run_prog fuel answer now st (job_program j)) as [[trace st1] p1].
Qed.

(** A task that is lost with its server, and is started again by the next one. *)
Lemma restart_run st j fuel fuel' answer now now' :
  let first := run_prog fuel answer now st (job_program j) in
  let second := run_prog fuel' answer now' first.1.2 (job_program j) in
  server_run (st, []) (first.1.1 ++ second.1.1) (second.1.2, [MkTask j second.2]).
Proof.
  pose proof (alone_run st j fuel answer now) as Hfirst.
  destruct (run_prog fuel answer now st (job_program j)) as [[trace1 st1] p1]. cbn zeta. simpl in Hfirst |- *.
  pose proof (RunStep _ _ _ _ _ (RunStep _ _ _ _ _ Hfirst (SvStop st1 [] [] (MkTask j p1))) (SvStart st1 [] j)) as Hagain.
  pose proof (run_prog_run (st, []) fuel' answer now' _ st1 [] [] j _ Hagain) as Hsecond.
  destruct (run_prog fuel' answer now' st1 (job_program j)) as [[trace2 st2] p2]. by rewrite !app_nil_r in Hsecond.
Qed.

(** A task that waits while another one runs, and goes on afterwards. *)
Lemma overtaken_run st j j' fuel fuel' fuel'' answer now now' now'' :
  let first := run_prog fuel answer now st (job_program j) in
  let other := run_prog fuel' answer now' first.1.2 (job_program j') in
  let second := run_prog fuel'' answer now'' other.1.2 first.2 in
  server_run (st, []) ((first.1.1 ++ other.1.1) ++ second.1.1) (second.1.2, [MkTask j' other.2; MkTask j second.2]).
Proof.
  pose proof (alone_run st j fuel answer now) as Hfirst.
  destruct (run_prog fuel answer now st (job_program j)) as [[trace1 st1] p1]. cbn zeta. simpl in Hfirst |- *.
  pose proof (RunStep _ _ _ _ _ Hfirst (SvStart st1 [MkTask j p1] j')) as Hboth. rewrite app_nil_r in Hboth.
  pose proof (run_prog_run (st, []) fuel' answer now' _ st1 [] [MkTask j p1] j' _ Hboth) as Hother.
  destruct (run_prog fuel' answer now' st1 (job_program j')) as [[trace2 st2] p2]. simpl in Hother |- *.
  pose proof (run_prog_run (st, []) fuel'' answer now'' _ st2 [MkTask j' p2] [] j _ Hother) as Hsecond.
  by destruct (run_prog fuel'' answer now'' st2 p1) as [[trace3 st3] p3].
Qed.

(** The first transaction of a program. *)
Lemma run_prog_commits {A B} fuel answer now (t : instant -> rtx B) (k : tx B -> prog A) st b st' :
  t now st = Ok (b, st') -> committed st st' ∈ (run_prog (S fuel) answer now st (prog_bind (commits t) k)).1.1.
Proof. intros Ht. simpl. rewrite Ht. destruct (run_prog _ _ _ _ _) as [[trace last] rest]. by left. Qed.
End pool.
