(* ===== verification/LifecycleRuntime.v ===== *)
(** * Lifecycle commands and the recovery of runtimes, as the server runs them

    room_agent_lifecycle_runtime.rs, agent_create_runtime.rs, room_command_execution.rs,
    room_command_result.rs, runtime_reconciliation.rs, runtime_reconciliation_cleanup.rs and
    room_runtime_cleanup.rs: each function is a program (Server.v) over the transactions of
    Launch.v, Stop.v, Pause.v, Create.v, Reconcile.v, TurnRecovery.v and Cleanup.v. *)

From Stdlib Require Import String.
From stdpp Require Import gmap.
From S2P Require Import Prelude Text Diagnostic Json Bytes Model Command Vote Projection Settings Store Budget Turn Routing RoomStore.
From S2P Require Import Authority Requests Execution Observation VoteStore Scheduler Completion Calm Messages.
From S2P Require Import Reservations Launch Stop Pause Lifecycle Create Reconcile TurnRecovery Cleanup Agents Selection Server.

(** ** room_command_queue.rs, room_command_result.rs, room_command_execution.rs *)

(** A command of a room. [cmd_authority] is how the transaction resolves the principal again ([mutation_authority]). *)
Record RoomCommand : Type := MkRoomCommand {
  cmd_principal : AuthenticatedPrincipal;
  cmd_authority : RoomStore -> tx AuthenticatedPrincipal;
  cmd_request_id : str;
  cmd_action : str;
  cmd_payload : value
}.

Inductive CommandResolution : Type := ResolutionCommitted | ResolutionRejected | ResolutionUnresolved.
#[global] Instance CommandResolution_eq_dec : EqDecision CommandResolution.
Proof. solve_decision. Defined.
Record CommandFailure : Type := MkCommandFailure { cf_error : PersistenceError; cf_resolution : CommandResolution }.

Definition rejected_failure (error : PersistenceError) : CommandFailure := MkCommandFailure error ResolutionRejected.
Definition unresolved_command (error : PersistenceError) : CommandFailure := MkCommandFailure error ResolutionUnresolved.
Definition transactional (error : PersistenceError) : CommandFailure :=
  match error with
  | CommandConflict | CommandRejected _ _ | StoredCommandRejected _ _ => rejected_failure error
  | _ => unresolved_command error
  end.
Definition after_admission (error : PersistenceError) : CommandFailure :=
  match error with
  | CommandConflict => rejected_failure error
  | CommandRejected code _ => if str_eqb code (u "write_budget_exceeded") then rejected_failure error else unresolved_command error
  | _ => unresolved_command error
  end.

Definition validate_command_envelope (request_id : str) : tx unit :=
  reject_if (str_empty request_id || bool_decide (128 < length request_id)%nat)
    (rejected_tx "command_envelope_invalid" "request_id is invalid.").

Definition ended_session_authority (error : PersistenceError) : option (str * str) :=
  match error with
  | CommandRejected code message =>
      if contains [u "session_revoked"; u "permission_denied"] code then Some (code, message) else None
  | _ => None
  end.

Record CommandExecution : Type := MkExecution {
  ex_reply : result CommandFailure CommandOutcome;
  ex_committed_events : list RoomEvent;
  ex_assignments : list AgentTurnAssignment
}.

Definition is_definitive (execution : CommandExecution) : bool :=
  match ex_reply execution with
  | Ok _ => true
  | Err failure => negb (bool_decide (cf_resolution failure = ResolutionUnresolved))
  end.

Definition new_events (outcome : CommandOutcome) : list RoomEvent := if co_deduplicated outcome then [] else co_events outcome.
Definition success (outcome : CommandOutcome) : CommandExecution := MkExecution (Ok outcome) (new_events outcome) [].
Definition mutation_execution (mutation : RoomCommandMutation) : CommandExecution :=
  MkExecution (Ok (cm_outcome mutation)) (new_events (cm_outcome mutation)) (cm_assignments mutation).
Definition extend_turn_commit (execution : CommandExecution) (commit : AgentTurnCommit) : CommandExecution :=
  MkExecution (ex_reply execution) (ex_committed_events execution ++ tcm_events commit)
    (ex_assignments execution ++ tcm_next_assignments commit).
Definition failure (f : CommandFailure) : CommandExecution := MkExecution (Err f) [] [].
Definition transactional_failure (error : PersistenceError) : CommandExecution := failure (transactional error).
Definition unresolved_failure_with_events (error : PersistenceError) (events : list RoomEvent) : CommandExecution :=
  MkExecution (Err (unresolved_command error)) events [].
Definition unresolved_failure (error : PersistenceError) : CommandExecution := unresolved_failure_with_events error [].
Definition committed_failure (error : PersistenceError) (events : list RoomEvent) : CommandExecution :=
  MkExecution (Err (rejected_failure error)) events [].

Definition persistence_error_code (error : PersistenceError) : str :=
  match error with
  | CommandRejected code _ | CommandUnresolved code _ => code
  | CommandConflict => u "command_conflict"
  | StoredCommandRejected _ _ => u "stored_command_rejected"
  | Database => u "database_error"
  | StoredJson => u "stored_json_invalid"
  | ParticipantMissing => u "participant_missing"
  | _ => u "persistence_error"
  end.

(** ** Values at the border of the two crates *)

(** runtime_reconciliation_cleanup.rs *)
Definition persistence_observation (observation : ProviderRuntimeObservation) : RuntimeReconciliationObservation :=
  match observation with
  | ProviderAdopted handle_id previous_owner_id new_owner_id runtime_profile_key =>
      Adopted handle_id previous_owner_id new_owner_id runtime_profile_key
  | ProviderGone => Gone
  | ProviderLeaseUncertain handle_id owner_id reason_code => LeaseUncertain handle_id owner_id reason_code
  | ProviderAmbiguous reason_code => Ambiguous reason_code
  end.
Definition stale_candidate (error : PersistenceError) : bool :=
  match error with CommandRejected code _ => str_eqb code (u "stale_reconciliation_candidate") | _ => false end.

(** room_agent_lifecycle_runtime.rs *)
Definition persisted_start (started : ProviderRuntimeStarted) : AgentRuntimeStarted :=
  MkRuntimeStarted (ps_runtime_handle_id started) (ps_runtime_owner_id started) (ps_runtime_lease_token started)
    (ps_provider_session_id started) (ps_runtime_reused started) (ps_provider_session_reused started)
    (ps_provider_session_active started).
Definition persisted_resident_runtime (runtime : ProviderResidentRuntime) : AgentResidentRuntime :=
  MkResidentRuntime (pq_runtime_handle_id runtime) (pq_runtime_owner_id runtime) (pq_runtime_lease_token runtime)
    (pq_runtime_profile_key runtime).
Definition resident_runtime_failure (error : ProviderAdapterError) : CommandExecution :=
  transactional_failure (CommandRejected (ae_code error) (ae_message error)).
Definition unconfirmed_effect (error : PersistenceError) : bool :=
  match error with CommandUnresolved code _ => str_eqb code (u "runtime_effect_unconfirmed") | _ => false end.

Section runtime.
Context `{UnicodeGeneralCategory, CharCase, UnicodeCase, Caseless, Sha256, Chrono, Entropy, PersonaLibrary, UuidCrate, ChronoRange,
  AttendeeParent, RequestSerde, RegexCrate, ByteDigest, JsonText, PersonaSummaries, SessionSerde}.

(** The server that runs the programs. *)
Variable generation : str.

#[local] Open Scope prog_scope.

(** *** room_command_execution.rs *)

Definition progress_execution (room_id : str) (execution : CommandExecution) : prog CommandExecution :=
  assigned <- commits (assign_pending_turn room_id);
  match assigned with
  | Ok (Some commit) => Ret (extend_turn_commit execution commit)
  | Ok None => Ret execution
  | Err error =>
      let code := match error with CommandRejected code _ => code | _ => u "persistence_error" end in
      recorded <- commits (record_floor_progression_failure room_id code);
      Ret (match recorded with
           | Ok events => extend_turn_commit execution (MkTurnCommit events [])
           | Err _ => execution
           end)
  end.
Definition progressed_execution (room_id : str) (outcome : CommandOutcome) : prog CommandExecution :=
  progress_execution room_id (success outcome).

(** *** runtime_reconciliation_cleanup.rs *)

Definition release_checkpointed_absence (candidate : RuntimeReconciliationCandidate) : prog unit :=
  let session := rn_session candidate in
  match d_lifecycle_intent_action session with
  | ActionStart => outside (ReleaseCheckpointedStartAbsence session)
  | ActionNone | ActionStop =>
      outside (ReleaseConfirmedStop (s_room_id (d_public session)) (s_session_id (d_public session))
        (d_runtime_handle_id session) (d_runtime_owner_id session) (d_runtime_lease_token session))
  end.

(** *** runtime_reconciliation.rs *)

Definition recover_exact_lifecycle_command (principal : AuthenticatedPrincipal) (request_id action : str) (payload : value) :
    prog (tx LiveRuntimeReconciliation) :=
  candidate <-? looks (load_lifecycle_reconciliation_candidate generation principal request_id action payload);
  observation <- outside (ObserveWithin (rn_session candidate));
  match observation with
  | None => Ret (Ok StillUnresolved)
  | Some observation =>
      reconciled <-? commits (apply_live_reconciliation generation candidate (persistence_observation observation));
      match observation, reconciled with
      | ProviderGone, RetryOriginalEffect => release_checkpointed_absence candidate ;; Ret (Ok reconciled)
      | _, _ => Ret (Ok reconciled)
      end
  end.

(** A plan whose request awaits an unknown effect is made again when the effect was found not to have happened. *)
Definition with_recovery {A} (prepare : prog (tx A)) (principal : AuthenticatedPrincipal) (request_id action : str)
    (payload : value) : prog (tx A) :=
  plan <- prepare;
  match plan with
  | Err error =>
      if unconfirmed_effect error then
        recovered <- recover_exact_lifecycle_command principal request_id action payload;
        match recovered with
        | Ok RetryOriginalEffect => prepare
        | Ok StillUnresolved => Ret plan
        | Err error => Ret (Err error)
        end
      else Ret plan
  | Ok _ => Ret plan
  end.

(** *** room_agent_lifecycle_runtime.rs *)

Section command.
Variable command : RoomCommand.
#[local] Abbreviation principal := (cmd_principal command).
#[local] Abbreviation authority := (cmd_authority command).
#[local] Abbreviation request_id := (cmd_request_id command).
#[local] Abbreviation payload := (cmd_payload command).
#[local] Abbreviation action := (cmd_action command).
#[local] Abbreviation room_id := (pr_room_id (cmd_principal command)).

Definition record_agent_start_pre_effect_failure (effect : AgentStartEffect) (reason : str * str) : prog CommandExecution :=
  commit <- commits (fail_agent_start_before_effect principal request_id payload (se_operation_id effect) reason.1 reason.2 action);
  Ret (match commit with
       | Ok commit => committed_failure (StoredCommandRejected (lf_code commit) (lf_message commit)) (lf_events commit)
       | Err recording_error => unresolved_failure recording_error
       end).

Definition complete_agent_start (effect : AgentStartEffect) (started : ProviderRuntimeStarted) : prog CommandExecution :=
  outcome <- commits (complete_agent_launch principal request_id payload (se_operation_id effect) (persisted_start started) action);
  match outcome with
  | Ok outcome => progressed_execution room_id outcome
  | Err error => Ret (unresolved_failure error)
  end.

Definition record_agent_start_failure (effect : AgentStartEffect) (error : ProviderAdapterError) : prog CommandExecution :=
  if ae_effect_uncertain error then
    events <- commits (mark_agent_start_unconfirmed principal (s_session_id (d_public (se_session effect))) (se_operation_id effect)
                         (ae_runtime_handle_id error) (ae_runtime_owner_id error) (ae_code error) (ae_message error));
    Ret (match events with
         | Ok events => unresolved_failure_with_events (CommandRejected (ae_code error) (ae_message error)) events
         | Err recording_error => unresolved_failure recording_error
         end)
  else
    commit <- commits (fail_agent_launch principal request_id payload (se_operation_id effect) (ae_code error) (ae_message error) action);
    match commit with
    | Ok commit =>
        outside (ReleaseCheckpointedStartAbsence (se_session effect)) ;;
        Ret (committed_failure (StoredCommandRejected (lf_code commit) (lf_message commit)) (lf_events commit))
    | Err recording_error => Ret (unresolved_failure recording_error)
    end.

(** [None]: the command is not the resumption of a paused agent. *)
Definition execute_paused_resume : prog (option CommandExecution) :=
  plan <- looks (prepare_paused_agent_resume authority request_id payload);
  match plan with
  | Err error => Ret (Some (transactional_failure error))
  | Ok (ResidentOutcome outcome) => execution <- progressed_execution room_id outcome; Ret (Some execution)
  | Ok ProviderLaunch => Ret None
  | Ok (Resident session) =>
      proof <- outside (ProveResidentRuntime session);
      match proof with
      | Err error => Ret (Some (resident_runtime_failure error))
      | Ok runtime =>
          resumed <- commits (resume_paused_agent authority request_id payload (persisted_resident_runtime runtime));
          match resumed with
          | Ok (Some outcome) => execution <- progressed_execution room_id outcome; Ret (Some execution)
          | Ok None => Ret (Some (transactional_failure (rejected_tx "resident_runtime_changed"
                                    "The paused Agent Session changed before resume committed.")))
          | Err error => Ret (Some (transactional_failure error))
          end
      end
  end.

Definition execute_agent_pause : prog CommandExecution :=
  plan <- looks (prepare_agent_pause authority request_id payload);
  match plan with
  | Err error => Ret (transactional_failure error)
  | Ok (ResidentOutcome outcome) => Ret (success outcome)
  | Ok ProviderLaunch => Ret (transactional_failure Database)
  | Ok (Resident session) =>
      proof <- outside (ProveResidentRuntime session);
      match proof with
      | Err error => Ret (resident_runtime_failure error)
      | Ok runtime =>
          paused <- commits (execute_agent_pause authority request_id payload (persisted_resident_runtime runtime));
          Ret (match paused with Ok outcome => success outcome | Err error => transactional_failure error end)
      end
  end.

(** What the launch of a prepared effect does outside the store. *)
Definition run_agent_start (effect : AgentStartEffect) : prog CommandExecution :=
  reserved <- outside (ReserveStart (se_session effect));
  match reserved with
  | Err error => record_agent_start_pre_effect_failure effect (ae_code error, ae_message error)
  | Ok reservation =>
      Transact (fun _ => authorize_agent_start_effect generation authority request_id payload (se_operation_id effect) action
                           (sv_runtime_handle_id reservation) (sv_runtime_owner_id reservation) (sv_runtime_lease_token reservation))
        (fun authorized =>
          match authorized with
          | Err error =>
              outside (CancelStartReservation (s_room_id (d_public (se_session effect))) (s_session_id (d_public (se_session effect)))
                         reservation) ;;
              match ended_session_authority error with
              | Some reason => record_agent_start_pre_effect_failure effect reason
              | None => Ret (unresolved_failure error)
              end
          | Ok authorized =>
              Call (StartReserved (se_session authorized)) (fun started =>
                match started with
                | Ok started => complete_agent_start authorized started
                | Err error => record_agent_start_failure authorized error
                end)
          end)
  end.

Definition execute_agent_start : prog CommandExecution :=
  resumed <- (if str_eqb action RESUME then execute_paused_resume else Ret None);
  match resumed with
  | Some execution => Ret execution
  | None =>
      plan <- with_recovery (commits (prepare_agent_launch generation authority request_id payload action))
                principal request_id action payload;
      match plan with
      | Err error => Ret (transactional_failure error)
      | Ok (StartOutcome outcome) => progressed_execution room_id outcome
      | Ok (StartRuntime effect) => run_agent_start effect
      end
  end.

(** *** Stops *)

Definition record_agent_stop_authorization_failure (operation_id : str) (error : PersistenceError) : prog CommandExecution :=
  match ended_session_authority error with
  | None => Ret (unresolved_failure error)
  | Some reason =>
      failed <- commits (fail_agent_stop_before_effect principal request_id payload operation_id reason.1 reason.2);
      Ret (match failed with Ok events => committed_failure error events | Err failure => unresolved_failure failure end)
  end.

Definition finalize_stop : prog CommandExecution :=
  finalized <- commits (finalize_agent_stop principal request_id payload);
  Ret (match finalized with Ok mutation => mutation_execution mutation | Err error => unresolved_failure error end).

Definition execute_managed_stop (effect : AgentStopEffect) : prog CommandExecution :=
  authorized <- commits (authorize_agent_stop_effect generation authority request_id payload (sp_operation_id effect));
  match authorized with
  | Err error => record_agent_stop_authorization_failure (sp_operation_id effect) error
  | Ok effect =>
      stop <- outside (StopProvider room_id (sp_session_id effect) (sp_runtime_handle_id effect) (sp_runtime_owner_id effect)
                         (sp_runtime_lease_token effect));
      match stop with
      | Err error =>
          events <- commits (mark_agent_stop_unconfirmed principal (sp_session_id effect) (sp_operation_id effect)
                               (ae_code error) (ae_message error));
          Ret (match events with
               | Ok events => unresolved_failure_with_events (CommandRejected (ae_code error) (ae_message error)) events
               | Err recording_error => unresolved_failure recording_error
               end)
      | Ok _ =>
          recorded <- commits (record_agent_stop_effect room_id (sp_session_id effect) (sp_operation_id effect));
          match recorded with
          | Err error => Ret (unresolved_failure error)
          | Ok _ =>
              outside (ReleaseConfirmedStop room_id (sp_session_id effect) (sp_runtime_handle_id effect) (sp_runtime_owner_id effect)
                         (sp_runtime_lease_token effect)) ;;
              finalize_stop
          end
      end
  end.

Definition execute_agent_stop : prog CommandExecution :=
  plan <- with_recovery (commits (prepare_agent_stop generation authority request_id payload)) principal request_id action payload;
  match plan with
  | Err error => Ret (transactional_failure error)
  | Ok (StopPlanOutcome outcome) => Ret (success outcome)
  | Ok (ExternalPending events) =>
      Ret (unresolved_failure_with_events
             (CommandUnresolved (u "external_stop_pending") (u "The external attendee must confirm its exact runtime has stopped."))
             events)
  | Ok Finalize => finalize_stop
  | Ok (StopRuntime effect) => execute_managed_stop effect
  end.

(** *** agent_create_runtime.rs *)

Record AgentCreateExecution : Type := MkCreateExecution {
  cx_reply : result CommandFailure CommandOutcome;
  cx_committed_events : list RoomEvent;
  cx_advance_ordered_floor : bool
}.
Abbreviation create_prog := (prog (result CommandFailure AgentCreateExecution)) (only parsing).

Definition from_selection_error (error : ProviderSelectionError) : PersistenceError :=
  CommandRejected (sel_code error) (sel_message error).
Definition create_success (outcome : CommandOutcome) (advance_ordered_floor : bool) : AgentCreateExecution :=
  MkCreateExecution (Ok outcome) (new_events outcome) advance_ordered_floor.
Definition stored_failure (commit : AgentLaunchFailureCommit) : CommandFailure :=
  rejected_failure (StoredCommandRejected (lf_code commit) (lf_message commit)).

Definition fail_created_agent_start_before_effect (effect : AgentCreateStartEffect) (reason : str * str) : create_prog :=
  commit <- commits (fail_agent_create_start_before_effect principal request_id payload effect reason.1 reason.2);
  Ret (match commit with
       | Ok commit => Ok (MkCreateExecution (Err (stored_failure commit)) (lf_events commit) false)
       | Err error => Err (unresolved_command error)
       end).

Definition complete_created_agent_start (effect : AgentCreateStartEffect) (started : ProviderRuntimeStarted) : create_prog :=
  commit <- commits (complete_agent_create_start principal request_id payload (ce_operation_id effect) (persisted_start started));
  Ret (match commit with
       | Ok commit => Ok (MkCreateExecution (Ok (cs_outcome commit)) (cs_newly_committed_events commit) true)
       | Err error => Err (unresolved_command error)
       end).

Definition fail_created_agent_start (effect : AgentCreateStartEffect) (error : ProviderAdapterError) : create_prog :=
  if ae_effect_uncertain error then
    events <- commits (mark_agent_start_unconfirmed principal (s_session_id (d_public (ce_session effect))) (ce_operation_id effect)
                         (ae_runtime_handle_id error) (ae_runtime_owner_id error) (ae_code error) (ae_message error));
    Ret (match events with
         | Ok events =>
             Ok (MkCreateExecution (Err (unresolved_command (CommandRejected (ae_code error) (ae_message error)))) events false)
         | Err recording_error => Err (unresolved_command recording_error)
         end)
  else
    commit <- commits (fail_agent_create_start principal request_id payload effect (ae_code error) (ae_message error));
    match commit with
    | Ok commit =>
        outside (ReleaseCheckpointedStartAbsence (ce_session effect)) ;;
        Ret (Ok (MkCreateExecution (Err (stored_failure commit)) (lf_events commit) false))
    | Err recording_error => Ret (Err (unresolved_command recording_error))
    end.

(** What is selected for a new agent, or why not; the file system is looked at before the draft is stored. *)
Definition select_creation : prog (result CommandFailure ProviderSelection) :=
  selection <- outside (ValidateCreation principal request_id payload);
  Ret (match selection with
       | Ok selection => Ok selection
       | Err error => Err (rejected_failure (from_selection_error error))
       end).

Definition resolve_create_start_plan : prog (result CommandFailure AgentCreateStartPlan) :=
  inspected <- with_recovery (looks (inspect_agent_create_start generation authority request_id payload)) principal request_id CREATE payload;
  match inspected with
  | Err error => Ret (Err (transactional error))
  | Ok CreateSelect =>
      selection <-? select_creation;
      if negb (sl_start_requested selection) then
        Ret (Err (rejected_failure (rejected_tx "invalid_state" "Provider selection lost the create/start intent.")))
      else
        authorized <- outside (CheckDraft (sl_draft selection));
        plan <- commits (prepare_agent_create_start generation authorized authority request_id payload (sl_draft selection));
        Ret (match plan with Ok plan => Ok plan | Err error => Err (transactional error) end)
  | Ok plan => Ret (Ok plan)
  end.

(** What the launch of a created agent does outside the store. *)
Definition run_created_start (effect : AgentCreateStartEffect) : create_prog :=
  reserved <- outside (ReserveStart (ce_session effect));
  match reserved with
  | Err error => fail_created_agent_start_before_effect effect (ae_code error, ae_message error)
  | Ok reservation =>
      Transact (fun _ => authorize_agent_create_start_effect generation authority request_id payload (ce_operation_id effect)
                           (sv_runtime_handle_id reservation) (sv_runtime_owner_id reservation) (sv_runtime_lease_token reservation))
        (fun authorized =>
          match (authorized ≫= id) with
          | Err error =>
              outside (CancelStartReservation (s_room_id (d_public (ce_session effect))) (s_session_id (d_public (ce_session effect)))
                         reservation) ;;
              match ended_session_authority error with
              | Some reason => fail_created_agent_start_before_effect effect reason
              | None => Ret (Err (unresolved_command error))
              end
          | Ok authorized =>
              Call (StartReserved (ce_session authorized)) (fun started =>
                match started with
                | Ok started => complete_created_agent_start authorized started
                | Err error => fail_created_agent_start authorized error
                end)
          end)
  end.

Definition execute_agent_create_start : create_prog :=
  plan <-? resolve_create_start_plan;
  match plan with
  | CreateOutcome outcome => Ret (Ok (create_success outcome false))
  | CreateSelect =>
      Ret (Err (unresolved_command (rejected_tx "invalid_state" "Create/start selection did not produce a durable intent.")))
  | CreateStart effect =>
      drained <- (match ce_newly_committed_events effect with
                  | [] => Ret (Ok tt)
                  | _ => outside (DrainRoomPublications room_id)
                  end);
      match drained with
      | Err error =>
          Ret (Ok (MkCreateExecution (Err (unresolved_command error)) (ce_newly_committed_events effect) false))
      | Ok _ => run_created_start effect
      end
  end.

Definition execute_agent_create : create_prog :=
  match creation_start_requested payload with
  | Err error => Ret (Err (rejected_failure (from_selection_error error)))
  | Ok true => execute_agent_create_start
  | Ok false =>
      replayed <- looks (replay_agent_create authority request_id payload);
      match replayed with
      | Err error => Ret (Err (transactional error))
      | Ok (Some outcome) => Ret (Ok (create_success outcome false))
      | Ok None =>
          selection <-? select_creation;
          authorized <- outside (CheckDraft (sl_draft selection));
          created <- commits (execute_agent_create authorized authority request_id payload (sl_draft selection));
          Ret (match created with Ok outcome => Ok (create_success outcome false) | Err error => Err (transactional error) end)
      end
  end.

(** room_command_dispatch.rs *)
Definition execute_agent_create_command : prog CommandExecution :=
  created <- execute_agent_create;
  match created with
  | Err f => Ret (failure f)
  | Ok created =>
      let execution := MkExecution (cx_reply created) (cx_committed_events created) [] in
      if cx_advance_ordered_floor created then progress_execution room_id execution else Ret execution
  end.
End command.
End runtime.
