(* ===== verification/RecoveryRuntime.v ===== *)
(** * The recovery of runtimes, as the server runs it

    runtime_reconciliation.rs, runtime_reconciliation_cleanup.rs and room_runtime_cleanup.rs:
    what a server does with the sessions whose runtime it does not know, before it admits
    anyone and while it runs, and how it finishes the removal of an agent. *)

From Stdlib Require Import String.
From stdpp Require Import gmap.
From S2P Require Import Prelude Text Diagnostic Json Bytes Model Command Vote Projection Settings Store Budget Turn Routing RoomStore.
From S2P Require Import Authority Requests Execution Observation VoteStore Scheduler Completion Calm Messages.
From S2P Require Import Reservations Launch Stop Pause Lifecycle Create Reconcile TurnRecovery Cleanup Agents Selection Server LifecycleRuntime.

Section runtime.
Context `{UnicodeGeneralCategory, CharCase, UnicodeCase, Caseless, Sha256, Chrono, Entropy, PersonaLibrary, UuidCrate, ChronoRange,
  AttendeeParent, RequestSerde, RegexCrate, ByteDigest, JsonText, PersonaSummaries, SessionSerde}.

#[local] Open Scope prog_scope.

#[local] Abbreviation room_of session := (s_room_id (d_public session)) (only parsing).
#[local] Abbreviation session_of session := (s_session_id (d_public session)) (only parsing).

Definition stop_session (session : DurableAgentSession) : prog (result ProviderAdapterError unit) :=
  outside (StopProvider (room_of session) (session_of session) (d_runtime_handle_id session) (d_runtime_owner_id session)
             (d_runtime_lease_token session)).

(** ** Before admission *)

Definition commit_startup_gone (candidate : RuntimeReconciliationCandidate) : prog (tx (list AgentTurnAssignment)) :=
  assignments <-? commits (apply_runtime_reconciliation candidate Gone);
  release_checkpointed_absence candidate ;;
  Ret (Ok assignments).

Definition recover_startup_observed_runtime (candidate : RuntimeReconciliationCandidate) (observation : ProviderRuntimeObservation) :
    prog (tx (list AgentTurnAssignment)) :=
  let session := rn_session candidate in
  assignments <-? commits (apply_runtime_reconciliation candidate (persistence_observation observation));
  match assignments with
  | _ :: _ => release_checkpointed_absence candidate ;; Ret (Ok assignments)
  | [] =>
      current <-? looks (load_runtime_reconciliation_candidate (room_of session) (session_of session));
      match current with
      | None => Ret (Ok [])
      | Some current =>
          stopped <- stop_session (rn_session current);
          match stopped with
          | Err _ => Ret (Ok [])
          | Ok _ => commit_startup_gone current
          end
      end
  end.

(** What was not begun is refused and what ended is committed; the other candidates are observed. *)
Fixpoint settle_candidates (candidates : list RuntimeReconciliationCandidate) (observed : list RuntimeReconciliationCandidate)
    (assignments : list AgentTurnAssignment) : prog (tx (list RuntimeReconciliationCandidate * list AgentTurnAssignment)) :=
  match candidates with
  | [] => Ret (Ok (observed, assignments))
  | candidate :: candidates =>
      match d_lifecycle_intent_status (rn_session candidate) with
      | IntentPrepared =>
          _ <-? commits (reject_abandoned_lifecycle_before_effect candidate);
          settle_candidates candidates observed assignments
      | IntentEffectApplied =>
          more <-? commit_startup_gone candidate;
          settle_candidates candidates observed (assignments ++ more)
      | _ => settle_candidates candidates (observed ++ [candidate]) assignments
      end
  end.

Definition apply_startup_observation (candidate : RuntimeReconciliationCandidate) (observation : ProviderRuntimeObservation) :
    prog (tx (list AgentTurnAssignment)) :=
  match observation with
  | ProviderAdopted _ _ _ _ | ProviderLeaseUncertain _ _ _ => recover_startup_observed_runtime candidate observation
  | ProviderGone => commit_startup_gone candidate
  | ProviderAmbiguous _ => commits (apply_runtime_reconciliation candidate (persistence_observation observation))
  end.

Fixpoint apply_startup_observations (candidates : list RuntimeReconciliationCandidate)
    (observations : list (nat * ProviderRuntimeObservation)) (assignments : list AgentTurnAssignment) :
    prog (tx (list AgentTurnAssignment)) :=
  match observations with
  | [] => Ret (Ok assignments)
  | (i, observation) :: observations =>
      match candidates !! i with
      | Some candidate =>
          more <-? apply_startup_observation candidate observation;
          apply_startup_observations candidates observations (assignments ++ more)
      | None => apply_startup_observations candidates observations assignments
      end
  end.

(** The number of candidates, and the turns to take up. *)
Definition reconcile_runtime_ownership : prog (tx (nat * list AgentTurnAssignment)) :=
  candidates <-? looks load_runtime_reconciliation_candidates;
  settled <-? settle_candidates candidates [] [];
  observations <- outside (ObserveUnordered (map rn_session (fst settled)));
  assignments <-? apply_startup_observations (fst settled) observations (snd settled);
  Ret (Ok (length candidates, assignments)).

(** ** While the server runs *)

Definition commit_dynamic_gone (candidate : RuntimeReconciliationCandidate) : prog (tx (option (list AgentTurnAssignment))) :=
  applied <- commits (apply_runtime_reconciliation candidate Gone);
  Ret (match applied with
       | Ok assignments => Ok (Some assignments)
       | Err error => if stale_candidate error then Ok None else Err error
       end).

Definition commit_and_publish_gone (candidate : RuntimeReconciliationCandidate) : prog bool :=
  committed <- commit_dynamic_gone candidate;
  match committed with
  | Ok (Some assignments) =>
      release_checkpointed_absence candidate ;;
      resumed <- outside (ResumeAssignedTurns (room_of (rn_session candidate)) assignments);
      Ret (is_ok resumed)
  | Ok None | Err _ => Ret false
  end.

Definition recover_dynamic_observed_runtime (candidate : RuntimeReconciliationCandidate) (observation : ProviderRuntimeObservation) :
    prog unit :=
  let session := rn_session candidate in
  applied <- commits (apply_runtime_reconciliation candidate (persistence_observation observation));
  match applied with
  | Ok ((_ :: _) as assignments) =>
      release_checkpointed_absence candidate ;;
      outside (ResumeAssignedTurns (room_of session) assignments) ;;
      Ret tt
  | Ok [] =>
      current <- looks (load_runtime_reconciliation_candidate (room_of session) (session_of session));
      match current with
      | Ok (Some current) =>
          stopped <- stop_session (rn_session current);
          match stopped with
          | Err _ => Ret tt
          | Ok _ => commit_and_publish_gone current ;; Ret tt
          end
      | Ok None | Err _ => Ret tt
      end
  | Err _ => Ret tt
  end.

Definition commit_abandoned_pre_effect (candidate : RuntimeReconciliationCandidate) : prog unit :=
  rejected <- commits (reject_abandoned_lifecycle_before_effect candidate);
  match rejected with
  | Ok _ => outside (NotifyRoomPublication (room_of (rn_session candidate)))
  | Err _ => Ret tt
  end.

Definition claim_candidate (candidate : RuntimeReconciliationCandidate) : prog bool :=
  match rn_reservation candidate with
  | None => Ret false
  | Some reservation =>
      outside (ClaimLifecycleCommand (pr_room_id (rc_principal reservation)) (pr_principal_id (rc_principal reservation))
                 (rc_request_id reservation) (rc_action reservation))
  end.

(** The candidates whose command is claimed and that need an observation; the others are settled. [None]: the server
    stops. *)
Fixpoint claim_candidates (candidates needs_observation : list RuntimeReconciliationCandidate) :
    prog (option (list RuntimeReconciliationCandidate)) :=
  match candidates with
  | [] => Ret (Some needs_observation)
  | candidate :: candidates =>
      cancelled <- outside Cancelled;
      if cancelled : bool then Ret None
      else
        claimed <- claim_candidate candidate;
        if claimed : bool then
          match d_lifecycle_intent_status (rn_session candidate) with
          | IntentPrepared => commit_abandoned_pre_effect candidate ;; claim_candidates candidates needs_observation
          | IntentEffectApplied => commit_and_publish_gone candidate ;; claim_candidates candidates needs_observation
          | IntentEffectInflight | IntentUnconfirmed => claim_candidates candidates (needs_observation ++ [candidate])
          | IntentNone => claim_candidates candidates needs_observation
          end
        else claim_candidates candidates needs_observation
  end.

Definition apply_dynamic_observation (candidate : RuntimeReconciliationCandidate) (observation : ProviderRuntimeObservation) :
    prog unit :=
  match observation with
  | ProviderGone => commit_and_publish_gone candidate ;; Ret tt
  | ProviderAdopted _ _ _ _ | ProviderLeaseUncertain _ _ _ => recover_dynamic_observed_runtime candidate observation
  | ProviderAmbiguous _ => Ret tt
  end.

Fixpoint apply_dynamic_observations (candidates : list RuntimeReconciliationCandidate)
    (observations : list (nat * ProviderRuntimeObservation)) : prog unit :=
  match observations with
  | [] => Ret tt
  | (i, observation) :: observations =>
      cancelled <- outside Cancelled;
      (match candidates !! i with
       | Some candidate => if cancelled : bool then Ret tt else apply_dynamic_observation candidate observation
       | None => Ret tt
       end) ;;
      apply_dynamic_observations candidates observations
  end.

(** An observation that takes too long is none: it is missing from what [ObserveUnordered] returns. *)
Definition reconcile_dynamic_candidates (candidates : list RuntimeReconciliationCandidate) : prog unit :=
  needs_observation <- claim_candidates candidates [];
  match needs_observation with
  | None => Ret tt
  | Some needs_observation =>
      observed <- outside (ObserveUnordered (map rn_session needs_observation));
      apply_dynamic_observations needs_observation observed
  end.

(** One scan of [watch_runtime_reconciliation]: the page after the cursor, and the next cursor. *)
Definition scan_lifecycle_page (cursor : option (str * str)) : prog (option (str * str)) :=
  page <- looks (load_runtime_reconciliation_page cursor);
  match page with
  | Ok page => reconcile_dynamic_candidates (fst page) ;; Ret (snd page)
  | Err _ => Ret cursor
  end.

Definition stale_shutdown_observation : PersistenceError :=
  rejected_tx "stale_reconciliation_candidate" "Confirmed shutdown no longer matches durable runtime authority.".

(** A runtime that stopped with the server. *)
Definition checkpoint_confirmed_shutdown (stopped : ProviderRuntimeGone) : prog (tx unit) :=
  turn <-? looks (load_active_candidate_in (rg_room_id stopped) (rg_session_id stopped));
  match turn with
  | Some candidate =>
      let execution := tc_execution candidate in
      if str_eqb (pe_runtime_handle_id execution) (rg_runtime_handle_id stopped)
         && str_eqb (pe_runtime_owner_id execution) (rg_runtime_owner_id stopped)
         && str_eqb (pe_runtime_lease_token execution) (rg_runtime_lease_token stopped)
      then commits (finalize_provider_turn_runtime_gone_for_shutdown candidate)
      else Ret (Err stale_shutdown_observation)
  | None =>
      found <-? looks (load_runtime_reconciliation_candidate (rg_room_id stopped) (rg_session_id stopped));
      match found with
      | None => Ret (Err stale_shutdown_observation)
      | Some candidate =>
          let session := rn_session candidate in
          if str_eqb (d_runtime_handle_id session) (rg_runtime_handle_id stopped)
             && str_eqb (d_runtime_owner_id session) (rg_runtime_owner_id stopped)
             && str_eqb (d_runtime_lease_token session) (rg_runtime_lease_token stopped)
          then commits (apply_runtime_shutdown_reconciliation candidate Gone)
          else Ret (Err stale_shutdown_observation)
      end
  end.

(** ** room_runtime_cleanup.rs *)

Definition unresolved_cleanup (code : str) : PersistenceError :=
  CommandUnresolved code (u "Participant access is revoked; exact provider cleanup is still pending.").

Definition observe_then_stop (session : DurableAgentSession) : prog (tx unit) :=
  observation <- outside (ObserveWithin session);
  match observation with
  | None => Ret (Err (unresolved_cleanup (u "runtime_cleanup_observation_timeout")))
  | Some ProviderGone => Ret (Ok tt)
  | Some (ProviderAdopted _ _ _ _) | Some (ProviderLeaseUncertain _ _ _) =>
      stopped <- stop_session session;
      Ret (match stopped with Ok _ => Ok tt | Err error => Err (unresolved_cleanup (ae_code error)) end)
  | Some (ProviderAmbiguous _) => Ret (Err (unresolved_cleanup (u "runtime_cleanup_unconfirmed")))
  end.

Definition no_commit : AgentTurnCommit := MkTurnCommit [] [].

(** The removal goes on: the runtime of its turn or of its session is stopped, and the cleanup is finished if it can be. *)
Definition attempt_cleanup (room_id session_id : str) : prog (tx (option AgentTurnCommit)) :=
  finished <-? commits (finish_cleanup_in room_id session_id);
  match finished with
  | Some commit => Ret (Ok (Some commit))
  | None =>
      turn <-? looks (load_room_runtime_cleanup_turn (room_id, session_id));
      match turn with
      | Some candidate =>
          let session := tc_session candidate in
          _ <-? observe_then_stop session;
          _ <-? commits (finalize_provider_turn_runtime_gone_for_shutdown candidate);
          outside (ReleaseConfirmedStop room_id session_id (d_runtime_handle_id session) (d_runtime_owner_id session)
                     (d_runtime_lease_token session)) ;;
          finished <-? commits (finish_cleanup_in room_id session_id);
          Ret (Ok (Some (default no_commit finished)))
      | None =>
          found <-? looks (load_room_runtime_cleanup_candidate (room_id, session_id));
          match found with
          | None => Ret (Ok None)
          | Some candidate =>
              let status := d_lifecycle_intent_status (rn_session candidate) in
              _ <-? (match status with
                     | IntentPrepared => commits (reject_abandoned_lifecycle_before_effect candidate)
                     | _ =>
                         _ <-? (match status with
                                | IntentEffectApplied => Ret (Ok tt)
                                | _ => observe_then_stop (rn_session candidate)
                                end);
                         _ <-? commits (apply_runtime_shutdown_reconciliation candidate Gone);
                         release_checkpointed_absence candidate ;;
                         Ret (Ok tt)
                     end);
              finished <-? commits (finish_cleanup_in room_id session_id);
              Ret (Ok (Some (default no_commit finished)))
          end
      end
  end.
End runtime.
