(* ===== verification/LifecycleServer.v ===== *)
(** * What a server full of lifecycle programs does

    The programs of LifecycleRuntime.v and RecoveryRuntime.v keep one protocol: they change
    the store by the transactions of Agents.v, and start a runtime only right after the
    transaction that authorized that start. Any number of them, in any order, stopped at
    any point and started again by the next server, therefore start a runtime once, or
    again when it was observed. *)

From Stdlib Require Import String.
From stdpp Require Import gmap.
From S2P Require Import Prelude Text Diagnostic Json Bytes Model Command Vote Projection Settings Store Budget Turn Routing RoomStore.
From S2P Require Import Authority Requests Execution Observation VoteStore Scheduler Completion Calm Messages.
From S2P Require Import Reservations Launch Stop Pause Lifecycle Create Reconcile TurnRecovery Cleanup Agents Selection Server LifecycleRuntime.
From S2P Require Import RecoveryRuntime.

Section server.
Context `{UnicodeGeneralCategory, CharCase, UnicodeCase, Caseless, Sha256, Chrono, Entropy, PersonaLibrary, UuidCrate, ChronoRange,
  AttendeeParent, RequestSerde, RegexCrate, ByteDigest, JsonText, PersonaSummaries, SessionSerde}.
Hypothesis bytes_inj : forall a b, sha256_bytes a = sha256_bytes b -> a = b.
Hypothesis digest_inj : forall a b, sha256_hex a = sha256_hex b -> a = b.

Lemma same_step st : lifecycle_ok st -> history_step st st.
Proof. intros [_ Hok]. by apply HsCommand, same_view_other. Qed.

(** The start of a runtime needs the authorization of its operation. *)
Definition lifecycle_needs {B} (c : Outside B) : option str :=
  match c with StartReserved session => Some (d_lifecycle_intent_id session) | _ => None end.
Definition lifecycle_protocol : Protocol := {|
  token := str;
  protocol_ok := lifecycle_ok;
  protocol_step := history_step;
  needs B c := lifecycle_needs c;
  grants := authorizes_start;
  requires B c st := True;
  protocol_step_same := same_step;
  protocol_step_ok := step_lifecycle_ok bytes_inj digest_inj |}.
#[local] Existing Instance lifecycle_protocol.

(** ** Transactions *)

Lemma command_step {B} (t : instant -> rtx B) :
  (forall now st b st', lifecycle_ok st -> t now st = Ok (b, st') -> lifecycle_step st st') -> transaction t.
Proof. intros Ht now st b st' Hok Hr. by apply HsCommand, (Ht now st b). Qed.
Lemma hidden_transaction {B} (t : instant -> rtx B) : (forall now, keeps hidden (t now)) -> transaction t.
Proof. intros Ht. apply command_step. intros now st b st' [_ Hok] Hr. apply hidden_step; [by eapply Ht|done]. Qed.

Lemma assign_pending_turn_hidden room_id now : keeps hidden (assign_pending_turn room_id now).
Proof.
  unfold assign_pending_turn. intros st c st' Hr. apply rtx_bind_Ok in Hr as ([room settings] & st1 & [_ <-]%reads_Ok & Hr).
  apply rtx_bind_Ok in Hr as (commit & st2 & Ha & Hr). apply rtx_ret_Ok in Hr as [_ <-]. by eapply assign_pending_hidden.
Qed.
Lemma floor_failure_hidden room_id code now : keeps hidden (record_floor_progression_failure room_id code now).
Proof.
  unfold record_floor_progression_failure. intros st events st' Hr.
  apply rtx_bind_Ok in Hr as (? & st1 & [_ <-]%reads_Ok & Hr). apply rtx_bind_Ok in Hr as (id & st1 & [-> ->]%draw_uuid_Ok & Hr).
  apply rtx_bind_Ok in Hr as (seq & st2 & Hs & Hr). apply reads_Ok in Hs as [[= <-] <-]. cbv zeta in Hr.
  apply rtx_bind_Ok in Hr as (? & st3 & [_ ->]%insert_event_Ok & Hr). apply rtx_ret_Ok in Hr as [_ <-].
  intros [Hk Hp]. split; [done|]. split; [done|]. simpl. intros k e [[<- _]|[_ He]]%lookup_insert_Some; [|by eapply Hp].
  by apply (next_sequence_pos room_id st).
Qed.

(** A command whose strings are those of Rust, resolved to the principal that asked. *)
Definition command_ok (command : RoomCommand) : Prop :=
  value_wf (cmd_payload command) /\ key_ok (command_key (cmd_principal command) (cmd_request_id command)) /\
  forall st principal, cmd_authority command st = Ok principal ->
    command_key principal (cmd_request_id command) = command_key (cmd_principal command) (cmd_request_id command).

Lemma command_asked command st : command_ok command -> asked_by (cmd_authority command) (cmd_request_id command) st.
Proof. intros (_ & Hk & Ha) principal E. by rewrite (Ha st principal E). Qed.

(** ** Reasoning about programs *)

(** The request of a key was answered, and stays so. *)
Definition answered (key : str * str * str) (st : RoomStore) : Prop := st_commands st !! key <> None.
Lemma answered_phase key st : lifecycle_ok st -> answered key st <-> phase key (view st) = RequestAnswered.
Proof.
  intros [Hv _]. unfold answered. rewrite <- not_elem_of_dom. unfold phase. simpl. split.
  - intros Hd. assert (key ∈ dom (st_commands st)) as Hin by (by apply dec_stable).
    pose proof (vo_answered _ Hv _ Hin) as Hr. simpl in Hr. by rewrite Hr, bool_decide_eq_true_2.
  - destruct (st_reservations st !! key) as [row|]; [by repeat case_match|]. case_bool_decide as Hd; [|done]. by intros _ Hn.
Qed.
Definition is_answered (p : RequestPhase) : bool := match p with RequestAnswered => true | _ => false end.
Lemma answered_stable key : stable (answered key).
Proof.
  intros st st' [Hok Hsteps Hok'] Ha%answered_phase; [|done]. apply answered_phase; [done|].
  assert (is_answered (phase key (view st')) = true) as Hp.
  { apply (kept_history bytes_inj digest_inj is_answered key st st'); [by intros e p p' []|done|done|by rewrite Ha]. }
  by destruct (phase key (view st')).
Qed.

(** A program whose good results are answers of the store. *)
Definition answers {A} (key : str * str * str) (good : A -> bool) (p : prog A) : Prop :=
  forall st, wp (fun a st' => good a = true -> answered key st') None p st.

(** ** Every transaction of the programs is a step of the histories of Agents.v *)

Variable generation : str.

Section command.
Variable command : RoomCommand.
Hypothesis Hcommand : command_ok command.
#[local] Abbreviation authority := (cmd_authority command).
#[local] Abbreviation request_id := (cmd_request_id command).
#[local] Abbreviation payload := (cmd_payload command).

Lemma prepare_launch_transaction action : transaction (prepare_agent_launch generation authority request_id payload action).
Proof. apply command_step. intros now st b st' _ Hr. by eapply LsPrepareLaunch; [apply Hcommand|apply command_asked|exact Hr]. Qed.
Lemma prepare_stop_transaction : transaction (prepare_agent_stop generation authority request_id payload).
Proof. apply command_step. intros now st b st' _ Hr. by eapply LsPrepareStop; [apply command_asked|exact Hr]. Qed.
Lemma prepare_create_transaction authorized draft :
  transaction (prepare_agent_create_start generation authorized authority request_id payload draft).
Proof. apply command_step. intros now st b st' _ Hr. by eapply LsPrepareCreate; [apply command_asked|exact Hr]. Qed.
End command.

(** A resumption that finds another state changes nothing. *)
Lemma resume_None authority request_id payload runtime now st st' :
  resume_paused_agent authority request_id payload runtime now st = Ok (None, st') -> st' = st.
Proof.
  unfold resume_paused_agent. intros (principal & st1 & [_ <-]%reads_Ok & Hr)%rtx_bind_Ok.
  apply rtx_bind_Ok in Hr as (? & st1 & [_ <-]%lift_Ok & Hr). apply rtx_bind_Ok in Hr as (agent_id & st1 & [_ <-]%lift_Ok & Hr).
  cbv zeta in Hr. apply rtx_bind_Ok in Hr as (? & st1 & [_ <-]%reads_Ok & Hr). apply rtx_bind_Ok in Hr as (replay & st1 & [_ <-]%reads_Ok & Hr).
  destruct replay as [o|]; [by apply rtx_ret_Ok in Hr as [? _]|]. apply rtx_bind_Ok in Hr as (s & st2 & [_ <-]%reads_Ok & Hr).
  destruct (negb _); [by apply rtx_ret_Ok in Hr as [_ <-]|]. apply rtx_bind_Ok in Hr as (replay & st2 & _ & Hr).
  destruct replay; [by apply rtx_ret_Ok in Hr as [? _]|]. do 4 (apply rtx_bind_Ok in Hr as (? & ? & _ & Hr)).
  apply rtx_bind_Ok in Hr as (? & ? & _ & Hr). by apply rtx_ret_Ok in Hr as [? _].
Qed.
Lemma resume_transaction authority request_id payload runtime : transaction (resume_paused_agent authority request_id payload runtime).
Proof.
  apply command_step. intros now st [outcome|] st' [_ Hok] Hr; [by eapply LsResume|].
  apply resume_None in Hr as ->. by apply same_view_other.
Qed.

Ltac by_step c := apply command_step; intros now st b st' _ Hr; by eapply c.
Lemma authorize_start_transaction authority request_id payload operation action handle owner lease :
  transaction (fun _ => authorize_agent_start_effect generation authority request_id payload operation action handle owner lease).
Proof. by_step LsAuthorizeStart. Qed.
Lemma authorize_create_transaction authority request_id payload operation handle owner lease :
  transaction (fun _ => authorize_agent_create_start_effect generation authority request_id payload operation handle owner lease).
Proof. by_step LsAuthorizeCreate. Qed.
Lemma complete_launch_transaction principal request_id payload operation started action :
  transaction (complete_agent_launch principal request_id payload operation started action).
Proof. by_step LsCompleteLaunch. Qed.
Lemma fail_before_start_transaction principal request_id payload operation code message action :
  transaction (fail_agent_start_before_effect principal request_id payload operation code message action).
Proof. by_step LsFailBeforeStart. Qed.
Lemma fail_launch_transaction principal request_id payload operation code message action :
  transaction (fail_agent_launch principal request_id payload operation code message action).
Proof. by_step LsFailLaunch. Qed.
Lemma start_unconfirmed_transaction principal agent_id operation handle owner code message :
  transaction (mark_agent_start_unconfirmed principal agent_id operation handle owner code message).
Proof. by_step LsStartUnconfirmed. Qed.
Lemma authorize_stop_transaction authority request_id payload operation :
  transaction (authorize_agent_stop_effect generation authority request_id payload operation).
Proof. by_step LsAuthorizeStop. Qed.
Lemma fail_before_stop_transaction principal request_id payload operation code message :
  transaction (fail_agent_stop_before_effect principal request_id payload operation code message).
Proof. by_step LsFailBeforeStop. Qed.
Lemma record_stop_transaction room_id session_id operation : transaction (record_agent_stop_effect room_id session_id operation).
Proof. by_step LsRecordStop. Qed.
Lemma stop_unconfirmed_transaction principal agent_id operation code message :
  transaction (mark_agent_stop_unconfirmed principal agent_id operation code message).
Proof. by_step LsStopUnconfirmed. Qed.
Lemma finalize_stop_transaction principal request_id payload : transaction (finalize_agent_stop principal request_id payload).
Proof. by_step LsFinalizeStop. Qed.
Lemma finish_cleanup_transaction room_id session_id : transaction (finish_cleanup_in room_id session_id).
Proof. by_step LsFinishCleanup. Qed.
Lemma pause_transaction authority request_id payload runtime :
  transaction (Pause.execute_agent_pause authority request_id payload runtime).
Proof. by_step LsPause. Qed.
Lemma create_transaction authorized authority request_id payload draft :
  transaction (Create.execute_agent_create authorized authority request_id payload draft).
Proof. by_step LsCreate. Qed.
Lemma complete_create_transaction principal request_id payload operation started :
  transaction (complete_agent_create_start principal request_id payload operation started).
Proof. by_step LsCompleteCreate. Qed.
Lemma fail_create_transaction principal request_id payload effect code message :
  transaction (fail_agent_create_start principal request_id payload effect code message).
Proof. by_step LsFailCreate. Qed.
Lemma fail_before_create_transaction principal request_id payload effect code message :
  transaction (fail_agent_create_start_before_effect principal request_id payload effect code message).
Proof. by_step LsFailBeforeCreate. Qed.
Lemma abandon_transaction candidate : transaction (reject_abandoned_lifecycle_before_effect candidate).
Proof. by_step LsAbandon. Qed.
Lemma assign_transaction room_id : transaction (assign_pending_turn room_id).
Proof. apply hidden_transaction, assign_pending_turn_hidden. Qed.
Lemma floor_failure_transaction room_id code : transaction (record_floor_progression_failure room_id code).
Proof. apply hidden_transaction, floor_failure_hidden. Qed.

Lemma reconciliation_step candidate observation progression now st l st' :
  apply_reconciliation candidate observation progression now st = Ok (l, st') -> history_step st st'.
Proof.
  destruct (is_gone observation) eqn:Hg; [|by intros ?; eapply HsCommand, LsReconcile].
  destruct observation; try done. by intros ?; eapply HsAbsence, AbReconcile.
Qed.
Lemma reconciliation_transaction candidate observation : transaction (apply_runtime_reconciliation candidate observation).
Proof. intros now st b st' _ Hr. by eapply reconciliation_step. Qed.
Lemma shutdown_transaction candidate observation : transaction (apply_runtime_shutdown_reconciliation candidate observation).
Proof.
  intros now st b st' _ Hr. unfold apply_runtime_shutdown_reconciliation in Hr. apply rtx_bind_Ok in Hr as (l & st1 & Ha & Hr).
  assert (st' = st1) as -> by (by rtx_inv). by eapply reconciliation_step.
Qed.
Lemma live_transaction candidate observation : transaction (apply_live_reconciliation generation candidate observation).
Proof.
  intros now st b st' _ Hr. destruct (is_gone observation) eqn:Hg; [|by eapply HsLive].
  destruct observation; try done. by eapply HsAbsence, AbLive.
Qed.
Lemma runtime_gone_transaction candidate : transaction (finalize_provider_turn_runtime_gone candidate).
Proof. intros now st b st' _ Hr. by eapply HsAbsence, AbRuntimeGone. Qed.
Lemma shutdown_turn_transaction candidate : transaction (finalize_provider_turn_runtime_gone_for_shutdown candidate).
Proof.
  intros now st b st' _ Hr. unfold finalize_provider_turn_runtime_gone_for_shutdown in Hr.
  apply rtx_bind_Ok in Hr as (c & st1 & Ha & Hr). assert (st' = st1) as -> by (by rtx_inv). by eapply HsAbsence, AbRuntimeGone.
Qed.
#[local] Hint Resolve authorize_start_transaction authorize_create_transaction complete_launch_transaction fail_before_start_transaction fail_launch_transaction
  start_unconfirmed_transaction authorize_stop_transaction fail_before_stop_transaction record_stop_transaction
  stop_unconfirmed_transaction finalize_stop_transaction finish_cleanup_transaction pause_transaction resume_transaction
  create_transaction complete_create_transaction fail_create_transaction fail_before_create_transaction abandon_transaction
  assign_transaction floor_failure_transaction reconciliation_transaction shutdown_transaction live_transaction
  runtime_gone_transaction shutdown_turn_transaction prepare_launch_transaction prepare_stop_transaction
  prepare_create_transaction : transactions.

(** ** The recovery keeps the protocol *)

Lemma release_safe candidate : safe (release_checkpointed_absence candidate).
Proof. unfold release_checkpointed_absence. cbv zeta. safe_steps. Qed.
Lemma stop_session_safe session : safe (stop_session session).
Proof. unfold stop_session. safe_steps. Qed.
#[local] Hint Resolve release_safe stop_session_safe : safe.
Lemma startup_gone_safe candidate : safe (commit_startup_gone candidate).
Proof. unfold commit_startup_gone. safe_steps. Qed.
#[local] Hint Resolve startup_gone_safe : safe.
Lemma startup_observed_safe candidate observation : safe (recover_startup_observed_runtime candidate observation).
Proof. unfold recover_startup_observed_runtime. cbv zeta. safe_steps. Qed.
#[local] Hint Resolve startup_observed_safe : safe.
Lemma settle_safe candidates observed assignments : safe (settle_candidates candidates observed assignments).
Proof. revert observed assignments. induction candidates as [|c candidates IH]; intros observed assignments; cbn [settle_candidates]; safe_steps. Qed.
Lemma startup_observation_safe candidate observation : safe (apply_startup_observation candidate observation).
Proof. unfold apply_startup_observation. safe_steps. Qed.
#[local] Hint Resolve settle_safe startup_observation_safe : safe.
Lemma startup_observations_safe candidates observations assignments :
  safe (apply_startup_observations candidates observations assignments).
Proof. revert assignments. induction observations as [|[i o] observations IH]; intros assignments; cbn [apply_startup_observations]; safe_steps. Qed.
#[local] Hint Resolve startup_observations_safe : safe.
Lemma startup_safe : safe reconcile_runtime_ownership.
Proof. unfold reconcile_runtime_ownership. safe_steps. Qed.

Lemma publish_gone_safe candidate : safe (commit_and_publish_gone candidate).
Proof. unfold commit_and_publish_gone, commit_dynamic_gone. safe_steps. Qed.
#[local] Hint Resolve publish_gone_safe : safe.
Lemma dynamic_observed_safe candidate observation : safe (recover_dynamic_observed_runtime candidate observation).
Proof. unfold recover_dynamic_observed_runtime. cbv zeta. safe_steps. Qed.
Lemma abandoned_safe candidate : safe (commit_abandoned_pre_effect candidate).
Proof. unfold commit_abandoned_pre_effect. safe_steps. Qed.
Lemma claim_candidate_safe candidate : safe (claim_candidate candidate).
Proof. unfold claim_candidate. safe_steps. Qed.
#[local] Hint Resolve dynamic_observed_safe abandoned_safe claim_candidate_safe : safe.
Lemma claim_candidates_safe candidates needs : safe (claim_candidates candidates needs).
Proof. revert needs. induction candidates as [|c candidates IH]; intros needs; cbn [claim_candidates]; safe_steps. Qed.
Lemma dynamic_observation_safe candidate observation : safe (apply_dynamic_observation candidate observation).
Proof. unfold apply_dynamic_observation. safe_steps. Qed.
#[local] Hint Resolve claim_candidates_safe dynamic_observation_safe : safe.
Lemma dynamic_observations_safe candidates observations : safe (apply_dynamic_observations candidates observations).
Proof. induction observations as [|[i o] observations IH]; cbn [apply_dynamic_observations]; safe_steps. Qed.
#[local] Hint Resolve dynamic_observations_safe : safe.
Lemma dynamic_safe candidates : safe (reconcile_dynamic_candidates candidates).
Proof. unfold reconcile_dynamic_candidates. safe_steps. Qed.
#[local] Hint Resolve dynamic_safe : safe.
Lemma scan_safe cursor : safe (scan_lifecycle_page cursor).
Proof. unfold scan_lifecycle_page. safe_steps. Qed.
Lemma checkpoint_safe stopped : safe (checkpoint_confirmed_shutdown stopped).
Proof. unfold checkpoint_confirmed_shutdown. safe_steps. all: destruct (_ && _)%bool; safe_steps. Qed.
Lemma observe_then_stop_safe session : safe (observe_then_stop session).
Proof. unfold observe_then_stop. safe_steps. Qed.
#[local] Hint Resolve observe_then_stop_safe : safe.
Lemma attempt_cleanup_safe room_id session_id : safe (attempt_cleanup room_id session_id).
Proof. unfold attempt_cleanup. cbv zeta. safe_steps. Qed.

(** ** What an outcome of the store says *)

Lemma existing_answered key action hash st o : existing_command key action hash st = Ok (Some o) -> answered key st.
Proof. unfold existing_command, answered. intros (? & _ & Hr)%bind_Ok. by destruct (st_commands st !! key). Qed.
Lemma inspect_answered key action hash st o : inspect_non_lifecycle_command key action hash st = Ok (Some o) -> answered key st.
Proof.
  unfold inspect_non_lifecycle_command. intros (outcome & Hq & Hr)%bind_Ok. apply bind_Ok in Hr as (? & _ & Hr).
  apply bind_Ok in Hr as (? & _ & [= ->]). by eapply existing_answered.
Qed.
Lemma admit_answered key action hash bytes now st o st' :
  admit_non_lifecycle_command key action hash bytes now st = Ok (Some o, st') -> answered key st'.
Proof.
  unfold admit_non_lifecycle_command. intros (outcome & st1 & [Hi <-]%reads_Ok & Hr)%rtx_bind_Ok.
  destruct outcome; [apply rtx_ret_Ok in Hr as [_ <-]; by eapply inspect_answered|].
  apply rtx_bind_Ok in Hr as (? & st1 & _ & Hr). by apply rtx_ret_Ok in Hr as [? _].
Qed.
Lemma stored_answered principal request_id action hash result events st outcome st' :
  store_result principal request_id action hash result events st = Ok (outcome, st') -> answered (command_key principal request_id) st'.
Proof. intros (_ & row & _ & _ & ->)%store_result_Ok. unfold answered. simpl. by rewrite lookup_insert_eq. Qed.

Lemma prepare_launch_answered authority request_id payload action now st o st' :
  prepare_agent_launch generation authority request_id payload action now st = Ok (StartOutcome o, st') ->
  exists principal, authority st = Ok principal /\ answered (command_key principal request_id) st'.
Proof.
  unfold prepare_agent_launch. intros (principal & st1 & [Ha <-]%reads_Ok & Hr)%rtx_bind_Ok.
  apply rtx_bind_Ok in Hr as (? & st1 & [_ <-]%lift_Ok & Hr). apply rtx_bind_Ok in Hr as ([agent_id start] & st1 & [_ <-]%lift_Ok & Hr).
  cbv zeta in Hr. apply rtx_bind_Ok in Hr as (? & st1 & [_ <-]%reads_Ok & Hr). apply rtx_bind_Ok in Hr as (outcome & st1 & [Hq <-]%reads_Ok & Hr).
  exists principal. split; [done|]. destruct outcome as [o'|]; [apply rtx_ret_Ok in Hr as [_ <-]; by eapply existing_answered|].
  do 9 (apply rtx_bind_Ok in Hr as (? & ? & _ & Hr)). destruct (negb start).
  - apply rtx_bind_Ok in Hr as (? & ? & _ & Hr). apply rtx_bind_Ok in Hr as (out & st3 & Hc & Hr). apply rtx_ret_Ok in Hr as [_ <-].
    unfold commit_readd_listing in Hc. cbv zeta in Hc. do 3 (apply rtx_bind_Ok in Hc as (? & ? & _ & Hc)). by eapply stored_answered.
  - apply rtx_bind_Ok in Hr as (? & ? & _ & Hr). by apply rtx_ret_Ok in Hr as [? _].
Qed.

Lemma complete_launch_answered principal request_id payload op started action now st o st' :
  complete_agent_launch principal request_id payload op started action now st = Ok (o, st') ->
  answered (command_key principal request_id) st'.
Proof.
  unfold complete_agent_launch. intros ([agent_id start] & st1 & [_ <-]%lift_Ok & Hr)%rtx_bind_Ok. cbv zeta in Hr.
  apply rtx_bind_Ok in Hr as (? & st1 & [_ <-]%lift_Ok & Hr). apply rtx_bind_Ok in Hr as (? & st1 & [_ <-]%reads_Ok & Hr).
  apply rtx_bind_Ok in Hr as (outcome & st1 & [Hq <-]%reads_Ok & Hr).
  destruct outcome as [o'|]; [apply rtx_ret_Ok in Hr as [_ <-]; by eapply existing_answered|].
  do 7 (apply rtx_bind_Ok in Hr as (? & ? & _ & Hr)). unfold commit_launch_result in Hr.
  apply rtx_bind_Ok in Hr as (? & ? & _ & Hr). by eapply stored_answered.
Qed.

Lemma prepare_resident_answered authority request_id payload action resume st o :
  prepare_resident_action authority request_id payload action resume st = Ok (ResidentOutcome o) ->
  exists principal, authority st = Ok principal /\ answered (command_key principal request_id) st.
Proof.
  unfold prepare_resident_action. intros (principal & Ha & Hr)%bind_Ok. exists principal. split; [done|].
  do 3 (apply bind_Ok in Hr as (? & _ & Hr)). apply bind_Ok in Hr as (decided & Hd & Hr). destruct decided as [plan|].
  - injection Hr as ->. destruct resume.
    + apply bind_Ok in Hd as (identity & Hi & Hd). destruct identity as [[]|]; try done.
      apply bind_Ok in Hd as (found & Hf & Hd). apply bind_Ok in Hd as (? & ->%ok_or_Ok & Hd). by eapply existing_answered.
    + apply bind_Ok in Hd as (found & Hf & Hd). destruct found as [o'|]; [by eapply inspect_answered|done].
  - exfalso. apply bind_Ok in Hr as (? & _ & Hr). destruct (_ && _)%bool; [done|]. by apply bind_Ok in Hr as (? & _ & ?).
Qed.

Lemma pause_answered authority request_id payload runtime now st o st' :
  Pause.execute_agent_pause authority request_id payload runtime now st = Ok (o, st') ->
  exists principal, authority st = Ok principal /\ answered (command_key principal request_id) st'.
Proof.
  unfold Pause.execute_agent_pause. intros (principal & st1 & [Ha <-]%reads_Ok & Hr)%rtx_bind_Ok. exists principal. split; [done|].
  do 2 (apply rtx_bind_Ok in Hr as (? & ? & _ & Hr)). cbv zeta in Hr. apply rtx_bind_Ok in Hr as (? & ? & _ & Hr).
  apply rtx_bind_Ok in Hr as (outcome & st2 & Hadm & Hr).
  destruct outcome as [o'|]; [apply rtx_ret_Ok in Hr as [_ <-]; by eapply admit_answered|].
  do 5 (apply rtx_bind_Ok in Hr as (? & ? & _ & Hr)). by eapply stored_answered.
Qed.

Lemma resume_answered authority request_id payload runtime now st o st' :
  resume_paused_agent authority request_id payload runtime now st = Ok (Some o, st') ->
  exists principal, authority st = Ok principal /\ answered (command_key principal request_id) st'.
Proof.
  unfold resume_paused_agent. intros (principal & st1 & [Ha <-]%reads_Ok & Hr)%rtx_bind_Ok. exists principal. split; [done|].
  do 2 (apply rtx_bind_Ok in Hr as (? & ? & _ & Hr)). cbv zeta in Hr. apply rtx_bind_Ok in Hr as (? & ? & _ & Hr).
  apply rtx_bind_Ok in Hr as (replay & st2 & [Hq <-]%reads_Ok & Hr).
  destruct replay; [apply rtx_ret_Ok in Hr as [_ <-]; by eapply inspect_answered|].
  apply rtx_bind_Ok in Hr as (s & ? & _ & Hr). destruct (negb _); [by apply rtx_ret_Ok in Hr as [? _]|].
  apply rtx_bind_Ok in Hr as (replay & st3 & Hadm & Hr).
  destruct replay; [apply rtx_ret_Ok in Hr as [_ <-]; by eapply admit_answered|].
  do 4 (apply rtx_bind_Ok in Hr as (? & ? & _ & Hr)). apply rtx_bind_Ok in Hr as (out & st4 & Hst & Hr).
  apply rtx_ret_Ok in Hr as [_ <-]. by eapply stored_answered.
Qed.

Lemma prepare_stop_answered authority request_id payload now st o st' :
  prepare_agent_stop generation authority request_id payload now st = Ok (StopPlanOutcome o, st') ->
  exists principal, authority st = Ok principal /\ answered (command_key principal request_id) st'.
Proof.
  unfold prepare_agent_stop. intros (principal & st1 & [Ha <-]%reads_Ok & Hr)%rtx_bind_Ok. exists principal. split; [done|].
  do 2 (apply rtx_bind_Ok in Hr as (? & ? & _ & Hr)). cbv zeta in Hr. apply rtx_bind_Ok in Hr as (? & ? & _ & Hr).
  apply rtx_bind_Ok in Hr as (outcome & st2 & [Hq <-]%reads_Ok & Hr).
  destruct outcome as [o'|]; [apply rtx_ret_Ok in Hr as [_ <-]; by eapply existing_answered|].
  do 3 (apply rtx_bind_Ok in Hr as (? & ? & _ & Hr)). destruct (negb _).
  { apply rtx_bind_Ok in Hr as (? & ? & _ & Hr). apply rtx_bind_Ok in Hr as (out & st4 & Hc & Hr). apply rtx_ret_Ok in Hr as [_ <-].
    unfold commit_already_stopped in Hc. apply rtx_bind_Ok in Hc as (? & ? & _ & Hc). by eapply stored_answered. }
  destruct (is_external _); [apply rtx_bind_Ok in Hr as (? & ? & _ & Hr); by apply rtx_ret_Ok in Hr as [? _]|].
  apply rtx_bind_Ok in Hr as (? & ? & _ & Hr). destruct (negb _).
  { exfalso. apply lift_Ok in Hr as [Hr _]. unfold stop_plan in Hr. by repeat (case_match; simplify_eq/=; res_inv). }
  apply rtx_bind_Ok in Hr as (exited & ? & _ & Hr). apply rtx_bind_Ok in Hr as (? & ? & _ & Hr).
  destruct exited; [by apply rtx_ret_Ok in Hr as [? _]|]. apply lift_Ok in Hr as [Hr _]. by apply fmap_Ok in Hr as (? & _ & ?).
Qed.

Lemma finalize_stop_answered principal request_id payload now st m st' :
  finalize_agent_stop principal request_id payload now st = Ok (m, st') -> answered (command_key principal request_id) st'.
Proof.
  unfold finalize_agent_stop. cbv zeta. intros (? & st1 & [_ <-]%reads_Ok & Hr)%rtx_bind_Ok.
  apply rtx_bind_Ok in Hr as (outcome & st1 & [Hq <-]%reads_Ok & Hr).
  destruct outcome as [o|]; [apply rtx_ret_Ok in Hr as [_ <-]; by eapply existing_answered|].
  apply rtx_bind_Ok in Hr as ([room settings] & st1 & [_ <-]%reads_Ok & Hr). apply rtx_bind_Ok in Hr as (o & st2 & Hf & Hr).
  apply rtx_bind_Ok in Hr as (scheduled & st3 & Ha & Hr). apply rtx_ret_Ok in Hr as [_ <-].
  unfold answered. rewrite (ca_commands _ _ (assign_pending_in_calm _ _ _ _ _ _ Ha)).
  unfold finalize_stop_in in Hf. apply rtx_bind_Ok in Hf as (? & ? & _ & Hf). cbv zeta in Hf. do 3 (apply rtx_bind_Ok in Hf as (? & ? & _ & Hf)).
  apply rtx_bind_Ok in Hf as ([public events] & ? & _ & Hf). by eapply stored_answered.
Qed.

Definition create_outcome (plan : AgentCreateStartPlan) : bool := match plan with CreateOutcome _ => true | _ => false end.

Lemma replay_create_answered authority request_id payload st o :
  replay_agent_create authority request_id payload st = Ok (Some o) ->
  exists principal, authority st = Ok principal /\ answered (command_key principal request_id) st.
Proof.
  unfold replay_agent_create. intros (principal & Ha & Hr)%bind_Ok. exists principal. split; [done|].
  do 2 (apply bind_Ok in Hr as (? & _ & Hr)). by eapply inspect_answered.
Qed.
Lemma create_answered authorized authority request_id payload draft now st o st' :
  Create.execute_agent_create authorized authority request_id payload draft now st = Ok (o, st') ->
  exists principal, authority st = Ok principal /\ answered (command_key principal request_id) st'.
Proof.
  unfold Create.execute_agent_create. intros (? & st1 & [_ <-]%lift_Ok & Hr)%rtx_bind_Ok.
  apply rtx_bind_Ok in Hr as (principal & st1 & [Ha <-]%reads_Ok & Hr). exists principal. split; [done|].
  do 2 (apply rtx_bind_Ok in Hr as (? & ? & _ & Hr)). cbv zeta in Hr. apply rtx_bind_Ok in Hr as (outcome & ? & Hadm & Hr).
  destruct outcome; [apply rtx_ret_Ok in Hr as [_ <-]; by eapply admit_answered|].
  apply rtx_bind_Ok in Hr as (? & ? & _ & Hr). by eapply stored_answered.
Qed.
Lemma inspect_create_answered authority request_id payload st plan :
  inspect_agent_create_start generation authority request_id payload st = Ok plan -> create_outcome plan = true ->
  exists principal, authority st = Ok principal /\ answered (command_key principal request_id) st.
Proof.
  unfold inspect_agent_create_start. intros (principal & Ha & Hr)%bind_Ok Hplan. exists principal. split; [done|].
  apply bind_Ok in Hr as (? & _ & Hr). cbv zeta in Hr. apply bind_Ok in Hr as (? & _ & Hr). apply bind_Ok in Hr as (outcome & Hq & Hr).
  destruct outcome; [by eapply existing_answered|]. apply bind_Ok in Hr as ([] & _ & [= <-]); done.
Qed.
Lemma prepare_create_answered authorized authority request_id payload draft now st plan st' :
  prepare_agent_create_start generation authorized authority request_id payload draft now st = Ok (plan, st') ->
  create_outcome plan = true -> exists principal, authority st = Ok principal /\ answered (command_key principal request_id) st'.
Proof.
  unfold prepare_agent_create_start. intros (? & st1 & [_ <-]%lift_Ok & Hr)%rtx_bind_Ok Hplan.
  apply rtx_bind_Ok in Hr as (principal & st1 & [Ha <-]%reads_Ok & Hr). exists principal. split; [done|].
  apply rtx_bind_Ok in Hr as (? & ? & _ & Hr). cbv zeta in Hr. apply rtx_bind_Ok in Hr as (? & ? & _ & Hr).
  apply rtx_bind_Ok in Hr as (outcome & ? & [Hq <-]%reads_Ok & Hr).
  destruct outcome; [apply rtx_ret_Ok in Hr as [_ <-]; by eapply existing_answered|]. exfalso.
  apply rtx_bind_Ok in Hr as (effect & ? & _ & Hr). destruct effect; [by apply rtx_ret_Ok in Hr as [<- _]|].
  apply rtx_bind_Ok in Hr as (? & ? & _ & Hr). cbv zeta in Hr. apply rtx_bind_Ok in Hr as (? & ? & _ & Hr). by apply rtx_ret_Ok in Hr as [<- _].
Qed.
Lemma complete_create_answered principal request_id payload operation started now st commit st' :
  complete_agent_create_start principal request_id payload operation started now st = Ok (commit, st') ->
  answered (command_key principal request_id) st'.
Proof.
  unfold complete_agent_create_start. cbv zeta. intros (? & st1 & _ & Hr)%rtx_bind_Ok. apply rtx_bind_Ok in Hr as (? & ? & _ & Hr).
  apply rtx_bind_Ok in Hr as (outcome & ? & [Hq <-]%reads_Ok & Hr).
  destruct outcome; [apply rtx_ret_Ok in Hr as [_ <-]; by eapply existing_answered|].
  do 12 (apply rtx_bind_Ok in Hr as (? & ? & _ & Hr)). apply rtx_bind_Ok in Hr as (? & ? & _ & Hr).
  apply rtx_bind_Ok in Hr as (? & ? & Hst & Hr). apply rtx_ret_Ok in Hr as [_ <-]. by eapply stored_answered.
Qed.

(** ** The programs of the commands *)

Lemma answers_ret {A} key (good : A -> bool) a : good a = false -> answers key good (Ret a).
Proof. intros Ha st. apply wp_ret. intros st' _. by rewrite Ha. Qed.
Lemma answers_safe {A} key (p : prog A) : safe p -> answers key (fun _ => false) p.
Proof. intros Hp st. eapply wp_mono; [|exact (Hp st)]. done. Qed.
Lemma answered_safe {A} key (good : A -> bool) p st :
  safe p -> answered key st -> wp (fun a st' => good a = true -> answered key st') None p st.
Proof.
  intros Hp Ha. eapply wp_mono; [|exact (wp_frame _ _ _ _ _ (answered_stable key) Ha (Hp st))]. by intros a st' _ [_ ?] _.
Qed.

(** After a good result what follows only has to be safe. *)
Lemma answers_bind {A B} key (good : A -> bool) (good' : B -> bool) (p : prog A) (k : A -> prog B) :
  answers key good p -> (forall a, good a = true -> safe (k a)) -> (forall a, good a = false -> answers key good' (k a)) ->
  answers key good' (prog_bind p k).
Proof.
  intros Hp Hgood Hbad st. apply wp_bind. eapply wp_mono; [|exact (Hp st)]. intros a st' _ Ha. simpl in Ha.
  destruct (good a) eqn:E; [apply answered_safe; [by apply Hgood|by apply Ha]|by apply Hbad].
Qed.
Lemma answers_after {A B} key (good : B -> bool) (p : prog A) (k : A -> prog B) :
  safe p -> (forall a, answers key good (k a)) -> answers key good (prog_bind p k).
Proof. intros Hp Hk. by apply (answers_bind key (fun _ => false)); [apply answers_safe| |]. Qed.
Lemma answers_is_safe {A} key (good : A -> bool) p : answers key good p -> safe p.
Proof. intros Hp st. by eapply wp_mono; [|exact (Hp st)]. Qed.

(** A result of the store that is good. *)
Definition ok_with {E A} (good : A -> bool) (r : result E A) : bool := match r with Ok a => good a | Err _ => false end.
Lemma answers_commits {B} key (good : B -> bool) (t : instant -> rtx B) :
  transaction t -> (forall now st b st', t now st = Ok (b, st') -> good b = true -> answered key st') ->
  answers key (ok_with good) (commits t).
Proof. intros Ht Hg st. apply (wp_commits _ _ _ Ret); [done| |done]. intros now st1 b st2 _ Hr. apply wp_ret. intros st' Hl Hb. eapply answered_stable; [exact Hl|by eapply Hg]. Qed.
Lemma answers_looks {B} key (good : B -> bool) (f : RoomStore -> tx B) :
  (forall st b, f st = Ok b -> good b = true -> answered key st) -> answers key (ok_with good) (looks f).
Proof. intros Hg st. apply (wp_looks _ _ _ Ret); [|done]. intros b st1 _ Hr. apply wp_ret. intros st' Hl Hb. eapply answered_stable; [exact Hl|by eapply Hg]. Qed.

(** A start right after its authorization. *)
Lemma answers_authorized {A B} key (good : A -> bool) (t : instant -> rtx B) (k : tx B -> prog A) :
  transaction t -> (forall e, answers key good (k (Err e))) ->
  (forall b, answers key good (k (Ok b)) \/ exists session start, k (Ok b) = Call (StartReserved session) start /\
    (forall r, answers key good (start r)) /\
    forall now st st', t now st = Ok (b, st') -> authorizes_start (d_lifecycle_intent_id session) st st') ->
  answers key good (Transact t k).
Proof.
  intros Ht Herr Hok st. apply wp_transact; [|by intros; apply Herr]. intros now st1 b st2 Hl Hr.
  split; [eapply Ht; [apply Hl|exact Hr]|]. destruct (Hok b) as [Hb|(session & start & -> & Hs & Hg)]; [exists None; split; [done|apply Hb]|].
  exists (Some (d_lifecycle_intent_id session)). split; [by eapply Hg|]. apply wp_call; [by right|done|]. intros r st3 _. apply Hs.
Qed.

Lemma start_effect_operation authority request_id payload operation action handle owner lease st effect st' :
  authorize_agent_start_effect generation authority request_id payload operation action handle owner lease st = Ok (effect, st') ->
  authorizes_start (d_lifecycle_intent_id (se_session effect)) st st'.
Proof.
  intros Hr. assert (d_lifecycle_intent_id (se_session effect) = operation) as ->; [|left; by do 9 eexists].
  unfold authorize_agent_start_effect in Hr. apply rtx_bind_Ok in Hr as (? & ? & _ & Hr). apply rtx_bind_Ok in Hr as ([? ?] & ? & _ & Hr).
  cbv zeta in Hr. do 4 (apply rtx_bind_Ok in Hr as (? & ? & _ & Hr)).
  apply rtx_bind_Ok in Hr as (s & ? & [(_ & _ & Hi)%start_effect_intent _]%lift_Ok & Hr).
  apply rtx_bind_Ok in Hr as (? & ? & _ & Hr). apply rtx_ret_Ok in Hr as [<- _]. simpl. by injection Hi as _ -> _.
Qed.
Lemma create_effect_operation authority request_id payload operation handle owner lease st effect st' :
  authorize_agent_create_start_effect generation authority request_id payload operation handle owner lease st = Ok (Ok effect, st') ->
  authorizes_start (d_lifecycle_intent_id (ce_session effect)) st st'.
Proof.
  intros Hr. assert (d_lifecycle_intent_id (ce_session effect) = operation) as ->; [|right; by do 8 eexists].
  unfold authorize_agent_create_start_effect in Hr. apply rtx_bind_Ok in Hr as (? & ? & _ & Hr). cbv zeta in Hr.
  do 8 (apply rtx_bind_Ok in Hr as (? & ? & _ & Hr)).
  apply rtx_bind_Ok in Hr as (s & ? & [(_ & _ & Hi)%start_effect_intent _]%lift_Ok & Hr).
  apply rtx_bind_Ok in Hr as (? & ? & _ & Hr). apply rtx_ret_Ok in Hr as [Heff _].
  apply bind_Ok in Heff as (? & _ & [= <-]). simpl. by injection Hi as _ -> _.
Qed.

Lemma recover_exact_safe principal request_id action payload :
  safe (recover_exact_lifecycle_command generation principal request_id action payload).
Proof. unfold recover_exact_lifecycle_command. safe_steps. Qed.
#[local] Hint Resolve recover_exact_safe : safe.
Lemma progress_safe room_id execution : safe (progress_execution room_id execution).
Proof. unfold progress_execution. safe_steps. Qed.
#[local] Hint Resolve progress_safe : safe.

Lemma answers_recovery {A} key (good : A -> bool) (prepare : prog (tx A)) principal request_id action payload :
  answers key (ok_with good) prepare -> answers key (ok_with good) (with_recovery generation prepare principal request_id action payload).
Proof.
  intros Hp. unfold with_recovery. apply (answers_bind key (ok_with good)); [done| |].
  - intros [a|e]; [|done]. intros _. safe_steps.
  - intros [a|e] Ha; [by apply answers_ret|]. destruct (unconfirmed_effect e); [|by apply answers_ret].
    apply answers_after; [safe_steps|]. intros [[]|]; [done|by apply answers_ret..].
Qed.
Lemma answers_try {E A B} key (good : B -> bool) (r : result E A) (k : A -> prog (result E B)) :
  (forall a, answers key (ok_with good) (k a)) -> answers key (ok_with good) (try_prog r k).
Proof. intros Hk. destruct r; [apply Hk|by apply answers_ret]. Qed.

Section commands.
Variable command : RoomCommand.
Hypothesis Hcommand : command_ok command.
#[local] Abbreviation principal := (cmd_principal command).
#[local] Abbreviation authority := (cmd_authority command).
#[local] Abbreviation request_id := (cmd_request_id command).
#[local] Abbreviation payload := (cmd_payload command).
#[local] Abbreviation action := (cmd_action command).
#[local] Abbreviation key := (command_key (cmd_principal command) (cmd_request_id command)).

Lemma resolved_key st principal' : authority st = Ok principal' -> command_key principal' request_id = key.
Proof. apply Hcommand. Qed.
Lemma resolved_answered st st' :
  (exists principal', authority st = Ok principal' /\ answered (command_key principal' request_id) st') -> answered key st'.
Proof. intros (principal' & Ha & Hk). by rewrite <- (resolved_key st principal' Ha). Qed.

Definition good_reply (execution : CommandExecution) : bool := is_ok (ex_reply execution).
#[local] Abbreviation replies p := (answers key good_reply p).

Lemma replies_progress execution room_id : good_reply execution = false -> replies (progress_execution room_id execution).
Proof.
  intros He. unfold progress_execution. apply answers_after; [safe_steps|]. intros [[commit|]|e]; [by apply answers_ret..|].
  apply answers_after; [safe_steps|]. intros [events|]; by apply answers_ret.
Qed.

(** Walks through a program none of whose results is good. *)
Ltac refuse_step :=
  match goal with
  | |- answers _ _ (Ret _) => apply answers_ret; reflexivity
  | |- answers _ _ (prog_bind _ _) => apply answers_after; [solve [safe_steps]|intros ?]
  | |- answers _ _ (Ret (match ?x with _ => _ end)) => destruct x
  | |- answers _ _ (match ?x with _ => _ end) => destruct x
  end.
Ltac refuse := repeat refuse_step.

Lemma pre_effect_failure_replies effect reason : replies (record_agent_start_pre_effect_failure command effect reason).
Proof. unfold record_agent_start_pre_effect_failure. refuse. Qed.
Lemma start_failure_replies effect error : replies (record_agent_start_failure command effect error).
Proof. unfold record_agent_start_failure. refuse. Qed.
Lemma complete_start_replies effect started : replies (complete_agent_start command effect started).
Proof.
  unfold complete_agent_start. apply (answers_bind key (ok_with (fun _ => true))).
  - apply answers_commits; [auto with transactions|]. intros now st b st' Hr _. by eapply complete_launch_answered.
  - intros [outcome|e]; [|done]. intros _. unfold progressed_execution. safe_steps.
  - intros [outcome|e]; [done|]. intros _. refuse.
Qed.
Lemma run_start_replies effect : replies (run_agent_start generation command effect).
Proof.
  unfold run_agent_start. apply answers_after; [safe_steps|]. intros [reservation|e]; [|apply pre_effect_failure_replies].
  apply answers_authorized; [auto with transactions| |].
  - intros e. apply answers_after; [safe_steps|]. intros _. destruct (ended_session_authority e); [apply pre_effect_failure_replies|refuse].
  - intros authorized. right. eexists _, _. split; [done|]. split; [|intros _ st st'; apply start_effect_operation].
    intros [started|e]; [apply complete_start_replies|apply start_failure_replies].
Qed.

Definition resident_outcome (plan : AgentResidentPlan) : bool := match plan with ResidentOutcome _ => true | _ => false end.
Definition good_option (execution : option CommandExecution) : bool := match execution with Some e => good_reply e | None => false end.

Lemma paused_resume_replies : answers key good_option (execute_paused_resume command).
Proof.
  unfold execute_paused_resume. apply (answers_bind key (ok_with resident_outcome)).
  { apply answers_looks. intros st [] Hr; try done. intros _. eapply (resolved_answered st), prepare_resident_answered, Hr. }
  { intros [[]|]; try done. intros _. unfold progressed_execution. safe_steps. }
  intros [[outcome|session|]|e]; try done; intros _; [|by apply answers_ret..].
  apply answers_after; [safe_steps|]. intros [runtime|e]; [|by apply answers_ret].
  apply (answers_bind key (ok_with (fun o => bool_decide (is_Some o)))).
  - apply answers_commits; [auto with transactions|]. intros now st b st' Hr Hb. apply bool_decide_eq_true in Hb as [o ->].
    by eapply (resolved_answered st), resume_answered.
  - intros [[]|]; try done. intros _. unfold progressed_execution. safe_steps.
  - intros [[outcome|]|e]; try done; intros _; by apply answers_ret.
Qed.

Lemma pause_replies : replies (LifecycleRuntime.execute_agent_pause command).
Proof.
  unfold LifecycleRuntime.execute_agent_pause. apply (answers_bind key (ok_with resident_outcome)).
  { apply answers_looks. intros st [] Hr; try done. intros _. eapply (resolved_answered st), prepare_resident_answered, Hr. }
  { by intros [[]|]. }
  intros [[outcome|session|]|e]; try done; intros _; [|refuse..].
  apply answers_after; [safe_steps|]. intros [runtime|e]; [|refuse].
  apply (answers_bind key (ok_with (fun _ => true))).
  - apply answers_commits; [auto with transactions|]. intros now st b st' Hr _. by eapply (resolved_answered st), pause_answered.
  - intros [?|?]; [|done]. intros _. safe_steps.
  - intros [?|?]; [done|]. intros _. refuse.
Qed.

Definition start_outcome (plan : AgentStartPlan) : bool := match plan with StartOutcome _ => true | _ => false end.
Lemma start_replies : replies (execute_agent_start generation command).
Proof.
  unfold execute_agent_start. apply (answers_bind key good_option).
  { destruct (str_eqb action RESUME); [apply paused_resume_replies|by apply answers_ret]. }
  { intros [execution|]; [|done]. intros _. safe_steps. }
  intros [execution|]; [intros He; by apply answers_ret|]. intros _.
  apply (answers_bind key (ok_with start_outcome)).
  - apply answers_recovery, answers_commits; [by apply prepare_launch_transaction|].
    intros now st [] st' Hr; try done. intros _. by eapply (resolved_answered st), prepare_launch_answered.
  - intros [[]|]; try done. intros _. unfold progressed_execution. safe_steps.
  - intros [[]|]; try done; intros _; apply run_start_replies.
Qed.

Lemma finalize_stop_replies : replies (finalize_stop command).
Proof.
  unfold finalize_stop. apply (answers_bind key (ok_with (fun _ => true))).
  - apply answers_commits; [auto with transactions|]. intros now st m st' Hr _. by eapply finalize_stop_answered.
  - intros [m|e]; [|done]. intros _. safe_steps.
  - intros [m|e]; [done|]. intros _. refuse.
Qed.
Lemma managed_stop_replies effect : replies (execute_managed_stop generation command effect).
Proof.
  unfold execute_managed_stop. apply answers_after; [safe_steps|]. intros [authorized|e].
  - apply answers_after; [safe_steps|]. intros [?|e]; [|refuse]. apply answers_after; [safe_steps|].
    intros [?|e]; [|refuse]. apply answers_after; [safe_steps|]. intros _. apply finalize_stop_replies.
  - unfold record_agent_stop_authorization_failure. refuse.
Qed.
Definition stop_outcome (plan : AgentStopPlan) : bool := match plan with StopPlanOutcome _ => true | _ => false end.
Lemma stop_replies : replies (execute_agent_stop generation command).
Proof.
  unfold execute_agent_stop. apply (answers_bind key (ok_with stop_outcome)).
  - apply answers_recovery, answers_commits; [by apply prepare_stop_transaction|].
    intros now st [] st' Hr; try done. intros _. by eapply (resolved_answered st), prepare_stop_answered.
  - by intros [[]|].
  - intros [[]|]; try done; intros _; auto using finalize_stop_replies, managed_stop_replies.
Qed.

(** *** Creation *)

Definition good_create (execution : AgentCreateExecution) : bool := is_ok (cx_reply execution).
#[local] Abbreviation creates p := (answers key (ok_with good_create) p).

Lemma fail_before_created_replies effect reason : creates (fail_created_agent_start_before_effect command effect reason).
Proof. unfold fail_created_agent_start_before_effect. refuse. Qed.
Lemma fail_created_replies effect error : creates (fail_created_agent_start command effect error).
Proof. unfold fail_created_agent_start. refuse. Qed.
Lemma complete_created_replies effect started : creates (complete_created_agent_start command effect started).
Proof.
  unfold complete_created_agent_start. apply (answers_bind key (ok_with (fun _ => true))).
  - apply answers_commits; [auto with transactions|]. intros now st c st' Hr _. by eapply complete_create_answered.
  - intros [c|e]; [|done]. intros _. safe_steps.
  - intros [c|e]; [done|]. intros _. refuse.
Qed.
Lemma run_created_replies effect : creates (run_created_start generation command effect).
Proof.
  unfold run_created_start. apply answers_after; [safe_steps|]. intros [reservation|e]; [|apply fail_before_created_replies].
  assert (Hcancel : forall e, creates (outside (CancelStartReservation (s_room_id (d_public (ce_session effect)))
      (s_session_id (d_public (ce_session effect))) reservation) ;;
    match ended_session_authority e with
    | Some reason => fail_created_agent_start_before_effect command effect reason
    | None => Ret (Err (unresolved_command e))
    end)%prog).
  { intros e. apply answers_after; [safe_steps|]. intros _. destruct (ended_session_authority e); [apply fail_before_created_replies|refuse]. }
  apply answers_authorized; [auto with transactions|apply Hcancel|].
  intros [authorized|e]; [right|left; apply Hcancel].
  eexists _, _. split; [done|]. split; [|intros _ st st'; apply create_effect_operation].
  intros [started|e]; [apply complete_created_replies|apply fail_created_replies].
Qed.
Lemma select_creation_safe : safe (select_creation command).
Proof. unfold select_creation. safe_steps. Qed.
Lemma create_plan_replies : answers key (ok_with create_outcome) (resolve_create_start_plan generation command).
Proof.
  unfold resolve_create_start_plan. apply (answers_bind key (ok_with create_outcome)).
  { apply answers_recovery, answers_looks. intros st plan Hr Hplan. by eapply (resolved_answered st), inspect_create_answered. }
  { by intros [[]|]. }
  intros [[outcome| |effect]|e]; try done; intros _.
  apply answers_after; [apply select_creation_safe|]. intros r. apply answers_try. intros selection.
  destruct (negb _); [by apply answers_ret|]. apply answers_after; [safe_steps|]. intros authorized.
  apply (answers_bind key (ok_with create_outcome)).
  - apply answers_commits; [by apply prepare_create_transaction|]. intros now st plan st' Hr Hplan.
    by eapply (resolved_answered st), prepare_create_answered.
  - intros [plan|]; [|done]. intros _. safe_steps.
  - intros [plan|] Hplan; by apply answers_ret.
Qed.
Lemma create_start_replies : creates (execute_agent_create_start generation command).
Proof.
  unfold execute_agent_create_start. apply (answers_bind key (ok_with create_outcome)); [apply create_plan_replies| |].
  - by intros [[]|].
  - intros [[]|]; try done; intros _; cbn [try_prog].
    apply answers_after; [destruct (ce_newly_committed_events _); safe_steps|].
    intros [?|e]; [apply run_created_replies|by apply answers_ret].
Qed.
Lemma create_replies : creates (LifecycleRuntime.execute_agent_create generation command).
Proof.
  unfold LifecycleRuntime.execute_agent_create. destruct (creation_start_requested payload) as [[]|e];
    [apply create_start_replies| |by apply answers_ret].
  apply (answers_bind key (ok_with (fun o => bool_decide (is_Some o)))).
  { apply answers_looks. intros st o Hr Ho. apply bool_decide_eq_true in Ho as [o' ->]. by eapply (resolved_answered st), replay_create_answered. }
  { by intros [[]|]. }
  intros [[]|]; try done; intros _.
  apply answers_after; [apply select_creation_safe|]. intros r. apply answers_try. intros selection.
  apply answers_after; [safe_steps|]. intros authorized. apply (answers_bind key (ok_with (fun _ => true))).
  - apply answers_commits; [auto with transactions|]. intros now st o st' Hr _. by eapply (resolved_answered st), create_answered.
  - intros [o|]; [|done]. intros _. safe_steps.
  - intros [o|]; [done|]. intros _. by apply answers_ret.
Qed.
Lemma create_command_replies : replies (execute_agent_create_command generation command).
Proof.
  unfold execute_agent_create_command. apply (answers_bind key (ok_with good_create)); [apply create_replies| |].
  - intros [created|e]; [|done]. intros _. safe_steps.
  - intros [created|e] Hc; [|by apply answers_ret]. simpl in Hc. cbv zeta. unfold good_create in Hc.
    destruct (cx_advance_ordered_floor created); [by apply replies_progress|by apply answers_ret].
Qed.
End commands.
End server.

(** ** The server *)

Section jobs.
Context `{UnicodeGeneralCategory, CharCase, UnicodeCase, Caseless, Sha256, Chrono, Entropy, PersonaLibrary, UuidCrate, ChronoRange,
  AttendeeParent, RequestSerde, RegexCrate, ByteDigest, JsonText, PersonaSummaries, SessionSerde}.
#[local] Open Scope prog_scope.

(** What a server runs: the commands of rooms, each of the server it came to, the reconciliation before and after
    admission, the checkpoint of a shutdown and the cleanup of a removal. *)
Inductive LifecycleJob : Type :=
| JobStart (generation : str) (command : RoomCommand) (ok : command_ok command)
| JobPause (command : RoomCommand) (ok : command_ok command)
| JobStop (generation : str) (command : RoomCommand) (ok : command_ok command)
| JobCreate (generation : str) (command : RoomCommand) (ok : command_ok command)
| JobStartup
| JobScan (cursor : option (str * str))
| JobShutdown (stopped : ProviderRuntimeGone)
| JobCleanup (room_id session_id : str).

Definition lifecycle_reply (j : LifecycleJob) : Type :=
  match j with
  | JobStart _ _ _ | JobPause _ _ | JobStop _ _ _ | JobCreate _ _ _ => CommandExecution
  | JobStartup => tx (nat * list AgentTurnAssignment)
  | JobScan _ => option (str * str)
  | JobShutdown _ => tx unit
  | JobCleanup _ _ => tx (option AgentTurnCommit)
  end.
Definition lifecycle_program (j : LifecycleJob) : prog (lifecycle_reply j) :=
  match j with
  | JobStart generation command _ => execute_agent_start generation command
  | JobPause command _ => LifecycleRuntime.execute_agent_pause command
  | JobStop generation command _ => execute_agent_stop generation command
  | JobCreate generation command _ => execute_agent_create_command generation command
  | JobStartup => reconcile_runtime_ownership
  | JobScan cursor => scan_lifecycle_page cursor
  | JobShutdown stopped => checkpoint_confirmed_shutdown stopped
  | JobCleanup room_id session_id => attempt_cleanup room_id session_id
  end.
Definition lifecycle_jobs : Jobs := {| Job := LifecycleJob; job_reply := lifecycle_reply; job_program := lifecycle_program |}.
#[local] Existing Instance lifecycle_jobs.

(** The execution a command ended with. *)
Definition ended_with (command : RoomCommand) (rest : prog CommandExecution) : option (RoomCommand * CommandExecution) :=
  match rest with Ret execution => Some (command, execution) | _ => None end.
Definition command_ended (task : Task) : option (RoomCommand * CommandExecution) :=
  match task with
  | MkTask j rest =>
      match j return prog (lifecycle_reply j) -> option (RoomCommand * CommandExecution) with
      | JobStart _ command _ | JobPause command _ | JobStop _ command _ | JobCreate _ command _ => ended_with command
      | _ => fun _ => None
      end rest
  end.

(** What is known when a job ended: the request of a command that succeeded is answered in the store. *)
Definition command_replied (command : RoomCommand) (execution : CommandExecution) (st : RoomStore) : Prop :=
  good_reply execution = true -> answered (command_key (cmd_principal command) (cmd_request_id command)) st.
Definition lifecycle_post (j : LifecycleJob) : lifecycle_reply j -> RoomStore -> Prop :=
  match j with
  | JobStart _ command _ | JobPause command _ | JobStop _ command _ | JobCreate _ command _ => command_replied command
  | _ => fun _ _ => True
  end.

Hypothesis bytes_inj : forall a b, sha256_bytes a = sha256_bytes b -> a = b.
Hypothesis digest_inj : forall a b, sha256_hex a = sha256_hex b -> a = b.
#[local] Instance jobs_protocol : Protocol := lifecycle_protocol bytes_inj digest_inj.

Lemma lifecycle_job_wp j st : wp (lifecycle_post j) None (lifecycle_program j) st.
Proof.
  exact (match j return wp (lifecycle_post j) None (lifecycle_program j) st with
         | JobStart g c ok => start_replies bytes_inj digest_inj g c ok st
         | JobPause c ok => pause_replies bytes_inj digest_inj c ok st
         | JobStop g c ok => stop_replies bytes_inj digest_inj g c ok st
         | JobCreate g c ok => create_command_replies bytes_inj digest_inj g c ok st
         | JobStartup => startup_safe bytes_inj digest_inj st
         | JobScan cursor => scan_safe bytes_inj digest_inj cursor st
         | JobShutdown stopped => checkpoint_safe bytes_inj digest_inj stopped st
         | JobCleanup room_id session_id => attempt_cleanup_safe bytes_inj digest_inj room_id session_id st
         end).
Qed.

(** At most [n] more commits of a list authorize the start of an operation than observe it again. *)
Definition authorized_at_most (n : nat) (operation : str) (l : list (RoomStore * RoomStore)) : Prop :=
  forall authorized, sublist authorized l -> Forall (fun c => authorizes_start operation c.1 c.2) authorized ->
  exists observed, sublist observed l /\ Forall (fun c => observed_again operation c.1 c.2) observed /\
    (length authorized <= n + length observed)%nat.

(** In a chain there is at most one more, and none when the effect of the operation is behind. *)
Lemma authorized_in_chain operation st l st' :
  chain st l st' -> lifecycle_ok st ->
  authorized_at_most 1 operation l /\
  forall key action, key_ok key -> field_ok action -> operation = key_operation key action -> behind key action st ->
    authorized_at_most 0 operation l.
Proof.
  induction 1 as [st|st st1 st' l Hstep _ IH]; intros Hok.
  { split; [|intros _ _ _ _ _ _]; intros authorized ->%sublist_nil_r _; exists []; (split_and!; [done|done|simpl; lia]). }
  destruct (IH (step_lifecycle_ok bytes_inj digest_inj _ _ Hstep Hok)) as [HA HB]. split.
  - intros authorized [Hsub|(authorized' & -> & Hsub)]%sublist_cons_r Hall.
    + destruct (HA _ Hsub Hall) as (observed & ? & ? & ?). exists observed. split_and!; [by constructor|done..].
    + apply Forall_cons in Hall as [Ha Hall].
      destruct (authorized_behind bytes_inj digest_inj operation st st1 (or_introl Ha) Hok) as (key & action & Hk & Hf & E & Hb).
      destruct (HB _ _ Hk Hf E Hb _ Hsub Hall) as (observed & ? & ? & ?). exists observed. split_and!; [by constructor|done|simpl; lia].
  - intros key action Hk Hf -> Hb authorized [Hsub|(authorized' & -> & _)]%sublist_cons_r Hall.
    + destruct (behind_step bytes_inj digest_inj _ _ _ _ Hstep Hb) as [Hb1|Ho].
      * destruct (HB _ _ Hk Hf eq_refl Hb1 _ Hsub Hall) as (observed & ? & ? & ?). exists observed. split_and!; [by constructor|done..].
      * destruct (HA _ Hsub Hall) as (observed & ? & ? & ?). exists ((st, st1) :: observed).
        split_and!; [by constructor|by constructor|simpl; lia].
    + apply Forall_cons in Hall as [Ha _]. by destruct (behind_not_authorized bytes_inj key action st st1 Hk Hf Hb (or_introl Ha)).
Qed.

(** C13: in every run of a server, or of several one after another, in which lifecycle
    commands, creations, reconciliations, shutdowns and cleanups interleave in any order,
    fail and are lost at any point, the start of a provider runtime for one operation is
    asked of the provider at most once more than that operation was observed again. *)
Theorem server_starts_once_per_observation (operation : str) (start st : RoomStore) (trace : list Event) (tasks : list Task)
    (Hok : lifecycle_ok start) (Hrun : server_run (start, []) trace (st, tasks)) :
  exists observed, sublist observed (commits_of trace) /\ Forall (fun c => observed_again operation c.1 c.2) observed /\
    (length (calls_of operation trace) <= 1 + length observed)%nat.
Proof.
  destruct (@calls_are_granted jobs_protocol lifecycle_jobs lifecycle_post (fun j st _ => lifecycle_job_wp j st) _ _ _ _ operation Hok Hrun) as
    [Hchain (l & Hsub & Hall & Hlen)].
  destruct (proj1 (authorized_in_chain operation _ _ _ Hchain Hok) l Hsub Hall) as (observed & Ho & Hall' & Hle).
  exists observed. split_and!; [done..|lia].
Qed.

(** C14: when a lifecycle command reports success, whatever ran beside it, its request is
    answered in the store. *)
Theorem server_success_is_stored (start st : RoomStore) (trace : list Event) (tasks : list Task) (task : Task)
    (command : RoomCommand) (execution : CommandExecution) (outcome : CommandOutcome)
    (Hok : lifecycle_ok start) (Hrun : server_run (start, []) trace (st, tasks)) (Htask : task ∈ tasks)
    (Hended : command_ended task = Some (command, execution)) (Hreply : ex_reply execution = Ok outcome) :
  st_commands st !! command_key (cmd_principal command) (cmd_request_id command) <> None.
Proof.
  pose proof (fun r => @replies_are_kept jobs_protocol lifecycle_jobs lifecycle_post (fun j st _ => lifecycle_job_wp j st) _ _ _ _ task r Hok Hrun Htask) as Hpost.
  assert (Hgood : good_reply execution = true) by (unfold good_reply; by rewrite Hreply).
  destruct task as [[] rest]; simpl in *; try done; destruct rest; try done; injection Hended as <- <-; by apply (Hpost _ eq_refl).
Qed.
End jobs.

(** ** Concrete inputs *)

#[local] Existing Instances ascii_general_category ascii_uppercase ascii_unicode_case plain_case identity_digest plain_clock demo_entropy
  demo_persona accept_uuid every_instant no_parent demo_serde no_matches demo_json demo_summaries demo_session_serde identity_bytes.

(** A provider that starts what it is asked to, and finds gone what it is asked to observe. *)
Definition demo_error : ProviderAdapterError := MkAdapterError (u "provider_error") (u "No.") false [] [] [] false.
Definition demo_provider (B : Type) (c : Outside B) : B :=
  match c with
  | ReserveStart _ => Ok (MkStartReservation (u "h-agent-1") (u "o") (u "l"))
  | StartReserved _ => Ok (MkProviderStarted (u "h-agent-1") (u "o") (u "l") (u "p") false false true)
  | StopProvider _ _ _ _ _ => Ok tt
  | ProveResidentRuntime _ => Ok (MkProviderResident (u "h-agent-1") (u "o") (u "l") (u "profile"))
  | Observe _ => ProviderGone
  | ObserveWithin _ => Some ProviderGone
  | ObserveUnordered sessions => imap (fun i _ => (i, ProviderGone)) sessions
  | RetainedTurnResult _ => None
  | RequireRetainedInterrupt _ _ => Err demo_error
  | BeginExactTurn _ => Err demo_error
  | WaitQuiesced _ => Err demo_error
  | PrepareTurn _ _ => Err demo_error
  | SendPreparedTurn _ _ _ => Err demo_error
  | ValidateCreation _ _ _ => Err (MkSelectionError [] [])
  | CheckDraft _ | DrainRoomPublications _ | ResumeAssignedTurns _ _ => Ok tt
  | OwnsExactTurn _ | RetainedNotStartedProof _ | Cancelled | Panics => false
  | PublishRoomEvents _ => Drained
  | ClaimLifecycleCommand _ _ _ _ => true
  | FreshUuid => []
  | CancelStartReservation _ _ _ | ReleaseConfirmedStop _ _ _ _ _ | ReleaseCheckpointedStartAbsence _ | RequestInterrupt _
  | ReleaseTerminalTurn _ | RetainUnstartedTurn _ | NotifyRoomPublication _ | NotifyCommittedEvents _
  | SpawnProviderTurn _ => tt
  end.
Definition demo_start : RoomCommand := MkRoomCommand demo_ann demo_control (u "s1") START demo_agent.
Lemma demo_start_ok : command_ok demo_start.
Proof. split; [exact demo_agent_wf|]. split; [apply demo_key_ok; by left|]. by intros st principal [= <-]. Qed.
Definition demo_job : LifecycleJob := JobStart demo_server demo_start demo_start_ok.

(** The server dies when it asked the provider for the start, the next one is asked again. *)
Definition demo_first := run_prog 4 demo_provider 5 demo_room_store (execute_agent_start demo_server demo_start).
Definition demo_second := run_prog 40 demo_provider 6 demo_first.1.2 (execute_agent_start demo_server demo_start).
Definition demo_trace : list Event := demo_first.1.1 ++ demo_second.1.1.

Section demo.
#[local] Instance demo_protocol : Protocol := lifecycle_protocol (fun _ _ E => E) (fun _ _ E => E).
#[local] Existing Instance lifecycle_jobs.

Definition demo_task : Task := MkTask demo_job demo_second.2.
Lemma demo_run : server_run (demo_room_store, []) demo_trace (demo_second.1.2, [demo_task]).
Proof.
  exact (restart_run demo_room_store demo_job 4 40 demo_provider 5 6).
Qed.
Example demo_calls : length (calls_of demo_start_operation demo_trace) = 2%nat.
Proof. by vm_compute. Qed.
Definition execution_of (rest : prog CommandExecution) : option CommandExecution :=
  match rest with Ret execution => Some execution | _ => None end.
Definition no_execution : CommandExecution := MkExecution (Err (unresolved_command Database)) [] [].
Lemma ended_execution command rest :
  is_Some (execution_of rest) -> ended_with command rest = Some (command, default no_execution (execution_of rest)).
Proof. destruct rest; simpl; [done|by intros [? ?]..]. Qed.
Definition demo_execution : CommandExecution := default no_execution (execution_of demo_second.2).
Lemma demo_ended : command_ended demo_task = Some (demo_start, demo_execution).
Proof. apply (ended_execution demo_start demo_second.2), (bool_decide_unpack _). by vm_compute. Qed.
Definition demo_outcome : CommandOutcome := run_tx no_outcome (match ex_reply demo_execution with Ok o => Ok o | Err f => Err (cf_error f) end).
Lemma reply_outcome (reply : result CommandFailure CommandOutcome) :
  is_ok reply = true -> reply = Ok (run_tx no_outcome (match reply with Ok o => Ok o | Err f => Err (cf_error f) end)).
Proof. by destruct reply. Qed.
Lemma demo_reply : ex_reply demo_execution = Ok demo_outcome.
Proof. apply reply_outcome. by vm_compute. Qed.

Lemma server_starts_once_per_observation_witness : exists observed,
  sublist observed (commits_of demo_trace) /\ Forall (fun c => observed_again demo_start_operation c.1 c.2) observed /\
  (length (calls_of demo_start_operation demo_trace) <= 1 + length observed)%nat.
Proof.
  exact (server_starts_once_per_observation (fun _ _ E => E) (fun _ _ E => E) demo_start_operation demo_room_store demo_second.1.2 demo_trace
    [demo_task] demo_lifecycle_ok demo_run).
Defined.

Lemma server_success_is_stored_witness : st_commands demo_second.1.2 !! command_key demo_ann (u "s1") <> None.
Proof.
  exact (server_success_is_stored (fun _ _ E => E) (fun _ _ E => E) demo_room_store demo_second.1.2 demo_trace [demo_task] demo_task
    demo_start demo_execution demo_outcome demo_lifecycle_ok demo_run (list_elem_of_here _ _) demo_ended demo_reply).
Defined.
End demo.
