(* ===== verification/TurnRuntime.v ===== *)
(** * Provider turns, as the server runs them

    provider_turn.rs, provider_turn_interrupt_runtime.rs, provider_turn_reconciliation_runtime.rs
    and the commands of room_command_dispatch.rs that interrupt a turn: each function is a
    program (Server.v) over the transactions of Execution.v, Completion.v, Interrupt.v and
    TurnRecovery.v. *)

From Stdlib Require Import String.
From stdpp Require Import gmap.
From S2P Require Import Prelude Text Diagnostic Json Bytes Model Command Vote Projection Settings Store Budget Turn Routing RoomStore.
From S2P Require Import Authority Requests Execution Observation VoteStore Scheduler Completion Calm Messages.
From S2P Require Import Reservations Launch Stop Pause Interrupt Lifecycle Create Reconcile TurnRecovery Cleanup Agents Selection Server.
From S2P Require Import LifecycleRuntime.

#[global] Instance ProviderTurnInterruptEffect_eq_dec : EqDecision ProviderTurnInterruptEffect.
Proof. solve_decision. Defined.

(** ** provider_turn.rs *)

(** The request of a turn; the ingresses of its room are given to every turn. *)
Definition room_observation (assignment : AgentTurnAssignment) : option ProviderRoomObservation :=
  let envelope := at_envelope assignment in
  if contains [OrderedObservation; AmbientObservation] (ae_delivery_kind envelope) then
    Some {| po_session_id := s_session_id (d_public (at_session assignment));
            po_input_up_to_seq := d_input_up_to_seq (at_session assignment);
            po_view := ae_room_view envelope;
            po_attachment_ids := ae_attachment_ids envelope;
            po_attachment_ingress := negb (list_empty (ae_attachment_ids envelope));
            po_allowed_agent_ids := ae_room_agent_ids envelope;
            po_tabletop_tools := ae_tabletop_tools envelope |}
  else None.
Definition provider_request (assignment : AgentTurnAssignment) : ProviderTurnRequest :=
  {| tq_turn_id := at_turn_id assignment; tq_turn_generation := at_turn_generation assignment;
     tq_execution_id := at_execution_id assignment; tq_input := ae_provider_input (at_envelope assignment);
     tq_room_observation := room_observation assignment |}.

Record ProviderTurnTaskResult : Type := MkTaskResult {
  tr_assignment : AgentTurnAssignment;
  tr_task_panicked : bool;
  tr_start_authority : tx ProviderTurnStartAuthority;
  tr_result : option (result ProviderAdapterError ProviderTurnCompleted)
}.

Definition unresolved_turn_task (assignment : AgentTurnAssignment) (code : string) : ProviderTurnTaskResult :=
  {| tr_assignment := assignment; tr_task_panicked := bool_decide (code = "provider_turn_task_failed"%string);
     tr_start_authority := Err (CommandUnresolved (u code) (u "The exact provider turn owner ended without a typed result."));
     tr_result := None |}.

Definition exact_turn_authority (start : ProviderTurnStartAuthority) : ProviderExactTurnAuthority :=
  {| xt_room_id := sa_room_id start; xt_session_id := sa_session_id start; xt_execution_id := sa_execution_id start;
     xt_turn_id := sa_turn_id start; xt_turn_generation := sa_turn_generation start;
     xt_runtime_handle_id := sa_runtime_handle_id start; xt_runtime_owner_id := sa_runtime_owner_id start;
     xt_runtime_lease_token := sa_runtime_lease_token start |}.

(** [turn_authority], and the authority of a failure, which has no identity of the provider. *)
Definition turn_authority_of (start : ProviderTurnStartAuthority) (provider_turn_id : str) (provider_session_id : option str) :
    ProviderTurnAuthority :=
  {| ta_room_id := sa_room_id start; ta_session_id := sa_session_id start; ta_turn_id := sa_turn_id start;
     ta_turn_generation := sa_turn_generation start; ta_execution_id := sa_execution_id start;
     ta_start_dispatch_nonce := sa_start_dispatch_nonce start; ta_runtime_handle_id := sa_runtime_handle_id start;
     ta_runtime_owner_id := sa_runtime_owner_id start; ta_runtime_lease_token := sa_runtime_lease_token start;
     ta_provider_turn_id := provider_turn_id; ta_provider_session_id := provider_session_id |}.
Definition turn_authority (start : ProviderTurnStartAuthority) (result : ProviderTurnCompleted) : ProviderTurnAuthority :=
  turn_authority_of start (pc_provider_turn_id result) (pc_provider_session_id result).

Definition empty_turn_commit : AgentTurnCommit := MkTurnCommit [] [].

(** The interrupt effect that took over the turn of [start]. *)
Definition interrupt_effect_owns_result (start : ProviderTurnStartAuthority) (effect : ProviderTurnInterruptEffect) : bool :=
  str_eqb (ie_room_id effect) (sa_room_id start) && str_eqb (ie_session_id effect) (sa_session_id start)
  && (ie_turn_generation effect =? sa_turn_generation start)%N && str_eqb (ie_execution_id effect) (sa_execution_id start)
  && str_eqb (ie_turn_id effect) (sa_turn_id start)
  && str_eqb (ie_start_dispatch_nonce effect) (sa_start_dispatch_nonce start)
  && str_eqb (ie_runtime_handle_id effect) (sa_runtime_handle_id start)
  && str_eqb (ie_runtime_owner_id effect) (sa_runtime_owner_id start)
  && str_eqb (ie_runtime_lease_token effect) (sa_runtime_lease_token start)
  && contains [EffIssuedWaitingQuiescence; EffInterruptAmbiguous; EffRecoveryRequired; EffFinalized] (ie_phase effect).

(** A rejection with this code. *)
Definition rejected_as (code : string) (error : PersistenceError) : bool :=
  match error with CommandRejected c _ => str_eqb c (u code) | _ => false end.

Section runtime.
Context `{UnicodeGeneralCategory, CharCase, UnicodeCase, Caseless, Sha256, Chrono, Entropy, PersonaLibrary, UuidCrate, ChronoRange,
  AttendeeParent, RequestSerde, RegexCrate, ByteDigest, JsonText, PersonaSummaries, SessionSerde}.

#[local] Open Scope prog_scope.

(** The start that a turn needs before its input is sent. *)
Definition authorize_provider_turn_start (assignment : AgentTurnAssignment) : prog (tx ProviderTurnStartAuthority) :=
  let public := d_public (at_session assignment) in
  commits (fun _ => authorize_start_in (s_room_id public) (s_session_id public) (at_turn_generation assignment) (at_turn_id assignment)).

Definition run_prepared_provider_turn (assignment : AgentTurnAssignment) (request : ProviderTurnRequest)
    (prepared : ProviderPreparedTurn) : prog ProviderTurnTaskResult :=
  start_authority <- authorize_provider_turn_start assignment;
  match start_authority with
  | Err _ =>
      outside (RetainUnstartedTurn prepared) ;;
      Ret (MkTaskResult assignment false start_authority None)
  | Ok _ =>
      result <- outside (SendPreparedTurn prepared (at_session assignment) request);
      Ret (MkTaskResult assignment false start_authority (Some result))
  end.

(** What is left when the owner of a prepared turn panics. *)
Definition retain_unstarted (assignment : AgentTurnAssignment) (prepared : ProviderPreparedTurn) : prog ProviderTurnTaskResult :=
  outside (RetainUnstartedTurn prepared) ;;
  Ret (unresolved_turn_task assignment "provider_turn_task_failed").

(** The owner runs in a task of its own, which catches the panics of the turn; its own are caught by who waits for it. *)
Definition run_provider_turn_task (assignment : AgentTurnAssignment) : prog ProviderTurnTaskResult :=
  let request := provider_request assignment in
  prepared <- outside (PrepareTurn (at_session assignment) request);
  match prepared with
  | Err _ => Ret (unresolved_turn_task assignment "provider_turn_prepare_unresolved")
  | Ok prepared =>
      catching (catching (run_prepared_provider_turn assignment request prepared) (retain_unstarted assignment prepared))
        (retain_unstarted assignment prepared)
  end.

(** An assignment of an attendee is delivered to its connection, not to the adapter of the host. *)
Definition spawn_provider_turn (assignment : AgentTurnAssignment) : prog unit :=
  if s_external_owned (d_public (at_session assignment)) then Ret tt else outside (SpawnProviderTurn assignment).

(** *** What a turn returned, committed *)

Definition exact_interrupt_phase (start : ProviderTurnStartAuthority) : prog (tx (option ProviderTurnEffectPhase)) :=
  effect <- looks (load_effect_in (sa_key start));
  Ret (match effect with
       | Ok effect => Ok (if interrupt_effect_owns_result start effect then Some (ie_phase effect) else None)
       | Err error => if rejected_as "stale_provider_turn_effect" error then Ok None else Err error
       end).

Definition commit_completed_provider_result (start : ProviderTurnStartAuthority) (result : ProviderTurnCompleted) :
    prog (tx AgentTurnCommit) :=
  _ <-? commits (fun _ => mark_running_in start (pc_provider_turn_id result));
  let room_id := sa_room_id start in
  let session_id := sa_session_id start in
  let authority := turn_authority start result in
  match pc_outcome result with
  | OutcomeMessage content target => commits (complete_message room_id session_id authority content target)
  | OutcomeDeclined reason_code => commits (decline room_id session_id authority reason_code)
  | OutcomeVote command => commits (complete_vote room_id session_id authority command)
  end.

Definition release_stop (start : ProviderTurnStartAuthority) (error : ProviderAdapterError) : prog unit :=
  outside (ReleaseConfirmedStop (sa_room_id start) (sa_session_id start) (ae_runtime_handle_id error) (ae_runtime_owner_id error)
             (ae_runtime_lease_token error)).

Definition confirmed_stop (error : ProviderAdapterError) : option (str * str * str) :=
  if ae_runtime_stopped error then Some (ae_runtime_handle_id error, ae_runtime_owner_id error, ae_runtime_lease_token error) else None.

(** The end of [commit_provider_error], when no interrupt owns the turn. *)
Definition commit_failed_provider_turn (start : ProviderTurnStartAuthority) (error : ProviderAdapterError) : prog (tx AgentTurnCommit) :=
  if ae_effect_uncertain error && negb (ae_runtime_stopped error) then commits (mark_provider_turn_recovery_required start)
  else
    commit <-? commits (fail (sa_room_id start) (sa_session_id start) (turn_authority_of start [] None) (ae_code error)
                          (ae_message error) (confirmed_stop error));
    (if ae_runtime_stopped error then release_stop start error else outside (ReleaseTerminalTurn (exact_turn_authority start))) ;;
    Ret (Ok commit).

Definition commit_provider_error (start : ProviderTurnStartAuthority) (error : ProviderAdapterError) : prog (tx AgentTurnCommit) :=
  let authority := exact_turn_authority start in
  stopped <-? (if ae_runtime_stopped error then exact_interrupt_phase start else Ret (Ok None));
  match stopped with
  | Some phase =>
      (if bool_decide (phase = EffFinalized) then release_stop start error else Ret tt) ;;
      Ret (Ok empty_turn_commit)
  | None =>
      interrupted <-? (if str_eqb (ae_code error) (u "provider_turn_interrupted") && negb (ae_effect_uncertain error)
                          && negb (ae_runtime_stopped error)
                       then exact_interrupt_phase start else Ret (Ok None));
      match interrupted with
      | Some phase =>
          (if bool_decide (phase = EffFinalized) then outside (ReleaseTerminalTurn authority) else Ret tt) ;;
          Ret (Ok empty_turn_commit)
      | None => commit_failed_provider_turn start error
      end
  end.

Definition commit_exact_provider_result (start : ProviderTurnStartAuthority) (result : result ProviderAdapterError ProviderTurnCompleted) :
    prog (tx AgentTurnCommit) :=
  let authority := exact_turn_authority start in
  match result with
  | Err error => commit_provider_error start error
  | Ok result =>
      committed <- commit_completed_provider_result start result;
      match committed with
      | Ok commit => outside (ReleaseTerminalTurn authority) ;; Ret (Ok commit)
      | Err error =>
          interrupt_phase <-? exact_interrupt_phase start;
          match interrupt_phase with
          | Some phase =>
              (if bool_decide (phase = EffFinalized) then outside (ReleaseTerminalTurn authority) else Ret tt) ;;
              Ret (Ok empty_turn_commit)
          | None => Ret (Err error)
          end
      end
  end.

Definition commit_provider_result (completed : ProviderTurnTaskResult) : prog (tx AgentTurnCommit) :=
  match tr_start_authority completed, tr_result completed with
  | Err error, _ => Ret (Err error)
  | Ok _, None =>
      Ret (Err (CommandUnresolved (u "provider_turn_start_unresolved")
        (u "Provider turn start authorization remains unresolved.")))
  | Ok start, Some result => commit_exact_provider_result start result
  end.

Fixpoint spawn_provider_turns (assignments : list AgentTurnAssignment) : prog unit :=
  match assignments with
  | [] => Ret tt
  | assignment :: assignments => spawn_provider_turn assignment ;; spawn_provider_turns assignments
  end.

(** The room of a commit, if it has something to publish or to start. *)
Definition commit_room (commit : AgentTurnCommit) : option str :=
  match tcm_events commit, tcm_next_assignments commit with
  | event :: _, _ => Some (ev_room_id event)
  | [], assignment :: _ => Some (s_room_id (d_public (at_session assignment)))
  | [], [] => None
  end.
Definition publish_turn_commit (commit : AgentTurnCommit) : prog (option PublicationAttempt) :=
  publication <- (match commit_room commit with
                  | Some room_id => prog_bind (outside (PublishRoomEvents room_id)) (fun attempt => Ret (Some attempt))
                  | None => Ret None
                  end);
  spawn_provider_turns (tcm_next_assignments commit) ;;
  Ret publication.

(** The task ended, or it was lost: [None] stands for its join error. *)
Definition handle_provider_result (result : option ProviderTurnTaskResult) : prog (option PublicationAttempt) :=
  match result with
  | None => Ret None
  | Some result =>
      if tr_task_panicked result then Ret None
      else
        committed <- commit_provider_result result;
        match committed with
        | Ok commit => publish_turn_commit commit
        | Err _ => Ret None
        end
  end.

(** ** provider_turn_interrupt_runtime.rs *)

Definition interrupt_authority (effect : ProviderTurnInterruptEffect) : ProviderExactTurnAuthority :=
  {| xt_room_id := ie_room_id effect; xt_session_id := ie_session_id effect; xt_execution_id := ie_execution_id effect;
     xt_turn_id := ie_turn_id effect; xt_turn_generation := ie_turn_generation effect;
     xt_runtime_handle_id := ie_runtime_handle_id effect; xt_runtime_owner_id := ie_runtime_owner_id effect;
     xt_runtime_lease_token := ie_runtime_lease_token effect |}.

Definition finalize_exact_quiescence (authority : ProviderExactTurnAuthority) (effect : ProviderTurnInterruptEffect)
    (quiescence : ProviderTurnQuiescence) : prog (tx AgentTurnCommit) :=
  match quiescence with
  | RuntimeRetained =>
      commit <-? commits (finalize_retained_in effect);
      outside (ReleaseTerminalTurn authority) ;;
      Ret (Ok commit)
  | RuntimeGone =>
      candidate <-? looks (load_turn_candidate (ie_key effect));
      if negb (bool_decide (tc_effect candidate = Some effect)) then
        Ret (Err (CommandUnresolved (u "provider_turn_interrupt_changed")
          (u "The exact provider interrupt changed before runtime-gone finalization.")))
      else
        commit <-? commits (finalize_provider_turn_runtime_gone candidate);
        outside (ReleaseConfirmedStop (ie_room_id effect) (ie_session_id effect) (ie_runtime_handle_id effect)
                   (ie_runtime_owner_id effect) (ie_runtime_lease_token effect)) ;;
        Ret (Ok commit)
  end.

(** The wait for the turn to be quiet, under a timeout, and its end. *)
Definition await_quiescence (authority : ProviderExactTurnAuthority) (waiting : ProviderTurnInterruptEffect) : prog (tx AgentTurnCommit) :=
  quiescence <- outside (WaitQuiesced authority);
  match quiescence with
  | Ok quiescence => finalize_exact_quiescence authority waiting quiescence
  | Err error =>
      _ <-? commits (fun _ => mark_provider_interrupt_recovery_required waiting);
      Ret (Err (CommandUnresolved (ae_code error) (ae_message error)))
  end.

(** provider_turn_effect.rs: the update commits by itself, and the effect is loaded after it. *)
Definition authorize_provider_interrupt_dispatch (claim : ProviderTurnEffectClaim) : prog (tx ProviderTurnInterruptEffect) :=
  _ <-? commits (fun now => fence_interrupt_dispatch claim (timestamp_millis now));
  looks (load_effect_in (ie_key (cl_effect claim))).

(** The interrupt is dispatched and asked for, or the turn needs none. *)
Definition issue_interrupt (authority : ProviderExactTurnAuthority) (claim : ProviderTurnEffectClaim)
    (disposition : ProviderTurnInterruptDisposition) : prog (tx ProviderTurnInterruptEffect) :=
  match disposition with
  | DispositionNotStarted | DispositionQuiesced => commits (fun now => mark_unstarted_interrupt_waiting claim (timestamp_millis now))
  | DispositionStarted =>
      dispatched <-? authorize_provider_interrupt_dispatch claim;
      outside (RequestInterrupt authority) ;;
      issued <- commits (fun now => mark_provider_interrupt_issued dispatched (timestamp_millis now));
      match issued with
      | Ok waiting => Ret (Ok waiting)
      | Err error => _ <-? commits (fun _ => mark_provider_interrupt_ambiguous dispatched); Ret (Err error)
      end
  end.

Definition apply_exact_interrupt (effect : ProviderTurnInterruptEffect) : prog (tx AgentTurnCommit) :=
  owner <- outside FreshUuid;
  claim <-? commits (fun now => claim_provider_turn_interrupt effect owner (timestamp_millis now));
  let authority := interrupt_authority (cl_effect claim) in
  control <- outside (BeginExactTurn authority);
  match control with
  | Err error =>
      _ <-? commits (fun _ => handoff_unissued_provider_interrupt_claim claim);
      Ret (Err (CommandUnresolved (ae_code error) (ae_message error)))
  | Ok disposition =>
      waiting <-? issue_interrupt authority claim disposition;
      await_quiescence authority waiting
  end.

Definition unresolved_as (code : string) (error : PersistenceError) : bool :=
  match error with CommandUnresolved c _ => str_eqb c (u code) | _ => false end.

Definition resume_exact_interrupt (effect : ProviderTurnInterruptEffect) : prog (tx (option AgentTurnCommit)) :=
  owned <- outside (OwnsExactTurn (interrupt_authority effect));
  if negb owned then Ret (Ok None)
  else
    owner <- outside FreshUuid;
    claimed <- commits (fun now => claim_provider_turn_interrupt_recovery effect owner (timestamp_millis now));
    match claimed with
    | Err error => Ret (if unresolved_as "provider_turn_effect_unresolved" error then Ok None else Err error)
    | Ok claim =>
        let authority := interrupt_authority (cl_effect claim) in
        control <- outside (BeginExactTurn authority);
        match control with
        | Err _ => _ <-? commits (fun _ => release_provider_interrupt_recovery_claim claim); Ret (Ok None)
        | Ok disposition =>
            waiting <-? commits (fun now => authorize_provider_interrupt_recovery_wait claim (timestamp_millis now));
            (match disposition with
             | DispositionQuiesced => Ret tt
             | DispositionNotStarted | DispositionStarted => outside (RequestInterrupt authority)
             end) ;;
            commit <-? await_quiescence authority waiting;
            Ret (Ok (Some commit))
        end
    end.

(** ** provider_turn_reconciliation_runtime.rs *)

Definition blocking_task_phase (phase : ProviderTurnExecutionPhase) : bool :=
  contains [ExecStartDispatching; ExecRunning; ExecInterruptPending; ExecQuiescing] phase.

Definition candidate_authority (candidate : ProviderTurnReconciliationCandidate) : ProviderExactTurnAuthority :=
  let '(room_id, session_id, generation) := tc_key candidate in
  let execution := tc_execution candidate in
  {| xt_room_id := room_id; xt_session_id := session_id; xt_execution_id := pe_execution_id execution;
     xt_turn_id := pe_turn_id execution; xt_turn_generation := generation;
     xt_runtime_handle_id := pe_runtime_handle_id execution; xt_runtime_owner_id := pe_runtime_owner_id execution;
     xt_runtime_lease_token := pe_runtime_lease_token execution |}.

Definition candidate_start_authority (candidate : ProviderTurnReconciliationCandidate) : tx ProviderTurnStartAuthority :=
  let execution := tc_execution candidate in
  if str_empty (pe_start_dispatch_nonce execution) then
    Err (CommandUnresolved (u "provider_turn_start_unresolved")
      (u "The retained provider result has no durable start authority."))
  else Ok (start_authority (tc_key candidate) execution).

(** The room of the first assignment; the events must be of the same room. *)
Definition publish_commit (commit : AgentTurnCommit) : prog (tx unit) :=
  match tcm_next_assignments commit with
  | [] => outside (NotifyCommittedEvents (tcm_events commit)) ;; Ret (Ok tt)
  | first :: _ =>
      let room_id := s_room_id (d_public (at_session first)) in
      if any (fun event => negb (str_eqb (ev_room_id event) room_id)) (tcm_events commit) then
        Ret (Err (CommandUnresolved (u "provider_turn_recovery_authority_invalid")
          (u "Recovered provider events do not share assignment room authority.")))
      else outside (ResumeAssignedTurns room_id (tcm_next_assignments commit))
  end.

Definition finalize_gone (candidate : ProviderTurnReconciliationCandidate) : prog (tx unit) :=
  let '(room_id, session_id, _) := tc_key candidate in
  let execution := tc_execution candidate in
  commit <-? commits (finalize_provider_turn_runtime_gone candidate);
  outside (ReleaseConfirmedStop room_id session_id (pe_runtime_handle_id execution) (pe_runtime_owner_id execution)
             (pe_runtime_lease_token execution)) ;;
  publish_commit commit.

(** The runtime was adopted by the owner that the execution names, under the profile of the session. *)
Definition adopted_exactly (candidate : ProviderTurnReconciliationCandidate) (observation : ProviderRuntimeObservation) : bool :=
  match observation with
  | ProviderAdopted handle_id previous_owner_id new_owner_id runtime_profile_key =>
      let execution := tc_execution candidate in
      str_eqb handle_id (pe_runtime_handle_id execution) && str_eqb previous_owner_id (pe_runtime_owner_id execution)
      && str_eqb new_owner_id (pe_runtime_owner_id execution)
      && str_eqb runtime_profile_key (d_runtime_profile_key (tc_session candidate))
  | _ => false
  end.

Definition resume_assignment (candidate : ProviderTurnReconciliationCandidate) : prog (tx unit) :=
  assignment <-? looks (recover_assigned_provider_turn candidate);
  outside (ResumeAssignedTurns (tc_key candidate).1.1 [assignment]).
Definition record_task_death (candidate : ProviderTurnReconciliationCandidate) : prog (tx unit) :=
  let '(room_id, session_id, generation) := tc_key candidate in
  commit <-? commits (record_provider_turn_task_death room_id session_id generation (pe_execution_id (tc_execution candidate)));
  publish_commit commit.

(** The interrupt of a candidate, resumed and published; whether that settles the candidate. *)
Definition resume_candidate_interrupt (candidate : ProviderTurnReconciliationCandidate) : prog (tx bool) :=
  match tc_effect candidate with
  | None => Ret (Ok false)
  | Some effect =>
      resumed <-? resume_exact_interrupt effect;
      match resumed with
      | None => Ret (Ok false)
      | Some commit => _ <-? publish_commit commit; Ret (Ok true)
      end
  end.

Definition reconcile_startup_candidate (candidate : ProviderTurnReconciliationCandidate) : prog (tx unit) :=
  let execution := tc_execution candidate in
  settled <-? resume_candidate_interrupt candidate;
  if settled : bool then Ret (Ok tt)
  else if bool_decide (pe_phase execution = ExecAssigned) && bool_decide (tc_effect candidate = None) then
    observation <- outside (Observe (tc_session candidate));
    match observation with
    | ProviderGone => finalize_gone candidate
    | _ => if adopted_exactly candidate observation then resume_assignment candidate else Ret (Ok tt)
    end
  else
    observation <- outside (Observe (tc_session candidate));
    match observation with
    | ProviderGone => finalize_gone candidate
    | _ => if blocking_task_phase (pe_phase execution) then record_task_death candidate else Ret (Ok tt)
    end.

(** One page of the startup, and the pages after it: [fuel] of them. The number of candidates that were reconciled. *)
Fixpoint reconcile_startup_pages (fuel : nat) (cursor : option execution_key) (reconciled : nat) : prog (tx nat) :=
  match fuel with
  | O => Ret (Ok reconciled)
  | S fuel =>
      page <-? looks (load_provider_turn_reconciliation_page cursor);
      _ <-? each (tp_candidates page) reconcile_startup_candidate;
      let reconciled := (reconciled + length (tp_candidates page))%nat in
      match tp_next_cursor page with
      | None => Ret (Ok reconciled)
      | Some next => reconcile_startup_pages fuel (Some next) reconciled
      end
  end.
Definition reconcile_provider_turn_ownership (fuel : nat) : prog (tx nat) := reconcile_startup_pages fuel None 0.

Definition reconcile_unowned_observation (candidate : ProviderTurnReconciliationCandidate)
    (observation : option ProviderRuntimeObservation) : prog (tx unit) :=
  let phase := pe_phase (tc_execution candidate) in
  match observation with
  | Some ProviderGone => finalize_gone candidate
  | Some observation =>
      if adopted_exactly candidate observation then
        if bool_decide (phase = ExecAssigned) then resume_assignment candidate
        else if blocking_task_phase phase then record_task_death candidate
        else Ret (Ok tt)
      else Ret (Ok tt)
  | None => Ret (Ok tt)
  end.

(** The provider proved that it never entered the turn. *)
Definition finalize_not_started (candidate : ProviderTurnReconciliationCandidate) : prog (tx unit) :=
  commit <-? commits (finalize_provider_turn_not_started candidate);
  outside (ReleaseTerminalTurn (candidate_authority candidate)) ;;
  publish_commit commit.

Definition reconcile_live_candidate (candidate : ProviderTurnReconciliationCandidate) : prog (tx unit) :=
  let authority := candidate_authority candidate in
  settled <-? resume_candidate_interrupt candidate;
  if settled : bool then Ret (Ok tt)
  else
    quarantined <- (if bool_decide (pe_phase (tc_execution candidate) = ExecRecoveryRequired)
                    then outside (OwnsExactTurn authority) else Ret false);
    if quarantined : bool then Ret (Ok tt)
    else
      retained <- outside (RetainedTurnResult authority);
      match retained with
      | Some result =>
          start <-? Ret (candidate_start_authority candidate);
          commit <-? commit_exact_provider_result start result;
          publish_commit commit
      | None =>
          not_started <- outside (RetainedNotStartedProof authority);
          if not_started : bool then finalize_not_started candidate
          else
            owned <- outside (OwnsExactTurn authority);
            if owned : bool then Ret (Ok tt)
            else
              observation <- outside (ObserveWithin (tc_session candidate));
              reconcile_unowned_observation candidate observation
      end.

(** ** room_command_dispatch.rs *)

(** room_command_execution.rs *)
Definition participant_mute_execution (mutation : ParticipantMuteMutation) : CommandExecution :=
  MkExecution (Ok (pmm_outcome mutation)) (new_events (pmm_outcome mutation)) (pmm_assignments mutation).

(** What a command prepared is carried out; when that fails, it is left to the reconciliation. *)
Definition with_interrupt (execution : CommandExecution) (effect : option ProviderTurnInterruptEffect) : prog CommandExecution :=
  match effect with
  | None => Ret execution
  | Some effect =>
      applied <- apply_exact_interrupt effect;
      Ret (match applied with Ok commit => extend_turn_commit execution commit | Err _ => execution end)
  end.

Definition run_participant_mute (command : RoomCommand) : prog CommandExecution :=
  muted <- commits (execute_participant_mute (cmd_authority command) (cmd_request_id command) (cmd_payload command));
  match muted with
  | Err error => Ret (transactional_failure error)
  | Ok mutation => with_interrupt (participant_mute_execution mutation) (pmm_host_interrupt_effect mutation)
  end.

(** The interrupt is accepted, and carried out when the runtime is the server's. *)
Definition accept_agent_interrupt (command : RoomCommand) : prog CommandExecution :=
  interrupted <- commits (execute_agent_interrupt (cmd_authority command) (cmd_request_id command) (cmd_payload command));
  match interrupted with
  | Err error => Ret (transactional_failure error)
  | Ok mutation => with_interrupt (success (aim_outcome mutation)) (aim_host_interrupt_effect mutation)
  end.

Definition run_agent_interrupt (command : RoomCommand) : prog CommandExecution :=
  plan <- looks (prepare_agent_interrupt (cmd_authority command) (cmd_request_id command) (cmd_payload command));
  match plan with
  | Err error => Ret (transactional_failure error)
  | Ok (InterruptOutcome outcome) => Ret (success outcome)
  | Ok InterruptExternal => accept_agent_interrupt command
  | Ok (Interruptible session durable_turn_is_assigned) =>
      supported <- outside (RequireRetainedInterrupt session durable_turn_is_assigned);
      match supported with
      | Err error => Ret (transactional_failure (CommandRejected (ae_code error) (ae_message error)))
      | Ok _ => accept_agent_interrupt command
      end
  end.
End runtime.
