(* ===== verification/TurnServer.v ===== *)
(** * What a server full of turns does

    The programs of TurnRuntime.v keep one protocol: they change the rows of custody by the
    operations of Execution.v, send a turn to its provider only after the transaction that
    authorized its start, let the provider forget a turn only when the store says that it
    ended, and ask it to interrupt a turn only when the store says that the interrupt was
    given out. *)

From Stdlib Require Import String.
From stdpp Require Import gmap.
From S2P Require Import Prelude Text Diagnostic Json Bytes Model Command Vote Projection Settings Store Budget Turn Routing RoomStore.
From S2P Require Import Authority Requests Execution Observation VoteStore Scheduler Completion Calm Messages.
From S2P Require Import Reservations Launch Stop Pause Interrupt Lifecycle Create Reconcile TurnRecovery Custody Muting Cleanup Agents Selection.
From S2P Require Import Server LifecycleRuntime TurnRuntime.

Section server.
Context `{UnicodeGeneralCategory, CharCase, UnicodeCase, Caseless, Sha256, Chrono, Entropy, PersonaLibrary, UuidCrate, ChronoRange,
  AttendeeParent, RequestSerde, RegexCrate, ByteDigest, JsonText, PersonaSummaries, SessionSerde}.

Definition exact_key (a : ProviderExactTurnAuthority) : execution_key := (xt_room_id a, xt_session_id a, xt_turn_generation a).

Definition turn_needs {B} (c : Outside B) : option execution_key :=
  match c with
  | SendPreparedTurn _ session request => Some (s_room_id (d_public session), s_session_id (d_public session), tq_turn_generation request)
  | _ => None
  end.
Definition turn_requires {B} (c : Outside B) (st : RoomStore) : Prop :=
  match c with
  | ReleaseTerminalTurn authority => turn_ended (exact_key authority) st
  | RequestInterrupt authority => interrupt_dispatched (exact_key authority) st
  | _ => True
  end.
Lemma custodial_same st : custody_ok st -> custodial st st.
Proof. by intros _; constructor. Qed.
Lemma custodial_ok st st' : custodial st st' -> custody_ok st -> custody_ok st'.
Proof. intros Hs Hok. by eapply custody_history_ok. Qed.
Definition turn_protocol : Protocol := {|
  token := execution_key;
  protocol_ok := custody_ok;
  protocol_step := custodial;
  needs B c := turn_needs c;
  grants := authorizes_turn;
  requires B c st := turn_requires c st;
  protocol_step_same := custodial_same;
  protocol_step_ok := custodial_ok |}.
#[local] Existing Instance turn_protocol.
#[local] Existing Instance custodial_preorder.

(** ** Reasoning about the programs *)

Lemma later_custodial st st' : later st st' -> custodial st st'.
Proof. intros [_ Hs _]. induction Hs as [|a b c Hab _ IH]; [done|by etrans]. Qed.
Lemma later_kept P st st' : kept P -> later st st' -> P st -> P st'.
Proof. intros HP Hl. apply HP; [apply Hl|by apply later_custodial]. Qed.
Lemma kept_stable P : kept P -> stable P.
Proof. intros HP st st' Hl. by apply later_kept. Qed.

(** What a program leaves when its result is [good]. *)
Definition leaves {A} (P : RoomStore -> Prop) (good : A -> bool) (p : prog A) : Prop :=
  forall st, wp (fun a st' => good a = true -> P st') None p st.

Lemma wp_reach {A B} (Q : A -> RoomStore -> Prop) permit P (t : instant -> rtx B) k st :
  (forall now, keeps (reaches P) (t now)) -> (forall b st1, custody_ok st1 -> P st1 -> wp Q None (k (Ok b)) st1) ->
  (forall e st1, wp Q None (k (Err e)) st1) -> wp Q permit (prog_bind (commits t) k) st.
Proof.
  intros Ht Hok Herr. apply wp_transact; [|by intros; apply Herr]. intros now st1 b st2 Hl Hr. pose proof (Ht now _ _ _ Hr) as [Hs HP].
  split; [done|]. exists None. split; [done|]. apply Hok; [eapply custodial_ok; [done|apply Hl]|apply HP, Hl].
Qed.

(** The calls that need that the turn ended, or that its interrupt was given out. *)
Lemma wp_release {A} (Q : A -> RoomStore -> Prop) authority k st :
  turn_ended (exact_key authority) st -> (forall st1, later st st1 -> wp Q None (k tt) st1) ->
  wp Q None (prog_bind (outside (ReleaseTerminalTurn authority)) k) st.
Proof.
  intros He Hk. apply wp_call; [by left| |by intros []]. intros st1 Hl. exact (later_kept _ _ _ (ended_kept _) Hl He).
Qed.
Lemma wp_request {A} (Q : A -> RoomStore -> Prop) authority k st :
  interrupt_dispatched (exact_key authority) st -> (forall st1, later st st1 -> wp Q None (k tt) st1) ->
  wp Q None (prog_bind (outside (RequestInterrupt authority)) k) st.
Proof.
  intros He Hk. apply wp_call; [by left| |by intros []]. intros st1 Hl. exact (later_kept _ _ _ (dispatched_kept _) Hl He).
Qed.

Lemma free_other {B} (c : Outside B) :
  match c with SendPreparedTurn _ _ _ | ReleaseTerminalTurn _ | RequestInterrupt _ => False | _ => True end -> free c.
Proof. by destruct c. Qed.

(** *** Transactions *)

Lemma custodial_transaction {B} (t : instant -> rtx B) : (forall now, keeps custodial (t now)) -> transaction t.
Proof. intros Ht now st b st' _ Hr. by eapply Ht. Qed.
Lemma reaching_transaction {B} P (t : instant -> rtx B) : (forall now, keeps (reaches P) (t now)) -> transaction t.
Proof. intros Ht. apply custodial_transaction. intros now st b st' Hr. by eapply Ht. Qed.
Ltac by_step c := apply custodial_transaction; intros now st b st' Hr; by eapply custodial_once, c.
Lemma mark_running_transaction start id : transaction (fun _ => mark_running_in start id).
Proof. by_step CsRun. Qed.
Lemma handoff_transaction claim : transaction (fun _ => handoff_unissued_provider_interrupt_claim claim).
Proof. by_step CsRecoveryRequired. Qed.
Lemma recovery_required_transaction effect : transaction (fun _ => mark_provider_interrupt_recovery_required effect).
Proof. by_step CsRecoveryRequired. Qed.
Lemma release_claim_transaction claim : transaction (fun _ => release_provider_interrupt_recovery_claim claim).
Proof. by_step CsRelease. Qed.
Lemma task_death_transaction room_id session_id generation execution_id :
  transaction (record_provider_turn_task_death room_id session_id generation execution_id).
Proof. apply custodial_transaction. intros now. apply task_death_custodial. Qed.
#[local] Hint Resolve mark_running_transaction handoff_transaction recovery_required_transaction release_claim_transaction
  task_death_transaction : transactions.

(** ** A turn is run *)

Lemma retain_unstarted_safe assignment prepared : safe (retain_unstarted assignment prepared).
Proof. unfold retain_unstarted. safe_steps. Qed.
#[local] Hint Resolve retain_unstarted_safe : safe.
Lemma run_prepared_safe assignment prepared :
  safe (run_prepared_provider_turn assignment (provider_request assignment) prepared).
Proof.
  intros st. unfold run_prepared_provider_turn, authorize_provider_turn_start. apply wp_transact.
  - intros now st1 authority st2 _ Hr. split; [by eapply custodial_once, CsStart|]. 
    exists (Some (s_room_id (d_public (at_session assignment)), s_session_id (d_public (at_session assignment)), at_turn_generation assignment)).
    split; [by exists (at_turn_id assignment), authority|]. apply wp_call; [by right|done|]. intros result st3 _. by apply wp_ret.
  - intros e st1 _ _. apply wp_outside; [by apply free_other|]. intros [] st2 _. by apply wp_ret.
Qed.
Lemma run_task_safe assignment : safe (run_provider_turn_task assignment).
Proof.
  unfold run_provider_turn_task. apply safe_bind; [by apply safe_outside, free_other|]. intros [prepared|e]; [|apply safe_ret].
  intros st. apply wp_catching; [by apply free_other|intros; apply retain_unstarted_safe|].
  apply wp_catching; [by apply free_other|intros; apply retain_unstarted_safe|]. apply run_prepared_safe.
Qed.

(** ** What it returned is committed *)

(** The phase of the interrupt that took the turn over, if one did. *)
Definition phase_known (start : ProviderTurnStartAuthority) (r : tx (option ProviderTurnEffectPhase)) (st : RoomStore) : Prop :=
  match r with
  | Ok (Some phase) => turn_settled (sa_key start) st /\ (phase = EffFinalized -> turn_ended (sa_key start) st)
  | _ => True
  end.
Lemma phase_known_kept start r : kept (phase_known start r).
Proof.
  intros st st' Hok Hs. destruct r as [[phase|]|]; try done. intros [H1' H2']. split; [by eapply settled_kept|].
  intros E. by eapply ended_kept; [..|apply H2'].
Qed.
Lemma exact_interrupt_phase_known start st : wp (phase_known start) None (exact_interrupt_phase start) st.
Proof.
  unfold exact_interrupt_phase. apply wp_looks.
  - intros effect st1 Hl He. apply wp_ret. intros st2 Hl'. refine (later_kept _ _ _ (phase_known_kept _ _) Hl' _).
    destruct (interrupt_effect_owns_result start effect); [|done]. pose proof (lt_after _ _ Hl) as Hok.
    split; [exact (past_claim_settled _ _ _ Hok He)|exact (finalized_ended _ _ _ Hok He)].
  - intros e st1 Hl. apply wp_ret. intros st2 _. by destruct (rejected_as _ e).
Qed.

Lemma commit_completed_ends start result : leaves (turn_ended (sa_key start)) is_ok (commit_completed_provider_result start result).
Proof.
  intros st. unfold commit_completed_provider_result. apply wp_commits; [auto with transactions| |by intros; apply wp_ret].
  intros now st1 [] st2 _ _. cbv zeta.
  assert (Hend : forall t : instant -> rtx AgentTurnCommit, (forall now, keeps (reaches (turn_ended (sa_key start))) (t now)) ->
    forall st, wp (fun a st' => is_ok a = true -> turn_ended (sa_key start) st') None (commits t) st).
  { intros t Ht st3. apply (wp_reach _ _ _ _ Ret _ Ht); [|by intros; apply wp_ret]. intros b st4 _ He. apply wp_ret.
    intros st5 Hl _. exact (later_kept _ _ _ (ended_kept _) Hl He). }
  cbn [try_prog]. destruct (pc_outcome result); refine (Hend _ _ st2); intros now'.
  - exact (complete_message_ends _ _ (turn_authority start result) _ _ _).
  - exact (decline_ends _ _ (turn_authority start result) _ _).
  - exact (complete_vote_ends _ _ (turn_authority start result) _ _).
Qed.

Lemma settles_ret {A} start (r : tx A) st : turn_settled (sa_key start) st ->
  wp (fun a st' => is_ok a = true -> turn_settled (sa_key start) st') None (Ret r) st.
Proof. intros Hs. apply wp_ret. intros st' Hl _. exact (later_kept _ _ _ (settled_kept _) Hl Hs). Qed.

Lemma commit_failed_settles start error : leaves (turn_settled (sa_key start)) is_ok (commit_failed_provider_turn start error).
Proof.
  intros st. unfold commit_failed_provider_turn. destruct (_ && _)%bool.
  - apply (wp_reach _ _ _ _ Ret _ (mark_recovery_required_settles start)); [|by intros; apply wp_ret]. intros b st1 _ Hs. by apply settles_ret.
  - apply (wp_reach _ _ (turn_ended (sa_key start))); [intros now; exact (fail_ends _ _ (turn_authority_of start [] None) _ _ _ _)| |by intros; apply wp_ret].
    intros commit st1 _ He. cbn [try_prog]. apply wp_bind. destruct (ae_runtime_stopped error).
    + unfold release_stop. apply (wp_outside _ _ _ Ret); [by apply free_other|]. intros [] st2 Hl. apply wp_ret. intros st3 Hl'.
      exact (settles_ret _ _ _ (ended_settled _ _ (later_kept _ _ _ (ended_kept _) (later_trans _ _ _ Hl Hl') He))).
    + apply (wp_release _ _ Ret); [done|]. intros st2 Hl. apply wp_ret. intros st3 Hl'.
      exact (settles_ret _ _ _ (ended_settled _ _ (later_kept _ _ _ (ended_kept _) (later_trans _ _ _ Hl Hl') He))).
Qed.

(** The phase is known, and the provider forgets the turn when it ended. *)
Lemma finalized_release_settles start phase (release : prog unit) st :
  turn_settled (sa_key start) st ->
  (turn_ended (sa_key start) st -> forall Q : unit -> RoomStore -> Prop, (forall st1, later st st1 -> Q tt st1) -> wp Q None release st) ->
  (phase = EffFinalized -> turn_ended (sa_key start) st) ->
  wp (fun (a : tx AgentTurnCommit) st' => is_ok a = true -> turn_settled (sa_key start) st') None
    ((if bool_decide (phase = EffFinalized) then release else Ret tt) ;; Ret (Ok empty_turn_commit))%prog st.
Proof.
  intros Hs Hr Hp. apply wp_bind. case_bool_decide as E.
  - apply Hr; [by apply Hp|]. intros st1 Hl. apply (settles_ret start (Ok empty_turn_commit)). exact (later_kept _ _ _ (settled_kept _) Hl Hs).
  - apply wp_ret. intros st1 Hl. apply (settles_ret start (Ok empty_turn_commit)). exact (later_kept _ _ _ (settled_kept _) Hl Hs).
Qed.
Lemma release_turn_ended start st : turn_ended (sa_key start) st -> forall Q : unit -> RoomStore -> Prop,
  (forall st1, later st st1 -> Q tt st1) -> wp Q None (outside (ReleaseTerminalTurn (exact_turn_authority start))) st.
Proof. intros He Q HQ. apply (wp_release Q _ Ret); [done|]. intros st1 Hl. apply wp_ret. intros st2 Hl'. apply HQ. by eapply later_trans. Qed.
Lemma release_stop_ended start error st (Q : unit -> RoomStore -> Prop) :
  (forall st1, later st st1 -> Q tt st1) -> wp Q None (release_stop start error) st.
Proof. intros HQ. apply (wp_outside _ _ _ Ret); [by apply free_other|]. intros [] st1 Hl. apply wp_ret. intros st2 Hl'. apply HQ. by eapply later_trans. Qed.

(** Whether an interrupt took the turn over, if that is asked. *)
Lemma phase_asked start (asked : bool) st :
  wp (phase_known start) None (if asked then exact_interrupt_phase start else Ret (Ok None)) st.
Proof. destruct asked; [apply exact_interrupt_phase_known|by apply wp_ret]. Qed.

(** Whoever took the turn over, it is settled. *)
Lemma after_phase start (asked : bool) (release : prog unit) k st :
  (forall st, turn_ended (sa_key start) st -> forall Q : unit -> RoomStore -> Prop, (forall st1, later st st1 -> Q tt st1) -> wp Q None release st) ->
  leaves (turn_settled (sa_key start)) is_ok k ->
  wp (fun (a : tx AgentTurnCommit) st' => is_ok a = true -> turn_settled (sa_key start) st') None
    (phase <-? (if asked then exact_interrupt_phase start else Ret (Ok None));
     match phase with
     | Some phase => (if bool_decide (phase = EffFinalized) then release else Ret tt) ;; Ret (Ok empty_turn_commit)
     | None => k
     end)%prog st.
Proof.
  intros Hr Hk. apply wp_bind. eapply wp_mono; [|apply phase_asked]. intros r st1 _ Hknown.
  destruct r as [[phase|]|e]; cbn [try_prog]; [|apply Hk|by apply wp_ret].
  destruct Hknown as [Hs He]. by apply finalized_release_settles; [|apply Hr|].
Qed.

Lemma commit_error_settles start error : leaves (turn_settled (sa_key start)) is_ok (commit_provider_error start error).
Proof.
  intros st. unfold commit_provider_error. cbv zeta. apply after_phase.
  - intros st1 _ Q HQ. by apply release_stop_ended.
  - intros st1. apply (after_phase start _ (outside (ReleaseTerminalTurn (exact_turn_authority start)))); [by apply release_turn_ended|apply commit_failed_settles].
Qed.

Lemma commit_exact_settles start result : leaves (turn_settled (sa_key start)) is_ok (commit_exact_provider_result start result).
Proof.
  intros st. unfold commit_exact_provider_result. cbv zeta. destruct result as [result|error]; [|apply commit_error_settles].
  apply wp_bind. eapply wp_mono; [|exact (commit_completed_ends start result st)]. intros [commit|error] st1 _ Hend.
  - specialize (Hend eq_refl). apply wp_bind, release_turn_ended; [done|]. intros st2 Hl.
    exact (settles_ret _ _ _ (ended_settled _ _ (later_kept _ _ _ (ended_kept _) Hl Hend))).
  - apply (after_phase start true (outside (ReleaseTerminalTurn (exact_turn_authority start))) (Ret (Err error)));
      [by apply release_turn_ended|]. intros st2. by apply wp_ret.
Qed.

Definition result_key (completed : ProviderTurnTaskResult) : option execution_key :=
  match tr_start_authority completed with Ok start => Some (sa_key start) | Err _ => None end.
Lemma commit_result_settles completed st :
  wp (fun (a : tx AgentTurnCommit) st' => is_ok a = true -> exists key, result_key completed = Some key /\ turn_settled key st') None
    (commit_provider_result completed) st.
Proof.
  unfold commit_provider_result, result_key. destruct (tr_start_authority completed) as [start|e], (tr_result completed) as [result|];
    try by apply wp_ret. eapply wp_mono; [|apply commit_exact_settles]. intros a st' _ Hs Ha. exists (sa_key start). by auto.
Qed.

Lemma leaves_safe {A} (P : A -> RoomStore -> Prop) (p : prog A) : (forall st, wp P None p st) -> safe p.
Proof. intros Hp st. by eapply wp_mono; [|apply Hp]. Qed.
Lemma commit_result_safe completed : safe (commit_provider_result completed).
Proof. eapply leaves_safe, commit_result_settles. Qed.
Lemma commit_exact_safe start result : safe (commit_exact_provider_result start result).
Proof. eapply leaves_safe, commit_exact_settles. Qed.
#[local] Hint Resolve commit_result_safe commit_exact_safe run_task_safe : safe.
Lemma spawn_turn_safe assignment : safe (spawn_provider_turn assignment).
Proof. unfold spawn_provider_turn. safe_steps. Qed.
#[local] Hint Resolve spawn_turn_safe : safe.
Lemma spawn_turns_safe assignments : safe (spawn_provider_turns assignments).
Proof. induction assignments as [|a l IH]; cbn [spawn_provider_turns]; safe_steps. Qed.
#[local] Hint Resolve spawn_turns_safe : safe.
Lemma publish_turn_commit_safe commit : safe (publish_turn_commit commit).
Proof. unfold publish_turn_commit. safe_steps. Qed.
#[local] Hint Resolve publish_turn_commit_safe : safe.
Lemma handle_safe result : safe (handle_provider_result result).
Proof. unfold handle_provider_result. safe_steps. Qed.

(** ** A turn is interrupted *)

Lemma later_lost {A} permit (r : tx A) (P : RoomStore -> Prop) st : is_ok r = false ->
  wp (fun (a : tx A) st' => is_ok a = true -> P st') permit (Ret r) st.
Proof. intros Hr. apply wp_ret. intros st' _ Ha. congruence. Qed.

(** A transaction that needs to know something of its store. *)
Lemma wp_knowing {A B} (Q : A -> RoomStore -> Prop) permit P (t : instant -> rtx B) k st :
  kept P -> P st ->
  (forall now st1 b st2, custody_ok st1 -> P st1 -> t now st1 = Ok (b, st2) -> custody_step st1 st2 /\ wp Q None (k (Ok b)) st2) ->
  (forall e st1, P st1 -> wp Q None (k (Err e)) st1) -> wp Q permit (prog_bind (commits t) k) st.
Proof.
  intros HP H0' Hok Herr. apply wp_transact.
  - intros now st1 b st2 Hl Hr. destruct (Hok now st1 b st2 (lt_after _ _ Hl) (later_kept _ _ _ HP Hl H0') Hr) as [Hs Hk].
    split; [by apply custodial_once|]. by exists None.
  - intros e st1 Hl _. exact (Herr e st1 (later_kept _ _ _ HP Hl H0')).
Qed.

Lemma ended_answer {A} key (a : A) st : turn_ended key st -> wp (fun (r : tx A) st' => is_ok r = true -> turn_ended key st') None (Ret (Ok a)) st.
Proof. intros He. apply wp_ret. intros st' Hl _. exact (later_kept _ _ _ (ended_kept _) Hl He). Qed.

Lemma quiescence_ends authority effect quiescence : exact_key authority = ie_key effect ->
  leaves (turn_ended (ie_key effect)) is_ok (finalize_exact_quiescence authority effect quiescence).
Proof.
  intros Hkey st. unfold finalize_exact_quiescence. destruct quiescence.
  - apply (wp_reach _ _ (turn_ended (ie_key effect))); [intros now; apply finalize_retained_ends| |by intros; apply later_lost].
    intros commit st1 _ He. cbn [try_prog]. apply wp_release; [by rewrite Hkey|]. intros st2 Hl.
    exact (ended_answer _ _ _ (later_kept _ _ _ (ended_kept _) Hl He)).
  - apply wp_looks; [|by intros; apply later_lost]. intros candidate st1 _ Hc. cbn [try_prog].
    destruct (negb _); [by apply later_lost|].
    assert (tc_key candidate = ie_key effect) as Hk.
    { unfold load_turn_candidate in Hc. do 4 (apply bind_Ok in Hc as (? & _ & Hc)). by injection Hc as <-. }
    apply (wp_reach _ _ (turn_ended (tc_key candidate))); [intros now; apply runtime_gone_ends| |by intros; apply later_lost].
    rewrite Hk. intros commit st2 _ He. cbn [try_prog]. apply wp_outside; [by apply free_other|]. intros [] st3 Hl.
    exact (ended_answer _ _ _ (later_kept _ _ _ (ended_kept _) Hl He)).
Qed.

Lemma await_ends authority waiting : exact_key authority = ie_key waiting ->
  leaves (turn_ended (ie_key waiting)) is_ok (await_quiescence authority waiting).
Proof.
  intros Hkey st. unfold await_quiescence. apply wp_outside; [by apply free_other|]. intros [quiescence|error] st1 _; [by apply quiescence_ends|].
  apply wp_commits; [auto with transactions| |by intros; apply later_lost]. intros now st2 [] st3 _ _. by apply later_lost.
Qed.

(** An effect that is waited for is the one that was claimed. *)
Definition same_turn (effect : ProviderTurnInterruptEffect) (r : tx ProviderTurnInterruptEffect) : Prop :=
  match r with Ok waiting => ie_key waiting = ie_key effect | Err _ => True end.

Lemma issue_same_turn authority claim disposition st :
  exact_key authority = ie_key (cl_effect claim) -> holds_effect (cl_effect claim) st ->
  wp (fun r _ => same_turn (cl_effect claim) r) None (issue_interrupt authority claim disposition) st.
Proof.
  intros Hkey Hh.
  assert (Hunstarted : wp (fun r _ => same_turn (cl_effect claim) r) None
    (commits (fun now => mark_unstarted_interrupt_waiting claim (timestamp_millis now))) st).
  { apply (wp_knowing _ _ _ _ Ret _ (holds_effect_kept (cl_effect claim)) Hh); [|by intros; apply wp_ret].
    intros now st1 waiting st2 Hok Hh1 Hr. unfold mark_unstarted_interrupt_waiting in Hr. destruct (waiting_issued _ _ _ _ _ _ Hok Hh1 Hr) as [Hs Hk _ _]. split; [done|by apply wp_ret]. }
  unfold issue_interrupt. destruct disposition; [exact Hunstarted| |exact Hunstarted]. clear Hunstarted.
  apply wp_bind. unfold authorize_provider_interrupt_dispatch.
  apply (wp_knowing _ _ _ _ _ _ (holds_effect_kept (cl_effect claim)) Hh); [|by intros; apply wp_ret; intros; apply wp_ret].
  intros now sta [] stb Hok Hh1 Hr. destruct (dispatch_given _ _ _ _ _ Hok Hh1 Hr) as (Hs & _ & Hgivenb).
  split; [done|]. cbn [try_prog]. apply (wp_looks _ _ _ Ret); [|by intros; apply wp_ret; intros; apply wp_ret].
  intros dispatched st1 Hl1 [Hk Hheld1]%load_holds. apply wp_ret. intros st2 Hl2.
  pose proof (later_kept _ _ _ (dispatched_kept _) Hl2 (later_kept _ _ _ (dispatched_kept _) Hl1 Hgivenb)) as Hgiven.
  pose proof (later_kept _ _ _ (holds_effect_kept _) Hl2 Hheld1) as Hheld. cbn [try_prog]. apply wp_request; [by rewrite Hkey|]. intros st3 Hl.
  pose proof (later_kept _ _ _ (holds_effect_kept _) Hl Hheld) as Hh3.
  apply (wp_knowing _ _ _ _ _ _ (holds_effect_kept dispatched) Hh3).
  - intros now' st4 waiting st5 Hok4 Hh4 Hr'. unfold mark_provider_interrupt_issued in Hr'.
    destruct (waiting_issued _ _ _ _ _ _ Hok4 Hh4 Hr') as [Hs' Hk' _ _].
    split; [done|]. apply wp_ret. intros st6 _. simpl. congruence.
  - intros e st4 Hh4. apply (wp_knowing _ _ _ _ _ _ (holds_effect_kept dispatched) Hh4); [|by intros; apply wp_ret].
    intros now' st5 [] st6 Hok5 Hh5 Hr'. split; [by eapply ambiguous_step|]. by apply wp_ret.
Qed.

Lemma apply_interrupt_ends effect : leaves (turn_ended (ie_key effect)) is_ok (apply_exact_interrupt effect).
Proof.
  intros st. unfold apply_exact_interrupt. apply wp_outside; [by apply free_other|]. intros owner st1 _.
  apply wp_transact; [|by intros; apply later_lost]. intros now st2 claim st3 Hl Hr. destruct (claim_holds _ _ _ _ _ _ Hr) as (Hs & Hk & Hh).
  split; [by apply custodial_once|]. exists None. split; [done|]. cbn [try_prog]. cbv zeta.
  apply wp_outside; [by apply free_other|]. intros [disposition|error] st4 Hl4.
  - apply wp_bind. eapply wp_mono; [|apply issue_same_turn; [done|exact (later_kept _ _ _ (holds_effect_kept _) Hl4 Hh)]].
    intros [waiting|e] st5 _ Hsame; [|by apply later_lost]. cbn [try_prog]. simpl in Hsame.
    assert (E : ie_key waiting = ie_key effect) by congruence. rewrite <- E. apply await_ends. simpl. by rewrite E, <- Hk.
  - apply wp_commits; [auto with transactions| |by intros; apply later_lost]. intros now' st5 [] st6 _ _. by apply later_lost.
Qed.
Lemma apply_interrupt_safe effect : safe (apply_exact_interrupt effect).
Proof. eapply leaves_safe, apply_interrupt_ends. Qed.

(** Whether an interrupt that was resumed ended its turn. *)
Definition resumed (r : tx (option AgentTurnCommit)) : bool := match r with Ok (Some _) => true | _ => false end.
Lemma not_resumed (r : tx (option AgentTurnCommit)) permit P st : resumed r = false ->
  wp (fun a st' => resumed a = true -> P st') permit (Ret r) st.
Proof. intros Hr. apply wp_ret. intros st' _ Ha. congruence. Qed.
Lemma resume_interrupt_ends effect : leaves (turn_ended (ie_key effect)) resumed (resume_exact_interrupt effect).
Proof.
  intros st. unfold resume_exact_interrupt. apply wp_outside; [by apply free_other|]. intros [] st1 _; cbn [negb]; [|by apply not_resumed].
  apply wp_outside; [by apply free_other|]. intros owner st2 _.
  apply wp_transact; [|intros e st3 _ _; apply not_resumed; by destruct (unresolved_as _ e)].
  intros now st3 claim st4 Hl Hr. destruct (claim_recovery_holds _ _ _ _ _ _ Hr) as (Hs & Hk & Hh).
  split; [by apply custodial_once|]. exists None. split; [done|]. cbv zeta.
  apply wp_outside; [by apply free_other|]. intros [disposition|error] st5 Hl5.
  - apply (wp_knowing _ _ _ _ _ _ (holds_effect_kept (cl_effect claim)) (later_kept _ _ _ (holds_effect_kept _) Hl5 Hh)); [|by intros; apply not_resumed].
    intros now' st6 waiting st7 Hok Hh6 Hr'. destruct (recovery_wait_issued _ _ _ _ _ Hok Hr') as [Hs' Hk' _ Hgiven].
    split; [done|]. cbn [try_prog]. apply wp_bind.
    assert (Hend : forall st8, wp (fun a st' => resumed a = true -> turn_ended (ie_key effect) st') None
      (commit <-? await_quiescence (interrupt_authority (cl_effect claim)) waiting; Ret (Ok (Some commit)))%prog st8).
    { intros st8. apply wp_bind. assert (E : ie_key waiting = ie_key effect) by congruence. rewrite <- E.
      eapply wp_mono; [|apply await_ends; by rewrite Hk']. intros [commit|e] st9 _ He; [|by apply not_resumed]. cbn [try_prog].
      apply wp_ret. intros st10 Hl10 _. exact (later_kept _ _ _ (ended_kept _) Hl10 (He eq_refl)). }
    destruct disposition; [apply (wp_request _ _ Ret); [done|]; intros st8 _..|]; by apply wp_ret.
  - apply wp_commits; [auto with transactions| |by intros; apply not_resumed]. intros now' st6 [] st7 _ _. by apply not_resumed.
Qed.
Lemma resume_interrupt_safe effect : safe (resume_exact_interrupt effect).
Proof. eapply leaves_safe, resume_interrupt_ends. Qed.

(** ** Turns are reconciled *)

Lemma gone_turn_transaction candidate : transaction (finalize_provider_turn_runtime_gone candidate).
Proof. apply (reaching_transaction (turn_ended (tc_key candidate))). intros now. apply runtime_gone_ends. Qed.
#[local] Hint Resolve gone_turn_transaction : transactions.
#[local] Hint Resolve resume_interrupt_safe : safe.
Lemma publish_commit_safe commit : safe (publish_commit commit).
Proof. unfold publish_commit. safe_steps. Qed.
#[local] Hint Resolve publish_commit_safe : safe.
Lemma finalize_gone_safe candidate : safe (finalize_gone candidate).
Proof. unfold finalize_gone. safe_steps. Qed.
Lemma resume_assignment_safe candidate : safe (resume_assignment candidate).
Proof. unfold resume_assignment. safe_steps. Qed.
Lemma record_task_death_safe candidate : safe (record_task_death candidate).
Proof. unfold record_task_death. safe_steps. Qed.
Lemma resume_candidate_safe candidate : safe (resume_candidate_interrupt candidate).
Proof. unfold resume_candidate_interrupt. safe_steps. Qed.
#[local] Hint Resolve finalize_gone_safe resume_assignment_safe record_task_death_safe resume_candidate_safe : safe.
Lemma startup_candidate_safe candidate : safe (reconcile_startup_candidate candidate).
Proof. unfold reconcile_startup_candidate. cbv zeta. safe_steps. Qed.
#[local] Hint Resolve startup_candidate_safe : safe.
Lemma each_safe {E A} (l : list A) (f : A -> prog (result E unit)) : (forall a, safe (f a)) -> safe (each l f).
Proof. intros Hf. induction l as [|a l IH]; cbn [each]; safe_steps; apply Hf. Qed.
Lemma startup_pages_safe fuel cursor reconciled : safe (reconcile_startup_pages fuel cursor reconciled).
Proof.
  revert cursor reconciled. induction fuel as [|fuel IH]; intros cursor reconciled; cbn [reconcile_startup_pages]; [safe_steps|].
  apply safe_bind; [safe_steps|intros ?]. apply safe_try; intros page. apply safe_bind; [by apply each_safe, startup_candidate_safe|intros ?].
  apply safe_try; intros ?. safe_steps.
Qed.
Lemma unowned_safe candidate observation : safe (reconcile_unowned_observation candidate observation).
Proof. unfold reconcile_unowned_observation. cbv zeta. safe_steps. Qed.
#[local] Hint Resolve unowned_safe : safe.

(** A turn that never started is forgotten when it was ended. *)
Lemma not_started_safe candidate : safe (finalize_not_started candidate).
Proof.
  intros st. apply (wp_reach _ _ (turn_ended (tc_key candidate))); [intros now; apply not_started_ends| |by intros; apply wp_ret].
  intros commit st1 _ He. cbn [try_prog]. apply wp_release; [|intros; apply publish_commit_safe].
  unfold candidate_authority. by destruct (tc_key candidate) as [[r i] g].
Qed.
#[local] Hint Resolve not_started_safe : safe.
Lemma live_candidate_safe candidate : safe (reconcile_live_candidate candidate).
Proof.
  unfold reconcile_live_candidate. cbv zeta. safe_steps.
Qed.

(** ** The commands that interrupt a turn *)

Lemma with_interrupt_safe execution effect : safe (with_interrupt execution effect).
Proof.
  unfold with_interrupt. destruct effect as [effect|]; [|apply safe_ret]. apply safe_bind; [apply apply_interrupt_safe|]. intros ?. apply safe_ret.
Qed.
#[local] Hint Resolve with_interrupt_safe : safe.
Lemma mute_transaction authority request_id payload : transaction (execute_participant_mute authority request_id payload).
Proof. apply custodial_transaction. intros now. apply execute_participant_mute_custodial. Qed.
Lemma agent_interrupt_transaction authority request_id payload : transaction (execute_agent_interrupt authority request_id payload).
Proof. apply custodial_transaction. intros now. apply execute_agent_interrupt_custodial. Qed.
#[local] Hint Resolve mute_transaction agent_interrupt_transaction : transactions.
Lemma run_mute_safe command : safe (run_participant_mute command).
Proof. unfold run_participant_mute. safe_steps. Qed.
Lemma accept_interrupt_safe command : safe (accept_agent_interrupt command).
Proof. unfold accept_agent_interrupt. safe_steps. Qed.
#[local] Hint Resolve accept_interrupt_safe : safe.
Lemma run_interrupt_safe command : safe (run_agent_interrupt command).
Proof. unfold run_agent_interrupt. safe_steps. Qed.

(** ** The jobs of the server *)

(** What a server runs: the task of a turn, the room actor's handling of what it returned and the commit in it, the
    interrupt that a command prepared, the posting of a message, the commands that mute a participant and interrupt an
    agent, and the reconciliation before and after admission. *)
Inductive TurnJob : Type :=
| JobTurn (assignment : AgentTurnAssignment)
| JobResult (result : option ProviderTurnTaskResult)
| JobCommit (completed : ProviderTurnTaskResult)
| JobInterrupt (effect : ProviderTurnInterruptEffect)
| JobMessage (principal : AuthenticatedPrincipal) (request_id action : str) (payload : value)
| JobMute (command : RoomCommand)
| JobAgentInterrupt (command : RoomCommand)
| JobStartupTurns (fuel : nat)
| JobLiveTurn (candidate : ProviderTurnReconciliationCandidate).

Definition turn_reply (j : TurnJob) : Type :=
  match j with
  | JobTurn _ => ProviderTurnTaskResult
  | JobResult _ => option PublicationAttempt
  | JobCommit _ | JobInterrupt _ => tx AgentTurnCommit
  | JobMessage _ _ _ _ => tx RoomCommandMutation
  | JobMute _ | JobAgentInterrupt _ => CommandExecution
  | JobStartupTurns _ => tx nat
  | JobLiveTurn _ => tx unit
  end.
Definition turn_program (j : TurnJob) : prog (turn_reply j) :=
  match j with
  | JobTurn assignment => run_provider_turn_task assignment
  | JobResult result => handle_provider_result result
  | JobCommit completed => commit_provider_result completed
  | JobInterrupt effect => apply_exact_interrupt effect
  | JobMessage principal request_id action payload => commits (execute_message_in principal request_id action payload)
  | JobMute command => run_participant_mute command
  | JobAgentInterrupt command => run_agent_interrupt command
  | JobStartupTurns fuel => reconcile_provider_turn_ownership fuel
  | JobLiveTurn candidate => reconcile_live_candidate candidate
  end.
Definition turn_jobs : Jobs := {| Job := TurnJob; job_reply := turn_reply; job_program := turn_program |}.
#[local] Existing Instance turn_jobs.

(** What is known when a job ended. *)
Definition turn_post (j : TurnJob) : turn_reply j -> RoomStore -> Prop :=
  match j with
  | JobCommit completed => fun r st => is_ok r = true -> exists key, result_key completed = Some key /\ turn_settled key st
  | JobInterrupt effect => fun r st => is_ok r = true -> turn_ended (ie_key effect) st
  | _ => fun _ _ => True
  end.
Lemma turn_job_wp (j : TurnJob) st : custody_ok st -> wp (turn_post j) None (turn_program j) st.
Proof.
  intros _. destruct j; simpl; [apply run_task_safe|apply handle_safe|apply commit_result_settles|apply apply_interrupt_ends
    |refine (safe_commits _ (custodial_transaction _ _) st); intros now; apply execute_message_custodial
    |apply run_mute_safe|apply run_interrupt_safe|apply startup_pages_safe|apply live_candidate_safe].
Qed.

Lemma sent_once key start l st permits :
  custody_ok start -> chain start l st -> sublist permits l -> Forall (fun c => authorizes_turn key c.1 c.2) permits ->
  (length permits <= 1)%nat.
Proof.
  intros Hok Hchain Hsub Hall. destruct permits as [|a [|b rest]]; simpl; [lia..|]. exfalso.
  apply Forall_cons in Hall as [Ha [Hb _]%Forall_cons]. destruct (@chain_ordered turn_protocol _ _ _ _ _ _ Hok Hchain Hsub) as (Hoka & _ & Hab & _).
  assert (custodial a.2 b.1) as Hc by (clear -Hab; induction Hab as [|x y z Hxy _ IH]; [done|by etrans]).
  exact (authorizes_turn_once _ _ _ _ _ Hoka Ha Hc Hb).
Qed.

(** a. *)

(** C5: in every run of a server, or of several one after another, in which turns, commits
    of their results, interrupts, messages and reconciliations interleave in any order,
    panic and are lost at any point, the input of a turn is sent to its provider at most
    once. *)
Theorem turn_input_sent_once (key : execution_key) (start st : RoomStore) (trace : list Event) (tasks : list Task)
    (Hok : custody_ok start) (Hrun : server_run (start, []) trace (st, tasks)) :
  (length (calls_of key trace) <= 1)%nat.
Proof.
  destruct (@calls_are_granted turn_protocol turn_jobs turn_post turn_job_wp _ _ _ _ key Hok Hrun) as [Hchain (l & Hsub & Hall & Hlen)].
  pose proof (sent_once key _ _ _ _ Hok Hchain Hsub Hall). lia.
Qed.

(** A turn that is interrupted before its start was authorized is never started: nobody was given its start before, and
    nobody is given it afterwards. *)
Lemma interrupted_grant key start l st a b c :
  custody_ok start -> chain start l st -> (a, b) ∈ l -> c ∈ l -> (phases a key).1 = Some ExecAssigned -> (phases b key).2 <> None ->
  ~ authorizes_turn key c.1 c.2.
Proof.
  assert (Hcustodial : forall x y, rtc (@protocol_step turn_protocol) x y -> custodial x y).
  { induction 1 as [|x y z Hxy _ IH]; [done|by etrans]. }
  intros Hok Hchain Hin Hc Ha Hb Hgrant. destruct (two_commits _ _ _ Hin Hc) as [<-|[Hsub|Hsub]].
  - destruct (@chain_member turn_protocol _ _ _ _ Hok Hchain Hin) as [Hoka _]. simpl in Hoka, Hgrant.
    apply Hb. rewrite (authorizes_effects _ _ _ Hgrant). by apply assigned_no_interrupt.
  - destruct (@chain_ordered turn_protocol _ _ _ _ _ _ Hok Hchain Hsub) as (Hoka & Hab & Hbc & _). simpl in *.
    assert (custody_ok b) as Hokb by (by eapply custodial_ok). apply Hcustodial in Hbc.
    pose proof (interrupt_stays key _ _ Hokb Hbc Hb) as Hn. apply authorizes_assigned in Hgrant as [Hp _].
    by apply Hn, assigned_no_interrupt; [eapply custodial_ok|].
  - destruct (@chain_ordered turn_protocol _ _ _ _ _ _ Hok Hchain Hsub) as (Hokc & _ & Hda & _). simpl in *.
    by apply (authorized_not_assigned _ _ _ _ Hokc Hgrant (Hcustodial _ _ Hda)).
Qed.

(** b. *)

(** C6: in every such run, a turn that was interrupted, by an operator or because its agent
    was muted, before its start was authorized is never sent to its provider: not by a task
    that was under way, and not by one that came later. *)
Theorem interrupted_before_start_never_sent (key : execution_key) (start st a b : RoomStore) (trace : list Event) (tasks : list Task)
    (Hok : custody_ok start) (Hrun : server_run (start, []) trace (st, tasks)) (Hcommit : committed a b ∈ trace)
    (Hassigned : (phases a key).1 = Some ExecAssigned) (Hinterrupted : (phases b key).2 <> None) :
  calls_of key trace = [].
Proof.
  destruct (@calls_are_granted turn_protocol turn_jobs turn_post turn_job_wp _ _ _ _ key Hok Hrun) as [Hchain (l & Hsub & Hall & Hlen)].
  assert ((a, b) ∈ commits_of trace) as Hin by (apply list_elem_of_omap; by exists (committed a b)).
  destruct l as [|c l]; [apply length_zero_iff_nil; simpl in Hlen; lia|exfalso].
  apply Forall_cons in Hall as [Hc _]. eapply interrupted_grant; [exact Hok|exact Hchain|exact Hin| |done|done|exact Hc].
  eapply elem_of_sublist; [|exact Hsub]. by left.
Qed.

(** c. *)

(** C7: in every such run, the provider is told to forget a turn, with its retained result,
    only when the store says that the turn ended, and is asked to interrupt a turn only when
    the store says that the interrupt was given out. *)
Theorem provider_told_only_what_is_stored (start st : RoomStore) (trace : list Event) (tasks : list Task) (then_ : RoomStore)
    (authority : ProviderExactTurnAuthority)
    (Hok : custody_ok start) (Hrun : server_run (start, []) trace (st, tasks)) :
  (called then_ (ReleaseTerminalTurn authority) ∈ trace ->
   exists phase, (phases then_ (exact_key authority)).1 = Some phase /\ phase_is_blocking phase = false) /\
  (called then_ (RequestInterrupt authority) ∈ trace ->
   exists phase, (phases then_ (exact_key authority)).2 = Some phase /\ phase <> EffPrepared /\ phase <> EffClaimed).
Proof.
  pose proof (@calls_are_allowed turn_protocol turn_jobs turn_post turn_job_wp _ _ _ _ Hok Hrun) as Hall. rewrite Forall_forall in Hall.
  split; intros Hin; specialize (Hall _ Hin); unfold allowed in Hall; simpl in Hall.
  - unfold turn_ended, is_ended in Hall. destruct (phases then_ _).1 as [phase|]; [|done]. exists phase. split; [done|]. by destruct (phase_is_blocking phase).
  - unfold interrupt_dispatched, is_dispatched in Hall. destruct (phases then_ _).2 as [phase|]; [|done]. exists phase. by destruct phase.
Qed.

(** The commit an interrupt, or the commit of a result, ended with. *)
Definition committed_turn (task : Task) : option execution_key :=
  match task with
  | MkTask j rest =>
      match j return prog (turn_reply j) -> option execution_key with
      | JobCommit completed => fun rest => match rest with Ret (Ok _) => result_key completed | _ => None end
      | JobInterrupt effect => fun rest => match rest with Ret (Ok _) => Some (ie_key effect) | _ => None end
      | _ => fun _ => None
      end rest
  end.

(** d. *)

(** C8: when the result of a turn was committed, or an interrupt reports success, whatever
    ran beside it, the turn is stored as ended, quarantined or taken over by an interrupt:
    its provider is not waited for any more. *)
Theorem turn_success_is_stored (start st : RoomStore) (trace : list Event) (tasks : list Task) (task : Task) (key : execution_key)
    (Hok : custody_ok start) (Hrun : server_run (start, []) trace (st, tasks)) (Htask : task ∈ tasks)
    (Hcommitted : committed_turn task = Some key) :
  exists phase, (phases st key).1 = Some phase /\ phase <> ExecAssigned /\ phase <> ExecStartDispatching /\ phase <> ExecRunning.
Proof.
  pose proof (fun r => @replies_are_kept turn_protocol turn_jobs turn_post turn_job_wp _ _ _ _ task r Hok Hrun Htask) as Hpost.
  assert (turn_settled key st) as Hs.
  { destruct task as [[] rest]; simpl in *; try done; destruct rest as [[commit|]| |]; try done.
    - destruct (Hpost _ eq_refl eq_refl) as (key' & E & Hs). congruence.
    - injection Hcommitted as <-. apply ended_settled. exact (Hpost _ eq_refl eq_refl). }
  unfold turn_settled, is_settled in Hs. destruct (phases st key).1 as [phase|]; [|done]. exists phase. by destruct phase.
Qed.
End server.

(** ** Concrete inputs *)

#[local] Existing Instances ascii_general_category ascii_uppercase ascii_unicode_case plain_case identity_digest plain_clock demo_entropy
  demo_persona accept_uuid every_instant no_parent demo_serde no_matches demo_json demo_summaries demo_session_serde identity_bytes.

(** A provider that takes what it is given, and whose runtime stays when it is interrupted. *)
Definition demo_prepared : ProviderPreparedTurn := MkPreparedTurn [] [] [] [] 1 [] [] [] (u "preparation").
Definition demo_done : ProviderTurnCompleted := MkProviderCompleted (u "turn-1") (u "provider-turn") None (OutcomeDeclined (u "not_addressed")).
Definition demo_refusal : ProviderAdapterError := MkAdapterError (u "provider_error") (u "No.") false [] [] [] false.
Definition turn_provider (B : Type) (c : Outside B) : B :=
  match c with
  | ReserveStart _ => Err demo_refusal
  | StartReserved _ => Err demo_refusal
  | StopProvider _ _ _ _ _ => Ok tt
  | ProveResidentRuntime _ => Err demo_refusal
  | Observe _ => ProviderGone
  | ObserveWithin _ => Some ProviderGone
  | ObserveUnordered sessions => imap (fun i _ => (i, ProviderGone)) sessions
  | RetainedTurnResult _ => Some (Ok demo_done)
  | RequireRetainedInterrupt _ _ => Ok tt
  | BeginExactTurn _ => Ok DispositionStarted
  | WaitQuiesced _ => Ok RuntimeRetained
  | PrepareTurn _ _ => Ok demo_prepared
  | SendPreparedTurn _ _ _ => Ok demo_done
  | ValidateCreation _ _ _ => Err (MkSelectionError [] [])
  | CheckDraft _ | DrainRoomPublications _ | ResumeAssignedTurns _ _ => Ok tt
  | OwnsExactTurn _ | RetainedNotStartedProof _ | Cancelled | Panics => false
  | PublishRoomEvents _ => Drained
  | ClaimLifecycleCommand _ _ _ _ => true
  | FreshUuid => u "owner"
  | CancelStartReservation _ _ _ | ReleaseConfirmedStop _ _ _ _ _ | ReleaseCheckpointedStartAbsence _ | RequestInterrupt _
  | ReleaseTerminalTurn _ | RetainUnstartedTurn _ | NotifyRoomPublication _ | NotifyCommittedEvents _ | SpawnProviderTurn _ => tt
  end.

(** Ann posts a message, and an agent is to answer it: its task is lost with its server when the provider has the turn,
    and the next server is asked to run it again. *)
Definition no_assignment : AgentTurnAssignment := MkAgentTurnAssignment demo_turn [] 0 [] demo_envelope.
Definition posted_assignment : AgentTurnAssignment := default no_assignment (head (cm_assignments demo_posted_outcome)).
Definition posted_job : TurnJob := JobTurn posted_assignment.
Definition posted_first := run_prog 9 turn_provider 5 demo_posted (run_provider_turn_task posted_assignment).
Definition posted_second := run_prog 40 turn_provider 6 posted_first.1.2 (run_provider_turn_task posted_assignment).
Definition posted_key : execution_key :=
  (s_room_id (d_public (at_session posted_assignment)), s_session_id (d_public (at_session posted_assignment)),
   at_turn_generation posted_assignment).

(** The task ends when it is not lost, and what it returned is committed. *)
Definition posted_whole := run_prog 40 turn_provider 5 demo_posted (run_provider_turn_task posted_assignment).
Definition no_result : ProviderTurnTaskResult := MkTaskResult no_assignment true (Err Database) None.
Definition returned {A} (otherwise : A) (rest : prog A) : A := match rest with Ret a => a | _ => otherwise end.
Definition posted_result : ProviderTurnTaskResult := returned no_result posted_whole.2.
Definition posted_commit := run_prog 40 turn_provider 7 posted_whole.1.2 (@job_program turn_jobs (JobCommit posted_result)).

(** Or the turn is interrupted before. *)
Definition posted_row : ProviderTurnExecution := default no_execution (st_executions posted_whole.1.2 !! posted_key).
Abbreviation posted_prepare := (prepare_interrupt_effect posted_key posted_row AgentInterrupt) (only parsing).
Definition posted_prepared : RoomStore := step no_effect posted_prepare posted_whole.1.2.
Definition posted_effect : ProviderTurnInterruptEffect := value_of no_effect posted_prepare posted_whole.1.2.
Definition posted_interrupt := run_prog 60 turn_provider 8 posted_prepared (@job_program turn_jobs (JobInterrupt posted_effect)).

(** Or its agent is muted while its task has prepared it, and the task goes on afterwards. *)
Definition mute_command : RoomCommand := MkRoomCommand demo_ann demo_operator (u "mute-1") MUTE (demo_mute_payload true).
Definition muted_first := run_prog 2 turn_provider 5 demo_posted (@job_program turn_jobs posted_job).
Definition muted_then := run_prog 60 turn_provider 20 muted_first.1.2 (@job_program turn_jobs (JobMute mute_command)).
Definition muted_last := run_prog 40 turn_provider 21 muted_then.1.2 muted_first.2.

Section demo.
#[local] Instance demo_protocol : Protocol := turn_protocol.
#[local] Existing Instance turn_jobs.

Example posted_is_sent : length (calls_of posted_key (posted_first.1.1 ++ posted_second.1.1)) = 1%nat.
Proof. by vm_compute. Qed.
Example posted_is_committed :
  (phases posted_commit.1.2 posted_key, phases posted_interrupt.1.2 posted_key) =
  ((Some ExecDeclined, None), (Some ExecInterrupted, Some EffFinalized)).
Proof. by vm_compute. Qed.

Lemma posted_custody : custody_ok demo_posted.
Proof.
  eapply custody_history_ok; [|exact (execute_message_custodial _ _ _ _ _ _ _ _ demo_posted_Ok)].
  by apply fresh_custody_ok; vm_compute.
Qed.
Lemma whole_custody : custody_ok posted_whole.1.2.
Proof.
  exact (proj1 (@run_keeps_ok turn_protocol turn_jobs turn_post turn_job_wp _ _ _ _ posted_custody
    (alone_run demo_posted posted_job 40 turn_provider 5))).
Qed.
Lemma prepared_custody : custody_ok posted_prepared.
Proof.
  eapply custody_step_ok; [exact whole_custody|]. apply (CsPrepare _ _ posted_key posted_row AgentInterrupt posted_effect).
  - unfold posted_row. destruct (st_executions posted_whole.1.2 !! posted_key) as [x|] eqn:E; [done|].
    exfalso. assert (bool_decide (st_executions posted_whole.1.2 !! posted_key = None) = true) as Hn by (by apply bool_decide_eq_true_2).
    vm_compute in Hn. discriminate Hn.
  - refine (step_Ok no_effect posted_prepare posted_whole.1.2 _). by vm_compute.
Qed.

Lemma turn_input_sent_once_witness : (length (calls_of posted_key (posted_first.1.1 ++ posted_second.1.1)) <= 1)%nat.
Proof.
  exact (turn_input_sent_once posted_key demo_posted posted_second.1.2 _ _ posted_custody
    (restart_run demo_posted posted_job 9 40 turn_provider 5 6)).
Defined.

(** The task was under way, and the interrupt ended the turn before it was sent. *)
Example muted_turn_was_prepared : (length muted_first.1.1, phases muted_then.1.2 posted_key) = (2%nat, (Some ExecInterrupted, Some EffFinalized)).
Proof. by vm_compute. Qed.
Lemma muted_first_store : muted_first.1.2 = demo_posted.
Proof. reflexivity. Qed.
Lemma mute_in_trace : committed demo_posted muted_room ∈ (muted_first.1.1 ++ muted_then.1.1) ++ muted_last.1.1.
Proof.
  apply elem_of_app. left. apply elem_of_app. right.
  exact (run_prog_commits 59 turn_provider 20 (execute_participant_mute demo_operator (u "mute-1") (demo_mute_payload true)) _ demo_posted
    demo_mute muted_room muted_room_Ok).
Qed.
Lemma muted_run : server_run (demo_posted, []) ((muted_first.1.1 ++ muted_then.1.1) ++ muted_last.1.1)
  (muted_last.1.2, [MkTask (JobMute mute_command) muted_then.2; MkTask posted_job muted_last.2]).
Proof. exact (overtaken_run demo_posted posted_job (JobMute mute_command) 2 60 40 turn_provider 5 20 21). Qed.
Lemma interrupted_before_start_never_sent_witness : calls_of posted_key ((muted_first.1.1 ++ muted_then.1.1) ++ muted_last.1.1) = [].
Proof.
  apply (interrupted_before_start_never_sent posted_key demo_posted muted_last.1.2 demo_posted muted_room _ _ posted_custody
    muted_run mute_in_trace); by vm_compute.
Defined.

(** The stores in which the provider was told something of a turn. *)
Definition told (e : Event) : option (RoomStore * ProviderExactTurnAuthority * bool) :=
  match e with
  | MkEvent None (Some (st, existT _ (ReleaseTerminalTurn authority))) => Some (st, authority, true)
  | MkEvent None (Some (st, existT _ (RequestInterrupt authority))) => Some (st, authority, false)
  | _ => None
  end.
Lemma told_call (trace : list Event) l x (released : bool) : l = (omap told trace : list _) -> x ∈ l -> x.2 = released ->
  (if released then called x.1.1 (ReleaseTerminalTurn x.1.2) else called x.1.1 (RequestInterrupt x.1.2)) ∈ trace.
Proof.
  intros -> ([c call] & Hin & Ht)%list_elem_of_omap <-. destruct c as [c|], call as [[st1 [B c']]|]; try done.
  destruct c'; try done; by injection Ht as <-.
Qed.
Definition interrupt_told : list (RoomStore * ProviderExactTurnAuthority * bool) := omap told posted_interrupt.1.1.
Lemma interrupt_told_in : interrupt_told = omap told posted_interrupt.1.1.
Proof. reflexivity. Qed.
Definition told_at (n : nat) : RoomStore * ProviderExactTurnAuthority * bool :=
  default (demo_posted, interrupt_authority no_effect, true) (interrupt_told !! n).
Example interrupt_is_told : map snd interrupt_told = [false; true].
Proof. by vm_compute. Qed.
Lemma told_shape (l : list (RoomStore * ProviderExactTurnAuthority * bool)) a b d : map snd l = [a; b] ->
  default d (l !! 0%nat) ∈ l /\ (default d (l !! 0%nat)).2 = a /\ default d (l !! 1%nat) ∈ l /\ (default d (l !! 1%nat)).2 = b.
Proof. destruct l as [|x [|y [|? ?]]]; try done. simpl. intros [= <- <-]. by split_and!; [left|..|right; left|]. Qed.
Lemma interrupt_shape : told_at 0 ∈ interrupt_told /\ (told_at 0).2 = false /\ told_at 1 ∈ interrupt_told /\ (told_at 1).2 = true.
Proof. exact (told_shape interrupt_told _ _ _ interrupt_is_told). Qed.
Lemma requested_in : called (told_at 0).1.1 (RequestInterrupt (told_at 0).1.2) ∈ posted_interrupt.1.1.
Proof. exact (told_call posted_interrupt.1.1 interrupt_told (told_at 0) false interrupt_told_in (proj1 interrupt_shape) (proj1 (proj2 interrupt_shape))). Qed.
Lemma released_in : called (told_at 1).1.1 (ReleaseTerminalTurn (told_at 1).1.2) ∈ posted_interrupt.1.1.
Proof. exact (told_call posted_interrupt.1.1 interrupt_told (told_at 1) true interrupt_told_in (proj1 (proj2 (proj2 interrupt_shape))) (proj2 (proj2 (proj2 interrupt_shape)))). Qed.

Definition interrupt_task : Task := MkTask (JobInterrupt posted_effect) posted_interrupt.2.
Lemma interrupt_run : server_run (posted_prepared, []) posted_interrupt.1.1 (posted_interrupt.1.2, [interrupt_task]).
Proof. exact (alone_run posted_prepared (JobInterrupt posted_effect) 60 turn_provider 8). Qed.
Lemma provider_told_only_what_is_stored_witness :
  (exists phase, (phases (told_at 1).1.1 (exact_key (told_at 1).1.2)).1 = Some phase /\ phase_is_blocking phase = false) /\
  (exists phase, (phases (told_at 0).1.1 (exact_key (told_at 0).1.2)).2 = Some phase /\ phase <> EffPrepared /\ phase <> EffClaimed).
Proof.
  exact (conj
    (proj1 (provider_told_only_what_is_stored posted_prepared posted_interrupt.1.2 posted_interrupt.1.1 [interrupt_task]
       (told_at 1).1.1 (told_at 1).1.2 prepared_custody interrupt_run) released_in)
    (proj2 (provider_told_only_what_is_stored posted_prepared posted_interrupt.1.2 posted_interrupt.1.1 [interrupt_task]
       (told_at 0).1.1 (told_at 0).1.2 prepared_custody interrupt_run) requested_in)).
Defined.

Definition commit_task : Task := MkTask (JobCommit posted_result) posted_commit.2.
Lemma commit_run : server_run (posted_whole.1.2, []) posted_commit.1.1 (posted_commit.1.2, [commit_task]).
Proof. exact (alone_run posted_whole.1.2 (JobCommit posted_result) 40 turn_provider 7). Qed.
Lemma posted_committed : committed_turn commit_task = Some posted_key.
Proof. by vm_compute. Qed.
Lemma turn_success_is_stored_witness :
  exists phase, (phases posted_commit.1.2 posted_key).1 = Some phase /\ phase <> ExecAssigned /\ phase <> ExecStartDispatching /\ phase <> ExecRunning.
Proof.
  exact (turn_success_is_stored posted_whole.1.2 posted_commit.1.2 posted_commit.1.1 [commit_task] commit_task posted_key whole_custody
    commit_run (list_elem_of_here commit_task []) posted_committed).
Defined.
End demo.
