(* ===== verification/Startup.v ===== *)
(** * The turns found at startup are a finite scan

    [reconcile_startup_pages] of TurnRuntime.v is given a number of pages. However the
    store changes while it runs, it never needs more of them than the rows of custody it
    can meet fill, since each page continues after the last key of the one before. *)

From Stdlib Require Import String.
From stdpp Require Import gmap sorting.
From S2P Require Import Prelude Text Diagnostic Json Bytes Model Command Vote Projection Settings Store Budget Turn Routing RoomStore.
From S2P Require Import Authority Requests Execution Observation VoteStore Scheduler Completion Calm Messages.
From S2P Require Import Reservations Launch Stop Pause Interrupt Lifecycle Create Reconcile TurnRecovery Custody Muting Cleanup Agents Selection.
From S2P Require Import Server LifecycleRuntime TurnRuntime TurnServer.

(** ** The order of keys *)

Lemma pair_leb_total a b : pair_leb a b = true \/ pair_leb b a = true.
Proof.
  unfold pair_leb, str_eqb. case_bool_decide as E; [rewrite bool_decide_eq_true_2 by done|rewrite bool_decide_eq_false_2 by congruence];
    apply str_leb_total.
Qed.
Lemma pair_leb_antisym a b : pair_leb a b = true -> pair_leb b a = true -> a = b.
Proof.
  destruct a as [a1 a2], b as [b1 b2]. unfold pair_leb, str_eqb. simpl.
  case_bool_decide as E; [rewrite bool_decide_eq_true_2 by done|rewrite bool_decide_eq_false_2 by congruence]; intros H1 H2.
  - rewrite E. f_equal. by apply str_leb_antisym.
  - by destruct E; apply str_leb_antisym.
Qed.
Lemma pair_leb_trans a b c : pair_leb a b = true -> pair_leb b c = true -> pair_leb a c = true.
Proof.
  destruct a as [a1 a2], b as [b1 b2], c as [c1 c2]. unfold pair_leb, str_eqb. simpl.
  intros H1 H2. repeat case_bool_decide; subst; try done; try (by eapply str_leb_trans).
  by destruct H; apply str_leb_antisym.
Qed.

#[global] Instance execution_key_total : Total key_le.
Proof.
  intros a b. unfold key_le, key_leb.
  case_bool_decide as E; [rewrite !bool_decide_eq_true_2 by done|rewrite !bool_decide_eq_false_2 by congruence]; [lia|apply pair_leb_total].
Qed.
#[global] Instance execution_key_antisym : AntiSymm (=) key_le.
Proof.
  intros [a1 a2] [b1 b2]. unfold key_le, key_leb. simpl.
  case_bool_decide as E; [rewrite bool_decide_eq_true_2 by done|rewrite bool_decide_eq_false_2 by congruence]; intros H1 H2.
  - rewrite E. f_equal. lia.
  - destruct E. by apply pair_leb_antisym.
Qed.
#[global] Instance execution_key_trans : Transitive key_le.
Proof.
  intros [a1 a2] [b1 b2] [c1 c2]. unfold key_le, key_leb. simpl. intros H1 H2.
  repeat case_bool_decide; subst; try done; try lia; try (by eapply pair_leb_trans).
  by destruct H; apply pair_leb_antisym.
Qed.

(** ** The executions of a program

    The result of a program, and the stores its transactions ran on: a transaction may fail without being run or lose its
    answer, and what is outside answers anything. *)
Fixpoint executes {A} (p : prog A) (stores : list RoomStore) (a : A) : Prop :=
  match p with
  | Ret b => stores = [] /\ a = b
  | Transact t k => exists now st r rest, stores = st :: rest /\ (r = Err Database \/ r = fst <$> t now st) /\ executes (k r) rest a
  | Call c k => exists b, executes (k b) stores a
  end.

Lemma executes_bind {A B} (p : prog A) (f : A -> prog B) stores b :
  executes (prog_bind p f) stores b <-> exists stores1 a stores2, stores = stores1 ++ stores2 /\ executes p stores1 a /\ executes (f a) stores2 b.
Proof.
  revert stores. induction p as [a|C t k IH|C c k IH]; simpl; intros stores.
  - split; [intros Hf; by exists [], a, stores|]. by intros (s1 & a' & s2 & -> & [-> ->] & Hf).
  - split.
    + intros (now & st & r & s & -> & Hr & (s1 & a & s2 & -> & Hp & Hf)%IH). exists (st :: s1), a, s2. split_and!; [done|by exists now, st, r, s1|done].
    + intros (s1 & a & s2 & -> & (now & st & r & s & -> & Hr & Hp) & Hf). exists now, st, r, (s ++ s2). split_and!; [done..|].
      apply IH. by exists s, a, s2.
  - split.
    + intros (answer & (s1 & a & s2 & -> & Hp & Hf)%IH). exists s1, a, s2. split_and!; [done|by exists answer|done].
    + intros (s1 & a & s2 & -> & (answer & Hp) & Hf). exists answer. apply IH. by exists s1, a, s2.
Qed.
Lemma executes_bind_mono {A B} (p : prog A) (f g : A -> prog B) stores b (P : Prop) :
  executes (prog_bind p f) stores b ->
  (forall stores1 a stores2, stores = stores1 ++ stores2 -> executes p stores1 a -> executes (f a) stores2 b -> executes (g a) stores2 b /\ P) ->
  executes (prog_bind p g) stores b /\ P.
Proof.
  intros (s1 & a & s2 & -> & Hp & Hf)%executes_bind Hg. destruct (Hg s1 a s2 eq_refl Hp Hf) as [Ha HP]. split; [|done].
  apply executes_bind. by exists s1, a, s2.
Qed.
Lemma executes_looks {A} (f : RoomStore -> tx A) stores r :
  executes (looks f) stores r <-> exists st, stores = [st] /\ (r = Err Database \/ r = f st).
Proof.
  unfold looks, reads. simpl. split.
  - intros (_ & st & r' & rest & -> & Hr & -> & ->). exists st. split; [done|]. by destruct (f st).
  - intros (st & -> & Hr). exists 0, st, r, []. split_and!; [done| |done..]. by destruct (f st).
Qed.

(** One of them: nothing else happens, at one instant. *)
Fixpoint execution {A} (answer : forall B, Outside B -> B) (now : instant) (st : RoomStore) (p : prog A) : list RoomStore * A :=
  match p with
  | Ret a => ([], a)
  | Transact t k =>
      let '(stores, a) :=
        match t now st with
        | Ok (b, st') => execution answer now st' (k (Ok b))
        | Err e => execution answer now st (k (Err e))
        end in
      (st :: stores, a)
  | Call c k => execution answer now st (k (answer _ c))
  end.
Lemma execution_executes {A} answer now st (p : prog A) : executes p (execution answer now st p).1 (execution answer now st p).2.
Proof.
  revert st. induction p as [a|B t k IH|B c k IH]; intros st; simpl; [done| |by exists (answer B c)].
  exists now, st. destruct (t now st) as [[b st']|e] eqn:Ht.
  - exists (Ok b). specialize (IH (Ok b) st'). destruct (execution _ _ _ _) as [stores a]. simpl in *. exists stores. split_and!; [done| |done].
    by right.
  - exists (Err e). specialize (IH (Err e) st). destruct (execution _ _ _ _) as [stores a]. simpl in *. exists stores. split_and!; [done| |done].
    by right.
Qed.

(** ** The pages *)

(** The keys a scan can meet in a store. *)
Definition startup_keys (st : RoomStore) : list execution_key :=
  map fst (blocking_rows (fun k => negb (cleanup_exists k.1.1 k.1.2 st)) st).

Lemma scanned_in cursor st k : k ∈ scanned_keys cursor st -> k ∈ startup_keys st /\ after cursor k = true.
Proof.
  unfold scanned_keys, startup_keys. intros Hin. apply elem_of_take in Hin as (i & Hi & _). apply list_elem_of_lookup_2 in Hi.
  rewrite merge_sort_Permutation in Hi. unfold blocking_rows in *. rewrite list_elem_of_fmap in Hi. destruct Hi as ([k' x] & -> & Hm).
  apply elem_of_matching in Hm as [Hx Hp]. simpl in *. apply andb_true_iff in Hp as [[Hc Ha]%andb_true_iff Hb]. split; [|done].
  apply list_elem_of_fmap. exists (k', x). split; [done|]. apply elem_of_matching. split; [done|]. simpl. by rewrite Hc, Hb.
Qed.
Lemma scanned_ascends cursor st : StronglySorted key_le (scanned_keys cursor st) /\ NoDup (scanned_keys cursor st).
Proof.
  unfold scanned_keys. split.
  - match goal with |- StronglySorted _ (take _ ?l) => assert (StronglySorted key_le l) as Hs by (apply StronglySorted_merge_sort; apply _) end.
    rewrite <- (take_drop SCAN_LIMIT (merge_sort _ _)) in Hs. by eapply StronglySorted_app_1_l.
  - eapply sublist_NoDup; [|apply sublist_take]. rewrite merge_sort_Permutation. apply matching_NoDup.
Qed.

Lemma after_Some c k : after (Some c) k = true <-> key_le c k /\ c <> k.
Proof. unfold after, key_le. rewrite andb_true_iff, negb_true_iff, bool_decide_eq_false. done. Qed.

(** The keys that are left after a page are those that were left before it, less the page. *)
Lemma page_shrinks (cursor : option execution_key) (st : RoomStore) (keys : gset execution_key) (next : execution_key) :
  (forall k, k ∈ startup_keys st -> k ∈ keys) -> last (scanned_keys cursor st) = Some next ->
  (length (scanned_keys cursor st) + size (filter (fun k => after (Some next) k = true) keys) <=
   size (filter (fun k => after cursor k = true) keys))%nat.
Proof.
  intros Hkeys Hlast. destruct (scanned_ascends cursor st) as [Hs Hnd]. set (page := scanned_keys cursor st) in *.
  assert (Hnext : forall k, k ∈ page -> key_le k next).
  { apply last_Some in Hlast as [l El]. rewrite El in *. intros k [Hk| ->%list_elem_of_singleton]%elem_of_app; [|unfold key_le; destruct (execution_key_total next next); done].
    eapply StronglySorted_app; [exact Hs|done|by left]. }
  rewrite <- (size_list_to_set (C := gset execution_key) page) by done. rewrite <- size_union.
  - apply subseteq_size. intros k. rewrite elem_of_union, elem_of_list_to_set, !elem_of_filter. intros [[Hk Ha]%scanned_in|[Ha Hk]].
    + split; [done|]. by apply Hkeys.
    + split; [|done]. apply last_Some_elem_of, scanned_in in Hlast as [_ Hn]. destruct cursor as [c|]; [|done].
      rewrite after_Some in *. destruct Hn as [Hn1 Hn2], Ha as [Ha1 Ha2]. split; [by etrans|]. intros <-. by apply Hn2, (anti_symm key_le).
  - intros k Hk%elem_of_list_to_set [Ha%after_Some _]%elem_of_filter. destruct Ha as [Ha Hne]. by apply Hne, (anti_symm key_le), Hnext.
Qed.

Lemma page_within (cursor : option execution_key) (st : RoomStore) (keys : gset execution_key) : (forall k, k ∈ startup_keys st -> k ∈ keys) ->
  (length (scanned_keys cursor st) <= size (filter (fun k => after cursor k = true) keys))%nat.
Proof.
  intros Hkeys. destruct (scanned_ascends cursor st) as [_ Hnd]. rewrite <- (size_list_to_set (C := gset execution_key) (scanned_keys cursor st)) by done.
  apply subseteq_size. intros k [Hk Ha]%elem_of_list_to_set%scanned_in. apply elem_of_filter. split; [done|]. by apply Hkeys.
Qed.

Section startup.
Context `{UnicodeGeneralCategory, CharCase, UnicodeCase, Caseless, Sha256, Chrono, Entropy, PersonaLibrary, UuidCrate, ChronoRange,
  AttendeeParent, RequestSerde, RegexCrate, ByteDigest, JsonText, PersonaSummaries, SessionSerde}.

Lemma traverse_length {E A B} (f : A -> result E B) l l' : traverse f l = Ok l' -> length l' = length l.
Proof.
  revert l'. induction l as [|a l IH]; simpl; intros l' Hl; [by injection Hl as <-|].
  destruct (f a) as [b|]; [|done]. simpl in Hl. destruct (traverse f l) as [bs|]; [|done]. injection Hl as <-. simpl. f_equal. by apply IH.
Qed.

Lemma page_loaded cursor st page : load_provider_turn_reconciliation_page cursor st = Ok page ->
  (length (tp_candidates page) <= length (scanned_keys cursor st))%nat /\
  (forall next, tp_next_cursor page = Some next -> length (scanned_keys cursor st) = SCAN_LIMIT /\ last (scanned_keys cursor st) = Some next).
Proof.
  unfold load_provider_turn_reconciliation_page. intros Hp.
  destruct (match cursor with Some k => _ | None => _ end); [|done]. simpl in Hp.
  destruct (traverse _ _) as [candidates|] eqn:Ht; [|done]. injection Hp as <-. simpl. apply traverse_length in Ht. split.
  - rewrite <- Ht. clear. induction candidates as [|[c|] l IH]; [done|..]; change (length (omap id (_ :: l))) with (S (length (omap id l))) || change (length (omap id (_ :: l))) with (length (omap id l)); simpl; lia.
  - intros next. by case_bool_decide.
Qed.

Lemma pages_suffice (keys : gset execution_key) fuel more cursor n stores r :
  Forall (fun st => forall k, k ∈ startup_keys st -> k ∈ keys) stores ->
  (size (filter (fun k => after cursor k = true) keys) < SCAN_LIMIT * fuel)%nat ->
  executes (reconcile_startup_pages fuel cursor n) stores r ->
  executes (reconcile_startup_pages (fuel + more) cursor n) stores r /\
  (forall m, r = Ok m -> (m <= n + size (filter (fun k => after cursor k = true) keys))%nat).
Proof.
  revert cursor n stores. induction fuel as [|fuel IH]; intros cursor n stores Hkeys Hsize; [lia|].
  cbn [reconcile_startup_pages Nat.add]. intros Hrun. refine (executes_bind_mono _ _ _ _ _ _ Hrun _). clear Hrun.
  intros s1 loaded s2 -> (st & -> & Hst)%executes_looks Hrest. apply Forall_cons in Hkeys as [Hk1 Hk2].
  destruct loaded as [page|e]; [|split; [done|]; by destruct Hrest as [_ ->]].
  destruct Hst as [|Hst]; [done|]. symmetry in Hst. destruct (page_loaded _ _ _ Hst) as [Hlen Hnext]. cbn [try_prog] in *.
  refine (executes_bind_mono _ _ _ _ _ _ Hrest _). clear Hrest. intros s3 reconciled s4 -> _ Hrest. apply Forall_app in Hk2 as [_ Hk4].
  destruct reconciled as [[]|e]; [|split; [done|]; by destruct Hrest as [_ ->]]. cbn [try_prog] in *.
  pose proof (page_within cursor st keys Hk1) as Hall.
  destruct (tp_next_cursor page) as [next|]; [|split; [done|]; destruct Hrest as [_ ->]; intros m [= <-]; lia].
  destruct (Hnext next eq_refl) as [Hfull Hlast]. pose proof (page_shrinks cursor st keys next Hk1 Hlast) as Hless.
  destruct (IH (Some next) _ s4 Hk4 ltac:(lia) Hrest) as [Hmore Hcount]. split; [done|]. intros m Hm. specialize (Hcount m Hm). lia.
Qed.

(** C36: however the store changes while the reconciliation of the startup goes through its
    pages, it ends within one more page of sixty-four than the rows of custody it can meet
    fill: given more pages it does the same; and it never takes more candidates than there
    are such rows. *)
Theorem startup_pages_end (keys : gset execution_key) (fuel more : nat) (stores : list RoomStore) (r : tx nat)
    (Hkeys : Forall (fun st => forall k, k ∈ startup_keys st -> k ∈ keys) stores) (Hfuel : (size keys < SCAN_LIMIT * fuel)%nat)
    (Hrun : executes (reconcile_provider_turn_ownership fuel) stores r) :
  executes (reconcile_provider_turn_ownership (fuel + more)) stores r /\ (forall n, r = Ok n -> (n <= size keys)%nat).
Proof.
  assert (filter (fun k => after None k = true) keys = keys) as E by (apply set_eq; intros k; rewrite elem_of_filter; simpl; tauto).
  destruct (pages_suffice keys fuel more None 0 stores r Hkeys) as [Hmore Hcount]; rewrite ?E in *; [done..|]. by split.
Qed.
End startup.

(** ** Concrete inputs *)

#[local] Existing Instances ascii_general_category ascii_uppercase ascii_unicode_case plain_case identity_digest plain_clock demo_entropy
  demo_persona accept_uuid every_instant no_parent demo_serde no_matches demo_json demo_summaries demo_session_serde identity_bytes.

(** A turn was assigned when the server stopped. *)
Definition demo_startup := execution turn_provider 20 demo_posted (reconcile_provider_turn_ownership 1).
Example demo_startup_result : demo_startup.2 = Ok 1%nat.
Proof. by vm_compute. Qed.

Lemma startup_pages_end_witness :
  executes (reconcile_provider_turn_ownership 4) demo_startup.1 demo_startup.2 /\
  (forall n, demo_startup.2 = Ok n -> (n <= size ({[posted_key]} : gset execution_key))%nat).
Proof.
  apply (startup_pages_end {[posted_key]} 1 3 demo_startup.1 demo_startup.2).
  - assert (bool_decide (Forall (fun st => Forall (fun k => k = posted_key) (startup_keys st)) demo_startup.1) = true) as Hb by (by vm_compute).
    apply bool_decide_eq_true in Hb. eapply Forall_impl; [exact Hb|]. intros st Hst k Hk. rewrite Forall_forall in Hst.
    apply elem_of_singleton. by apply Hst.
  - rewrite size_singleton. vm_compute. lia.
  - unfold demo_startup. exact (execution_executes turn_provider 20 demo_posted (reconcile_provider_turn_ownership 1)).
Defined.
